(* ===== verification/_CoqProject ===== *)
-Q . S2P
Prelude.v
Params.v
VarBytes.v
TxMeta.v
RollupDB.v
RLP.v
RLPStream.v
RLPStreamFacts.v
RLPDecode.v
RLPTyped.v
Crypto.v
TrieKeys.v
Trie.v
TrieFacts.v
TrieNode.v
TrieEnc.v
TrieDecode.v
TrieHash.v
TrieMap.v
TrieProof.v
MemoryDB.v
TrieDB.v
TrieDBList.v
TrieDBGraph.v
TrieDBFacts.v
TrieDBFlush.v
TrieDBCommit.v
TrieDBSafe.v
TrieStore.v
TrieStoreSample.v
Hexutil.v
Transaction.v
TxRLP.v
AccessList.v
StateData.v
State.v
StateFacts.v
VMWord.v
VMWordFacts.v
VMAnalysis.v
VMState.v
VMGas.v
VMPrecompiles.v
VMCall.v
VMOps.v
VMTable.v
VMRun.v
VMDatabase.v
VMLaws.v
VMFrame.v
VMGasFacts.v
VMPrecompileFacts.v
VMCallFacts.v
VMOpsFacts.v
VMTableFacts.v
VMRunFacts.v
VMStateLaws.v
VMStateMode.v
VMFuel.v
VMArith.v
VMJump.v
VMTheorems.v
SeqSet.v
Fees.v
Transition.v
TransitionFacts.v
Receipt.v
Blocks.v
BlockFacts.v
Filters.v
Processor.v
ProcessorFacts.v
SeqAdapter.v
Client.v
SyncState.v
SyncApply.v
SyncLoop.v
SyncFacts.v
SyncLoopFacts.v
SyncLive.v
