(* ===== verification/Prelude.v ===== *)
(** * Verification of the rollup node of mvm (l2geth)

    The program is a fork of go-ethereum that runs an optimistic rollup with a
    rotating set of sequencers.  Its core is the sync service
    ([src/l2geth/rollup/sync_service.go]): it polls the data transport layer through
    the rollup client ([rollup/client.go]), rebuilds transactions and blocks,
    asks the sequencer adapter ([rollup/rollup_adapter.go]) whose turn the next
    block is, signs or checks the sequencer's signature, hands the transaction to
    the worker over channels, and keeps its progress in index cells of the database
    ([core/rawdb/rollup_indexes.go]).  Imported blocks are checked against the
    sequencer contract by [core/seq_set.go].  Underneath lie transactions and signers
    ([core/types]), their metadata, RLP, the fee rules, hexadecimal and varint codecs
    and the chain configuration ([params/config.go]).  Blocks are executed by the state
    processor ([core/state_processor.go]): each transaction becomes a message whose
    transition ([core/state_transition.go]) runs the virtual machine ([core/vm]) over the
    state database ([core/state]), whose accounts and slots live in Merkle tries
    ([trie]) that a reference-counting database keeps in memory and writes to disk.
    Receipts, blooms and blocks ([core/types]) record the result, and log filters
    ([eth/filters]) search it.  All paths below are under [src/l2geth].

    ** Conventions

    Go code that may fail or panic is a value of [outcome]: [Ok], [Err] with a Go
    error, [Panic] (nil dereference, index out of range, explicit panic), and
    [Blocked] (a channel that no one serves, or a fuelled loop out of fuel).  Stateful code is in the monad
    [M S A := S -> outcome A * S], so the state at the point of failure is kept, as in
    Go.  Machine words are [Z] with [u64], [u8] and [i64] written where the source
    wraps; [in_u64] is their range.  A [*big.Int] is [Z], a nilable pointer [option].
    Logging and metrics have no definition.

    ** Files

    - [Prelude]: the monad and its notations, Hoare triples and the walkers
      [errors_in], [preserves] and [total], with the shared lemmas.
    - [Params] ([params/config.go]): fork predicates, rules, rollup settings,
      [CheckCompatible], [CheckConfigForkOrder].
    - [VarBytes] ([common/varbytes.go]), [TxMeta] ([core/types/transaction_meta.go]),
      [RollupDB] ([core/rawdb/rollup_indexes.go]; the key-value store is a map).
    - [RLP] ([rlp/encode.go]: the buffer of string data and list headers),
      [RLPStream] ([rlp/decode.go]: the [Stream] state with its kind, size and list
      stack), [RLPStreamFacts], [RLPDecode] ([decodeInterface], [DecodeBytes] and the
      helpers of [rlp/raw.go]), [RLPTyped] (the typed decoders that the modelled types
      use: integers, byte strings, arrays, structs with optional fields, slices).
    - [Crypto] ([common/types.go], [common/bytes.go], [crypto/crypto.go],
      [crypto/signature_cgo.go]): addresses, hashes, signature checks.  Keccak-256 and
      secp256k1 are the operations of a class, with concrete instances for witnesses.
    - [Hexutil] ([common/hexutil]).
    - [Transaction] ([core/types/transaction.go], [transaction_signing.go]): the
      transaction with its three caches, the signers, messages; [TxRLP] its RLP form.
    - [TrieKeys] ([trie/encoding.go]), [Trie] ([trie/trie.go]), [TrieNode] ([trie/node.go],
      [hasher.go]): nodes with unloaded hashes and cached hashes, lookup,
      insertion, deletion, hashing, commit.  [TrieFacts], [TrieEnc], [TrieDecode],
      [TrieHash] and [TrieMap] relate them to trees and to maps; [TrieProof]
      ([trie/proof.go]) has the proofs.
    - [MemoryDB] ([ethdb/memorydb]), [TrieDB] ([trie/database.go]): dirty nodes, the flush
      list as a linked list in a store, reference counts, [Cap], [Commit];
      [TrieDBList], [TrieDBGraph], [TrieDBFacts], [TrieDBFlush], [TrieDBCommit] and
      [TrieDBSafe] the invariants and theorems; [TrieStore] ties the trie to it;
      [TrieStoreSample] the examples of both.
    - [AccessList], [StateData], [State] ([core/state]): objects, journal, snapshots,
      balances in the OVM_ETH contract, finalisation, roots, over the class [Backend] of
      tries; [StateFacts] their theory.
    - [VMWord] (256-bit words), [VMAnalysis] (stack, memory, jump destinations), [VMState]
      (the machine's state and the interface [Database] with its methods), [VMGas],
      [VMPrecompiles], [VMCall], [VMOps], [VMTable], [VMRun]: the machine of [core/vm];
      [VMDatabase] makes the state database an instance.
    - [VMLaws] is the contract a database has with the machine, [VMFrame] the logic of a
      frame; [VMWordFacts], [VMGasFacts], [VMPrecompileFacts], [VMCallFacts],
      [VMOpsFacts], [VMTableFacts] and [VMRunFacts] show that every part keeps it,
      [VMStateLaws] that the state database keeps the contract, [VMStateMode] what a
      static call and what a transaction leave alone, [VMFuel] that fuel does not
      matter; [VMArith], [VMJump] and [VMTheorems] are the theorems.
    - [Transition] ([core/state_transition.go], [core/gaspool.go]) and [TransitionFacts];
      [Receipt] ([core/types/receipt.go], [log.go], [bloom9.go]); [Blocks]
      ([core/types/block.go], [derive_sha.go], [core/block_validator.go]) and
      [BlockFacts]; [Filters] ([eth/filters/filter.go]); [Processor]
      ([core/state_processor.go], [core/evm.go], [consensus/misc/dao.go], the end of a
      block in [consensus/clique]) and [ProcessorFacts].
    - [SeqSet] ([core/seq_set.go]): recommit data, signer recovery, the package-level
      epoch cache as state, [processSeqSetBlock].
    - [Fees] ([rollup/fees/rollup_fee.go], [eth/gasprice/rollup_gasprice.go]): L1 gas,
      fees, [big.Float] and [float64] rounding, [PaysEnough], the price cache.
    - [SeqAdapter] ([rollup/rollup_adapter.go]): cached epoch, pending respans,
      [GetTxSequencer]; contract and node answers are the record [SeqEnv].
    - [Client] ([rollup/client.go]): conversions and requests over the class
      [Transport]; the sticky inbox flag is the client's state.
    - [SyncState], [SyncApply], [SyncLoop] ([rollup/sync_service.go]): the record
      [Service] (database, L1 context, channels, adapter, environment), the apply
      paths with the sequencer checks, and the synchronisation loops.  The chain, the
      pool, the feeds and the clock are the class [SyncEnv]; the adapter is a class
      too, so that the theorems hold for any adapter.  [SyncLoop] ends with a concrete node on which the theorems are instantiated;
      [SyncFacts], [SyncLoopFacts] and [SyncLive] are the theorems about the service.

    ** What the theorems show

    - Service: a node never mines on another's turn ([not_my_turn]); a block or a
      local transaction is applied as a whole or rolled back ([applyBlock_correct],
      [tip_outcome]); indices are not skipped ([applyTransaction_no_gaps]); batch and
      queue indices advance only past what was applied ([syncTransactionBatch_atomic],
      [queue_failure_retried]); the loops end
      ([verifyStateRoot_verdict], [fixQueueIndex_correct], [syncToTip_stable]), and the
      node catches up with a queue that grows meanwhile ([queue_catches_up]); the L1
      clock is monotone ([updateL1BlockNumber_monotone]); the RPC entry point lets
      through only checked transactions ([rpc_accepts_valid]).
    - Sequencers: the adapter names only a sequencer it can justify
      ([GetTxSequencer_cases], [getSequencer_covers], [respan_pauses],
      [adapter_reachable]); block import accepts exactly the cached signers
      ([seqset_block_check], [epochCache_history], [DecodeReCommitData_correct]).
    - Transactions: recovery inverts signing, replay is rejected, hash preimages are
      injective, caches are transparent; the client rebuilds what the server sent.
    - Codecs: the RLP encoder refines the recursive encoding, and the decoder accepts
      exactly the canonical encodings; round trips of metadata, varints, hexadecimal
      and the index cells.
    - Tries: a trie is a map ([trie_refines_map]) whose root depends on nothing else
      ([trie_history_independent]) and binds it ([trie_root_binding]); proofs are complete
      and sound; the database collects no live node ([gc_safe]), never trips over its own
      structure ([gc_total]), and what it commits can be read back ([commit_durable],
      [trie_persists]).
    - State: reverting to a snapshot restores all that can be observed
      ([snapshot_revert]).
    - Machine: a round keeps the frame in order ([step_type_safe]); calls and creations
      return whatever the code ([machine_returns]) and give back no more gas than they got;
      failed calls leave no trace ([failed_call_undone]), static calls change nothing
      ([static_call_changes_nothing]); arithmetic and jumps are what they should be
      ([stack_instructions_correct], [jump_correct]).
    - Execution: a message pays for exactly the gas it uses ([message_settles_gas]) or is
      refused without effect ([message_refused]); a block's gas, receipts and logs add up
      ([process_accounts]); an assembled block validates ([new_block_validates]) and its
      hash binds its transactions ([block_hash_binds_transactions]); receipts survive the
      wire ([receipt_rlp_roundtrip]); filters find every matching log ([logs_found]).
    - Fees and configuration: exact L1 gas without wrap-around, the price test, fork
      order and compatibility.

    ** Bounds and fuel

    - The RLP decoder is fuelled by the input length; [DecodeBytes_correct] shows that
      it never runs out.  Its bound of 2^48 bytes is beyond any Go slice.
    - [CheckCompatible] is fuelled by the head block; [CheckCompatible_correct] shows
      that it suffices.
    - The wait for a state root has the source's own bound of 36000 rounds.
    - [confirmed_loop] and the search of [fixQueueIndex] are fuelled by the index they
      count down from; their theorems show a result is reached.
    - [syncToTip] has no bound in the source; the model takes one.  [syncToTip_stable]
      shows one round is enough against a server that rests, [queue_catches_up] as many
      rounds as the tip rises against one that moves.
    - The loop of the machine is fuelled; every round takes gas, so fuel beyond the gas is
      enough ([machine_returns]), and the processor runs a message with fuel one beyond
      its gas limit.  Gas limits are below 2^62, far beyond any block.
    - The recursions over the trie database are fuelled by the depth of the trie;
      [gc_total] shows that fuel beyond the height of the node is enough.
    - The search for the hash of an ancestor is fuelled by the block number; lemma
      [GetHashFn_chain] shows that it ends on every chain of headers.
    - The search of a filter is fuelled by its range; [logs_found] shows that it ends.
    - The L1 timestamps of [updateL1BlockNumber_monotone] are below 2^33, where Go's
      durations do not saturate.

    ** Not modelled

    Goroutine scheduling (a send and the answer it waits for are one step), tickers
    and shutdown, subscriptions, JSON and HTTP themselves, the choice of RLP decoders by
    reflection, the storage forms of receipts and blocks, trie iterators and fast sync,
    tracers.  Blocks before Byzantium and the hard fork of the DAO are modelled, but
    [process_accounts] leaves them out: the rollup has neither.  Of the
    components around: the transaction pool and the worker (heaps and goroutines, which the
    service meets through channels and parameters), block import and the header chain
    (database plumbing; a parameter of the processor), votes and seals of the clique engine,
    networking, wallets, and the services outside [l2geth]. *)
From stdpp Require Import prelude gmap strings list pretty.
From Stdlib Require Import ZArith Lia Strings.Byte.
Local Open Scope Z_scope.

(** ** Machine integers *)

(** [u64 z] is the value Go stores in a [uint64] when the mathematical result
    is [z]: arithmetic on unsigned words is modulo 2^64. *)
Definition u64 (z : Z) : Z := z mod 2 ^ 64.
Definition u8 (z : Z) : Z := z mod 2 ^ 8.
(** [int64(x)] of a [uint64]. *)
Definition i64 (z : Z) : Z := if u64 z <? 2 ^ 63 then u64 z else u64 z - 2 ^ 64.
Definition in_u64 (z : Z) : Prop := 0 <= z < 2 ^ 64.
Definition maxU64 : Z := 2 ^ 64 - 1.

Lemma u64_small z : in_u64 z -> u64 z = z.
Proof. unfold in_u64, u64. intros. by rewrite Z.mod_small. Qed.
Lemma u64_in z : in_u64 (u64 z).
Proof. unfold in_u64, u64. apply Z.mod_pos_bound. lia. Qed.
Lemma u64_idemp z : u64 (u64 z) = u64 z.
Proof. apply u64_small, u64_in. Qed.

(** ** Bytes *)

Abbreviation bytes := (list Byte.byte).

#[export] Instance byte_eq_decision : EqDecision Byte.byte := Byte.byte_eq_dec.

Definition b2z (b : Byte.byte) : Z := Z.of_N (Byte.to_N b).
Definition z2b (z : Z) : Byte.byte :=
  match Byte.of_N (Z.to_N (z mod 256)) with Some b => b | None => Byte.x00 end.

Lemma b2z_range b : 0 <= b2z b < 256.
Proof. unfold b2z. pose proof (Byte.to_N_bounded b). lia. Qed.

Lemma z2b_b2z b : z2b (b2z b) = b.
Proof. destruct b; reflexivity. Qed.

Lemma b2z_z2b z : b2z (z2b z) = z mod 256.
Proof.
  pose proof (Z.mod_pos_bound z 256 ltac:(lia)) as Hr.
  unfold b2z, z2b. destruct (Byte.of_N (Z.to_N (z mod 256))) as [b|] eqn:E.
  - apply Byte.to_of_N in E. rewrite E. lia.
  - apply Byte.of_N_None_iff in E. lia.
Qed.

#[export] Instance byte_countable : Countable Byte.byte.
Proof. apply (inj_countable Byte.to_N (fun n => Byte.of_N n)). intros b. apply Byte.of_to_N. Defined.

(** Fixed-width little-endian encodings, as [binary.LittleEndian] writes and
    reads them. *)
Fixpoint put_le (n : nat) (z : Z) : bytes :=
  match n with
  | O => []
  | S n' => z2b z :: put_le n' (z / 256)
  end.

Fixpoint get_le (bs : bytes) : Z :=
  match bs with
  | [] => 0
  | b :: bs' => b2z b + 256 * get_le bs'
  end.

Lemma length_put_le n z : length (put_le n z) = n.
Proof. revert z. induction n as [|n IH]; intros z; simpl; [done|]. by rewrite IH. Qed.

Lemma get_put_le n z : get_le (put_le n z) = z mod 256 ^ Z.of_nat n.
Proof.
  revert z. induction n as [|n IH]; intros z.
  - simpl. by rewrite Z.mod_1_r.
  - cbn [put_le get_le]. rewrite IH, b2z_z2b, Nat2Z.inj_succ, Z.pow_succ_r by lia.
    rewrite Z.rem_mul_r by lia. done.
Qed.

Lemma get_le_range bs : 0 <= get_le bs < 256 ^ Z.of_nat (length bs).
Proof.
  induction bs as [|b bs IH]; [done|]. cbn [get_le length].
  rewrite Nat2Z.inj_succ, Z.pow_succ_r by lia. pose proof (b2z_range b). lia.
Qed.

Lemma put_get_le bs : put_le (length bs) (get_le bs) = bs.
Proof.
  induction bs as [|b bs IH]; [done|]. cbn [put_le get_le length].
  pose proof (b2z_range b) as Hb.
  assert (Hz : z2b (b2z b + 256 * get_le bs) = b).
  { rewrite <- (z2b_b2z b) at 2. unfold z2b.
    replace ((b2z b + 256 * get_le bs) mod 256) with (b2z b mod 256); [done|].
    by rewrite Z.mul_comm, Z_mod_plus_full. }
  assert (Hq : (b2z b + 256 * get_le bs) / 256 = get_le bs).
  { rewrite Z.mul_comm, Z_div_plus_full, Z.div_small by lia. lia. }
  by rewrite Hz, Hq, IH.
Qed.

(** ** [big.Int] and its byte encodings *)

(** [SetBytes]: the big-endian value of a byte string. *)
Definition be_value (bs : bytes) : Z := get_le (reverse bs).

(** The little-endian digits of [z], as many as it needs; [fuel] bounds the
    number of digits, and one digit per bit is always enough. *)
Fixpoint digits_le (fuel : nat) (z : Z) : bytes :=
  match fuel with
  | O => []
  | S f => if z <=? 0 then [] else z2b z :: digits_le f (z / 256)
  end.

(** [Bytes]: the absolute value of [z] as a big-endian byte string without
    leading zeros. *)
Definition big_bytes (z : Z) : bytes :=
  reverse (digits_le (S (Z.to_nat (Z.log2 (Z.abs z)))) (Z.abs z)).

(** [Uint64]: the low 64 bits of the absolute value. *)
Definition big_uint64 (z : Z) : Z := u64 (Z.abs z).

Lemma get_digits_le fuel z :
  0 <= z < 256 ^ Z.of_nat fuel -> get_le (digits_le fuel z) = z.
Proof.
  revert z. induction fuel as [|f IH]; intros z Hz.
  - simpl in *. lia.
  - cbn [digits_le]. destruct (Z.leb_spec z 0); [simpl; lia|].
    cbn [get_le]. rewrite b2z_z2b, IH.
    + rewrite (Z.div_mod z 256) at 3 by lia. lia.
    + rewrite Nat2Z.inj_succ, Z.pow_succ_r in Hz by lia.
      split; [apply Z.div_pos; lia|]. apply Z.div_lt_upper_bound; lia.
Qed.

Lemma digits_fuel_enough z : 0 <= z -> z < 256 ^ Z.of_nat (S (Z.to_nat (Z.log2 z))).
Proof.
  intros Hz. destruct (Z.eq_dec z 0) as [->|Hne]; [simpl; lia|].
  pose proof (Z.log2_spec z ltac:(lia)) as [_ Hl]. pose proof (Z.log2_nonneg z).
  rewrite Nat2Z.inj_succ, Z2Nat.id by done.
  eapply Z.lt_le_trans; [exact Hl|]. apply Z.pow_le_mono_l. lia.
Qed.

Lemma be_value_big_bytes z : be_value (big_bytes z) = Z.abs z.
Proof.
  unfold be_value, big_bytes. rewrite reverse_involutive.
  apply get_digits_le. split; [lia|]. apply digits_fuel_enough. lia.
Qed.

Lemma be_value_nonneg bs : 0 <= be_value bs.
Proof. unfold be_value. apply get_le_range. Qed.

Lemma length_digits_le fuel z k :
  0 <= z < 256 ^ Z.of_nat k -> (length (digits_le fuel z) <= k)%nat.
Proof.
  revert z k. induction fuel as [|f IH]; intros z k Hz; simpl; [lia|].
  destruct (Z.leb_spec z 0); simpl; [lia|].
  destruct k as [|k]; [simpl in Hz; lia|].
  rewrite Nat2Z.inj_succ, Z.pow_succ_r in Hz by lia.
  specialize (IH (z / 256) k). apply le_n_S, IH.
  split; [apply Z.div_pos; lia|]. apply Z.div_lt_upper_bound; lia.
Qed.

Lemma length_big_bytes z k :
  Z.abs z < 256 ^ Z.of_nat k -> (length (big_bytes z) <= k)%nat.
Proof.
  intros Hz. unfold big_bytes. rewrite length_reverse.
  apply length_digits_le. lia.
Qed.

(** [Bytes] never yields the one-byte string [0x00]: zero is the empty string. *)
Lemma big_bytes_not_zero z : big_bytes z <> [Byte.x00].
Proof.
  intros Heq. pose proof (be_value_big_bytes z) as Hv. rewrite Heq in Hv.
  change (be_value [Byte.x00]) with 0 in Hv. assert (z = 0) as -> by lia. done.
Qed.

Lemma get_le_app a b : get_le (a ++ b) = get_le a + 256 ^ Z.of_nat (length a) * get_le b.
Proof.
  induction a as [|x a IH]; cbn [app get_le length]; [simpl; lia|].
  rewrite IH, Nat2Z.inj_succ, Z.pow_succ_r by lia. lia.
Qed.

Lemma be_value_cons x bs :
  be_value (x :: bs) = b2z x * 256 ^ Z.of_nat (length bs) + be_value bs.
Proof.
  unfold be_value. rewrite reverse_cons, get_le_app, length_reverse. cbn [get_le]. lia.
Qed.

Lemma be_value_single b : be_value [b] = b2z b.
Proof. unfold be_value. change (reverse [b]) with [b]. cbn [get_le]. lia. Qed.

Lemma be_value_range bs : 0 <= be_value bs < 256 ^ Z.of_nat (length bs).
Proof. unfold be_value. rewrite <- (length_reverse bs). apply get_le_range. Qed.

Lemma b2z_zero b : b2z b = 0 -> b = Byte.x00.
Proof. intros H. rewrite <- (z2b_b2z b), H. reflexivity. Qed.

Lemma be_value_zeros k b : be_value (replicate k Byte.x00 ++ b) = be_value b.
Proof.
  unfold be_value. rewrite reverse_app, reverse_replicate. induction (reverse b) as [|x l IH]; cbn.
  - induction k as [|k IH]; [done|]. cbn. rewrite IH. done.
  - by rewrite IH.
Qed.

Lemma be_value_inj b1 b2 : length b1 = length b2 -> be_value b1 = be_value b2 -> b1 = b2.
Proof.
  intros Hl He. rewrite <- (reverse_involutive b1), <- (reverse_involutive b2). f_equal.
  rewrite <- (put_get_le (reverse b1)), <- (put_get_le (reverse b2)), !length_reverse.
  unfold be_value in He. by rewrite Hl, He.
Qed.

(** ** Go errors *)

(** An [error] value: a package-level sentinel compared by identity, an error
    made on the spot, or one wrapped with [fmt.Errorf] and the [%w] verb at the
    end of the format. *)
Inductive goerror :=
| ErrVar (name msg : string)
| ErrNew (msg : string)
| ErrWrap (prefix : string) (inner : goerror)  (* fmt.Errorf("prefix: %w", inner) *)
| ErrWith (inner : goerror) (suffix : string)  (* fmt.Errorf("%w: suffix", inner) *)
| ErrPath (what : goerror) (stack : list string).  (* the decodeError of package trie *)

#[export] Instance goerror_eq_decision : EqDecision goerror.
Proof. solve_decision. Defined.

(** [err.Error()] *)
Fixpoint err_string (e : goerror) : string :=
  match e with
  | ErrVar _ m => m
  | ErrNew m => m
  | ErrWrap p e' => p +:+ ": " +:+ err_string e'
  | ErrWith e' s => err_string e' +:+ ": " +:+ s
  | ErrPath e' st => err_string e' +:+ " (decode path: " +:+ String.concat "<-" st +:+ ")"
  end.

(** [errors.Is(err, target)] for a sentinel [target]. *)
Fixpoint errors_Is (e : goerror) (target : goerror) : bool :=
  bool_decide (e = target) ||
  match e with ErrWrap _ e' | ErrWith e' _ => errors_Is e' target | _ => false end.

(** [strings.Contains(s, sub)] *)
Fixpoint str_contains (sub s : string) : bool :=
  String.prefix sub s ||
  match s with
  | EmptyString => false
  | String _ s' => str_contains sub s'
  end.

(** ** Outcomes and stateful computations

    A call returns a value, returns an error, panics (nil dereference, explicit
    panic), or blocks on a channel that nobody will write to. *)
Inductive outcome (A : Type) :=
| Ok (a : A)
| Err (e : goerror)
| Panic (why : string)
| Blocked.
Arguments Ok {A} a.
Arguments Err {A} e.
Arguments Panic {A} why.
Arguments Blocked {A}.

#[export] Instance outcome_ret : MRet outcome := fun A a => Ok a.
#[export] Instance outcome_bind : MBind outcome := fun A B f m =>
  match m with
  | Ok a => f a
  | Err e => Err e
  | Panic w => Panic w
  | Blocked => Blocked
  end.

#[export] Instance outcome_fmap : FMap outcome := fun A B f o =>
  match o with Ok a => Ok (f a) | Err e => Err e | Panic w => Panic w | Blocked => Blocked end.

(** A computation over a mutable state [S]: the state survives errors and
    panics, as the receiver's fields do in Go. *)
Definition M (S A : Type) : Type := S -> outcome A * S.

Definition ret {S A} (a : A) : M S A := fun s => (Ok a, s).
Definition bindM {S A B} (m : M S A) (f : A -> M S B) : M S B := fun s =>
  match m s with
  | (Ok a, s') => f a s'
  | (Err e, s') => (Err e, s')
  | (Panic w, s') => (Panic w, s')
  | (Blocked, s') => (Blocked, s')
  end.

Declare Scope go_scope.
Delimit Scope go_scope with go.
Notation "x ← y ; z" := (bindM y (fun x => z))
  (at level 20, y at level 100, z at level 200, only parsing) : go_scope.
Notation "' x ← y ; z" := (bindM y (fun x => z))
  (at level 20, x pattern, y at level 100, z at level 200, only parsing) : go_scope.
Notation "y ;; z" := (bindM y (fun _ => z))
  (at level 100, z at level 200, right associativity, only parsing) : go_scope.
#[global] Open Scope go_scope.

Definition throw {S A} (e : goerror) : M S A := fun s => (Err e, s).
Definition gopanic {S A} (w : string) : M S A := fun s => (Panic w, s).
Definition blocked {S A} : M S A := fun s => (Blocked, s).
Definition getS {S} : M S S := fun s => (Ok s, s).
Definition gets {S A} (f : S -> A) : M S A := fun s => (Ok (f s), s).
Definition modS {S} (f : S -> S) : M S unit := fun s => (Ok tt, f s).
Definition lift_out {S A} (o : outcome A) : M S A := fun s => (o, s).

(** [x, err := m()]: the error as a value. *)
Definition attempt {S A} (m : M S A) : M S (goerror + A) := fun s =>
  match m s with
  | (Ok a, s') => (Ok (inr a), s')
  | (Err e, s') => (Ok (inl e), s')
  | (Panic w, s') => (Panic w, s')
  | (Blocked, s') => (Blocked, s')
  end.

(** [if err != nil { return fmt.Errorf("prefix: %w", err) }] *)
Definition wrap {S A} (prefix : string) (m : M S A) : M S A := fun s =>
  match m s with
  | (Err e, s') => (Err (ErrWrap prefix e), s')
  | r => r
  end.

Definition when {S} (b : bool) (m : M S unit) : M S unit := if b then m else ret tt.

(** A pointer dereference [*p]. *)
Definition deref {S A} (what : string) (p : option A) : M S A :=
  match p with Some a => ret a | None => gopanic what end.

Definition is_ok {A} (o : outcome A) : bool := match o with Ok _ => true | _ => false end.

Lemma bind_Ok {S A B} (m : M S A) (f : A -> M S B) s a s' :
  m s = (Ok a, s') -> bindM m f s = f a s'.
Proof. intros H. unfold bindM. by rewrite H. Qed.

Lemma bind_Err {S A B} (m : M S A) (f : A -> M S B) s e s' :
  m s = (Err e, s') -> bindM m f s = (Err e, s').
Proof. intros H. unfold bindM. by rewrite H. Qed.

Lemma bind_Ok_inv {S A B} (m : M S A) (f : A -> M S B) s b s' :
  bindM m f s = (Ok b, s') -> exists a s1, m s = (Ok a, s1) /\ f a s1 = (Ok b, s').
Proof.
  unfold bindM. destruct (m s) as [[a|e|w|] s1]; try discriminate. eauto.
Qed.

Lemma bind_Err_inv {S A B} (m : M S A) (f : A -> M S B) s e s' :
  bindM m f s = (Err e, s') ->
  m s = (Err e, s') \/ exists a s1, m s = (Ok a, s1) /\ f a s1 = (Err e, s').
Proof.
  unfold bindM. destruct (m s) as [[a|e1|w|] s1]; try discriminate; [eauto|].
  intros [= -> ->]. by left.
Qed.

Lemma bindM_assoc {S A B C} (m : M S A) (f : A -> M S B) (g : B -> M S C) s :
  bindM (bindM m f) g s = bindM m (fun x => bindM (f x) g) s.
Proof. unfold bindM. by destruct (m s) as [[] ?]. Qed.

Lemma attempt_Ok {S A} (m : M S A) s a s' : m s = (Ok a, s') -> attempt m s = (Ok (inr a), s').
Proof. unfold attempt. by intros ->. Qed.
Lemma attempt_Err {S A} (m : M S A) s e s' : m s = (Err e, s') -> attempt m s = (Ok (inl e), s').
Proof. unfold attempt. by intros ->. Qed.
Lemma attempt_inr_inv {S A} (m : M S A) s a s' :
  attempt m s = (Ok (inr a), s') -> m s = (Ok a, s').
Proof. unfold attempt. destruct (m s) as [[x|e|w|] s1]; intros; by simplify_eq. Qed.
Lemma attempt_inl_inv {S A} (m : M S A) s e s' :
  attempt m s = (Ok (inl e), s') -> m s = (Err e, s').
Proof. unfold attempt. destruct (m s) as [[x|e'|w|] s1]; intros; by simplify_eq. Qed.

(** *** Which errors a computation may return

    [errors_in E m]: every error of [m] satisfies [E]; closed under the
    combinators, so the side conditions are the thrown errors. *)

Definition errors_in {S A} (E : goerror -> Prop) (m : M S A) : Prop :=
  forall s e s', m s = (Err e, s') -> E e.

Section errors_in.
Context {S : Type} (E : goerror -> Prop).

Lemma errors_in_ret {A} (a : A) : errors_in E (ret (S:=S) a).
Proof. intros ???; discriminate. Qed.
Lemma errors_in_gets {A} (f : S -> A) : errors_in E (gets f).
Proof. intros ???; discriminate. Qed.
Lemma errors_in_getS : errors_in E (getS (S:=S)).
Proof. intros ???; discriminate. Qed.
Lemma errors_in_modS (f : S -> S) : errors_in E (modS f).
Proof. intros ???; discriminate. Qed.
Lemma errors_in_gopanic {A} w : errors_in E (gopanic (S:=S) (A:=A) w).
Proof. intros ???; discriminate. Qed.
Lemma errors_in_blocked {A} : errors_in E (blocked (S:=S) (A:=A)).
Proof. intros ???; discriminate. Qed.
Lemma errors_in_attempt {A} (m : M S A) : errors_in E (attempt m).
Proof. intros s e s'. unfold attempt. by destruct (m s) as [[] ]. Qed.
Lemma errors_in_throw {A} e : E e -> errors_in E (throw (S:=S) (A:=A) e).
Proof. intros He s e' s' [= <- _]. exact He. Qed.
Lemma errors_in_when b (m : M S unit) : errors_in E m -> errors_in E (when b m).
Proof. destruct b; [done|intros _; apply errors_in_ret]. Qed.
Lemma errors_in_bind {A B} (m : M S A) (f : A -> M S B) :
    errors_in E m -> (forall a, errors_in E (f a)) -> errors_in E (bindM m f).
Proof.
    intros Hm Hf s e s'. unfold bindM. destruct (m s) as [[a|e1|w|] s1] eqn:Em; try discriminate.
    - apply Hf.
    - intros [= <- _]. eauto.
  Qed.
End errors_in.

(** *** Computations that return

    [returned o]: a value or an error, neither a panic nor a wait. *)

Definition returned {A} (o : outcome A) : Prop :=
  match o with Ok _ | Err _ => True | Panic _ | Blocked => False end.

Definition total {S A} (m : M S A) : Prop := forall s, returned (fst (m s)).

Lemma returned_bind {S A B} (m : M S A) (f : A -> M S B) s :
  returned (fst (m s)) -> (forall a s1, m s = (Ok a, s1) -> returned (fst (f a s1))) ->
  returned (fst (bindM m f s)).
Proof. unfold bindM. destruct (m s) as [[a|e|w|] s1]; cbn; intros H1 H2; by try apply H2. Qed.

Lemma returned_attempt {S A} (m : M S A) s :
  returned (fst (m s)) -> returned (fst (attempt m s)).
Proof. unfold attempt. by destruct (m s) as [[] ]. Qed.

Section total.
Context {S : Type}.

Lemma total_ret {A} (a : A) : total (ret (S:=S) a).
Proof. done. Qed.
Lemma total_gets {A} (f : S -> A) : total (gets f).
Proof. done. Qed.
Lemma total_getS : total (getS (S:=S)).
Proof. done. Qed.
Lemma total_modS (f : S -> S) : total (modS f).
Proof. done. Qed.
Lemma total_throw {A} e : total (throw (S:=S) (A:=A) e).
Proof. done. Qed.
Lemma total_attempt {A} (m : M S A) : total m -> total (attempt m).
Proof. intros Hm s. apply returned_attempt, Hm. Qed.
Lemma total_when b (m : M S unit) : total m -> total (when b m).
Proof. by destruct b. Qed.
Lemma total_bind {A B} (m : M S A) (f : A -> M S B) :
  total m -> (forall a, total (f a)) -> total (bindM m f).
Proof. intros Hm Hf s. apply returned_bind; [apply Hm|]. intros a s1 _. apply Hf. Qed.
End total.

(** *** State properties a computation keeps *)

Definition preserves {S A} (P : S -> Prop) (m : M S A) : Prop := forall s, P s -> P (snd (m s)).

Section preserves.
Context {S : Type} (P : S -> Prop).

Lemma preserves_ret {A} (a : A) : preserves P (ret a).
Proof. by intros s. Qed.
Lemma preserves_gets {A} (f : S -> A) : preserves P (gets f).
Proof. by intros s. Qed.
Lemma preserves_getS : preserves P getS.
Proof. by intros s. Qed.
Lemma preserves_throw {A} e : preserves P (throw (A:=A) e).
Proof. by intros s. Qed.
Lemma preserves_gopanic {A} w : preserves P (gopanic (A:=A) w).
Proof. by intros s. Qed.
Lemma preserves_blocked {A} : preserves P (blocked (A:=A)).
Proof. by intros s. Qed.
Lemma preserves_lift_out {A} (o : outcome A) : preserves P (lift_out o).
Proof. by intros s. Qed.
Lemma preserves_deref {A} w (p : option A) : preserves P (deref w p).
Proof. destruct p; by intros s. Qed.
Lemma preserves_modS f : (forall s, P s -> P (f s)) -> preserves P (modS f).
Proof. intros H s Hs. by apply H. Qed.
Lemma preserves_attempt {A} (m : M S A) : preserves P m -> preserves P (attempt m).
Proof. intros H s Hs. unfold attempt. specialize (H s Hs). by destruct (m s) as [[] ]. Qed.
Lemma preserves_wrap {A} p (m : M S A) : preserves P m -> preserves P (wrap p m).
Proof. intros H s Hs. unfold wrap. specialize (H s Hs). by destruct (m s) as [[] ]. Qed.
Lemma preserves_when b m : preserves P m -> preserves P (when b m).
Proof. destruct b; [done|intros _; by intros s]. Qed.
Lemma preserves_bind {A B} (m : M S A) (f : A -> M S B) :
  preserves P m -> (forall a, preserves P (f a)) -> preserves P (bindM m f).
Proof.
  intros Hm Hf s Hs. unfold bindM. specialize (Hm s Hs). destruct (m s) as [[a|e|w|] s1]; try done.
  by apply Hf.
Qed.
End preserves.

(** *** Pre- and postconditions

    From a state satisfying [P], a returned value satisfies [Q] and a returned
    error [R], each with the final state. *)
Definition triple {S A} (P : S -> Prop) (m : M S A) (Q : A -> S -> Prop) (R : goerror -> S -> Prop) : Prop :=
  forall s, P s ->
    match m s with
    | (Ok a, s') => Q a s'
    | (Err e, s') => R e s'
    | _ => True
    end.

Section triple.
Context {S : Type}.
Implicit Types P : S -> Prop.

Lemma triple_conseq {A} P P' (m : M S A) Q Q' R R' :
  triple P' m Q' R' -> (forall s, P s -> P' s) -> (forall a s, Q' a s -> Q a s) ->
  (forall e s, R' e s -> R e s) -> triple P m Q R.
Proof.
  intros H HP HQ HR s Hs. specialize (H s (HP s Hs)). destruct (m s) as [[] ?]; auto.
Qed.
Lemma triple_ret {A} P (a : A) Q R : (forall s, P s -> Q a s) -> triple P (ret a) Q R.
Proof. intros H s Hs. by apply H. Qed.
Lemma triple_throw {A} P e (Q : A -> S -> Prop) R : (forall s, P s -> R e s) -> triple P (throw e) Q R.
Proof. intros H s Hs. by apply H. Qed.
Lemma triple_bind {A B} P (m : M S A) (f : A -> M S B) I Q R :
  triple P m I R -> (forall a, triple (I a) (f a) Q R) -> triple P (bindM m f) Q R.
Proof.
  intros Hm Hf s Hs. specialize (Hm s Hs). unfold bindM.
  destruct (m s) as [[a|e|w|] s']; try done. by apply Hf.
Qed.
(** A read of the state names the value it returns. *)
Lemma triple_gets {A B} P (g : S -> A) (f : A -> M S B) Q R :
  (forall a, triple (fun s => P s /\ g s = a) (f a) Q R) -> triple P (bindM (gets g) f) Q R.
Proof. intros H s Hs. by apply H. Qed.
Lemma triple_modS P f (Q : unit -> S -> Prop) R : (forall s, P s -> Q tt (f s)) -> triple P (modS f) Q R.
Proof. intros H s Hs. by apply H. Qed.
Lemma triple_attempt {A B} P (m : M S A) (f : goerror + A -> M S B) I J Q R :
  triple P m I J -> (forall a, triple (I a) (f (inr a)) Q R) -> (forall e, triple (J e) (f (inl e)) Q R) ->
  triple P (bindM (attempt m) f) Q R.
Proof.
  intros Hm Hi Hj s Hs. specialize (Hm s Hs). unfold bindM, attempt.
  destruct (m s) as [[a|e|w|] s']; try done; [by apply Hi|by apply Hj].
Qed.
(** A computation that keeps the precondition. *)
Lemma triple_keep {A B} P (m : M S A) (f : A -> M S B) Q R :
  preserves P m -> (forall e s, P s -> R e s) -> (forall a, triple P (f a) Q R) -> triple P (bindM m f) Q R.
Proof.
  intros Hm HR Hf. apply (triple_bind _ _ _ (fun _ => P)); [|done]. intros s Hs. specialize (Hm s Hs).
  destruct (m s) as [[] ?]; cbn in Hm; auto.
Qed.
Lemma triple_no_errors {A} P (m : M S A) R : errors_in (fun _ => False) m -> triple P m (fun _ _ => True) R.
Proof. intros H s _. specialize (H s). destruct (m s) as [[a|e|w|] s']; try done. by destruct (H e s'). Qed.
End triple.

(** ** Proof automation *)

(** Walk through a computation looking for state changes. *)
Ltac preserves_step :=
  lazymatch goal with
  | |- preserves _ (ret _) => apply preserves_ret
  | |- preserves _ (gets _) => apply preserves_gets
  | |- preserves _ (getS) => apply preserves_getS
  | |- preserves _ (throw _) => apply preserves_throw
  | |- preserves _ (gopanic _) => apply preserves_gopanic
  | |- preserves _ (blocked) => apply preserves_blocked
  | |- preserves _ (lift_out _) => apply preserves_lift_out
  | |- preserves _ (deref _ _) => apply preserves_deref
  | |- preserves _ (attempt _) => apply preserves_attempt
  | |- preserves _ (wrap _ _) => apply preserves_wrap
  | |- preserves _ (when _ _) => apply preserves_when
  | |- preserves _ (modS _) => apply preserves_modS
  | |- preserves _ (bindM _ _) => apply preserves_bind; [|intros ?]
  | |- preserves _ (match ?x with _ => _ end) => destruct x eqn:?
  end.

(** Walk through a computation looking for panics and waits. *)
Ltac total_step :=
  lazymatch goal with
  | |- total (ret _) => apply total_ret
  | |- total (gets _) => apply total_gets
  | |- total (getS) => apply total_getS
  | |- total (throw _) => apply total_throw
  | |- total (modS _) => apply total_modS
  | |- total (attempt _) => apply total_attempt
  | |- total (when _ _) => apply total_when
  | |- total (bindM _ _) => apply total_bind; [|intros ?]
  | |- total (match ?x with _ => _ end) => destruct x eqn:?
  end.

(** Walk through a computation collecting the errors it throws. *)
Ltac errors_step :=
  lazymatch goal with
  | |- errors_in _ (ret _) => apply errors_in_ret
  | |- errors_in _ (gets _) => apply errors_in_gets
  | |- errors_in _ (getS) => apply errors_in_getS
  | |- errors_in _ (throw _) => apply errors_in_throw
  | |- errors_in _ (modS _) => apply errors_in_modS
  | |- errors_in _ (gopanic _) => apply errors_in_gopanic
  | |- errors_in _ (blocked) => apply errors_in_blocked
  | |- errors_in _ (attempt _) => apply errors_in_attempt
  | |- errors_in _ (when _ _) => apply errors_in_when
  | |- errors_in _ (bindM _ _) => apply errors_in_bind; [|intros ?]
  | |- errors_in _ (match ?x with _ => _ end) => destruct x eqn:?
  end.

Create HintDb gohints.
#[export] Hint Resolve u64_in be_value_nonneg : gohints.

(** Case analysis on the innermost scrutinee of a match in a hypothesis. *)
Ltac case_in H :=
  match type of H with
  | context [match ?x with _ => _ end] =>
      lazymatch x with
      | context [match _ with _ => _ end] => fail
      | _ => let E := fresh "E" in destruct x eqn:E
      end
  end.

(** Unfold the monadic plumbing of the goal or of a hypothesis. *)
Ltac unfold_M :=
  unfold throw, gopanic, blocked, getS, gets, modS, lift_out, attempt, wrap, when, deref,
    ret, bindM in *.

(** Invert a successful or failing run into its steps. *)
Ltac inv_run H :=
  cbn in H; repeat (case_in H; cbn in H; try discriminate H); simplify_eq.

(** Discard boolean comparisons on integers by arithmetic. *)
Ltac zcases :=
  repeat match goal with
  | |- context [?a <? ?b] => destruct (Z.ltb_spec a b); try lia
  | |- context [?a <=? ?b] => destruct (Z.leb_spec a b); try lia
  | |- context [?a =? ?b] => destruct (Z.eqb_spec a b); try lia
  end.

(** Addresses ([common.Address], 20 bytes) and hashes ([common.Hash], 32 bytes)
    as unsigned integers of their width, and their big-endian byte strings. *)
Abbreviation address := Z (only parsing).
Abbreviation hash := Z (only parsing).
Definition wf_address (a : address) : Prop := 0 <= a < 2 ^ 160.
Definition wf_hash (h : hash) : Prop := 0 <= h < 2 ^ 256.
Definition addr_bytes (a : address) : bytes := reverse (put_le 20 a).
Definition hash_bytes (h : hash) : bytes := reverse (put_le 32 h).

Lemma length_addr_bytes a : length (addr_bytes a) = 20%nat.
Proof. unfold addr_bytes. by rewrite length_reverse, length_put_le. Qed.

Lemma be_value_addr_bytes a : wf_address a -> be_value (addr_bytes a) = a.
Proof.
  intros Ha. unfold be_value, addr_bytes. rewrite reverse_involutive, get_put_le.
  apply Z.mod_small. exact Ha.
Qed.

Lemma bool_iff_eq (b b' : bool) (P : Prop) :
  (b = true <-> P) -> (b' = true <-> P) -> b = b'.
Proof. destruct b, b'; intuition congruence. Qed.
