(* ===== verification/Params.v ===== *)
(** Chain configuration: fork activation, rules and compatibility of configurations
    (params/config.go). *)
From stdpp Require Import prelude list strings.
From Stdlib Require Import ZArith Lia.
From S2P Require Import Prelude.
Local Open Scope Z_scope.

(** Block numbers are [*big.Int], nil meaning that the fork never happens. *)
Record ChainConfig := mkConfig {
  ChainID : option Z; HomesteadBlock : option Z; DAOForkBlock : option Z; DAOForkSupport : bool;
  EIP150Block : option Z; EIP155Block : option Z; EIP158Block : option Z;
  ByzantiumBlock : option Z; ConstantinopleBlock : option Z; PetersburgBlock : option Z;
  IstanbulBlock : option Z; MuirGlacierBlock : option Z; BerlinBlock : option Z;
  ShanghaiBlock : option Z; EWASMBlock : option Z }.

Record MVMRollupConfig := {
  SeqSetContract : address; SeqSetHeight : option Z; SeqSetPeerHeight : option Z;
  TxPoolHeight : option Z }.

Definition MetisMainnetChainID : Z := 1088.
Definition MetisSepoliaChainID : Z := 59902.
Definition MetisMainnetSDUpdateForkNum : Z := 750000.
Definition MetisMainnetRFDUpdateForkNum : Z := 16500000.
Definition MetisSepoliaRFDUpdateForkNum : Z := 600000.

Definition MetisMainnetRollupConfig : MVMRollupConfig := {|
  SeqSetContract := 0x0fe382b74C3894B65c10E5C12ae60Bbd8FAf5b48;
  SeqSetHeight := Some 15214531; SeqSetPeerHeight := Some 15214531; TxPoolHeight := Some 16500000 |}.
Definition MetisSepoliaRollupConfig : MVMRollupConfig := {|
  SeqSetContract := 0xdE8d56212118906a0CeCD331e842429714b4c47B;
  SeqSetHeight := Some 1000; SeqSetPeerHeight := Some 920000; TxPoolHeight := Some 600000 |}.
Definition MetisFallbackRollupConfig : MVMRollupConfig := {|
  SeqSetContract := 0; SeqSetHeight := None; SeqSetPeerHeight := None; TxPoolHeight := None |}.

(** ** Activation *)

Definition isForked (s head : option Z) : bool :=
  match s, head with Some s, Some h => s <=? h | _, _ => false end.

Definition configNumEqual (x y : option Z) : bool :=
  match x, y with
  | None, None => true
  | Some x, Some y => x =? y
  | _, _ => false
  end.

Definition IsHomestead c num := isForked (HomesteadBlock c) num.
Definition IsDAOFork c num := isForked (DAOForkBlock c) num.
Definition IsEIP150 c num := isForked (EIP150Block c) num.
Definition IsEIP155 c num := isForked (EIP155Block c) num.
Definition IsEIP158 c num := isForked (EIP158Block c) num.
Definition IsByzantium c num := isForked (ByzantiumBlock c) num.
Definition IsConstantinople c num := isForked (ConstantinopleBlock c) num.
Definition IsMuirGlacier c num := isForked (MuirGlacierBlock c) num.
Definition IsPetersburg (c : ChainConfig) (num : option Z) : bool :=
  isForked (PetersburgBlock c) num ||
  (match PetersburgBlock c with None => true | Some _ => false end
   && isForked (ConstantinopleBlock c) num).
Definition IsIstanbul c num := isForked (IstanbulBlock c) num.
Definition IsBerlin c num := isForked (BerlinBlock c) num.
Definition IsShanghai c num := isForked (ShanghaiBlock c) num.
Definition IsEWASM c num := isForked (EWASMBlock c) num.

(** [c.ChainID.Cmp(id) == 0] dereferences the chain id. *)
Definition chainIs (c : ChainConfig) (id : Z) : outcome bool :=
  match ChainID c with
  | Some x => Ok (x =? id)
  | None => Panic "nil ChainID"
  end.

Definition IsSDUpdate (c : ChainConfig) (num : option Z) : outcome bool :=
  (b ← chainIs c MetisMainnetChainID;
   Ok (if b : bool then isForked (Some MetisMainnetSDUpdateForkNum) num else true))%stdpp.

Definition IsRFDUpdate (c : ChainConfig) (num : option Z) : outcome bool :=
  (b ← chainIs c MetisMainnetChainID;
   if b : bool then Ok (isForked (Some MetisMainnetRFDUpdateForkNum) num)
   else b ← chainIs c MetisSepoliaChainID;
        Ok (if b : bool then isForked (Some MetisSepoliaRFDUpdateForkNum) num else true))%stdpp.

(** The rollup configuration of the chain; each accessor of the source makes the
    same three-way choice. *)
Definition MetisRollupConfig (c : ChainConfig) : outcome MVMRollupConfig :=
  (b ← chainIs c MetisMainnetChainID;
   if b : bool then Ok MetisMainnetRollupConfig
   else b ← chainIs c MetisSepoliaChainID;
        Ok (if b : bool then MetisSepoliaRollupConfig else MetisFallbackRollupConfig))%stdpp.
Definition MetisSeqSetContract (c : ChainConfig) : outcome address :=
  SeqSetContract <$> MetisRollupConfig c.
Definition IsTxpoolEnabled (c : ChainConfig) (num : option Z) : outcome bool :=
  (fun r => isForked (TxPoolHeight r) num) <$> MetisRollupConfig c.
Definition IsSeqSetEnabled (c : ChainConfig) (num : option Z) : outcome bool :=
  (fun r => isForked (SeqSetHeight r) num) <$> MetisRollupConfig c.
Definition IsSeqSetPeerEnabled (c : ChainConfig) (num : option Z) : outcome bool :=
  (fun r => isForked (SeqSetPeerHeight r) num) <$> MetisRollupConfig c.

Record Rules := mkRules {
  r_ChainID : Z; r_IsHomestead : bool; r_IsEIP150 : bool; r_IsEIP155 : bool; r_IsEIP158 : bool;
  r_IsByzantium : bool; r_IsConstantinople : bool; r_IsPetersburg : bool; r_IsIstanbul : bool;
  r_IsBerlin : bool; r_IsShanghai : bool }.

Definition config_Rules (c : ChainConfig) (num : option Z) : Rules := {|
  r_ChainID := default 0 (ChainID c);
  r_IsHomestead := IsHomestead c num; r_IsEIP150 := IsEIP150 c num;
  r_IsEIP155 := IsEIP155 c num; r_IsEIP158 := IsEIP158 c num;
  r_IsByzantium := IsByzantium c num; r_IsConstantinople := IsConstantinople c num;
  r_IsPetersburg := IsPetersburg c num; r_IsIstanbul := IsIstanbul c num;
  r_IsBerlin := IsBerlin c num; r_IsShanghai := IsShanghai c num |}.

(** ** Compatibility of a stored and a new configuration *)

Definition isForkIncompatible (s1 s2 head : option Z) : bool :=
  (isForked s1 head || isForked s2 head) && negb (configNumEqual s1 s2).

Record ConfigCompatError := mkCompatError {
  What : string; StoredConfig : option Z; NewConfig : option Z; RewindTo : Z }.

Definition newCompatError (what : string) (storedblock newblock : option Z) : ConfigCompatError :=
  let rew := match storedblock, newblock with
             | None, _ => newblock
             | Some _, None => storedblock
             | Some s, Some n => if s <? n then storedblock else newblock
             end in
  mkCompatError what storedblock newblock
    (match rew with Some r => if 0 <? r then u64 (big_uint64 r - 1) else 0 | None => 0 end).

(** The checks in order; the first that holds gives the error. *)
Definition compat_checks (c newcfg : ChainConfig) (head : option Z)
    : list (bool * (string * option Z * option Z)) :=
  let fork name (f : ChainConfig -> option Z) :=
    (isForkIncompatible (f c) (f newcfg) head, (name, f c, f newcfg)) in
  [ fork "Homestead fork block" HomesteadBlock;
    fork "DAO fork block" DAOForkBlock;
    (IsDAOFork c head && negb (Bool.eqb (DAOForkSupport c) (DAOForkSupport newcfg)),
     ("DAO fork support flag", DAOForkBlock c, DAOForkBlock newcfg));
    fork "EIP150 fork block" EIP150Block;
    fork "EIP155 fork block" EIP155Block;
    fork "EIP158 fork block" EIP158Block;
    (IsEIP158 c head && negb (configNumEqual (ChainID c) (ChainID newcfg)),
     ("EIP158 chain ID", EIP158Block c, EIP158Block newcfg));
    fork "Byzantium fork block" ByzantiumBlock;
    fork "Constantinople fork block" ConstantinopleBlock;
    fork "Petersburg fork block" PetersburgBlock;
    fork "Istanbul fork block" IstanbulBlock;
    fork "Muir Glacier fork block" MuirGlacierBlock;
    fork "Berlin fork block" BerlinBlock;
    fork "ewasm fork block" EWASMBlock ]%string.

Definition checkCompatible (c newcfg : ChainConfig) (head : option Z) : option ConfigCompatError :=
  match find fst (compat_checks c newcfg head) with
  | Some (_, (what, s, n)) => Some (newCompatError what s n)
  | None => None
  end.

(** The loop of [CheckCompatible]; [None] is running out of fuel. *)
Fixpoint CheckCompatible_loop (fuel : nat) (c newcfg : ChainConfig) (bhead : Z)
    (lasterr : option ConfigCompatError) : option (option ConfigCompatError) :=
  match fuel with
  | O => None
  | S fuel =>
      match checkCompatible c newcfg (Some bhead) with
      | None => Some lasterr
      | Some err =>
          if match lasterr with Some l => RewindTo err =? RewindTo l | None => false end
          then Some lasterr
          else CheckCompatible_loop fuel c newcfg (RewindTo err) (Some err)
      end
  end.
Definition CheckCompatible (c newcfg : ChainConfig) (height : Z) : option (option ConfigCompatError) :=
  CheckCompatible_loop (Z.to_nat height + 2) c newcfg height None.

(** ** Order of the forks *)

Definition config_forks (c : ChainConfig) : list (string * option Z) :=
  [("homesteadBlock", HomesteadBlock c); ("eip150Block", EIP150Block c);
   ("eip155Block", EIP155Block c); ("eip158Block", EIP158Block c);
   ("byzantiumBlock", ByzantiumBlock c); ("constantinopleBlock", ConstantinopleBlock c);
   ("petersburgBlock", PetersburgBlock c); ("istanbulBlock", IstanbulBlock c);
   ("muirGlacierBlock", MuirGlacierBlock c); ("berlinBlock", BerlinBlock c)]%string.

Definition errForkOrder : goerror := ErrNew "unsupported fork ordering".

(** The error message names the two forks; only its prefix is kept. *)
Fixpoint CheckForkOrder_loop (last : option (string * option Z)) (fs : list (string * option Z))
    : option goerror :=
  match fs with
  | [] => None
  | cur :: fs =>
      if match last with
         | Some (_, None) => match snd cur with Some _ => true | None => false end
         | Some (_, Some l) => match snd cur with Some b => b <? l | None => false end
         | None => false
         end
      then Some errForkOrder else CheckForkOrder_loop (Some cur) fs
  end.
Definition CheckConfigForkOrder (c : ChainConfig) : option goerror :=
  CheckForkOrder_loop None (config_forks c).

(** ** Facts *)

Lemma rewind_below s n h what :
  0 <= h < 2 ^ 64 -> isForked s (Some h) || isForked n (Some h) = true ->
  let r := RewindTo (newCompatError what s n) in 0 <= r /\ (r < h \/ h = 0 /\ r = 0).
Proof.
  intros Hh Hf. cbn [newCompatError RewindTo]. cbv zeta.
  assert (Hx : exists x, match s, n with
    | None, _ => n | Some _, None => s | Some a, Some b => if a <? b then s else n end = Some x /\ x <= h).
  { destruct s as [a|], n as [b|]; cbn in Hf; rewrite ?orb_false_r in Hf; try discriminate.
    - apply orb_true_iff in Hf. rewrite !Z.leb_le in Hf.
      destruct (Z.ltb_spec a b); eexists; (split; [reflexivity|lia]).
    - apply Z.leb_le in Hf. by eexists.
    - apply Z.leb_le in Hf. by eexists. }
  destruct Hx as (x & -> & Hx). destruct (Z.ltb_spec 0 x); [|lia].
  unfold big_uint64. rewrite Z.abs_eq, (u64_small x), u64_small by (unfold in_u64; lia). lia.
Qed.

Lemma compat_checks_forked c new h b w s n :
  (b, (w, s, n)) ∈ compat_checks c new h -> b = true -> isForked s h || isForked n h = true.
Proof.
  intros Hin ->. unfold compat_checks in Hin. cbv zeta in Hin.
  repeat (apply elem_of_cons in Hin as [E|Hin];
    [injection E as Hb -> -> ->; symmetry in Hb; apply andb_true_iff in Hb as [Hb _];
     first [exact Hb | unfold IsDAOFork, IsEIP158 in Hb; by rewrite Hb] |]).
  by apply elem_of_nil in Hin.
Qed.

Lemma checkCompatible_rewind c new h e :
  0 <= h < 2 ^ 64 -> checkCompatible c new (Some h) = Some e ->
  0 <= RewindTo e /\ (RewindTo e < h \/ h = 0 /\ RewindTo e = 0).
Proof.
  intros Hh. unfold checkCompatible.
  destruct (find fst (compat_checks c new (Some h))) as [[b [[w s] n]]|] eqn:E; [|done].
  intros [= <-]. apply find_some in E as [Hin Hb]. cbn in Hb.
  apply rewind_below; [done|]. eapply compat_checks_forked; [|done]. by apply list_elem_of_In.
Qed.

Lemma CheckCompatible_loop_ok fuel : forall c new h last,
  0 <= h < 2 ^ 64 -> match last with Some l => RewindTo l = h | None => True end ->
  (Z.to_nat h + match last with Some _ => 1 | None => 2 end <= fuel)%nat ->
  exists res, CheckCompatible_loop fuel c new h last = Some res /\
    match checkCompatible c new (Some h) with
    | None => res = last
    | Some _ => exists e, res = Some e /\ 0 <= RewindTo e <= h /\
        (RewindTo e = 0 \/ checkCompatible c new (Some (RewindTo e)) = None)
    end.
Proof.
  induction fuel as [|fuel IH]; intros c new h last Hh Hl Hf; [destruct last; lia|].
  cbn [CheckCompatible_loop].
  destruct (checkCompatible c new (Some h)) as [err|] eqn:E; [|by eexists].
  pose proof (checkCompatible_rewind _ _ _ _ Hh E) as [Hr0 Hr].
  destruct (match last with Some l => RewindTo err =? RewindTo l | None => false end) eqn:Eb.
  - destruct last as [l|]; [|discriminate]. apply Z.eqb_eq in Eb.
    exists (Some l). split; [done|]. exists l. split; [done|]. lia.
  - destruct (IH c new (RewindTo err) (Some err)) as (res & -> & Hres); [lia|done| |].
    { destruct last as [l|]; [apply Z.eqb_neq in Eb|]; lia. }
    exists res. split; [done|].
    destruct (checkCompatible c new (Some (RewindTo err))) as [e2|] eqn:E2.
    + destruct Hres as (e & -> & He1 & He2). exists e. split; [done|]. split; [lia|done].
    + subst res. exists err. split; [done|]. split; [lia|by right].
Qed.

(** the search for the lowest conflict terminates and is right: it returns no
    error exactly when the two configurations agree up to the head, and otherwise
    a block at or below the head at which they agree again, or block 0. *)
Theorem CheckCompatible_correct (c new : ChainConfig) (height : Z) :
  in_u64 height ->
  match CheckCompatible c new height with
  | None => False
  | Some None => checkCompatible c new (Some height) = None
  | Some (Some e) =>
      checkCompatible c new (Some height) <> None /\ 0 <= RewindTo e <= height /\
      (RewindTo e = 0 \/ checkCompatible c new (Some (RewindTo e)) = None)
  end.
Proof.
  intros Hh. unfold CheckCompatible.
  destruct (CheckCompatible_loop_ok (Z.to_nat height + 2) c new height None) as (res & -> & H); [done..|].
  destruct (checkCompatible c new (Some height)); [|by subst].
  destruct H as (e & -> & ? & ?). done.
Qed.

Lemma fork_compatible s1 s2 h num :
  isForkIncompatible s1 s2 (Some h) = false -> num <= h ->
  isForked s1 (Some num) = isForked s2 (Some num).
Proof.
  unfold isForkIncompatible. intros H Hn. apply andb_false_iff in H as [H|H].
  - apply orb_false_iff in H as [H1 H2].
    assert (Hs : forall s, isForked s (Some h) = false -> isForked s (Some num) = false).
    { intros [s|]; [|done]. cbn. rewrite !Z.leb_gt. lia. }
    by rewrite !Hs.
  - apply negb_false_iff in H. destruct s1, s2; try done. cbn in H. by apply Z.eqb_eq in H as ->.
Qed.

(** when [CheckCompatible] finds no conflict, every block already imported is
    processed under the same rules by both configurations: all forks but Shanghai
    agree (Petersburg under the condition that both or neither configuration
    leaves its block nil), and so does the chain id once EIP-158 is active. *)
Theorem compatible_same_rules (c new : ChainConfig) (height num : Z) :
  in_u64 height -> num <= height -> CheckCompatible c new height = Some None ->
  let r := config_Rules c (Some num) in
  let r' := config_Rules new (Some num) in
  r_IsHomestead r = r_IsHomestead r' /\ r_IsEIP150 r = r_IsEIP150 r' /\
  r_IsEIP155 r = r_IsEIP155 r' /\ r_IsEIP158 r = r_IsEIP158 r' /\
  r_IsByzantium r = r_IsByzantium r' /\ r_IsConstantinople r = r_IsConstantinople r' /\
  r_IsIstanbul r = r_IsIstanbul r' /\ r_IsBerlin r = r_IsBerlin r' /\
  ((PetersburgBlock c = None <-> PetersburgBlock new = None) -> r_IsPetersburg r = r_IsPetersburg r') /\
  (r_IsEIP158 r = true -> r_ChainID r = r_ChainID r').
Proof.
  intros Hh Hn Hc. cbv zeta.
  unfold CheckCompatible in Hc.
  destruct (CheckCompatible_loop_ok (Z.to_nat height + 2) c new height None) as (res & E & H); [done..|].
  rewrite E in Hc. injection Hc as ->. clear E.
  destruct (checkCompatible c new (Some height)) eqn:E; [by destruct H as (? & [=] & _)|].
  unfold checkCompatible in E. destruct (find _ _) as [[? [[? ?] ?]]|] eqn:Ef; [discriminate|].
  assert (Hall : forall x, x ∈ compat_checks c new (Some height) -> fst x = false).
  { intros x Hx. eapply find_none in Ef; [exact Ef|by apply list_elem_of_In]. }
  clear Ef E H. unfold compat_checks in Hall. cbv zeta in Hall.
  rewrite <- Forall_forall in Hall. rewrite !Forall_cons in Hall. cbn [fst] in Hall.
  destruct Hall as (H1 & _ & _ & H4 & H5 & H6 & H7 & H8 & H9 & H10 & H11 & H12 & H13 & _ & _).
  pose proof (fun s1 s2 H => fork_compatible s1 s2 height num H Hn) as Hf.
  cbn [config_Rules r_IsHomestead r_IsEIP150 r_IsEIP155 r_IsEIP158 r_IsByzantium r_IsConstantinople
       r_IsIstanbul r_IsBerlin r_IsPetersburg r_ChainID].
  repeat (split; [by apply Hf|]). split.
  - intros [Ha Hb]. unfold IsPetersburg. rewrite (Hf _ _ H10), (Hf _ _ H9).
    destruct (PetersburgBlock c), (PetersburgBlock new); try done;
      [discriminate (Hb eq_refl)|discriminate (Ha eq_refl)].
  - intros H158. apply andb_false_iff in H7 as [H7|H7].
    + exfalso. unfold IsEIP158, isForked in *. destruct (EIP158Block c); [|done].
      apply Z.leb_le in H158. apply Z.leb_gt in H7. lia.
    + apply negb_false_iff in H7. destruct (ChainID c), (ChainID new); try done.
      cbn in *. by apply Z.eqb_eq in H7.
Qed.

Lemma fork_order_step last fs num :
  CheckForkOrder_loop (Some last) fs = None ->
  forall f, f ∈ fs -> isForked (snd f) num = true -> isForked (snd last) num = true.
Proof.
  revert last. induction fs as [|cur fs IH]; intros last H f Hf Ha; [by apply elem_of_nil in Hf|].
  cbn [CheckForkOrder_loop] in H. destruct last as [nm b].
  assert (Hstep : isForked (snd cur) num = true -> isForked b num = true).
  { destruct b as [l|], (snd cur) as [x|], num as [h|]; cbn in *; try done.
    destruct (Z.ltb_spec x l); [discriminate|]. rewrite !Z.leb_le. lia. }
  apply elem_of_cons in Hf as [->|Hf]; [by apply Hstep|]. apply Hstep.
  eapply IH; [|exact Hf|exact Ha].
  match type of H with (if ?t then _ else _) = _ => by destruct t end.
Qed.

(** a configuration that passes [CheckConfigForkOrder] activates its forks in
    order: at every block, an active fork implies every earlier one. *)
Theorem fork_order_nested (c : ChainConfig) (num : option Z) (i j : nat) (f g : string * option Z) :
  CheckConfigForkOrder c = None -> config_forks c !! i = Some f -> config_forks c !! j = Some g ->
  (i <= j)%nat -> isForked (snd g) num = true -> isForked (snd f) num = true.
Proof.
  intros H Hi Hj Hle Hg. unfold CheckConfigForkOrder in H.
  destruct (decide (i = j)) as [->|Hne]; [by simplify_eq|].
  revert i j Hi Hj Hle Hne H. generalize (config_forks c), (@None (string * option Z)).
  intros l last i. revert l last. induction i as [|i IH]; intros [|x l] last j Hi Hj Hle Hne H; try done.
  - injection Hi as ->. cbn in H. destruct j as [|j]; [done|]. cbn in Hj.
    eapply (fork_order_step f l);
      [match type of H with (if ?t then _ else _) = _ => by destruct t end|by eapply list_elem_of_lookup_2|done].
  - destruct j as [|j]; [lia|]. cbn in Hi, Hj, H.
    match type of H with (if ?t then _ else _) = _ => destruct t; [discriminate|] end.
    apply (IH l (Some x) j); [done|done|lia|congruence|done].
Qed.

(** ** Examples *)

Definition zero_config : ChainConfig :=
  mkConfig (Some 1088) (Some 0) None false (Some 0) (Some 0) (Some 0) (Some 0) (Some 0) (Some 0)
    (Some 0) (Some 0) (Some 3380000) None None.

Definition with_petersburg (p : option Z) (c : ChainConfig) : ChainConfig :=
  mkConfig (ChainID c) (HomesteadBlock c) (DAOForkBlock c) (DAOForkSupport c) (EIP150Block c)
    (EIP155Block c) (EIP158Block c) (ByzantiumBlock c) (ConstantinopleBlock c) p
    (IstanbulBlock c) (MuirGlacierBlock c) (BerlinBlock c) (ShanghaiBlock c) (EWASMBlock c).
Definition with_shanghai (p : option Z) (c : ChainConfig) : ChainConfig :=
  mkConfig (ChainID c) (HomesteadBlock c) (DAOForkBlock c) (DAOForkSupport c) (EIP150Block c)
    (EIP155Block c) (EIP158Block c) (ByzantiumBlock c) (ConstantinopleBlock c) (PetersburgBlock c)
    (IstanbulBlock c) (MuirGlacierBlock c) (BerlinBlock c) p (EWASMBlock c).

Lemma CheckCompatible_correct_witness :
  CheckCompatible zero_config (with_petersburg (Some 7) zero_config) 20 =
    Some (Some (mkCompatError "Petersburg fork block" (Some 0) (Some 7) 0)) /\
  match CheckCompatible zero_config (with_petersburg (Some 7) zero_config) 20 with
  | None => False
  | Some None => checkCompatible zero_config (with_petersburg (Some 7) zero_config) (Some 20) = None
  | Some (Some e) =>
      checkCompatible zero_config (with_petersburg (Some 7) zero_config) (Some 20) <> None /\
      0 <= RewindTo e <= 20 /\
      (RewindTo e = 0 \/
       checkCompatible zero_config (with_petersburg (Some 7) zero_config) (Some (RewindTo e)) = None)
  end.
Proof.
  split; [vm_compute; reflexivity|].
  apply (CheckCompatible_correct zero_config (with_petersburg (Some 7) zero_config) 20).
  unfold in_u64. lia.
Defined.

Lemma compatible_same_rules_witness :
  CheckCompatible zero_config (with_shanghai (Some 5) zero_config) 20 = Some None /\
  r_IsIstanbul (config_Rules zero_config (Some 9)) =
  r_IsIstanbul (config_Rules (with_shanghai (Some 5) zero_config) (Some 9)).
Proof.
  split; [vm_compute; reflexivity|].
  destruct (compatible_same_rules zero_config (with_shanghai (Some 5) zero_config) 20 9
    ltac:(unfold in_u64; lia) ltac:(lia) ltac:(vm_compute; reflexivity))
    as (_ & _ & _ & _ & _ & _ & H & _).
  exact H.
Defined.

(** two changes of the past go undetected.  Moving the Shanghai block, or
    setting a Petersburg block later than the head where there was none, changes
    the rules of imported blocks, yet [CheckCompatible] reports no conflict at
    any height (for Petersburg: at any height below the new block). *)
Theorem CheckCompatible_misses (height : Z) : in_u64 height ->
  (CheckCompatible zero_config (with_shanghai (Some 0) zero_config) height = Some None /\
   r_IsShanghai (config_Rules zero_config (Some height)) <>
   r_IsShanghai (config_Rules (with_shanghai (Some 0) zero_config) (Some height))) /\
  (height < 100 ->
   CheckCompatible (with_petersburg None zero_config) (with_petersburg (Some 100) zero_config) height
     = Some None /\
   r_IsPetersburg (config_Rules (with_petersburg None zero_config) (Some height)) <>
   r_IsPetersburg (config_Rules (with_petersburg (Some 100) zero_config) (Some height))).
Proof.
  intros [Hh _]. assert (Hz : (0 <=? height) = true) by (by apply Z.leb_le).
  assert (Hnone : forall c new, checkCompatible c new (Some height) = None ->
    CheckCompatible c new height = Some None).
  { intros c new E. unfold CheckCompatible. rewrite Nat.add_comm. cbn [CheckCompatible_loop Nat.add].
    by rewrite E. }
  split; [split|intros Hlt; split].
  - apply Hnone. unfold checkCompatible, compat_checks, isForkIncompatible, IsDAOFork, IsEIP158. cbn.
    rewrite ?Hz. cbn. by rewrite !andb_false_r.
  - cbn. unfold IsShanghai. cbn. by rewrite Hz.
  - apply Hnone. unfold checkCompatible, compat_checks, isForkIncompatible, IsDAOFork, IsEIP158. cbn.
    rewrite ?Hz. destruct (Z.leb_spec 100 height); [lia|]. cbn. by rewrite !andb_false_r.
  - cbn. unfold IsPetersburg. cbn. rewrite Hz. by destruct (Z.leb_spec 100 height); [lia|].
Qed.

Lemma CheckCompatible_misses_witness :
  in_u64 20 /\
  CheckCompatible (with_petersburg None zero_config) (with_petersburg (Some 100) zero_config) 20 = Some None.
Proof.
  assert (H : in_u64 20) by (unfold in_u64; lia). split; [exact H|].
  apply (proj2 (CheckCompatible_misses 20 H)). lia.
Defined.

Lemma fork_order_nested_witness :
  CheckConfigForkOrder zero_config = None /\ isForked (Some 0) (Some 4000000) = true.
Proof.
  split; [vm_compute; reflexivity|].
  apply (fork_order_nested zero_config (Some 4000000) 6 9 ("petersburgBlock"%string, Some 0)
           ("berlinBlock"%string, Some 3380000)); [vm_compute; reflexivity..|lia|vm_compute; reflexivity].
Defined.
