(* ===== verification/VarBytes.v ===== *)
(** Variable-length integers and byte strings (common/varbytes.go).

    An [io.Reader] over a byte string is the list of bytes left to read, and an
    [io.Writer] backed by a [bytes.Buffer] is the list of bytes written so far;
    both are the state of a computation in [M].  The free list of scratch
    buffers is not modelled: every buffer is overwritten before it is used, so
    no result depends on it. *)
From stdpp Require Import prelude list strings.
From Stdlib Require Import ZArith Lia.
From S2P Require Import Prelude.
Local Open Scope Z_scope.

Definition io_EOF : goerror := ErrVar "io.EOF" "EOF".
Definition io_ErrUnexpectedEOF : goerror := ErrVar "io.ErrUnexpectedEOF" "unexpected EOF".

(** [io.ReadFull] into a buffer of [n] bytes. *)
Definition readFull (n : Z) : M bytes bytes := fun r =>
  if n <=? Z.of_nat (length r)
  then (Ok (take (Z.to_nat n) r), drop (Z.to_nat n) r)
  else match r with
       | [] => (Err io_EOF, [])
       | _ :: _ => (Err io_ErrUnexpectedEOF, [])
       end.

(** [w.Write] on a [bytes.Buffer]. *)
Definition write (bs : bytes) : M bytes unit := modS (fun w => w ++ bs).

Definition Uint8 : M bytes Z := buf ← readFull 1; ret (get_le buf).
Definition Uint16 : M bytes Z := buf ← readFull 2; ret (get_le buf).
Definition Uint32 : M bytes Z := buf ← readFull 4; ret (get_le buf).
Definition Uint64 : M bytes Z := buf ← readFull 8; ret (get_le buf).

Definition PutUint8 (val : Z) : M bytes unit := write (put_le 1 val).
Definition PutUint16 (val : Z) : M bytes unit := write (put_le 2 val).
Definition PutUint32 (val : Z) : M bytes unit := write (put_le 4 val).
Definition PutUint64 (val : Z) : M bytes unit := write (put_le 8 val).

(** [messageError]: the text of the formatted numbers is left out. *)
Definition messageError (f desc : string) : goerror := ErrNew (f +:+ ": " +:+ desc).
Definition errNonCanonicalVarInt : goerror := messageError "ReadVarInt" "non-canonical varint".

Definition ReadVarInt : M bytes Z :=
  discriminant ← Uint8;
  if discriminant =? 0xff then
    rv ← Uint64;
    if rv <? 0x100000000 then throw errNonCanonicalVarInt else ret rv
  else if discriminant =? 0xfe then
    rv ← Uint32;
    if rv <? 0x10000 then throw errNonCanonicalVarInt else ret rv
  else if discriminant =? 0xfd then
    rv ← Uint16;
    if rv <? 0xfd then throw errNonCanonicalVarInt else ret rv
  else ret discriminant.

Definition WriteVarInt (val : Z) : M bytes unit :=
  if val <? 0xfd then PutUint8 val
  else if val <=? 0xffff then PutUint8 0xfd ;; PutUint16 val
  else if val <=? 0xffffffff then PutUint8 0xfe ;; PutUint32 val
  else PutUint8 0xff ;; PutUint64 val.

Definition VarIntSerializeSize (val : Z) : Z :=
  if val <? 0xfd then 1
  else if val <=? 0xffff then 3
  else if val <=? 0xffffffff then 5
  else 9.

(** [make([]byte, count)] panics above the allocator's limit (2^48 bytes). *)
Definition make_bytes (count : Z) : M bytes unit :=
  when (2 ^ 48 <? count) (gopanic "makeslice: len out of range").

Definition ReadVarString : M bytes bytes :=
  count ← ReadVarInt;
  make_bytes count ;;
  readFull count.

Definition WriteVarString (str : bytes) : M bytes unit :=
  WriteVarInt (Z.of_nat (length str)) ;; write str.

Definition ReadVarBytes (maxAllowed : Z) (fieldName : string) : M bytes bytes :=
  count ← ReadVarInt;
  if maxAllowed <? count
  then throw (messageError "ReadVarBytes" (fieldName +:+ " is larger than the max allowed size"))
  else make_bytes count ;; readFull count.

Definition WriteVarBytes (bs : bytes) : M bytes unit :=
  WriteVarInt (Z.of_nat (length bs)) ;; write bs.

(** ** What the writers emit *)

(** The bytes [WriteVarInt] appends. *)
Definition varint_bytes (v : Z) : bytes :=
  if v <? 0xfd then put_le 1 v
  else if v <=? 0xffff then put_le 1 0xfd ++ put_le 2 v
  else if v <=? 0xffffffff then put_le 1 0xfe ++ put_le 4 v
  else put_le 1 0xff ++ put_le 8 v.

Definition varbytes_bytes (bs : bytes) : bytes :=
  varint_bytes (Z.of_nat (length bs)) ++ bs.

Lemma WriteVarInt_run v w : WriteVarInt v w = (Ok tt, w ++ varint_bytes v).
Proof.
  unfold WriteVarInt, varint_bytes, PutUint8, PutUint16, PutUint32, PutUint64, write.
  unfold_M. repeat case_match; simplify_eq; by rewrite <- ?app_assoc.
Qed.

Lemma WriteVarBytes_run bs w : WriteVarBytes bs w = (Ok tt, w ++ varbytes_bytes bs).
Proof.
  unfold WriteVarBytes, varbytes_bytes.
  rewrite (bind_Ok _ _ _ _ _ (WriteVarInt_run _ _)).
  unfold write, modS. by rewrite <- app_assoc.
Qed.

(** ** Reading back *)

Lemma readFull_app n bs rest :
  Z.of_nat (length bs) = n -> readFull n (bs ++ rest) = (Ok bs, rest).
Proof.
  intros Hn. unfold readFull. rewrite length_app.
  destruct (Z.leb_spec n (Z.of_nat (length bs + length rest))); [|lia].
  assert (Z.to_nat n = length bs) as -> by lia.
  by rewrite take_app_length, drop_app_length.
Qed.

Lemma readFull_inv n r bs r' :
  0 <= n -> readFull n r = (Ok bs, r') -> r = bs ++ r' /\ Z.of_nat (length bs) = n.
Proof.
  intros Hn. unfold readFull. case_match eqn:E; [|destruct r; discriminate].
  intros [= <- <-]. apply Z.leb_le in E. split; [by rewrite take_drop|].
  rewrite length_take. lia.
Qed.

(** A fixed-width read of a fixed-width write. *)
Lemma read_put k v rest :
  0 <= v < 256 ^ Z.of_nat k ->
  (buf ← readFull (Z.of_nat k); ret (get_le buf)) (put_le k v ++ rest)
  = (Ok v, rest).
Proof.
  intros Hv.
  erewrite bind_Ok by (apply readFull_app; by rewrite length_put_le).
  unfold ret. by rewrite get_put_le, Z.mod_small.
Qed.

Lemma Uint8_put v rest : 0 <= v < 256 -> Uint8 (put_le 1 v ++ rest) = (Ok v, rest).
Proof. intros. by apply (read_put 1). Qed.
Lemma Uint16_put v rest : 0 <= v < 2 ^ 16 -> Uint16 (put_le 2 v ++ rest) = (Ok v, rest).
Proof. intros. by apply (read_put 2). Qed.
Lemma Uint32_put v rest : 0 <= v < 2 ^ 32 -> Uint32 (put_le 4 v ++ rest) = (Ok v, rest).
Proof. intros. by apply (read_put 4). Qed.
Lemma Uint64_put v rest : 0 <= v < 2 ^ 64 -> Uint64 (put_le 8 v ++ rest) = (Ok v, rest).
Proof. intros. by apply (read_put 8). Qed.

Lemma ReadVarInt_bytes v rest :
  in_u64 v -> ReadVarInt (varint_bytes v ++ rest) = (Ok v, rest).
Proof.
  unfold in_u64. intros Hv. unfold ReadVarInt, varint_bytes.
  zcases; rewrite <- ?app_assoc; (erewrite bind_Ok by (apply Uint8_put; lia)); zcases;
    try done;
    (erewrite bind_Ok by (first [apply Uint16_put | apply Uint32_put | apply Uint64_put]; lia));
    zcases; done.
Qed.

(** A read that succeeds consumed exactly the encoding of its result. *)
Lemma read_fixed_inv k r v r' :
  (buf ← readFull (Z.of_nat k); ret (get_le buf)) r = (Ok v, r') ->
  r = put_le k v ++ r' /\ 0 <= v < 256 ^ Z.of_nat k.
Proof.
  intros H. apply bind_Ok_inv in H as (bs & r1 & H1 & H2).
  apply readFull_inv in H1 as [-> Hl]; [|lia].
  unfold ret in H2. simplify_eq.
  split; [by rewrite put_get_le|apply get_le_range].
Qed.

Lemma ReadVarInt_inv r v r' :
  ReadVarInt r = (Ok v, r') -> r = varint_bytes v ++ r' /\ in_u64 v.
Proof.
  unfold ReadVarInt. intros H. apply bind_Ok_inv in H as (d & r1 & Hd & H).
  apply (read_fixed_inv 1) in Hd as [-> Hd]. unfold in_u64, varint_bytes.
  destruct (Z.eqb_spec d 0xff) as [->|]; [|destruct (Z.eqb_spec d 0xfe) as [->|];
    [|destruct (Z.eqb_spec d 0xfd) as [->|]]].
  1-3: apply bind_Ok_inv in H as (rv & r2 & Hr & H);
       first [apply (read_fixed_inv 8) in Hr as [-> Hr] | apply (read_fixed_inv 4) in Hr as [-> Hr]
             |apply (read_fixed_inv 2) in Hr as [-> Hr]];
       match type of H with context [rv <? ?c] => destruct (Z.ltb_spec rv c) end;
       [discriminate H|]; unfold ret in H; simplify_eq;
       split; [zcases; by rewrite <- app_assoc | lia].
  unfold ret in H. simplify_eq. split; [zcases; done | lia].
Qed.

Lemma make_bytes_ok count r : count <= 2 ^ 48 -> make_bytes count r = (Ok tt, r).
Proof. intros. unfold make_bytes, when. zcases. done. Qed.

Lemma ReadVarBytes_bytes maxAllowed field bs rest :
  maxAllowed < 2 ^ 32 -> Z.of_nat (length bs) <= maxAllowed ->
  ReadVarBytes maxAllowed field (varbytes_bytes bs ++ rest) = (Ok bs, rest).
Proof.
  intros Hm Hl. unfold ReadVarBytes, varbytes_bytes. rewrite <- app_assoc.
  erewrite bind_Ok by (apply ReadVarInt_bytes; unfold in_u64; lia).
  zcases. erewrite bind_Ok by (apply make_bytes_ok; lia). by apply readFull_app.
Qed.

Lemma ReadVarBytes_inv maxAllowed field r bs r' :
  ReadVarBytes maxAllowed field r = (Ok bs, r') ->
  r = varbytes_bytes bs ++ r' /\ Z.of_nat (length bs) <= maxAllowed.
Proof.
  unfold ReadVarBytes, varbytes_bytes. intros H.
  apply bind_Ok_inv in H as (c & r1 & Hc & H). apply ReadVarInt_inv in Hc as [-> Hc].
  destruct (Z.ltb_spec maxAllowed c); [discriminate H|].
  apply bind_Ok_inv in H as (u & r2 & Hu & H).
  unfold make_bytes, when in Hu. case_match; [discriminate Hu|].
  unfold ret in Hu. simplify_eq. unfold in_u64 in Hc.
  apply readFull_inv in H as [-> Hl]; [|lia]. split; [by rewrite <- app_assoc, Hl | lia].
Qed.

(** ** Properties *)

(** every [uint64] written with [WriteVarInt] is read back by [ReadVarInt],
    with the following bytes left in the reader and the size announced by
    [VarIntSerializeSize]. *)
Theorem varint_roundtrip (v : Z) (rest : bytes) (Hv : in_u64 v) :
  exists enc, WriteVarInt v [] = (Ok tt, enc) /\
    ReadVarInt (enc ++ rest) = (Ok v, rest) /\
    Z.of_nat (length enc) = VarIntSerializeSize v.
Proof.
  exists (varint_bytes v). split; [apply WriteVarInt_run|].
  split; [by apply ReadVarInt_bytes|].
  unfold varint_bytes, VarIntSerializeSize. zcases; reflexivity.
Qed.
Lemma varint_roundtrip_witness :
  exists enc, WriteVarInt 70000 [] = (Ok tt, enc) /\
    ReadVarInt (enc ++ [Byte.x07]) = (Ok 70000, [Byte.x07]) /\
    Z.of_nat (length enc) = VarIntSerializeSize 70000.
Proof. apply (varint_roundtrip 70000 [Byte.x07]). unfold in_u64. lia. Defined.

(** [ReadVarInt] accepts only canonical encodings: whatever it accepts is
    byte for byte what [WriteVarInt] emits for the value it returns. *)
Theorem varint_canonical (r r' : bytes) (v : Z) (H : ReadVarInt r = (Ok v, r')) :
  exists enc, WriteVarInt v [] = (Ok tt, enc) /\ r = enc ++ r' /\ in_u64 v.
Proof.
  apply ReadVarInt_inv in H as [-> Hv]. exists (varint_bytes v).
  split; [apply WriteVarInt_run | done].
Qed.
Lemma varint_canonical_witness :
  exists enc, WriteVarInt 253 [] = (Ok tt, enc) /\
    [Byte.xfd; Byte.xfd; Byte.x00; Byte.x09] = enc ++ [Byte.x09] /\ in_u64 253.
Proof.
  apply (varint_canonical [Byte.xfd; Byte.xfd; Byte.x00; Byte.x09] [Byte.x09] 253).
  reflexivity.
Defined.
