(* ===== verification/TxMeta.v ===== *)
(** Rollup metadata of a transaction and its database encoding
    (core/types/transaction_meta.go). *)
From stdpp Require Import prelude list strings.
From Stdlib Require Import ZArith Lia.
From S2P Require Import Prelude VarBytes.
Local Open Scope Z_scope.

(** [QueueOrigin] is a [uint8] with two named values. *)
Definition QueueOriginSequencer : Z := 0.
Definition QueueOriginL1ToL2 : Z := 1.

Definition QueueOrigin_String (q : Z) : string :=
  if q =? QueueOriginSequencer then "sequencer"
  else if q =? QueueOriginL1ToL2 then "l1" else "".

(** Pointers and nil-able slices are [option]s. *)
Record TransactionMeta := mkMeta {
  L1BlockNumber : option Z;
  L1Timestamp : Z;
  L1MessageSender : option address;
  QueueOrigin : Z;
  Index : option Z;
  QueueIndex : option Z;
  RawTransaction : option bytes;
  mR : option Z;
  mS : option Z;
  mV : option Z }.

#[export] Instance TransactionMeta_eq_decision : EqDecision TransactionMeta.
Proof. solve_decision. Defined.

Definition NewTransactionMeta (l1BlockNumber : option Z) (l1timestamp : Z)
    (l1MessageSender : option address) (queueOrigin : Z) (index queueIndex : option Z)
    (rawTransaction : option bytes) : TransactionMeta :=
  {| L1BlockNumber := l1BlockNumber; L1Timestamp := l1timestamp;
     L1MessageSender := l1MessageSender; QueueOrigin := queueOrigin; Index := index;
     QueueIndex := queueIndex; RawTransaction := rawTransaction;
     mR := None; mS := None; mV := None |}.

Definition getNullValue : bytes := [Byte.x00].
Definition isNullValue (b : bytes) : bool := bool_decide (b = getNullValue).

Section Codec.
(** [rcfg.SeqValidHeight], read from the environment at start-up. *)
Variable SeqValidHeight : Z.

(** [rcfg.SeqValidHeight > 0 && *meta.Index+1 >= rcfg.SeqValidHeight] *)
Definition seqSignEnabled (index : option Z) : M bytes bool :=
  if 0 <? SeqValidHeight then
    i ← deref "TxMeta: nil Index" index;
    ret (SeqValidHeight <=? u64 (i + 1))
  else ret false.

(** The nullable [big.Int] fields of the encoding. *)
Definition writeBig (v : option Z) : M bytes unit :=
  WriteVarBytes (match v with None => getNullValue | Some z => big_bytes z end).

Definition TxMetaEncode (meta : TransactionMeta) : M bytes unit :=
  writeBig (L1BlockNumber meta) ;;
  WriteVarBytes (match L1MessageSender meta with
                 | None => getNullValue
                 | Some a => addr_bytes a
                 end) ;;
  WriteVarBytes (put_le 1 (QueueOrigin meta)) ;;
  WriteVarBytes (put_le 8 (L1Timestamp meta)) ;;
  writeBig (Index meta) ;;
  writeBig (QueueIndex meta) ;;
  WriteVarBytes (match RawTransaction meta with None => getNullValue | Some raw => raw end) ;;
  b ← seqSignEnabled (Index meta);
  when b (writeBig (mR meta) ;; writeBig (mS meta) ;; writeBig (mV meta)).

(** [if !isNullValue(b) { x := new(big.Int).SetBytes(b) }] *)
Definition nullableBig (b : bytes) : option Z :=
  if isNullValue b then None else Some (be_value b).
Definition nullableU64 (b : bytes) : option Z :=
  if isNullValue b then None else Some (big_uint64 (be_value b)).

(** [binary.Read(bytes.NewReader(b), binary.LittleEndian, &v)] with the error
    dropped: a short input leaves [v] at its zero value. *)
Definition binaryReadU64 (b : bytes) : Z :=
  if (length b <? 8)%nat then 0 else get_le (take 8 b).
Definition binaryReadAddress (b : bytes) : address :=
  if (length b <? 20)%nat then 0 else be_value (take 20 b).

Definition TxMetaDecode : M bytes TransactionMeta :=
  lb ← ReadVarBytes 1024 "l1BlockNumber";
  mb ← ReadVarBytes 1024 "L1MessageSender";
  qo ← ReadVarBytes 1024 "QueueOrigin";
  l ← ReadVarBytes 1024 "L1Timestamp";
  i ← ReadVarBytes 1024 "Index";
  qi ← ReadVarBytes 1024 "QueueIndex";
  raw ← ReadVarBytes 130000 "RawTransaction";
  let meta := {|
    L1BlockNumber := nullableBig lb;
    L1MessageSender := if isNullValue mb then None else Some (binaryReadAddress mb);
    QueueOrigin := if isNullValue qo then 0 else u8 (big_uint64 (be_value qo));
    L1Timestamp := binaryReadU64 l;
    Index := nullableU64 i;
    QueueIndex := nullableU64 qi;
    RawTransaction := if isNullValue raw then None else Some raw;
    mR := None; mS := None; mV := None |} in
  b ← seqSignEnabled (Index meta);
  if b then
    r ← ReadVarBytes 1024 "R";
    s ← ReadVarBytes 1024 "S";
    v ← ReadVarBytes 1024 "V";
    ret {|
      L1BlockNumber := L1BlockNumber meta; L1Timestamp := L1Timestamp meta;
      L1MessageSender := L1MessageSender meta; QueueOrigin := QueueOrigin meta;
      Index := Index meta; QueueIndex := QueueIndex meta;
      RawTransaction := RawTransaction meta;
      mR := nullableBig r;
      (* the source tests [r] here, not [s] *)
      mS := if isNullValue r then None else Some (be_value s);
      mV := nullableBig v |}
  else ret meta.
End Codec.

(** ** Well-formed metadata

    What the database can hold: fields in range of their types, a raw
    transaction within the decoder's limit and different from the null marker,
    and a sequencer signature that is present exactly as a whole, and only from
    [SeqValidHeight] on. *)
Definition opt_in (lo hi : Z) (o : option Z) : Prop :=
  match o with None => True | Some z => lo <= z < hi end.

Definition signed_height (SeqValidHeight : Z) (index : option Z) : Prop :=
  match index with
  | Some i => 0 < SeqValidHeight /\ SeqValidHeight <= u64 (i + 1)
  | None => False
  end.

Record wf_meta (SeqValidHeight : Z) (m : TransactionMeta) : Prop := {
  wf_l1bn : opt_in 0 (256 ^ 1024) (L1BlockNumber m);
  wf_l1ts : in_u64 (L1Timestamp m);
  wf_sender : opt_in 0 (2 ^ 160) (L1MessageSender m);
  wf_origin : 0 <= QueueOrigin m < 256;
  wf_index : opt_in 0 (2 ^ 64) (Index m);
  wf_index_set : 0 < SeqValidHeight -> Index m <> None;
  wf_qindex : opt_in 0 (2 ^ 64) (QueueIndex m);
  wf_raw : match RawTransaction m with
           | None => True
           | Some raw => Z.of_nat (length raw) <= 130000 /\ raw <> getNullValue
           end;
  wf_R : opt_in 0 (256 ^ 1024) (mR m);
  wf_S : opt_in 0 (256 ^ 1024) (mS m);
  wf_V : opt_in 0 (256 ^ 1024) (mV m);
  wf_RS : mR m = None <-> mS m = None;
  wf_unsigned : ~ signed_height SeqValidHeight (Index m) ->
                mR m = None /\ mS m = None /\ mV m = None }.

(** The payload of a nullable integer field. *)
Definition bigField (v : option Z) : bytes :=
  match v with None => getNullValue | Some z => big_bytes z end.
Definition senderField (a : option address) : bytes :=
  match a with None => getNullValue | Some a => addr_bytes a end.
Definition rawField (r : option bytes) : bytes :=
  match r with None => getNullValue | Some raw => raw end.

Lemma bigField_length v : opt_in 0 (256 ^ 1024) v -> Z.of_nat (length (bigField v)) <= 1024.
Proof.
  destruct v as [z|]; cbn [opt_in bigField]; [|simpl; lia]. intros Hz.
  pose proof (length_big_bytes z 1024) as Hl.
  assert (Z.abs z < 256 ^ Z.of_nat 1024) as Hb by lia. specialize (Hl Hb). lia.
Qed.

Lemma opt_u64_1024 v : opt_in 0 (2 ^ 64) v -> opt_in 0 (256 ^ 1024) v.
Proof.
  destruct v as [z|]; cbn [opt_in]; [|done].
  assert (2 ^ 64 < 256 ^ 1024) by (vm_compute; reflexivity). lia.
Qed.

Lemma nullableBig_field v : opt_in 0 (256 ^ 1024) v -> nullableBig (bigField v) = v.
Proof.
  destruct v as [z|]; cbn [opt_in bigField]; [|done]. intros Hz.
  unfold nullableBig, isNullValue, getNullValue.
  rewrite bool_decide_eq_false_2 by apply big_bytes_not_zero.
  rewrite be_value_big_bytes. f_equal. lia.
Qed.

Lemma nullableU64_field v : opt_in 0 (2 ^ 64) v -> nullableU64 (bigField v) = v.
Proof.
  destruct v as [z|]; cbn [opt_in bigField]; [|done]. intros Hz.
  unfold nullableU64, isNullValue, getNullValue.
  rewrite bool_decide_eq_false_2 by apply big_bytes_not_zero.
  rewrite be_value_big_bytes. unfold big_uint64. rewrite u64_small; unfold in_u64; [f_equal|]; lia.
Qed.

Lemma isNull_sender a : isNullValue (addr_bytes a) = false.
Proof.
  apply bool_decide_eq_false_2. intros Heq.
  pose proof (length_addr_bytes a) as Hl. rewrite Heq in Hl. discriminate.
Qed.

Lemma senderField_back a :
  opt_in 0 (2 ^ 160) a ->
  (if isNullValue (senderField a) then None else Some (binaryReadAddress (senderField a))) = a.
Proof.
  destruct a as [a|]; cbn [opt_in senderField]; [|done]. intros Ha.
  rewrite isNull_sender. unfold binaryReadAddress. rewrite length_addr_bytes.
  cbn [Nat.ltb Nat.leb]. rewrite take_ge by (by rewrite length_addr_bytes).
  by rewrite be_value_addr_bytes.
Qed.

Lemma rawField_back r :
  match r with None => True | Some raw => Z.of_nat (length raw) <= 130000 /\ raw <> getNullValue end ->
  (if isNullValue (rawField r) then None else Some (rawField r)) = r.
Proof.
  destruct r as [r|]; simpl; [|done]. intros [_ Hr].
  unfold isNullValue. by rewrite bool_decide_eq_false_2.
Qed.

Lemma originField_back q :
  0 <= q < 256 ->
  (if isNullValue (put_le 1 q) then 0 else u8 (big_uint64 (be_value (put_le 1 q)))) = q.
Proof.
  intros Hq. assert (Hv : be_value (put_le 1 q) = q).
  { unfold be_value. cbn [put_le]. change (reverse [z2b q]) with [z2b q]. cbn [get_le].
    rewrite b2z_z2b, Z.mod_small; lia. }
  rewrite Hv. unfold isNullValue. case_bool_decide as Hn.
  - rewrite Hn in Hv. by vm_compute in Hv.
  - unfold big_uint64. rewrite u64_small by (unfold in_u64; lia).
    unfold u8. rewrite Z.mod_small; lia.
Qed.

Lemma timestampField_back t : in_u64 t -> binaryReadU64 (put_le 8 t) = t.
Proof.
  intros Ht. unfold binaryReadU64. rewrite length_put_le. cbn [Nat.ltb Nat.leb].
  rewrite take_ge by (by rewrite length_put_le).
  rewrite get_put_le. apply Z.mod_small. exact Ht.
Qed.

(** ** The encoder's output *)

Definition meta_fields (m : TransactionMeta) : list bytes :=
  [bigField (L1BlockNumber m); senderField (L1MessageSender m); put_le 1 (QueueOrigin m);
   put_le 8 (L1Timestamp m); bigField (Index m); bigField (QueueIndex m);
   rawField (RawTransaction m)].
Definition sign_fields (m : TransactionMeta) : list bytes :=
  [bigField (mR m); bigField (mS m); bigField (mV m)].
Definition fields_bytes (fs : list bytes) : bytes := concat (varbytes_bytes <$> fs).

Lemma seqSignEnabled_run svh i w :
  (0 < svh -> i <> None) ->
  exists b, seqSignEnabled svh i w = (Ok b, w) /\
    (b = true <-> signed_height svh i).
Proof.
  intros Hi. unfold seqSignEnabled. destruct (Z.ltb_spec 0 svh) as [Hs|Hs].
  - destruct i as [i|]; [|by destruct (Hi Hs)]. exists (svh <=? u64 (i + 1)).
    split; [done|]. cbn [signed_height]. rewrite Z.leb_le. tauto.
  - exists false. split; [done|]. split; [done|]. destruct i; simpl; [lia|done].
Qed.

Lemma TxMetaEncode_run svh m w :
  (0 < svh -> Index m <> None) ->
  exists b, (b = true <-> signed_height svh (Index m)) /\
  TxMetaEncode svh m w =
    (Ok tt, w ++ fields_bytes (meta_fields m) ++ (if b then fields_bytes (sign_fields m) else [])).
Proof.
  intros Hi. unfold TxMetaEncode, writeBig.
  repeat (erewrite bind_Ok by apply WriteVarBytes_run).
  match goal with |- context [bindM (seqSignEnabled _ _) _ ?w'] =>
    destruct (seqSignEnabled_run svh (Index m) w' Hi) as (b & Hb & Hs) end.
  exists b. split; [done|]. erewrite bind_Ok by exact Hb.
  unfold fields_bytes, meta_fields, sign_fields. cbn [fmap list_fmap concat].
  unfold when. destruct b.
  - repeat (erewrite bind_Ok by apply WriteVarBytes_run). rewrite WriteVarBytes_run.
    f_equal. by rewrite <- ?app_assoc, ?app_nil_r.
  - unfold ret. f_equal. by rewrite <- ?app_assoc, ?app_nil_r.
Qed.

(** ** Decoding what was encoded *)

Ltac read_field :=
  rewrite <- ?app_assoc;
  erewrite bind_Ok by (apply ReadVarBytes_bytes; [lia|]; first [eassumption | done]).

Lemma TxMetaDecode_fields svh m rest :
  wf_meta svh m ->
  exists b, (b = true <-> signed_height svh (Index m)) /\
  TxMetaDecode svh
    (fields_bytes (meta_fields m) ++ (if b then fields_bytes (sign_fields m) else []) ++ rest)
  = (Ok m, rest).
Proof.
  intros [Hbn Hts Hsd Hqo Hix Hixs Hqi Hraw HR HS HV HRS Hun].
  destruct (seqSignEnabled_run svh (Index m) rest Hixs) as (b & _ & Hb).
  exists b. split; [done|].
  pose proof (bigField_length _ Hbn) as Lbn.
  pose proof (bigField_length _ (opt_u64_1024 _ Hix)) as Lix.
  pose proof (bigField_length _ (opt_u64_1024 _ Hqi)) as Lqi.
  pose proof (bigField_length _ HR) as LR. pose proof (bigField_length _ HS) as LS.
  pose proof (bigField_length _ HV) as LV.
  assert (Lsd : Z.of_nat (length (senderField (L1MessageSender m))) <= 1024).
  { destruct (L1MessageSender m); cbn [senderField]; [rewrite length_addr_bytes|simpl]; lia. }
  assert (Lraw : Z.of_nat (length (rawField (RawTransaction m))) <= 130000).
  { destruct (RawTransaction m); cbn [rawField]; [tauto|simpl; lia]. }
  unfold TxMetaDecode, fields_bytes, meta_fields, sign_fields. cbn [fmap list_fmap concat].
  do 7 read_field.
  rewrite !nullableBig_field, !nullableU64_field, senderField_back, rawField_back,
    originField_back, timestampField_back by done.
  cbv zeta. cbn [Index L1BlockNumber L1Timestamp L1MessageSender QueueOrigin QueueIndex RawTransaction].
  match goal with |- context [bindM (seqSignEnabled _ _) _ ?w'] =>
    destruct (seqSignEnabled_run svh (Index m) w' Hixs) as (b' & Hb' & Hs') end.
  erewrite bind_Ok by exact Hb'.
  assert (b' = b) as -> by (by eapply bool_iff_eq).
  destruct b.
  - do 3 read_field. unfold ret. rewrite !nullableBig_field by done.
    destruct m as [? ? ? ? ? ? ? r s v]; simpl in *. do 3 f_equal.
    destruct r as [r|]; [destruct s as [s|]; [|by destruct HRS as [_ HRS]; specialize (HRS eq_refl)]|].
    + unfold isNullValue, getNullValue. cbn [bigField].
      rewrite bool_decide_eq_false_2 by apply big_bytes_not_zero.
      rewrite be_value_big_bytes. simpl in HS. f_equal. lia.
    + cbn. symmetry. tauto.
  - unfold ret. destruct m as [? ? ? ? ? ? ? r s v]; simpl in *.
    destruct Hun as (-> & -> & ->); [intros Hsh; apply Hb in Hsh; discriminate|done].
Qed.

(** ** Properties *)

(** metadata survives the database: for well-formed metadata [TxMetaEncode]
    succeeds and [TxMetaDecode] of its output, with any bytes after it, returns
    the same metadata and leaves those bytes unread. *)
Theorem txmeta_roundtrip (SeqValidHeight : Z) (m : TransactionMeta) (rest : bytes)
    (Hwf : wf_meta SeqValidHeight m) :
  exists enc, TxMetaEncode SeqValidHeight m [] = (Ok tt, enc) /\
    TxMetaDecode SeqValidHeight (enc ++ rest) = (Ok m, rest).
Proof.
  destruct (TxMetaEncode_run SeqValidHeight m [] (wf_index_set _ _ Hwf)) as (b & Hb & He).
  destruct (TxMetaDecode_fields SeqValidHeight m rest Hwf) as (b' & Hb' & Hd).
  assert (b' = b) as -> by (by eapply bool_iff_eq).
  eexists. split; [exact He|]. by rewrite app_nil_l, <- app_assoc.
Qed.

Definition sample_meta : TransactionMeta :=
  {| L1BlockNumber := Some 13700000; L1Timestamp := 1638316800;
     L1MessageSender := Some 0x4200000000000000000000000000000000000007;
     QueueOrigin := QueueOriginSequencer; Index := Some 99; QueueIndex := None;
     RawTransaction := Some [Byte.xf8; Byte.x00]; mR := Some 7; mS := Some 11; mV := Some 0 |}.

Lemma txmeta_roundtrip_witness :
  exists enc, TxMetaEncode 100 sample_meta [] = (Ok tt, enc) /\
    TxMetaDecode 100 (enc ++ []) = (Ok sample_meta, []).
Proof.
  apply (txmeta_roundtrip 100 sample_meta []).
  constructor; cbn; try (unfold in_u64; lia); try done.
  - intros Hn. exfalso. apply Hn. vm_compute. split; [reflexivity|discriminate].
Defined.

(** a transaction without an index cannot be stored once the sequencer set
    is configured: [TxMetaEncode] dereferences a nil [Index], whatever the other
    fields are. *)
Theorem txmeta_encode_nil_index_panics (SeqValidHeight : Z) (m : TransactionMeta)
    (Hs : 0 < SeqValidHeight) (Hi : Index m = None) :
  exists w, TxMetaEncode SeqValidHeight m [] = (Panic "TxMeta: nil Index", w).
Proof.
  unfold TxMetaEncode, writeBig. repeat (erewrite bind_Ok by apply WriteVarBytes_run).
  unfold seqSignEnabled. rewrite Hi. destruct (Z.ltb_spec 0 SeqValidHeight); [|lia].
  eexists. reflexivity.
Qed.
Lemma txmeta_encode_nil_index_panics_witness :
  exists w, TxMetaEncode 1
    (NewTransactionMeta None 0 None QueueOriginSequencer None None None) []
    = (Panic "TxMeta: nil Index", w).
Proof. apply txmeta_encode_nil_index_panics; [lia|reflexivity]. Defined.

(** the decoder tests [R] where it should test [S]: metadata with a null [R]
    and a set [S] loses [S] in the database. *)
Theorem txmeta_S_dropped :
  exists m enc m', TxMetaEncode 1 m [] = (Ok tt, enc) /\ TxMetaDecode 1 enc = (Ok m', []) /\
    mR m = None /\ mS m = Some 5 /\ mS m' = None.
Proof.
  exists (mkMeta None 1 None 0 (Some 4) None None None (Some 5) (Some 1)).
  eexists _, _. split; [vm_compute; reflexivity|]. split; [vm_compute; reflexivity|]. done.
Qed.
