(* ===== verification/RollupDB.v ===== *)
(** The rollup indices kept in the key-value database
    (core/rawdb/rollup_indexes.go, keys from core/rawdb/schema.go).

    The database is a finite map from keys to byte strings.  A failing [Put]
    terminates the process ([log.Crit]) and is not modelled. *)
From stdpp Require Import prelude gmap strings list.
From Stdlib Require Import ZArith Lia.
From S2P Require Import Prelude.
Local Open Scope Z_scope.

Abbreviation kvstore := (gmap string bytes).

Definition headIndexKey : string := "LastIndex".
Definition headQueueIndexKey : string := "LastQueueIndex".
Definition headVerifiedIndexKey : string := "LastVerifiedIndex".
Definition headBatchKey : string := "LastBatch".
Definition headIndexTimeKey : string := "LastIndexTime".

(** [data, _ := db.Get(key)]: a missing key reads as nil. *)
Definition db_get (db : kvstore) (key : string) : bytes := default [] (db !! key).

(** The body shared by the five readers. *)
Definition decode_index (data : bytes) : option Z :=
  match data with
  | [] => None
  | _ :: _ => Some (big_uint64 (be_value data))
  end.

(** The body shared by the writers: zero is stored as one zero byte, because
    [Bytes] of zero is empty and would read as absent. *)
Definition encode_index (index : Z) : bytes :=
  if index =? 0 then [Byte.x00] else big_bytes index.

Definition ReadHeadIndex (db : kvstore) : option Z := decode_index (db_get db headIndexKey).
Definition WriteHeadIndex (db : kvstore) (index : Z) : kvstore :=
  <[headIndexKey := encode_index index]> db.

Definition ReadHeadIndexTime (db : kvstore) : option Z :=
  decode_index (db_get db headIndexTimeKey).
Definition WriteHeadIndexTime (db : kvstore) (indexTime : Z) : kvstore :=
  <[headIndexTimeKey := encode_index indexTime]> db.

Definition ReadHeadQueueIndex (db : kvstore) : option Z :=
  decode_index (db_get db headQueueIndexKey).
Definition WriteHeadQueueIndex (db : kvstore) (index : Z) : kvstore :=
  <[headQueueIndexKey := encode_index index]> db.

Definition ReadHeadVerifiedIndex (db : kvstore) : option Z :=
  decode_index (db_get db headVerifiedIndexKey).
Definition WriteHeadVerifiedIndex (db : kvstore) (index : Z) : kvstore :=
  <[headVerifiedIndexKey := encode_index index]> db.

Definition ReadHeadBatchIndex (db : kvstore) : option Z :=
  decode_index (db_get db headBatchKey).
Definition WriteHeadBatchIndex (db : kvstore) (index : Z) : kvstore :=
  <[headBatchKey := encode_index index]> db.

(** ** Lemmas *)

Lemma decode_encode_index i : in_u64 i -> decode_index (encode_index i) = Some i.
Proof.
  unfold in_u64, encode_index. intros Hi. destruct (Z.eqb_spec i 0) as [->|Hne]; [done|].
  pose proof (be_value_big_bytes i) as Hv. unfold decode_index.
  destruct (big_bytes i) as [|b bs]; [change (be_value []) with 0 in Hv; lia|].
  rewrite Hv. unfold big_uint64. rewrite u64_small; [f_equal|unfold in_u64]; lia.
Qed.

Lemma db_get_insert db k v : db_get (<[k := v]> db) k = v.
Proof. unfold db_get. by rewrite lookup_insert_eq. Qed.
Lemma db_get_insert_ne db k k' v : k <> k' -> db_get (<[k := v]> db) k' = db_get db k'.
Proof. intros. unfold db_get. by rewrite lookup_insert_ne. Qed.

(** The index pairs as an interface: a reader returns what its writer stored,
    and a write to one index leaves the readers of the others alone. *)
Class IndexCell (read : kvstore -> option Z) (write : kvstore -> Z -> kvstore) : Prop := {
  cell_read_write db i : in_u64 i -> read (write db i) = Some i
}.
Class IndexFrame (write : kvstore -> Z -> kvstore) (read : kvstore -> option Z) : Prop := {
  frame_read_write db i : read (write db i) = read db
}.

Ltac solve_cell := constructor; intros;
  match goal with |- ?r (?w _ _) = _ => unfold r, w end;
  rewrite db_get_insert; by apply decode_encode_index.
Ltac solve_frame := constructor; intros;
  match goal with |- ?r (?w _ _) = _ => unfold r, w end;
  by rewrite db_get_insert_ne by done.

#[export] Instance cell_index : IndexCell ReadHeadIndex WriteHeadIndex.
Proof. solve_cell. Qed.
#[export] Instance cell_indexTime : IndexCell ReadHeadIndexTime WriteHeadIndexTime.
Proof. solve_cell. Qed.
#[export] Instance cell_queue : IndexCell ReadHeadQueueIndex WriteHeadQueueIndex.
Proof. solve_cell. Qed.
#[export] Instance cell_verified : IndexCell ReadHeadVerifiedIndex WriteHeadVerifiedIndex.
Proof. solve_cell. Qed.
#[export] Instance cell_batch : IndexCell ReadHeadBatchIndex WriteHeadBatchIndex.
Proof. solve_cell. Qed.

#[export] Instance frame_index_indexTime : IndexFrame WriteHeadIndex ReadHeadIndexTime.
Proof. solve_frame. Qed.
#[export] Instance frame_index_queue : IndexFrame WriteHeadIndex ReadHeadQueueIndex.
Proof. solve_frame. Qed.
#[export] Instance frame_index_verified : IndexFrame WriteHeadIndex ReadHeadVerifiedIndex.
Proof. solve_frame. Qed.
#[export] Instance frame_index_batch : IndexFrame WriteHeadIndex ReadHeadBatchIndex.
Proof. solve_frame. Qed.
#[export] Instance frame_indexTime_index : IndexFrame WriteHeadIndexTime ReadHeadIndex.
Proof. solve_frame. Qed.
#[export] Instance frame_indexTime_queue : IndexFrame WriteHeadIndexTime ReadHeadQueueIndex.
Proof. solve_frame. Qed.
#[export] Instance frame_indexTime_verified : IndexFrame WriteHeadIndexTime ReadHeadVerifiedIndex.
Proof. solve_frame. Qed.
#[export] Instance frame_indexTime_batch : IndexFrame WriteHeadIndexTime ReadHeadBatchIndex.
Proof. solve_frame. Qed.
#[export] Instance frame_queue_index : IndexFrame WriteHeadQueueIndex ReadHeadIndex.
Proof. solve_frame. Qed.
#[export] Instance frame_queue_indexTime : IndexFrame WriteHeadQueueIndex ReadHeadIndexTime.
Proof. solve_frame. Qed.
#[export] Instance frame_queue_verified : IndexFrame WriteHeadQueueIndex ReadHeadVerifiedIndex.
Proof. solve_frame. Qed.
#[export] Instance frame_queue_batch : IndexFrame WriteHeadQueueIndex ReadHeadBatchIndex.
Proof. solve_frame. Qed.
#[export] Instance frame_verified_index : IndexFrame WriteHeadVerifiedIndex ReadHeadIndex.
Proof. solve_frame. Qed.
#[export] Instance frame_verified_indexTime : IndexFrame WriteHeadVerifiedIndex ReadHeadIndexTime.
Proof. solve_frame. Qed.
#[export] Instance frame_verified_queue : IndexFrame WriteHeadVerifiedIndex ReadHeadQueueIndex.
Proof. solve_frame. Qed.
#[export] Instance frame_verified_batch : IndexFrame WriteHeadVerifiedIndex ReadHeadBatchIndex.
Proof. solve_frame. Qed.
#[export] Instance frame_batch_index : IndexFrame WriteHeadBatchIndex ReadHeadIndex.
Proof. solve_frame. Qed.
#[export] Instance frame_batch_indexTime : IndexFrame WriteHeadBatchIndex ReadHeadIndexTime.
Proof. solve_frame. Qed.
#[export] Instance frame_batch_queue : IndexFrame WriteHeadBatchIndex ReadHeadQueueIndex.
Proof. solve_frame. Qed.
#[export] Instance frame_batch_verified : IndexFrame WriteHeadBatchIndex ReadHeadVerifiedIndex.
Proof. solve_frame. Qed.

(** Whatever a cell holds, its reader returns a [uint64]. *)
Lemma decode_index_range data i : decode_index data = Some i -> in_u64 i.
Proof.
  unfold decode_index. intros H. destruct data; [done|]. injection H as <-. apply u64_in.
Qed.

(** Normalise every index read over index writes. *)
Ltac db_simpl :=
  repeat match goal with
  | |- context [?r (?w ?db ?i)] =>
      first [ rewrite (@frame_read_write w r _ db i)
            | rewrite (@cell_read_write r w _ db i) by (assumption || auto with gohints) ]
  | H : context [?r (?w ?db ?i)] |- _ =>
      first [ rewrite (@frame_read_write w r _ db i) in H
            | rewrite (@cell_read_write r w _ db i) in H by (assumption || auto with gohints) ]
  end.

(** ** Properties *)

(** The five rollup indices are independent cells: what a writer stores for any
    [uint64] its reader returns, zero included, and the four other readers are
    unaffected. *)
Theorem rollup_indexes_cells (db : kvstore) (i : Z) (Hi : in_u64 i) :
  let reads db := [ReadHeadIndex db; ReadHeadIndexTime db; ReadHeadQueueIndex db;
                   ReadHeadVerifiedIndex db; ReadHeadBatchIndex db] in
  reads (WriteHeadIndex db i) = <[0%nat := Some i]> (reads db) /\
  reads (WriteHeadIndexTime db i) = <[1%nat := Some i]> (reads db) /\
  reads (WriteHeadQueueIndex db i) = <[2%nat := Some i]> (reads db) /\
  reads (WriteHeadVerifiedIndex db i) = <[3%nat := Some i]> (reads db) /\
  reads (WriteHeadBatchIndex db i) = <[4%nat := Some i]> (reads db).
Proof.
  cbv zeta. repeat split; cbn [insert list_insert]; db_simpl; done.
Qed.
Lemma rollup_indexes_cells_witness :
  let db := WriteHeadIndex ∅ 0 in
  [ReadHeadIndex db; ReadHeadIndexTime db; ReadHeadQueueIndex db;
   ReadHeadVerifiedIndex db; ReadHeadBatchIndex db] = [Some 0; None; None; None; None].
Proof. refine (proj1 (rollup_indexes_cells ∅ 0 _)). unfold in_u64. lia. Defined.
