(* ===== verification/RLP.v ===== *)
(** RLP encoding (rlp/encode.go).

    The encoder collects string data and list headers separately in an [encbuf]
    and merges them at the end.  [rlp_enc] is the textbook recursive encoding;
    [encbuf_refines] shows that the buffer-based encoder computes it.  The
    reflection layer that picks a writer for a Go type is represented by the
    tree of values ([item]) it visits and by the leaf writers for integers,
    booleans, byte strings and nil pointers. *)
From stdpp Require Import prelude list strings.
From Stdlib Require Import ZArith Lia.
From S2P Require Import Prelude.
Local Open Scope Z_scope.

#[local] Set Warnings "-register-all".

(** What an encoded value denotes: a byte string or a list. *)
Inductive item :=
| Str (bs : bytes)
| Lst (l : list item).

(** Induction with a hypothesis for every element of a list. *)
Lemma item_induction (P : item -> Prop) :
  (forall bs, P (Str bs)) -> (forall l, Forall P l -> P (Lst l)) -> forall it, P it.
Proof.
  intros HS HL. fix IH 1. intros [bs|l]; [apply HS|apply HL].
  induction l as [|x l IHl]; constructor; [apply IH|exact IHl].
Qed.

(** ** Headers *)

(** [putint]: big-endian, with the least number of bytes. *)
Definition putint (i : Z) : bytes :=
  let sh n := z2b (Z.shiftr i n) in
  if i <? 2 ^ 8 then [z2b i]
  else if i <? 2 ^ 16 then [sh 8; z2b i]
  else if i <? 2 ^ 24 then [sh 16; sh 8; z2b i]
  else if i <? 2 ^ 32 then [sh 24; sh 16; sh 8; z2b i]
  else if i <? 2 ^ 40 then [sh 32; sh 24; sh 16; sh 8; z2b i]
  else if i <? 2 ^ 48 then [sh 40; sh 32; sh 24; sh 16; sh 8; z2b i]
  else if i <? 2 ^ 56 then [sh 48; sh 40; sh 32; sh 24; sh 16; sh 8; z2b i]
  else [sh 56; sh 48; sh 40; sh 32; sh 24; sh 16; sh 8; z2b i].

(** [intsize]: the loop shifts at most eight times on a [uint64]. *)
Fixpoint intsize_loop (fuel : nat) (i size : Z) : Z :=
  match fuel with
  | O => size
  | S f => let i := Z.shiftr i 8 in if i =? 0 then size else intsize_loop f i (size + 1)
  end.
Definition intsize (i : Z) : Z := intsize_loop 8 i 1.

Definition headsize (size : Z) : Z := if size <? 56 then 1 else 1 + intsize size.

Definition puthead (smalltag largetag : Z) (size : Z) : bytes :=
  if size <? 56 then [z2b (smalltag + size)]
  else let enc := putint size in z2b (largetag + Z.of_nat (length enc)) :: enc.

Definition ListSize (contentSize : Z) : Z := u64 (headsize contentSize + contentSize).

(** ** The encoding buffer *)

Record listhead := { lh_offset : Z; lh_size : Z }.
Record encbuf := { str : bytes; lheads : list listhead; lhsize : Z }.

(** [encbufPool.Get] followed by [reset]. *)
Definition encbuf_reset : encbuf := {| str := []; lheads := []; lhsize := 0 |}.

Definition encbuf_write (w : encbuf) (b : bytes) : encbuf :=
  {| str := str w ++ b; lheads := lheads w; lhsize := lhsize w |}.

Definition encbuf_size (w : encbuf) : Z := Z.of_nat (length (str w)) + lhsize w.

Definition encodeStringHeader (w : encbuf) (size : Z) : encbuf :=
  if size <? 56 then encbuf_write w [z2b (0x80 + size)]
  else let enc := putint size in
       encbuf_write w (z2b (0xB7 + Z.of_nat (length enc)) :: enc).

Definition encodeString (w : encbuf) (b : bytes) : encbuf :=
  match b with
  | [b0] => if b2z b0 <=? 0x7F then encbuf_write w [b0]
            else encbuf_write (encodeStringHeader w 1) b
  | _ => encbuf_write (encodeStringHeader w (Z.of_nat (length b))) b
  end.

(** [list] appends a header and returns its position in [lheads]; Go returns a
    pointer to it, which [listEnd] updates in place. *)
Definition enc_list (w : encbuf) : nat * encbuf :=
  (length (lheads w),
   {| str := str w;
      lheads := lheads w ++ [{| lh_offset := Z.of_nat (length (str w)); lh_size := lhsize w |}];
      lhsize := lhsize w |}).

Definition enc_listEnd (w : encbuf) (lh : nat) : encbuf :=
  match lheads w !! lh with
  | None => w
  | Some h =>
      let sz := encbuf_size w - lh_offset h - lh_size h in
      {| str := str w;
         lheads := <[lh := {| lh_offset := lh_offset h; lh_size := sz |}]> (lheads w);
         lhsize := if sz <? 56 then lhsize w + 1 else lhsize w + (1 + intsize sz) |}
  end.

(** The writers of slices, structs and byte strings, over the tree of values. *)
Fixpoint encode (it : item) (w : encbuf) : encbuf :=
  match it with
  | Str b => encodeString w b
  | Lst l =>
      let '(lh, w) := enc_list w in
      let w := (fix go (l : list item) (w : encbuf) :=
                  match l with [] => w | x :: l => go l (encode x w) end) l w in
      enc_listEnd w lh
  end.

Definition listhead_encode (h : listhead) : bytes := puthead 0xC0 0xF7 (lh_size h).

(** [toBytes]: string data up to each header, the header, and the rest. *)
Fixpoint toBytes_loop (s : bytes) (strpos : Z) (heads : list listhead) (out : bytes) : bytes :=
  match heads with
  | [] => out ++ drop (Z.to_nat strpos) s
  | h :: heads =>
      let piece := take (Z.to_nat (lh_offset h - strpos)) (drop (Z.to_nat strpos) s) in
      toBytes_loop s (strpos + Z.of_nat (length piece)) heads (out ++ piece ++ listhead_encode h)
  end.
Definition toBytes (w : encbuf) : bytes := toBytes_loop (str w) 0 (lheads w) [].

Definition EncodeToBytes (it : item) : bytes := toBytes (encode it encbuf_reset).

(** ** Leaf writers for the Go types the sources encode *)

Definition writeUint (i : Z) (w : encbuf) : encbuf :=
  if i =? 0 then encbuf_write w [Byte.x80]
  else if i <? 128 then encbuf_write w [z2b i]
  else let enc := putint i in encbuf_write w (z2b (0x80 + Z.of_nat (length enc)) :: enc).

Definition writeBool (b : bool) (w : encbuf) : encbuf :=
  encbuf_write w (if b then [Byte.x01] else [Byte.x80]).

Definition writeBigInt (i : Z) (w : encbuf) : outcome encbuf :=
  if i <? 0 then Err (ErrNew "rlp: cannot encode negative *big.Int")
  else if i =? 0 then Ok (encbuf_write w [Byte.x80])
  else Ok (encodeString w (big_bytes i)).

Definition writeBigIntPtr (p : option Z) (w : encbuf) : outcome encbuf :=
  match p with
  | None => Ok (encbuf_write w [Byte.x80])
  | Some i => writeBigInt i w
  end.

Definition writeBytes (b : bytes) (w : encbuf) : encbuf := encodeString w b.

(** [makePtrWriter] for a pointer whose nil is written as the empty string. *)
Definition writePtr {A} (wr : A -> encbuf -> encbuf) (p : option A) (w : encbuf) : encbuf :=
  match p with None => encbuf_write w [Byte.x80] | Some a => wr a w end.

(** The items these writers emit. *)
Definition uint_item (i : Z) : item := Str (if i =? 0 then [] else putint i).
Definition bool_item (b : bool) : item := Str (if b then [Byte.x01] else []).
Definition big_item (i : Z) : item := Str (big_bytes i).
Definition ptr_item {A} (f : A -> item) (p : option A) : item :=
  match p with None => Str [] | Some a => f a end.

(** ** The reference encoding *)

Definition str_enc (b : bytes) : bytes :=
  match b with
  | [b0] => if b2z b0 <=? 0x7F then [b0] else [Byte.x81; b0]
  | _ => puthead 0x80 0xB7 (Z.of_nat (length b)) ++ b
  end.

Fixpoint rlp_enc (it : item) : bytes :=
  match it with
  | Str b => str_enc b
  | Lst l =>
      let payload := concat (rlp_enc <$> l) in
      puthead 0xC0 0xF7 (Z.of_nat (length payload)) ++ payload
  end.
Definition rlp_encs (l : list item) : bytes := concat (rlp_enc <$> l).

(** ** Integers in headers *)

(** A positive [uint64] takes [n] bytes, no fewer. *)
Lemma putint_spec i :
  in_u64 i -> exists n : nat, (1 <= n <= 8)%nat /\ putint i = reverse (put_le n i) /\
    i < 256 ^ Z.of_nat n /\ (n = 1%nat \/ 256 ^ (Z.of_nat n - 1) <= i).
Proof.
  unfold in_u64. intros Hi. unfold putint. cbv zeta.
  assert (Hd : forall k, 0 <= k -> Z.shiftr i k = i / 2 ^ k) by (intros; by apply Z.shiftr_div_pow2).
  rewrite !Hd by lia.
  zcases; [exists 1%nat|exists 2%nat|exists 3%nat|exists 4%nat|exists 5%nat|exists 6%nat|exists 7%nat|exists 8%nat];
    (split; [lia|split; [|split; [simpl; lia|simpl; lia]]]);
    cbn [put_le]; rewrite ?Z.div_div by lia; reflexivity.
Qed.

Lemma intsize_putint i : in_u64 i -> intsize i = Z.of_nat (length (putint i)).
Proof.
  unfold in_u64. intros Hi. unfold intsize, intsize_loop, putint. cbv zeta.
  assert (Hd : forall j, Z.shiftr j 8 = j / 256) by (intros; by rewrite Z.shiftr_div_pow2 by lia).
  assert (Hz : forall c, 0 < c -> (i / c =? 0) = (i <? c)).
  { intros c Hc. destruct (Z.ltb_spec i c); [apply Z.eqb_eq, Z.div_small; lia|].
    apply Z.eqb_neq. pose proof (Z.div_le_mono c i c Hc ltac:(lia)) as Hm.
    rewrite Z.div_same in Hm by lia. lia. }
  rewrite !Hd, !Z.div_div, !Hz by lia. zcases; reflexivity.
Qed.

Lemma putint_value i : in_u64 i -> be_value (putint i) = i.
Proof.
  intros Hi. destruct (putint_spec i Hi) as (n & Hn & -> & Hb & _).
  unfold be_value. rewrite reverse_involutive, get_put_le.
  apply Z.mod_small. unfold in_u64 in Hi. lia.
Qed.

Lemma putint_length i : in_u64 i -> (1 <= length (putint i) <= 8)%nat.
Proof.
  intros Hi. destruct (putint_spec i Hi) as (n & Hn & -> & _).
  by rewrite length_reverse, length_put_le.
Qed.

Lemma length_puthead s l n :
  in_u64 n -> Z.of_nat (length (puthead s l n)) = headsize n.
Proof.
  intros Hn. unfold puthead, headsize. destruct (Z.ltb_spec n 56); [done|].
  cbn [length]. rewrite intsize_putint by done. lia.
Qed.

(** ** The buffer after encoding an item *)

Fixpoint item_str (it : item) : bytes :=
  match it with Str b => str_enc b | Lst l => concat (item_str <$> l) end.

Fixpoint item_hsz (it : item) : Z :=
  match it with
  | Str _ => 0
  | Lst l => headsize (Z.of_nat (length (rlp_encs l))) + foldr Z.add 0 (item_hsz <$> l)
  end.

Fixpoint item_heads (off : Z) (it : item) : list listhead :=
  match it with
  | Str _ => []
  | Lst l =>
      {| lh_offset := off; lh_size := Z.of_nat (length (rlp_encs l)) |} ::
      (fix go (off : Z) (l : list item) : list listhead :=
         match l with
         | [] => []
         | x :: l => item_heads off x ++ go (off + Z.of_nat (length (item_str x))) l
         end) off l
  end.
Definition items_heads := fix go (off : Z) (l : list item) : list listhead :=
  match l with
  | [] => []
  | x :: l => item_heads off x ++ go (off + Z.of_nat (length (item_str x))) l
  end.
Definition encodes := fix go (l : list item) (w : encbuf) :=
  match l with [] => w | x :: l => go l (encode x w) end.

(** Encodable: the output fits a [uint64] length, as every Go slice does. *)
Definition fits (it : item) : Prop := Z.of_nat (length (rlp_enc it)) < 2 ^ 64.

Lemma rlp_encs_cons x l : rlp_encs (x :: l) = rlp_enc x ++ rlp_encs l.
Proof. done. Qed.
Lemma rlp_encs_app l1 l2 : rlp_encs (l1 ++ l2) = rlp_encs l1 ++ rlp_encs l2.
Proof. unfold rlp_encs. by rewrite fmap_app, concat_app. Qed.
Lemma rlp_enc_Lst l :
  rlp_enc (Lst l) = puthead 0xC0 0xF7 (Z.of_nat (length (rlp_encs l))) ++ rlp_encs l.
Proof. done. Qed.

Lemma fits_Lst l : fits (Lst l) -> Z.of_nat (length (rlp_encs l)) < 2 ^ 64.
Proof. unfold fits. rewrite rlp_enc_Lst, length_app. lia. Qed.

Lemma fits_elem l x : x ∈ l -> Z.of_nat (length (rlp_encs l)) < 2 ^ 64 -> fits x.
Proof.
  intros (l1 & l2 & ->)%list_elem_of_split. unfold fits.
  rewrite rlp_encs_app, rlp_encs_cons, !length_app. lia.
Qed.

(** String data and headers together have the length of the encoding. *)
Lemma item_lengths it :
  fits it -> Z.of_nat (length (item_str it)) + item_hsz it = Z.of_nat (length (rlp_enc it)).
Proof.
  induction it as [b|l IH] using item_induction; intros Hf; [cbn; lia|].
  pose proof (fits_Lst _ Hf) as Hl. rewrite rlp_enc_Lst, length_app, Nat2Z.inj_add.
  rewrite length_puthead by (unfold in_u64; lia). cbn [item_str item_hsz].
  assert (Hs : Z.of_nat (length (concat (item_str <$> l))) + foldr Z.add 0 (item_hsz <$> l)
               = Z.of_nat (length (rlp_encs l))); [|lia].
  clear Hf. induction IH as [|x l Hx _ IHl]; [done|].
  rewrite rlp_encs_cons, length_app in Hl.
  rewrite rlp_encs_cons, length_app, !fmap_cons. cbn [concat foldr].
  rewrite length_app. specialize (Hx ltac:(unfold fits; lia)).
  specialize (IHl ltac:(lia)). lia.
Qed.

Lemma encodeString_str_enc w b : 
  Z.of_nat (length b) < 2 ^ 64 -> encodeString w b = encbuf_write w (str_enc b).
Proof.
  intros Hb. unfold encodeString, str_enc, encodeStringHeader, puthead.
  assert (Ha : forall w a c, encbuf_write (encbuf_write w a) c = encbuf_write w (a ++ c)).
  { intros. unfold encbuf_write. cbn. by rewrite app_assoc. }
  destruct b as [|b0 [|b1 b]].
  - cbv zeta. destruct (_ <? 56); by rewrite Ha.
  - destruct (b2z b0 <=? 0x7F); [done|]. change (1 <? 56) with true. cbv iota. by rewrite Ha.
  - cbv zeta. destruct (_ <? 56); by rewrite Ha.
Qed.

(** What [encode] does to a buffer. *)
Lemma encode_run it : forall w, fits it ->
  encode it w = {| str := str w ++ item_str it;
                   lheads := lheads w ++ item_heads (Z.of_nat (length (str w))) it;
                   lhsize := lhsize w + item_hsz it |}.
Proof.
  induction it as [b|l IH] using item_induction; intros w Hf.
  - cbn [encode item_str item_heads item_hsz]. rewrite encodeString_str_enc.
    + unfold encbuf_write. by rewrite app_nil_r, Z.add_0_r.
    + unfold fits in Hf. cbn [rlp_enc] in Hf. unfold str_enc in Hf.
      destruct b as [|b0 [|b1 b]]; [simpl; lia..|]. rewrite length_app in Hf. lia.
  - pose proof (fits_Lst _ Hf) as Hl.
    assert (Hgo : forall w, encodes l w =
      {| str := str w ++ concat (item_str <$> l);
         lheads := lheads w ++ items_heads (Z.of_nat (length (str w))) l;
         lhsize := lhsize w + foldr Z.add 0 (item_hsz <$> l) |}).
    { clear w Hf. induction IH as [|x l Hx _ IHl]; intros w.
      - destruct w. cbn. by rewrite !app_nil_r, Z.add_0_r.
      - rewrite rlp_encs_cons, length_app in Hl.
        change (encodes (x :: l) w) with (encodes l (encode x w)).
        rewrite Hx by (unfold fits; lia). rewrite IHl by lia. rewrite !fmap_cons.
        cbn [str lheads lhsize concat foldr items_heads].
        rewrite length_app, Nat2Z.inj_add, <- !app_assoc. f_equal. lia. }
    pose proof (item_lengths _ Hf) as Hlen.
    rewrite rlp_enc_Lst, length_app, Nat2Z.inj_add, length_puthead in Hlen by (unfold in_u64; lia).
    cbn [item_str item_hsz] in Hlen.
    cbn [encode enc_list]. fold encodes. rewrite Hgo. unfold enc_listEnd.
    cbn [str lheads lhsize].
    rewrite <- app_assoc, lookup_app_r, Nat.sub_diag by lia. cbn [app lookup list_lookup].
    rewrite insert_app_r_alt, Nat.sub_diag by lia. unfold encbuf_size.
    cbn [str lhsize lh_offset lh_size item_str item_hsz]. rewrite length_app, Nat2Z.inj_add.
    match goal with |- context [{| lh_offset := _; lh_size := ?z |}] =>
      replace z with (Z.of_nat (length (rlp_encs l))) by lia end.
    f_equal. unfold headsize. destruct (_ <? 56); lia.
Qed.

(** ** Merging string data and headers *)

Definition slice (s : bytes) (a b : Z) : bytes := take (Z.to_nat (b - a)) (drop (Z.to_nat a) s).

Lemma slice_join s a b c : 0 <= a <= b -> b <= c -> slice s a b ++ slice s b c = slice s a c.
Proof.
  intros Hab Hbc. unfold slice.
  replace (drop (Z.to_nat b) s) with (drop (Z.to_nat (b - a)) (drop (Z.to_nat a) s))
    by (rewrite drop_drop; f_equal; lia).
  replace (Z.to_nat (c - a)) with (Z.to_nat (b - a) + Z.to_nat (c - b))%nat by lia.
  by rewrite take_take_drop.
Qed.

Lemma length_slice s a b :
  0 <= a <= b -> b <= Z.of_nat (length s) -> Z.of_nat (length (slice s a b)) = b - a.
Proof. intros. unfold slice. rewrite length_take, length_drop. lia. Qed.

Lemma slice_app_mid pre m post :
  slice (pre ++ m ++ post) (Z.of_nat (length pre)) (Z.of_nat (length pre) + Z.of_nat (length m)) = m.
Proof.
  unfold slice. rewrite Nat2Z.id, drop_app_length.
  replace (Z.to_nat _) with (length m) by lia. by rewrite take_app_length.
Qed.

(** [merges s o strpos hs enc len]: running [toBytes] over the headers [hs] from
    position [strpos], whose string data of length [len] starts at [o], emits
    [enc] after what was pending. *)
Definition merges (s : bytes) (o : Z) (hs : list listhead) (len : Z) (enc : bytes) : Prop :=
  forall strpos rest out, 0 <= strpos <= o ->
  exists strpos' out',
    toBytes_loop s strpos (hs ++ rest) out = toBytes_loop s strpos' rest out' /\
    0 <= strpos' <= o + len /\
    out' ++ slice s strpos' (o + len) = out ++ slice s strpos o ++ enc.

Lemma merges_nil s o len enc :
  0 <= len -> slice s o (o + len) = enc -> merges s o [] len enc.
Proof.
  intros Hl He strpos rest out Hp. exists strpos, out. split; [done|]. split; [lia|].
  rewrite <- He, slice_join by lia. done.
Qed.

Lemma merges_app s o h1 h2 l1 l2 e1 e2 :
  0 <= l1 -> merges s o h1 l1 e1 -> merges s (o + l1) h2 l2 e2 ->
  merges s o (h1 ++ h2) (l1 + l2) (e1 ++ e2).
Proof.
  intros Hl H1 H2 strpos rest out Hp.
  destruct (H1 strpos (h2 ++ rest) out Hp) as (p1 & o1 & E1 & Hp1 & Ho1).
  destruct (H2 p1 rest o1 Hp1) as (p2 & o2 & E2 & Hp2 & Ho2).
  exists p2, o2. rewrite <- app_assoc, E1, E2. split; [done|].
  rewrite Z.add_assoc. split; [done|]. rewrite Ho2, app_assoc, Ho1. by rewrite <- !app_assoc.
Qed.

Lemma merges_item it : forall s pre post,
  s = pre ++ item_str it ++ post ->
  let o := Z.of_nat (length pre) in
  merges s o (item_heads o it) (Z.of_nat (length (item_str it))) (rlp_enc it).
Proof.
  induction it as [b|l IH] using item_induction; intros s pre post Hs o.
  - apply merges_nil; [lia|]. subst s. apply slice_app_mid.
  - cbn [item_str] in *. rewrite rlp_enc_Lst. cbn [item_heads]. fold items_heads.
    assert (Hgo : merges s o (items_heads o l) (Z.of_nat (length (concat (item_str <$> l))))
                    (rlp_encs l)).
    { revert s pre post Hs o. induction IH as [|x l Hx _ IHl]; intros s pre post Hs o.
      - apply merges_nil; [done|]. unfold slice. by rewrite Z.add_simpl_l.
      - rewrite fmap_cons in *. cbn [concat items_heads] in *.
        rewrite length_app, Nat2Z.inj_add. rewrite rlp_encs_cons.
        apply merges_app; [lia| |].
        + apply (Hx s pre (concat (item_str <$> l) ++ post)). by rewrite Hs, <- !app_assoc.
        + specialize (IHl s (pre ++ item_str x) post). rewrite length_app, Nat2Z.inj_add in IHl.
          apply IHl. by rewrite Hs, <- !app_assoc. }
    intros strpos rest out Hp. cbn [app toBytes_loop lh_offset].
    fold (slice s strpos o). rewrite length_slice; [|lia|].
    2:{ subst s o. rewrite !length_app. lia. }
    replace (strpos + (o - strpos)) with o by lia.
    destruct (Hgo o rest (out ++ slice s strpos o ++ listhead_encode
      {| lh_offset := o; lh_size := Z.of_nat (length (rlp_encs l)) |}) ltac:(lia))
      as (p & out' & E & Hp' & Ho).
    exists p, out'. split; [exact E|]. split; [done|]. rewrite Ho.
    unfold listhead_encode. cbn [lh_size].
    replace (slice s o o) with (@nil Byte.byte) by (unfold slice; by rewrite Z.sub_diag).
    by rewrite <- !app_assoc.
Qed.

Lemma EncodeToBytes_rlp_enc it : fits it -> EncodeToBytes it = rlp_enc it.
Proof.
  intros Hf. unfold EncodeToBytes, toBytes. rewrite encode_run by done.
  cbn [str lheads lhsize encbuf_reset length app].
  destruct (merges_item it (item_str it) [] [] ltac:(by rewrite app_nil_r) 0 [] [] ltac:(done))
    as (p & out' & E & Hp & Ho).
  rewrite app_nil_r in E. cbn [length] in E, Hp, Ho.
  change (Z.of_nat 0) with 0 in *. rewrite E. cbn [toBytes_loop].
  rewrite Z.add_0_l in Hp, Ho. change (slice (item_str it) 0 0) with (@nil Byte.byte) in Ho.
  cbn [app] in Ho.
  rewrite <- Ho. f_equal. unfold slice. rewrite take_ge; [done|]. rewrite length_drop. lia.
Qed.

(** The leaf writers emit the encodings of their items. *)
Lemma putint_small i : 0 <= i < 256 -> putint i = [z2b i].
Proof. intros Hi. unfold putint. zcases. done. Qed.

Lemma writeUint_item i w : in_u64 i -> writeUint i w = encode (uint_item i) w.
Proof.
  intros Hi. pose proof (putint_length i Hi) as Hl.
  unfold writeUint, uint_item. destruct (Z.eqb_spec i 0) as [->|Hne];
    cbn [encode]; rewrite encodeString_str_enc by (simpl; lia); [done|]. unfold in_u64 in Hi.
  destruct (Z.ltb_spec i 128) as [Hs|Hs]; cbv zeta; f_equal.
  - rewrite putint_small by lia. unfold str_enc. rewrite b2z_z2b, Z.mod_small by lia.
    destruct (Z.leb_spec i 0x7F); [done|lia].
  - destruct (Z.ltb_spec i 256) as [Hb|Hb].
    + rewrite putint_small by lia. unfold str_enc. rewrite b2z_z2b, Z.mod_small by lia.
      destruct (Z.leb_spec i 0x7F); [lia|done].
    + destruct (putint_spec i Hi) as (n & _ & Hp & Hlt & _).
      assert (length (putint i) = n) as Hn by (rewrite Hp, length_reverse, length_put_le; done).
      assert (2 <= n)%nat by (destruct n as [|[|n]]; simpl in Hlt; lia).
      unfold str_enc. destruct (putint i) as [|b0 [|b1 bs]]; [simpl in *; lia..|].
      unfold puthead. destruct (Z.ltb_spec (Z.of_nat (length (b0 :: b1 :: bs))) 56); [done|lia].
Qed.

Lemma writeBool_item b w : writeBool b w = encode (bool_item b) w.
Proof. destruct b; cbn [bool_item encode]; rewrite encodeString_str_enc by (simpl; lia); done. Qed.

Lemma writeBigInt_item i w :
  0 <= i < 256 ^ 1024 -> writeBigInt i w = Ok (encode (big_item i) w).
Proof.
  intros Hi. unfold writeBigInt. destruct (Z.ltb_spec i 0); [lia|].
  destruct (Z.eqb_spec i 0) as [->|]; [|done].
  cbn [big_item encode]. rewrite encodeString_str_enc by (simpl; lia). done.
Qed.

(** ** Properties *)

(** C23: The buffer-based encoder (string data and list headers kept apart, sizes
    patched when a list ends, merged by [toBytes]) produces the recursive RLP
    encoding of every value whose encoding has a representable length, and the
    size it announces before merging is the size of the output. *)
Theorem encbuf_refines (it : item) (Hf : fits it) :
  EncodeToBytes it = rlp_enc it /\
  encbuf_size (encode it encbuf_reset) = Z.of_nat (length (rlp_enc it)).
Proof.
  split; [by apply EncodeToBytes_rlp_enc|].
  rewrite encode_run by done. unfold encbuf_size. cbn [str lhsize encbuf_reset app].
  rewrite <- item_lengths by done. lia.
Qed.
Lemma encbuf_refines_witness :
  let it := Lst [Str []; Lst [Str [Byte.x01]; Lst []]; Str (replicate 60 Byte.x80)] in
  EncodeToBytes it = rlp_enc it /\
  encbuf_size (encode it encbuf_reset) = Z.of_nat (length (rlp_enc it)).
Proof. apply encbuf_refines. vm_compute. reflexivity. Defined.
