(* ===== verification/RLPStream.v ===== *)
(** RLP decoding: the piecemeal [Stream] decoder of rlp/decode.go and the
    splitting functions of rlp/raw.go.

    A [Stream] reads from a byte reader under an input limit, keeps a stack of
    the lists it is inside of, and caches the kind of the next value.
    [decodeInterface] is the decoder the package uses for an untyped target; it
    recovers the tree of values.  Its recursion is bounded by [fuel]; twice the
    input length plus two is always enough ([DecodeBytes_total]). *)
From stdpp Require Import prelude list strings.
From Stdlib Require Import ZArith Lia.
From S2P Require Import Prelude VarBytes RLP.
Local Open Scope Z_scope.

Definition EOL : goerror := ErrVar "EOL" "rlp: end of list".
Definition ErrExpectedString := ErrVar "ErrExpectedString" "rlp: expected String or Byte".
Definition ErrExpectedList := ErrVar "ErrExpectedList" "rlp: expected List".
Definition ErrCanonInt := ErrVar "ErrCanonInt" "rlp: non-canonical integer format".
Definition ErrCanonSize := ErrVar "ErrCanonSize" "rlp: non-canonical size information".
Definition ErrElemTooLarge :=
  ErrVar "ErrElemTooLarge" "rlp: element is larger than containing list".
Definition ErrValueTooLarge :=
  ErrVar "ErrValueTooLarge" "rlp: value size exceeds available input length".
Definition ErrMoreThanOneValue :=
  ErrVar "ErrMoreThanOneValue" "rlp: input contains more than one value".
Definition errNotInList := ErrVar "errNotInList" "rlp: call of ListEnd outside of any list".
Definition errNotAtEOL := ErrVar "errNotAtEOL" "rlp: call of ListEnd not positioned at EOL".
Definition errUintOverflow := ErrVar "errUintOverflow" "rlp: uint overflow".

Inductive Kind := KByte | KString | KList.
#[export] Instance Kind_eq_decision : EqDecision Kind.
Proof. solve_decision. Defined.

Record listpos := { lp_pos : Z; lp_size : Z }.

(** [s_kind = None] is Go's [kind = -1]; the top of [s_stack] is its head. *)
Record Stream := {
  s_r : bytes; s_remaining : Z; s_limited : bool;
  s_kind : option Kind; s_size : Z; s_byteval : Byte.byte;
  s_kinderr : option goerror; s_stack : list listpos }.

Definition set_kind (k : option Kind) (s : Stream) : Stream :=
  {| s_r := s_r s; s_remaining := s_remaining s; s_limited := s_limited s; s_kind := k;
     s_size := s_size s; s_byteval := s_byteval s; s_kinderr := s_kinderr s;
     s_stack := s_stack s |}.
Definition set_r (r : bytes) (s : Stream) : Stream :=
  {| s_r := r; s_remaining := s_remaining s; s_limited := s_limited s; s_kind := s_kind s;
     s_size := s_size s; s_byteval := s_byteval s; s_kinderr := s_kinderr s;
     s_stack := s_stack s |}.
Definition set_remaining (n : Z) (s : Stream) : Stream :=
  {| s_r := s_r s; s_remaining := n; s_limited := s_limited s; s_kind := s_kind s;
     s_size := s_size s; s_byteval := s_byteval s; s_kinderr := s_kinderr s;
     s_stack := s_stack s |}.
Definition set_stack (st : list listpos) (s : Stream) : Stream :=
  {| s_r := s_r s; s_remaining := s_remaining s; s_limited := s_limited s; s_kind := s_kind s;
     s_size := s_size s; s_byteval := s_byteval s; s_kinderr := s_kinderr s; s_stack := st |}.
Definition set_byteval (b : Byte.byte) (s : Stream) : Stream :=
  {| s_r := s_r s; s_remaining := s_remaining s; s_limited := s_limited s; s_kind := s_kind s;
     s_size := s_size s; s_byteval := b; s_kinderr := s_kinderr s; s_stack := s_stack s |}.
Definition set_size (n : Z) (s : Stream) : Stream :=
  {| s_r := s_r s; s_remaining := s_remaining s; s_limited := s_limited s; s_kind := s_kind s;
     s_size := n; s_byteval := s_byteval s; s_kinderr := s_kinderr s; s_stack := s_stack s |}.
Definition set_kinderr (e : option goerror) (s : Stream) : Stream :=
  {| s_r := s_r s; s_remaining := s_remaining s; s_limited := s_limited s; s_kind := s_kind s;
     s_size := s_size s; s_byteval := s_byteval s; s_kinderr := e; s_stack := s_stack s |}.

(** [Reset] on a [bytes.Reader]: a zero [inputLimit] means the reader's length. *)
Definition Reset (r : bytes) (inputLimit : Z) : Stream :=
  {| s_r := r; s_remaining := if 0 <? inputLimit then inputLimit else Z.of_nat (length r);
     s_limited := true; s_kind := None; s_size := 0; s_byteval := Byte.x00;
     s_kinderr := None; s_stack := [] |}.

(** ** Reading bytes *)

Definition willRead (n : Z) : M Stream unit :=
  modS (set_kind None) ;;
  st ← gets s_stack;
  (match st with
   | tos :: st' =>
       if u64 (lp_size tos - lp_pos tos) <? n then throw ErrElemTooLarge
       else modS (set_stack ({| lp_pos := u64 (lp_pos tos + n); lp_size := lp_size tos |} :: st'))
   | [] => ret tt
   end) ;;
  limited ← gets s_limited;
  if limited : bool then
    rem ← gets s_remaining;
    if rem <? n then throw ErrValueTooLarge else modS (set_remaining (u64 (rem - n)))
  else ret tt.

Definition readByte : M Stream Byte.byte :=
  willRead 1 ;;
  r ← gets s_r;
  match r with
  | b :: r' => modS (set_r r') ;; ret b
  | [] => throw io_ErrUnexpectedEOF
  end.

(** [readFull] into a buffer of [n] bytes; at end of input it has consumed what
    was left. *)
Definition s_readFull (n : Z) : M Stream bytes :=
  willRead n ;;
  r ← gets s_r;
  if n <=? Z.of_nat (length r)
  then modS (set_r (drop (Z.to_nat n) r)) ;; ret (take (Z.to_nat n) r)
  else modS (set_r []) ;; throw io_ErrUnexpectedEOF.

Definition readUint (size : Z) : M Stream Z :=
  if size =? 0 then modS (set_kind None) ;; ret 0
  else if size =? 1 then b ← readByte; ret (b2z b)
  else
    buf ← s_readFull size;
    if bool_decide (head buf = Some Byte.x00) then throw ErrCanonSize
    else ret (be_value buf).

(** ** The kind of the next value *)

(** [readKind]: kind, size and error, all three of which the caller stores. *)
Definition readKind : M Stream (Kind * Z * option goerror) :=
  rb ← attempt readByte;
  match rb with
  | inl err =>
      st ← gets s_stack;
      let err := match st with
                 | [] => if bool_decide (err = io_ErrUnexpectedEOF) then io_EOF
                         else if bool_decide (err = ErrValueTooLarge) then io_EOF else err
                 | _ => err
                 end in
      ret (KByte, 0, Some err)
  | inr b =>
      modS (set_byteval Byte.x00) ;;
      let z := b2z b in
      if z <? 0x80 then modS (set_byteval b) ;; ret (KByte, 0, None)
      else if z <? 0xB8 then ret (KString, z - 0x80, None)
      else if z <? 0xC0 then
        sz ← attempt (readUint (z - 0xB7));
        match sz with
        | inl e => ret (KString, 0, Some e)
        | inr n => ret (KString, n, if n <? 56 then Some ErrCanonSize else None)
        end
      else if z <? 0xF8 then ret (KList, z - 0xC0, None)
      else
        sz ← attempt (readUint (z - 0xF7));
        match sz with
        | inl e => ret (KList, 0, Some e)
        | inr n => ret (KList, n, if n <? 56 then Some ErrCanonSize else None)
        end
  end.

Definition stream_Kind : M Stream (Kind * Z) :=
  st ← gets s_stack;
  k ← gets s_kind;
  let tos := head st in
  (match k with
   | Some _ => ret tt
   | None =>
       modS (set_kinderr None) ;;
       if match tos with Some t => lp_pos t =? lp_size t | None => false end
       then throw EOL
       else
         '(kind, size, err) ← readKind;
         modS (fun s => set_kinderr err (set_size size (set_kind (Some kind) s))) ;;
         match err with
         | Some _ => ret tt
         | None =>
             (* [tos] points into the stack, so it sees the bytes just read *)
             st ← gets s_stack;
             limited ← gets s_limited;
             rem ← gets s_remaining;
             match head st with
             | None => when (limited && (rem <? size)) (modS (set_kinderr (Some ErrValueTooLarge)))
             | Some t => when (u64 (lp_size t - lp_pos t) <? size)
                              (modS (set_kinderr (Some ErrElemTooLarge)))
             end
         end
   end) ;;
  s ← getS;
  match s_kinderr s, s_kind s with
  | Some e, _ => throw e
  | None, Some k => ret (k, s_size s)
  | None, None => gopanic "unreachable: kind is set"
  end.

(** ** Stream operations *)

(** [make([]byte, size)]: see [VarBytes.make_bytes]. *)
Definition s_make (size : Z) : M Stream unit :=
  when (2 ^ 48 <? size) (gopanic "makeslice: len out of range").

Definition stream_Bytes : M Stream bytes :=
  '(kind, size) ← stream_Kind;
  match kind with
  | KByte => modS (set_kind None) ;; b ← gets s_byteval; ret [b]
  | KString =>
      s_make size ;;
      b ← s_readFull size;
      match b with
      | [b0] => if b2z b0 <? 128 then throw ErrCanonSize else ret b
      | _ => ret b
      end
  | KList => throw ErrExpectedString
  end.

Definition stream_Raw : M Stream bytes :=
  '(kind, size) ← stream_Kind;
  match kind with
  | KByte => modS (set_kind None) ;; b ← gets s_byteval; ret [b]
  | _ =>
      s_make (u64 (headsize size + size)) ;;
      buf ← s_readFull size;
      ret ((if bool_decide (kind = KString) then puthead 0x80 0xB7 size
            else puthead 0xC0 0xF7 size) ++ buf)
  end.

Definition stream_uint (maxbits : Z) : M Stream Z :=
  '(kind, size) ← stream_Kind;
  match kind with
  | KByte =>
      b ← gets s_byteval;
      if b2z b =? 0 then throw ErrCanonInt
      else modS (set_kind None) ;; ret (b2z b)
  | KString =>
      if maxbits / 8 <? size then throw errUintOverflow
      else
        r ← attempt (readUint size);
        match r with
        | inl e => if bool_decide (e = ErrCanonSize) then throw ErrCanonInt else throw e
        | inr v => if (0 <? size) && (v <? 128) then throw ErrCanonSize else ret v
        end
  | KList => throw ErrExpectedString
  end.
Definition stream_Uint : M Stream Z := stream_uint 64.

Definition stream_Bool : M Stream bool :=
  num ← stream_uint 8;
  if num =? 0 then ret false
  else if num =? 1 then ret true
  else throw (ErrNew "rlp: invalid boolean value").

Definition stream_List : M Stream Z :=
  '(kind, size) ← stream_Kind;
  match kind with
  | KList =>
      modS (fun s => set_size 0 (set_kind None
        (set_stack ({| lp_pos := 0; lp_size := size |} :: s_stack s) s))) ;;
      ret size
  | _ => throw ErrExpectedList
  end.

Definition stream_ListEnd : M Stream unit :=
  st ← gets s_stack;
  match st with
  | [] => throw errNotInList
  | tos :: st' =>
      if negb (lp_pos tos =? lp_size tos) then throw errNotAtEOL
      else
        let st'' := match st' with
                    | [] => []
                    | p :: st3 => {| lp_pos := u64 (lp_pos p + lp_size tos); lp_size := lp_size p |} :: st3
                    end in
        modS (fun s => set_size 0 (set_kind None (set_stack st'' s)))
  end.

(** ** Decoding an untyped value *)

(** [wrapStreamError] replaces the stream's own errors by decode errors. *)
Definition wrapStreamError (e : goerror) : goerror :=
  if bool_decide (e = ErrCanonInt) then ErrNew "rlp: non-canonical integer (leading zero bytes)"
  else if bool_decide (e = ErrCanonSize) then ErrNew "rlp: non-canonical size information"
  else if bool_decide (e = ErrExpectedList) then ErrNew "rlp: expected input list"
  else if bool_decide (e = ErrExpectedString) then ErrNew "rlp: expected input string or byte"
  else if bool_decide (e = errUintOverflow) then ErrNew "rlp: input string too long"
  else if bool_decide (e = errNotAtEOL) then ErrNew "rlp: input list has too many elements"
  else e.

Definition rethrow {S A} (f : goerror -> goerror) (m : M S A) : M S A :=
  r ← attempt m;
  match r with inl e => throw (f e) | inr a => ret a end.

(** [decodeInterface], with [decodeListSlice] and the loop of
    [decodeSliceElems] over it. *)
Fixpoint decodeInterface (fuel : nat) : M Stream item :=
  match fuel with
  | O => blocked
  | S f =>
      '(kind, _) ← stream_Kind;
      match kind with
      | KList =>
          size ← rethrow wrapStreamError stream_List;
          if size =? 0 then stream_ListEnd ;; ret (Lst [])
          else
            l ← decodeSliceElems f [];
            stream_ListEnd ;; ret (Lst l)
      | _ => b ← stream_Bytes; ret (Str b)
      end
  end
with decodeSliceElems (fuel : nat) (acc : list item) : M Stream (list item) :=
  match fuel with
  | O => blocked
  | S f =>
      r ← attempt (decodeInterface f);
      match r with
      | inl e => if bool_decide (e = EOL) then ret (reverse acc) else throw e
      | inr x => decodeSliceElems f (x :: acc)
      end
  end.

Definition decode_fuel (b : bytes) : nat := 2 * length b + 2.

Definition DecodeBytes (b : bytes) : outcome item :=
  match decodeInterface (decode_fuel b) (Reset b (Z.of_nat (length b))) with
  | (Ok it, s) => match s_r s with [] => Ok it | _ => Err ErrMoreThanOneValue end
  | (Err e, _) => Err e
  | (Panic w, _) => Panic w
  | (Blocked, _) => Blocked
  end.

(** ** Splitting encoded values (rlp/raw.go) *)

Definition readSize (b : bytes) (slen : Z) : outcome Z :=
  if Z.of_nat (length b) <? slen then Err io_ErrUnexpectedEOF
  else
    let s := be_value (take (Z.to_nat slen) b) in
    if (s <? 56) || bool_decide (head b = Some Byte.x00) then Err ErrCanonSize else Ok s.

(** Kind, tag size and content size of the value at the front of [buf]. *)
Definition raw_readKind (buf : bytes) : outcome (Kind * Z * Z) :=
  match buf with
  | [] => Err io_ErrUnexpectedEOF
  | b0 :: tl =>
      let b := b2z b0 in
      '(k, tagsize, contentsize) ←
        (if b <? 0x80 then Ok (KByte, 0, 1)
         else if b <? 0xB8 then
           if (b - 0x80 =? 1) && match tl with b1 :: _ => b2z b1 <? 128 | [] => false end
           then Err ErrCanonSize
           else Ok (KString, 1, b - 0x80)
         else if b <? 0xC0 then
           (cs ← readSize tl (b - 0xB7); Ok (KString, b - 0xB7 + 1, cs))%stdpp
         else if b <? 0xF8 then Ok (KList, 1, b - 0xC0)
         else (cs ← readSize tl (b - 0xF7); Ok (KList, b - 0xF7 + 1, cs))%stdpp);
      if u64 (Z.of_nat (length buf) - tagsize) <? contentsize then Err ErrValueTooLarge
      else Ok (k, tagsize, contentsize)
  end%stdpp.

Definition Split (b : bytes) : outcome (Kind * bytes * bytes) :=
  ('(k, ts, cs) ← raw_readKind b;
   Ok (k, take (Z.to_nat cs) (drop (Z.to_nat ts) b), drop (Z.to_nat (ts + cs)) b))%stdpp.

Definition SplitString (b : bytes) : outcome (bytes * bytes) :=
  ('(k, content, rest) ← Split b;
   if bool_decide (k = KList) then Err ErrExpectedString else Ok (content, rest))%stdpp.

Definition SplitList (b : bytes) : outcome (bytes * bytes) :=
  ('(k, content, rest) ← Split b;
   if bool_decide (k = KList) then Ok (content, rest) else Err ErrExpectedList)%stdpp.

Fixpoint CountValues_loop (fuel : nat) (b : bytes) (i : Z) : outcome Z :=
  match b, fuel with
  | [], _ => Ok i
  | _, O => Blocked
  | _, S f =>
      match raw_readKind b with
      | Ok (_, tagsize, size) => CountValues_loop f (drop (Z.to_nat (tagsize + size)) b) (i + 1)
      | Err e => Err e
      | Panic w => Panic w
      | Blocked => Blocked
      end
  end.
Definition CountValues (b : bytes) : outcome Z := CountValues_loop (length b) b 0.
