(* ===== verification/RLPStreamFacts.v ===== *)
(** Properties of the RLP stream decoder and of the splitting functions.

    [wfS] is the invariant of a stream over a byte slice; each operation has a
    forward lemma (what it returns on a given input) and an inversion lemma
    (which input made it succeed), stated over the bytes consumed. *)
From stdpp Require Import prelude list strings.
From Stdlib Require Import ZArith Lia.
From S2P Require Import Prelude VarBytes RLP RLPStream.
Local Open Scope Z_scope.

(** ** Minimal big-endian integers *)

(** A byte string of one to eight bytes without a leading zero is what [putint]
    writes for its value. *)
Lemma putint_be_value bs :
  (1 <= length bs <= 8)%nat -> (length bs = 1%nat \/ head bs <> Some Byte.x00) ->
  putint (be_value bs) = bs.
Proof.
  intros Hl Hz. pose proof (be_value_range bs) as Hr.
  assert (Hu : in_u64 (be_value bs)).
  { unfold in_u64. split; [lia|]. eapply Z.lt_le_trans; [apply Hr|].
    change (2 ^ 64) with (256 ^ 8). apply Z.pow_le_mono_r; lia. }
  destruct (putint_spec _ Hu) as (n & Hn & -> & Hlt & Hge).
  assert (n = length bs) as ->.
  { assert (Hlow : length bs = 1%nat \/ 256 ^ (Z.of_nat (length bs) - 1) <= be_value bs).
    { destruct Hz as [Hz|Hz]; [by left|]. right. destruct bs as [|x bs]; [simpl in Hl; lia|].
      rewrite be_value_cons. cbn [length].
      replace (Z.of_nat (S (length bs)) - 1) with (Z.of_nat (length bs)) by lia.
      pose proof (be_value_range bs). pose proof (b2z_range x).
      assert (b2z x <> 0) by (intros Hx0; apply Hz; cbn; f_equal; by apply b2z_zero). nia. }
    destruct (lt_eq_lt_dec n (length bs)) as [[Hlt'|Heq]|Hgt]; [|done|].
    - destruct Hlow as [H1|Hlow]; [lia|].
      assert (256 ^ Z.of_nat n <= 256 ^ (Z.of_nat (length bs) - 1)) by (apply Z.pow_le_mono_r; lia).
      lia.
    - destruct Hge as [H1|Hge]; [lia|].
      assert (256 ^ Z.of_nat (length bs) <= 256 ^ (Z.of_nat n - 1)) by (apply Z.pow_le_mono_r; lia).
      lia. }
  unfold be_value. rewrite <- (length_reverse bs), put_get_le. apply reverse_involutive.
Qed.

(** ** Stream invariant and consumption *)

Definition wf_pos (t : listpos) : Prop := 0 <= lp_pos t <= lp_size t /\ lp_size t < 2 ^ 64.

Record wfS (s : Stream) : Prop := {
  wfS_lim : s_limited s = true;
  wfS_rem : s_remaining s = Z.of_nat (length (s_r s));
  wfS_len : Z.of_nat (length (s_r s)) < 2 ^ 64;
  wfS_stack : Forall wf_pos (s_stack s) }.

(** [n] bytes may be read: they are left in the innermost list and in the input. *)
Definition room (n : Z) (s : Stream) : Prop :=
  0 <= n <= s_remaining s /\
  match s_stack s with [] => True | t :: _ => n <= lp_size t - lp_pos t end.

Definition bump_stack (n : Z) (st : list listpos) : list listpos :=
  match st with
  | [] => []
  | t :: st => {| lp_pos := lp_pos t + n; lp_size := lp_size t |} :: st
  end.

(** [s'] is [s] after reading [n] bytes with no value pending; cached fields
    may differ. *)
Record after (n : Z) (s s' : Stream) : Prop := {
  af_r : s_r s' = drop (Z.to_nat n) (s_r s);
  af_rem : s_remaining s' = s_remaining s - n;
  af_lim : s_limited s' = s_limited s;
  af_stack : s_stack s' = bump_stack n (s_stack s) }.

Lemma after_wf n s s' : wfS s -> room n s -> after n s s' -> wfS s'.
Proof.
  intros [Hl Hr Hn Hs] [Hn1 Hn2] [Ar Am Al As]. constructor.
  - by rewrite Al.
  - rewrite Am, Ar, length_drop. lia.
  - rewrite Ar, length_drop. lia.
  - rewrite As. destruct (s_stack s) as [|t st]; [done|]. inversion Hs as [|? ? Ht Hst]; subst.
    constructor; [|done]. unfold wf_pos in *. cbn. lia.
Qed.

Lemma after_trans n m s1 s2 s3 :
  0 <= n -> 0 <= m -> after n s1 s2 -> after m s2 s3 -> after (n + m) s1 s3.
Proof.
  intros Hn Hm [Ar Am Al As] [Br Bm Bl Bs]. constructor.
  - rewrite Br, Ar, drop_drop. f_equal. lia.
  - lia.
  - congruence.
  - rewrite Bs, As. destruct (s_stack s1); cbn; [done|]. do 2 f_equal. lia.
Qed.

Lemma room_split n m s s' :
  0 <= n -> 0 <= m -> after n s s' -> (room (n + m) s <-> room n s /\ room m s').
Proof.
  intros Hn Hm [Ar Am Al As]. unfold room. rewrite Am, As.
  destruct (s_stack s) as [|t st]; cbn; intuition lia.
Qed.

(** ** Reading bytes *)

Definition bump (n : Z) (s : Stream) : Stream :=
  set_remaining (s_remaining s - n) (set_stack (bump_stack n (s_stack s)) (set_kind None s)).

Lemma willRead_ok n s : wfS s -> room n s -> willRead n s = (Ok tt, bump n s).
Proof.
  intros [Hl Hr Hn Hs] [Hn1 Hn2]. unfold willRead. unfold_M. cbn [set_kind s_stack].
  unfold bump. destruct s as [r rem lim k sz bv ke st]; cbn in *. subst lim.
  destruct st as [|t st]; cbn.
  - destruct (Z.ltb_spec rem n); [lia|]. rewrite u64_small by (unfold in_u64; lia). done.
  - inversion Hs as [|? ? [Ht1 Ht2] Hst]; subst.
    rewrite u64_small by (unfold in_u64; lia).
    destruct (Z.ltb_spec (lp_size t - lp_pos t) n); [lia|]. cbn.
    destruct (Z.ltb_spec (Z.of_nat (length r)) n); [lia|].
    rewrite !u64_small by (unfold in_u64; lia). done.
Qed.

Lemma willRead_inv n s u s' :
  wfS s -> 0 <= n -> willRead n s = (Ok u, s') -> room n s /\ s' = bump n s.
Proof.
  intros Hw Hn H.
  assert (Hroom : room n s).
  { destruct Hw as [Hl Hr Hlen Hs]. unfold willRead in H. unfold_M. unfold room.
    destruct s as [r rem lim k sz bv ke st]; cbn in *. subst lim.
    destruct st as [|t st]; cbn in *.
    - destruct (Z.ltb_spec rem n); [discriminate|]. lia.
    - inversion Hs as [|? ? [Ht1 Ht2] Hst]; subst.
      rewrite u64_small in H by (unfold in_u64; lia).
      destruct (Z.ltb_spec (lp_size t - lp_pos t) n); [discriminate|]. cbn in H.
      destruct (Z.ltb_spec (Z.of_nat (length r)) n); [discriminate|]. lia. }
  split; [done|]. rewrite willRead_ok in H by done. by simplify_eq.
Qed.

Lemma after_bump n s r' : r' = drop (Z.to_nat n) (s_r s) -> after n s (set_r r' (bump n s)).
Proof. intros ->. constructor; done. Qed.

Lemma s_readFull_ok n s :
  wfS s -> room n s ->
  s_readFull n s = (Ok (take (Z.to_nat n) (s_r s)), set_r (drop (Z.to_nat n) (s_r s)) (bump n s)).
Proof.
  intros Hw Hr. unfold s_readFull. erewrite bind_Ok by (by apply willRead_ok).
  unfold_M. change (s_r (bump n s)) with (s_r s). destruct Hw as [_ Hrem _ _].
  destruct Hr as [Hr _]. destruct (Z.leb_spec n (Z.of_nat (length (s_r s)))); [done|lia].
Qed.

Lemma s_readFull_inv n s bs s' :
  wfS s -> 0 <= n -> s_readFull n s = (Ok bs, s') ->
  room n s /\ bs = take (Z.to_nat n) (s_r s) /\ s' = set_r (drop (Z.to_nat n) (s_r s)) (bump n s).
Proof.
  intros Hw Hn H. assert (Hr : room n s).
  { unfold s_readFull in H. apply bind_Ok_inv in H as (u & s1 & Hwr & _).
    by apply willRead_inv in Hwr as [Hr _]. }
  split; [done|]. rewrite s_readFull_ok in H by done. by simplify_eq.
Qed.

Lemma readByte_ok s b r' :
  wfS s -> room 1 s -> s_r s = b :: r' -> readByte s = (Ok b, set_r r' (bump 1 s)).
Proof.
  intros Hw Hr Hb. unfold readByte. erewrite bind_Ok by (by apply willRead_ok).
  unfold_M. change (s_r (bump 1 s)) with (s_r s). by rewrite Hb.
Qed.

Lemma readByte_inv s b s' :
  wfS s -> readByte s = (Ok b, s') ->
  room 1 s /\ exists r', s_r s = b :: r' /\ s' = set_r r' (bump 1 s).
Proof.
  intros Hw H. assert (Hr : room 1 s).
  { unfold readByte in H. apply bind_Ok_inv in H as (u & s1 & Hwr & _).
    by apply willRead_inv in Hwr as [Hr _]. }
  split; [done|]. destruct (s_r s) as [|b' r'] eqn:Hsr.
  - destruct Hr as [Hr _]. destruct Hw as [_ Hrem _ _]. rewrite Hsr in Hrem. simpl in Hrem. lia.
  - rewrite (readByte_ok s b' r') in H by done. simplify_eq. eauto.
Qed.

(** ** Header integers *)

Lemma putint_head i :
  in_u64 i -> length (putint i) = 1%nat \/ head (putint i) <> Some Byte.x00.
Proof.
  intros Hi. destruct (putint_spec i Hi) as (n & Hn & Hp & Hlt & Hge).
  assert (Hl : length (putint i) = n) by (by rewrite Hp, length_reverse, length_put_le).
  destruct Hge as [->|Hge]; [by left|].
  destruct (decide (n = 1%nat)) as [->|Hn1]; [by left|]. right. intros Hh.
  pose proof (putint_value i Hi) as Hv.
  destruct (putint i) as [|x bs]; [done|]. cbn in Hh. injection Hh as ->.
  rewrite be_value_cons in Hv. change (b2z Byte.x00) with 0 in Hv.
  pose proof (be_value_range bs). cbn [length] in *.
  replace (Z.of_nat n - 1) with (Z.of_nat (length bs)) in Hge by lia. lia.
Qed.

Lemma readUint_ok slen s :
  wfS s -> room slen s -> 1 <= slen ->
  (slen = 1 \/ head (take (Z.to_nat slen) (s_r s)) <> Some Byte.x00) ->
  readUint slen s =
    (Ok (be_value (take (Z.to_nat slen) (s_r s))), set_r (drop (Z.to_nat slen) (s_r s)) (bump slen s)).
Proof.
  intros Hw Hr Hs Hh. unfold readUint.
  destruct (Z.eqb_spec slen 0); [lia|]. destruct (Z.eqb_spec slen 1) as [->|Hne].
  - destruct (s_r s) as [|b r'] eqn:Hsr.
    { destruct Hr as [Hr _]. destruct Hw as [_ Hrem _ _]. rewrite Hsr in Hrem. simpl in Hrem. lia. }
    erewrite bind_Ok by (by apply (readByte_ok s b r')).
    unfold ret. change (Z.to_nat 1) with 1%nat. cbn [take firstn drop skipn].
    by rewrite be_value_single.
  - destruct Hh as [|Hh]; [lia|]. erewrite bind_Ok by (by apply s_readFull_ok).
    by rewrite bool_decide_eq_false_2.
Qed.

Lemma readUint_inv slen s v s' :
  wfS s -> 1 <= slen -> readUint slen s = (Ok v, s') ->
  room slen s /\ v = be_value (take (Z.to_nat slen) (s_r s)) /\
  (slen = 1 \/ head (take (Z.to_nat slen) (s_r s)) <> Some Byte.x00) /\
  s' = set_r (drop (Z.to_nat slen) (s_r s)) (bump slen s).
Proof.
  intros Hw Hs H.
  assert (Hp : room slen s /\
    (slen = 1 \/ head (take (Z.to_nat slen) (s_r s)) <> Some Byte.x00)).
  { unfold readUint in H.
    destruct (Z.eqb_spec slen 0); [lia|]. destruct (Z.eqb_spec slen 1) as [->|Hne].
    - apply bind_Ok_inv in H as (b & s1 & Hb & _). apply readByte_inv in Hb as [Hr _]; auto.
    - apply bind_Ok_inv in H as (bs & s1 & Hb & H).
      apply s_readFull_inv in Hb as (Hr & -> & ->); [|done|lia].
      case_bool_decide; [discriminate|]. auto. }
  destruct Hp as [Hr Hh]. rewrite readUint_ok in H by done. by simplify_eq.
Qed.

(** ** Value headers *)

(** The header of a value: a single byte is its own header. *)
Definition hdr (k : Kind) (n : Z) (b : Byte.byte) : bytes :=
  match k with
  | KByte => [b]
  | KString => puthead 0x80 0xB7 n
  | KList => puthead 0xC0 0xF7 n
  end.

Definition wf_hdr (k : Kind) (n : Z) (b : Byte.byte) : Prop :=
  match k with KByte => b2z b < 0x80 /\ n = 0 | _ => in_u64 n end.

Lemma drop_app_hdr (h r : bytes) : drop (Z.to_nat (Z.of_nat (length h))) (h ++ r) = r.
Proof. by rewrite Nat2Z.id, drop_app_length. Qed.

Lemma set_byteval_after n s s' b : after n s s' -> after n s (set_byteval b s').
Proof. intros []. by constructor. Qed.

Lemma readKind_long (k : Kind) n tag s s1 enc r' :
  after 1 s s1 -> wfS s -> room (1 + Z.of_nat (length enc)) s ->
  s_r s1 = enc ++ r' -> enc = putint n -> in_u64 n -> 56 <= n ->
  tag = Z.of_nat (length enc) ->
  exists s', (sz ← attempt (readUint tag);
    match sz with
    | inl e => ret (k, 0, Some e)
    | inr n => ret (k, n, if n <? 56 then Some ErrCanonSize else None)
    end) s1 = (Ok (k, n, None), s') /\ after (1 + Z.of_nat (length enc)) s s'.
Proof.
  intros Ha Hw Hr Hs1 Henc Hn H56 ->.
  pose proof (putint_length n Hn) as Hpl. rewrite <- Henc in Hpl.
  apply (room_split 1 _ s s1) in Hr as [Hr1 Hr2]; [|lia..|done].
  pose proof (after_wf _ _ _ Hw Hr1 Ha) as Hw1.
  assert (Ht : take (Z.to_nat (Z.of_nat (length enc))) (s_r s1) = enc)
    by (by rewrite Hs1, Nat2Z.id, take_app_length).
  assert (Hro := readUint_ok (Z.of_nat (length enc)) s1 Hw1 Hr2 ltac:(lia)). rewrite Ht in Hro.
  assert (Hv : be_value enc = n) by (rewrite Henc; by apply putint_value). rewrite Hv in Hro.
  eexists. erewrite bind_Ok by (apply attempt_Ok, Hro;
    destruct (putint_head n Hn); rewrite <- Henc in *; [left; lia|by right]).
  cbv beta iota. destruct (Z.ltb_spec n 56); [lia|]. split; [reflexivity|].
  eapply after_trans; [lia..|exact Ha|]. by apply after_bump.
Qed.

Lemma readKind_ok k n b s r' :
  wfS s -> wf_hdr k n b -> s_r s = hdr k n b ++ r' -> room (Z.of_nat (length (hdr k n b))) s ->
  exists s', readKind s = (Ok (k, n, None), s') /\
    after (Z.of_nat (length (hdr k n b))) s s' /\ (k = KByte -> s_byteval s' = b).
Proof.
  intros Hw Hh Hr Hroom.
  assert (Hgen : exists b0 tl, hdr k n b = b0 :: tl).
  { destruct k; cbn; [eauto|unfold puthead; cbv zeta; destruct (_ <? 56); eauto..]. }
  destruct Hgen as (b0 & tl & Eh). rewrite Eh in Hr, Hroom |- *. cbn [app length] in Hr, Hroom |- *.
  rewrite Nat2Z.inj_succ, <- Z.add_1_l in Hroom |- *.
  assert (Hr1 : room 1 s).
  { destruct Hroom as [H1 H2]. split; [lia|]. destruct (s_stack s); [done|lia]. }
  unfold readKind. erewrite bind_Ok by (apply attempt_Ok; by apply (readByte_ok s b0 (tl ++ r'))).
  unfold modS at 1. erewrite bind_Ok by done.
  set (s1 := set_byteval _ _).
  assert (Ha : after 1 s s1).
  { apply set_byteval_after, after_bump. by rewrite Hr. }
  assert (Hs1 : s_r s1 = tl ++ r') by done.
  destruct k; cbn [hdr wf_hdr] in *.
  - destruct Hh as [Hb ->]. injection Eh as Eb Et. subst b0 tl.
    destruct (Z.ltb_spec (b2z b) 0x80); [|lia].
    eexists. split; [reflexivity|]. split; [by apply set_byteval_after|done].
  - unfold puthead in Eh. destruct (Z.ltb_spec n 56).
    + unfold in_u64 in Hh. injection Eh as <- <-. rewrite b2z_z2b, Z.mod_small by lia. zcases.
      rewrite Z.add_simpl_l. eexists. split; [reflexivity|]. split; [done|done].
    + cbv zeta in Eh. pose proof (putint_length n Hh) as Hpl. injection Eh as Eb Et.
      rewrite <- Eb, b2z_z2b, Z.mod_small by lia. zcases.
      destruct (readKind_long KString n (0xB7 + Z.of_nat (length (putint n)) - 0xB7)
        s s1 tl r') as (s' & E & Ha'); [done..|subst tl; lia|].
      exists s'. split; [exact E|]. split; [done|done].
  - unfold puthead in Eh. destruct (Z.ltb_spec n 56).
    + unfold in_u64 in Hh. injection Eh as <- <-. rewrite b2z_z2b, Z.mod_small by lia. zcases.
      rewrite Z.add_simpl_l. eexists. split; [reflexivity|]. split; [done|done].
    + cbv zeta in Eh. pose proof (putint_length n Hh) as Hpl. injection Eh as Eb Et.
      rewrite <- Eb, b2z_z2b, Z.mod_small by lia. zcases.
      destruct (readKind_long KList n (0xF7 + Z.of_nat (length (putint n)) - 0xF7)
        s s1 tl r') as (s' & E & Ha'); [done..|subst tl; lia|].
      exists s'. split; [exact E|]. split; [done|done].
Qed.

(** A header integer that was accepted is the minimal encoding of the size. *)
Lemma readKind_long_inv (k0 k : Kind) slen m s s1 s2 :
  wfS s -> room 1 s -> after 1 s s1 -> 1 <= slen <= 8 ->
  (sz ← attempt (readUint slen);
   match sz with
   | inl e => ret (k0, 0, Some e)
   | inr n => ret (k0, n, if n <? 56 then Some ErrCanonSize else None)
   end) s1 = (Ok (k, m, None), s2) ->
  k = k0 /\ in_u64 m /\ 56 <= m /\ Z.of_nat (length (putint m)) = slen /\
  s_r s1 = putint m ++ drop (Z.to_nat slen) (s_r s1) /\ room (1 + slen) s /\ after (1 + slen) s s2.
Proof.
  intros Hw Hr1 Ha Hsl HH. pose proof (after_wf _ _ _ Hw Hr1 Ha) as Hw1.
  apply bind_Ok_inv in HH as ([e|m'] & s3 & Hu & HH); [unfold_M; simplify_eq|].
  apply attempt_inr_inv in Hu. apply readUint_inv in Hu as (Hr & Hv & Hh & ->); [|done|lia].
  set (tl := s_r s1) in *.
  assert (Hlt : length (take (Z.to_nat slen) tl) = Z.to_nat slen).
  { rewrite length_take. destruct Hr as [Hr _]. destruct Hw1 as [_ Hrem _ _]. fold tl in Hrem. lia. }
  unfold ret in HH. destruct (Z.ltb_spec m' 56); [discriminate|]. simplify_eq.
  pose proof (be_value_range (take (Z.to_nat slen) tl)) as Hbr. rewrite Hlt in Hbr.
  split; [done|]. split.
  { unfold in_u64. split; [lia|]. eapply Z.lt_le_trans; [apply Hbr|].
    change (2 ^ 64) with (256 ^ 8). apply Z.pow_le_mono_r; lia. }
  split; [done|]. rewrite putint_be_value.
  - rewrite Hlt. split; [lia|]. split; [by rewrite take_drop|].
    split; [apply (room_split 1 slen s s1); [lia..|done|done]|].
    eapply after_trans; [lia..|exact Ha|]. by apply after_bump.
  - lia.
  - destruct Hh as [Hh|Hh]; [left; lia|by right].
Qed.

(** What a successful header read tells about the input. *)
Definition header_read (k : Kind) (n : Z) (s s' : Stream) : Prop :=
  exists b r', wf_hdr k n b /\ s_r s = hdr k n b ++ r' /\
    room (Z.of_nat (length (hdr k n b))) s /\
    after (Z.of_nat (length (hdr k n b))) s s' /\ (k = KByte -> s_byteval s' = b).

Lemma header_read_short k n b0 tl s s1 :
  s_r s = b0 :: tl -> room 1 s -> after 1 s s1 ->
  hdr k n Byte.x00 = [b0] -> wf_hdr k n Byte.x00 -> k <> KByte -> header_read k n s s1.
Proof.
  intros Hs Hr Ha He Hw Hk. exists Byte.x00, tl. rewrite He.
  split; [done|]. split; [done|]. split; [done|]. split; [done|by intros ->].
Qed.

Lemma header_read_long k n b0 s s1 s2 slen :
  s_r s = b0 :: s_r s1 -> s_r s1 = putint n ++ drop (Z.to_nat slen) (s_r s1) ->
  Z.of_nat (length (putint n)) = slen -> room (1 + slen) s -> after (1 + slen) s s2 ->
  hdr k n Byte.x00 = b0 :: putint n -> in_u64 n -> k <> KByte -> header_read k n s s2.
Proof.
  intros Hs Ht Hl Hr Ha He Hn Hk. exists Byte.x00, (drop (Z.to_nat slen) (s_r s1)).
  rewrite He. cbn [length app]. rewrite Nat2Z.inj_succ, <- Z.add_1_l, Hl, <- Ht.
  split; [by destruct k|]. split; [done|]. split; [done|]. split; [done|by intros ->].
Qed.

Lemma puthead_short sm lg b0 :
  sm <= b2z b0 < sm + 56 -> puthead sm lg (b2z b0 - sm) = [b0].
Proof. intros. unfold puthead. zcases. by rewrite Zplus_minus, z2b_b2z. Qed.

Lemma puthead_long sm lg b0 n :
  56 <= n -> Z.of_nat (length (putint n)) = b2z b0 - lg -> puthead sm lg n = b0 :: putint n.
Proof. intros ? Hl. unfold puthead. zcases. cbv zeta. by rewrite Hl, Zplus_minus, z2b_b2z. Qed.

Lemma readKind_inv k n s s' :
  wfS s -> readKind s = (Ok (k, n, None), s') -> header_read k n s s'.
Proof.
  intros Hw H. unfold readKind in H.
  apply bind_Ok_inv in H as ([e|b0] & s0 & Hb & H); [unfold_M; simplify_eq|].
  apply attempt_inr_inv in Hb. apply readByte_inv in Hb as (Hr1 & tl & Hsr & ->); [|done].
  apply bind_Ok_inv in H as (u & s1 & Hm & H). unfold modS in Hm. injection Hm as _ Hs1.
  assert (Ha : after 1 s s1) by (rewrite <- Hs1; apply set_byteval_after, after_bump; by rewrite Hsr).
  assert (Htl : s_r s1 = tl) by (by rewrite <- Hs1). clear Hs1.
  pose proof (b2z_range b0) as Hb0. rewrite <- Htl in Hsr.
  destruct (Z.ltb_spec (b2z b0) 0x80).
  { unfold_M. simplify_eq. exists b0, (s_r s1). cbn [hdr wf_hdr length app].
    split; [done|]. split; [done|]. split; [done|]. split; [by apply set_byteval_after|done]. }
  destruct (Z.ltb_spec (b2z b0) 0xB8).
  { unfold ret in H. simplify_eq. apply (header_read_short _ _ b0 (s_r s')); try done.
    - apply puthead_short. lia.
    - cbn. unfold in_u64. lia. }
  destruct (Z.ltb_spec (b2z b0) 0xC0).
  { apply (readKind_long_inv _ _ _ _ s) in H as (-> & Hm & H56 & Hl & Ht & Hrm & Haf); [|done..|lia].
    eapply header_read_long; try done. by apply puthead_long. }
  destruct (Z.ltb_spec (b2z b0) 0xF8).
  { unfold ret in H. simplify_eq. apply (header_read_short _ _ b0 (s_r s')); try done.
    - apply puthead_short. lia.
    - cbn. unfold in_u64. lia. }
  apply (readKind_long_inv _ _ _ _ s) in H as (-> & Hm & H56 & Hl & Ht & Hrm & Haf); [|done..|lia].
  eapply header_read_long; try done. by apply puthead_long.
Qed.

(** ** The cached kind *)

(** The value ahead fits what is left of the enclosing list or input. *)
Definition value_fits (n : Z) (s : Stream) : Prop :=
  match s_stack s with [] => n <= s_remaining s | t :: _ => n <= lp_size t - lp_pos t end.

Definition at_end (s : Stream) : Prop :=
  match s_stack s with [] => False | t :: _ => lp_pos t = lp_size t end.

(** [s'] has a header of kind [k] and size [n] read and cached. *)
Record pending (k : Kind) (n : Z) (s' : Stream) : Prop := {
  pd_kind : s_kind s' = Some k;
  pd_size : s_size s' = n;
  pd_err : s_kinderr s' = None;
  pd_fits : value_fits n s' }.

Lemma Kind_cached k n s : pending k n s -> stream_Kind s = (Ok (k, n), s).
Proof.
  intros [Hk Hs He _]. unfold stream_Kind. unfold_M. rewrite Hk. cbn. rewrite He, Hk. by subst n.
Qed.

Lemma Kind_EOL s : s_kind s = None -> at_end s -> stream_Kind s = (Err EOL, set_kinderr None s).
Proof.
  intros Hk He. unfold stream_Kind, at_end in *. unfold_M. rewrite Hk.
  destruct (s_stack s) as [|t st]; [done|]. cbn. by rewrite He, Z.eqb_refl.
Qed.

(** [stream_Kind] without a cached kind and inside a list or at top level. *)
Lemma Kind_fresh s :
  s_kind s = None -> ~ at_end s ->
  stream_Kind s =
    match readKind (set_kinderr None s) with
    | (Ok (k, n, Some e), s1) => (Err e, set_kinderr (Some e) (set_size n (set_kind (Some k) s1)))
    | (Ok (k, n, None), s1) =>
        let s2 := set_kinderr None (set_size n (set_kind (Some k) s1)) in
        match s_stack s1 with
        | [] => if s_limited s1 && (s_remaining s1 <? n)
                then (Err ErrValueTooLarge, set_kinderr (Some ErrValueTooLarge) s2)
                else (Ok (k, n), s2)
        | t :: _ => if u64 (lp_size t - lp_pos t) <? n
                    then (Err ErrElemTooLarge, set_kinderr (Some ErrElemTooLarge) s2)
                    else (Ok (k, n), s2)
        end
    | (Err e, s1) => (Err e, s1)
    | (Panic w, s1) => (Panic w, s1)
    | (Blocked, s1) => (Blocked, s1)
    end.
Proof.
  intros Hk He. unfold stream_Kind, at_end in *.
  unfold gets, getS, modS, throw, ret, bindM, when, gopanic. rewrite Hk.
  assert (Hc : match head (s_stack s) with Some t => lp_pos t =? lp_size t | None => false end = false).
  { destruct (s_stack s); [done|]. cbn. by apply Z.eqb_neq. }
  rewrite Hc. destruct (readKind (set_kinderr None s)) as [[[[k n] [e|]]|e|w|] s1]; try done.
  cbn. destruct (s_stack s1); cbn; by destruct (_ <? n); destruct (s_limited s1).
Qed.

Lemma wfS_kinderr s e : wfS s -> wfS (set_kinderr e s).
Proof. intros []. by constructor. Qed.

Lemma after_cache n s s' k z e :
  after n s s' -> after n s (set_kinderr e (set_size z (set_kind k s'))).
Proof. intros []. by constructor. Qed.

Lemma Kind_ok k n b s r' :
  wfS s -> s_kind s = None -> wf_hdr k n b -> s_r s = hdr k n b ++ r' ->
  0 <= n -> room (Z.of_nat (length (hdr k n b)) + n) s ->
  exists s', stream_Kind s = (Ok (k, n), s') /\ after (Z.of_nat (length (hdr k n b))) s s' /\
    pending k n s' /\ (k = KByte -> s_byteval s' = b).
Proof.
  intros Hw Hk Hh Hr Hn Hroom.
  assert (Hpos : 0 < Z.of_nat (length (hdr k n b))).
  { destruct k; cbn; [lia|unfold puthead; cbv zeta; destruct (_ <? 56); cbn; lia..]. }
  assert (Hend : ~ at_end s).
  { unfold at_end. destruct Hroom as [_ Hroom]. destruct (s_stack s); [tauto|lia]. }
  assert (Hroom1 : room (Z.of_nat (length (hdr k n b))) s).
  { destruct Hroom as [H1 H2]. split; [lia|]. destruct (s_stack s); [done|lia]. }
  destruct (readKind_ok k n b (set_kinderr None s) r') as (s1 & E & Ha & Hbv); try done.
  { by apply wfS_kinderr. }
  assert (Ha' : after (Z.of_nat (length (hdr k n b))) s s1) by (destruct Ha; by constructor).
  pose proof (after_wf _ _ _ Hw Hroom1 Ha') as [Hl1 _ Hlen1 Hst1].
  apply (room_split _ n s s1) in Hroom as [_ [Hf1 Hf2]]; [|lia..|done].
  rewrite Kind_fresh, E by done. cbv zeta. rewrite Hl1. cbn [andb].
  destruct (s_stack s1) as [|t st] eqn:Est.
  - destruct (Z.ltb_spec (s_remaining s1) n); [lia|]. eexists. split; [reflexivity|].
    split; [by apply after_cache|]. split; [|done].
    constructor; try done. unfold value_fits. cbn. rewrite Est. lia.
  - inversion Hst1 as [|? ? [Ht1 Ht2] _]; subst.
    rewrite u64_small by (unfold in_u64; lia).
    destruct (Z.ltb_spec (lp_size t - lp_pos t) n); [lia|]. eexists. split; [reflexivity|].
    split; [by apply after_cache|]. split; [|done].
    constructor; try done. unfold value_fits. cbn. by rewrite Est.
Qed.

Lemma Kind_inv k n s s' :
  wfS s -> s_kind s = None -> stream_Kind s = (Ok (k, n), s') ->
  ~ at_end s /\ header_read k n s s' /\ pending k n s'.
Proof.
  intros Hw Hk H.
  assert (Hend : ~ at_end s) by (intros He; rewrite Kind_EOL in H by done; discriminate).
  split; [done|]. rewrite Kind_fresh in H by done.
  destruct (readKind (set_kinderr None s)) as [[[[k1 n1] [e|]]|e|w|] s1] eqn:E; try discriminate.
  apply readKind_inv in E; [|by apply wfS_kinderr].
  destruct E as (b & r' & Hh & Hr & Hroom & Ha & Hb).
  assert (Ha' : after (Z.of_nat (length (hdr k1 n1 b))) s s1) by (destruct Ha; by constructor).
  pose proof (after_wf _ _ _ Hw Hroom Ha') as [Hl1 _ Hlen1 Hst1].
  cbv zeta in H. rewrite Hl1 in H. cbn [andb] in H.
  assert (Hres : k1 = k /\ n1 = n /\ s' = set_kinderr None (set_size n (set_kind (Some k) s1)) /\
    value_fits n s1).
  { unfold value_fits. destruct (s_stack s1) as [|t st].
    - destruct (Z.ltb_spec (s_remaining s1) n1); simplify_eq. done.
    - inversion Hst1 as [|? ? [Ht1 Ht2] _]; subst.
      rewrite u64_small in H by (unfold in_u64; lia).
      destruct (Z.ltb_spec (lp_size t - lp_pos t) n1); simplify_eq. done. }
  destruct Hres as (-> & -> & -> & Hf). split; [|by constructor].
  exists b, r'. repeat (split; [done|]). split; [by apply after_cache|done].
Qed.
