(* ===== verification/RLPDecode.v ===== *)
(** Decoding an untyped value inverts the reference encoding.

    [DecodeBytes] returns the item on its encoding (round trip), accepts nothing
    but encodings (canonicity) and always returns within [decode_fuel]. *)
From stdpp Require Import prelude list strings.
From Stdlib Require Import ZArith Lia.
From S2P Require Import Prelude VarBytes RLP RLPStream RLPStreamFacts.
Local Open Scope Z_scope.

(** ** Operations on a pending value *)

Definition done_after (n : Z) (s s' : Stream) : Prop := after n s s' /\ s_kind s' = None.

Lemma after_readFull n s : after n s (set_r (drop (Z.to_nat n) (s_r s)) (bump n s)).
Proof. by constructor. Qed.

Lemma after_set_kind n s s' k : after n s s' -> after n s (set_kind k s').
Proof. intros []. by constructor. Qed.

Lemma after_0_refl s : after 0 s s.
Proof.
  constructor; [done|lia|done|]. destruct (s_stack s) as [|[p z] st]; [done|].
  cbn. by rewrite Z.add_0_r.
Qed.

Lemma Bytes_byte n s :
  pending KByte n s -> stream_Bytes s = (Ok [s_byteval s], set_kind None s).
Proof. intros Hp. unfold stream_Bytes. by erewrite bind_Ok by (by apply Kind_cached). Qed.

Lemma s_make_ok n s : n <= 2 ^ 48 -> s_make n s = (Ok tt, s).
Proof. intros. unfold s_make, when. by destruct (Z.ltb_spec (2 ^ 48) n); [lia|]. Qed.

Lemma Bytes_string n s bs r' :
  wfS s -> pending KString n s -> s_r s = bs ++ r' -> n = Z.of_nat (length bs) ->
  room n s -> n <= 2 ^ 48 -> (forall b, bs = [b] -> 128 <= b2z b) ->
  exists s', stream_Bytes s = (Ok bs, s') /\ done_after n s s'.
Proof.
  intros Hw Hp Hr -> Hroom Hn Hb. unfold stream_Bytes.
  erewrite bind_Ok by (by apply Kind_cached). cbv beta iota.
  erewrite bind_Ok by (by apply s_make_ok).
  erewrite bind_Ok by (by apply s_readFull_ok). cbv beta iota.
  assert (Ht : take (Z.to_nat (Z.of_nat (length bs))) (s_r s) = bs)
    by (by rewrite Hr, Nat2Z.id, take_app_length).
  eexists. split; [|split; [apply after_readFull|done]]. rewrite Ht.
  destruct bs as [|b0 [|b1 bs]]; [done| |done].
  destruct (Z.ltb_spec (b2z b0) 128); [|done]. specialize (Hb b0 eq_refl). lia.
Qed.

(** ** Lists *)

Definition push (n : Z) (s : Stream) : Stream :=
  set_size 0 (set_kind None (set_stack ({| lp_pos := 0; lp_size := n |} :: s_stack s) s)).

Lemma List_ok n s : pending KList n s -> stream_List s = (Ok n, push n s).
Proof. intros Hp. unfold stream_List. by erewrite bind_Ok by (by apply Kind_cached). Qed.

Lemma push_wf n s : in_u64 n -> wfS s -> wfS (push n s).
Proof.
  intros [] []. constructor; try done. cbn. constructor; [|done]. unfold wf_pos. cbn. lia.
Qed.

(** Reading a whole list and leaving it consumes its content in the parent. *)
Lemma ListEnd_ok n s s1 :
  wfS s -> room n s -> after n (push n s) s1 ->
  exists s2, stream_ListEnd s1 = (Ok tt, s2) /\ done_after n s s2.
Proof.
  intros [Hl Hr Hn Hs] [Hm1 Hm2] [Ar Am Al As]. unfold stream_ListEnd. unfold_M.
  rewrite As. cbn. rewrite Z.eqb_refl. cbn.
  eexists. split; [reflexivity|]. split; [|done]. constructor; [done..|].
  cbn. destruct (s_stack s) as [|t st]; [done|]. inversion Hs as [|? ? [] ?]; subst.
  cbn. rewrite u64_small by (unfold in_u64; lia). done.
Qed.

(** ** Encodings as header and content *)

Lemma str_enc_cases bs :
  (exists b, bs = [b] /\ b2z b < 128 /\ str_enc bs = hdr KByte 0 b) \/
  ((forall b, bs = [b] -> 128 <= b2z b) /\
   str_enc bs = hdr KString (Z.of_nat (length bs)) Byte.x00 ++ bs).
Proof.
  destruct bs as [|b [|b' bs]]; [right; split; [done|reflexivity]| |right; split; [done|reflexivity]].
  unfold str_enc. destruct (Z.leb_spec (b2z b) 0x7F).
  - left. exists b. split; [done|]. split; [lia|done].
  - right. split; [intros ? [= <-]; lia|reflexivity].
Qed.

Lemma length_hdr_pos k n b : (1 <= length (hdr k n b))%nat.
Proof. destruct k; cbn; [lia|unfold puthead; cbv zeta; destruct (_ <? 56); cbn; lia..]. Qed.

Lemma rlp_enc_pos it : (1 <= length (rlp_enc it))%nat.
Proof.
  destruct it as [bs|l].
  - cbn [rlp_enc]. destruct (str_enc_cases bs) as [(b & _ & _ & ->)|[_ ->]]; [cbn; lia|].
    rewrite length_app. pose proof (length_hdr_pos KString (Z.of_nat (length bs)) Byte.x00). lia.
  - rewrite rlp_enc_Lst, length_app.
    pose proof (length_hdr_pos KList (Z.of_nat (length (rlp_encs l))) Byte.x00) as H. cbn in H. lia.
Qed.

Lemma room_sub n m s : 0 <= n <= m -> room m s -> room n s.
Proof. intros Hn [Hm1 Hm2]. split; [lia|]. destruct (s_stack s); [done|lia]. Qed.

(** ** Round trip *)

(** [it] is decoded from its encoding, wherever the stream is. *)
Definition decodes (it : item) : Prop := forall f s r',
  wfS s -> s_kind s = None -> s_r s = rlp_enc it ++ r' ->
  room (Z.of_nat (length (rlp_enc it))) s -> Z.of_nat (length (rlp_enc it)) <= 2 ^ 48 ->
  (2 * length (rlp_enc it) + 1 <= f)%nat ->
  exists s', decodeInterface f s = (Ok it, s') /\
    done_after (Z.of_nat (length (rlp_enc it))) s s'.

Lemma decodes_Str bs : decodes (Str bs).
Proof.
  intros [|f] s r' Hw Hk Hr Hroom Hlen Hf; [lia|]. cbn [rlp_enc] in *. cbn [decodeInterface].
  destruct (str_enc_cases bs) as [(b & -> & Hb & E)|[Hb E]]; rewrite E in *.
  - destruct (Kind_ok KByte 0 b s r') as (s1 & HK & Ha & Hp & Hbv); try done.
    erewrite bind_Ok by done. cbv beta iota.
    erewrite bind_Ok by (by eapply Bytes_byte). rewrite (Hbv eq_refl).
    eexists. split; [reflexivity|]. split; [by apply after_set_kind|done].
  - rewrite length_app, Nat2Z.inj_add in *. rewrite <- app_assoc in Hr.
    destruct (Kind_ok KString (Z.of_nat (length bs)) Byte.x00 s (bs ++ r'))
      as (s1 & HK & Ha & Hp & _); try done; [unfold wf_hdr, in_u64; lia|lia|].
    pose proof (proj1 (room_split _ _ _ _ (Zle_0_nat _) (Zle_0_nat _) Ha) Hroom) as [Hr1 Hr2].
    destruct (Bytes_string (Z.of_nat (length bs)) s1 bs r') as (s2 & HB & Ha2 & Hk2); try done; [..|lia|].
    + by eapply after_wf.
    + destruct Ha as [-> _ _ _]. by rewrite Hr, drop_app_hdr.
    + erewrite bind_Ok by done. cbv beta iota. erewrite bind_Ok by done.
      eexists. split; [reflexivity|]. split; [|done]. eapply after_trans; [lia..|done|done].
Qed.

Lemma decodes_elems l : Forall decodes l -> forall f s r' acc t st,
  wfS s -> s_kind s = None -> s_r s = rlp_encs l ++ r' ->
  s_stack s = t :: st -> lp_size t - lp_pos t = Z.of_nat (length (rlp_encs l)) ->
  Z.of_nat (length (rlp_encs l)) <= s_remaining s ->
  Z.of_nat (length (rlp_encs l)) <= 2 ^ 48 ->
  (2 * length (rlp_encs l) + 2 <= f)%nat ->
  exists s', decodeSliceElems f acc s = (Ok (reverse acc ++ l), s') /\
    after (Z.of_nat (length (rlp_encs l))) s s'.
Proof.
  induction 1 as [|x l Hx _ IH]; intros f s r' acc t st Hw Hk Hr Hst Ht Hrem Hlen Hf.
  - destruct f as [|[|f]]; [cbn in Hf; lia..|]. cbn [decodeSliceElems].
    assert (HE : decodeInterface (S f) s = (Err EOL, set_kinderr None s)).
    { cbn [decodeInterface]. apply bind_Err, Kind_EOL; [done|].
      unfold at_end. rewrite Hst. cbn in Ht. lia. }
    erewrite bind_Ok by (by apply attempt_Err). rewrite app_nil_r.
    eexists. split; [reflexivity|]. destruct (after_0_refl s). by constructor.
  - rewrite rlp_encs_cons, length_app, Nat2Z.inj_add in *. rewrite <- app_assoc in Hr.
    pose proof (rlp_enc_pos x). destruct f as [|f]; [lia|].
    assert (Hroom : room (Z.of_nat (length (rlp_enc x))) s).
    { split; [lia|]. rewrite Hst. lia. }
    destruct (Hx f s (rlp_encs l ++ r')) as (s1 & HD & Ha & Hk1); try done; [lia..|].
    pose proof (after_wf _ _ _ Hw Hroom Ha) as Hw1. destruct Ha as [Ar Am Al As] eqn:EA.
    destruct (IH f s1 r' (x :: acc) {| lp_pos := lp_pos t + Z.of_nat (length (rlp_enc x)); lp_size := lp_size t |} st)
      as (s2 & HE & Ha2); try done; [|by rewrite As, Hst|cbn [lp_pos lp_size]; lia|lia|lia|lia|].
    { by rewrite Ar, Hr, drop_app_hdr. }
    cbn [decodeSliceElems]. erewrite bind_Ok by (by apply attempt_Ok). cbv beta iota.
    exists s2. rewrite HE, reverse_cons, <- app_assoc. split; [done|].
    eapply after_trans; [lia..|done|done].
Qed.

Lemma rethrow_Ok {S A} g (m : M S A) s a s' :
  m s = (Ok a, s') -> rethrow g m s = (Ok a, s').
Proof. intros H. unfold rethrow. by erewrite bind_Ok by (by apply attempt_Ok). Qed.

Lemma decodes_Lst l : Forall decodes l -> decodes (Lst l).
Proof.
  intros Hl [|f] s r' Hw Hk Hr Hroom Hlen Hf; [lia|]. cbn [decodeInterface].
  set (n := Z.of_nat (length (rlp_encs l))).
  assert (E : rlp_enc (Lst l) = hdr KList n Byte.x00 ++ rlp_encs l) by apply rlp_enc_Lst.
  rewrite E in *. rewrite length_app, Nat2Z.inj_add in *. rewrite <- app_assoc in Hr. fold n in Hroom, Hlen |- *.
  pose proof (length_hdr_pos KList n Byte.x00) as Hh.
  destruct (Kind_ok KList n Byte.x00 s (rlp_encs l ++ r'))
    as (s1 & HK & Ha & Hp & _); try done; [unfold wf_hdr, in_u64; lia|lia|].
  pose proof (proj1 (room_split _ n _ _ (Zle_0_nat _) (Zle_0_nat _) Ha) Hroom) as [Hr1 Hr2].
  pose proof (after_wf _ _ _ Hw Hr1 Ha) as Hw1.
  erewrite bind_Ok by done. cbv beta iota.
  erewrite bind_Ok by (by apply rethrow_Ok, List_ok). cbv beta.
  assert (Hs1 : s_r s1 = rlp_encs l ++ r') by (destruct Ha as [-> _ _ _]; by rewrite Hr, drop_app_hdr).
  assert (Hd : forall s2, after n (push n s1) s2 -> exists s',
    (stream_ListEnd ;; ret (Lst l)) s2 = (Ok (Lst l), s') /\
    done_after (Z.of_nat (length (hdr KList n Byte.x00)) + n) s s').
  { intros s2 H2. destruct (ListEnd_ok n s1 s2 Hw1 Hr2 H2) as (s3 & HE & Ha3 & Hk3).
    exists s3. erewrite bind_Ok by done. split; [done|]. split; [|done].
    eapply after_trans; [lia..|done|done]. }
  destruct (Z.eqb_spec n 0) as [H0|H0].
  - assert (l = []) as ->.
    { destruct l as [|x l]; [done|]. unfold n in H0. rewrite rlp_encs_cons, length_app in H0.
      pose proof (rlp_enc_pos x). lia. }
    apply Hd. rewrite H0. apply after_0_refl.
  - destruct (decodes_elems l Hl f (push n s1) r' [] {| lp_pos := 0; lp_size := n |} (s_stack s1))
      as (s2 & HE & H2); try done; [apply push_wf; [unfold in_u64; lia|done]|cbn; lia|..].
    + fold n. destruct Hr2. cbn. lia.
    + lia.
    + lia.
    + erewrite bind_Ok by done. apply Hd, H2.
Qed.

Lemma decodes_all it : decodes it.
Proof. induction it using item_induction; [apply decodes_Str|by apply decodes_Lst]. Qed.

(** ** Errors: [EOL] comes only from the end of a list *)

Definition not_EOL (e : goerror) : Prop := e <> EOL.

Lemma willRead_errors n : errors_in not_EOL (willRead n).
Proof. unfold willRead. repeat errors_step; done. Qed.
Lemma readByte_errors : errors_in not_EOL readByte.
Proof. unfold readByte. repeat first [apply willRead_errors|errors_step]; done. Qed.
Lemma s_readFull_errors n : errors_in not_EOL (s_readFull n).
Proof. unfold s_readFull. repeat first [apply willRead_errors|errors_step]; done. Qed.
Lemma readUint_errors n : errors_in not_EOL (readUint n).
Proof.
  unfold readUint.
  repeat first [apply readByte_errors|apply s_readFull_errors|errors_step]; done.
Qed.
Lemma ListEnd_errors : errors_in not_EOL stream_ListEnd.
Proof. unfold stream_ListEnd. repeat errors_step; done. Qed.
Lemma elems_errors f : forall acc, errors_in not_EOL (decodeSliceElems f acc).
Proof.
  induction f as [|f IH]; intros acc; cbn [decodeSliceElems]; [errors_step|].
  errors_step; [errors_step|]. destruct a as [e|x]; [|apply IH].
  case_bool_decide; errors_step. done.
Qed.

Lemma readKind_errors s k n e s' : readKind s = (Ok (k, n, Some e), s') -> not_EOL e.
Proof.
  intros H. unfold readKind in H.
  apply bind_Ok_inv in H as ([e0|b0] & s0 & Hb & H).
  - apply attempt_inl_inv, readByte_errors in Hb. unfold_M. injection H as _ _ <- _.
    destruct (s_stack s0); [repeat case_bool_decide|]; done.
  - clear Hb. unfold modS in H. erewrite bind_Ok in H by reflexivity. cbv zeta in H.
    repeat match type of H with (if ?b then _ else _) _ = _ => destruct b end;
      try (unfold_M; by simplify_eq).
    all: apply bind_Ok_inv in H as ([e1|n1] & s1 & Hu & H);
      [apply attempt_inl_inv, readUint_errors in Hu; by unfold_M; simplify_eq
      |unfold_M; injection H as _ _ He _; destruct (n1 <? 56); by simplify_eq].
Qed.

Lemma readKind_noerr s e s' : readKind s <> (Err e, s').
Proof.
  intros H. assert (HE : errors_in (fun _ => False) readKind); [|by apply HE in H].
  unfold readKind. repeat errors_step.
Qed.

#[global] Instance at_end_dec s : Decision (at_end s).
Proof. unfold at_end. destruct (s_stack s); apply _. Defined.

Lemma Kind_EOL_inv s s' :
  s_kind s = None -> stream_Kind s = (Err EOL, s') -> at_end s /\ s' = set_kinderr None s.
Proof.
  intros Hk H. destruct (decide (at_end s)) as [He|He].
  { rewrite Kind_EOL in H by done. by simplify_eq. }
  exfalso. rewrite Kind_fresh in H by done.
  destruct (readKind (set_kinderr None s)) as [[[[k1 n1] [e|]]|e|w|] s1] eqn:E; try discriminate.
  - injection H as -> _. by apply readKind_errors in E.
  - cbv zeta in H. destruct (s_stack s1); repeat case_in H; discriminate.
  - by apply readKind_noerr in E.
Qed.

Lemma Bytes_errors k n s e s' :
  pending k n s -> stream_Bytes s = (Err e, s') -> not_EOL e.
Proof.
  intros Hp H. unfold stream_Bytes in H. erewrite bind_Ok in H by (by apply Kind_cached).
  cbv beta iota in H. destruct k; [discriminate| |unfold throw in H; by simplify_eq].
  revert H. apply errors_in_bind; [unfold s_make; repeat errors_step|intros _].
  apply errors_in_bind; [apply s_readFull_errors|]. intros b. repeat errors_step; done.
Qed.

Lemma decodeInterface_EOL f s s' :
  wfS s -> s_kind s = None -> decodeInterface f s = (Err EOL, s') ->
  at_end s /\ s' = set_kinderr None s.
Proof.
  intros Hw Hk H. destruct f as [|f]; [discriminate|]. cbn [decodeInterface] in H.
  destruct (stream_Kind s) as [[[k n]|e|w|] s1] eqn:E.
  2: { erewrite bind_Err in H by done. injection H as -> ->. by apply Kind_EOL_inv. }
  2, 3: unfold bindM in H; rewrite E in H; discriminate.
  exfalso. erewrite bind_Ok in H by done. apply Kind_inv in E as (_ & _ & Hp); [|done..]. cbv beta iota in H.
  assert (HB : (b ← stream_Bytes; ret (Str b)) s1 <> (Err EOL, s')).
  { intros [HB|(b & s2 & _ & HB)]%bind_Err_inv; [|discriminate]. by eapply Bytes_errors in HB. }
  destruct k; [by apply HB..|].
  erewrite bind_Ok in H by (by apply rethrow_Ok, List_ok). cbv beta in H.
  destruct (n =? 0); [apply bind_Err_inv in H as [H|(? & ? & _ & H)]; [by apply ListEnd_errors in H|discriminate]|].
  apply bind_Err_inv in H as [H|(? & ? & _ & H)]; [by apply elems_errors in H|].
  apply bind_Err_inv in H as [H|(? & ? & _ & H)]; [by apply ListEnd_errors in H|discriminate].
Qed.

(** ** Canonicity: what was decoded is what was there *)

Definition parsed (e : bytes) (s s' : Stream) : Prop :=
  exists r', s_r s = e ++ r' /\ room (Z.of_nat (length e)) s /\
    done_after (Z.of_nat (length e)) s s'.

Lemma parsed_wf e s s' : wfS s -> parsed e s s' -> wfS s'.
Proof. intros Hw (r' & _ & Hr & Ha & _). by eapply after_wf. Qed.

Lemma parsed_nil s e : wfS s -> s_kind s = None -> parsed [] s (set_kinderr e s).
Proof.
  intros [? ? ? Hst] Hk. exists (s_r s). split; [done|]. split.
  - split; [cbn; lia|]. destruct (s_stack s); [done|]. inversion Hst as [|? ? [] ?]; subst. cbn. lia.
  - destruct (after_0_refl s). by split; [constructor|].
Qed.

Lemma parsed_app e1 e2 s1 s2 s3 :
  wfS s1 -> parsed e1 s1 s2 -> parsed e2 s2 s3 -> parsed (e1 ++ e2) s1 s3.
Proof.
  intros Hw (r1 & Hs1 & Hr1 & Ha1 & Hk1) (r2 & Hs2 & Hr2 & Ha2 & Hk2). exists r2.
  assert (r1 = e2 ++ r2) as ->.
  { destruct Ha1 as [Ar _ _ _]. by rewrite <- Hs2, Ar, Hs1, drop_app_hdr. }
  rewrite Hs1, length_app, Nat2Z.inj_add, <- app_assoc. split; [done|].
  split; [by apply (room_split _ _ _ s2); [lia..|done|]|].
  split; [by eapply after_trans; [lia..|done|done]|done].
Qed.

Lemma header_parsed k n s s' : header_read k n s s' ->
  exists b, wf_hdr k n b /\ parsed (hdr k n b) s (set_kind None s') /\ (k = KByte -> s_byteval s' = b).
Proof.
  intros (b & r' & Hh & Hr & Hroom & Ha & Hb). exists b. split; [done|]. split; [|done].
  exists r'. repeat (split; [done|]). split; [by apply after_set_kind|done].
Qed.

Lemma Bytes_string_inv n s bs s' :
  wfS s -> 0 <= n -> pending KString n s -> stream_Bytes s = (Ok bs, s') ->
  n = Z.of_nat (length bs) /\ parsed bs (set_kind None s) s' /\ (forall b, bs = [b] -> 128 <= b2z b).
Proof.
  intros Hw Hn Hp H. unfold stream_Bytes in H. erewrite bind_Ok in H by (by apply Kind_cached).
  cbv beta iota in H. apply bind_Ok_inv in H as ([] & s1 & Hm & H).
  assert (s1 = s) as -> by (unfold s_make in Hm; unfold_M; destruct (_ <? _); by simplify_eq).
  apply bind_Ok_inv in H as (bs1 & s2 & Hr & H).
  apply s_readFull_inv in Hr as (Hroom & -> & ->); [|done..].
  assert (Hbs : take (Z.to_nat n) (s_r s) = bs /\ s' = set_r (drop (Z.to_nat n) (s_r s)) (bump n s) /\
    forall b, bs = [b] -> 128 <= b2z b).
  { destruct (take (Z.to_nat n) (s_r s)) as [|b0 [|b1 tl]]; unfold_M;
      [by simplify_eq| |by simplify_eq].
    destruct (Z.ltb_spec (b2z b0) 128); simplify_eq. split; [done|]. split; [done|].
    by intros ? [= <-]. }
  destruct Hbs as (Hbs & -> & Hcan). destruct Hroom as [Hr1 Hr2].
  assert (Hlen : n = Z.of_nat (length bs)).
  { subst bs. rewrite length_take. destruct Hw as [_ Hrem _ _]. lia. }
  split; [done|]. split; [|done]. exists (drop (Z.to_nat n) (s_r s)). rewrite <- Hlen.
  split; [by rewrite <- Hbs, take_drop|]. split; [done|]. split; [by constructor|done].
Qed.

Lemma decode_Str_inv k n s s1 b s' :
  wfS s -> header_read k n s s1 -> pending k n s1 -> k <> KList ->
  stream_Bytes s1 = (Ok b, s') -> parsed (str_enc b) s s'.
Proof.
  intros Hw Hh Hp Hk HB. apply header_parsed in Hh as (b0 & Hwf & Hpar & Hbv).
  destruct k; [| |done].
  - erewrite Bytes_byte in HB by done. injection HB as <- <-. rewrite (Hbv eq_refl).
    destruct Hwf as [Hb ->]. unfold str_enc. by destruct (Z.leb_spec (b2z b0) 0x7F); [|lia].
  - pose proof (parsed_wf _ _ _ Hw Hpar) as Hw1. destruct Hwf as [Hn _].
    apply (Bytes_string_inv n) in HB as (-> & Hpb & Hcan); [|by destruct Hw1|done..].
    destruct (str_enc_cases b) as [(b1 & -> & Hlt & _)|[_ ->]]; [specialize (Hcan b1 eq_refl); lia|].
    by eapply parsed_app.
Qed.

Lemma ListEnd_inv n s s1 e s2 :
  wfS s -> 0 <= n -> value_fits n s -> parsed e (push n s) s1 -> at_end s1 ->
  stream_ListEnd s1 = (Ok tt, s2) -> n = Z.of_nat (length e) /\ parsed e (set_kind None s) s2.
Proof.
  intros Hw Hn Hf (r' & Hr & [Hr1 Hr2] & Ha & Hk) He H.
  assert (Hlen : n = Z.of_nat (length e)).
  { unfold at_end in He. destruct Ha as [_ _ _ As]. rewrite As in He. cbn in He. lia. }
  split; [done|]. cbn in Hr1.
  assert (Hroom : room n s).
  { split; [lia|]. unfold value_fits in Hf. by destruct (s_stack s). }
  subst n. destruct (ListEnd_ok _ s s1 Hw Hroom Ha) as (s3 & HE & Ha3 & Hk3).
  rewrite HE in H. injection H as <-. exists r'. split; [done|]. split; [done|].
  split; [|done]. destruct Ha3. by constructor.
Qed.

Lemma decode_inv f :
  (forall s it s', wfS s -> s_kind s = None -> decodeInterface f s = (Ok it, s') ->
     parsed (rlp_enc it) s s') /\
  (forall s acc l s', wfS s -> s_kind s = None -> decodeSliceElems f acc s = (Ok l, s') ->
     exists l', l = reverse acc ++ l' /\ parsed (rlp_encs l') s s' /\ at_end s').
Proof.
  induction f as [|f [IHi IHl]]; [split; intros; discriminate|].
  split.
  - intros s it s' Hw Hk H. cbn [decodeInterface] in H.
    apply bind_Ok_inv in H as ([k n] & s1 & HK & H).
    apply Kind_inv in HK as (_ & Hh & Hp); [|done..].
    destruct k; cbv beta iota in H;
      [apply bind_Ok_inv in H as (b & s2 & HB & [= <- <-]); by apply (decode_Str_inv _ _ _ _ _ _ Hw Hh Hp)..|].
    erewrite bind_Ok in H by (by apply rethrow_Ok, List_ok). cbv beta in H.
    apply header_parsed in Hh as (b & [Hn1 Hn2] & Hpar & _).
    assert (Hw1 : wfS s1) by (pose proof (parsed_wf _ _ _ Hw Hpar) as []; by constructor).
    assert (HL : forall l s2 s3, parsed (rlp_encs l) (push n s1) s2 -> at_end s2 ->
      stream_ListEnd s2 = (Ok tt, s3) -> parsed (rlp_enc (Lst l)) s s3).
    { intros l s2 s3 H1 H2 H3. apply (ListEnd_inv n s1 s2 (rlp_encs l)) in H3 as [-> H3]; try done;
        [|by destruct Hp]. rewrite rlp_enc_Lst. by eapply parsed_app. }
    destruct (Z.eqb_spec n 0) as [->|Hn0].
    + apply bind_Ok_inv in H as ([] & s2 & HE & [= <- <-]). eapply (HL []); [|..|done]; [|done].
      by apply (parsed_nil (push 0 s1) (s_kinderr s1)); [apply push_wf|].
    + apply bind_Ok_inv in H as (l & s2 & HE & H). apply bind_Ok_inv in H as ([] & s3 & HE3 & [= <- <-]).
      apply IHl in HE as (l' & -> & Hpl & Hat); [|by apply push_wf|done]. by eapply HL.
  - intros s acc l s' Hw Hk H. cbn [decodeSliceElems] in H.
    apply bind_Ok_inv in H as ([e|x] & s1 & Ha & H).
    + apply attempt_inl_inv in Ha. case_bool_decide; [subst e|discriminate]. injection H as <- <-.
      apply decodeInterface_EOL in Ha as [Hat ->]; [|done..]. exists []. rewrite app_nil_r.
      split; [done|]. split; [by apply parsed_nil|done].
    + apply attempt_inr_inv in Ha. apply IHi in Ha as Hpx; [|done..].
      pose proof (parsed_wf _ _ _ Hw Hpx) as Hw1.
      assert (Hk1 : s_kind s1 = None) by (by destruct Hpx as (? & ? & ? & ? & ?)).
      apply IHl in H as (l' & -> & Hpl & Hat); [|done..].
      exists (x :: l'). rewrite reverse_cons, <- app_assoc. split; [done|]. split; [|done].
      rewrite rlp_encs_cons. by eapply parsed_app.
Qed.

(** ** Termination: the decoder returns, and never runs out of fuel *)

Lemma willRead_total n : total (willRead n).
Proof. unfold willRead. repeat total_step. Qed.
Lemma readByte_total : total readByte.
Proof. unfold readByte. repeat first [apply willRead_total|total_step]. Qed.
Lemma s_readFull_total n : total (s_readFull n).
Proof. unfold s_readFull. repeat first [apply willRead_total|total_step]. Qed.
Lemma readUint_total n : total (readUint n).
Proof.
  unfold readUint. repeat first [apply readByte_total|apply s_readFull_total|total_step].
Qed.
Lemma readKind_total : total readKind.
Proof.
  unfold readKind. cbv zeta.
  repeat first [apply readByte_total|apply readUint_total|total_step].
Qed.
Lemma ListEnd_total : total stream_ListEnd.
Proof. unfold stream_ListEnd. cbv zeta. repeat total_step. Qed.

Lemma Kind_returns s : s_kind s = None -> returned (fst (stream_Kind s)).
Proof.
  intros Hk. destruct (decide (at_end s)) as [He|He]; [by rewrite Kind_EOL|].
  rewrite Kind_fresh by done. pose proof (readKind_total (set_kinderr None s)) as H.
  destruct (readKind _) as [[[[k n] [e|]]|e|w|] s1]; cbn in *; try done.
  destruct (s_stack s1); by destruct (_ <? _); destruct (s_limited s1).
Qed.

(** Sizes are bounded by the length of the input, so buffers can be made. *)
Definition bounded (B : Z) (s : Stream) : Prop :=
  s_remaining s <= B /\ Forall (fun t => lp_size t <= B) (s_stack s).

Lemma bounded_after B n s s' : 0 <= n -> after n s s' -> bounded B s -> bounded B s'.
Proof.
  intros Hn [_ Am _ As] [H1 H2]. split; [lia|]. rewrite As.
  destruct H2; cbn; [done|]. by constructor.
Qed.

Lemma bounded_fits B n s : wfS s -> bounded B s -> value_fits n s -> n <= B.
Proof.
  intros [_ _ _ Hst] [H1 H2]. unfold value_fits.
  destruct H2 as [|t st Ht _]; [lia|]. inversion Hst as [|? ? [] ?]; subst. lia.
Qed.

Lemma Bytes_returns k n s :
  pending k n s -> n <= 2 ^ 48 -> returned (fst (stream_Bytes s)).
Proof.
  intros Hp Hn. unfold stream_Bytes. erewrite bind_Ok by (by apply Kind_cached).
  destruct k; [done| |done]. apply returned_bind; [by rewrite s_make_ok|]. intros _ s1 _.
  apply returned_bind; [apply s_readFull_total|]. intros b s2 _.
  destruct b as [|? []]; try done. by destruct (_ <? _).
Qed.

Lemma length_parsed e s s' :
  parsed e s s' -> length (s_r s) = (length e + length (s_r s'))%nat.
Proof.
  intros (r' & Hr & _ & [Ar _ _ _] & _).
  rewrite Ar, Hr, drop_app_hdr, length_app. done.
Qed.

Lemma decode_returns f :
  (forall s, wfS s -> s_kind s = None -> bounded (2 ^ 48) s ->
     (2 * length (s_r s) + 2 <= f)%nat -> returned (fst (decodeInterface f s))) /\
  (forall s acc, wfS s -> s_kind s = None -> bounded (2 ^ 48) s ->
     (2 * length (s_r s) + 3 <= f)%nat -> returned (fst (decodeSliceElems f acc s))).
Proof.
  induction f as [|f [IHi IHl]]; [split; intros; lia|]. split.
  - intros s Hw Hk Hb Hf. cbn [decodeInterface].
    apply returned_bind; [by apply Kind_returns|]. intros [k n] s1 HK.
    apply Kind_inv in HK as (_ & Hh & Hp); [|done..].
    apply header_parsed in Hh as (b & Hwf & Hpar & _).
    assert (Hw1 : wfS s1) by (pose proof (parsed_wf _ _ _ Hw Hpar) as []; by constructor).
    pose proof (length_parsed _ _ _ Hpar) as Hlen. pose proof (length_hdr_pos k n b).
    assert (Hb1 : bounded (2 ^ 48) s1).
    { destruct Hpar as (? & ? & ? & Ha & _). apply (bounded_after (2 ^ 48)) in Ha; [done|lia|done]. }
    assert (Hn : n <= 2 ^ 48) by (destruct Hp; by eapply bounded_fits).
    destruct k; [apply returned_bind; [by eapply Bytes_returns|done]..|].
    erewrite bind_Ok by (by apply rethrow_Ok, List_ok). cbv beta.
    destruct (n =? 0); [apply returned_bind; [apply ListEnd_total|done]|].
    apply returned_bind; [|intros l s2 _; apply returned_bind; [apply ListEnd_total|done]].
    apply IHl; [by apply push_wf|done| |cbn in *; lia]. destruct Hb1. split; [done|]. by constructor.
  - intros s acc Hw Hk Hb Hf. cbn [decodeSliceElems].
    apply returned_bind; [apply returned_attempt, IHi; [done..|lia]|].
    intros [e|x] s1 Ha; [by case_bool_decide|]. apply attempt_inr_inv in Ha.
    apply decode_inv in Ha as Hpx; [|done..]. pose proof (length_parsed _ _ _ Hpx) as Hlen.
    pose proof (rlp_enc_pos x). apply IHl; [by eapply parsed_wf| | |lia].
    + by destruct Hpx as (? & ? & ? & ? & ?).
    + destruct Hpx as (? & ? & ? & Hpa & _). apply (bounded_after (2 ^ 48)) in Hpa; [done|lia|done].
Qed.

(** ** The decoder as a whole *)

Lemma Reset_wf b :
  Z.of_nat (length b) <= 2 ^ 48 ->
  wfS (Reset b (Z.of_nat (length b))) /\ bounded (2 ^ 48) (Reset b (Z.of_nat (length b))).
Proof.
  intros Hb. unfold Reset. split; [constructor|split]; cbn; try done; try lia.
  all: destruct (Z.ltb_spec 0 (Z.of_nat (length b))); lia.
Qed.

Lemma DecodeBytes_enc it :
  Z.of_nat (length (rlp_enc it)) <= 2 ^ 48 -> DecodeBytes (rlp_enc it) = Ok it.
Proof.
  intros Hl. destruct (Reset_wf _ Hl) as [Hw _]. unfold DecodeBytes.
  destruct (decodes_all it (decode_fuel (rlp_enc it)) _ [] Hw eq_refl) as (s' & -> & [Ar _ _ _] & _).
  - cbn. by rewrite app_nil_r.
  - destruct Hw as [_ Hr _ _]. cbn in Hr. split; [|done]. cbn. rewrite Hr. lia.
  - done.
  - unfold decode_fuel. lia.
  - rewrite Ar. cbn. by rewrite Nat2Z.id, drop_all.
Qed.

Lemma DecodeBytes_inv b it :
  Z.of_nat (length b) <= 2 ^ 48 -> DecodeBytes b = Ok it -> b = rlp_enc it.
Proof.
  intros Hl H. destruct (Reset_wf _ Hl) as [Hw _]. unfold DecodeBytes in H.
  destruct (decodeInterface _ _) as [[x|e|w|] s'] eqn:E; try discriminate.
  destruct (s_r s') eqn:Er; [|discriminate]. injection H as ->.
  apply decode_inv in E as (r' & Hr & _ & [Ar _ _ _] & _); [|done..].
  rewrite Ar, Hr, drop_app_hdr in Er. subst r'. by rewrite app_nil_r in Hr.
Qed.

Lemma DecodeBytes_returned b : Z.of_nat (length b) <= 2 ^ 48 -> returned (DecodeBytes b).
Proof.
  intros Hl. destruct (Reset_wf _ Hl) as [Hw Hb]. unfold DecodeBytes.
  pose proof (proj1 (decode_returns (decode_fuel b)) _ Hw eq_refl Hb (Nat.le_refl _)) as H.
  destruct (decodeInterface _ _) as [[x|e|w|] s']; [by destruct (s_r s')|done..].
Qed.

(** C22: decoding a byte string always returns, without running out of fuel and
    without a panic; it returns an item exactly when the string is that item's
    encoding, and an error exactly when it is no item's encoding.  So the decoder
    accepts the canonical encodings and nothing else. *)
Theorem DecodeBytes_correct b :
  Z.of_nat (length b) <= 2 ^ 48 ->
  match DecodeBytes b with
  | Ok it => b = rlp_enc it
  | Err _ => forall it, b <> rlp_enc it
  | Panic _ | Blocked => False
  end.
Proof.
  intros Hl. pose proof (DecodeBytes_returned b Hl) as Ht.
  destruct (DecodeBytes b) as [it|e|w|] eqn:E; [by apply DecodeBytes_inv| |done..].
  intros it ->. rewrite DecodeBytes_enc in E by done. discriminate.
Qed.

Lemma DecodeBytes_correct_witness :
  DecodeBytes (z2b <$> [0xC8; 0x83; 0x63; 0x61; 0x74; 0x83; 0x64; 0x6F; 0x67]) =
    Ok (Lst [Str (z2b <$> [0x63; 0x61; 0x74]); Str (z2b <$> [0x64; 0x6F; 0x67])]) /\
  match DecodeBytes (z2b <$> [0x81; 0x05]) with
  | Ok it => z2b <$> [0x81; 0x05] = rlp_enc it
  | Err _ => forall it, z2b <$> [0x81; 0x05] <> rlp_enc it
  | Panic _ | Blocked => False
  end.
Proof.
  split; [vm_compute; reflexivity|]. apply (DecodeBytes_correct (z2b <$> [0x81; 0x05])). cbn. lia.
Defined.

(** what [EncodeToBytes] produces for an item, [DecodeBytes] decodes to the
    same item. *)
Theorem rlp_roundtrip it :
  Z.of_nat (length (rlp_enc it)) <= 2 ^ 48 -> DecodeBytes (EncodeToBytes it) = Ok it.
Proof.
  intros Hl. rewrite EncodeToBytes_rlp_enc by (unfold fits; lia). by apply DecodeBytes_enc.
Qed.

Lemma rlp_roundtrip_witness :
  DecodeBytes (EncodeToBytes (Lst [Str []; Lst [Str [Byte.x7f]; Lst []]])) =
    Ok (Lst [Str []; Lst [Str [Byte.x7f]; Lst []]]).
Proof. apply (rlp_roundtrip (Lst [Str []; Lst [Str [Byte.x7f]; Lst []]])). vm_compute; discriminate. Defined.

(** The reference encoding is injective on what a slice can hold. *)
Lemma rlp_enc_inj it1 it2 :
  Z.of_nat (length (rlp_enc it1)) <= 2 ^ 48 -> rlp_enc it1 = rlp_enc it2 -> it1 = it2.
Proof.
  intros Hl He. apply DecodeBytes_enc in Hl as H1. rewrite He in Hl. apply DecodeBytes_enc in Hl as H2.
  congruence.
Qed.

(** ** Splitting without decoding (rlp/raw.go) *)

Lemma putint_head_nonzero n r :
  56 <= n -> in_u64 n -> head (putint n ++ r) <> Some Byte.x00.
Proof.
  intros Hn Hu. pose proof (putint_length n Hu) as Hl. pose proof (putint_value n Hu) as Hv.
  destruct (putint_head n Hu) as [H1|Hh]; [|by destruct (putint n); [cbn in Hl; lia|]].
  destruct (putint n) as [|b [|]]; try done. rewrite be_value_single in Hv.
  intros [= ->]. change (b2z Byte.x00) with 0 in Hv. lia.
Qed.

Lemma readSize_putint n r :
  56 <= n -> in_u64 n -> readSize (putint n ++ r) (Z.of_nat (length (putint n))) = Ok n.
Proof.
  intros Hn Hu. unfold readSize. rewrite length_app, Nat2Z.inj_add, Nat2Z.id, take_app_length.
  rewrite putint_value by done. zcases. cbv zeta. zcases. cbn [orb].
  by rewrite bool_decide_eq_false_2 by (by apply putint_head_nonzero).
Qed.

(** The shape of a header as [raw_readKind] sees it. *)
Lemma raw_readKind_hdr k n content r :
  k <> KByte -> n = Z.of_nat (length content) ->
  Z.of_nat (length (hdr k n Byte.x00 ++ content ++ r)) < 2 ^ 64 ->
  (k = KString -> forall b, content = [b] -> 128 <= b2z b) ->
  raw_readKind (hdr k n Byte.x00 ++ content ++ r) =
    Ok (k, Z.of_nat (length (hdr k n Byte.x00)), n).
Proof.
  intros Hk Hn Hlen Hc.
  assert (Hfit : (u64 (Z.of_nat (length (hdr k n Byte.x00 ++ content ++ r)) -
                       Z.of_nat (length (hdr k n Byte.x00))) <? n) = false).
  { rewrite !length_app in *. rewrite u64_small by (unfold in_u64; lia). apply Z.ltb_ge. lia. }
  rewrite !length_app in Hlen. assert (Hu : in_u64 n) by (unfold in_u64; lia).
  assert (Hh : exists sm lg, hdr k n Byte.x00 = puthead sm lg n /\
    (sm = 0x80 /\ lg = 0xB7 /\ k = KString \/ sm = 0xC0 /\ lg = 0xF7 /\ k = KList)).
  { destruct k; [done|exists 0x80, 0xB7; by auto|exists 0xC0, 0xF7; by auto]. }
  destruct Hh as (sm & lg & Hh & Hcase). rewrite Hh in *. unfold puthead in *. cbv zeta in *.
  destruct (Z.ltb_spec n 56); cbn [app length] in *; unfold raw_readKind; cbn [length];
    match goal with |- context [u64 (?L - _)] => remember L as len eqn:Elen end.
  - change (Z.of_nat 1) with 1 in *.
    rewrite b2z_z2b, Z.mod_small by (destruct Hcase as [(->&->&_)|(->&->&_)]; lia).
    destruct Hcase as [(->&->&->)|(->&->&->)]; rewrite ?Z.add_simpl_l.
    + destruct (Z.ltb_spec (0x80 + n) 0x80), (Z.ltb_spec (0x80 + n) 0xB8); try lia.
      destruct (Z.eqb_spec n 1) as [Hn1|Hn1]; cbn; [|by rewrite Hfit].
      destruct content as [|b []]; cbn in Hn; try lia. specialize (Hc eq_refl b eq_refl).
      cbn. destruct (Z.ltb_spec (b2z b) 128); [lia|]. cbn. by rewrite Hfit.
    + zcases. cbn. by rewrite Hfit.
  - pose proof (putint_length n Hu) as Hpl.
    rewrite b2z_z2b, Z.mod_small by (destruct Hcase as [(->&->&_)|(->&->&_)]; lia).
    replace (Z.of_nat (S (length (putint n)))) with (Z.of_nat (length (putint n)) + 1) in * by lia.
    destruct Hcase as [(->&->&->)|(->&->&->)]; zcases; rewrite Z.add_simpl_l, readSize_putint by done;
      cbn; by rewrite Hfit.
Qed.

(** What [Split] returns for an item: its kind and its content. *)
Definition item_kind (it : item) : Kind :=
  match it with
  | Str [b] => if b2z b <? 128 then KByte else KString
  | Str _ => KString
  | Lst _ => KList
  end.
Definition item_content (it : item) : bytes :=
  match it with Str b => b | Lst l => rlp_encs l end.

Lemma raw_readKind_enc it r :
  Z.of_nat (length (rlp_enc it ++ r)) < 2 ^ 64 ->
  exists h, rlp_enc it = h ++ item_content it /\
    raw_readKind (rlp_enc it ++ r) =
      Ok (item_kind it, Z.of_nat (length h), Z.of_nat (length (item_content it))).
Proof.
  intros Hl. destruct it as [bs|l].
  - cbn [rlp_enc item_content] in *. destruct (str_enc_cases bs) as [(b & -> & Hb & E)|[Hc E]].
    + exists []. rewrite E in *. cbn [hdr app length] in *. unfold raw_readKind. cbn [item_kind].
      split; [done|]. zcases. cbn [mbind outcome_bind length].
      rewrite Z.sub_0_r, u64_small by (unfold in_u64; lia). zcases. done.
    + exists (hdr KString (Z.of_nat (length bs)) Byte.x00). rewrite E in *. split; [done|].
      rewrite <- app_assoc in *. rewrite raw_readKind_hdr by done. do 3 f_equal.
      destruct bs as [|b []]; try done. cbn. specialize (Hc b eq_refl).
      by destruct (Z.ltb_spec (b2z b) 128); [lia|].
  - exists (hdr KList (Z.of_nat (length (rlp_encs l))) Byte.x00). split; [done|].
    rewrite rlp_enc_Lst, <- app_assoc in *. by apply (raw_readKind_hdr KList).
Qed.

(** [Split] on an encoded item followed by anything returns the item's kind,
    its content and the rest. *)
Theorem Split_enc it r :
  Z.of_nat (length (rlp_enc it ++ r)) < 2 ^ 64 ->
  Split (rlp_enc it ++ r) = Ok (item_kind it, item_content it, r).
Proof.
  intros Hl. destruct (raw_readKind_enc it r Hl) as (h & He & Hk). unfold Split. rewrite Hk. cbn.
  rewrite He, <- app_assoc, <- Nat2Z.inj_add, !Nat2Z.id, drop_app_length, take_app_length.
  by rewrite <- length_app, app_assoc, drop_app_length.
Qed.

Lemma Split_enc_witness :
  Split (rlp_enc (Lst [Str [Byte.x01]; Str []]) ++ [Byte.x05]) =
    Ok (KList, [Byte.x01; Byte.x80], [Byte.x05]).
Proof. apply (Split_enc (Lst [Str [Byte.x01]; Str []]) [Byte.x05]). vm_compute; reflexivity. Defined.

Lemma CountValues_loop_enc l : forall f i,
  Z.of_nat (length (rlp_encs l)) < 2 ^ 64 -> (length (rlp_encs l) <= f)%nat ->
  CountValues_loop f (rlp_encs l) i = Ok (i + Z.of_nat (length l)).
Proof.
  induction l as [|x l IH]; intros f i Hl Hf; [destruct f; cbn; f_equal; lia|].
  rewrite rlp_encs_cons in *. pose proof (rlp_enc_pos x).
  destruct (raw_readKind_enc x (rlp_encs l) Hl) as (h & He & Hk).
  rewrite length_app in Hl, Hf. destruct f as [|f]; [lia|].
  assert (Hs : Z.to_nat (Z.of_nat (length h) + Z.of_nat (length (item_content x))) = length (rlp_enc x))
    by (rewrite He, length_app; lia).
  destruct (rlp_enc x ++ rlp_encs l) as [|b tl] eqn:E; [destruct (rlp_enc x); done|].
  cbn [CountValues_loop]. rewrite Hk, Hs, <- E, drop_app_length, IH by lia.
  f_equal. cbn [length]. lia.
Qed.

(** [CountValues] on a concatenation of encoded items returns their number. *)
Theorem CountValues_enc l :
  Z.of_nat (length (rlp_encs l)) < 2 ^ 64 -> CountValues (rlp_encs l) = Ok (Z.of_nat (length l)).
Proof. intros Hl. unfold CountValues. by rewrite CountValues_loop_enc. Qed.

Lemma CountValues_enc_witness :
  CountValues (rlp_encs [Str []; Lst [Str []; Str []]; Str [Byte.xff]]) = Ok 3.
Proof.
  apply (CountValues_enc [Str []; Lst [Str []; Str []]; Str [Byte.xff]]). vm_compute; reflexivity.
Defined.
