(* ===== verification/RLPTyped.v ===== *)
(** Typed RLP decoding (rlp/decode.go): the decoders that reflection selects for
    unsigned integers, big integers, byte arrays and slices, pointers and structs,
    over the same stream as the untyped decoder.

    A typed decoder is a computation on the stream.  [decodesT dec it a] says that
    [dec] returns [a] wherever the stream is at the encoding of [it]; it is closed
    under the struct and pointer combinators, so that the round trip of a struct is
    the list of the round trips of its fields. *)
From stdpp Require Import prelude list strings.
From Stdlib Require Import ZArith Lia.
From S2P Require Import Prelude RLP RLPStream RLPStreamFacts RLPDecode.
Local Open Scope Z_scope.

(** ** Decoders *)

Definition errTooShort : goerror := ErrNew "rlp: input string too short".
Definition errTooLong : goerror := ErrNew "rlp: input string too long".
Definition errTooFew : goerror := ErrNew "rlp: too few elements".
Definition errWrongKind : goerror := ErrNew "rlp: wrong kind of empty value".

Definition decodeUint (bits : Z) : M Stream Z := rethrow wrapStreamError (stream_uint bits).

Definition decodeByteSlice : M Stream bytes := rethrow wrapStreamError stream_Bytes.

Definition decodeBigInt : M Stream Z :=
  b ← rethrow wrapStreamError stream_Bytes;
  if bool_decide (head b = Some Byte.x00) then throw (wrapStreamError ErrCanonInt)
  else ret (be_value b).

(** [decodeByteArray] into an array of [vlen] bytes. *)
Definition decodeByteArray (vlen : Z) : M Stream bytes :=
  '(kind, size) ← stream_Kind;
  match kind with
  | KByte =>
      if vlen =? 0 then throw errTooLong
      else if 1 <? vlen then throw errTooShort
      else
        (* bv, _ := s.Uint(): the error is dropped, and then the value is 0 *)
        bv ← attempt stream_Uint;
        ret [z2b (match bv with inl _ => 0 | inr v => v end)]
  | KString =>
      if vlen <? size then throw errTooLong
      else if size <? vlen then throw errTooShort
      else
        slice ← s_readFull vlen;
        match slice with
        | [b] => if b2z b <? 128 then throw (wrapStreamError ErrCanonSize) else ret slice
        | _ => ret slice
        end
  | KList => throw (wrapStreamError ErrExpectedString)
  end.

(** [makeNilPtrDecoder]: an empty value of kind [nilKind] is the nil pointer. *)
Definition decodeNilPtr {A} (nilKind : Kind) (dec : M Stream A) : M Stream (option A) :=
  '(kind, size) ← rethrow wrapStreamError stream_Kind;
  if negb (bool_decide (kind = KByte)) && (size =? 0) then
    if negb (bool_decide (kind = nilKind)) then throw errWrongKind
    else modS (set_kind None) ;; ret None
  else a ← dec; ret (Some a).

(** A field of a struct: the end of the list is an error of the struct. *)
Definition field {A} (dec : M Stream A) : M Stream A :=
  rethrow (fun e => if bool_decide (e = EOL) then errTooFew else e) dec.

(** [makeStructDecoder], around the fields. *)
Definition decodeStruct {A} (fields : M Stream A) : M Stream A :=
  rethrow wrapStreamError stream_List ;;
  a ← fields;
  rethrow wrapStreamError stream_ListEnd ;;
  ret a.

(** [makeStructTxMetaDecoder]: the end of the list ends the struct, and the fields
    that are left keep the values they had. *)
Fixpoint decodeOptFields {A} (fields : list (A -> M Stream A)) (a : A) : M Stream A :=
  match fields with
  | [] => ret a
  | f :: fields =>
      r ← attempt (f a);
      match r with
      | inl e => if bool_decide (e = EOL) then ret a else throw e
      | inr a => decodeOptFields fields a
      end
  end.

(** [decodeSliceElems]: elements up to the end of the list.  Every element takes a
    byte, so the bytes that are left bound the loop. *)
Fixpoint decodeElems {A} (fuel : nat) (elemdec : M Stream A) (acc : list A) : M Stream (list A) :=
  match fuel with
  | O => blocked
  | S fuel =>
      r ← attempt elemdec;
      match r with
      | inl e => if bool_decide (e = EOL) then ret acc else throw e
      | inr a => decodeElems fuel elemdec (acc ++ [a])
      end
  end.

Definition decodeListSlice {A} (elemdec : M Stream A) : M Stream (list A) :=
  size ← rethrow wrapStreamError stream_List;
  if size =? 0 then stream_ListEnd ;; ret []
  else
    s ← getS;
    l ← decodeElems (S (length (s_r s))) elemdec [];
    stream_ListEnd ;; ret l.

(** [DecodeBytes] into a typed value. *)
Definition DecodeBytesT {A} (dec : M Stream A) (b : bytes) : outcome A :=
  match dec (Reset b (Z.of_nat (length b))) with
  | (Ok a, s) => match s_r s with [] => Ok a | _ => Err ErrMoreThanOneValue end
  | (Err e, _) => Err e
  | (Panic w, _) => Panic w
  | (Blocked, _) => Blocked
  end.

(** ** Round trips *)

(** The stream is at the bytes [e], which it can read as a whole. *)
Record ready (e r' : bytes) (s : Stream) : Prop := {
  rd_wf : wfS s;
  rd_kind : s_kind s = None;
  rd_r : s_r s = e ++ r';
  rd_room : room (Z.of_nat (length e)) s;
  rd_len : Z.of_nat (length e) <= 2 ^ 48 }.

Definition decodesT {A} (dec : M Stream A) (it : item) (a : A) : Prop := forall s r',
  ready (rlp_enc it) r' s ->
  exists s', dec s = (Ok a, s') /\ done_after (Z.of_nat (length (rlp_enc it))) s s'.

Definition fieldsT {A} (dec : M Stream A) (l : list item) (a : A) : Prop := forall s r',
  ready (rlp_encs l) r' s ->
  exists s', dec s = (Ok a, s') /\ done_after (Z.of_nat (length (rlp_encs l))) s s'.

(** After the first part of what it is at, the stream is at the second. *)
Lemma ready_app (e1 e2 r' : bytes) s s1 :
  ready (e1 ++ e2) r' s -> done_after (Z.of_nat (length e1)) s s1 -> ready e2 r' s1.
Proof.
  intros [Hw Hk Hr Hroom Hl] [Ha Hk1]. rewrite length_app, Nat2Z.inj_add in *.
  pose proof (proj1 (room_split _ _ _ _ (Zle_0_nat _) (Zle_0_nat _) Ha) Hroom) as [Hr1 Hr2].
  constructor; [by eapply after_wf|done| |done|lia].
  destruct Ha as [-> _ _ _]. by rewrite Hr, <- app_assoc, drop_app_hdr.
Qed.

Lemma ready_left (e1 e2 : bytes) r' s : ready (e1 ++ e2) r' s -> ready e1 (e2 ++ r') s.
Proof.
  intros [Hw Hk Hr Hroom Hl]. rewrite length_app, Nat2Z.inj_add in *.
  constructor; [done|done|by rewrite Hr, <- app_assoc|by eapply room_sub; [|done]; lia|lia].
Qed.

Lemma done_after_app (e1 e2 : bytes) s s1 s2 :
  done_after (Z.of_nat (length e1)) s s1 -> done_after (Z.of_nat (length e2)) s1 s2 ->
  done_after (Z.of_nat (length (e1 ++ e2))) s s2.
Proof.
  intros [Ha _] [Hb Hk]. rewrite length_app, Nat2Z.inj_add. split; [|done].
  eapply after_trans; [lia..|done|done].
Qed.

(** What the stream reports at a string, and where it is then. *)
Inductive at_string (bs r' : bytes) (s : Stream) : Stream -> Prop :=
| at_byte b s1 :
    bs = [b] -> b2z b < 128 -> stream_Kind s = (Ok (KByte, 0), s1) -> pending KByte 0 s1 ->
    s_byteval s1 = b -> after (Z.of_nat (length (str_enc bs))) s s1 -> at_string bs r' s s1
| at_bytes s1 :
    (forall b, bs = [b] -> 128 <= b2z b) ->
    stream_Kind s = (Ok (KString, Z.of_nat (length bs)), s1) -> pending KString (Z.of_nat (length bs)) s1 ->
    wfS s1 -> s_r s1 = bs ++ r' -> room (Z.of_nat (length bs)) s1 -> Z.of_nat (length bs) <= 2 ^ 48 ->
    (forall s2, done_after (Z.of_nat (length bs)) s1 s2 -> done_after (Z.of_nat (length (str_enc bs))) s s2) ->
    at_string bs r' s s1.

Lemma Str_kind bs r' s : ready (str_enc bs) r' s -> exists s1, at_string bs r' s s1.
Proof.
  intros [Hw Hk Hr Hroom Hl].
  destruct (str_enc_cases bs) as [(b & -> & Hb & E)|[Hb E]].
  - rewrite E in *. destruct (Kind_ok KByte 0 b s r') as (s1 & HK & Ha & Hp & Hbv); try done.
    exists s1. apply (at_byte _ _ _ b); auto. by rewrite E.
  - rewrite E, length_app, Nat2Z.inj_add in *. rewrite <- app_assoc in Hr.
    destruct (Kind_ok KString (Z.of_nat (length bs)) Byte.x00 s (bs ++ r'))
      as (s1 & HK & Ha & Hp & _); try done; [unfold wf_hdr, in_u64; lia|lia|].
    pose proof (proj1 (room_split _ _ _ _ (Zle_0_nat _) (Zle_0_nat _) Ha) Hroom) as [Hr1 Hr2].
    exists s1. apply at_bytes; try done; [by eapply after_wf| |lia|].
    + destruct Ha as [-> _ _ _]. by rewrite Hr, drop_app_hdr.
    + intros s2 [H2 Hk2]. rewrite E, length_app, Nat2Z.inj_add. split; [|done].
      eapply after_trans; [lia..|done|done].
Qed.

(** The kind, once read, is read again from the cache. *)
Lemma Kind_again {A} (f : Kind * Z -> M Stream A) k n s s1 :
  stream_Kind s = (Ok (k, n), s1) -> pending k n s1 ->
  bindM stream_Kind f s = bindM stream_Kind f s1.
Proof. intros H Hp. erewrite !bind_Ok; [done|by apply Kind_cached|done]. Qed.

Lemma decodesT_Bytes bs : decodesT stream_Bytes (Str bs) bs.
Proof.
  intros s r' Hs. destruct (Str_kind bs r' s Hs) as [s1 [b s2 -> Hb HK Hp <- Ha|s2 Hb HK Hp Hw Hr Hm Hl Hd]].
  - exists (set_kind None s2). split; [|split; [by apply after_set_kind|done]].
    unfold stream_Bytes. rewrite (Kind_again _ _ _ _ _ HK Hp). fold stream_Bytes. by eapply Bytes_byte.
  - destruct (Bytes_string (Z.of_nat (length bs)) s2 bs r') as (s3 & HB & Hd3); try done.
    exists s3. split; [|by apply Hd]. unfold stream_Bytes. by rewrite (Kind_again _ _ _ _ _ HK Hp).
Qed.

Lemma decodesT_rethrow {A} g (dec : M Stream A) it a :
  decodesT dec it a -> decodesT (rethrow g dec) it a.
Proof. intros H s r' Hs. destruct (H s r' Hs) as (s' & HD & Ha). exists s'. split; [by apply rethrow_Ok|done]. Qed.

Lemma decodesT_ByteSlice bs : decodesT decodeByteSlice (Str bs) bs.
Proof. apply decodesT_rethrow, decodesT_Bytes. Qed.

Lemma decodesT_bind_ret {A B} (dec : M Stream A) (f : A -> M Stream B) it a b :
  decodesT dec it a -> (forall s, f a s = (Ok b, s)) -> decodesT (bindM dec f) it b.
Proof.
  intros H Hf s r' Hs. destruct (H s r' Hs) as (s' & HD & Ha). exists s'.
  split; [|done]. erewrite bind_Ok by done. apply Hf.
Qed.

Lemma big_bytes_head z : head (big_bytes z) <> Some Byte.x00.
Proof.
  unfold big_bytes. rewrite <- (last_reverse (reverse _)), reverse_involutive.
  generalize (Z.abs_nonneg z) (digits_fuel_enough (Z.abs z) (Z.abs_nonneg z)).
  generalize (S (Z.to_nat (Z.log2 (Z.abs z)))). generalize (Z.abs z).
  intros x f. revert x. induction f as [|f IH]; intros x Hx Hf; [done|].
  cbn [digits_le]. destruct (Z.leb_spec x 0); [done|].
  rewrite Nat2Z.inj_succ, Z.pow_succ_r in Hf by lia.
  destruct (Z.leb_spec (x / 256) 0) as [Hq|Hq].
  - assert (x < 256) by (pose proof (Z.div_mod x 256 ltac:(lia)); pose proof (Z.mod_pos_bound x 256); lia).
    assert (digits_le f (x / 256) = []) as -> by (destruct f; [done|]; cbn; by zcases).
    cbn. intros [= E]. apply (f_equal b2z) in E. rewrite b2z_z2b, Z.mod_small in E by lia.
    change (b2z Byte.x00) with 0 in E. lia.
  - assert (Hd : digits_le f (x / 256) <> []).
    { destruct f; [cbn in Hf|cbn; zcases; done]. rewrite Z.div_small in Hq; lia. }
    rewrite last_cons. destruct (last (digits_le f (x / 256))) as [y|] eqn:E.
    + rewrite <- E. apply IH; [lia|]. apply Z.div_lt_upper_bound; lia.
    + by apply last_None in E.
Qed.

Lemma decodesT_BigInt z : 0 <= z -> decodesT decodeBigInt (big_item z) z.
Proof.
  intros Hz. unfold decodeBigInt. eapply decodesT_bind_ret; [apply decodesT_ByteSlice|].
  intros s. cbv beta. rewrite bool_decide_eq_false_2 by apply big_bytes_head.
  rewrite be_value_big_bytes. by rewrite Z.abs_eq.
Qed.

Lemma stream_uint_byte bits b s1 :
  b2z b <> 0 -> pending KByte 0 s1 -> s_byteval s1 = b ->
  stream_uint bits s1 = (Ok (b2z b), set_kind None s1).
Proof.
  intros Hb Hp <-. unfold stream_uint. erewrite bind_Ok by (by apply Kind_cached). unfold_M.
  by destruct (Z.eqb_spec (b2z (s_byteval s1)) 0).
Qed.

Lemma stream_uint_string bits bs r' s1 :
  pending KString (Z.of_nat (length bs)) s1 -> wfS s1 -> s_r s1 = bs ++ r' ->
  room (Z.of_nat (length bs)) s1 -> Z.of_nat (length bs) <= bits / 8 -> (1 <= length bs)%nat ->
  (length bs = 1%nat \/ head bs <> Some Byte.x00) -> 128 <= be_value bs ->
  exists s2, stream_uint bits s1 = (Ok (be_value bs), s2) /\ done_after (Z.of_nat (length bs)) s1 s2.
Proof.
  intros Hp Hw Hr Hm Hb Hl Hh Hv. unfold stream_uint. erewrite bind_Ok by (by apply Kind_cached).
  cbv beta iota. destruct (Z.ltb_spec (bits / 8) (Z.of_nat (length bs))); [lia|].
  assert (Ht : take (Z.to_nat (Z.of_nat (length bs))) (s_r s1) = bs) by (by rewrite Nat2Z.id, Hr, take_app_length).
  pose proof (readUint_ok (Z.of_nat (length bs)) s1 Hw Hm ltac:(lia)) as HR. rewrite Ht in HR.
  erewrite bind_Ok by (apply attempt_Ok, HR; destruct Hh; [left; lia|by right]). cbv beta iota.
  rewrite (proj2 (Z.ltb_ge (be_value bs) 128)) by done. rewrite andb_false_r.
  eexists. split; [done|]. split; [apply after_readFull|done].
Qed.

Lemma decodesT_uint bits i :
  in_u64 i -> Z.of_nat (length (putint i)) <= bits / 8 -> decodesT (stream_uint bits) (uint_item i) i.
Proof.
  intros Hi Hb s r'. unfold uint_item. destruct (Z.eqb_spec i 0) as [->|Hne]; intros Hs.
  - destruct (Str_kind _ _ _ Hs) as [s1 [b s2 Hbs|s2 Hb2 HK Hp Hw Hr Hm Hl Hd]]; [done|].
    exists (set_kind None s2). split.
    + unfold stream_uint. erewrite bind_Ok by done. change (Z.of_nat (length [])) with 0. cbv beta iota.
      destruct (Z.ltb_spec (bits / 8) 0) as [H0|H0]; [exfalso; pose proof (putint_length 0 Hi); lia|reflexivity].
    + apply Hd. split; [apply after_set_kind, after_0_refl|done].
  - pose proof (putint_value i Hi) as Hv. pose proof (putint_length i Hi) as Hl8.
    destruct (Str_kind _ _ _ Hs) as [s1 [b s2 Hbs Hb2 HK Hp Hbv Ha|s2 Hb2 HK Hp Hw Hr Hm Hl Hd]].
    + rewrite Hbs, be_value_single in Hv. exists (set_kind None s2). split; [|split; [by apply after_set_kind|done]].
      unfold stream_uint. rewrite (Kind_again _ _ _ _ _ HK Hp). fold (stream_uint bits).
      rewrite <- Hv. apply stream_uint_byte; [lia|done|done].
    + assert (H128 : 128 <= be_value (putint i)).
      { destruct (putint i) as [|b [|b' l]] eqn:E; [cbn in Hl8; lia|rewrite be_value_single; by apply Hb2|].
        rewrite Hv. destruct (putint_spec i Hi) as (n & Hn & Hpi & Hlt & Hge). rewrite E in Hpi.
        apply (f_equal length) in Hpi. rewrite length_reverse, length_put_le in Hpi. cbn in Hpi.
        destruct Hge as [->|Hge]; [lia|]. assert (256 ^ 1 <= 256 ^ (Z.of_nat n - 1)) by (apply Z.pow_le_mono_r; lia). lia. }
      destruct (stream_uint_string bits (putint i) r' s2) as (s3 & HU & Hd3); try done; [lia|by apply putint_head|].
      exists s3. split; [|by apply Hd]. unfold stream_uint. rewrite (Kind_again _ _ _ _ _ HK Hp).
      fold (stream_uint bits). by rewrite HU, Hv.
Qed.

Lemma decodesT_Uint64 i : in_u64 i -> decodesT (decodeUint 64) (uint_item i) i.
Proof.
  intros Hi. apply decodesT_rethrow, decodesT_uint; [done|]. pose proof (putint_length i Hi).
  change (64 / 8) with 8. lia.
Qed.

Lemma decodesT_Uint8 i : 0 <= i < 256 -> decodesT (decodeUint 8) (uint_item i) i.
Proof.
  intros Hi. apply decodesT_rethrow, decodesT_uint; [unfold in_u64; lia|].
  by rewrite putint_small.
Qed.

Lemma decodesT_ByteArray bs n :
  n = Z.of_nat (length bs) -> 2 <= n -> decodesT (decodeByteArray n) (Str bs) bs.
Proof.
  intros -> H2 s r' Hs.
  destruct (Str_kind bs r' s Hs) as [s1 [b s2 -> Hb HK Hp <- Ha|s2 Hb HK Hp Hw Hr Hm Hl Hd]]; [cbn in H2; lia|].
  exists (set_r (drop (Z.to_nat (Z.of_nat (length bs))) (s_r s2)) (bump (Z.of_nat (length bs)) s2)).
  split; [|apply Hd; split; [apply after_readFull|done]].
  unfold decodeByteArray. rewrite (bind_Ok _ _ _ _ _ HK). cbv beta iota. rewrite Z.ltb_irrefl.
  rewrite (bind_Ok _ _ _ _ _ (s_readFull_ok _ _ Hw Hm)). cbv beta.
  rewrite Nat2Z.id, Hr, take_app_length. by destruct bs as [|? [|? ?]]; [|cbn in H2; lia|].
Qed.

(** A nil pointer and a pointer to a value that is not empty. *)
Lemma decodesT_NilPtr_None {A} (dec : M Stream A) : decodesT (decodeNilPtr KString dec) (Str []) None.
Proof.
  intros s r' Hs. destruct (Str_kind [] r' s Hs) as [s1 [b s2 Hbs|s2 Hb HK Hp Hw Hr Hm Hl Hd]]; [done|].
  exists (set_kind None s2). split; [|apply Hd; split; [apply after_set_kind, after_0_refl|done]].
  unfold decodeNilPtr. erewrite bind_Ok by (by apply rethrow_Ok). done.
Qed.

(** A decoder that starts by asking for the kind does not care who asked before. *)
Definition kind_first {A} (dec : M Stream A) : Prop := forall k n s s1,
  stream_Kind s = (Ok (k, n), s1) -> pending k n s1 -> dec s = dec s1.

Lemma kind_first_bind {A B} (dec : M Stream A) (f : A -> M Stream B) :
  kind_first dec -> kind_first (bindM dec f).
Proof. intros H k n s s1 HK Hp. unfold bindM. by rewrite (H _ _ _ _ HK Hp). Qed.

Lemma kind_first_ByteArray n : kind_first (decodeByteArray n).
Proof. intros k m s s1 HK Hp. unfold decodeByteArray. by apply (Kind_again _ k m). Qed.

Lemma decodesT_NilPtr_Some {A} (dec : M Stream A) bs a :
  bs <> [] -> kind_first dec -> decodesT dec (Str bs) a ->
  decodesT (decodeNilPtr KString dec) (Str bs) (Some a).
Proof.
  intros Hne Hkf H s r' Hs. destruct (H s r' Hs) as (s' & HD & Hd). exists s'. split; [|done].
  unfold decodeNilPtr. destruct (Str_kind bs r' s Hs) as [s1 Hs1].
  assert (exists k n, stream_Kind s = (Ok (k, n), s1) /\ pending k n s1 /\ (k = KByte \/ n <> 0)) as (k & n & HK & Hp & Hkn).
  { destruct Hs1; [by eexists _, _; split_and!; [..|left]|].
    eexists _, _. split_and!; [done|done|right]. destruct bs; cbn; [done|lia]. }
  erewrite bind_Ok by (by apply rethrow_Ok). cbv beta iota.
  replace (negb (bool_decide (k = KByte)) && (n =? 0)) with false
    by (destruct Hkn as [->|Hn]; [done|rewrite (proj2 (Z.eqb_neq n 0) Hn); by rewrite andb_false_r]).
  rewrite (Hkf _ _ _ _ HK Hp) in HD. by erewrite bind_Ok by done.
Qed.

(** *** Structs *)

Lemma fieldsT_ret {A} (a : A) : fieldsT (ret a) [] a.
Proof. intros s r' Hs. exists s. split; [done|]. split; [apply after_0_refl|apply Hs]. Qed.

Lemma fieldsT_bind {A B} (dec : M Stream A) (f : A -> M Stream B) it l a b :
  decodesT dec it a -> fieldsT (f a) l b -> fieldsT (bindM (field dec) f) (it :: l) b.
Proof.
  intros Hd Hf s r' Hs. rewrite rlp_encs_cons in *.
  destruct (Hd s _ (ready_left _ _ _ _ Hs)) as (s1 & HD & Ha).
  destruct (Hf s1 r' (ready_app _ _ _ _ _ Hs Ha)) as (s2 & HF & Hb).
  exists s2. split; [|by eapply done_after_app]. by erewrite bind_Ok by (by apply rethrow_Ok).
Qed.

(** The same for the whole content of a list, which ends with [l]. *)
Definition contentT {A} (dec : M Stream A) (l : list item) (a : A) : Prop := forall s r' t st,
  ready (rlp_encs l) r' s -> s_stack s = t :: st ->
  lp_size t - lp_pos t = Z.of_nat (length (rlp_encs l)) ->
  exists s', dec s = (Ok a, s') /\ done_after (Z.of_nat (length (rlp_encs l))) s s'.

(** Entering a list, and leaving it when its content has been read. *)
Lemma List_opens l r' s :
  ready (rlp_enc (Lst l)) r' s -> let n := Z.of_nat (length (rlp_encs l)) in
  exists s1, rethrow wrapStreamError stream_List s = (Ok n, push n s1) /\
    ready (rlp_encs l) r' (push n s1) /\
    forall s2, after n (push n s1) s2 ->
      exists s3, stream_ListEnd s2 = (Ok tt, s3) /\ done_after (Z.of_nat (length (rlp_enc (Lst l)))) s s3.
Proof.
  intros [Hw Hk Hr Hroom Hlen] n.
  assert (E : rlp_enc (Lst l) = hdr KList n Byte.x00 ++ rlp_encs l) by apply rlp_enc_Lst.
  rewrite E in *. rewrite length_app, Nat2Z.inj_add in *. rewrite <- app_assoc in Hr. fold n in Hroom, Hlen |- *.
  pose proof (length_hdr_pos KList n Byte.x00) as Hh.
  destruct (Kind_ok KList n Byte.x00 s (rlp_encs l ++ r'))
    as (s1 & HK & Ha & Hp & _); try done; [unfold wf_hdr, in_u64; lia|lia|].
  pose proof (proj1 (room_split _ n _ _ (Zle_0_nat _) (Zle_0_nat _) Ha) Hroom) as [Hr1 Hr2].
  pose proof (after_wf _ _ _ Hw Hr1 Ha) as Hw1. exists s1. split_and!.
  - apply rethrow_Ok. unfold stream_List. rewrite (Kind_again _ _ _ _ _ HK Hp).
    fold stream_List. by apply List_ok.
  - constructor; [apply push_wf; [unfold in_u64; lia|done]|done| | |lia].
    + cbn. destruct Ha as [-> _ _ _]. by rewrite Hr, drop_app_hdr.
    + destruct Hr2. split; [done|]. cbn. lia.
  - intros s2 H2. destruct (ListEnd_ok n s1 s2 Hw1 Hr2 H2) as (s3 & HE & Ha3 & Hk3).
    exists s3. split; [done|]. split; [eapply after_trans; [lia..|done|done]|done].
Qed.

Lemma contentT_list {A} (dec : M Stream A) l a :
  contentT dec l a -> decodesT (decodeStruct dec) (Lst l) a.
Proof.
  intros Hf s r' Hs. destruct (List_opens l r' s Hs) as (s1 & HL & Hready & Hend).
  destruct (Hf _ _ {| lp_pos := 0; lp_size := Z.of_nat (length (rlp_encs l)) |} (s_stack s1) Hready)
    as (s2 & HD & H2 & _); [done|cbn; lia|].
  destruct (Hend s2 H2) as (s3 & HE & Hd). exists s3. split; [|done]. unfold decodeStruct.
  erewrite bind_Ok by done. erewrite bind_Ok by done. by erewrite bind_Ok by (by apply rethrow_Ok).
Qed.

Lemma fieldsT_list {A} (dec : M Stream A) l a :
  fieldsT dec l a -> decodesT (decodeStruct dec) (Lst l) a.
Proof. intros H. apply contentT_list. intros s r' t st Hs _ _. by apply (H s r'). Qed.

(** What is decoded from the whole of a byte string. *)
Lemma decodesT_DecodeBytes {A} (dec : M Stream A) it a :
  decodesT dec it a -> Z.of_nat (length (rlp_enc it)) <= 2 ^ 48 -> DecodeBytesT dec (rlp_enc it) = Ok a.
Proof.
  intros Hd Hl. destruct (Reset_wf _ Hl) as [Hw _]. unfold DecodeBytesT.
  destruct (Hd (Reset (rlp_enc it) (Z.of_nat (length (rlp_enc it)))) []) as (s' & -> & [Ar _ _ _] & _).
  - constructor; [done|done|cbn; by rewrite app_nil_r| |done].
    destruct Hw as [_ Hr _ _]. cbn in Hr. split; [|done]. cbn. rewrite Hr. lia.
  - rewrite Ar. cbn. by rewrite Nat2Z.id, drop_all.
Qed.

(** *** Structs that may end early *)

(** Such a decoder reports the end of the list as the stream does. *)
Definition at_EOL {A} (dec : M Stream A) : Prop := forall s s',
  stream_Kind s = (Err EOL, s') -> dec s = (Err EOL, s').

Lemma at_EOL_bind {A B} (dec : M Stream A) (f : A -> M Stream B) : at_EOL dec -> at_EOL (bindM dec f).
Proof. intros H s s' HK. apply bind_Err. by apply H. Qed.
Lemma at_EOL_wrapped {A} (dec : M Stream A) : at_EOL dec -> at_EOL (rethrow wrapStreamError dec).
Proof. intros H s s' HK. unfold rethrow. erewrite bind_Ok by (apply attempt_Err; by apply H). done. Qed.
Lemma at_EOL_Kind : at_EOL stream_Kind.
Proof. by intros s s'. Qed.

Inductive optFieldsT {A} : list (A -> M Stream A) -> list item -> A -> A -> Prop :=
| optFieldsT_done a : optFieldsT [] [] a a
| optFieldsT_end fields a f : at_EOL (f a) -> optFieldsT (f :: fields) [] a a
| optFieldsT_field f fields it l a a1 b :
    decodesT (f a) it a1 -> optFieldsT fields l a1 b -> optFieldsT (f :: fields) (it :: l) a b.

Lemma optFieldsT_content {A} (fields : list (A -> M Stream A)) l a b :
  optFieldsT fields l a b -> contentT (decodeOptFields fields a) l b.
Proof.
  induction 1 as [a|fields a f Hk|f fields it l a a1 b Hd _ IH]; intros s r' t st Hs Hst Ht; cbn [decodeOptFields].
  - exists s. split; [done|]. split; [apply after_0_refl|apply Hs].
  - assert (at_end s) as He by (unfold at_end; rewrite Hst; cbn in Ht; lia).
    destruct Hs as [_ Hks _ _ _].
    eexists. erewrite bind_Ok by (apply attempt_Err; by apply Hk, Kind_EOL). split; [done|].
    split; [|done]. destruct (after_0_refl s). by constructor.
  - rewrite rlp_encs_cons in *. destruct (Hd s _ (ready_left _ _ _ _ Hs)) as (s1 & HD & Ha).
    rewrite length_app, Nat2Z.inj_add in Ht.
    destruct (IH s1 r' {| lp_pos := lp_pos t + Z.of_nat (length (rlp_enc it)); lp_size := lp_size t |} st
      (ready_app _ _ _ _ _ Hs Ha)) as (s2 & HF & Hb); [|cbn; lia|].
    { destruct Ha as [[_ _ _ As] _]. by rewrite As, Hst. }
    exists s2. split; [|by eapply done_after_app]. by erewrite bind_Ok by (by apply attempt_Ok).
Qed.

(** *** Slices *)

Lemma at_EOL_List : at_EOL (rethrow wrapStreamError stream_List).
Proof. apply at_EOL_wrapped. unfold stream_List. apply at_EOL_bind, at_EOL_Kind. Qed.

Lemma at_EOL_Struct {A} (dec : M Stream A) : at_EOL (decodeStruct dec).
Proof. unfold decodeStruct. apply at_EOL_bind, at_EOL_List. Qed.

Lemma decodeElems_content {A} (dec : M Stream A) its l : at_EOL dec -> Forall2 (decodesT dec) its l ->
  forall fuel acc, (length its < fuel)%nat -> contentT (decodeElems fuel dec acc) its (acc ++ l).
Proof.
  intros Hk. induction 1 as [|it a its l Hd _ IH]; intros [|fuel] acc Hf s r' t st Hs Hst Ht; [cbn in Hf; lia| |cbn in Hf; lia|]; cbn [decodeElems].
  - assert (at_end s) as He by (unfold at_end; rewrite Hst; cbn in Ht; lia). destruct Hs as [_ Hks _ _ _].
    eexists. erewrite bind_Ok by (apply attempt_Err; by apply Hk, Kind_EOL). rewrite app_nil_r. split; [done|].
    split; [|done]. destruct (after_0_refl s). by constructor.
  - rewrite rlp_encs_cons in *. destruct (Hd s _ (ready_left _ _ _ _ Hs)) as (s1 & HD & Ha).
    rewrite length_app, Nat2Z.inj_add in Ht. cbn [length] in Hf.
    destruct (IH fuel (acc ++ [a]) ltac:(lia) s1 r' {| lp_pos := lp_pos t + Z.of_nat (length (rlp_enc it)); lp_size := lp_size t |} st
      (ready_app _ _ _ _ _ Hs Ha)) as (s2 & HF & Hb); [|cbn; lia|].
    { destruct Ha as [[_ _ _ As] _]. by rewrite As, Hst. }
    exists s2. split; [|by eapply done_after_app]. erewrite bind_Ok by (by apply attempt_Ok). cbv beta iota. by rewrite HF, <- app_assoc.
Qed.

Lemma rlp_encs_room its : (length its <= length (rlp_encs its))%nat.
Proof.
  induction its as [|it its IH]; [done|]. rewrite rlp_encs_cons, length_app. cbn [length].
  assert (0 < length (rlp_enc it))%nat; [|lia]. destruct it as [bs|l].
  - change (rlp_enc (Str bs)) with (str_enc bs). destruct (str_enc_cases bs) as [(b & -> & Hb & E)|[Hb E]].
    + rewrite E. pose proof (length_hdr_pos KByte 0 b). lia.
    + rewrite E, length_app. pose proof (length_hdr_pos KString (Z.of_nat (length bs)) Byte.x00). lia.
  - change (rlp_enc (Lst l)) with (hdr KList (Z.of_nat (length (rlp_encs l))) Byte.x00 ++ rlp_encs l). rewrite length_app.
    pose proof (length_hdr_pos KList (Z.of_nat (length (rlp_encs l))) Byte.x00). lia.
Qed.

Lemma decodesT_ListSlice {A} (dec : M Stream A) its l : at_EOL dec -> Forall2 (decodesT dec) its l ->
  decodesT (decodeListSlice dec) (Lst its) l.
Proof.
  intros Hk Hl s r' Hs. destruct (List_opens its r' s Hs) as (s1 & HL & Hready & Hend). unfold decodeListSlice. rewrite (bind_Ok _ _ _ _ _ HL).
  pose proof (rlp_encs_room its) as Hlen. destruct (Z.eqb_spec (Z.of_nat (length (rlp_encs its))) 0) as [H0|H0].
  - assert (its = []) as -> by (destruct its; [done|cbn [length] in Hlen; lia]). inversion Hl; subst.
    destruct (Hend (push (Z.of_nat (length (rlp_encs []))) s1)) as (s3 & HE & Hd); [apply after_0_refl|]. exists s3. split; [|done]. by rewrite (bind_Ok _ _ _ _ _ HE).
  - destruct (decodeElems_content dec its l Hk Hl (S (length (s_r (push (Z.of_nat (length (rlp_encs its))) s1)))) []) with (s := push (Z.of_nat (length (rlp_encs its))) s1) (r' := r')
      (t := {| lp_pos := 0; lp_size := Z.of_nat (length (rlp_encs its)) |}) (st := s_stack s1) as (s2 & HD & H2 & _); [|done|done|cbn; lia|].
    { destruct Hready as [_ _ -> _ _]. rewrite length_app. lia. }
    destruct (Hend s2 H2) as (s3 & HE & Hd). exists s3. split; [|done].
    rewrite (bind_Ok getS _ (push (Z.of_nat (length (rlp_encs its))) s1) _ _ eq_refl). cbv beta. rewrite (bind_Ok _ _ _ _ _ HD). by rewrite (bind_Ok _ _ _ _ _ HE).
Qed.

(** *** Failures *)

(** [dec] fails with [e] at the encoding of [it], or within a list ending in [l]. *)
Definition failsT {A} (dec : M Stream A) (it : item) (e : goerror) : Prop := forall s r',
  ready (rlp_enc it) r' s -> exists s', dec s = (Err e, s').
Definition contentFails {A} (dec : M Stream A) (l : list item) (e : goerror) : Prop := forall s r',
  ready (rlp_encs l) r' s -> exists s', dec s = (Err e, s').

Lemma optFields_fail {A} (f : A -> M Stream A) fields it l a e :
  failsT (f a) it e -> e <> EOL -> contentFails (decodeOptFields (f :: fields) a) (it :: l) e.
Proof.
  intros Hf He s r' Hs. rewrite rlp_encs_cons in Hs.
  destruct (Hf s _ (ready_left _ _ _ _ Hs)) as [s' HD]. exists s'. cbn [decodeOptFields].
  erewrite bind_Ok by (by apply attempt_Err). cbv beta iota. by rewrite bool_decide_eq_false_2.
Qed.

Lemma optFields_fail_later {A} (f : A -> M Stream A) fields it l a a1 e :
  decodesT (f a) it a1 -> contentFails (decodeOptFields fields a1) l e ->
  contentFails (decodeOptFields (f :: fields) a) (it :: l) e.
Proof.
  intros Hd Hf s r' Hs. rewrite rlp_encs_cons in Hs.
  destruct (Hd s _ (ready_left _ _ _ _ Hs)) as (s1 & HD & Ha).
  destruct (Hf s1 r' (ready_app _ _ _ _ _ Hs Ha)) as [s2 HF]. exists s2. cbn [decodeOptFields].
  by erewrite bind_Ok by (by apply attempt_Ok).
Qed.

Lemma fields_fail {A B} (dec : M Stream A) (f : A -> M Stream B) it l e :
  failsT dec it e -> e <> EOL -> contentFails (bindM (field dec) f) (it :: l) e.
Proof.
  intros Hf He s r' Hs. rewrite rlp_encs_cons in Hs.
  destruct (Hf s _ (ready_left _ _ _ _ Hs)) as [s' HD]. exists s'. apply bind_Err.
  unfold field, rethrow. erewrite bind_Ok by (by apply attempt_Err). cbv beta iota. by rewrite bool_decide_eq_false_2.
Qed.

Lemma fields_fail_later {A B} (dec : M Stream A) (f : A -> M Stream B) it l a e :
  decodesT dec it a -> contentFails (f a) l e -> contentFails (bindM (field dec) f) (it :: l) e.
Proof.
  intros Hd Hf s r' Hs. rewrite rlp_encs_cons in Hs.
  destruct (Hd s _ (ready_left _ _ _ _ Hs)) as (s1 & HD & Ha).
  destruct (Hf s1 r' (ready_app _ _ _ _ _ Hs Ha)) as [s2 HF]. exists s2.
  by erewrite bind_Ok by (by apply rethrow_Ok).
Qed.

Lemma failsT_struct {A} (dec : M Stream A) l e :
  contentFails dec l e -> failsT (decodeStruct dec) (Lst l) e.
Proof.
  intros Hf s r' Hs. destruct (List_opens l r' s Hs) as (s1 & HL & Hready & _).
  destruct (Hf _ _ Hready) as [s2 HD]. exists s2. unfold decodeStruct.
  erewrite bind_Ok by done. by apply bind_Err.
Qed.

Lemma failsT_DecodeBytes {A} (dec : M Stream A) it e :
  failsT dec it e -> Z.of_nat (length (rlp_enc it)) <= 2 ^ 48 -> DecodeBytesT dec (rlp_enc it) = Err e.
Proof.
  intros Hf Hl. destruct (Reset_wf _ Hl) as [Hw _]. unfold DecodeBytesT.
  destruct (Hf (Reset (rlp_enc it) (Z.of_nat (length (rlp_enc it)))) []) as [s' ->]; [|done].
  constructor; [done|done|cbn; by rewrite app_nil_r| |done].
  destruct Hw as [_ Hr _ _]. cbn in Hr. split; [|done]. cbn. rewrite Hr. lia.
Qed.

Lemma failsT_ByteArray_empty n : 0 < n -> failsT (decodeByteArray n) (Str []) errTooShort.
Proof.
  intros Hn s r' Hs. destruct (Str_kind [] r' s Hs) as [s1 [b s2 Hbs|s2 Hb HK _ _ _ _ _ _]]; [done|].
  exists s2. unfold decodeByteArray. rewrite (bind_Ok _ _ _ _ _ HK). change (Z.of_nat (length [])) with 0. cbv beta iota.
  by rewrite (proj2 (Z.ltb_ge n 0)), (proj2 (Z.ltb_lt 0 n)) by lia.
Qed.
