(* ===== verification/Crypto.v ===== *)
(** Addresses, hashes and signatures (common/types.go, crypto/crypto.go,
    crypto/signature_cgo.go).

    Keccak-256 (golang.org/x/crypto/sha3) and the secp256k1 primitives
    (github.com/ethereum/go-ethereum/crypto/secp256k1) are third-party code: they
    are the fields of the class [Crypto], and what the code relies on are its
    laws. *)
From stdpp Require Import prelude list strings.
From Stdlib Require Import ZArith Lia Ascii.
From S2P Require Import Prelude VarBytes RLP.
Local Open Scope Z_scope.

Class Crypto := {
  keccak256 : bytes -> bytes;
  keccak256_length : forall b, length (keccak256 b) = 32%nat;
  RecoverPubkey : bytes -> bytes -> outcome bytes;
  RecoverPubkey_returns : forall m s, returned (RecoverPubkey m s);
  secp256k1_Sign : bytes -> bytes -> outcome bytes;
  elliptic_Unmarshal : bytes -> option (Z * Z) }.

(** ** Byte strings as addresses and hashes *)

(** [SetBytes]: crop from the left, copy right-aligned. *)
Definition BytesToAddress (b : bytes) : address := be_value (drop (length b - 20) b).
Definition BytesToHash (b : bytes) : hash := be_value (drop (length b - 32) b).
Definition BigToAddress (b : Z) : address := BytesToAddress (big_bytes b).
Definition BigToHash (b : Z) : hash := BytesToHash (big_bytes b).

(** [LeftPadBytes] and [RightPadBytes]. *)
Definition LeftPadBytes (slice : bytes) (l : Z) : bytes :=
  if l <=? Z.of_nat (length slice) then slice
  else replicate (Z.to_nat l - length slice) Byte.x00 ++ slice.
Definition RightPadBytes (slice : bytes) (l : Z) : bytes :=
  if l <=? Z.of_nat (length slice) then slice
  else slice ++ replicate (Z.to_nat l - length slice) Byte.x00.

(** [big.Int.FillBytes] panics when the value does not fit the buffer. *)
Definition FillBytes (z : Z) (n : nat) : outcome bytes :=
  if (length (big_bytes z) <=? n)%nat
  then Ok (replicate (n - length (big_bytes z)) Byte.x00 ++ big_bytes z)
  else Panic "math/big: buffer too small to fit value".

Lemma length_hash_bytes h : length (hash_bytes h) = 32%nat.
Proof. unfold hash_bytes. by rewrite length_reverse, length_put_le. Qed.

Lemma BytesToHash_hash_bytes h : wf_hash h -> BytesToHash (hash_bytes h) = h.
Proof.
  intros Hh. unfold BytesToHash, hash_bytes, be_value. rewrite length_reverse, length_put_le, drop_0, reverse_involutive, get_put_le.
  apply Z.mod_small. exact Hh.
Qed.

Lemma hash_bytes_inj h1 h2 : wf_hash h1 -> wf_hash h2 -> hash_bytes h1 = hash_bytes h2 -> h1 = h2.
Proof. intros H1 H2 E. rewrite <- (BytesToHash_hash_bytes h1), <- (BytesToHash_hash_bytes h2) by done. by rewrite E. Qed.

Lemma hash_bytes_BytesToHash b : length b = 32%nat -> hash_bytes (BytesToHash b) = b.
Proof.
  intros Hb. unfold hash_bytes, BytesToHash, be_value. rewrite Hb, Nat.sub_diag, drop_0.
  rewrite <- Hb, <- (length_reverse b), put_get_le. apply reverse_involutive.
Qed.

Lemma wf_BytesToHash b : length b = 32%nat -> wf_hash (BytesToHash b).
Proof. intros Hb. unfold BytesToHash. rewrite Hb, drop_0. pose proof (be_value_range b) as Hr. rewrite Hb in Hr. exact Hr. Qed.

(** ** Hexadecimal text *)

Definition hex_digit (n : Z) : ascii :=
  ascii_of_N (Z.to_N (if n <? 10 then 48 + n else 87 + n)).

Definition hex_chars (b : bytes) : list ascii :=
  flat_map (fun x => [hex_digit (b2z x / 16); hex_digit (b2z x mod 16)]) b.

Definition EncodeToString (b : bytes) : string := String.string_of_list_ascii (hex_chars b).

(** The bytes of an ASCII string. *)
Definition string_bytes (s : string) : bytes :=
  (fun c => z2b (Z.of_N (N_of_ascii c))) <$> String.list_ascii_of_string s.

(** [Hex]: EIP-55 checksummed text, the hash of the text choosing the case. *)
Definition checksum_nibble (hash : bytes) (i : nat) : Z :=
  let hashByte := b2z (nth (i / 2) hash Byte.x00) in
  if Nat.even i then Z.shiftr hashByte 4 else Z.land hashByte 15.

Definition checksum_char (hash : bytes) (i : nat) (c : ascii) : ascii :=
  if (Z.of_N (N_of_ascii "9") <? Z.of_N (N_of_ascii c)) && (7 <? checksum_nibble hash i)
  then ascii_of_N (N_of_ascii c - 32) else c.

Section Crypto.
Context {crypto : Crypto}.

Definition Address_Hex (a : address) : string :=
  let unchecksummed := EncodeToString (addr_bytes a) in
  let hash := keccak256 (string_bytes unchecksummed) in
  ("0x" +:+ String.string_of_list_ascii
     (imap (checksum_char hash) (String.list_ascii_of_string unchecksummed)))%string.

Definition Keccak256Hash (data : bytes) : hash := be_value (keccak256 data).

(** [CreateAddress] and [CreateAddress2]: addresses of created contracts. *)
Definition CreateAddress (b : address) (nonce : Z) : address :=
  let data := EncodeToBytes (Lst [Str (addr_bytes b); uint_item nonce]) in
  BytesToAddress (drop 12 (keccak256 data)).

Definition CreateAddress2 (b : address) (salt : hash) (inithash : bytes) : address :=
  BytesToAddress (drop 12
    (keccak256 (Byte.xff :: addr_bytes b ++ hash_bytes salt ++ inithash))).

(** ** Signatures *)

Definition secp256k1N : Z := 0xfffffffffffffffffffffffffffffffebaaedce6af48a03bbfd25e8cd0364141.
Definition secp256k1halfN : Z := secp256k1N / 2.
Definition SignatureLength : nat := 65.

Definition ValidateSignatureValues (v r s : Z) (homestead : bool) : bool :=
  if (r <? 1) || (s <? 1) then false
  else if homestead && (secp256k1halfN <? s) then false
  else (r <? secp256k1N) && (s <? secp256k1N) && ((v =? 0) || (v =? 1)).

Definition Ecrecover (hash sig : bytes) : outcome bytes := RecoverPubkey hash sig.

(** A public key is the pair of its coordinates, absent when [Unmarshal]
    rejected the bytes. *)
Definition SigToPub (hash sig : bytes) : outcome (option (Z * Z)) :=
  (s ← Ecrecover hash sig; Ok (elliptic_Unmarshal s))%stdpp.

Definition FromECDSAPub (pub : option (Z * Z)) : bytes :=
  match pub with
  | None => []
  | Some (x, y) => Byte.x04 :: reverse (put_le 32 x) ++ reverse (put_le 32 y)
  end.

Definition PubkeyToAddress (p : option (Z * Z)) : outcome address :=
  match FromECDSAPub p with
  | [] => Panic "slice bounds out of range"
  | _ :: rest => Ok (BytesToAddress (drop 12 (keccak256 rest)))
  end.
End Crypto.

(** [strings.EqualFold] on ASCII text. *)
Definition lower_char (c : ascii) : ascii :=
  if (64 <? Z.of_N (N_of_ascii c)) && (Z.of_N (N_of_ascii c) <? 91)
  then ascii_of_N (N_of_ascii c + 32) else c.
Definition EqualFold (s t : string) : bool :=
  bool_decide (lower_char <$> String.list_ascii_of_string s =
               lower_char <$> String.list_ascii_of_string t).

(** ** Hexadecimal text determines the address *)

Definition nibble (n : Z) : Prop := 0 <= n < 16.

Lemma nibble_cases (P : Z -> Prop) :
  Forall P [0;1;2;3;4;5;6;7;8;9;10;11;12;13;14;15] -> forall n, nibble n -> P n.
Proof.
  intros H n Hn. unfold nibble in Hn. rewrite Forall_forall in H. apply H. set_unfold. lia.
Qed.

Lemma hex_digit_inj n m : nibble n -> nibble m -> hex_digit n = hex_digit m -> n = m.
Proof.
  intros Hn Hm. revert m Hm. pattern n. apply nibble_cases; [|done].
  repeat constructor; intros m Hm; pattern m; apply nibble_cases; try done;
    repeat constructor; by vm_compute.
Qed.

Lemma byte_nibbles x : nibble (b2z x / 16) /\ nibble (b2z x mod 16).
Proof.
  pose proof (b2z_range x). unfold nibble. split; [|apply Z.mod_pos_bound; lia].
  split; [apply Z.div_pos; lia|apply Z.div_lt_upper_bound; lia].
Qed.

Lemma hex_chars_inj b1 : forall b2, hex_chars b1 = hex_chars b2 -> b1 = b2.
Proof.
  induction b1 as [|x b1 IH]; intros [|y b2] H; try done. cbn in H.
  injection H as H1 H2 H3. apply IH in H3 as ->. f_equal.
  destruct (byte_nibbles x), (byte_nibbles y).
  apply hex_digit_inj in H1; [|done..]. apply hex_digit_inj in H2; [|done..].
  rewrite <- (z2b_b2z x), <- (z2b_b2z y).
  by rewrite (Z.div_mod (b2z x) 16), (Z.div_mod (b2z y) 16), H1, H2 by lia.
Qed.

Lemma lower_checksum h i n :
  nibble n -> lower_char (checksum_char h i (hex_digit n)) = hex_digit n.
Proof.
  intros Hn. unfold checksum_char. destruct (7 <? checksum_nibble h i); rewrite ?andb_true_r, ?andb_false_r;
    pattern n; (apply nibble_cases; [|done]); repeat constructor.
Qed.

Lemma lower_hex h b : forall i,
  lower_char <$> imap (fun j => checksum_char h (i + j)%nat) (hex_chars b) = hex_chars b.
Proof.
  induction b as [|x b IH]; intros i; [done|]. cbn. destruct (byte_nibbles x).
  rewrite !lower_checksum by done. do 2 f_equal. etransitivity; [|apply (IH (S (S i)))].
  f_equal. apply imap_ext. intros j c _. cbn. do 3 f_equal. lia.
Qed.

Lemma ascii_of_string_app s t :
  String.list_ascii_of_string (s +:+ t) = String.list_ascii_of_string s ++ String.list_ascii_of_string t.
Proof. induction s as [|c s IH]; [done|]. exact (f_equal (cons c) IH). Qed.

Lemma lower_Address_Hex `{Crypto} a :
  lower_char <$> String.list_ascii_of_string (Address_Hex a) =
  ["0"; "x"]%char ++ hex_chars (addr_bytes a).
Proof.
  unfold Address_Hex. cbv zeta. rewrite ascii_of_string_app, fmap_app.
  unfold EncodeToString. rewrite !String.list_ascii_of_string_of_list_ascii. f_equal.
  exact (lower_hex _ (addr_bytes a) 0).
Qed.

Lemma addr_bytes_inj a b : wf_address a -> wf_address b -> addr_bytes a = addr_bytes b -> a = b.
Proof. intros Ha Hb E. by rewrite <- (be_value_addr_bytes a), <- (be_value_addr_bytes b), E. Qed.

Lemma EqualFold_Hex `{Crypto} a b :
  wf_address a -> wf_address b ->
  EqualFold (Address_Hex a) (Address_Hex b) = bool_decide (a = b).
Proof.
  intros Ha Hb. unfold EqualFold. rewrite !lower_Address_Hex. apply bool_decide_ext. split; [|by intros ->].
  intros E%app_inv_head. by apply addr_bytes_inj, hex_chars_inj.
Qed.

Lemma Address_Hex_inj `{Crypto} a b :
  wf_address a -> wf_address b -> Address_Hex a = Address_Hex b -> a = b.
Proof.
  intros Ha Hb E. assert (EqualFold (Address_Hex a) (Address_Hex b) = true) as HE.
  { rewrite E. unfold EqualFold. by apply bool_decide_eq_true. }
  rewrite EqualFold_Hex in HE by done. by apply bool_decide_eq_true in HE.
Qed.

(** A concrete instance of the third-party primitives, for witnesses: the digest
    is the value of the input modulo [2^256], the recovered key the signature. *)
Definition sample_crypto : Crypto.
Proof.
  refine {| keccak256 := fun b => reverse (put_le 32 (be_value b));
            RecoverPubkey := fun _ sig => Ok (Byte.x04 :: take 64 sig);
            secp256k1_Sign := fun h _ => Ok (h ++ h ++ [Byte.x00]);
            elliptic_Unmarshal := fun b => Some (be_value (take 32 (drop 1 b)), be_value (drop 33 b)) |}.
  - intros b. by rewrite length_reverse, length_put_le.
  - done.
Defined.
