(* ===== verification/TrieKeys.v ===== *)
(** The three encodings of trie keys (trie/encoding.go): key bytes, hex (a byte per
    nibble and an optional terminator) and compact. *)
From stdpp Require Import prelude list strings.
From Stdlib Require Import ZArith Lia.
From S2P Require Import Prelude Crypto.
Local Open Scope Z_scope.

Definition hasTerm (s : bytes) : bool :=
  match last s with Some b => b2z b =? 16 | None => false end.

(** Two nibbles per byte; an odd number of them indexes past the end. *)
Fixpoint decodeNibbles (nibbles : bytes) : outcome bytes :=
  match nibbles with
  | [] => Ok []
  | [_] => Panic "index out of range"
  | x :: y :: r => (bs ← decodeNibbles r; Ok (z2b (Z.lor (Z.shiftl (b2z x) 4) (b2z y)) :: bs))%stdpp
  end.

Definition hexToCompact (hex : bytes) : outcome bytes :=
  let terminator := if hasTerm hex then 1 else 0 in
  let hex := if hasTerm hex then take (length hex - 1) hex else hex in
  let buf0 := Z.shiftl terminator 5 in
  match hex with
  | h0 :: tl =>
      if Nat.odd (length hex) then
        (bs ← decodeNibbles tl; Ok (z2b (Z.lor (Z.lor buf0 (Z.shiftl 1 4)) (b2z h0)) :: bs))%stdpp
      else (bs ← decodeNibbles hex; Ok (z2b buf0 :: bs))%stdpp
  | [] => (bs ← decodeNibbles hex; Ok (z2b buf0 :: bs))%stdpp
  end.

Fixpoint nibbles_of (str : bytes) : bytes :=
  match str with
  | [] => []
  | b :: str => z2b (b2z b / 16) :: z2b (b2z b mod 16) :: nibbles_of str
  end.

Definition keybytesToHex (str : bytes) : bytes := nibbles_of str ++ [Byte.x10].

Definition compactToHex (compact : bytes) : bytes :=
  match compact with
  | [] => compact
  | _ =>
      let base := keybytesToHex compact in
      let b0 := match base with b :: _ => b2z b | [] => 0 end in
      let base := if b0 <? 2 then take (length base - 1) base else base in
      drop (Z.to_nat (2 - Z.land b0 1)) base
  end.

Definition hexToKeybytes (hex : bytes) : outcome bytes :=
  let hex := if hasTerm hex then take (length hex - 1) hex else hex in
  if Nat.odd (length hex) then Panic "can't convert hex key of odd length" else decodeNibbles hex.

Fixpoint prefixLen (a b : bytes) : nat :=
  match a, b with
  | x :: a, y :: b => if bool_decide (x = y) then S (prefixLen a b) else O
  | _, _ => O
  end.

(** ** Hex keys *)

Definition is_nib (b : Byte.byte) : Prop := b2z b < 16.
Definition nibs (l : bytes) : Prop := Forall is_nib l.
Definition term : Byte.byte := Byte.x10.
(** A path through the trie that ends in a value. *)
Definition full_key (k : bytes) : Prop := exists l, nibs l /\ k = l ++ [term].

Lemma hasTerm_snoc l : hasTerm (l ++ [term]) = true.
Proof. unfold hasTerm. by rewrite last_snoc. Qed.

Lemma nibs_hasTerm l : nibs l -> hasTerm l = false.
Proof.
  intros Hl. unfold hasTerm. destruct (last l) as [b|] eqn:E; [|done].
  apply last_Some_elem_of in E. unfold nibs in Hl. rewrite Forall_forall in Hl. specialize (Hl b E). unfold is_nib in Hl.
  apply Z.eqb_neq. lia.
Qed.

Lemma take_snoc {A} (l : list A) x : take (length (l ++ [x]) - 1) (l ++ [x]) = l.
Proof. rewrite length_app. cbn. replace (length l + 1 - 1)%nat with (length l) by lia. apply take_app_length. Qed.

Lemma nibbles_of_nibs k : nibs (nibbles_of k).
Proof.
  induction k as [|b k IH]; cbn; [constructor|]. destruct (byte_nibbles b) as [H1 H2]. unfold nibble in *.
  repeat constructor; [| |done]; unfold is_nib; rewrite b2z_z2b, Z.mod_small; lia.
Qed.

Lemma length_nibbles_of k : length (nibbles_of k) = (2 * length k)%nat.
Proof. induction k; cbn; lia. Qed.

Lemma keybytesToHex_full k : full_key (keybytesToHex k).
Proof. exists (nibbles_of k). split; [apply nibbles_of_nibs|done]. Qed.

Lemma lor_nibbles x y : nibble x -> nibble y -> Z.lor (Z.shiftl x 4) y = 16 * x + y.
Proof.
  intros Hx Hy. revert y Hy. pattern x. apply nibble_cases; [|done].
  repeat constructor; intros y Hy; pattern y; apply nibble_cases; try done; repeat constructor; by vm_compute.
Qed.

Lemma decodeNibbles_of k : decodeNibbles (nibbles_of k) = Ok k.
Proof.
  induction k as [|b k IH]; [done|]. cbn [nibbles_of decodeNibbles]. rewrite IH. cbn.
  destruct (byte_nibbles b) as [H1 H2]. pose proof (b2z_range b). unfold nibble in *.
  rewrite !b2z_z2b, (Z.mod_small (b2z b / 16)), (Z.mod_small (b2z b mod 16)), lor_nibbles by (unfold nibble; lia).
  by rewrite <- Z.div_mod, z2b_b2z by lia.
Qed.

Lemma is_nib_nibble b : is_nib b -> nibble (b2z b).
Proof. unfold is_nib, nibble. pose proof (b2z_range b). lia. Qed.

(** Packing an even number of nibbles loses nothing. *)
Lemma decodeNibbles_inv l : nibs l -> Nat.even (length l) = true ->
  exists k, decodeNibbles l = Ok k /\ nibbles_of k = l.
Proof.
  induction l as [l IH] using (induction_ltof1 _ length). unfold ltof in IH.
  intros Hl He. destruct l as [|x [|y l]]; [by exists []|done|]. inversion Hl as [|? ? Hx Hl' E1]; subst. inversion Hl' as [|? ? Hy Hl'' E2]; subst.
  destruct (IH l) as (k & Hk & Ek); [cbn; lia|done|by rewrite <- He|]. cbn [decodeNibbles]. rewrite Hk. cbn.
  eexists. split; [done|]. apply is_nib_nibble in Hx, Hy. rewrite lor_nibbles by done. cbn [nibbles_of]. unfold nibble in *.
  rewrite b2z_z2b, (Z.mod_small (16 * _ + _)), Ek by lia. f_equal; [|f_equal].
  - etrans; [|apply z2b_b2z]. f_equal. rewrite <- (Z.div_unique (16 * b2z x + b2z y) 16 (b2z x) (b2z y)); lia.
  - etrans; [|apply z2b_b2z]. f_equal. rewrite <- (Z.mod_unique (16 * b2z x + b2z y) 16 (b2z x) (b2z y)); lia.
Qed.

(** [hexToCompact] never panics. *)
Lemma hexToCompact_returns hex : exists c, hexToCompact hex = Ok c /\ c <> [].
Proof.
  assert (Hd : forall l, Nat.even (length l) = true -> exists bs, decodeNibbles l = Ok bs).
  { intros l. induction l as [l IH] using (induction_ltof1 _ length). unfold ltof in IH. destruct l as [|x [|y l]]; [by eexists|done|].
    intros He. destruct (IH l) as [bs E]; [cbn; lia|done|]. cbn [decodeNibbles]. rewrite E. by eexists. }
  unfold hexToCompact. cbv zeta. destruct (if hasTerm hex then _ else hex) as [|h0 tl]; [by eexists|].
  destruct (Nat.odd (length (h0 :: tl))) eqn:Eo.
  - destruct (Hd tl) as [bs E]; [|rewrite E; by eexists]. cbn [length] in Eo. by rewrite Nat.odd_succ in Eo.
  - destruct (Hd (h0 :: tl)) as [bs E]; [|rewrite E; by eexists]. rewrite <- Nat.negb_odd. by rewrite Eo.
Qed.

Definition hex_path (h : bytes) : Prop := nibs h \/ full_key h.

Lemma compact_body (t : bool) (l : bytes) c : nibs l ->
  hexToCompact (if t then l ++ [term] else l) = Ok c -> compactToHex c = (if t then l ++ [term] else l).
Proof.
  intros Hl. unfold hexToCompact.
  replace (hasTerm (if t then l ++ [term] else l)) with t by (destruct t; [by rewrite hasTerm_snoc|by rewrite nibs_hasTerm]).
  replace (if t then take _ _ else (if t then _ else l)) with l by (destruct t; [by rewrite take_snoc|done]). cbv zeta.
  assert (Hc : forall (f : Z) bs, f < 64 -> 0 <= f -> f / 16 = (if t then 2 else 0) + (if Nat.odd (length l) then 1 else 0) ->
    (if Nat.odd (length l) then [z2b (f mod 16)] else []) ++ nibbles_of bs = l ->
    compactToHex (z2b f :: bs) = (if t then l ++ [term] else l)).
  { intros f bs Hf H0 Hd Hn. unfold compactToHex, keybytesToHex. cbn [nibbles_of app].
    assert (0 <= f / 16 < 4) by (split; [apply Z.div_pos; lia|apply Z.div_lt_upper_bound; lia]).
    cbv zeta. rewrite !b2z_z2b, (Z.mod_small f 256), (Z.mod_small (f / 16)), Hd by lia.
    rewrite !app_comm_cons. destruct t, (Nat.odd (length l)); cbn [Z.add Z.ltb Z.compare Pos.compare Pos.compare_cont];
      rewrite ?take_snoc; cbn; rewrite <- Hn; done. }
  destruct l as [|h0 tl]; [cbn; intros [= <-]; by apply Hc; destruct t|].
  inversion Hl as [|? ? Hh Htl E1]; subst. destruct (Nat.odd (length (h0 :: tl))) eqn:Eo.
  - destruct (decodeNibbles_inv tl) as (k & -> & Ek); [done|cbn in Eo; by rewrite Nat.odd_succ in Eo|]. cbn [mbind outcome_bind]. intros [= <-].
    apply is_nib_nibble in Hh.
    replace (Z.lor (Z.lor (Z.shiftl (if t then 1 else 0) 5) (Z.shiftl 1 4)) (b2z h0)) with ((if t then 48 else 16) + b2z h0).
    2:{ change 48 with (16 * 3). change 16 with (16 * 1) at 1. destruct t;
        [rewrite <- (lor_nibbles 3) by (unfold nibble; (done || lia))|rewrite <- (lor_nibbles 1) by (unfold nibble; (done || lia))]; done. }
    unfold nibble in Hh. apply Hc; [destruct t; lia|destruct t; lia| |].
    + destruct t; [rewrite <- (Z.div_unique (48 + b2z h0) 16 3 (b2z h0)); lia|rewrite <- (Z.div_unique (16 + b2z h0) 16 1 (b2z h0)); lia].
    + rewrite Ek. cbn. f_equal. etrans; [|apply z2b_b2z]. f_equal.
      destruct t; [rewrite <- (Z.mod_unique (48 + b2z h0) 16 3 (b2z h0)); lia|rewrite <- (Z.mod_unique (16 + b2z h0) 16 1 (b2z h0)); lia].
  - destruct (decodeNibbles_inv (h0 :: tl)) as (k & -> & Ek); [done|rewrite <- Nat.negb_odd; by rewrite Eo|]. cbn [mbind outcome_bind]. intros [= <-].
    apply Hc; [by destruct t|by destruct t|by destruct t|by rewrite Ek].
Qed.

Lemma compact_roundtrip h c : hex_path h -> hexToCompact h = Ok c -> compactToHex c = h.
Proof. intros [Hh|(l & Hl & ->)]; [by apply (compact_body false)|by apply (compact_body true)]. Qed.

Lemma hexToKeybytes_of k : hexToKeybytes (keybytesToHex k) = Ok k.
Proof.
  unfold hexToKeybytes, keybytesToHex. rewrite hasTerm_snoc, take_snoc, length_nibbles_of. cbv zeta.
  rewrite Nat.odd_mul. cbn. apply decodeNibbles_of.
Qed.

Lemma keybytesToHex_inj k1 k2 : keybytesToHex k1 = keybytesToHex k2 -> k1 = k2.
Proof. intros E. pose proof (hexToKeybytes_of k1) as H. rewrite E, hexToKeybytes_of in H. by injection H. Qed.

(** trie keys.  Going from key bytes to hex and back, and from any hex path, with
    or without terminator, to its compact form and back, gives the key back. *)
Theorem trie_keys_roundtrip (k h : bytes) :
  hex_path h ->
  hexToKeybytes (keybytesToHex k) = Ok k /\
  exists c, hexToCompact h = Ok c /\ compactToHex c = h.
Proof.
  intros Hh. split; [apply hexToKeybytes_of|]. destruct (hexToCompact_returns h) as (c & Hc & _).
  exists c. split; [done|]. by apply compact_roundtrip.
Qed.

Lemma trie_keys_roundtrip_witness :
  hexToKeybytes (keybytesToHex [Byte.xab; Byte.x01]) = Ok [Byte.xab; Byte.x01] /\
  exists c, hexToCompact [Byte.x0a; Byte.x0b; Byte.x01; Byte.x10] = Ok c /\
    compactToHex c = [Byte.x0a; Byte.x0b; Byte.x01; Byte.x10].
Proof.
  apply trie_keys_roundtrip. right. exists [Byte.x0a; Byte.x0b; Byte.x01]. split; [|done].
  repeat constructor.
Defined.

(** ** Common prefixes *)

Lemma prefixLen_spec a b :
  take (prefixLen a b) a = take (prefixLen a b) b /\
  (prefixLen a b <= length a)%nat /\ (prefixLen a b <= length b)%nat /\
  (forall x y, a !! prefixLen a b = Some x -> b !! prefixLen a b = Some y -> x <> y).
Proof.
  revert b. induction a as [|x a IH]; intros [|y b]; cbn [prefixLen]; [cbn; split_and!; done || lia..|].
  case_bool_decide as E.
  - subst. destruct (IH b) as (H1 & H2 & H3 & H4). cbn. split_and!; [by rewrite H1|lia|lia|done].
  - cbn. split_and!; [done|lia|lia|]. intros ? ? [= ->] [= ->]. done.
Qed.
