(* ===== verification/Trie.v ===== *)
(** Merkle Patricia tries in memory (trie/trie.go, the data of trie/node.go).

    A trie is its root node; subtrees that have not been loaded are hash nodes, which
    [resolveHash] looks up in the node database.  Recursion through such lookups is
    not structural, so the walks take fuel; TrieFacts shows how much is enough. *)
From stdpp Require Import prelude list strings.
From Stdlib Require Import ZArith Lia.
From S2P Require Import Prelude Crypto TrieKeys.
Local Open Scope Z_scope.
#[local] Set Warnings "-register-all".

(** ** Nodes *)

Record nodeFlag := mkFlag { nf_hash : option bytes; nf_dirty : bool }.

Inductive node :=
| nilNode
| fullNode (Children : list node) (flags : nodeFlag)
| shortNode (Key : bytes) (Val : node) (flags : nodeFlag)
| hashNode (h : bytes)
| valueNode (v : bytes).

Definition newFlag : nodeFlag := mkFlag None true.

Definition cache (n : node) : option bytes * bool :=
  match n with
  | fullNode _ fl | shortNode _ _ fl => (nf_hash fl, nf_dirty fl)
  | _ => (None, true)
  end.

Definition emptyChildren : list node := replicate 17 nilNode.

(** The index of a nibble into [Children], out of range past 16. *)
Definition nib (b : Byte.byte) : nat := Z.to_nat (b2z b).

Definition childAt (ch : list node) (i : nat) : outcome node :=
  match ch !! i with Some c => Ok c | None => Panic "index out of range" end.

Definition setChild (i : nat) (c : node) (ch : list node) : outcome (list node) :=
  if decide (i < length ch)%nat then Ok (<[i := c]> ch) else Panic "index out of range".

Definition keyAt (k : bytes) (i : nat) : outcome Byte.byte :=
  match k !! i with Some b => Ok b | None => Panic "index out of range" end.

Definition MissingNodeError (h : hash) (path : bytes) : goerror :=
  ErrNew ("missing trie node " +:+ EncodeToString (hash_bytes h) +:+ " (path " +:+ EncodeToString path +:+ ")").

Section Trie.
(** [db.node]: the expanded node stored under a hash, if there is one. *)
Context (db_node : hash -> option node).

Definition resolveHash (n prefix : bytes) : outcome node :=
  match db_node (BytesToHash n) with
  | Some n' => Ok n'
  | None => Err (MissingNodeError (BytesToHash n) prefix)
  end.

Definition resolve (n : node) (prefix : bytes) : outcome node :=
  match n with hashNode h => resolveHash h prefix | _ => Ok n end.

(** [New] on a database: the empty trie, or the root node. *)
Definition trie_emptyRoot : hash := 0x56e81f171bcc55a6ff8345e692c0f86e5b48e01b996cadc001622fb5e363b421.

Definition trie_New (root : hash) : outcome node :=
  if negb (root =? 0) && negb (root =? trie_emptyRoot) then resolveHash (hash_bytes root) [] else Ok nilNode.

(** ** Lookup *)

(** Value (nil when absent), the node to put in place of the given one, and whether
    a hash node was resolved on the way. *)
Fixpoint tryGet (fuel : nat) (origNode : node) (key : bytes) (pos : nat)
    : outcome (option bytes * node * bool) :=
  match fuel with
  | O => Blocked
  | S fuel =>
      match origNode with
      | nilNode => Ok (None, nilNode, false)
      | valueNode v => Ok (Some v, origNode, false)
      | shortNode nkey val fl =>
          if (length key - pos <? length nkey)%nat ||
             negb (bool_decide (nkey = take (length nkey) (drop pos key)))
          then Ok (None, origNode, false)
          else
            ('(value, newnode, didResolve) ← tryGet fuel val key (pos + length nkey);
             Ok (value, if didResolve : bool then shortNode nkey newnode fl else origNode, didResolve))%stdpp
      | fullNode ch fl =>
          (k ← keyAt key pos;
           c ← childAt ch (nib k);
           '(value, newnode, didResolve) ← tryGet fuel c key (pos + 1);
           if didResolve : bool then (ch' ← setChild (nib k) newnode ch; Ok (value, fullNode ch' fl, true))
           else Ok (value, origNode, false))%stdpp
      | hashNode h =>
          (child ← resolveHash h (take pos key);
           '(value, newnode, _) ← tryGet fuel child key pos;
           Ok (value, newnode, true))%stdpp
      end
  end.

(** Every step but the resolution of a hash consumes a nibble. *)
Definition walk_fuel (key : bytes) : nat := 2 * length key + 2.

Definition trie_TryGet (key : bytes) : M node (option bytes) := fun root =>
  let key := keybytesToHex key in
  match tryGet (walk_fuel key) root key 0 with
  | Ok (value, newroot, didResolve) => (Ok value, if didResolve then newroot else root)
  | Err e => (Err e, root)
  | Panic w => (Panic w, root)
  | Blocked => (Blocked, root)
  end.

(** ** Insertion *)

(** Whether the trie changed, and the node to put in place of [n]. *)
Fixpoint trie_insert (fuel : nat) (n : node) (prefix key : bytes) (value : node) : outcome (bool * node) :=
  match fuel with
  | O => Blocked
  | S fuel =>
      match key with
      | [] =>
          match n with
          | valueNode v =>
              match value with
              | valueNode v' => Ok (negb (bool_decide (v = v')), value)
              | _ => Panic "interface conversion"
              end
          | _ => Ok (true, value)
          end
      | k0 :: ktl =>
          match n with
          | shortNode nkey val fl =>
              let matchlen := prefixLen key nkey in
              if (matchlen =? length nkey)%nat then
                ('(dirty, nn) ← trie_insert fuel val (prefix ++ take matchlen key) (drop matchlen key) value;
                 Ok (if dirty : bool then (true, shortNode nkey nn newFlag) else (false, n)))%stdpp
              else
                (a ← keyAt nkey matchlen;
                 '(_, c1) ← trie_insert fuel nilNode (prefix ++ take (matchlen + 1) nkey) (drop (matchlen + 1) nkey) val;
                 ch ← setChild (nib a) c1 emptyChildren;
                 b ← keyAt key matchlen;
                 '(_, c2) ← trie_insert fuel nilNode (prefix ++ take (matchlen + 1) key) (drop (matchlen + 1) key) value;
                 ch ← setChild (nib b) c2 ch;
                 let branch := fullNode ch newFlag in
                 Ok (true, if (matchlen =? 0)%nat then branch
                           else shortNode (take matchlen key) branch newFlag))%stdpp
          | fullNode ch fl =>
              (c ← childAt ch (nib k0);
               '(dirty, nn) ← trie_insert fuel c (prefix ++ [k0]) ktl value;
               if dirty : bool then (ch' ← setChild (nib k0) nn ch; Ok (true, fullNode ch' newFlag))
               else Ok (false, n))%stdpp
          | nilNode => Ok (true, shortNode key value newFlag)
          | hashNode h =>
              (rn ← resolveHash h prefix;
               '(dirty, nn) ← trie_insert fuel rn prefix key value;
               Ok (if dirty : bool then (true, nn) else (false, rn)))%stdpp
          | valueNode _ => Panic "invalid node"
          end
      end
  end.

(** An empty value is stored like any other. *)
Definition trie_TryUpdate (key value : bytes) : M node unit := fun root =>
  let k := keybytesToHex key in
  match trie_insert (walk_fuel k) root [] k (valueNode value) with
  | Ok (_, n) => (Ok tt, n)
  | Err e => (Err e, root)
  | Panic w => (Panic w, root)
  | Blocked => (Blocked, root)
  end.

(** ** Deletion *)

Definition is_nil (n : node) : bool := match n with nilNode => true | _ => false end.

(** The loop over the children: the index of the only one left, -2 when there are
    two, -1 when there is none. *)
Fixpoint lone_child (ch : list node) (i pos : Z) : Z :=
  match ch with
  | [] => pos
  | cld :: ch =>
      if is_nil cld then lone_child ch (i + 1) pos
      else if pos =? -1 then lone_child ch (i + 1) i
      else -2
  end.

(** What becomes of a full node after one of its children has changed. *)
Definition reduce_full (ch : list node) (prefix : bytes) : outcome (bool * node) :=
  let pos := lone_child ch 0 (-1) in
  if 0 <=? pos then
    (c ← childAt ch (Z.to_nat pos);
     let single := Ok (true, shortNode [z2b pos] c newFlag) in
     if pos =? 16 then single
     else
       cnode ← resolve c prefix;
       match cnode with
       | shortNode ckey cval _ => Ok (true, shortNode (z2b pos :: ckey) cval newFlag)
       | _ => single
       end)%stdpp
  else Ok (true, fullNode ch newFlag).

Fixpoint trie_delete (fuel : nat) (n : node) (prefix key : bytes) : outcome (bool * node) :=
  match fuel with
  | O => Blocked
  | S fuel =>
      match n with
      | shortNode nkey val fl =>
          let matchlen := prefixLen key nkey in
          if (matchlen <? length nkey)%nat then Ok (false, n)
          else if (matchlen =? length key)%nat then Ok (true, nilNode)
          else
            ('(dirty, child) ← trie_delete fuel val (prefix ++ take (length nkey) key) (drop (length nkey) key);
             Ok (if dirty : bool then
                   (true, match child with
                          | shortNode ckey cval _ => shortNode (nkey ++ ckey) cval newFlag
                          | _ => shortNode nkey child newFlag
                          end)
                 else (false, n)))%stdpp
      | fullNode ch fl =>
          (k0 ← keyAt key 0;
           c ← childAt ch (nib k0);
           '(dirty, nn) ← trie_delete fuel c (prefix ++ [k0]) (drop 1 key);
           if dirty : bool then (ch' ← setChild (nib k0) nn ch; reduce_full ch' prefix) else Ok (false, n))%stdpp
      | valueNode _ => Ok (true, nilNode)
      | nilNode => Ok (false, nilNode)
      | hashNode h =>
          (rn ← resolveHash h prefix;
           '(dirty, nn) ← trie_delete fuel rn prefix key;
           Ok (if dirty : bool then (true, nn) else (false, rn)))%stdpp
      end
  end.

Definition trie_TryDelete (key : bytes) : M node unit := fun root =>
  let k := keybytesToHex key in
  match trie_delete (walk_fuel k) root [] k with
  | Ok (_, n) => (Ok tt, n)
  | Err e => (Err e, root)
  | Panic w => (Panic w, root)
  | Blocked => (Blocked, root)
  end.
End Trie.
