(* ===== verification/TrieFacts.v ===== *)
(** What the operations of a trie do to its contents.

    A node stands for a [tree], the trie with every hash node resolved and the caches
    dropped.  Well-formed trees are canonical: no chains of short nodes and no full
    node with one child.  Lookup, insertion and deletion of trie/trie.go keep that form
    and act on the contents as on a finite map; a canonical tree is determined by its
    contents, so a trie does not remember the order in which it was built. *)
From stdpp Require Import prelude list strings.
From Stdlib Require Import ZArith Lia.
From S2P Require Import Prelude Crypto TrieKeys Trie.
Local Open Scope Z_scope.
#[local] Set Warnings "-register-all".

(** ** Trees *)

Inductive tree :=
| TVal (v : bytes)
| TShort (k : bytes) (t : tree)
| TFull (ts : list (option tree)).

Lemma tree_induction (P : tree -> Prop) :
  (forall v, P (TVal v)) -> (forall k t, P t -> P (TShort k t)) ->
  (forall ts, (forall i t, ts !! i = Some (Some t) -> P t) -> P (TFull ts)) -> forall t, P t.
Proof.
  intros Hv Hs Hf. fix IH 1. intros [v|k t|ts]; [apply Hv|apply Hs, IH|]. apply Hf.
  revert ts. fix go 1. intros [|o ts] i t; [destruct i; discriminate|]. destruct i as [|i]; cbn; [|apply go].
  destruct o as [t'|]; [intros [= <-]; apply IH|discriminate].
Qed.

Fixpoint content (t : tree) (key : bytes) : option bytes :=
  match t with
  | TVal v => match key with [] => Some v | _ => None end
  | TShort k t => if bool_decide (take (length k) key = k) then content t (drop (length k) key) else None
  | TFull ts =>
      match key with
      | [] => None
      | x :: key =>
          (fix go (ts : list (option tree)) (i : nat) : option bytes :=
             match ts, i with
             | [], _ => None
             | o :: _, O => match o with Some t => content t key | None => None end
             | _ :: ts, S i => go ts i
             end) ts (nib x)
      end
  end.

Definition contents (ot : option tree) (key : bytes) : option bytes :=
  match ot with Some t => content t key | None => None end.

Lemma content_full ts x key :
  content (TFull ts) (x :: key) = match ts !! nib x with Some o => contents o key | None => None end.
Proof.
  cbn [content]. generalize (nib x) as i. induction ts as [|o ts IH]; intros i; [done|].
  destruct i as [|i]; [by destruct o|apply IH].
Qed.

Lemma nib_inj x y : nib x = nib y -> x = y.
Proof.
  unfold nib. intros H. pose proof (b2z_range x). pose proof (b2z_range y).
  rewrite <- (z2b_b2z x), <- (z2b_b2z y). f_equal. lia.
Qed.

Lemma nib_is_nib x : is_nib x <-> (nib x < 16)%nat.
Proof. unfold is_nib, nib. pose proof (b2z_range x). lia. Qed.

Lemma nib_term : nib term = 16%nat.
Proof. done. Qed.

Lemma nib_z2b (i : nat) : (i < 256)%nat -> nib (z2b (Z.of_nat i)) = i.
Proof. intros Hi. unfold nib. rewrite b2z_z2b, Z.mod_small; lia. Qed.

(** *** Keys *)

Lemma full_key_nonempty k : full_key k -> k <> [].
Proof. intros (l & _ & ->). by destruct l. Qed.

Lemma full_key_cons x k :
  full_key (x :: k) <-> (is_nib x /\ full_key k) \/ (x = term /\ k = []).
Proof.
  split.
  - intros ([|y l] & Hl & E); [right; by injection E as -> ->|]. injection E as -> ->.
    inversion Hl; subst. left. split; [done|]. by exists l.
  - intros [[Hx (l & Hl & ->)]|[-> ->]]; [exists (x :: l); split; [by constructor|done]|exists []; by split; [constructor|]].
Qed.

Lemma full_key_app p k : nibs p -> full_key (p ++ k) <-> full_key k.
Proof.
  intros Hp. induction p as [|x p IH]; [done|]. inversion Hp as [|? ? Hx Hp']; subst. cbn [app].
  rewrite full_key_cons, IH by done. split; [|by left].
  intros [[_ H]|[-> _]]; [done|]. unfold is_nib in Hx. by vm_compute in Hx.
Qed.

Lemma full_key_prefix k1 k2 : full_key k1 -> full_key (k1 ++ k2) -> k2 = [].
Proof.
  intros (l & Hl & ->). rewrite <- app_assoc, full_key_app by done. cbn. rewrite full_key_cons.
  intros [[Hx _]|[_ ->]]; [by vm_compute in Hx|done].
Qed.

(** *** Canonical form *)

Definition two (ts : list (option tree)) : Prop :=
  exists i j ti tj, i <> j /\ ts !! i = Some (Some ti) /\ ts !! j = Some (Some tj).

Inductive canon : tree -> Prop :=
| canon_leaf k v : full_key k -> canon (TShort k (TVal v))
| canon_ext k ts : nibs k -> k <> [] -> canon (TFull ts) -> canon (TShort k (TFull ts))
| canon_full ts :
    length ts = 17%nat ->
    (forall i t, (i < 16)%nat -> ts !! i = Some (Some t) -> canon t) ->
    (forall t, ts !! 16%nat = Some (Some t) -> exists v, t = TVal v) ->
    two ts -> canon (TFull ts).

(** A subtree where the rest of the key is [key]. *)
Definition at_pos (ot : option tree) (key : bytes) : Prop :=
  (key = [] /\ (ot = None \/ exists v, ot = Some (TVal v))) \/
  (full_key key /\ forall t, ot = Some t -> canon t).

Lemma at_pos_full ot key : full_key key -> at_pos ot key -> forall t, ot = Some t -> canon t.
Proof. intros Hk [[-> _]|[_ H]]; [by apply full_key_nonempty in Hk|done]. Qed.

Lemma at_pos_nil ot : at_pos ot [] -> ot = None \/ exists v, ot = Some (TVal v).
Proof. intros [[_ H]|[H _]]; [done|by apply full_key_nonempty in H]. Qed.

Lemma at_pos_value v key : at_pos (Some (TVal v)) key -> key = [].
Proof. intros [[-> _]|[_ H]]; [done|]. specialize (H _ eq_refl). inversion H. Qed.

Lemma at_pos_tree t key : at_pos (Some t) key -> (forall v, t <> TVal v) -> full_key key /\ canon t.
Proof. intros [[_ [?|[v ?]]]|[H1 H2]] Hne; [done|exfalso; simplify_eq; by eapply Hne|]. split; [done|by apply H2]. Qed.

(** Below a short node. *)
Lemma canon_short k t key :
  canon (TShort k t) -> full_key (k ++ key) -> at_pos (Some t) key.
Proof.
  intros Hc Hk. inversion Hc as [? v Hf|? ts Hn Hne Hts|]; subst.
  - left. split; [by eapply full_key_prefix|]. right. by exists v.
  - right. apply full_key_app in Hk; [|done]. split; [done|]. by intros ? [= <-].
Qed.

Lemma canon_short_nonempty k t : canon (TShort k t) -> k <> [].
Proof. inversion 1; subst; [by apply full_key_nonempty|done]. Qed.

(** The child of a full node that a key leads to. *)
Lemma canon_child ts x k :
  canon (TFull ts) -> full_key (x :: k) -> exists o, ts !! nib x = Some o /\ at_pos o k.
Proof.
  intros Hc Hk. inversion Hc as [| |? Hlen Hch Hval _]; subst. apply full_key_cons in Hk as [[Hx Hk]|[-> ->]].
  - apply nib_is_nib in Hx. destruct (lookup_lt_is_Some_2 ts (nib x)) as [o Ho]; [lia|]. exists o. split; [done|].
    right. split; [done|]. intros t ->. by eapply Hch.
  - rewrite nib_term. destruct (lookup_lt_is_Some_2 ts 16) as [o Ho]; [lia|]. exists o. split; [done|]. left. split; [done|].
    destruct o as [t|]; [|by left]. destruct (Hval t Ho) as [v ->]. right. by exists v.
Qed.

Section Loads.
Context (db_node : hash -> option node).

(** What is known of the flags of a node, and of a hash, that stand for a tree, at the
    root or below.  Nothing needs to be known of a new flag. *)
Context (okf : bool -> nodeFlag -> tree -> Prop) (okh : bool -> bytes -> tree -> Prop).
Hypothesis okf_new : forall root t, okf root newFlag t.

Definition is_hash (n : node) : bool := match n with hashNode _ => true | _ => false end.

(** What the database returns for a hash is a short or a full node. *)
Definition stored (n : node) : Prop :=
  match n with shortNode _ _ _ | fullNode _ _ => True | _ => False end.

(** [loads root n ot]: with all hashes resolved, [n] is the tree [ot]. *)
Inductive loads (root : bool) : node -> option tree -> Prop :=
| loads_nil : loads root nilNode None
| loads_value v : loads root (valueNode v) (Some (TVal v))
| loads_short k n fl t :
    okf root fl (TShort k t) -> loads false n (Some t) -> loads root (shortNode k n fl) (Some (TShort k t))
| loads_full ch fl ts :
    okf root fl (TFull ts) -> Forall2 (loads false) ch ts -> loads root (fullNode ch fl) (Some (TFull ts))
| loads_hash h n t :
    okh root h t -> db_node (BytesToHash h) = Some n -> stored n -> loads root n (Some t) ->
    loads root (hashNode h) (Some t).

Definition need (n : node) (key : bytes) : nat := 2 * length key + (if is_hash n then 2 else 1).

Lemma need_le n key : (need n key <= 2 * length key + 2)%nat.
Proof. unfold need. destruct (is_hash n); lia. Qed.

Lemma stored_not_hash n : stored n -> is_hash n = false.
Proof. by destruct n. Qed.

Lemma setChild_ok ch ts i c o :
  Forall2 (loads false) ch ts -> loads false c o -> (i < length ts)%nat ->
  setChild i c ch = Ok (<[i := c]> ch) /\ Forall2 (loads false) (<[i := c]> ch) (<[i := o]> ts).
Proof.
  intros Hf Hc Hi. pose proof (Forall2_length _ _ _ Hf) as Hl. unfold setChild. rewrite decide_True by lia. split; [done|].
  by apply Forall2_insert.
Qed.

Lemma childAt_ok ch ts i o :
  Forall2 (loads false) ch ts -> ts !! i = Some o -> exists c, ch !! i = Some c /\ childAt ch i = Ok c /\ loads false c o.
Proof.
  intros Hf Ho. destruct (Forall2_lookup_r _ _ _ _ _ Hf Ho) as (c & Hc & Hl). exists c. unfold childAt. by rewrite Hc.
Qed.

(** *** Lookup *)

Lemma tryGet_ok fuel : forall root n ot key pos,
  loads root n ot -> (pos <= length key)%nat -> at_pos ot (drop pos key) -> (need n (drop pos key) <= fuel)%nat ->
  exists n' res, tryGet db_node fuel n key pos = Ok (contents ot (drop pos key), n', res) /\ loads root n' ot.
Proof.
  induction fuel as [|fuel IH]; intros root n ot key pos Hn Hpos Hat Hf; [unfold need in Hf; destruct (is_hash n); lia|].
  destruct Hn as [|v|k n fl t Hfl Hn|ch fl ts Hfl Hch|h n t Hh Hdb Hst Hn]; cbn [tryGet].
  - do 2 eexists. split; [done|constructor].
  - apply at_pos_value in Hat as ->. do 2 eexists. split; [done|constructor].
  - apply at_pos_tree in Hat as [Hk Hc]; [|done]. cbn [contents content].
    rewrite (bool_decide_ext (k = _) (take (length k) (drop pos key) = k)) by (split; intros E0; symmetry; exact E0).
    case_bool_decide as E; cbn [negb]; rewrite ?orb_true_r, ?orb_false_r; [|do 2 eexists; split; [done|by constructor]].
    destruct (Nat.ltb_spec (length key - pos) (length k)) as [Hlt|Hge].
    { apply (f_equal length) in E. rewrite length_take, length_drop in E. lia. }
    assert (Hd : drop pos key = k ++ drop (length k) (drop pos key)) by (rewrite <- E at 1; by rewrite take_drop).
    rewrite drop_drop in *. pose proof (canon_short_nonempty _ _ Hc) as Hne.
    destruct (IH false n (Some t) key (pos + length k)%nat) as (n' & res & Hg & Hl); [done|lia| | |].
    + eapply canon_short; [exact Hc|]. by rewrite <- Hd.
    + pose proof (need_le n (drop (pos + length k) key)). unfold need in Hf. cbn [is_hash] in Hf.
      destruct k; [done|]. cbn [length] in *. rewrite !length_drop in *. lia.
    + rewrite Hg. cbn. do 2 eexists. split; [done|]. destruct res; by constructor.
  - apply at_pos_tree in Hat as [Hk Hc]; [|done]. destruct (drop pos key) as [|x k] eqn:Ek; [by apply full_key_nonempty in Hk|].
    assert (Hx : key !! pos = Some x) by (rewrite <- (Nat.add_0_r pos), <- lookup_drop, Ek; done).
    assert (Hk1 : drop (pos + 1) key = k) by (rewrite <- drop_drop, Ek; done).
    destruct (canon_child ts x k Hc Hk) as (o & Ho & Hat). unfold keyAt. rewrite Hx. cbn [mbind outcome_bind].
    destruct (childAt_ok ch ts (nib x) o Hch Ho) as (c & Hc' & -> & Hlc). cbn [mbind outcome_bind].
    destruct (IH false c o key (pos + 1)%nat) as (n' & res & Hg & Hl); [done|apply lookup_lt_Some in Hx; lia|by rewrite Hk1| |].
    { rewrite Hk1. pose proof (need_le c k). unfold need in Hf. cbn [is_hash length] in Hf. lia. }
    rewrite Hg. cbn [mbind outcome_bind contents]. rewrite content_full, Ho, Hk1.
    destruct res; [|do 2 eexists; split; [done|by constructor]].
    destruct (setChild_ok ch ts (nib x) n' o Hch Hl) as [-> Hch']; [by eapply lookup_lt_Some|]. cbn.
    do 2 eexists. split; [done|]. constructor; [done|]. by rewrite (list_insert_id ts) in Hch'.
  - unfold resolveHash. rewrite Hdb. cbn [mbind outcome_bind].
    destruct (IH root n (Some t) key pos) as (n' & res & Hg & Hl); [done|done|done| |].
    { unfold need in *. rewrite (stored_not_hash n Hst). cbn [is_hash] in Hf. lia. }
    rewrite Hg. cbn. by do 2 eexists.
Qed.

(** *** Insertion *)

Definition is_full (t : tree) : Prop := match t with TFull _ => True | _ => False end.

(** [t'] is [ot] with [v] at [key]. *)
Record upd (ot : option tree) (key v : bytes) (t' : tree) : Prop := {
  upd_pos : at_pos (Some t') key;
  upd_content : forall k, content t' k = if decide (k = key) then Some v else contents ot k;
  upd_full : forall t, ot = Some t -> is_full t -> is_full t' }.

Lemma insert_nil fuel prefix key value :
  trie_insert db_node (S fuel) nilNode prefix key value =
    Ok (true, match key with [] => value | _ => shortNode key value newFlag end).
Proof. by destruct key. Qed.

(** The subtree left of a key of which all has been consumed, or more is to come. *)
Definition hang (key : bytes) (t : tree) : tree := match key with [] => t | _ => TShort key t end.

Lemma loads_hang key n t :
  loads false n (Some t) -> loads false (match key with [] => n | _ => shortNode key n newFlag end) (Some (hang key t)).
Proof. intros H. destruct key; [done|by constructor]. Qed.

Lemma content_hang key t k :
  content (hang key t) k = if bool_decide (take (length key) k = key) then content t (drop (length key) k) else None.
Proof. destruct key; [by rewrite bool_decide_true|done]. Qed.

Lemma take_length_app_iff (p k : bytes) : take (length p) k = p <-> exists k', k = p ++ k'.
Proof.
  split; [intros <-; exists (drop (length p) k); by rewrite take_drop|]. intros (k' & ->). by rewrite take_app_length.
Qed.

Lemma content_short_app p t k : content (TShort p t) (p ++ k) = content t k.
Proof. cbn. rewrite take_app_length, drop_app_length. by rewrite bool_decide_true. Qed.

Lemma content_leaf k v : content (TShort k (TVal v)) k = Some v.
Proof. rewrite <- (app_nil_r k) at 2. by rewrite content_short_app. Qed.

Lemma content_short_other p t k : (forall k', k <> p ++ k') -> content (TShort p t) k = None.
Proof.
  intros H. cbn. rewrite bool_decide_false; [done|]. rewrite take_length_app_iff. intros (k' & ->). by apply (H k').
Qed.

(** The branch that replaces a short node at the point where two keys part. *)
Definition branch (a b : Byte.byte) (ta tb : tree) : list (option tree) :=
  <[nib b := Some tb]> (<[nib a := Some ta]> (replicate 17 None)).

Lemma branch_lookup a b ta tb i : (nib a < 17)%nat -> (nib b < 17)%nat -> a <> b ->
  branch a b ta tb !! i =
    if decide (i = nib b) then Some (Some tb) else if decide (i = nib a) then Some (Some ta)
    else if decide (i < 17)%nat then Some None else None.
Proof.
  intros Ha Hb Hne. unfold branch.
  destruct (decide (i = nib b)) as [->|Hb']; [by rewrite list_lookup_insert_eq by (by rewrite length_insert, length_replicate)|].
  rewrite list_lookup_insert_ne by done.
  destruct (decide (i = nib a)) as [->|Ha']; [by rewrite list_lookup_insert_eq by (by rewrite length_replicate)|].
  rewrite list_lookup_insert_ne by done. destruct (decide (i < 17)%nat); [by rewrite lookup_replicate_2|].
  apply lookup_ge_None_2. rewrite length_replicate. lia.
Qed.

(** A child below index [x] of a new branch. *)
Definition child_ok (x : Byte.byte) (t : tree) : Prop :=
  (is_nib x /\ canon t) \/ (x = term /\ exists v, t = TVal v).

Lemma child_ok_lt x t : child_ok x t -> (nib x < 17)%nat.
Proof. intros [[H _]|[-> _]]; [apply nib_is_nib in H; lia|rewrite nib_term; lia]. Qed.

Lemma canon_branch a b ta tb :
  a <> b -> child_ok a ta -> child_ok b tb -> canon (TFull (branch a b ta tb)).
Proof.
  intros Hne Ha Hb. pose proof (child_ok_lt _ _ Ha) as La. pose proof (child_ok_lt _ _ Hb) as Lb.
  assert (Hlk : forall x t i, child_ok x t -> i = nib x -> ((i < 16)%nat -> canon t) /\ (i = 16%nat -> exists v, t = TVal v)).
  { intros x t i [[H1 H2]|[-> H]] ->; [apply nib_is_nib in H1; split; [done|lia]|rewrite nib_term; split; [lia|done]]. }
  constructor; [by unfold branch; rewrite !length_insert| | |].
  - intros i t Hi. rewrite branch_lookup by done. repeat destruct (decide _); intros [= <-]; [eapply (Hlk b)|eapply (Hlk a)]; done.
  - intros t. rewrite branch_lookup by done. repeat destruct (decide _); intros [= <-]; [eapply (Hlk b)|eapply (Hlk a)]; done.
  - exists (nib b), (nib a), tb, ta. rewrite !branch_lookup by done. split; [intros E; apply nib_inj in E; done|].
    rewrite decide_True by done. split; [done|]. rewrite decide_False, decide_True by (done || intros E; apply nib_inj in E; done). done.
Qed.

Lemma full_key_split p x k : full_key (p ++ x :: k) -> nibs p /\ full_key (x :: k).
Proof.
  intros H. enough (nibs p) by (by rewrite full_key_app in H). destruct H as (l & Hl & E).
  destruct (exists_last (l:=x :: k)) as (k' & y & E2); [done|]. rewrite E2, app_assoc in E.
  apply app_inj_tail in E as [<- _]. by apply Forall_app in Hl as [? _].
Qed.

Lemma content_hang_app p q t k : content (hang (p ++ q) t) (p ++ k) = content (hang q t) k.
Proof.
  rewrite !content_hang. rewrite length_app, take_app_add, drop_app_add.
  apply (f_equal (fun b : bool => if b then _ else _)). apply bool_decide_ext.
  split; [by intros ?%app_inv_head|by intros ->].
Qed.

Lemma content_hang_self p t k : content (hang p t) (p ++ k) = content t k.
Proof. rewrite <- (app_nil_r p) at 1. apply content_hang_app. Qed.

Lemma content_hang_none p t k : (forall k', k <> p ++ k') -> content (hang p t) k = None.
Proof.
  intros H. rewrite content_hang, bool_decide_false; [done|]. rewrite take_length_app_iff. intros (k' & ->). by apply (H k').
Qed.

Lemma content_hang_value p v k : content (hang p (TVal v)) k = if decide (k = p) then Some v else None.
Proof.
  rewrite content_hang. case_bool_decide as E.
  - apply take_length_app_iff in E as (k' & ->). rewrite drop_app_length. cbn.
    destruct k' as [|x k']; [rewrite app_nil_r; by rewrite decide_True|rewrite decide_False; [done|]].
    intros E%(f_equal length). rewrite length_app in E. cbn in E. lia.
  - rewrite decide_False; [done|]. intros ->. apply E. by rewrite firstn_all.
Qed.

Lemma child_ok_rest p x q t : canon (hang (p ++ x :: q) t) -> child_ok x (hang q t).
Proof.
  intros Hc. assert (E : hang (p ++ x :: q) t = TShort (p ++ x :: q) t) by (by destruct p). rewrite E in Hc.
  inversion Hc as [? v Hf|? ts Hn _ Hts|]; subst.
  - apply full_key_split in Hf as [_ Hf]. apply full_key_cons in Hf as [[Hx Hf]|[-> ->]]; [left|right; split; [done|by exists v]].
    split; [done|]. pose proof (full_key_nonempty _ Hf). destruct q; [done|by constructor].
  - left. apply Forall_app in Hn as [_ Hn]. apply Forall_cons in Hn as [Hx Hn]. split; [done|].
    destruct q; [done|by constructor].
Qed.

(** Splitting a short node. *)
Lemma upd_split p a b nk key t v :
  canon (TShort (p ++ a :: nk) t) -> full_key (p ++ b :: key) -> a <> b ->
  upd (Some (TShort (p ++ a :: nk) t)) (p ++ b :: key) v
    (hang p (TFull (branch a b (hang nk t) (hang key (TVal v))))).
Proof.
  intros Hc Hk Hne. assert (E : TShort (p ++ a :: nk) t = hang (p ++ a :: nk) t) by (by destruct p). rewrite E in *.
  pose proof (child_ok_rest _ _ _ _ Hc) as Ha.
  assert (Hb : child_ok b (hang key (TVal v))).
  { apply (child_ok_rest p). replace (hang (p ++ b :: key) (TVal v)) with (TShort (p ++ b :: key) (TVal v)) by (by destruct p).
    by constructor. }
  pose proof (child_ok_lt _ _ Ha) as La. pose proof (child_ok_lt _ _ Hb) as Lb.
  pose proof (full_key_split _ _ _ Hk) as [Hp _]. constructor.
  - right. split; [done|]. intros ? [= <-]. destruct p; [by apply canon_branch|].
    constructor; [done|done|by apply canon_branch].
  - intros k. cbn [contents]. destruct (decide (take (length p) k = p)) as [Hk1|Hno]; rewrite take_length_app_iff in *.
    + destruct Hk1 as (k1 & ->). rewrite content_hang_self, content_hang_app. destruct k1 as [|x k1].
      { rewrite decide_False by (by intros ?%app_inv_head). by rewrite content_hang_none by done. }
      rewrite content_full, branch_lookup by done.
      destruct (decide (nib x = nib b)) as [->%nib_inj|Hxb].
      { cbn [contents]. rewrite content_hang_value. destruct (decide (k1 = key)) as [->|Hk1]; [by rewrite decide_True|].
        rewrite decide_False by (intros ?%app_inv_head; congruence). rewrite content_hang_none; [done|]. intros ? [=]. done. }
      rewrite (decide_False (P:=p ++ x :: k1 = _)) by (intros ?%app_inv_head; congruence).
      destruct (decide (nib x = nib a)) as [->%nib_inj|Hxa]; [symmetry; apply (content_hang_app [a])|].
      rewrite content_hang_none; [by destruct (decide _)|]. intros ? [=]. congruence.
    + rewrite decide_False by (intros ->; apply Hno; by eexists).
      rewrite !content_hang_none; [done| |]; intros k' ->; apply Hno; rewrite <- ?app_assoc; by eexists.
  - intros ? [= <-]. by destruct p.
Qed.

Lemma upd_short p t key v t' :
  canon (TShort p t) -> full_key (p ++ key) -> upd (Some t) key v t' ->
  upd (Some (TShort p t)) (p ++ key) v (TShort p t').
Proof.
  intros Hc Hk [Hp Hct Hf]. constructor; [| |by intros ? [= <-]].
  - right. split; [done|]. intros ? [= <-]. inversion Hc as [? w Hp'|? ts Hn Hne Hts|]; subst.
    + pose proof (full_key_prefix _ _ Hp' Hk) as ->. apply at_pos_nil in Hp as [?|[w' E]]; [done|]. injection E as ->. by constructor.
    + specialize (Hf _ eq_refl I). destruct t' as [| |ts']; try done. constructor; [done|done|].
      eapply at_pos_tree in Hp as [_ Hp]; done.
  - intros k. destruct (decide (take (length p) k = p)) as [Hk1|Hno]; rewrite take_length_app_iff in *.
    + destruct Hk1 as (k1 & ->). cbn [contents]. rewrite !content_short_app, Hct. cbn [contents].
      destruct (decide (k1 = key)) as [->|Hk1]; [by rewrite decide_True|]. by rewrite decide_False by (by intros ?%app_inv_head).
    + rewrite decide_False by (intros ->; apply Hno; by eexists). cbn [contents].
      rewrite !content_short_other; [done| |]; intros k' ->; apply Hno; by eexists.
Qed.

Lemma upd_child ts x o k v t' :
  canon (TFull ts) -> full_key (x :: k) -> ts !! nib x = Some o -> upd o k v t' ->
  upd (Some (TFull ts)) (x :: k) v (TFull (<[nib x := Some t']> ts)).
Proof.
  intros Hc Hk Ho [Hp Hct _]. inversion Hc as [| |? Hlen Hch Hval Htwo]; subst.
  assert (Hlt : (nib x < length ts)%nat) by (by eapply lookup_lt_Some). constructor; [| |done].
  - right. split; [done|]. intros ? [= <-]. apply full_key_cons in Hk as Hk'. constructor; [by rewrite length_insert| | |].
    + intros i t Hi. destruct (decide (i = nib x)) as [->|Hne]; [|rewrite list_lookup_insert_ne by done; by apply Hch].
      rewrite list_lookup_insert_eq by done. intros [= <-]. destruct Hk' as [[Hx Hk']|[-> _]]; [|rewrite nib_term in Hi; lia].
      by eapply at_pos_full.
    + intros t. destruct (decide (16%nat = nib x)) as [E|Hne]; [|rewrite list_lookup_insert_ne by done; by apply Hval].
      rewrite <- E, list_lookup_insert_eq by lia. intros [= <-]. destruct Hk' as [[Hx _]|[_ ->]]; [apply nib_is_nib in Hx; lia|].
      apply at_pos_nil in Hp as [?|[w Ew]]; [done|]. injection Ew as ->. by eexists.
    + destruct Htwo as (i & j & ti & tj & Hij & Hi & Hj). exists i, j.
      assert (Hu : forall i ti, ts !! i = Some (Some ti) -> exists t, <[nib x:=Some t']> ts !! i = Some (Some t)).
      { intros l tl Hl. destruct (decide (l = nib x)) as [->|]; [rewrite list_lookup_insert_eq by done|rewrite list_lookup_insert_ne by done]; by eexists. }
      destruct (Hu _ _ Hi) as [? ?], (Hu _ _ Hj) as [? ?]. by do 2 eexists.
  - intros [|y k1]; [done|]. cbn [contents]. rewrite !content_full. destruct (decide (nib x = nib y)) as [->%nib_inj|Hne].
    + rewrite list_lookup_insert_eq, Ho by done. cbn [contents]. rewrite Hct.
      destruct (decide (k1 = k)) as [->|Hk1]; [by rewrite decide_True|]. by rewrite decide_False by congruence.
    + rewrite list_lookup_insert_ne by done. by rewrite decide_False by congruence.
Qed.

Lemma loads_None_inv root n : loads root n None -> n = nilNode.
Proof. by inversion 1. Qed.
Lemma loads_value_inv root n v : loads root n (Some (TVal v)) -> n = valueNode v.
Proof. inversion 1 as [| | | |? n' ? ? ? Hs Hl]; subst; [done|]. by inversion Hl; subst. Qed.

(** Two keys, one of a short node and one to look up, agree or part. *)
Lemma keys_part nk t key :
  canon (TShort nk t) -> full_key key ->
  let m := prefixLen key nk in
  (m = length nk /\ key = nk ++ drop m key) \/
  (exists p a b nk' key', m = length p /\ nk = p ++ a :: nk' /\ key = p ++ b :: key' /\ a <> b).
Proof.
  intros Hc Hk m. destruct (prefixLen_spec key nk) as (Ht & Hl1 & Hl2 & Hd). fold m in Ht, Hl1, Hl2, Hd.
  destruct (decide (m = length nk)) as [Em|Hm].
  - left. split; [done|]. rewrite <- (take_drop m key) at 1. f_equal. rewrite Ht, Em. apply firstn_all.
  - right. destruct (lookup_lt_is_Some_2 nk m) as [a Ha]; [lia|].
    assert (Hnk : nk = take m nk ++ a :: drop (S m) nk) by (symmetry; by apply take_drop_middle).
    destruct (decide (m = length key)) as [Ek|Hmk].
    + exfalso. rewrite Ek, firstn_all in Ht. rewrite Ek, <- Ht in Hnk. inversion Hc as [? ? Hf|? ? Hn _ _|]; subst.
      * rewrite Hnk in Hf. by apply full_key_prefix in Hf.
      * rewrite Hnk in Hn. apply Forall_app in Hn as [Hn _]. destruct Hk as (l & _ & ->). apply Forall_app in Hn as [_ Hn].
        apply Forall_cons in Hn as [Hn _]. by vm_compute in Hn.
    + destruct (lookup_lt_is_Some_2 key m) as [b Hb]; [lia|].
      exists (take m nk), a, b, (drop (S m) nk), (drop (S m) key). split_and!; [rewrite length_take; lia|done| |].
      * rewrite <- Ht. symmetry. by apply take_drop_middle.
      * intros ->. by apply (Hd b b).
Qed.

Lemma insert_short fuel nkey val fl prefix key value :
  key <> [] ->
  trie_insert db_node (S fuel) (shortNode nkey val fl) prefix key value =
    let matchlen := prefixLen key nkey in
    if (matchlen =? length nkey)%nat then
      ('(dirty, nn) ← trie_insert db_node fuel val (prefix ++ take matchlen key) (drop matchlen key) value;
       Ok (if dirty : bool then (true, shortNode nkey nn newFlag) else (false, shortNode nkey val fl)))%stdpp
    else
      (a ← keyAt nkey matchlen;
       '(_, c1) ← trie_insert db_node fuel nilNode (prefix ++ take (matchlen + 1) nkey) (drop (matchlen + 1) nkey) val;
       ch ← setChild (nib a) c1 emptyChildren;
       b ← keyAt key matchlen;
       '(_, c2) ← trie_insert db_node fuel nilNode (prefix ++ take (matchlen + 1) key) (drop (matchlen + 1) key) value;
       ch ← setChild (nib b) c2 ch;
       Ok (true, if (matchlen =? 0)%nat then fullNode ch newFlag
                 else shortNode (take matchlen key) (fullNode ch newFlag) newFlag))%stdpp.
Proof. by destruct key. Qed.

(** A short node whose key parts from the inserted one becomes a branch. *)
Lemma insert_split fuel root n fl prefix p a b nk key t v :
  loads false n (Some t) -> canon (TShort (p ++ a :: nk) t) -> full_key (p ++ b :: key) ->
  prefixLen (p ++ b :: key) (p ++ a :: nk) = length p -> a <> b ->
  exists n', trie_insert db_node (S (S fuel)) (shortNode (p ++ a :: nk) n fl) prefix (p ++ b :: key) (valueNode v) = Ok (true, n') /\
    loads root n' (Some (hang p (TFull (branch a b (hang nk t) (hang key (TVal v)))))).
Proof.
  intros Hn Hc Hk Em Hab. rewrite insert_short by (by destruct p). cbv zeta. rewrite Em.
  destruct (Nat.eqb_spec (length p) (length (p ++ a :: nk))) as [E|_]; [rewrite length_app in E; cbn in E; lia|].
  assert (La : (nib a < 17)%nat) by (eapply (child_ok_lt _ (hang nk t)), (child_ok_rest p); by destruct p).
  assert (Lb : (nib b < 17)%nat).
  { apply full_key_split in Hk as [_ Hk']. apply full_key_cons in Hk' as [[Hx _]|[-> _]]; [apply nib_is_nib in Hx; lia|rewrite nib_term; lia]. }
  unfold keyAt. rewrite !list_lookup_middle by done. cbn [mbind outcome_bind]. rewrite !insert_nil. cbn [mbind outcome_bind].
  rewrite !drop_app_add. cbn [drop].
  assert (Hbr : Forall2 (loads false) (<[nib b := match key with [] => valueNode v | _ => shortNode key (valueNode v) newFlag end]>
    (<[nib a := match nk with [] => n | _ => shortNode nk n newFlag end]> emptyChildren)) (branch a b (hang nk t) (hang key (TVal v)))).
  { apply Forall2_insert; [apply Forall2_insert; [apply Forall2_replicate; constructor|by apply loads_hang]|apply loads_hang; constructor]. }
  unfold setChild. rewrite decide_True by done. cbn [mbind outcome_bind]. rewrite decide_True by (by rewrite length_insert). cbn [mbind outcome_bind].
  eexists. split; [done|]. destruct p as [|p0 p]; [by constructor|]. cbn [length Nat.eqb hang].
  rewrite (take_app_length (p0 :: p)). by repeat constructor.
Qed.

Lemma insert_ok fuel : forall root n ot prefix key v,
  loads root n ot -> at_pos ot key -> (need n key <= fuel)%nat ->
  exists dirty n' t', trie_insert db_node fuel n prefix key (valueNode v) = Ok (dirty, n') /\
    loads root n' (Some t') /\ upd ot key v t' /\ (dirty = false -> ot = Some t').
Proof.
  induction fuel as [|fuel IH]; intros root n ot prefix key v Hn Hat Hf; [unfold need in Hf; destruct (is_hash n); lia|].
  destruct key as [|k0 ktl].
  { assert (Hu : upd ot [] v (TVal v)).
    { destruct (at_pos_nil _ Hat) as [->|[w ->]]; (constructor; [left; split; [done|right; by eexists]| |by intros ? [= <-]]);
        intros [|x k]; done. }
    destruct (at_pos_nil _ Hat) as [->|[w ->]].
    - apply loads_None_inv in Hn as ->. rewrite insert_nil. do 3 eexists. split_and!; [done|constructor|done|done].
    - apply loads_value_inv in Hn as ->. cbn. do 3 eexists. split_and!; [done|constructor|done|].
      intros ->%negb_false_iff%bool_decide_eq_true. done. }
  destruct Hn as [|w|nk n fl t Hfl Hn|ch fl ts Hfl Hch|h n t Hh Hdb Hst Hn].
  - rewrite insert_nil. destruct Hat as [[? _]|[Hk _]]; [done|]. do 3 eexists. split_and!; [done|by repeat constructor| |done].
    constructor; [right; split; [done|]; intros ? [= <-]; by constructor| |done]. intros k. cbn [contents].
    apply (content_hang_value (k0 :: ktl)).
  - by apply at_pos_value in Hat.
  - apply at_pos_tree in Hat as [Hk Hc]; [|done]. assert (Hne : nk <> []) by (by eapply canon_short_nonempty).
    assert (Hkne : k0 :: ktl <> []) by done. revert Hkne. generalize dependent (k0 :: ktl). clear k0 ktl. intros key Hk Hf Hkne.
    destruct (keys_part nk t key Hc Hk) as [[Em Ek]|(p & a & b & nk' & key' & Em & Enk & Ekey & Hab)].
    + rewrite insert_short by done. cbv zeta. rewrite Em, Nat.eqb_refl. rewrite Em in Ek. set (kr := drop (length nk) key) in *. clearbody kr.
      destruct (IH false n (Some t) (prefix ++ take (length nk) key) kr v) as (d & n' & t' & -> & Hl & Hu & Hd);
        [done|eapply canon_short; [exact Hc|by rewrite <- Ek]| |].
      { pose proof (need_le n kr). unfold need in Hf. cbn [is_hash] in Hf. rewrite Ek, length_app in Hf. destruct nk; [done|]. cbn [length] in Hf. lia. }
      cbn [mbind outcome_bind]. exists d. destruct d.
      * exists (shortNode nk n' newFlag), (TShort nk t'). split_and!; [done|by constructor| |done]. rewrite Ek. apply upd_short; [done|by rewrite <- Ek|done].
      * specialize (Hd eq_refl). injection Hd as ->. eexists _, (TShort nk t'). split_and!; [done|by constructor| |done].
        rewrite Ek. apply upd_short; [done|by rewrite <- Ek|done].
    + subst nk key. destruct fuel as [|fuel]; [unfold need in Hf; rewrite length_app in Hf; cbn in Hf; lia|].
      destruct (insert_split fuel root n fl prefix p a b nk' key' t v) as (n' & -> & Hl); [done..|].
      do 3 eexists. split_and!; [done|exact Hl|by apply upd_split|done].
  - apply at_pos_tree in Hat as [Hk Hc]; [|done]. cbn [trie_insert].
    destruct (canon_child ts k0 ktl Hc Hk) as (o & Ho & Hat).
    destruct (childAt_ok ch ts (nib k0) o Hch Ho) as (c & Hc' & -> & Hlc). cbn [mbind outcome_bind].
    destruct (IH false c o (prefix ++ [k0]) ktl v) as (d & n' & t' & -> & Hl & Hu & Hd); [done|done| |].
    { pose proof (need_le c ktl). unfold need in Hf. cbn [is_hash length] in Hf. lia. }
    cbn [mbind outcome_bind]. pose proof (upd_child ts k0 o ktl v t' Hc Hk Ho Hu) as Hu'. destruct d.
    + destruct (setChild_ok ch ts (nib k0) n' (Some t') Hch Hl) as [-> Hch']; [by eapply lookup_lt_Some|]. cbn.
      do 3 eexists. split_and!; [done|by constructor|exact Hu'|done].
    + specialize (Hd eq_refl) as ->. rewrite list_insert_id in Hu' by done.
      do 3 eexists. split_and!; [done|by constructor|exact Hu'|done].
  - cbn [trie_insert]. unfold resolveHash. rewrite Hdb. cbn [mbind outcome_bind].
    destruct (IH root n (Some t) prefix (k0 :: ktl) v) as (d & n' & t' & -> & Hl & Hu & Hd); [done|done| |].
    { unfold need in *. rewrite (stored_not_hash n Hst). cbn [is_hash] in Hf. lia. }
    cbn [mbind outcome_bind]. exists d. destruct d; do 2 eexists; (split_and!; [done| |exact Hu|done]); [done|].
    specialize (Hd eq_refl). by injection Hd as ->.
Qed.

(** *** Deletion *)

(** [ot'] is [ot] without [key]; a full node leaves something behind. *)
Record del (ot : option tree) (key : bytes) (ot' : option tree) : Prop := {
  del_pos : at_pos ot' key;
  del_content : forall k, contents ot' k = if decide (k = key) then None else contents ot k;
  del_full : forall t, ot = Some t -> is_full t -> exists t', ot' = Some t' /\ canon t' }.

(** A nibble sequence in front of a tree, merged with a short node's key. *)
Definition join (p : bytes) (t : tree) : tree :=
  match t with TShort k t => TShort (p ++ k) t | _ => TShort p t end.

Lemma content_join p t k : content (join p t) k = content (TShort p t) k.
Proof.
  destruct t as [v|q t|ts]; [done| |done]. cbn [join].
  destruct (decide (take (length p) k = p)) as [Hk|Hno]; rewrite take_length_app_iff in *.
  - destruct Hk as (k' & ->). rewrite content_short_app.
    destruct (decide (take (length q) k' = q)) as [Hk|Hno]; rewrite take_length_app_iff in *.
    + destruct Hk as (k & ->). by rewrite app_assoc, !content_short_app.
    + rewrite !content_short_other; [done| |]; intros k2 E; apply Hno; [by exists k2|].
      rewrite <- app_assoc in E. apply app_inv_head in E. by exists k2.
  - rewrite !content_short_other; [done| |]; intros k2 ->; apply Hno; [by eexists|]. rewrite <- app_assoc. by eexists.
Qed.

Lemma canon_join p t : nibs p -> p <> [] -> canon t -> canon (join p t).
Proof.
  intros Hp Hne Hc. inversion Hc as [k v Hk|k ts Hk Hkn Hts|ts Hl Hch Hv Ht]; subst; cbn [join].
  - constructor. by apply full_key_app.
  - constructor; [by apply Forall_app|by destruct p|done].
  - by constructor.
Qed.

(** The node that deletion builds for [join]. *)
Lemma loads_join root p n t :
  loads false n (Some t) -> is_hash n = false ->
  loads root (match n with shortNode ck cv _ => shortNode (p ++ ck) cv newFlag | _ => shortNode p n newFlag end) (Some (join p t)).
Proof. intros Hl Hh. inversion Hl; subst; cbn [join]; try done; by repeat constructor. Qed.

Lemma lone_from ch : forall i pos, 0 <= pos -> lone_child ch i pos = if forallb is_nil ch then pos else -2.
Proof.
  induction ch as [|c ch IH]; intros i pos Hp; [done|]. cbn [lone_child forallb]. destruct (is_nil c); [by apply IH|].
  destruct (Z.eqb_spec pos (-1)); [lia|done].
Qed.

Lemma forallb_is_nil ch : forallb is_nil ch = true <-> forall i c, ch !! i = Some c -> c = nilNode.
Proof.
  rewrite forallb_forall. setoid_rewrite <- list_elem_of_In. split.
  - intros H i c Hc. apply list_elem_of_lookup_2 in Hc. specialize (H c Hc). by destruct c.
  - intros H c [i Hc]%list_elem_of_lookup_1. by rewrite (H i c Hc).
Qed.

(** The three results of the loop over the children. *)
Lemma lone_child_cases ch : forall i, 0 <= i ->
  (lone_child ch i (-1) = -1 /\ forall j c, ch !! j = Some c -> c = nilNode) \/
  (exists j c, lone_child ch i (-1) = i + Z.of_nat j /\ ch !! j = Some c /\ c <> nilNode /\
     forall j' c', ch !! j' = Some c' -> j' <> j -> c' = nilNode) \/
  (lone_child ch i (-1) = -2 /\ exists j j' c c', j <> j' /\ ch !! j = Some c /\ ch !! j' = Some c' /\ c <> nilNode /\ c' <> nilNode).
Proof.
  induction ch as [|c ch IH]; intros i Hi; [left; by split|]. cbn [lone_child].
  destruct (is_nil c) eqn:En.
  - assert (c = nilNode) as -> by (by destruct c). destruct (IH (i + 1) ltac:(lia)) as [[E H]|[(j & c & E & Hj & Hc & H)|(E & j & j' & c & c' & Hjj & Hj & Hj' & Hc)]].
    + left. split; [done|]. intros [|j] c Hc; [by injection Hc as <-|by eapply H].
    + right; left. exists (S j), c. split_and!; [lia|done|done|]. intros [|j'] c' Hc' Hne; [by injection Hc' as <-|]. eapply H; [exact Hc'|lia].
    + right; right. split; [done|]. exists (S j), (S j'), c, c'. split_and!; [lia|done..|apply Hc|apply Hc].
  - assert (Hc : c <> nilNode) by (by destruct c). cbn [Z.eqb Pos.eqb]. rewrite lone_from by lia. destruct (forallb is_nil ch) eqn:Ea.
    + right; left. exists O, c. split_and!; [lia|done|done|]. intros [|j'] c' Hc' Hne; [done|]. by eapply forallb_is_nil.
    + right; right. split; [done|].
      assert (exists j c', ch !! j = Some c' /\ c' <> nilNode) as (j & c' & Hj & Hc').
      { clear -Ea. induction ch as [|x ch IH]; [done|]. cbn in Ea. destruct (is_nil x) eqn:Ex; [|exists O, x; split; [done|by destruct x]].
        destruct (IH Ea) as (j & c' & Hj & Hc'). by exists (S j), c'. }
      exists O, (S j), c, c'. by split_and!.
Qed.

(** What a non-hash child, or the node a hash resolves to, says about the tree. *)
Lemma resolve_ok n t prefix :
  loads false n (Some t) -> exists n', resolve db_node n prefix = Ok n' /\ loads false n' (Some t) /\ is_hash n' = false.
Proof.
  intros Hl. inversion Hl as [|v|k c fl t' Hfl Hc|ch fl ts Hfl Hch|h n' t' Hh Hdb Hst Hn']; subst; cbn [resolve];
    [eexists; by split_and!..|]. unfold resolveHash. rewrite Hdb. eexists. split_and!; [done|done|by apply stored_not_hash].
Qed.

Lemma content_lone ts j t : ts !! j = Some (Some t) -> (j < 17)%nat ->
  (forall j' o, ts !! j' = Some o -> j' <> j -> o = None) ->
  forall k, content (TShort [z2b (Z.of_nat j)] t) k = content (TFull ts) k.
Proof.
  intros Hj Hlt Ho [|x k]; [done|]. rewrite content_full. destruct (decide (x = z2b (Z.of_nat j))) as [->|Hne].
  - rewrite nib_z2b, Hj by lia. apply (content_short_app [_]).
  - rewrite content_short_other by (intros ? [=]; done). destruct (ts !! nib x) as [o|] eqn:E; [|done].
    rewrite (Ho (nib x) o E); [done|]. intros E'. apply Hne, nib_inj. by rewrite nib_z2b by lia.
Qed.

Lemma reduce_ok root ch ts prefix :
  Forall2 (loads false) ch ts -> length ts = 17%nat ->
  (forall i t, (i < 16)%nat -> ts !! i = Some (Some t) -> canon t) ->
  (forall t, ts !! 16%nat = Some (Some t) -> exists v, t = TVal v) ->
  (exists i t, ts !! i = Some (Some t)) ->
  exists n' t', reduce_full db_node ch prefix = Ok (true, n') /\ loads root n' (Some t') /\ is_hash n' = false /\ canon t' /\
    forall k, content t' k = content (TFull ts) k.
Proof.
  intros Hl Hlen Hch Hval (i0 & t0 & H0).
  assert (Hnode : forall j t, ts !! j = Some (Some t) -> exists c, ch !! j = Some c /\ c <> nilNode /\ loads false c (Some t)).
  { intros j t Hj. destruct (childAt_ok ch ts j _ Hl Hj) as (c & Hc & _ & Hlc). exists c. split_and!; [done| |done].
    intros ->. by inversion Hlc. }
  unfold reduce_full. destruct (lone_child_cases ch 0 ltac:(lia)) as [[E H]|[(j & c & E & Hj & Hc & H)|(E & j & j' & c & c' & Hjj & Hj & Hj' & Hc & Hc')]]; rewrite E; cbv zeta.
  - destruct (Hnode _ _ H0) as (c & Hc & Hne & _). by specialize (H _ _ Hc).
  - destruct (Forall2_lookup_l _ _ _ _ _ Hl Hj) as (o & Ho & Hlo).
    destruct o as [t|]; [|by apply loads_None_inv in Hlo]. pose proof (lookup_lt_Some _ _ _ Ho) as Hlt. rewrite Hlen in Hlt.
    assert (Hoth : forall j' o, ts !! j' = Some o -> j' <> j -> o = None).
    { intros j' [t'|] Ho' Hne; [|done]. destruct (Hnode _ _ Ho') as (c' & Hc1 & Hc2 & _). by specialize (H _ _ Hc1 Hne). }
    pose proof (content_lone ts j t Ho Hlt Hoth) as Hct. destruct (Z.leb_spec 0 (0 + Z.of_nat j)); [|lia].
    rewrite Z.add_0_l, Nat2Z.id. unfold childAt. rewrite Hj. cbn [mbind outcome_bind].
    destruct (Z.eqb_spec (Z.of_nat j) 16) as [E16|Hn16].
    + assert (j = 16%nat) as -> by lia. destruct (Hval _ Ho) as [v ->]. do 2 eexists. split_and!; [done|by constructor|done| |done].
      constructor. exists []. by split; [constructor|].
    + assert (Hj16 : (j < 16)%nat) by lia. pose proof (Hch _ _ Hj16 Ho) as Hcan.
      destruct (resolve_ok c t prefix Hlo) as (c' & Hr & Hlc' & Hh). rewrite Hr. cbn [mbind outcome_bind].
      assert (Hcj : canon (join [z2b (Z.of_nat j)] t)).
      { apply canon_join; [|done|done]. repeat constructor. apply nib_is_nib. by rewrite nib_z2b by lia. }
      assert (Hcont : forall k, content (join [z2b (Z.of_nat j)] t) k = content (TFull ts) k) by (intros k; by rewrite content_join).
      inversion Hcan; subst; inversion Hlc'; subst; try done; do 2 eexists; (split_and!; [done| |done|exact Hcj|exact Hcont]); cbn [join app]; by constructor.
  - do 2 eexists. split_and!; [done|by constructor|done| |done]. constructor; [done..|].
    destruct (Forall2_lookup_l _ _ _ _ _ Hl Hj) as ([t|] & Ho & Hlo); [|by apply loads_None_inv in Hlo].
    destruct (Forall2_lookup_l _ _ _ _ _ Hl Hj') as ([t'|] & Ho' & Hlo'); [|by apply loads_None_inv in Hlo'].
    by exists j, j', t, t'.
Qed.

Lemma del_absent ot key : at_pos ot key -> contents ot key = None -> del ot key ot.
Proof.
  intros Hat Hn. constructor; [done| |].
  - intros k. by destruct (decide (k = key)) as [->|].
  - intros t -> Hf. exists t. split; [done|]. by apply at_pos_tree in Hat as [_ ?]; destruct t.
Qed.

Lemma del_leaf k v : full_key k -> del (Some (TShort k (TVal v))) k None.
Proof.
  intros Hk. constructor; [by right|intros k'; cbn [contents]|by intros ? [= <-]].
  assert (E : TShort k (TVal v) = hang k (TVal v)) by (destruct k; [by apply full_key_nonempty in Hk|done]).
  rewrite E, content_hang_value. by destruct (decide (k' = k)).
Qed.

Lemma del_ext p ts key t' :
  canon (TShort p (TFull ts)) -> full_key (p ++ key) -> del (Some (TFull ts)) key (Some t') ->
  del (Some (TShort p (TFull ts))) (p ++ key) (Some (join p t')).
Proof.
  intros Hc Hk [Hp Hct Hf]. inversion Hc as [|? ? Hn Hne Hts|]; subst. apply full_key_app in Hk as Hk'; [|done].
  constructor; [| |by intros ? [= <-]].
  - right. split; [done|]. intros ? [= <-]. apply canon_join; [done|done|]. by eapply at_pos_full.
  - intros k. cbn [contents]. rewrite content_join.
    destruct (decide (take (length p) k = p)) as [Hk1|Hno]; rewrite take_length_app_iff in *.
    + destruct Hk1 as (k1 & ->). rewrite !content_short_app. specialize (Hct k1). cbn [contents] in Hct. rewrite Hct.
      destruct (decide (k1 = key)) as [->|Hk1]; [by rewrite decide_True|]. by rewrite decide_False by (by intros ?%app_inv_head).
    + rewrite decide_False by (intros ->; apply Hno; by eexists). rewrite !content_short_other; [done| |]; intros k' ->; apply Hno; by eexists.
Qed.

(** The children of a full node with one of them replaced. *)
Lemma del_children ts x k o o' :
  canon (TFull ts) -> full_key (x :: k) -> ts !! nib x = Some o -> at_pos o' k ->
  let ts' := <[nib x := o']> ts in
  length ts' = 17%nat /\ (forall i t, (i < 16)%nat -> ts' !! i = Some (Some t) -> canon t) /\
  (forall t, ts' !! 16%nat = Some (Some t) -> exists v, t = TVal v) /\ (exists i t, ts' !! i = Some (Some t)).
Proof.
  intros Hc Hk Ho Hat ts'. inversion Hc as [| |? Hlen Hch Hval (i & j & ti & tj & Hij & Hi & Hj)]; subst.
  pose proof (lookup_lt_Some _ _ _ Ho) as Hlt. apply full_key_cons in Hk as Hk'. subst ts'. split_and!.
  - by rewrite length_insert.
  - intros l t Hl. destruct (decide (l = nib x)) as [->|Hne]; [|rewrite list_lookup_insert_ne by done; by apply Hch].
    rewrite list_lookup_insert_eq by done. intros [= ->]. destruct Hk' as [[_ Hk']|[-> _]]; [by eapply at_pos_full|rewrite nib_term in Hl; lia].
  - intros t. destruct (decide (16%nat = nib x)) as [E|Hne]; [|rewrite list_lookup_insert_ne by done; by apply Hval].
    rewrite <- E, list_lookup_insert_eq by lia. intros [= ->]. destruct Hk' as [[Hx _]|[_ ->]]; [apply nib_is_nib in Hx; lia|].
    apply at_pos_nil in Hat as [?|[w Ew]]; [done|]. injection Ew as ->. by eexists.
  - destruct (decide (i = nib x)) as [->|Hne]; [exists j, tj|exists i, ti]; by rewrite list_lookup_insert_ne.
Qed.

Lemma del_child ts x k o o' t' :
  canon (TFull ts) -> full_key (x :: k) -> ts !! nib x = Some o -> del o k o' -> canon t' ->
  (forall k, content t' k = content (TFull (<[nib x := o']> ts)) k) ->
  del (Some (TFull ts)) (x :: k) (Some t').
Proof.
  intros Hc Hk Ho [_ Hct _] Hct' E. constructor.
  - right. split; [done|]. by intros ? [= <-].
  - intros [|y k1]; cbn [contents]; rewrite E; [done|]. rewrite !content_full.
    destruct (decide (nib x = nib y)) as [->%nib_inj|Hne].
    + rewrite list_lookup_insert_eq, Ho by (by eapply lookup_lt_Some). rewrite Hct.
      destruct (decide (k1 = k)) as [->|Hk1]; [by rewrite decide_True|]. by rewrite decide_False by congruence.
    + rewrite list_lookup_insert_ne by done. by rewrite decide_False by congruence.
  - intros ? _ _. by exists t'.
Qed.

Lemma delete_ok fuel : forall root n ot prefix key,
  loads root n ot -> at_pos ot key -> (need n key <= fuel)%nat ->
  exists d n' ot', trie_delete db_node fuel n prefix key = Ok (d, n') /\ loads root n' ot' /\ del ot key ot' /\
    (d = false -> ot' = ot) /\ (d = true -> is_hash n' = false).
Proof.
  induction fuel as [|fuel IH]; intros root n ot prefix key Hn Hat Hf; [unfold need in Hf; destruct (is_hash n); lia|].
  destruct Hn as [|w|nk n fl t Hfl Hn|ch fl ts Hfl Hch|h n t Hh Hdb Hst Hn]; cbn [trie_delete].
  - do 3 eexists. split_and!; [done|constructor|by apply del_absent|done|done].
  - apply at_pos_value in Hat as ->. do 3 eexists. split_and!; [done|constructor| |done|done].
    constructor; [left; split; [done|by left]|by intros [|? ?]|by intros ? [= <-]].
  - apply at_pos_tree in Hat as [Hk Hc]; [|done].
    destruct (keys_part nk t key Hc Hk) as [[Em Ek]|(p & a & b & nk' & key' & Em & Enk & Ekey & Hab)]; rewrite Em.
    + rewrite Nat.ltb_irrefl. rewrite Em in Ek. set (kr := drop (length nk) key) in *. clearbody kr.
      destruct (Nat.eqb_spec (length nk) (length key)) as [El|Hne].
      { rewrite Ek, length_app in El. assert (kr = []) as -> by (destruct kr; [done|cbn in El; lia]). rewrite app_nil_r in Ek. subst key.
        do 3 eexists. split_and!; [done|constructor| |done|done]. inversion Hc as [|? ? Hnn|]; subst; [by apply del_leaf|].
        apply nibs_hasTerm in Hnn. destruct Hk as (l & _ & ->). by rewrite hasTerm_snoc in Hnn. }
      inversion Hc as [? v Hfk|? ts Hnn Hkne Hts|]; subst t.
      { exfalso. apply Hne. rewrite Ek in Hk. rewrite Ek, (full_key_prefix _ _ Hfk Hk), app_nil_r. done. }
      destruct (IH false n (Some (TFull ts)) (prefix ++ take (length nk) key) kr) as (d & n' & ot' & -> & Hl & Hd & Hd1 & Hd2);
        [done|eapply canon_short; [exact Hc|by rewrite <- Ek]| |].
      { pose proof (need_le n kr). unfold need in Hf. cbn [is_hash] in Hf. rewrite Ek, length_app in Hf. destruct nk; [done|]. cbn [length] in Hf. lia. }
      cbn [mbind outcome_bind]. destruct (del_full _ _ _ Hd _ eq_refl I) as (t' & -> & Ht'). exists d. destruct d.
      * do 2 eexists. split_and!; [done|by apply loads_join, Hd2|rewrite Ek; apply del_ext; [done|by rewrite <- Ek|done]|done|].
        intros _. by destruct n'.
      * do 2 eexists. split_and!; [done|by constructor| |done|done]. specialize (Hd1 eq_refl). injection Hd1 as ->.
        rewrite Ek. apply del_absent; [right; rewrite <- Ek; split; [done|by intros ? [= <-]]|]. cbn [contents]. rewrite content_short_app.
        pose proof (del_content _ _ _ Hd kr) as Hkr. by rewrite decide_True in Hkr.
    + assert (El : length nk = (length p + S (length nk'))%nat) by (rewrite Enk, length_app; done).
      destruct (Nat.ltb_spec (length p) (length nk)) as [_|?]; [|lia].
      do 3 eexists. split_and!; [done|by constructor| |done|done]. apply del_absent; [right; split; [done|by intros ? [= <-]]|].
      cbn [contents]. subst. apply content_short_other. intros k' E. rewrite <- app_assoc in E. apply app_inv_head in E. cbn in E. congruence.
  - apply at_pos_tree in Hat as [Hk Hc]; [|done]. destruct key as [|x k]; [by apply full_key_nonempty in Hk|].
    destruct (canon_child ts x k Hc Hk) as (o & Ho & Hat). change (keyAt (x :: k) 0) with (@Ok Byte.byte x). change (drop 1 (x :: k)) with k. cbn [mbind outcome_bind].
    destruct (childAt_ok ch ts (nib x) o Hch Ho) as (c & Hc' & -> & Hlc). cbn [mbind outcome_bind].
    destruct (IH false c o (prefix ++ [x]) k) as (d & n' & o' & -> & Hl & Hd & Hd1 & Hd2); [done|done| |].
    { pose proof (need_le c k). unfold need in Hf. cbn [is_hash length] in Hf. lia. }
    cbn [mbind outcome_bind]. destruct d.
    + destruct (setChild_ok ch ts (nib x) n' o' Hch Hl) as [-> Hch']; [by eapply lookup_lt_Some|]. cbn [mbind outcome_bind].
      destruct (del_children ts x k o o' Hc Hk Ho (del_pos _ _ _ Hd)) as (H1 & H2 & H3 & H4).
      destruct (reduce_ok root _ _ prefix Hch' H1 H2 H3 H4) as (n2 & t2 & -> & Hl2 & Hh & Hc2 & Hct).
      do 3 eexists. split_and!; [done|exact Hl2|by eapply del_child|done|done].
    + specialize (Hd1 eq_refl) as ->. do 3 eexists. split_and!; [done|by constructor| |done|done].
      eapply del_child; [done..|]. intros k'. by rewrite list_insert_id.
  - unfold resolveHash. rewrite Hdb. cbn [mbind outcome_bind].
    destruct (IH root n (Some t) prefix key) as (d & n' & ot' & -> & Hl & Hd & Hd1 & Hd2); [done|done| |].
    { unfold need in *. rewrite (stored_not_hash n Hst). cbn [is_hash] in Hf. lia. }
    cbn [mbind outcome_bind]. exists d. destruct d; do 2 eexists; (split_and!; [done| |exact Hd|done|done]); [done|].
    by specialize (Hd1 eq_refl) as ->.
Qed.
End Loads.

(** ** Contents determine the tree *)

Lemma canon_inhabited t : canon t -> exists k v, content t k = Some v.
Proof.
  induction t as [v|k t IH|ts IH] using tree_induction; intros Hc.
  - inversion Hc.
  - inversion Hc as [? v Hk|? ts Hn Hne Hts|]; subst; [exists k, v; apply content_leaf|].
    destruct (IH Hts) as (k' & v & E). exists (k ++ k'), v. by rewrite content_short_app.
  - inversion Hc as [| |? Hlen Hch Hval (i & _ & t & _ & _ & Hi & _)]; subst.
    pose proof (lookup_lt_Some _ _ _ Hi) as Hlt. assert (exists k v, content t k = Some v) as (k & v & E).
    { destruct (decide (i < 16)%nat); [by apply (IH i); [|eapply Hch]|]. assert (i = 16%nat) as -> by lia.
      destruct (Hval _ Hi) as [v ->]. by exists [], v. }
    exists (z2b (Z.of_nat i) :: k), v. by rewrite content_full, nib_z2b, Hi by lia.
Qed.

(** The content below the child [i] of a full node. *)
Lemma content_child ts i k : (i < 17)%nat ->
  content (TFull ts) (z2b (Z.of_nat i) :: k) = match ts !! i with Some o => contents o k | None => None end.
Proof. intros Hi. by rewrite content_full, nib_z2b by lia. Qed.

Lemma child_inhabited ts i t :
  canon (TFull ts) -> ts !! i = Some (Some t) -> (i < 17)%nat /\ exists k v, content t k = Some v.
Proof.
  intros Hc Hi. inversion Hc as [| |? Hlen Hch Hval _]; subst. pose proof (lookup_lt_Some _ _ _ Hi) as Hlt. split; [lia|].
  destruct (decide (i < 16)%nat); [by eapply canon_inhabited, Hch|]. assert (i = 16%nat) as -> by lia.
  destruct (Hval _ Hi) as [v ->]. by exists [], v.
Qed.

(** A full node holds keys that part at their first nibble. *)
Lemma full_two ts : canon (TFull ts) -> exists x y k k' v v', x <> y /\
  content (TFull ts) (x :: k) = Some v /\ content (TFull ts) (y :: k') = Some v'.
Proof.
  intros Hc. inversion Hc as [| |? Hlen Hch Hval (i & j & ti & tj & Hij & Hi & Hj)]; subst.
  destruct (child_inhabited ts i ti Hc Hi) as (Li & k & v & Ei). destruct (child_inhabited ts j tj Hc Hj) as (Lj & k' & v' & Ej).
  exists (z2b (Z.of_nat i)), (z2b (Z.of_nat j)), k, k', v, v'. rewrite !content_child, Hi, Hj by done. split_and!; [|done|done].
  intros E%(f_equal nib). rewrite !nib_z2b in E by lia. done.
Qed.

Lemma content_short_inv p t k v : content (TShort p t) k = Some v -> exists k', k = p ++ k' /\ content t k' = Some v.
Proof.
  intros H. cbn in H. case_bool_decide as E; [|done]. apply take_length_app_iff in E as (k' & ->).
  rewrite drop_app_length in H. by exists k'.
Qed.

(** The key of a short node over a full node is as long as it can be. *)
Lemma ext_prefix p q ts t :
  canon (TFull ts) -> (forall k, content (TShort p (TFull ts)) k = content (TShort q t) k) -> exists r, p = q ++ r.
Proof.
  intros Hc Heq. destruct (full_two ts Hc) as (x & y & k & k' & v & v' & Hxy & Ex & Ey).
  rewrite <- (content_short_app p), Heq in Ex. rewrite <- (content_short_app p), Heq in Ey.
  apply content_short_inv in Ex as (r1 & E1 & _), Ey as (r2 & E2 & _). clear Heq. revert q E1 E2.
  induction p as [|z p IH]; intros [|w q] E1 E2; [by exists []|cbn in *; congruence|by eexists|].
  cbn in E1, E2. injection E1 as -> E1. injection E2 as E2. destruct (IH q E1 E2) as [r ->]. by exists r.
Qed.

Lemma leaf_vs_full k v ts p :
  canon (TFull ts) -> (forall k', content (TShort k (TVal v)) k' = content (hang p (TFull ts)) k') -> False.
Proof.
  intros Hc Heq. destruct (full_two ts Hc) as (x & y & k1 & k2 & v1 & v2 & Hxy & Ex & Ey).
  rewrite <- (content_hang_self p), <- Heq in Ex, Ey.
  apply content_short_inv in Ex as (r1 & E1 & H1), Ey as (r2 & E2 & H2). destruct r1, r2; try done.
  rewrite <- E2 in E1. apply app_inv_head in E1. congruence.
Qed.

Lemma ext_vs_full p t ts :
  p <> [] -> canon (TFull ts) -> (forall k, content (TShort p t) k = content (TFull ts) k) -> False.
Proof.
  intros Hne Hc Heq. destruct (full_two ts Hc) as (x & y & k1 & k2 & v1 & v2 & Hxy & Ex & Ey).
  rewrite <- Heq in Ex, Ey. apply content_short_inv in Ex as (r1 & E1 & _), Ey as (r2 & E2 & _).
  destruct p; [done|]. cbn in *. congruence.
Qed.

Lemma canon_unique t1 : forall t2,
  canon t1 -> canon t2 -> (forall k, content t1 k = content t2 k) -> t1 = t2.
Proof.
  induction t1 as [v|k1 s1 IH|ts1 IH] using tree_induction; intros t2 H1 H2 Heq; [inversion H1| |].
  - inversion H1 as [? v Hk|? ts Hn Hne Hts|]; subst; inversion H2 as [k2 v2 Hk2|k2 ts2 Hn2 Hne2 Hts2|ts2 Hl2 Hch2 Hv2 Ht2]; subst.
    + assert (E : content (TShort k2 (TVal v2)) k1 = Some v) by (rewrite <- Heq; apply content_leaf).
      apply content_short_inv in E as ([|z r] & -> & E); [|done]. cbn in E. injection E as ->. by rewrite app_nil_r.
    + exfalso. eapply (leaf_vs_full _ _ ts2 k2); [done|]. intros k. rewrite Heq. by destruct k2.
    + exfalso. by eapply (leaf_vs_full _ _ ts2 []).
    + exfalso. eapply (leaf_vs_full k2 v2 ts k1); [done|]. intros k. rewrite <- Heq. by destruct k1.
    + destruct (ext_prefix k1 k2 ts (TFull ts2)) as [r ->]; [done|done|].
      destruct (ext_prefix k2 (k2 ++ r) ts2 (TFull ts)) as [r' E]; [done|done|].
      rewrite <- app_assoc in E. rewrite <- (app_nil_r k2) in E at 1. apply app_inv_head in E. destruct r; [|done].
      rewrite app_nil_r in *. f_equal. apply IH; [done|done|]. intros k. rewrite <- (content_short_app k2 (TFull ts)), <- (content_short_app k2 (TFull ts2)). apply Heq.
    + exfalso. by eapply (ext_vs_full k1 _ ts2).
  - inversion H2 as [k2 v2 Hk2|k2 ts2 Hn2 Hne2 Hts2|ts2 Hl2 Hch2 Hv2 Ht2]; subst.
    + exfalso. by eapply (leaf_vs_full k2 v2 ts1 []).
    + exfalso. by eapply (ext_vs_full k2 _ ts1).
    + f_equal. inversion H1 as [| |? Hl1 Hch1 Hv1 Ht1]; subst. apply list_eq. intros i.
      destruct (decide (i < 17)%nat) as [Hi|]; [|rewrite !lookup_ge_None_2 by lia; done].
      destruct (lookup_lt_is_Some_2 ts1 i) as [o1 E1]; [lia|]. destruct (lookup_lt_is_Some_2 ts2 i) as [o2 E2]; [lia|].
      assert (Hk : forall k, contents o1 k = contents o2 k).
      { intros k. specialize (Heq (z2b (Z.of_nat i) :: k)). by rewrite !content_child, E1, E2 in Heq by done. }
      rewrite E1, E2. f_equal. destruct o1 as [t1|], o2 as [t2|]; [f_equal| | |done].
      * destruct (decide (i < 16)%nat); [by eapply IH; [|eapply Hch1|eapply Hch2|]|]. assert (i = 16%nat) as -> by lia.
        destruct (Hv1 _ E1) as [w1 ->], (Hv2 _ E2) as [w2 ->]. specialize (Hk []). cbn in Hk. congruence.
      * destruct (child_inhabited _ _ _ H1 E1) as (_ & k & v & Ev). specialize (Hk k). cbn in Hk. congruence.
      * destruct (child_inhabited _ _ _ H2 E2) as (_ & k & v & Ev). specialize (Hk k). cbn in Hk. congruence.
Qed.
