(* ===== verification/TrieNode.v ===== *)
(** Trie nodes on disk (trie/node.go) and the hasher that collapses a trie into them
    (trie/hasher.go). *)
From stdpp Require Import prelude list strings pretty.
From Stdlib Require Import ZArith Lia.
From S2P Require Import Prelude VarBytes RLP RLPStream Crypto TrieKeys Trie.
Local Open Scope Z_scope.

(** ** Encoding *)

(** The items written for a collapsed node: a missing child of a full node is the
    empty string, a nil interface anywhere else the empty list. *)
Fixpoint node_item (n : node) : item :=
  match n with
  | nilNode => Lst []
  | fullNode ch _ => Lst ((fun c => match c with nilNode => Str [] | _ => node_item c end) <$> ch)
  | shortNode k v _ => Lst [Str k; node_item v]
  | hashNode h => Str h
  | valueNode v => Str v
  end.

(** ** Decoding *)

Definition wrapError {A} (m : outcome A) (ctx : string) : outcome A :=
  match m with
  | Err (ErrPath what stack) => Err (ErrPath what (stack ++ [ctx]))
  | Err e => Err (ErrPath e [ctx])
  | _ => m
  end.

(** [fmt.Errorf("prefix: %v", err)]: the text of the error, not the error. *)
Definition textError {A} (prefix : string) (m : outcome A) : outcome A :=
  match m with Err e => Err (ErrNew (prefix +:+ ": " +:+ err_string e)) | _ => m end.

Definition hashLen : Z := 32.

Section Decode.
(** The call of [decodeNode] on an embedded node. *)
Context (decodeNode : bytes -> outcome node).

Definition decodeRef (buf : bytes) : outcome (node * bytes) :=
  ('(kind, val, rest) ← Split buf;
   if bool_decide (kind = KList) then
     let size := Z.of_nat (length buf) - Z.of_nat (length rest) in
     if hashLen <? size then
       Err (ErrNew ("oversized embedded node (size is " +:+ pretty size +:+ " bytes, want size < 32)"))
     else n ← decodeNode buf; Ok (n, rest)
   else if bool_decide (kind = KString) && (Z.of_nat (length val) =? 0) then Ok (nilNode, rest)
   else if bool_decide (kind = KString) && (Z.of_nat (length val) =? 32) then Ok (hashNode val, rest)
   else Err (ErrNew ("invalid RLP string size " +:+ pretty (Z.of_nat (length val)) +:+ " (want 0 or 32)")))%stdpp.

Definition decodeShort (h : option bytes) (elems : bytes) : outcome node :=
  ('(kbuf, rest) ← SplitString elems;
   let flag := mkFlag h false in
   let key := compactToHex kbuf in
   if hasTerm key then
     '(val, _) ← textError "invalid value node" (SplitString rest);
     Ok (shortNode key (valueNode val) flag)
   else
     '(r, _) ← wrapError (decodeRef rest) "val";
     Ok (shortNode key r flag))%stdpp.

(** The loop over the sixteen children, [i] of which have been read. *)
Fixpoint decodeChildren (todo : nat) (i : nat) (elems : bytes) : outcome (list node * bytes) :=
  match todo with
  | O => Ok ([], elems)
  | S todo =>
      ('(cld, rest) ← wrapError (decodeRef elems) ("[" +:+ pretty i +:+ "]");
       '(l, rest) ← decodeChildren todo (S i) rest;
       Ok (cld :: l, rest))%stdpp
  end.

Definition decodeFull (h : option bytes) (elems : bytes) : outcome node :=
  ('(l, elems) ← decodeChildren 16 0 elems;
   '(val, _) ← SplitString elems;
   Ok (fullNode (l ++ [if (0 <? length val)%nat then valueNode val else nilNode]) (mkFlag h false)))%stdpp.
End Decode.

(** An embedded node is shorter than the node that holds it. *)
Fixpoint decodeNode_fuel (fuel : nat) (h : option bytes) (buf : bytes) : outcome node :=
  match fuel with
  | O => Blocked
  | S fuel =>
      match buf with
      | [] => Err io_ErrUnexpectedEOF
      | _ =>
          ('(elems, _) ← textError "decode error" (SplitList buf);
           let c := match CountValues elems with Ok c => c | _ => 0 end in
           if c =? 2 then wrapError (decodeShort (decodeNode_fuel fuel None) h elems) "short"
           else if c =? 17 then wrapError (decodeFull (decodeNode_fuel fuel None) h elems) "full"
           else Err (ErrNew ("invalid number of list elements: " +:+ pretty c)))%stdpp
      end
  end.

Definition decodeNode (h : option bytes) (buf : bytes) : outcome node :=
  decodeNode_fuel (S (length buf)) h buf.

Definition mustDecodeNode (h : option bytes) (buf : bytes) : outcome node :=
  match decodeNode h buf with Err e => Panic ("node: " +:+ err_string e) | o => o end.

(** ** Hashing *)

Section Hasher.
Context {crypto : Crypto} {D : Type}.
(** The database given to [hash]: [None] when only hashing.  Its [insert], and the
    callback for leaves. *)
Context (db : option ((hash -> bytes -> node -> M D unit) * option (bytes -> hash -> M D unit))).

(** One call of the callback, whose error is dropped. *)
Definition call_leaf (onleaf : bytes -> hash -> M D unit) (v : bytes) (h : hash) : M D unit := fun d =>
  match onleaf v h d with (Err _, d) => (Ok tt, d) | r => r end.

Fixpoint leaf_list (onleaf : bytes -> hash -> M D unit) (h : hash) (l : list node) : M D unit :=
  match l with
  | [] => ret tt
  | valueNode v :: l => call_leaf onleaf v h ;; leaf_list onleaf h l
  | _ :: l => leaf_list onleaf h l
  end.

(** The calls of [onleaf] for a node just stored under [h]. *)
Definition leaf_refs (onleaf : bytes -> hash -> M D unit) (h : hash) (n : node) : M D unit :=
  match n with
  | shortNode _ (valueNode v) _ => call_leaf onleaf v h
  | fullNode ch _ => leaf_list onleaf h (take 16 ch)
  | _ => ret tt
  end.

Definition makeHashNode (data : bytes) : bytes := keccak256 data.

Definition store (n : node) (force : bool) : M D node :=
  match n with
  | hashNode _ | nilNode => ret n
  | _ =>
      let tmp := EncodeToBytes (node_item n) in
      if (length tmp <? 32)%nat && negb force then ret n
      else
        let h := match fst (cache n) with Some h => h | None => makeHashNode tmp end in
        (match db with
         | None => ret tt
         | Some (insert, onleaf) =>
             insert (BytesToHash h) tmp n ;;
             match onleaf with
             | Some f => leaf_refs f (BytesToHash h) n
             | None => ret tt
             end
         end) ;;
        ret (hashNode h)
  end.

Section HashChildren.
Context (hash_rec : node -> bool -> M D (node * node)).

(** The first sixteen children, collapsed and cached. *)
Fixpoint hash_list (todo : nat) (ch : list node) : M D (list node * list node) :=
  match todo, ch with
  | S todo, c :: ch =>
      '(col, cac) ← (match c with nilNode => ret (nilNode, nilNode) | _ => hash_rec c false end);
      '(cols, cacs) ← hash_list todo ch;
      ret (col :: cols, cac :: cacs)
  | _, _ => ret (ch, ch)
  end.

Definition hashChildren (original : node) : M D (node * node) :=
  match original with
  | shortNode k v fl =>
      ck ← lift_out (hexToCompact k);
      match v with
      | valueNode _ => ret (shortNode ck v fl, shortNode k v fl)
      | _ =>
          '(col, cac) ← hash_rec v false;
          ret (shortNode ck col fl, shortNode k cac fl)
      end
  | fullNode ch fl =>
      '(cols, cacs) ← hash_list 16 ch;
      ret (fullNode cols fl, fullNode cacs fl)
  | _ => ret (original, original)
  end.
End HashChildren.

Definition committing : bool := match db with Some _ => true | None => false end.

(** Record the hash just computed, and that the node is stored. *)
Definition set_cached (h : option bytes) (n : node) : node :=
  let fl' fl := mkFlag h (if committing then false else nf_dirty fl) in
  match n with
  | shortNode k v fl => shortNode k v (fl' fl)
  | fullNode ch fl => fullNode ch (fl' fl)
  | _ => n
  end.

Fixpoint node_hash (n : node) (force : bool) {struct n} : M D (node * node) :=
  let walk :=
    '(collapsed, cached) ← hashChildren node_hash n;
    hashed ← store collapsed force;
    ret (hashed, set_cached (match hashed with hashNode h => Some h | _ => None end) cached) in
  match cache n with
  | (Some h, dirty) =>
      if negb committing then ret (hashNode h, n)
      else if negb dirty then
        ret (hashNode h, match n with fullNode _ _ | shortNode _ _ _ => hashNode h | _ => n end)
      else walk
  | (None, _) => walk
  end.

Definition emptyRoot_bytes : bytes := hash_bytes trie_emptyRoot.

Definition hashRoot (root : node) : M D (node * node) :=
  match root with
  | nilNode => ret (hashNode emptyRoot_bytes, nilNode)
  | _ => node_hash root true
  end.
End Hasher.

(** [Trie.Hash] *)
Definition trie_Hash {crypto : Crypto} : M node hash := fun root =>
  match hashRoot (D:=unit) None root tt with
  | (Ok (hashNode h, cached), _) => (Ok (BytesToHash h), cached)
  | (Ok _, _) => (Panic "interface conversion", root)
  | (Err e, _) => (Err e, root)
  | (Panic w, _) => (Panic w, root)
  | (Blocked, _) => (Blocked, root)
  end.

(** [Trie.Commit], over the trie and its database. *)
Definition trie_Commit {crypto : Crypto} {D : Type} (insert : hash -> bytes -> node -> M D unit)
    (onleaf : option (bytes -> hash -> M D unit)) : M (node * D) hash := fun '(root, d) =>
  match hashRoot (Some (insert, onleaf)) root d with
  | (Ok (hashNode h, cached), d) => (Ok (BytesToHash h), (cached, d))
  | (Ok _, d) => (Panic "interface conversion", (root, d))
  | (Err e, d) => (Err e, (root, d))
  | (Panic w, d) => (Panic w, (root, d))
  | (Blocked, d) => (Blocked, (root, d))
  end.
