(* ===== verification/TrieEnc.v ===== *)
(** The Merkle encoding of a tree, as the yellow paper defines it, by recursion on the
    tree: the item of a node, the reference a parent holds, the root hash; bounds on the
    lengths; and that equal root hashes mean equal trees or a collision. *)
From stdpp Require Import prelude list strings.
From Stdlib Require Import ZArith Lia.
From S2P Require Import Prelude VarBytes RLP RLPStream RLPDecode Crypto TrieKeys Trie TrieNode TrieFacts.
Local Open Scope Z_scope.

Definition compact (k : bytes) : bytes := match hexToCompact k with Ok c => c | _ => [] end.

Lemma hexToCompact_compact k : hexToCompact k = Ok (compact k).
Proof. unfold compact. by destruct (hexToCompact_returns k) as (c & -> & _). Qed.

Section TrieEnc.
Context {crypto : Crypto}.

(** How a parent refers to a child of encoding [it]. *)
Definition ref_of (it : item) : item :=
  if (length (rlp_enc it) <? 32)%nat then it else Str (keccak256 (rlp_enc it)).

Definition child_item (body : tree -> item) (t : tree) : item :=
  match t with TVal v => Str v | _ => ref_of (body t) end.

Fixpoint body (t : tree) : item :=
  match t with
  | TVal v => Str v
  | TShort k t => Lst [Str (compact k); child_item body t]
  | TFull ts => Lst ((fun o => match o with None => Str [] | Some t => child_item body t end) <$> ts)
  end.

Definition enc (t : tree) : bytes := rlp_enc (body t).
Definition root_hash (ot : option tree) : bytes :=
  match ot with None => emptyRoot_bytes | Some t => keccak256 (enc t) end.

(** Encodings that a Go slice can hold. *)
Definition sfits (it : item) : Prop := Z.of_nat (length (rlp_enc it)) <= 2 ^ 48.

(** Every node has such an encoding. *)
Inductive tfits : tree -> Prop :=
| tfits_val v : Z.of_nat (length v) < 2 ^ 64 -> tfits (TVal v)
| tfits_short k t : sfits (body (TShort k t)) -> tfits t -> tfits (TShort k t)
| tfits_full ts : sfits (body (TFull ts)) -> (forall i t, ts !! i = Some (Some t) -> tfits t) -> tfits (TFull ts).

Definition slot_item (o : option tree) : item := match o with None => Str [] | Some t => child_item body t end.

Definition is_val (t : tree) : Prop := match t with TVal _ => True | _ => False end.

Lemma tfits_sfits t : ~ is_val t -> tfits t -> sfits (body t).
Proof. intros Hv. destruct 1; [by destruct Hv|done..]. Qed.
Lemma tfits_fits t : ~ is_val t -> tfits t -> fits (body t).
Proof. intros Hv Ht. apply tfits_sfits in Ht; [|done]. unfold sfits, fits in *. lia. Qed.

Lemma canon_not_val t : canon t -> ~ is_val t.
Proof. destruct 1; by intros []. Qed.

(** *** Bounds on the encodings *)

Definition bounded_content (t : tree) : Prop :=
  forall k v, content t k = Some v -> Z.of_nat (length k) + Z.of_nat (length v) <= 2 ^ 32.

Lemma length_head s l n : in_u64 n -> (length (puthead s l n) <= 9)%nat.
Proof.
  intros Hn. pose proof (length_puthead s l n Hn) as H. unfold headsize in H.
  destruct (n <? 56); [lia|]. rewrite intsize_putint in H by done. pose proof (putint_length n Hn). lia.
Qed.

Lemma length_Str b : Z.of_nat (length b) < 2 ^ 64 -> (length (rlp_enc (Str b)) <= length b + 9)%nat.
Proof.
  intros Hb. cbn [rlp_enc]. unfold str_enc. destruct b as [|b0 [|b1 b]]; [apply Nat.leb_le; reflexivity|destruct (_ <=? _); cbn; lia|].
  rewrite length_app, Nat.add_comm. apply Nat.add_le_mono_l, length_head. unfold in_u64. lia.
Qed.

Lemma length_rlp_encs l B : (forall x, x ∈ l -> Z.of_nat (length (rlp_enc x)) <= B) ->
  Z.of_nat (length (rlp_encs l)) <= Z.of_nat (length l) * B.
Proof.
  induction l as [|x l IH]; intros H; [done|]. rewrite rlp_encs_cons, length_app.
  pose proof (H x ltac:(constructor)) as Hx. specialize (IH ltac:(intros y Hy; apply H; by constructor)). cbn [length]. lia.
Qed.

Lemma fits_Lst_bound l B : (forall x, x ∈ l -> Z.of_nat (length (rlp_enc x)) <= B) ->
  Z.of_nat (length l) * B < 2 ^ 47 -> sfits (Lst l).
Proof.
  intros H Hb. unfold sfits. rewrite rlp_enc_Lst, length_app. pose proof (length_rlp_encs l B H).
  pose proof (length_head 0xC0 0xF7 (Z.of_nat (length (rlp_encs l))) ltac:(unfold in_u64; lia)). lia.
Qed.

Lemma length_ref it : (length (rlp_enc (ref_of it)) <= 41)%nat.
Proof.
  unfold ref_of. destruct (Nat.ltb_spec (length (rlp_enc it)) 32); [lia|].
  pose proof (length_Str (keccak256 (rlp_enc it))) as Hs. rewrite keccak256_length in Hs. specialize (Hs ltac:(lia)). lia.
Qed.

Lemma length_decodeNibbles l : forall bs, decodeNibbles l = Ok bs -> (length bs <= length l)%nat.
Proof.
  induction l as [l IH] using (induction_ltof1 _ length). unfold ltof in IH. destruct l as [|x [|y l]]; intros bs H; [by injection H as <-|done|].
  cbn in H. destruct (decodeNibbles l) as [bs'| | |] eqn:E; try done. injection H as <-. specialize (IH l ltac:(cbn; lia) bs' E). cbn. lia.
Qed.

Lemma length_compact k : (length (compact k) <= length k + 1)%nat.
Proof.
  pose proof (hexToCompact_compact k) as H. unfold hexToCompact in H. cbv zeta in H. revert H.
  assert (Hl : forall l x c, (length l <= length k)%nat -> (bs ← decodeNibbles l; Ok (x :: bs))%stdpp = Ok c -> (length c <= length k + 1)%nat).
  { intros l x c Hl H. destruct (decodeNibbles l) as [bs| | |] eqn:E; try done. injection H as <-. apply length_decodeNibbles in E. cbn. lia. }
  assert (Ht : (length (if hasTerm k then take (length k - 1) k else k) <= length k)%nat) by (destruct (hasTerm k); rewrite ?length_take; lia).
  destruct (if hasTerm k then _ else k) as [|h0 tl]; [apply Hl; lia|].
  destruct (Nat.odd _); apply Hl; cbn in *; lia.
Qed.

Lemma length_child_item t : (forall v, t = TVal v -> Z.of_nat (length v) <= 2 ^ 32) ->
  Z.of_nat (length (rlp_enc (child_item body t))) <= 2 ^ 32 + 41.
Proof.
  intros Hv. destruct t as [v|k t|ts]; cbn [child_item]; [|pose proof (length_ref (body (TShort k t))); lia|pose proof (length_ref (body (TFull ts))); lia].
  specialize (Hv v eq_refl). pose proof (length_Str v ltac:(lia)). lia.
Qed.
Lemma bounded_fits_short k t :
  canon (TShort k t) -> bounded_content (TShort k t) -> sfits (body (TShort k t)).
Proof.
  intros Hc Hb. assert (Hk : Z.of_nat (length k) <= 2 ^ 32).
  { destruct (canon_inhabited _ Hc) as (k' & v & E). pose proof (Hb _ _ E). apply content_short_inv in E as (r & -> & _).
    rewrite length_app in *. lia. }
  assert (Hv : forall v, t = TVal v -> Z.of_nat (length v) <= 2 ^ 32).
  { intros v ->. specialize (Hb k v (content_leaf k v)). lia. }
  apply (fits_Lst_bound _ (2 ^ 32 + 41)); [|cbn [length]; lia]. intros x Hx. apply list_elem_of_In in Hx as [<-|[<-|[]]].
  - pose proof (length_compact k). pose proof (length_Str (compact k) ltac:(lia)). lia.
  - by apply length_child_item.
Qed.

Lemma bounded_fits_full ts :
  canon (TFull ts) -> bounded_content (TFull ts) -> sfits (body (TFull ts)).
Proof.
  intros Hc Hb. inversion Hc as [| |? Hlen Hch Hval _]; subst. cbn [body].
  apply (fits_Lst_bound _ (2 ^ 32 + 41)); [|rewrite length_fmap, Hlen; lia].
  intros x Hx. apply list_elem_of_fmap_1 in Hx as (o & -> & Ho). destruct o as [t|]; [|by vm_compute].
  apply length_child_item. intros v ->. apply list_elem_of_lookup_1 in Ho as [i Hi].
  pose proof (lookup_lt_Some _ _ _ Hi). specialize (Hb (z2b (Z.of_nat i) :: []) v). rewrite content_child, Hi in Hb by lia.
  specialize (Hb eq_refl). lia.
Qed.

Lemma bounded_tfits t : canon t -> bounded_content t -> tfits t.
Proof.
  induction t as [v|k t IH|ts IH] using tree_induction; intros Hc Hb; [inversion Hc|..].
  - constructor; [by apply bounded_fits_short|]. inversion Hc as [? v Hk|? ts Hn Hne Hts|]; subst.
    + constructor. specialize (Hb k v (content_leaf k v)). lia.
    + apply IH; [done|]. intros k' v E. rewrite <- (content_short_app k) in E. apply Hb in E. rewrite length_app in E. lia.
  - constructor; [by apply bounded_fits_full|]. intros i t Hi. inversion Hc as [| |? Hlen Hch Hval _]; subst.
    pose proof (lookup_lt_Some _ _ _ Hi).
    assert (Hbt : bounded_content t).
    { intros k v E. specialize (Hb (z2b (Z.of_nat i) :: k) v). rewrite content_child, Hi in Hb by lia. specialize (Hb E). cbn [length] in Hb. lia. }
    destruct (decide (i < 16)%nat); [by eapply IH; [|eapply Hch|]|]. assert (i = 16%nat) as -> by lia.
    destruct (Hval _ Hi) as [v ->]. constructor. specialize (Hbt [] v eq_refl). lia.
Qed.

(** *** Subtrees *)

(** [s] is a subtree of [t]. *)
Inductive node_of (s : tree) : tree -> Prop :=
| node_self : node_of s s
| node_short k t : node_of s t -> node_of s (TShort k t)
| node_full ts i t : ts !! i = Some (Some t) -> node_of s t -> node_of s (TFull ts).

(** Two nodes of the two tries with different encodings and the same hash. *)
Definition collision (t1 t2 : tree) : Prop :=
  exists s1 s2, node_of s1 t1 /\ node_of s2 t2 /\ enc s1 <> enc s2 /\ keccak256 (enc s1) = keccak256 (enc s2).

(** The value slot of a full node does not hold an empty value, which is written like
    no value at all. *)
Definition solid (t : tree) : Prop :=
  forall ts, node_of (TFull ts) t -> ts !! 16%nat <> Some (Some (TVal [])).

Lemma node_of_trans s t u : node_of s t -> node_of t u -> node_of s u.
Proof. intros Hs. induction 1; [done|by constructor|by econstructor]. Qed.

Lemma solid_sub t s : solid t -> node_of s t -> solid s.
Proof. intros Ht Hs ts Hts. apply Ht. by eapply node_of_trans. Qed.

Lemma collision_sub t1 t2 s1 s2 : collision s1 s2 -> node_of s1 t1 -> node_of s2 t2 -> collision t1 t2.
Proof.
  intros (u1 & u2 & H1 & H2 & Hne & He) N1 N2. exists u1, u2. split_and!; [by eapply node_of_trans|by eapply node_of_trans|done|done].
Qed.

Definition bind_spec (t1 : tree) : Prop := forall t2,
  canon t1 -> canon t2 -> tfits t1 -> tfits t2 -> solid t1 -> solid t2 ->
  body t1 = body t2 -> t1 = t2 \/ collision t1 t2.

Lemma body_list t : canon t -> exists l, body t = Lst l.
Proof. destruct 1; by eexists. Qed.

Lemma compact_inj k1 k2 : hex_path k1 -> hex_path k2 -> compact k1 = compact k2 -> k1 = k2.
Proof.
  intros H1 H2 E. pose proof (hexToCompact_compact k1) as E1. pose proof (hexToCompact_compact k2) as E2.
  apply compact_roundtrip in E1, E2; [|done..]. congruence.
Qed.

(** Two children that look the same to their parents. *)
Lemma child_binding t1 t2 :
  bind_spec t1 -> canon t1 -> canon t2 -> tfits t1 -> tfits t2 -> solid t1 -> solid t2 ->
  child_item body t1 = child_item body t2 -> t1 = t2 \/ collision t1 t2.
Proof.
  intros Hs H1 H2 F1 F2 S1 S2 E.
  assert (Hc : forall t, canon t -> child_item body t = ref_of (body t)) by (by destruct 1). rewrite !Hc in E by done. unfold ref_of in E.
  destruct (body_list t1 H1) as [l1 E1], (body_list t2 H2) as [l2 E2].
  destruct (Nat.ltb_spec (length (rlp_enc (body t1))) 32), (Nat.ltb_spec (length (rlp_enc (body t2))) 32); [by apply Hs|congruence|congruence|].
  injection E as E. destruct (decide (enc t1 = enc t2)) as [Ee|Hne]; [|right; exists t1, t2; split_and!; [constructor|constructor|done|done]].
  apply Hs; [done..|]. eapply rlp_enc_inj; [|exact Ee]. by apply tfits_sfits; [apply canon_not_val|].
Qed.

Lemma all_or_one {C : Prop} (P : nat -> Prop) n :
  (forall i, (i < n)%nat -> P i \/ C) -> (forall i, (i < n)%nat -> P i) \/ C.
Proof.
  induction n as [|n IH]; intros H; [left; lia|]. destruct IH as [Hn|]; [intros; apply H; lia| |by right].
  destruct (H n ltac:(lia)) as [Hp|]; [left|by right]. intros i Hi. destruct (decide (i = n)) as [->|]; [done|apply Hn; lia].
Qed.

Lemma short_binding k1 s1 k2 s2 :
  bind_spec s1 -> canon (TShort k1 s1) -> canon (TShort k2 s2) -> tfits s1 -> tfits s2 ->
  solid (TShort k1 s1) -> solid (TShort k2 s2) -> body (TShort k1 s1) = body (TShort k2 s2) ->
  TShort k1 s1 = TShort k2 s2 \/ collision (TShort k1 s1) (TShort k2 s2).
Proof.
  intros Hs H1 H2 F1 F2 S1 S2 E. cbn [body] in E. injection E as Ek Ec.
  assert (Hp : forall k s, canon (TShort k s) -> hex_path k) by (intros k s Hc; inversion Hc; subst; [by right|by left]).
  apply compact_inj in Ek as ->; [|by eapply Hp..].
  inversion H1 as [? v1 Hk1|? ts1 Hn1 Hne1 Ht1|]; inversion H2 as [? v2 Hk2|? ts2 Hn2 Hne2 Ht2|]; subst.
  - left. cbn in Ec. congruence.
  - apply nibs_hasTerm in Hn2. destruct Hk1 as (l & _ & ->). by rewrite hasTerm_snoc in Hn2.
  - apply nibs_hasTerm in Hn1. destruct Hk2 as (l & _ & ->). by rewrite hasTerm_snoc in Hn1.
  - destruct (child_binding (TFull ts1) (TFull ts2)) as [[= ->]|Hcol]; try done.
    + eapply solid_sub; [exact S1|repeat constructor].
    + eapply solid_sub; [exact S2|repeat constructor].
    + by left.
    + right. eapply collision_sub; [exact Hcol|repeat constructor|repeat constructor].
Qed.

Lemma slot_binding ts1 ts2 i o1 o2 :
  (forall i t, ts1 !! i = Some (Some t) -> bind_spec t) ->
  canon (TFull ts1) -> canon (TFull ts2) -> tfits (TFull ts1) -> tfits (TFull ts2) -> solid (TFull ts1) -> solid (TFull ts2) ->
  ts1 !! i = Some o1 -> ts2 !! i = Some o2 -> slot_item o1 = slot_item o2 -> o1 = o2 \/ collision (TFull ts1) (TFull ts2).
Proof.
  intros Hs H1 H2 F1 F2 S1 S2 E1 E2 E.
  inversion H1 as [| |? Hl1 Hch1 Hv1 _]; subst. inversion H2 as [| |? Hl2 Hch2 Hv2 _]; subst.
  inversion F1 as [| |? _ Hf1]; subst. inversion F2 as [| |? _ Hf2]; subst. pose proof (lookup_lt_Some _ _ _ E1) as Hi.
  destruct (decide (i < 16)%nat) as [Hi16|].
  - assert (Hne : forall t, canon t -> slot_item (Some t) <> slot_item None).
    { intros t Hc. cbn [slot_item]. assert (child_item body t = ref_of (body t)) as -> by (by destruct Hc). unfold ref_of.
      destruct (body_list t Hc) as [l El]. destruct (_ <? 32)%nat; [by rewrite El|]. intros [= Hk]. apply (f_equal length) in Hk.
      by rewrite keccak256_length in Hk. }
    destruct o1 as [t1|], o2 as [t2|]; [|exfalso; by eapply Hne; [eapply Hch1|]|exfalso; by eapply Hne; [eapply Hch2|]|by left].
    destruct (child_binding t1 t2) as [->|Hcol]; [by eapply Hs|by eapply Hch1|by eapply Hch2|by eapply Hf1|by eapply Hf2| | |done|by left|].
    + eapply solid_sub; [exact S1|econstructor; [exact E1|constructor]].
    + eapply solid_sub; [exact S2|econstructor; [exact E2|constructor]].
    + right. eapply collision_sub; [exact Hcol|econstructor; [exact E1|constructor]|econstructor; [exact E2|constructor]].
  - left. assert (i = 16%nat) as -> by lia. specialize (S1 ts1 (node_self _)). specialize (S2 ts2 (node_self _)).
    destruct o1 as [t1|], o2 as [t2|]; [destruct (Hv1 _ E1) as [v1 ->], (Hv2 _ E2) as [v2 ->]; cbn in E; congruence| | |done];
      [destruct (Hv1 _ E1) as [v1 ->]|destruct (Hv2 _ E2) as [v2 ->]]; cbn in E; exfalso; simplify_eq.
Qed.

Lemma body_binding t1 : bind_spec t1.
Proof.
  induction t1 as [v|k1 s1 IH|ts1 IH] using tree_induction; intros t2 H1 H2 F1 F2 S1 S2 E; [inversion H1|..].
  - assert (exists k2 s2, t2 = TShort k2 s2) as (k2 & s2 & ->).
    { destruct H2 as [k2 v2 Hk2|k2 ts2 Hn2 Hne2 Hts2|ts2 Hl2 Hch2 Hv2 Ht2]; [by do 2 eexists..|].
      cbn in E. injection E as E. apply (f_equal length) in E. by rewrite length_fmap, Hl2 in E. }
    inversion F1; subst. inversion F2; subst. by apply short_binding.
  - inversion H1 as [| |? Hl1 _ _ _]; subst. destruct H2 as [k2 v2 Hk2|k2 ts2 Hn2 Hne2 Hts2|ts2 Hl2 Hch2 Hv2 Ht2];
      [cbn in E; injection E as E; apply (f_equal length) in E; by rewrite length_fmap, Hl1 in E..|].
    assert (H2 : canon (TFull ts2)) by (by constructor). cbn [body] in E. injection E as E.
    destruct (all_or_one (C:=collision (TFull ts1) (TFull ts2)) (fun i => ts1 !! i = ts2 !! i) 17) as [Hall|]; [| |by right].
    + intros i Hi. destruct (lookup_lt_is_Some_2 ts1 i) as [o1 E1]; [lia|]. destruct (lookup_lt_is_Some_2 ts2 i) as [o2 E2]; [lia|].
      rewrite E1, E2. destruct (slot_binding ts1 ts2 i o1 o2) as [->|]; try done; [|by left|by right].
      apply (f_equal (lookup i)) in E. rewrite !list_lookup_fmap, E1, E2 in E. by injection E.
    + left. f_equal. apply list_eq. intros i. destruct (decide (i < 17)%nat); [by apply Hall|]. rewrite !lookup_ge_None_2 by lia. done.
Qed.

(** *** Keys of one length, as a secure trie has them *)

Lemma node_path t : forall s, node_of s t -> canon t -> exists p, forall k, content t (p ++ k) = content s k.
Proof.
  induction t as [v|k0 t IH|ts IH] using tree_induction; intros s Hs Hc; [inversion Hc|..];
    inversion Hs as [|? ? Hs'|? i ti Hi Hs']; subst; try (by exists []).
  - inversion Hc as [? v Hk|? ts Hn Hne Hts|]; subst.
    + inversion Hs'; subst. exists k0. intros k. apply content_short_app.
    + destruct (IH s Hs' Hts) as [p Hp]. exists (k0 ++ p). intros k. by rewrite <- app_assoc, content_short_app.
  - inversion Hc as [| |? Hlen Hch Hval _]; subst. pose proof (lookup_lt_Some _ _ _ Hi) as Hlt.
    assert (exists p, forall k, content ti (p ++ k) = content s k) as [p Hp].
    { destruct (decide (i < 16)%nat); [by eapply IH; [|done|eapply Hch]|]. assert (i = 16%nat) as -> by lia.
      destruct (Hval _ Hi) as [v ->]. inversion Hs'; subst. by exists []. }
    exists (z2b (Z.of_nat i) :: p). intros k. cbn [app]. rewrite content_child, Hi by lia. apply Hp.
Qed.

Lemma canon_nil t : canon t -> content t [] = None.
Proof.
  intros Hc. destruct t as [v|k t|ts]; [inversion Hc| |done]. apply content_short_other. intros k' E.
  apply canon_short_nonempty in Hc. by destruct k.
Qed.

Lemma fixed_solid t n : canon t -> (forall k v, content t k = Some v -> length k = n) -> solid t.
Proof.
  intros Hc Hn ts Hts H16.
  destruct (node_path t _ Hts Hc) as [p Hp].
  assert (Hcts : forall s, node_of s t -> ~ is_val s -> canon s).
  { clear -Hc. intros s Hs. revert Hc. induction Hs as [|k t Hs IH|ts i t Hi Hs IH]; intros Hc Hv; [done| |].
    - inversion Hc; subst; [inversion Hs; subst; by destruct Hv|by apply IH].
    - inversion Hc as [| |? Hlen Hch Hval _]; subst. pose proof (lookup_lt_Some _ _ _ Hi). destruct (decide (i < 16)%nat); [by apply IH; [eapply Hch|]|].
      assert (i = 16%nat) as -> by lia. destruct (Hval _ Hi) as [v ->]. inversion Hs; subst. by destruct Hv. }
  pose proof (Hcts _ Hts ltac:(by intros [])) as Hcf. inversion Hcf as [| |? Hlen Hch Hval (i & j & ti & tj & Hij & Hi & Hj)]; subst.
  assert (exists l tl, (l < 16)%nat /\ ts !! l = Some (Some tl)) as (l & tl & Hl & Htl).
  { pose proof (lookup_lt_Some _ _ _ Hi). pose proof (lookup_lt_Some _ _ _ Hj).
    destruct (decide (i < 16)%nat); [by exists i, ti|]. exists j, tj. split; [lia|done]. }
  destruct (canon_inhabited tl (Hch _ _ Hl Htl)) as (k & v & Ev).
  assert (E1 : content t (p ++ [z2b (Z.of_nat 16)]) = Some []) by (rewrite Hp, content_child, H16 by lia; done).
  assert (E2 : content t (p ++ z2b (Z.of_nat l) :: k) = Some v) by (rewrite Hp, content_child, Htl by lia; done).
  apply Hn in E1, E2. rewrite length_app in *. cbn [length] in *.
  destruct k; [by rewrite (canon_nil _ (Hch _ _ Hl Htl)) in Ev|]. cbn in E2. lia.
Qed.

(** The encodings of the nodes of a trie; the empty trie is the empty string. *)
Definition node_enc (ot : option tree) (e : bytes) : Prop :=
  match ot with None => e = [Byte.x80] | Some t => exists s, node_of s t /\ e = enc s end.

Lemma root_hash_length ot : length (root_hash ot) = 32%nat.
Proof. destruct ot; [apply keccak256_length|]. unfold root_hash, emptyRoot_bytes, hash_bytes. by rewrite length_reverse, length_put_le. Qed.

Lemma BytesToHash_inj b1 b2 : length b1 = 32%nat -> length b2 = 32%nat -> BytesToHash b1 = BytesToHash b2 -> b1 = b2.
Proof. intros H1 H2. unfold BytesToHash. rewrite H1, H2. rewrite !drop_0. apply be_value_inj. congruence. Qed.

Lemma enc_not_empty t : canon t -> tfits t -> enc t <> [Byte.x80].
Proof.
  intros Hc Hf E. change [Byte.x80] with (rlp_enc (Str [])) in E. apply rlp_enc_inj in E; [|by apply tfits_sfits; [apply canon_not_val|]].
  destruct (body_list t Hc) as [l El]. congruence.
Qed.

End TrieEnc.
