(* ===== verification/TrieDecode.v ===== *)
(** Reading nodes back: decoding the Merkle encoding of a tree gives its root node, with
    a hash node for every child that was too large to be embedded. *)
From stdpp Require Import prelude list strings pretty.
From Stdlib Require Import ZArith Lia.
From S2P Require Import Prelude VarBytes RLP RLPStream RLPDecode Crypto TrieKeys Trie TrieNode TrieFacts TrieEnc.
Local Open Scope Z_scope.

Section TrieDecode.
Context {crypto : Crypto}.

(** How a parent holds a child of encoding [e] whose own node is [n]. *)
Definition held (e : bytes) (n : node) : node := if (length e <? 32)%nat then n else hashNode (keccak256 e).

(** The node of a tree, loaded from the database: [h] is the hash it was found under. *)
Fixpoint expand (h : option bytes) (t : tree) : node :=
  match t with
  | TVal v => valueNode v
  | TShort k t =>
      shortNode k (match t with TVal v => valueNode v | _ => held (enc t) (expand None t) end) (mkFlag h false)
  | TFull ts =>
      fullNode ((fun o => match o with
                          | None => nilNode
                          | Some (TVal v) => valueNode v
                          | Some t => held (enc t) (expand None t)
                          end) <$> ts) (mkFlag h false)
  end.

Definition expand_child (t : tree) : node :=
  match t with TVal v => valueNode v | _ => held (enc t) (expand None t) end.
Definition expand_slot (o : option tree) : node := match o with None => nilNode | Some t => expand_child t end.

Lemma expand_full h ts : expand h (TFull ts) = fullNode (expand_slot <$> ts) (mkFlag h false).
Proof. cbn [expand]. f_equal. Qed.

Lemma expand_short h k t : expand h (TShort k t) = shortNode k (expand_child t) (mkFlag h false).
Proof. done. Qed.

(** *** Splitting the encodings *)

Lemma length_split (it : item) r : Z.of_nat (length (rlp_enc it ++ r)) < 2 ^ 64 -> fits it.
Proof. unfold fits. rewrite length_app. lia. Qed.

Lemma SplitList_enc l r :
  Z.of_nat (length (rlp_enc (Lst l) ++ r)) < 2 ^ 64 -> SplitList (rlp_enc (Lst l) ++ r) = Ok (rlp_encs l, r).
Proof. intros H. unfold SplitList. by rewrite Split_enc. Qed.

Lemma SplitString_enc b r :
  Z.of_nat (length (rlp_enc (Str b) ++ r)) < 2 ^ 64 -> SplitString (rlp_enc (Str b) ++ r) = Ok (b, r).
Proof.
  intros H. unfold SplitString. rewrite Split_enc by done. cbn [mbind outcome_bind item_content].
  rewrite bool_decide_false; [done|]. unfold item_kind. destruct b as [|b0 []]; try done. by destruct (_ <? 128).
Qed.

Section Refs.
Context (dec : bytes -> outcome node).

Lemma decodeRef_nil r : Z.of_nat (length (rlp_enc (Str []) ++ r)) < 2 ^ 64 ->
  decodeRef dec (rlp_enc (Str []) ++ r) = Ok (nilNode, r).
Proof. intros H. unfold decodeRef. by rewrite Split_enc. Qed.

Lemma decodeRef_hash h r : length h = 32%nat -> Z.of_nat (length (rlp_enc (Str h) ++ r)) < 2 ^ 64 ->
  decodeRef dec (rlp_enc (Str h) ++ r) = Ok (hashNode h, r).
Proof.
  intros Hh H. unfold decodeRef. rewrite Split_enc by done. cbn [mbind outcome_bind item_content].
  assert (item_kind (Str h) = KString) as -> by (destruct h as [|? []]; done). by rewrite Hh.
Qed.

Lemma decodeRef_embedded l n r :
  Z.of_nat (length (rlp_enc (Lst l) ++ r)) < 2 ^ 64 -> (length (rlp_enc (Lst l)) <= 32)%nat ->
  dec (rlp_enc (Lst l) ++ r) = Ok n -> decodeRef dec (rlp_enc (Lst l) ++ r) = Ok (n, r).
Proof.
  intros H Hl Hd. unfold decodeRef. rewrite Split_enc by done. cbn [mbind outcome_bind item_content item_kind].
  rewrite bool_decide_true by done. rewrite length_app. unfold hashLen.
  destruct (Z.ltb_spec 32 (Z.of_nat (length (rlp_enc (Lst l)) + length r) - Z.of_nat (length r))); [lia|]. by rewrite Hd.
Qed.

(** A child, when the embedded ones decode. *)
Lemma decodeRef_child t r :
  canon t -> Z.of_nat (length (rlp_enc (child_item body t) ++ r)) < 2 ^ 64 ->
  ((length (enc t) < 32)%nat -> dec (enc t ++ r) = Ok (expand None t)) ->
  decodeRef dec (rlp_enc (child_item body t) ++ r) = Ok (expand_child t, r).
Proof.
  intros Hc Hl Hd. assert (child_item body t = ref_of (body t)) as E by (by destruct Hc). rewrite E in *.
  assert (expand_child t = held (enc t) (expand None t)) as -> by (by destruct Hc). unfold ref_of, held in *. fold (enc t) in *.
  destruct (Nat.ltb_spec (length (enc t)) 32) as [Hlt|Hge].
  - destruct (body_list t Hc) as [l El]. specialize (Hd Hlt). unfold enc in *. rewrite El in *. apply decodeRef_embedded; [done|lia|done].
  - apply decodeRef_hash; [apply keccak256_length|done].
Qed.

Lemma decodeChildren_ok n : forall ts i r,
  length ts = n ->
  (forall j t, ts !! j = Some (Some t) -> canon t) ->
  Z.of_nat (length (rlp_encs (slot_item <$> ts) ++ r)) < 2 ^ 64 ->
  (forall j t r', ts !! j = Some (Some t) -> (length (enc t) < 32)%nat -> (length (enc t ++ r') <= length (rlp_encs (slot_item <$> ts) ++ r))%nat ->
     dec (enc t ++ r') = Ok (expand None t)) ->
  decodeChildren dec n i (rlp_encs (slot_item <$> ts) ++ r) = Ok (expand_slot <$> ts, r).
Proof.
  induction n as [|n IH]; intros ts i r Hn Hc Hl Hd; [by destruct ts|]. destruct ts as [|o ts]; [done|].
  rewrite fmap_cons, rlp_encs_cons, <- app_assoc in *. cbn [decodeChildren].
  assert (Hs : decodeRef dec (rlp_enc (slot_item o) ++ rlp_encs (slot_item <$> ts) ++ r) = Ok (expand_slot o, rlp_encs (slot_item <$> ts) ++ r)).
  { destruct o as [t|]; [|by apply decodeRef_nil]. apply decodeRef_child; [by apply (Hc O)|done|]. intros Hlt. apply (Hd O t); [done|done|].
    rewrite !length_app. cbn [slot_item].
    assert (child_item body t = ref_of (body t)) as -> by (by destruct (Hc O t eq_refl)). unfold ref_of. fold (enc t).
    destruct (Nat.ltb_spec (length (enc t)) 32); [|lia]. unfold enc. lia. }
  rewrite Hs. cbn [wrapError mbind outcome_bind]. rewrite IH; [done|by injection Hn|intros j t Hj; by apply (Hc (S j))|rewrite length_app in Hl; lia|].
  intros j t r' Hj Hlt Hr. apply (Hd (S j) t); [done|done|]. etrans; [exact Hr|]. rewrite (length_app (rlp_enc _)). lia.
Qed.
End Refs.

(** *** The node of a tree *)

Lemma enc_nonempty t : enc t <> [].
Proof. intros E. pose proof (rlp_enc_pos (body t)). unfold enc in E. rewrite E in *. cbn in *. lia. Qed.

Lemma decodeNode_list fuel h l r :
  Z.of_nat (length (rlp_enc (Lst l) ++ r)) < 2 ^ 64 ->
  decodeNode_fuel (S fuel) h (rlp_enc (Lst l) ++ r) =
    if Z.of_nat (length l) =? 2 then wrapError (decodeShort (decodeNode_fuel fuel None) h (rlp_encs l)) "short"
    else if Z.of_nat (length l) =? 17 then wrapError (decodeFull (decodeNode_fuel fuel None) h (rlp_encs l)) "full"
    else Err (ErrNew ("invalid number of list elements: " +:+ pretty (Z.of_nat (length l)))).
Proof.
  intros Hl. cbn [decodeNode_fuel]. destruct (rlp_enc (Lst l) ++ r) as [|b0 bs] eqn:E.
  { apply app_eq_nil in E as [E _]. pose proof (rlp_enc_pos (Lst l)). rewrite E in *. cbn in *. lia. }
  rewrite <- E in *. rewrite SplitList_enc by done. cbn [textError mbind outcome_bind]. cbv beta iota zeta.
  rewrite CountValues_enc; [done|]. apply length_split, fits_Lst in Hl. done.
Qed.

(** An embedded child is shorter than its parent. *)
Lemma child_shorter l x : x ∈ l -> (length (rlp_enc x) <= length (rlp_encs l))%nat /\ (length (rlp_encs l) < length (rlp_enc (Lst l)))%nat.
Proof.
  intros Hx. split.
  - apply list_elem_of_split in Hx as (l1 & l2 & ->). rewrite rlp_encs_app, rlp_encs_cons, !length_app. lia.
  - rewrite rlp_enc_Lst, length_app. assert (puthead 0xC0 0xF7 (Z.of_nat (length (rlp_encs l))) <> []) by (unfold puthead; by destruct (_ <? _)).
    destruct (puthead _ _ _); [done|]. cbn. lia.
Qed.

Definition decode_spec (t : tree) : Prop := forall f h r,
  canon t -> solid t -> Z.of_nat (length (enc t ++ r)) < 2 ^ 64 -> (length (enc t) <= f)%nat ->
  decodeNode_fuel f h (enc t ++ r) = Ok (expand h t).

Lemma compactToHex_compact k t : canon (TShort k t) -> compactToHex (compact k) = k.
Proof.
  intros Hc. eapply compact_roundtrip; [|apply hexToCompact_compact]. inversion Hc; subst; [by right|by left].
Qed.

(** Fuel and length for an embedded child. *)
Lemma embedded_less l t f :
  canon t -> child_item body t ∈ l -> (length (rlp_enc (Lst l)) <= S f)%nat -> (length (enc t) < 32)%nat -> (length (enc t) <= f)%nat.
Proof.
  intros Hc Hin Hf Hlt. destruct (child_shorter l _ Hin) as [H1 H2]. assert (child_item body t = ref_of (body t)) as E by (by destruct Hc).
  rewrite E in H1. unfold ref_of in H1. fold (enc t) in H1. destruct (Nat.ltb_spec (length (enc t)) 32); [|lia]. unfold enc in *. lia.
Qed.

Lemma decode_short k t : decode_spec t -> decode_spec (TShort k t).
Proof.
  intros IH f h r Hc Hs Hl Hf. unfold enc in Hl, Hf |- *. cbn [body] in *.
  destruct f as [|f]; [pose proof (rlp_enc_pos (Lst [Str (compact k); child_item body t])); lia|]. rewrite decodeNode_list by done.
  cbn [length Z.of_nat Pos.of_succ_nat Pos.succ Z.eqb Pos.eqb].
  assert (El : rlp_encs [Str (compact k); child_item body t] = rlp_enc (Str (compact k)) ++ rlp_enc (child_item body t) ++ []) by done.
  assert (Hl2 : Z.of_nat (length (rlp_enc (Str (compact k)) ++ rlp_enc (child_item body t) ++ [])) < 2 ^ 64).
  { rewrite <- El. by apply length_split, fits_Lst in Hl. }
  unfold decodeShort. rewrite El, SplitString_enc by done. cbn [mbind outcome_bind]. cbv zeta.
  rewrite length_app in Hl2. rewrite (compactToHex_compact k t Hc). inversion Hc as [? v Hk|? ts Hn Hne Hts|]; subst.
  - destruct Hk as (k0 & Hk0 & ->). rewrite hasTerm_snoc. cbn [child_item] in *. rewrite SplitString_enc by lia. done.
  - rewrite nibs_hasTerm by done. rewrite decodeRef_child; [done|done|lia|]. intros Hlt. apply IH; [done| | |].
    + eapply solid_sub; [exact Hs|repeat constructor].
    + rewrite length_app. cbn [length]. lia.
    + eapply embedded_less; [done| |exact Hf|done]. right. left.
Qed.

Lemma decode_full ts : (forall i t, ts !! i = Some (Some t) -> decode_spec t) -> decode_spec (TFull ts).
Proof.
  intros IH f h r Hc Hs Hl Hf. inversion Hc as [| |? Hlen Hch Hval _]; subst. unfold enc in Hl, Hf |- *.
  assert (Eb : body (TFull ts) = Lst (slot_item <$> ts)) by done. rewrite Eb in *.
  destruct f as [|f]; [pose proof (rlp_enc_pos (Lst (slot_item <$> ts))); lia|]. rewrite decodeNode_list by done. rewrite length_fmap, Hlen.
  cbn [Z.of_nat Pos.of_succ_nat Pos.succ Z.eqb Pos.eqb].
  destruct (lookup_lt_is_Some_2 ts 16) as [o Ho]; [lia|].
  assert (Ets : ts = take 16 ts ++ [o]).
  { rewrite <- (take_drop_middle ts 16 o Ho) at 1. f_equal. f_equal. apply drop_ge. lia. }
  apply length_split, fits_Lst in Hl as Hl2.
  assert (El : rlp_encs (slot_item <$> ts) = rlp_encs (slot_item <$> take 16 ts) ++ rlp_enc (slot_item o) ++ []).
  { rewrite Ets at 1. by rewrite fmap_app, rlp_encs_app. }
  rewrite El in *. unfold decodeFull. rewrite (decodeChildren_ok _ 16).
  - cbn [mbind outcome_bind]. rewrite length_app in Hl2.
    assert (exists v, slot_item o = Str v /\ (if (0 <? length v)%nat then valueNode v else nilNode) = expand_slot o) as (v & Ev & Hv).
    { destruct o as [t|]; [|by exists []]. destruct (Hval t Ho) as [v ->]. exists v. split; [done|]. cbn [expand_slot expand_child].
      destruct v; [|done]. exfalso. by eapply Hs; [constructor|]. }
    rewrite Ev in *. rewrite SplitString_enc by lia. cbn [mbind outcome_bind wrapError]. rewrite expand_full. f_equal. f_equal.
    rewrite Ets at 2. rewrite fmap_app. f_equal. by rewrite Hv.
  - rewrite length_take. lia.
  - intros j t Hj. apply lookup_take_Some in Hj as [Hj Hlt]. by eapply Hch.
  - done.
  - intros j t r' Hj Hlt Hr. apply lookup_take_Some in Hj as [Hj Hj16]. eapply IH; [done|by eapply Hch| | |].
    + eapply solid_sub; [exact Hs|]. econstructor; [exact Hj|constructor].
    + lia.
    + eapply (embedded_less (slot_item <$> ts)); [by eapply Hch| |exact Hf|done].
      apply list_elem_of_fmap. exists (Some t). split; [done|]. by eapply list_elem_of_lookup_2.
Qed.

Lemma decode_all t : decode_spec t.
Proof.
  induction t as [v|k t IH|ts IH] using tree_induction; [intros f h r Hc; inversion Hc|by apply decode_short|by apply decode_full].
Qed.

Lemma decodeNode_enc h t :
  canon t -> solid t -> tfits t -> decodeNode h (enc t) = Ok (expand h t).
Proof.
  intros Hc Hs Hf. unfold decodeNode. rewrite <- (app_nil_r (enc t)) at 2. apply decode_all; [done|done| |lia].
  rewrite app_nil_r. apply tfits_sfits in Hf; [|by apply canon_not_val]. unfold sfits, enc in *. lia.
Qed.
End TrieDecode.
