(* ===== verification/TrieHash.v ===== *)
(** The hasher of trie/hasher.go computes the Merkle encoding of the tree behind a node,
    with its caches and hash nodes, and, when it is given a database, stores every node
    that its parent refers to by hash, and the root. *)
From stdpp Require Import prelude list strings.
From Stdlib Require Import ZArith Lia.
From S2P Require Import Prelude VarBytes RLP RLPStream RLPDecode Crypto TrieKeys Trie TrieNode TrieFacts TrieEnc TrieDecode.
Local Open Scope Z_scope.

(** ** What the database holds of a tree *)

Section Available.
Context {crypto : Crypto} (db_node : hash -> option node).

Definition hash_of (t : tree) : hash := BytesToHash (keccak256 (enc t)).

Definition found (t : tree) : Prop := db_node (hash_of t) = Some (expand (Some (keccak256 (enc t))) t).

(** Every node that is referred to by hash can be loaded. *)
Definition avail (t : tree) : Prop :=
  forall s, node_of s t -> ~ is_val s -> (32 <= length (enc s))%nat -> found s.

(** A hash node stands for a tree that can be loaded. *)
Definition okh (root : bool) (h : bytes) (t : tree) : Prop :=
  h = keccak256 (enc t) /\ (root = false -> (32 <= length (enc t))%nat) /\ avail t /\ found t.

(** A cached hash is the hash of the tree, and a clean node with a hash has been stored;
    below the root only nodes of 32 bytes and more have a hash, and clean nodes without
    one were embedded in their parents. *)
Definition okf (root : bool) (fl : nodeFlag) (t : tree) : Prop :=
  (forall h, nf_hash fl = Some h -> h = keccak256 (enc t) /\ (root = false -> (32 <= length (enc t))%nat) /\
     (nf_dirty fl = false -> avail t /\ found t)) /\
  (nf_hash fl = None -> nf_dirty fl = false -> root = false /\ (length (enc t) < 32)%nat).

Lemma okf_new root t : okf root newFlag t.
Proof. by split. Qed.

Lemma avail_sub t s : avail t -> node_of s t -> avail s.
Proof. intros Ha Hs u Hu. apply Ha. by eapply node_of_trans. Qed.

Lemma stored_expand h t : ~ is_val t -> stored (expand h t).
Proof. destruct t; [by intros []|done..]. Qed.

Definition flag_fits (root : bool) (h : option bytes) (t : tree) : Prop :=
  match h with
  | None => root = false /\ (length (enc t) < 32)%nat
  | Some x => x = keccak256 (enc t) /\ (root = false -> (32 <= length (enc t))%nat) /\ found t
  end.

Lemma okf_expand root h t : avail t -> flag_fits root h t -> okf root (mkFlag h false) t.
Proof.
  intros Ha Hf. destruct h as [x|]; cbn in Hf; [|by split].
  destruct Hf as (-> & Hr & Hfd). split; [|done]. by intros h [= <-].
Qed.

(** A child as its parent holds it. *)
Lemma loads_expand_child t :
  (forall root h, avail t -> flag_fits root h t -> loads db_node okf okh root (expand h t) (Some t)) ->
  canon t -> avail t -> loads db_node okf okh false (expand_child t) (Some t).
Proof.
  intros IH Hc Ha. assert (expand_child t = held (enc t) (expand None t)) as -> by (by destruct Hc). unfold held.
  destruct (Nat.ltb_spec (length (enc t)) 32) as [Hlt|Hge]; [by apply IH|].
  assert (Hfd : found t) by (apply Ha; [constructor|by apply canon_not_val|done]).
  econstructor; [|exact Hfd|apply stored_expand; by apply canon_not_val|by apply IH].
  by split_and!.
Qed.

(** The node that the database returns for the hash of a tree stands for the tree. *)
Lemma loads_expand t : canon t -> forall root h,
  avail t -> flag_fits root h t -> loads db_node okf okh root (expand h t) (Some t).
Proof.
  induction t as [v|k t IH|ts IH] using tree_induction; intros Hc root h Ha Hf; [inversion Hc|..].
  - rewrite expand_short. constructor; [by apply okf_expand|]. inversion Hc as [? v Hk|? ts Hn Hne Hts|]; subst; [constructor|].
    apply loads_expand_child; [by apply IH|done|]. eapply avail_sub; [exact Ha|repeat constructor].
  - rewrite expand_full. inversion Hc as [| |? Hlen Hch Hval _]; subst. constructor; [by apply okf_expand|].
    apply Forall2_fmap_l, Forall2_same_length_lookup_2; [done|]. intros i o o' Ho Ho'. rewrite Ho in Ho'. injection Ho' as <-.
    destruct o as [t|]; [|constructor]. cbn [expand_slot]. pose proof (lookup_lt_Some _ _ _ Ho).
    destruct (decide (i < 16)%nat) as [Hi|].
    + apply loads_expand_child; [by eapply IH, Hch|by eapply Hch|]. eapply avail_sub; [exact Ha|econstructor; [exact Ho|constructor]].
    + assert (i = 16%nat) as -> by lia. destruct (Hval _ Ho) as [v ->]. constructor.
Qed.
End Available.

(** ** Databases that grow *)

Section Mono.
Context {crypto : Crypto} (db1 db2 : hash -> option node).

Definition extends : Prop := forall h n, db1 h = Some n -> db2 h = Some n.
Hypothesis Hext : extends.

Lemma found_mono t : found db1 t -> found db2 t.
Proof. apply Hext. Qed.
Lemma avail_mono t : avail db1 t -> avail db2 t.
Proof. intros H s H1 H2 H3. by apply found_mono, H. Qed.
Lemma okh_mono root h t : okh db1 root h t -> okh db2 root h t.
Proof. intros (H1 & H2 & H3 & H4). split_and!; [done|done|by apply avail_mono|by apply found_mono]. Qed.
Lemma okf_mono root fl t : okf db1 root fl t -> okf db2 root fl t.
Proof.
  intros [H1 H2]. split; [|done]. intros h Hh. destruct (H1 h Hh) as (E & Hr & Hd). split_and!; [done|done|].
  intros Hc. destruct (Hd Hc). split; [by apply avail_mono|by apply found_mono].
Qed.

Lemma loads_mono t : forall root n, loads db1 (okf db1) (okh db1) root n (Some t) -> loads db2 (okf db2) (okh db2) root n (Some t).
Proof.
  assert (Hh : forall t, (forall root n, stored n -> loads db1 (okf db1) (okh db1) root n (Some t) -> loads db2 (okf db2) (okh db2) root n (Some t)) ->
    forall root n, loads db1 (okf db1) (okh db1) root n (Some t) -> loads db2 (okf db2) (okh db2) root n (Some t)).
  { intros u Hu root n Hl. inversion Hl as [|v|k c fl u' Hfl Hc|ch fl ts Hfl Hch|h n' u' Ho Hdb Hst Hn]; subst; [constructor|by apply Hu..|].
    econstructor; [by apply okh_mono|by apply Hext|done|by apply Hu]. }
  induction t as [v|k t IH|ts IH] using tree_induction; apply Hh; intros root n Hst Hl; inversion Hl; subst; try done.
  - constructor; [by apply okf_mono|by apply IH].
  - constructor; [by apply okf_mono|].
    match goal with H : Forall2 _ _ _ |- _ => rename H into Hch end. pose proof (Forall2_length _ _ _ Hch).
    apply Forall2_same_length_lookup_2; [done|]. intros i c o Hc Ho. pose proof (Forall2_lookup_lr _ _ _ _ _ _ Hch Hc Ho) as Hlc.
    destruct o as [t|]; [by eapply IH|]. apply loads_None_inv in Hlc as ->. constructor.
Qed.
End Mono.

(** ** Collapsed nodes *)

Section Collapses.
Context {crypto : Crypto}.

Definition cchild (col : tree -> node -> Prop) (t : tree) (c : node) : Prop :=
  match t with
  | TVal v => c = valueNode v
  | _ => if (length (enc t) <? 32)%nat then col t c else c = hashNode (keccak256 (enc t))
  end.

(** [collapses t c]: [c] is the node of [t] as it is written, its key compact and its
    large children replaced by hashes. *)
Fixpoint collapses (t : tree) (c : node) : Prop :=
  match t with
  | TVal v => c = valueNode v
  | TShort k t => exists cc fl, c = shortNode (compact k) cc fl /\ cchild collapses t cc
  | TFull ts =>
      exists cols fl, c = fullNode cols fl /\
        (fix go (ts : list (option tree)) (cols : list node) : Prop :=
           match ts, cols with
           | [], [] => True
           | o :: ts, c :: cols => match o with None => c = nilNode | Some t => cchild collapses t c end /\ go ts cols
           | _, _ => False
           end) ts cols
  end.

Definition cslot (o : option tree) (c : node) : Prop :=
  match o with None => c = nilNode | Some t => cchild collapses t c end.

Lemma collapses_full ts c :
  collapses (TFull ts) c <-> exists cols fl, c = fullNode cols fl /\ Forall2 cslot ts cols.
Proof.
  cbn [collapses]. do 2 (apply exist_proper; intros ?). apply and_iff_compat_l.
  match goal with |- ?f ts ?l <-> _ => set (g := f); generalize l end. clear c.
  induction ts as [|o ts IH]; intros [|c cols]; cbn.
  - by split; [constructor|].
  - split; [done|inversion 1].
  - split; [done|inversion 1].
  - rewrite IH. split; [intros [H1 H2]; by constructor|by inversion 1].
Qed.

Definition node_slot (c : node) : item := match c with nilNode => Str [] | _ => node_item c end.

Lemma cchild_not_nil t : ~ cchild collapses t nilNode.
Proof.
  destruct t as [v|k t|ts]; cbn [cchild]; [done|..]; destruct (_ <? 32)%nat; try done.
  - by intros (? & ? & ? & _).
  - by intros (? & ? & ? & _)%collapses_full.
Qed.

Lemma node_slot_item t c : cchild collapses t c -> node_slot c = node_item c.
Proof. intros H. destruct c; try done. by apply cchild_not_nil in H. Qed.

Lemma cchild_item t c : (collapses t c -> node_item c = body t) -> cchild collapses t c -> node_item c = child_item body t.
Proof.
  intros Hi Hc. destruct t as [v|k t|ts]; [cbn in Hc; by subst|..]; cbn [cchild child_item] in *; unfold ref_of;
    match goal with |- context [rlp_enc ?b] => change (rlp_enc b) with (enc (TShort k t)) || change (rlp_enc b) with (enc (TFull ts)) end;
    destruct (_ <? 32)%nat; [by apply Hi|by subst|by apply Hi|by subst].
Qed.

Lemma collapses_item t : forall c, collapses t c -> node_item c = body t.
Proof.
  induction t as [v|k t IH|ts IH] using tree_induction; intros c Hc.
  - cbn in Hc. by subst.
  - destruct Hc as (cc & fl & -> & Hcc). cbn [node_item body]. by rewrite (cchild_item t cc (IH cc) Hcc).
  - apply collapses_full in Hc as (cols & fl & -> & Hcols). cbn [node_item body]. f_equal.
    assert (Hi : forall i o c, ts !! i = Some o -> cslot o c -> node_slot c = slot_item o).
    { intros i o c Ho Hs. destruct o as [t|]; [|cbn in Hs; by subst]. cbn in Hs.
      rewrite (node_slot_item t c Hs). exact (cchild_item t c (IH i t Ho c) Hs). }
    clear IH. induction Hcols as [|o c ts cols Ho Hcols IHc]; [done|]. rewrite !fmap_cons. f_equal; [by apply (Hi O)|].
    apply IHc. intros i o' c' Ho'. by apply (Hi (S i)).
Qed.
End Collapses.

(** ** The hasher *)

(** A node inserted, and its leaves reported. *)
Definition put {D : Type} (ins : hash -> bytes -> node -> M D unit) (ol : option (bytes -> hash -> M D unit))
    (h : hash) (blob : bytes) (c : node) : M D unit :=
  ins h blob c ;; match ol with Some f => leaf_refs f h c | None => ret tt end.

Section Hasher.
Context {crypto : Crypto} {D : Type} (db_node : D -> hash -> option node).
Context (dbo : option ((hash -> bytes -> node -> M D unit) * option (bytes -> hash -> M D unit))).
(** What holds of the database between two insertions. *)
Context (Inv : D -> Prop).

(** The tree being hashed, and a database it can be stored in: no value slot with an
    empty value, no two nodes with one hash, nothing else under the hash of a node. *)
Context (whole : tree).
Hypothesis whole_solid : committing dbo = true -> solid whole.
Hypothesis whole_nocoll : committing dbo = true ->
  forall s1 s2, node_of s1 whole -> node_of s2 whole -> keccak256 (enc s1) = keccak256 (enc s2) -> enc s1 = enc s2.

Definition clean (d : D) : Prop := committing dbo = true -> Inv d /\
  forall s n, node_of s whole -> canon s -> db_node d (hash_of s) = Some n -> n = expand (Some (keccak256 (enc s))) s.

(** What inserting a node of the tree and reporting its leaves does. *)
Hypothesis put_ok : forall ins ol d c t, dbo = Some (ins, ol) -> Inv d ->
  node_of t whole -> canon t -> solid t -> tfits t -> collapses t c ->
  (forall n, db_node d (hash_of t) = Some n -> n = expand (Some (keccak256 (enc t))) t) ->
  (forall s, node_of s t -> ~ is_val s -> (32 <= length (enc s))%nat -> s = t \/ found (db_node d) s) ->
  exists d', put ins ol (hash_of t) (enc t) c d = (Ok tt, d') /\ Inv d' /\ found (db_node d') t /\
    forall h, h <> hash_of t -> db_node d' h = db_node d h.

Local Abbreviation loads d := (loads (db_node d) (okf (db_node d)) (okh (db_node d))).
Local Abbreviation node_hash := (node_hash dbo).

Record step (d d' : D) : Prop := {
  step_ext : extends (db_node d) (db_node d');
  step_clean : clean d -> clean d' }.

Lemma step_refl d : step d d.
Proof. split; [by intros h n|tauto]. Qed.
Lemma step_trans d1 d2 d3 : step d1 d2 -> step d2 d3 -> step d1 d3.
Proof. intros [H1 H2] [H3 H4]. split; [intros h n Hn; by apply H3, H1|tauto]. Qed.

(** What [hash] returns for a node: its hash, or the collapsed node. *)
Definition hashes (t : tree) (force : bool) (hashed : node) : Prop :=
  if force || (32 <=? length (enc t))%nat then hashed = hashNode (keccak256 (enc t)) else collapses t hashed.

Lemma hashes_cchild t hashed : ~ is_val t -> hashes t false hashed -> cchild collapses t hashed.
Proof.
  unfold hashes. cbn [orb]. intros Hv H.
  assert (cchild collapses t hashed = if (length (enc t) <? 32)%nat then collapses t hashed else hashed = hashNode (keccak256 (enc t))) as ->
    by (destruct t; [by destruct Hv|done..]).
  destruct (Nat.leb_spec 32 (length (enc t))), (Nat.ltb_spec (length (enc t)) 32); try done; lia.
Qed.

(** Two nodes of the tree with the same hash are loaded as the same node. *)
Lemma same_expand s1 s2 :
  committing dbo = true -> node_of s1 whole -> node_of s2 whole -> canon s1 -> canon s2 -> tfits s1 -> tfits s2 ->
  hash_of s1 = hash_of s2 -> expand (Some (keccak256 (enc s1))) s1 = expand (Some (keccak256 (enc s2))) s2.
Proof.
  intros Hc N1 N2 C1 C2 F1 F2 E. apply BytesToHash_inj in E; [|apply keccak256_length..].
  pose proof (whole_nocoll Hc _ _ N1 N2 E) as Ee. pose proof (whole_solid Hc) as Hs.
  pose proof (decodeNode_enc (Some (keccak256 (enc s1))) s1 C1 (solid_sub _ _ Hs N1) F1) as D1.
  pose proof (decodeNode_enc (Some (keccak256 (enc s2))) s2 C2 (solid_sub _ _ Hs N2) F2) as D2.
  rewrite Ee in *. congruence.
Qed.

Hypothesis whole_fits : forall s, node_of s whole -> canon s -> tfits s.

(** Storing a node of the tree. *)
Lemma put_step ins ol d c t :
  dbo = Some (ins, ol) -> node_of t whole -> canon t -> collapses t c -> clean d ->
  (forall s, node_of s t -> ~ is_val s -> (32 <= length (enc s))%nat -> s = t \/ found (db_node d) s) ->
  exists d', put ins ol (hash_of t) (enc t) c d = (Ok tt, d') /\ step d d' /\ found (db_node d') t.
Proof.
  intros Hdb Hn Hc Hcol Hcl Hsub. assert (Hco : committing dbo = true) by (unfold committing; by rewrite Hdb).
  destruct (Hcl Hco) as [Hinv Hcln].
  destruct (put_ok ins ol d c t) as (d' & E & Hinv' & Hfd & Ho); try done; [by eapply solid_sub; [apply whole_solid|]|by apply whole_fits|by intros n; apply Hcln|].
  exists d'. split_and!; [done| |done]. split.
  - intros h n Hh. destruct (decide (h = hash_of t)) as [->|Hne]; [|by rewrite Ho].
    rewrite (Hcln t n Hn Hc Hh). exact Hfd.
  - intros _ _. split; [done|]. intros s n Hs Hcs.
    destruct (decide (hash_of s = hash_of t)) as [E'|Hne]; [|rewrite Ho by done; by apply Hcln].
    rewrite E', Hfd. intros [= <-]. symmetry. apply same_expand; [done..|by apply whole_fits|by apply whole_fits|done].
Qed.

Lemma collapses_not_ref t c : canon t -> collapses t c -> is_hash c = false /\ c <> nilNode.
Proof. intros Hc H. destruct Hc; destruct H as (? & ? & -> & _); done. Qed.

(** The hash a collapsed node still carries is right. *)
Definition cache_ok (t : tree) (c : node) : Prop :=
  fst (cache c) = None \/ fst (cache c) = Some (keccak256 (enc t)).

Lemma dbo_cases : dbo = None \/ exists ins ol, dbo = Some (ins, ol).
Proof. destruct dbo as [[ins ol]|]; [right; by do 2 eexists|by left]. Qed.

Lemma store_ok t c force d :
  node_of t whole -> canon t -> collapses t c -> cache_ok t c -> clean d ->
  (committing dbo = true -> forall s, node_of s t -> ~ is_val s -> (32 <= length (enc s))%nat -> s = t \/ found (db_node d) s) ->
  exists hashed d', store dbo c force d = (Ok hashed, d') /\ hashes t force hashed /\ step d d' /\
    (committing dbo = true -> force = true \/ (32 <= length (enc t))%nat -> found (db_node d') t).
Proof.
  intros Hn Hc Hcol Hca Hcl Hsub. pose proof (whole_fits t Hn Hc) as Hf. destruct (collapses_not_ref t c Hc Hcol) as [Hh Hnil].
  set (pt := match dbo with None => ret tt | Some (insert, onleaf) => put insert onleaf (hash_of t) (enc t) c end : M D unit).
  assert (E : store dbo c force = if (length (enc t) <? 32)%nat && negb force then ret c else (pt ;; ret (hashNode (keccak256 (enc t))))).
  { unfold store. rewrite (collapses_item t c Hcol), EncodeToBytes_rlp_enc by (by apply tfits_fits; [apply canon_not_val|]).
    fold (enc t). assert (Eh : (match fst (cache c) with Some h => h | None => makeHashNode (enc t) end) = keccak256 (enc t)).
    { destruct Hca as [->| ->]; done. }
    rewrite Eh. by destruct c. }
  assert (Hput : exists d', pt d = (Ok tt, d') /\ step d d' /\ (committing dbo = true -> found (db_node d') t)).
  { subst pt. destruct dbo_cases as [Hdb|(ins & ol & Hdb)].
    - unfold committing. rewrite Hdb. exists d. split; [done|split; [apply step_refl|done]].
    - assert (Hco : committing dbo = true) by (unfold committing; by rewrite Hdb).
      destruct (put_step ins ol d c t) as (d' & Ep & Hst & Hfd); [done..|by apply Hsub|]. exists d'. by rewrite Hdb. }
  rewrite E. unfold hashes. destruct (Nat.ltb_spec (length (enc t)) 32) as [Hlt|Hge], force; cbn [andb negb orb];
    (destruct (Nat.leb_spec 32 (length (enc t))); try lia).
  - destruct Hput as (d' & Ep & Hst & Hfd). exists (hashNode (keccak256 (enc t))), d'. rewrite (bind_Ok _ _ _ _ _ Ep). split_and!; [done..|]. intros; by apply Hfd.
  - exists c, d. split_and!; [done|done|apply step_refl|]. intros _ [?|?]; [done|lia].
  - destruct Hput as (d' & Ep & Hst & Hfd). exists (hashNode (keccak256 (enc t))), d'. rewrite (bind_Ok _ _ _ _ _ Ep). split_and!; [done..|]. intros; by apply Hfd.
  - destruct Hput as (d' & Ep & Hst & Hfd). exists (hashNode (keccak256 (enc t))), d'. rewrite (bind_Ok _ _ _ _ _ Ep). split_and!; [done..|]. intros; by apply Hfd.
Qed.

(** What hashing a node of the tree does. *)
Record hashed_ok (root : bool) (t : tree) (d : D) (hashed cached : node) (d' : D) : Prop := {
  ho_hash : hashes t root hashed;
  ho_cached : loads d' root cached (Some t);
  ho_step : step d d';
  ho_stored : committing dbo = true ->
    avail (db_node d') t /\ (root = true \/ (32 <= length (enc t))%nat -> found (db_node d') t) }.

Definition hash_spec (t : tree) : Prop := forall root n d,
  loads d root n (Some t) -> canon t -> node_of t whole -> clean d ->
  exists hashed cached d', node_hash n root d = (Ok (hashed, cached), d') /\ hashed_ok root t d hashed cached d'.

Lemma loads_step d d' root n t : step d d' -> loads d root n (Some t) -> loads d' root n (Some t).
Proof. intros Hs. apply loads_mono, Hs. Qed.

Lemma avail_step d d' t : step d d' -> avail (db_node d) t -> avail (db_node d') t.
Proof. intros Hs. apply avail_mono, Hs. Qed.

Lemma loads_slots d d' ch ts : step d d' -> Forall2 (loads d false) ch ts -> Forall2 (loads d' false) ch ts.
Proof.
  intros Hs H. eapply Forall2_impl; [exact H|]. intros c [t|] Hc; [by eapply loads_step|].
  apply loads_None_inv in Hc as ->. constructor.
Qed.

Lemma hash_list_ok todo : forall ch ts d,
  Forall2 (loads d false) ch ts -> clean d ->
  (forall i t, (i < todo)%nat -> ts !! i = Some (Some t) -> hash_spec t /\ canon t /\ node_of t whole) ->
  (forall i t, (todo <= i)%nat -> ts !! i = Some (Some t) -> is_val t) ->
  exists cols cacs d', hash_list node_hash todo ch d = (Ok (cols, cacs), d') /\
    Forall2 (loads d' false) cacs ts /\ Forall2 cslot ts cols /\ step d d' /\
    (committing dbo = true -> forall i t, (i < todo)%nat -> ts !! i = Some (Some t) -> avail (db_node d') t).
Proof.
  induction todo as [|todo IH]; intros ch ts d Hl Hcl Hs Hv.
  - exists ch, ch, d. split; [by destruct ch|]. split_and!; [done| |apply step_refl|intros _ i t Hi; lia].
    pose proof (Forall2_length _ _ _ Hl). apply Forall2_same_length_lookup_2; [done|]. intros i o c Ho Hc.
    pose proof (Forall2_lookup_lr _ _ _ _ _ _ Hl Hc Ho) as Hlc. destruct o as [t|]; [|by apply loads_None_inv in Hlc as ->].
    specialize (Hv i t ltac:(lia) Ho). destruct t as [v| |]; try done. by apply loads_value_inv in Hlc as ->.
  - destruct Hl as [|c o ch ts Hc Hl].
    { exists [], [], d. split_and!; [done|done|done|apply step_refl|by intros _ i t]. }
    assert (exists col cac d1, (match c with nilNode => ret (nilNode, nilNode) | _ => node_hash c false end) d = (Ok (col, cac), d1) /\
      loads d1 false cac o /\ cslot o col /\ step d d1 /\ (committing dbo = true -> forall t, o = Some t -> avail (db_node d1) t))
      as (col & cac & d1 & E1 & Hcac & Hcol & Hst1 & Hav1).
    { destruct o as [t|]; [|apply loads_None_inv in Hc as ->; exists nilNode, nilNode, d; split_and!; [done|constructor|done|apply step_refl|done]].
      destruct (Hs O t ltac:(lia) eq_refl) as (Hsp & Hcan & Hno). destruct (Hsp false c d Hc Hcan Hno Hcl) as (hashed & cached & d1 & E & [H1 H2 H3 H4]).
      exists hashed, cached, d1. split_and!; [by destruct c; try (by inversion Hc)|done|by apply hashes_cchild; [apply canon_not_val|]|done|].
      intros Hco ? [= <-]. by apply H4. }
    destruct (IH ch ts d1) as (cols & cacs & d2 & E2 & Hcacs & Hcols & Hst2 & Hav2);
      [by eapply loads_slots|by apply Hst1|intros i t Hi Ht; apply (Hs (S i) t); [lia|done]|intros i t Hi Ht; apply (Hv (S i) t); [lia|done]|].
    exists (col :: cols), (cac :: cacs), d2. cbn [hash_list]. rewrite (bind_Ok _ _ _ _ _ E1). cbv beta iota. rewrite (bind_Ok _ _ _ _ _ E2).
    split_and!; [done| |by constructor|by eapply step_trans|].
    + constructor; [|done]. destruct o as [t|]; [by eapply loads_step|]. apply loads_None_inv in Hcac as ->. constructor.
    + intros Hco [|i] t Hi Ht; [|apply (Hav2 Hco i t); [lia|done]]. cbn in Ht. injection Ht as ->. eapply avail_step; [exact Hst2|by apply Hav1].
Qed.

Lemma children_short k c fl t d :
  hash_spec t -> loads d false c (Some t) -> canon (TShort k t) -> node_of (TShort k t) whole -> clean d ->
  exists col cac d', hashChildren node_hash (shortNode k c fl) d = (Ok (shortNode (compact k) col fl, shortNode k cac fl), d') /\
    cchild collapses t col /\ loads d' false cac (Some t) /\ step d d' /\
    (committing dbo = true -> forall s, node_of s t -> ~ is_val s -> (32 <= length (enc s))%nat -> found (db_node d') s).
Proof.
  intros IH Hl Hc Hno Hcl. cbn [hashChildren]. rewrite hexToCompact_compact. unfold lift_out. erewrite bind_Ok by done.
  inversion Hc as [? v Hk|? ts Hk Hne Hts|]; subst.
  - apply loads_value_inv in Hl as ->. exists (valueNode v), (valueNode v), d. split_and!; [done|done|constructor|apply step_refl|].
    intros _ s Hs Hv. inversion Hs; subst. by destruct Hv.
  - destruct (IH false c d Hl Hts) as (hashed & cached & d' & E & [H1 H2 H3 H4]); [by eapply node_of_trans; [|exact Hno]; repeat constructor|done|].
    exists hashed, cached, d'. split_and!; [|apply hashes_cchild; [by intros []|done]|done|done|intros Hco; by apply H4].
    destruct c; try (by inversion Hl); by rewrite (bind_Ok _ _ _ _ _ E).
Qed.

Lemma children_full ch fl ts d :
  (forall i t, ts !! i = Some (Some t) -> hash_spec t) ->
  Forall2 (loads d false) ch ts -> canon (TFull ts) -> node_of (TFull ts) whole -> clean d ->
  exists cols cacs d', hashChildren node_hash (fullNode ch fl) d = (Ok (fullNode cols fl, fullNode cacs fl), d') /\
    Forall2 cslot ts cols /\ Forall2 (loads d' false) cacs ts /\ step d d' /\
    (committing dbo = true -> forall i t s, ts !! i = Some (Some t) -> node_of s t -> ~ is_val s -> (32 <= length (enc s))%nat -> found (db_node d') s).
Proof.
  intros IH Hl Hc Hno Hcl. inversion Hc as [| |? Hlen Hcan Hval _]; subst.
  assert (H16 : forall i t, (16 <= i)%nat -> ts !! i = Some (Some t) -> is_val t).
  { intros i t Hi Ht. pose proof (lookup_lt_Some _ _ _ Ht). assert (i = 16%nat) as -> by lia. by destruct (Hval _ Ht) as [v ->]. }
  destruct (hash_list_ok 16 ch ts d Hl Hcl) as (cols & cacs & d' & E & Hcacs & Hcols & Hst & Hav); [|done|].
  { intros i t Hi Ht. split_and!; [by eapply IH|by eapply Hcan|]. eapply node_of_trans; [|exact Hno]. econstructor; [exact Ht|constructor]. }
  exists cols, cacs, d'. cbn [hashChildren]. rewrite (bind_Ok _ _ _ _ _ E). split_and!; [done..|].
  intros Hco i t s Ht Hs Hv Hlen'. destruct (decide (i < 16)%nat) as [Hi|]; [by eapply (Hav Hco i t)|].
  specialize (H16 i t ltac:(lia) Ht). destruct t as [v| |]; try done. inversion Hs; subst. by destruct Hv.
Qed.

(** Storing a node whose children have been dealt with, and recording its hash. *)
Lemma walk_ok root t fl mk c d d1 :
  node_of t whole -> canon t -> collapses t c -> cache_ok t c -> clean d1 -> step d d1 ->
  okf (db_node d) root fl t -> (committing dbo = false -> nf_hash fl = None) ->
  (forall d2 fl', step d1 d2 -> okf (db_node d2) root fl' t -> loads d2 root (mk fl') (Some t)) ->
  (forall h, set_cached dbo h (mk fl) = mk (mkFlag h (if committing dbo then false else nf_dirty fl))) ->
  (committing dbo = true -> forall s, node_of s t -> ~ is_val s -> (32 <= length (enc s))%nat -> s = t \/ found (db_node d1) s) ->
  exists hashed cached d', (hashed ← store dbo c root;
     ret (hashed, set_cached dbo (match hashed with hashNode h => Some h | _ => None end) (mk fl))) d1 = (Ok (hashed, cached), d') /\
    hashed_ok root t d hashed cached d'.
Proof.
  intros Hn Hc Hcol Hca Hcl Hst Hfl Hnone Hmk Hset Hsub.
  destruct (store_ok t c root d1 Hn Hc Hcol Hca Hcl Hsub) as (hashed & d' & E & Hh & Hst' & Hfd).
  exists hashed, (set_cached dbo (match hashed with hashNode h => Some h | _ => None end) (mk fl)), d'.
  rewrite (bind_Ok _ _ _ _ _ E). split; [done|].
  assert (Hav : committing dbo = true -> avail (db_node d') t).
  { intros Hco s Hs Hv Hlen. destruct (Hsub Hco s Hs Hv Hlen) as [->|]; [by apply Hfd; [|right]|]. by eapply found_mono; [apply Hst'|]. }
  assert (Hcase : (hashed = hashNode (keccak256 (enc t)) /\ (root = true \/ (32 <= length (enc t))%nat)) \/
                  (is_hash hashed = false /\ root = false /\ (length (enc t) < 32)%nat)).
  { unfold hashes in Hh. destruct root; cbn [orb] in Hh; [left; by split; [|left]|].
    destruct (Nat.leb_spec 32 (length (enc t))); [left; by split; [|right]|right]. split_and!; [|done|done]. by eapply collapses_not_ref. }
  constructor; [done| |by eapply step_trans|intros Hco; split; [by apply Hav|by apply Hfd]].
  rewrite Hset. apply Hmk; [done|]. destruct Hcase as [[-> Hor]|(Hnh & -> & Hlt)].
  - split; [|done]. cbn [nf_hash nf_dirty]. intros h [= <-]. split_and!; [done|intros ->; by destruct Hor|].
    destruct (committing dbo) eqn:Eco; [intros _; split; [by apply Hav|by apply Hfd]|]. intros Hd.
    destruct Hfl as [_ Hfl]. destruct (Hfl (Hnone eq_refl) Hd) as [-> Hlt]. destruct Hor; [done|lia].
  - split; [|done]. cbn [nf_hash]. intros h Hh'. by destruct hashed.
Qed.

Definition walk (n : node) (force : bool) : M D (node * node) :=
  '(collapsed, cached) ← hashChildren node_hash n;
  hashed ← store dbo collapsed force;
  ret (hashed, set_cached dbo (match hashed with hashNode h => Some h | _ => None end) cached).

Lemma node_hash_eq n force :
  node_hash n force =
    match cache n with
    | (Some h, dirty) =>
        if negb (committing dbo) then ret (hashNode h, n)
        else if negb dirty then ret (hashNode h, match n with fullNode _ _ | shortNode _ _ _ => hashNode h | _ => n end)
        else walk n force
    | (None, _) => walk n force
    end.
Proof. by destruct n. Qed.

Lemma hashes_root t root : (root = false -> (32 <= length (enc t))%nat) -> hashes t root (hashNode (keccak256 (enc t))).
Proof.
  intros Hr. unfold hashes. destruct root; [done|]. cbn [orb]. specialize (Hr eq_refl). by destruct (Nat.leb_spec 32 (length (enc t))); [|lia].
Qed.

(** A hash node, and a node that already has its hash. *)
Lemma hashed_before root n t d fl :
  loads d root n (Some t) -> canon t -> cache n = (nf_hash fl, nf_dirty fl) -> stored n -> okf (db_node d) root fl t ->
  nf_hash fl <> None -> (committing dbo = true -> nf_dirty fl = false) ->
  exists hashed cached d', node_hash n root d = (Ok (hashed, cached), d') /\ hashed_ok root t d hashed cached d'.
Proof.
  intros Hl Hc Hca Hst [Hfl _] Hn Hd. destruct (nf_hash fl) as [h|] eqn:Eh; [|done]. destruct (Hfl h eq_refl) as (-> & Hr & Hav).
  rewrite node_hash_eq, Hca. destruct (committing dbo) eqn:Eco; cbn [negb].
  - rewrite (Hd eq_refl) in *. destruct (Hav eq_refl) as [Ha Hfd].
    exists (hashNode (keccak256 (enc t))), (hashNode (keccak256 (enc t))), d. split; [by destruct n|].
    constructor; [by apply hashes_root| |apply step_refl|done].
    econstructor; [by split_and!|exact Hfd|apply stored_expand; by apply canon_not_val|by apply loads_expand].
  - eexists _, n, d. split; [done|]. constructor; [by apply hashes_root|done|apply step_refl|congruence].
Qed.

Lemma hash_hash_ok root h t d :
  loads d root (hashNode h) (Some t) ->
  exists hashed cached d', node_hash (hashNode h) root d = (Ok (hashed, cached), d') /\ hashed_ok root t d hashed cached d'.
Proof.
  intros Hl. exists (hashNode h), (hashNode h), d. split; [done|]. inversion Hl as [| | | |? n' ? (-> & Hr & Ha & Hf)]; subst.
  constructor; [by apply hashes_root|done|apply step_refl|done].
Qed.

(** The flags for which [hash] walks the children, or not. *)
Lemma walk_or_before fl :
  (nf_hash fl <> None /\ (committing dbo = true -> nf_dirty fl = false)) \/
  ((committing dbo = false -> nf_hash fl = None) /\
   forall n force, cache n = (nf_hash fl, nf_dirty fl) -> node_hash n force = walk n force).
Proof.
  destruct (nf_hash fl) as [h|] eqn:Eh; [|right; split; [done|]; intros n force E; by rewrite node_hash_eq, E].
  destruct (committing dbo) eqn:Eco; [|by left]. destruct (nf_dirty fl) eqn:Ed; [right|by left]. split; [done|].
  intros n force E. by rewrite node_hash_eq, E, Eco.
Qed.

Lemma okf_cache d root fl t : okf (db_node d) root fl t -> nf_hash fl = None \/ nf_hash fl = Some (keccak256 (enc t)).
Proof. intros [H _]. destruct (nf_hash fl) as [h|]; [right; by destruct (H h eq_refl) as [-> _]|by left]. Qed.

Lemma node_hash_ok t : hash_spec t.
Proof.
  induction t as [v|k t IH|ts IH] using tree_induction; intros root n d Hl Hc Hno Hcl; [inversion Hc|..].
  - inversion Hl as [| |? c fl ? Hfl Hn| |h n' ? Hh]; subst; [|by apply hash_hash_ok].
    destruct (walk_or_before fl) as [[H1 H2]|[H1 H2]]; [by eapply hashed_before|]. rewrite H2 by done. unfold walk.
    destruct (children_short k c fl t d IH Hn Hc Hno Hcl) as (col & cac & d1 & E & Hcol & Hcac & Hst & Hav).
    rewrite (bind_Ok _ _ _ _ _ E). cbv beta iota.
    apply (walk_ok root (TShort k t) fl (shortNode k cac) (shortNode (compact k) col fl) d d1); try done.
    + by exists col, fl.
    + by eapply okf_cache.
    + by apply Hst.
    + intros d2 fl' Hs2 Hfl'. constructor; [done|by eapply loads_step].
    + intros Hco s Hs Hv Hlen. inversion Hs; subst; [by left|right; by apply Hav].
  - inversion Hl as [| | |ch fl ? Hfl Hch|h n' ? Hh]; subst; [|by apply hash_hash_ok].
    destruct (walk_or_before fl) as [[H1 H2]|[H1 H2]]; [by eapply hashed_before|]. rewrite H2 by done. unfold walk.
    destruct (children_full ch fl ts d IH Hch Hc Hno Hcl) as (cols & cacs & d1 & E & Hcols & Hcacs & Hst & Hav).
    rewrite (bind_Ok _ _ _ _ _ E). cbv beta iota.
    apply (walk_ok root (TFull ts) fl (fullNode cacs) (fullNode cols fl) d d1); try done.
    + apply collapses_full. by exists cols, fl.
    + by eapply okf_cache.
    + by apply Hst.
    + intros d2 fl' Hs2 Hfl'. constructor; [done|by eapply loads_slots].
    + intros Hco s Hs Hv Hlen. inversion Hs; subst; [by left|right; by eapply Hav].
Qed.
End Hasher.

(** ** [Hash] and [Commit] *)

Section Roots.
Context {crypto : Crypto}.

Definition tree_ok (ot : option tree) : Prop := match ot with None => True | Some t => canon t /\ tfits t end.

Lemma tfits_sub t s : tfits t -> node_of s t -> canon s -> tfits s.
Proof.
  intros Ht Hs Hc. revert Ht. induction Hs as [|k t Hs IH|ts i t Hi Hs IH]; intros Ht; [done|..]; apply IH; inversion Ht; subst; eauto.
Qed.

Lemma trie_Hash_ok db_node root ot :
  loads db_node (okf db_node) (okh db_node) true root ot -> tree_ok ot ->
  exists root', trie_Hash root = (Ok (BytesToHash (root_hash ot)), root') /\
    loads db_node (okf db_node) (okh db_node) true root' ot.
Proof.
  intros Hl Hok. unfold trie_Hash, hashRoot. destruct ot as [t|]; [|apply loads_None_inv in Hl as ->; eexists; by split; [|constructor]].
  destruct Hok as [Hc Hf].
  destruct (node_hash_ok (fun _ : unit => db_node) None (fun _ => True) t) with (t := t) (root := true) (n := root) (d := tt)
    as (hashed & cached & [] & E & [Hh Hlc _ _]); try done; [by intros s Hs Hcs; eapply tfits_sub|constructor|].
  cbn in Hh. subst hashed. exists cached. split; [|done]. destruct root; try (by inversion Hl); by rewrite E.
Qed.

Section Commit.
Context {D : Type} (db_node : D -> hash -> option node).
Context (insert : hash -> bytes -> node -> M D unit) (onleaf : option (bytes -> hash -> M D unit)).

(** A database that keeps nodes: while [Inv] holds, a node of the tree whose own nodes
    are there can be inserted and its leaves reported; it is there afterwards, and
    nothing else changes. *)
Definition node_store (Inv : D -> Prop) (whole : tree) : Prop := forall d c t, Inv d ->
  node_of t whole -> canon t -> solid t -> tfits t -> collapses t c ->
  (forall n, db_node d (hash_of t) = Some n -> n = expand (Some (keccak256 (enc t))) t) ->
  (forall s, node_of s t -> ~ is_val s -> (32 <= length (enc s))%nat -> s = t \/ found (db_node d) s) ->
  exists d', put insert onleaf (hash_of t) (enc t) c d = (Ok tt, d') /\ Inv d' /\ found (db_node d') t /\
    forall h, h <> hash_of t -> db_node d' h = db_node d h.

(** A tree that can be stored: distinct nodes have distinct hashes, and nothing else is
    stored under the hash of one of its nodes. *)
Record storable (d : D) (t : tree) : Prop := {
  sb_canon : canon t;
  sb_fits : tfits t;
  sb_solid : solid t;
  sb_nocoll : forall s1 s2, node_of s1 t -> node_of s2 t -> keccak256 (enc s1) = keccak256 (enc s2) -> enc s1 = enc s2;
  sb_clean : forall s n, node_of s t -> canon s -> db_node d (hash_of s) = Some n -> n = expand (Some (keccak256 (enc s))) s }.

Lemma trie_Commit_ok Inv d root t :
  node_store Inv t -> Inv d -> storable d t -> loads (db_node d) (okf (db_node d)) (okh (db_node d)) true root (Some t) ->
  exists root' d', trie_Commit insert onleaf (root, d) = (Ok (hash_of t), (root', d')) /\ Inv d' /\
    loads (db_node d') (okf (db_node d')) (okh (db_node d')) true root' (Some t) /\
    extends (db_node d) (db_node d') /\ avail (db_node d') t /\ found (db_node d') t.
Proof.
  intros Hns Hinv [Hc Hf Hs Hno Hcl] Hl. unfold trie_Commit, hashRoot.
  destruct (node_hash_ok db_node (Some (insert, onleaf)) Inv t) with (t := t) (root := true) (n := root) (d := d)
    as (hashed & cached & d' & E & [Hh Hlc [Hext Hcl'] Hst]); try done.
  - intros ins ol d1 c s [= <- <-]. apply Hns.
  - intros s Hs' Hcs. by eapply tfits_sub.
  - constructor.
  - cbn in Hh. subst hashed. destruct (Hst eq_refl) as [Ha Hfd]. exists cached, d'.
    split_and!; [|by apply Hcl'|done|done|done|by apply Hfd; left]. destruct root; try (by inversion Hl); by rewrite E.
Qed.

(** Opening a trie whose root is stored. *)
Lemma trie_New_ok d t :
  canon t -> avail (db_node d) t -> found (db_node d) t -> hash_of t <> 0 -> hash_of t <> trie_emptyRoot ->
  exists root, trie_New (db_node d) (hash_of t) = Ok root /\
    loads (db_node d) (okf (db_node d)) (okh (db_node d)) true root (Some t).
Proof.
  intros Hc Ha Hf H0 He. unfold trie_New. destruct (Z.eqb_spec (hash_of t) 0); [done|]. destruct (Z.eqb_spec (hash_of t) trie_emptyRoot); [done|].
  cbn [negb andb]. unfold resolveHash.
  assert (E : BytesToHash (hash_bytes (hash_of t)) = hash_of t) by apply BytesToHash_hash_bytes, wf_BytesToHash, keccak256_length.
  rewrite E. unfold found in Hf. rewrite Hf. eexists. split; [done|]. apply loads_expand; [done|done|]. by split_and!.
Qed.
End Commit.
End Roots.
