(* ===== verification/TrieMap.v ===== *)
(** The trie as a map from keys to values: what its operations promise to the state
    database, and what its root hash stands for. *)
From stdpp Require Import prelude list strings.
From Stdlib Require Import ZArith Lia.
From S2P Require Import Prelude VarBytes RLP RLPStream RLPDecode Crypto TrieKeys Trie TrieNode TrieFacts TrieEnc TrieDecode TrieHash.
Local Open Scope Z_scope.

Section TrieMap.
Context {crypto : Crypto} (db_node : hash -> option node).
Local Abbreviation loads := (loads db_node (okf db_node) (okh db_node)).

(** ** The map behind a trie *)

Abbreviation kvmap := (bytes -> option bytes).

Definition small (k v : bytes) : Prop := 2 * Z.of_nat (length k) + 1 + Z.of_nat (length v) <= 2 ^ 32.

(** The tree holds the map. *)
Record tree_holds (ot : option tree) (m : kvmap) : Prop := {
  th_canon : forall t, ot = Some t -> canon t;
  th_map : forall k, contents ot (keybytesToHex k) = m k;
  th_keys : forall k v, contents ot k = Some v -> exists kb, k = keybytesToHex kb;
  th_small : forall k v, m k = Some v -> small k v }.

(** The trie with this root holds the map. *)
Definition holds (root : node) (m : kvmap) : Prop := exists ot, loads true root ot /\ tree_holds ot m.

Inductive trie_op := TGet (k : bytes) | TUpdate (k v : bytes) | TDelete (k : bytes) | THash.

Definition op_ok (op : trie_op) : Prop := match op with TUpdate k v => small k v | _ => True end.

Definition map_after (op : trie_op) (m : kvmap) : kvmap :=
  match op with
  | TUpdate k v => fun k' => if decide (k' = k) then Some v else m k'
  | TDelete k => fun k' => if decide (k' = k) then None else m k'
  | _ => m
  end.

(** What the operation returns, where it returns something. *)
Definition result (op : trie_op) (m : kvmap) : option bytes := match op with TGet k => m k | _ => None end.

Definition trie_exec (op : trie_op) : M node (option bytes) :=
  match op with
  | TGet k => trie_TryGet db_node k
  | TUpdate k v => trie_TryUpdate db_node k v ;; ret None
  | TDelete k => trie_TryDelete db_node k ;; ret None
  | THash => trie_Hash ;; ret None
  end.

Lemma holds_pos ot m k : tree_holds ot m -> at_pos ot (keybytesToHex k).
Proof. intros H. right. split; [apply keybytesToHex_full|apply H]. Qed.

Lemma walk_enough n k : (need n k <= walk_fuel k)%nat.
Proof. apply need_le. Qed.

Lemma tree_holds_ok ot m : tree_holds ot m -> tree_ok ot.
Proof.
  intros H. destruct ot as [t|]; [|done]. pose proof (th_canon _ _ H t eq_refl) as Hc. split; [done|].
  apply bounded_tfits; [done|]. intros k v E. destruct (th_keys _ _ H k v E) as [kb ->].
  pose proof (th_map _ _ H kb) as Hm. cbn in Hm. rewrite E in Hm. symmetry in Hm. apply H in Hm. unfold small in Hm.
  unfold keybytesToHex. rewrite length_app, length_nibbles_of. cbn [length]. lia.
Qed.

Lemma trie_exec_ok (root : node) (m : kvmap) (op : trie_op) :
  holds root m -> op_ok op ->
  exists root', trie_exec op root = (Ok (result op m), root') /\ holds root' (map_after op m).
Proof.
  intros (ot & Hl & Ht) Hop. destruct op as [k|k v|k|]; cbn [trie_exec result map_after].
  - destruct (tryGet_ok db_node (okf db_node) (okh db_node) (walk_fuel (keybytesToHex k)) true root ot (keybytesToHex k) 0) as (n' & res & E & Hl');
      [done|lia|by eapply holds_pos|apply walk_enough|].
    unfold trie_TryGet. cbv zeta. rewrite E, drop_0, (th_map _ _ Ht). eexists. split; [done|]. exists ot. by destruct res.
  - destruct (insert_ok db_node (okf db_node) (okh db_node) (okf_new db_node) (walk_fuel (keybytesToHex k)) true root ot [] (keybytesToHex k) v) as (d & n' & t' & E & Hl' & Hu & _);
      [done|by eapply holds_pos|apply walk_enough|].
    unfold trie_TryUpdate, bindM. cbv zeta. rewrite E. eexists. split; [done|]. exists (Some t'). split; [done|].
    constructor.
    + intros ? [= <-]. eapply at_pos_full; [apply keybytesToHex_full|apply Hu|done].
    + intros k'. cbn [contents]. rewrite (upd_content _ _ _ _ Hu).
      destruct (decide (k' = k)) as [->|Hne]; [by rewrite decide_True|].
      rewrite decide_False by (by intros ?%keybytesToHex_inj). apply Ht.
    + intros k' v'. cbn [contents]. rewrite (upd_content _ _ _ _ Hu). destruct (decide _) as [->|]; [by eexists|apply Ht].
    + intros k' v'. destruct (decide (k' = k)) as [->|]; [by intros [= <-]|apply Ht].
  - destruct (delete_ok db_node (okf db_node) (okh db_node) (okf_new db_node) (walk_fuel (keybytesToHex k)) true root ot [] (keybytesToHex k)) as (d & n' & ot' & E & Hl' & Hd & _);
      [done|by eapply holds_pos|apply walk_enough|].
    unfold trie_TryDelete, bindM. cbv zeta. rewrite E. eexists. split; [done|]. exists ot'. split; [done|].
    constructor.
    + intros t ->. eapply at_pos_full; [apply keybytesToHex_full|apply Hd|done].
    + intros k'. rewrite (del_content _ _ _ Hd). destruct (decide (k' = k)) as [->|Hne]; [by rewrite decide_True|].
      rewrite decide_False by (by intros ?%keybytesToHex_inj). apply Ht.
    + intros k' v'. rewrite (del_content _ _ _ Hd). destruct (decide _) as [->|]; [done|apply Ht].
    + intros k' v'. destruct (decide (k' = k)) as [->|]; [done|apply Ht].
  - destruct (trie_Hash_ok db_node root ot Hl (tree_holds_ok _ _ Ht)) as (root' & E & Hl'). unfold bindM. rewrite E.
    eexists. split; [done|]. by exists ot.
Qed.

(** C30: the trie is a map.  On a trie that holds [m], with unloaded parts or not,
    lookup returns the value of [m], update and deletion succeed and leave a trie that
    holds the updated map, and hashing leaves the map alone.  An empty value is stored,
    not deleted. *)
Theorem trie_refines_map (root : node) (m : kvmap) (op : trie_op) :
  holds root m -> op_ok op ->
  exists root', trie_exec op root = (Ok (result op m), root') /\ holds root' (map_after op m).
Proof. apply trie_exec_ok. Qed.

Fixpoint trie_run (ops : list trie_op) : M node unit :=
  match ops with [] => ret tt | op :: ops => trie_exec op ;; trie_run ops end.

Definition map_of (ops : list trie_op) (m : kvmap) : kvmap := foldl (fun m op => map_after op m) m ops.

Lemma trie_run_ok ops : forall root m, holds root m -> Forall op_ok ops ->
  exists root', trie_run ops root = (Ok tt, root') /\ holds root' (map_of ops m).
Proof.
  induction ops as [|op ops IH]; intros root m Hh Hops; [by exists root|]. apply Forall_cons in Hops as [Hop Hops].
  destruct (trie_exec_ok root m op Hh Hop) as (r1 & E1 & H1). destruct (IH r1 (map_after op m) H1 Hops) as (r2 & E2 & H2).
  exists r2. cbn [trie_run]. by rewrite (bind_Ok _ _ _ _ _ E1).
Qed.

Lemma holds_empty : holds nilNode (fun _ => None).
Proof. exists None. split; [constructor|]. by constructor. Qed.
End TrieMap.

(** ** Contents determine the root hash *)

Lemma tree_holds_unique ot1 ot2 m1 m2 :
  tree_holds ot1 m1 -> tree_holds ot2 m2 -> (forall k, m1 k = m2 k) -> ot1 = ot2.
Proof.
  intros H1 H2 Hm.
  assert (Hle : forall ot ot' m m', tree_holds ot m -> tree_holds ot' m' -> (forall k, m k = m' k) ->
    forall k v, contents ot k = Some v -> contents ot' k = Some v).
  { intros ot ot' m m' H H' E k v Hk. destruct (th_keys _ _ H k v Hk) as [kb ->]. rewrite (th_map _ _ H) in Hk.
    by rewrite (th_map _ _ H'), <- E. }
  assert (Heq : forall k, contents ot1 k = contents ot2 k).
  { intros k. destruct (contents ot1 k) as [v|] eqn:E1; [symmetry; by eapply (Hle ot1 ot2)|].
    destruct (contents ot2 k) as [v|] eqn:E2; [|done]. rewrite <- E1. by eapply (Hle ot2 ot1). }
  destruct ot1 as [t1|], ot2 as [t2|]; [|exfalso..|done].
  - f_equal. apply canon_unique; [by apply H1|by apply H2|done].
  - destruct (canon_inhabited t1) as (k & v & E); [by apply H1|]. specialize (Heq k). cbn in Heq. congruence.
  - destruct (canon_inhabited t2) as (k & v & E); [by apply H2|]. specialize (Heq k). cbn in Heq. congruence.
Qed.

Lemma holds_same_hash `{Crypto} db1 db2 r1 r2 m1 m2 :
  holds db1 r1 m1 -> holds db2 r2 m2 -> (forall k, m1 k = m2 k) ->
  exists h r1' r2', trie_Hash r1 = (Ok h, r1') /\ trie_Hash r2 = (Ok h, r2').
Proof.
  intros (ot1 & Hl1 & Ht1) (ot2 & Hl2 & Ht2) Hm. pose proof (tree_holds_unique _ _ _ _ Ht1 Ht2 Hm) as ->.
  destruct (trie_Hash_ok _ _ _ Hl1 (tree_holds_ok _ _ Ht1)) as (r1' & E1 & _).
  destruct (trie_Hash_ok _ _ _ Hl2 (tree_holds_ok _ _ Ht1)) as (r2' & E2 & _). by exists (BytesToHash (root_hash ot2)), r1', r2'.
Qed.

(** C31: history does not matter.  Two tries built from nothing by any sequences of
    lookups, updates, deletions and hashings that leave the same map have the same root
    hash. *)
Theorem trie_history_independent `{Crypto} (db1 db2 : hash -> option node) (ops1 ops2 : list trie_op) :
  Forall op_ok ops1 -> Forall op_ok ops2 ->
  (forall k, map_of ops1 (fun _ => None) k = map_of ops2 (fun _ => None) k) ->
  exists h r1 r2,
    (trie_run db1 ops1 ;; trie_Hash) nilNode = (Ok h, r1) /\
    (trie_run db2 ops2 ;; trie_Hash) nilNode = (Ok h, r2).
Proof.
  intros H1 H2 Hm. destruct (trie_run_ok db1 ops1 nilNode _ (holds_empty db1) H1) as (s1 & E1 & Hh1).
  destruct (trie_run_ok db2 ops2 nilNode _ (holds_empty db2) H2) as (s2 & E2 & Hh2).
  destruct (holds_same_hash db1 db2 s1 s2 _ _ Hh1 Hh2 Hm) as (h & r1 & r2 & Er1 & Er2). exists h, r1, r2.
  by rewrite (bind_Ok _ _ _ _ _ E1), (bind_Ok _ _ _ _ _ E2).
Qed.

(** ** The root hash binds the contents *)

Definition fixed_keys (m : bytes -> option bytes) (n : nat) : Prop := forall k v, m k = Some v -> length k = n.

Lemma holds_solid t m n : tree_holds (Some t) m -> fixed_keys m n -> solid t.
Proof.
  intros H K. apply (fixed_solid t (2 * n + 1)); [by apply H|]. intros k v Hk. destruct (th_keys _ _ H k v Hk) as [kb ->].
  change (contents (Some t) (keybytesToHex kb) = Some v) in Hk. rewrite (th_map _ _ H) in Hk. apply K in Hk.
  unfold keybytesToHex. rewrite length_app, length_nibbles_of. cbn. lia.
Qed.

(** Without empty values, too, what is written determines what is held. *)
Definition full_values (m : bytes -> option bytes) : Prop := forall k v, m k = Some v -> v <> [].

Lemma holds_solid_full t m : tree_holds (Some t) m -> full_values m -> solid t.
Proof.
  intros H K ts Hts H16. destruct (node_path t _ Hts (th_canon _ _ H t eq_refl)) as [p Hp].
  assert (E : content t (p ++ [z2b (Z.of_nat 16)]) = Some []) by (rewrite Hp, content_child, H16 by lia; done).
  destruct (th_keys _ _ H _ _ E) as [kb Ek]. rewrite Ek in E. change (contents (Some t) (keybytesToHex kb) = Some []) in E.
  rewrite (th_map _ _ H) in E. by apply K in E.
Qed.

Section Binding.
Context {crypto : Crypto}.

Lemma binding_trees ot1 ot2 m1 m2 :
  keccak256 [Byte.x80] = emptyRoot_bytes ->
  tree_holds ot1 m1 -> tree_holds ot2 m2 -> (forall t, ot1 = Some t -> solid t) -> (forall t, ot2 = Some t -> solid t) -> root_hash ot1 = root_hash ot2 ->
  (forall k, m1 k = m2 k) \/
  exists e1 e2, node_enc ot1 e1 /\ node_enc ot2 e2 /\ e1 <> e2 /\ keccak256 e1 = keccak256 e2.
Proof.
  intros He H1 H2 K1 K2 E.
  pose proof (tree_holds_ok _ _ H1) as O1. pose proof (tree_holds_ok _ _ H2) as O2.
  destruct ot1 as [t1|], ot2 as [t2|]; cbn [root_hash tree_ok] in *.
  - destruct O1 as [C1 F1], O2 as [C2 F2]. destruct (decide (enc t1 = enc t2)) as [Ee|Hne].
    + apply rlp_enc_inj in Ee; [|by apply tfits_sfits; [apply canon_not_val|]].
      destruct (body_binding t1 t2) as [->|(s1 & s2 & N1 & N2 & Hne & Ek)]; [done..|by apply K1|by apply K2|done| |].
      * left. intros k. by rewrite <- (th_map _ _ H1), <- (th_map _ _ H2).
      * right. exists (enc s1), (enc s2). split_and!; [by exists s1|by exists s2|done|done].
    + right. exists (enc t1), (enc t2). split_and!; [exists t1; by split; [constructor|]|exists t2; by split; [constructor|]|done|done].
  - right. exists (enc t1), [Byte.x80]. destruct O1 as [C1 F1]. split_and!; [exists t1; by split; [constructor|]|done|by apply enc_not_empty|congruence].
  - right. exists [Byte.x80], (enc t2). destruct O2 as [C2 F2]. split_and!; [done|exists t2; by split; [constructor|]| |congruence].
    intros E'. by eapply enc_not_empty.
  - left. intros k. by rewrite <- (th_map _ _ H1), <- (th_map _ _ H2).
Qed.

Lemma holds_binding (db1 db2 : hash -> option node) (r1 r2 r1' r2' : node) (m1 m2 : bytes -> option bytes) (h : hash) :
  keccak256 [Byte.x80] = emptyRoot_bytes ->
  holds db1 r1 m1 -> holds db2 r2 m2 ->
  (forall t, tree_holds (Some t) m1 -> solid t) -> (forall t, tree_holds (Some t) m2 -> solid t) ->
  trie_Hash r1 = (Ok h, r1') -> trie_Hash r2 = (Ok h, r2') ->
  (forall k, m1 k = m2 k) \/
  exists ot1 ot2 e1 e2, loads db1 (okf db1) (okh db1) true r1 ot1 /\ loads db2 (okf db2) (okh db2) true r2 ot2 /\
    node_enc ot1 e1 /\ node_enc ot2 e2 /\ e1 <> e2 /\ keccak256 e1 = keccak256 e2.
Proof.
  intros He (ot1 & Hl1 & Ht1) (ot2 & Hl2 & Ht2) K1 K2 E1 E2.
  destruct (trie_Hash_ok db1 r1 ot1 Hl1 (tree_holds_ok _ _ Ht1)) as (s1 & E1' & _). rewrite E1' in E1. injection E1 as E1 _.
  destruct (trie_Hash_ok db2 r2 ot2 Hl2 (tree_holds_ok _ _ Ht2)) as (s2 & E2' & _). rewrite E2' in E2. injection E2 as E2 _.
  rewrite <- E2 in E1. apply BytesToHash_inj in E1; [|apply root_hash_length..].
  destruct (binding_trees ot1 ot2 m1 m2 He Ht1 Ht2) as [|(e1 & e2 & N1 & N2 & Hne & Ek)]; [intros t ->; by apply K1|intros t ->; by apply K2|done|by left|right].
  exists ot1, ot2, e1, e2. by split_and!.
Qed.
End Binding.


(** ** Instances *)

Definition no_nodes : hash -> option node := fun _ => None.
Definition sample_k1 : bytes := [Byte.x12; Byte.x34].
Definition sample_k2 : bytes := [Byte.x12; Byte.x35].
Definition sample_k3 : bytes := [Byte.x92; Byte.x00].

(** Two histories of one map: [sample_k3] comes and goes. *)
Definition sample_ops1 : list trie_op := [TUpdate sample_k1 [Byte.x01]; TUpdate sample_k2 (replicate 40 Byte.xaa); TGet sample_k3].
Definition sample_ops2 : list trie_op :=
  [TUpdate sample_k3 [Byte.x07]; TUpdate sample_k2 []; THash; TUpdate sample_k2 (replicate 40 Byte.xaa); TUpdate sample_k1 [Byte.x01]; THash; TDelete sample_k3].

Lemma sample_ops_ok : Forall op_ok sample_ops1 /\ Forall op_ok sample_ops2.
Proof. split; repeat constructor; vm_compute; discriminate. Qed.

Lemma sample_ops_same k : map_of sample_ops1 (fun _ => None) k = map_of sample_ops2 (fun _ => None) k.
Proof.
  unfold map_of, sample_ops1, sample_ops2. cbn [foldl map_after].
  destruct (decide (k = sample_k1)) as [->|H1]; [by vm_compute|]. destruct (decide (k = sample_k2)) as [->|H2]; [by vm_compute|].
  destruct (decide (k = sample_k3)) as [->|H3]; [by vm_compute|]. done.
Qed.

Lemma trie_refines_map_witness :
  let root := snd (trie_run (crypto:=sample_crypto) no_nodes sample_ops1 nilNode) in
  exists root', trie_exec (crypto:=sample_crypto) no_nodes (TDelete sample_k1) root = (Ok None, root') /\
    holds (crypto:=sample_crypto) no_nodes root' (map_after (TDelete sample_k1) (map_of sample_ops1 (fun _ => None))).
Proof.
  intros root. apply (trie_refines_map (crypto:=sample_crypto) no_nodes root (map_of sample_ops1 (fun _ => None)) (TDelete sample_k1)); [|done].
  destruct (trie_run_ok (crypto:=sample_crypto) no_nodes sample_ops1 nilNode _ (holds_empty no_nodes)) as (r & E & H); [apply sample_ops_ok|].
  unfold root. by rewrite E.
Defined.

Lemma trie_history_independent_witness : exists h r1 r2,
  (trie_run (crypto:=sample_crypto) no_nodes sample_ops1 ;; trie_Hash (crypto:=sample_crypto)) nilNode = (Ok h, r1) /\
  (trie_run (crypto:=sample_crypto) no_nodes sample_ops2 ;; trie_Hash (crypto:=sample_crypto)) nilNode = (Ok h, r2).
Proof.
  apply (trie_history_independent (H:=sample_crypto) no_nodes no_nodes sample_ops1 sample_ops2);
    [apply sample_ops_ok|apply sample_ops_ok|apply sample_ops_same].
Defined.

(** A digest that gives the empty trie its known root. *)
Definition trie_crypto : Crypto.
Proof.
  refine {| keccak256 := fun b => if decide (b = [Byte.x80]) then emptyRoot_bytes
              else reverse (put_le 32 (be_value b mod (2 ^ 256 - 189)));
            RecoverPubkey := fun _ sig => Ok sig;
            secp256k1_Sign := fun h _ => Ok h;
            elliptic_Unmarshal := fun _ => None |}.
  - intros b. destruct (decide _); [|by rewrite length_reverse, length_put_le].
    unfold emptyRoot_bytes, hash_bytes. by rewrite length_reverse, length_put_le.
  - done.
Defined.

