(* ===== verification/TrieProof.v ===== *)
(** Merkle proofs (trie/proof.go): [Prove] writes the nodes on the path of a key,
    [VerifyProof] follows them from a root hash. *)
From stdpp Require Import prelude list strings pretty.
From Stdlib Require Import ZArith Lia.
From S2P Require Import Prelude VarBytes RLP RLPStream RLPDecode Crypto TrieKeys Trie TrieNode TrieFacts TrieEnc TrieDecode TrieHash TrieMap.
Local Open Scope Z_scope.

(** ** The code *)

(** Walk down a node in memory: the rest of the key, and what it leads to. *)
Fixpoint proof_get (tn : node) (key : bytes) {struct tn} : outcome (bytes * node) :=
  match tn with
  | shortNode nkey val _ =>
      if (length key <? length nkey)%nat || negb (bool_decide (nkey = take (length nkey) key))
      then Ok ([], nilNode)
      else proof_get val (drop (length nkey) key)
  | fullNode ch _ =>
      match key with
      | [] => Panic "index out of range"
      | x :: key =>
          (fix go (ch : list node) (i : nat) : outcome (bytes * node) :=
             match ch, i with
             | [], _ => Panic "index out of range"
             | c :: _, O => proof_get c key
             | _ :: ch, S i => go ch i
             end) ch (nib x)
      end
  | hashNode _ => Ok (key, tn)
  | nilNode => Ok (key, nilNode)
  | valueNode _ => Ok ([], tn)
  end.

Section Verify.
(** [proofDb.Get], an error being the same as a missing key. *)
Context (proofDb : bytes -> option bytes).

Fixpoint VerifyProof_loop (fuel : nat) (wantHash key : bytes) (i : nat) : outcome (option bytes * nat) :=
  match fuel with
  | O => Blocked
  | S fuel =>
      match proofDb wantHash with
      | None => Err (ErrNew ("proof node " +:+ pretty i +:+ " (hash " +:+ EncodeToString wantHash +:+ ") missing"))
      | Some buf =>
          match decodeNode (Some wantHash) buf with
          | Err e => Err (ErrNew ("bad proof node " +:+ pretty i +:+ ": " +:+ err_string e))
          | Panic w => Panic w
          | Blocked => Blocked
          | Ok n =>
              ('(keyrest, cld) ← proof_get n key;
               match cld with
               | nilNode => Ok (None, i)
               | hashNode h => VerifyProof_loop fuel h keyrest (S i)
               | valueNode v => Ok (Some v, S i)
               | _ => Blocked
               end)%stdpp
          end
      end
  end.

(** Every hash followed takes a nibble off the key. *)
Definition VerifyProof (rootHash : hash) (key : bytes) : outcome (option bytes * nat) :=
  let key := keybytesToHex key in
  VerifyProof_loop (S (length key)) (hash_bytes rootHash) key 0.
End Verify.

Section Prove.
Context {crypto : Crypto} (db_node : hash -> option node).

(** The loop of [Prove]: the nodes on the path. *)
Fixpoint path_nodes (fuel : nat) (tn : node) (key : bytes) : outcome (list node) :=
  match fuel with
  | O => Blocked
  | S fuel =>
      match key, tn with
      | [], _ | _, nilNode => Ok []
      | _, shortNode nkey val _ =>
          if (length key <? length nkey)%nat || negb (bool_decide (nkey = take (length nkey) key))
          then Ok [tn]
          else (l ← path_nodes fuel val (drop (length nkey) key); Ok (tn :: l))%stdpp
      | x :: ktl, fullNode ch _ =>
          (c ← childAt ch (nib x); l ← path_nodes fuel c ktl; Ok (tn :: l))%stdpp
      | _, hashNode h => (n ← resolveHash db_node h []; path_nodes fuel n key)%stdpp
      | _, valueNode _ => Panic "invalid node"
      end
  end.

(** The second loop: the collapsed nodes, [proofDb.Put] of those referred to by hash and
    of the first. *)
Fixpoint put_nodes (first : bool) (fromLevel : Z) (nodes : list node) : outcome (list (bytes * bytes)) :=
  match nodes with
  | [] => Ok []
  | n :: nodes =>
      match hashChildren (node_hash (D:=unit) None) n tt with
      | (Ok (n, _), _) =>
          match store (D:=unit) None n false tt with
          | (Ok hn, _) =>
              let enc := EncodeToBytes (node_item n) in
              match hn, first with
              | hashNode _, _ | _, true =>
                  if 0 <? fromLevel then put_nodes false (fromLevel - 1) nodes
                  else
                    (l ← put_nodes false fromLevel nodes;
                     Ok ((match hn with hashNode h => h | _ => makeHashNode enc end, enc) :: l))%stdpp
              | _, false => put_nodes false fromLevel nodes
              end
          | (Err e, _) => Err e
          | (Panic w, _) => Panic w
          | (Blocked, _) => Blocked
          end
      | (Err e, _) => Err e
      | (Panic w, _) => Panic w
      | (Blocked, _) => Blocked
      end
  end.

(** The entries that [Prove] writes to the proof database, in order. *)
Definition Prove (root : node) (key : bytes) (fromLevel : Z) : outcome (list (bytes * bytes)) :=
  let key := keybytesToHex key in
  (nodes ← path_nodes (walk_fuel key) root key; put_nodes true fromLevel nodes)%stdpp.
End Prove.

(** ** Paths *)

(** The subtrees on the path of a key. *)
Fixpoint tpath (t : tree) (key : bytes) : list tree :=
  match t with
  | TVal _ => []
  | TShort k t' => t :: (if bool_decide (take (length k) key = k) then tpath t' (drop (length k) key) else [])
  | TFull ts =>
      t :: match key with
           | [] => []
           | x :: key =>
               (fix go (ts : list (option tree)) (i : nat) : list tree :=
                  match ts, i with
                  | [], _ => []
                  | o :: _, O => match o with Some t => tpath t key | None => [] end
                  | _ :: ts, S i => go ts i
                  end) ts (nib x)
           end
  end.

Lemma tpath_full ts x key :
  tpath (TFull ts) (x :: key) = TFull ts :: match ts !! nib x with Some (Some t) => tpath t key | _ => [] end.
Proof.
  cbn [tpath]. f_equal. generalize (nib x) as i. induction ts as [|o ts IH]; intros i; [done|].
  destruct i as [|i]; [by destruct o|apply IH].
Qed.

Lemma proof_get_full ch fl x key :
  proof_get (fullNode ch fl) (x :: key) =
    match ch !! nib x with Some c => proof_get c key | None => Panic "index out of range" end.
Proof.
  cbn [proof_get]. generalize (nib x) as i. induction ch as [|c ch IH]; intros i; [done|].
  destruct i as [|i]; [done|apply IH].
Qed.

Lemma tpath_short_app k t key : tpath (TShort k t) (k ++ key) = TShort k t :: tpath t key.
Proof. cbn [tpath]. rewrite take_app_length, drop_app_length. by rewrite bool_decide_true. Qed.

Section ProofFacts.
Context {crypto : Crypto}.

(** What walking a loaded node leads to: nothing, a value, or the hash of a subtree that
    holds the rest of the key. *)
Definition leads (t : tree) (key rest : bytes) (cld : node) : Prop :=
  (cld = nilNode /\ content t key = None) \/
  (exists v, cld = valueNode v /\ content t key = Some v) \/
  (exists s, cld = hashNode (keccak256 (enc s)) /\ canon s /\ node_of s t /\ full_key rest /\
     content t key = content s rest /\ (length rest < length key)%nat /\
     (32 <= length (enc s))%nat /\ (forall u, u ∈ tpath s rest -> u ∈ tpath t key)).

(** The same for a child as its parent holds it: the hash may be its own. *)
Definition leads_child (t : tree) (key rest : bytes) (cld : node) : Prop :=
  leads t key rest cld \/
  (cld = hashNode (keccak256 (enc t)) /\ canon t /\ rest = key /\ full_key key /\ (32 <= length (enc t))%nat).

Lemma get_child t key :
  (forall h, canon t -> full_key key -> exists rest cld, proof_get (expand h t) key = Ok (rest, cld) /\ leads t key rest cld) ->
  at_pos (Some t) key ->
  exists rest cld, proof_get (expand_child t) key = Ok (rest, cld) /\ leads_child t key rest cld.
Proof.
  intros IH [[-> [?|[v E]]]|[Hk Hc]]; [done| |].
  - injection E as ->. exists [], (valueNode v). split; [done|]. left. right. left. by exists v.
  - specialize (Hc t eq_refl). assert (expand_child t = held (enc t) (expand None t)) as -> by (by destruct Hc). unfold held.
    destruct (Nat.ltb_spec (length (enc t)) 32); [destruct (IH None Hc Hk) as (rest & cld & E & Hl); exists rest, cld; split; [done|by left]|].
    exists key, (hashNode (keccak256 (enc t))). split; [done|]. by right.
Qed.

(** From a child to its parent. *)
Lemma leads_up t p key rest cld :
  leads_child t key rest cld -> forall whole, node_of t whole -> p <> [] ->
  content whole (p ++ key) = content t key -> (forall u, u ∈ tpath t key -> u ∈ tpath whole (p ++ key)) ->
  leads whole (p ++ key) rest cld.
Proof.
  intros Hl whole Hn Hp Hct Hpath. assert (Hlen : (length key < length (p ++ key))%nat) by (rewrite length_app; destruct p; [done|cbn; lia]).
  destruct Hl as [[[-> E]|[(v & -> & E)|(s & -> & Hc & Hs & Hk & E & Hlt & H32 & Hu)]]|(-> & Hc & -> & Hk & H32)].
  - left. split; [done|congruence].
  - right; left. exists v. split; [done|congruence].
  - right; right. exists s. split_and!; [done|done|by eapply node_of_trans|done|congruence|lia|done|]. intros u Hin. by apply Hpath, Hu.
  - right; right. exists t. by split_and!.
Qed.

Lemma get_expand t : forall h key, canon t -> full_key key ->
  exists rest cld, proof_get (expand h t) key = Ok (rest, cld) /\ leads t key rest cld.
Proof.
  induction t as [v|k t IH|ts IH] using tree_induction; intros h key Hc Hk; [inversion Hc|..].
  - rewrite expand_short. cbn [proof_get]. destruct (decide (take (length k) key = k)) as [E|Hne].
    + apply take_length_app_iff in E as (key' & ->). rewrite take_app_length, drop_app_length, bool_decide_true by done.
      rewrite length_app. destruct (Nat.ltb_spec (length k + length key') (length k)); [lia|]. cbn [orb negb].
      destruct (get_child t key') as (rest & cld & E & Hl); [intros; by apply IH|by eapply canon_short|].
      exists rest, cld. split; [done|]. eapply leads_up; [exact Hl|repeat constructor|by eapply canon_short_nonempty|apply content_short_app|].
      intros u Hu. rewrite tpath_short_app. by right.
    + exists [], nilNode. rewrite (bool_decide_false (k = _)), orb_true_r by (intros E; by apply Hne). split; [done|]. left. split; [done|].
      cbn. by rewrite bool_decide_false.
  - rewrite expand_full. destruct key as [|x key]; [by apply full_key_nonempty in Hk|].
    destruct (canon_child ts x key Hc Hk) as (o & Ho & Hat). rewrite proof_get_full, list_lookup_fmap, Ho. cbn [fmap option_fmap option_map].
    assert (Hct : content (TFull ts) (x :: key) = contents o key) by (by rewrite content_full, Ho).
    destruct o as [t|]; [|exists key, nilNode; split; [done|left; by split]].
    destruct (get_child t key) as (rest & cld & E & Hl); [intros; by eapply IH|done|].
    exists rest, cld. split; [done|]. eapply (leads_up t [x]); [exact Hl|econstructor; [exact Ho|constructor]|done|done|].
    intros u Hu. cbn [app]. rewrite tpath_full, Ho. by right.
Qed.

(** ** Soundness *)

(** A node of the trie and an entry of the proof with the same hash and different bytes. *)
Definition forged (proofDb : bytes -> option bytes) (ot : option tree) : Prop :=
  exists e h b, node_enc ot e /\ proofDb h = Some b /\ e <> b /\ keccak256 e = keccak256 b.

Lemma verify_sound proofDb t fuel : forall s key i v n,
  (forall h b, proofDb h = Some b -> keccak256 b = h) ->
  node_of s t -> canon s -> solid s -> tfits s -> full_key key ->
  VerifyProof_loop proofDb fuel (keccak256 (enc s)) key i = Ok (v, n) ->
  v = content s key \/ forged proofDb (Some t).
Proof.
  induction fuel as [|fuel IH]; intros s key i v n Hdb Hs Hc Hso Hf Hk H; [done|]. cbn [VerifyProof_loop] in H.
  destruct (proofDb (keccak256 (enc s))) as [b|] eqn:Eb; [|done].
  destruct (decide (b = enc s)) as [->|Hne].
  - rewrite decodeNode_enc in H by done. destruct (get_expand s (Some (keccak256 (enc s))) key Hc Hk) as (rest & cld & E & Hl).
    rewrite E in H. cbn [mbind outcome_bind] in H.
    destruct Hl as [[-> Hct]|[(w & -> & Hct)|(u & -> & Hcu & Hu & Hku & Hct & _)]]; [left; by simplify_eq..|].
    rewrite Hct. apply (IH u rest (S i) v n); [done|by eapply node_of_trans|done|by eapply solid_sub|by eapply tfits_sub|done|done].
  - right. exists (enc s), (keccak256 (enc s)), b. split_and!; [by exists s|done|congruence|symmetry; by apply Hdb].
Qed.

(** The empty string is not a node. *)
Lemma verify_not_empty proofDb fuel h key i r :
  VerifyProof_loop proofDb fuel h key i = Ok r -> exists b, proofDb h = Some b /\ b <> [Byte.x80].
Proof.
  destruct fuel as [|fuel]; [done|]. cbn [VerifyProof_loop]. destruct (proofDb h) as [b|]; [|done]. intros H. exists b. split; [done|].
  intros ->. assert (E : exists e, decodeNode (Some h) [Byte.x80] = Err e) by (by eexists; vm_compute). destruct E as [e E]. by rewrite E in H.
Qed.

Lemma hash_bytes_root ot : hash_bytes (BytesToHash (root_hash ot)) = root_hash ot.
Proof.
  apply BytesToHash_inj; [unfold hash_bytes; by rewrite length_reverse, length_put_le|apply root_hash_length|].
  unfold BytesToHash at 1, hash_bytes at 1. rewrite length_reverse, length_put_le, drop_0. unfold hash_bytes, be_value.
  rewrite reverse_involutive, get_put_le. apply Z.mod_small. unfold BytesToHash. rewrite root_hash_length, drop_0.
  pose proof (be_value_range (root_hash ot)) as Hr. rewrite root_hash_length in Hr. exact Hr.
Qed.

Lemma verify_sound_trie proofDb ot m n (key : bytes) v i :
  keccak256 [Byte.x80] = emptyRoot_bytes -> (forall h b, proofDb h = Some b -> keccak256 b = h) ->
  tree_holds ot m -> fixed_keys m n ->
  VerifyProof proofDb (BytesToHash (root_hash ot)) key = Ok (v, i) -> v = m key \/ forged proofDb ot.
Proof.
  intros He Hdb Ht Hfix H. unfold VerifyProof in H. cbv zeta in H.
  rewrite hash_bytes_root in H. rewrite <- (th_map _ _ Ht). pose proof (tree_holds_ok _ _ Ht) as Hok. destruct ot as [t|].
  - destruct Hok as [Hc Hf]. eapply (verify_sound proofDb t); [done|constructor|done| |done|apply keybytesToHex_full|exact H].
    by eapply holds_solid.
  - right. destruct (verify_not_empty _ _ _ _ _ _ H) as (b & Eb & Hne).
    exists [Byte.x80], emptyRoot_bytes, b. split_and!; [done|done|congruence|rewrite He; symmetry; by apply Hdb].
Qed.

(** ** Completeness *)

Lemma tpath_head t key : canon t -> exists l, tpath t key = t :: l.
Proof. destruct 1; by eexists. Qed.

Lemma verify_complete proofDb fuel : forall s key i,
  canon s -> solid s -> tfits s -> full_key key -> (length key < fuel)%nat ->
  proofDb (keccak256 (enc s)) = Some (enc s) ->
  (forall u, u ∈ tpath s key -> (32 <= length (enc u))%nat -> proofDb (keccak256 (enc u)) = Some (enc u)) ->
  exists n, VerifyProof_loop proofDb fuel (keccak256 (enc s)) key i = Ok (content s key, n).
Proof.
  induction fuel as [|fuel IH]; intros s key i Hc Hso Hf Hk Hlt Hs Hu; [lia|]. cbn [VerifyProof_loop]. rewrite Hs, decodeNode_enc by done.
  destruct (get_expand s (Some (keccak256 (enc s))) key Hc Hk) as (rest & cld & E & Hl). rewrite E. cbn [mbind outcome_bind].
  destruct Hl as [[-> ->]|[(w & -> & ->)|(u & -> & Hcu & Hnu & Hku & -> & Hlen & H32 & Hpath)]]; [by eexists..|].
  apply IH; [done|by eapply solid_sub|by eapply tfits_sub|done|lia| |].
  - apply Hu; [|done]. apply Hpath. destruct (tpath_head u rest Hcu) as [l ->]. by left.
  - intros u' Hu'. apply Hu. by apply Hpath.
Qed.

Section Nodes.
Context (db_node : hash -> option node).
Local Abbreviation loads := (loads db_node (okf db_node) (okh db_node)).

Definition opath (ot : option tree) (key : bytes) : list tree := match ot with Some t => tpath t key | None => [] end.

(** A node that stands for a subtree. *)
Definition node_for (n : node) (s : tree) : Prop := stored n /\ canon s /\ exists root, loads root n (Some s).

Lemma path_nodes_ok fuel : forall root n ot key,
  loads root n ot -> at_pos ot key -> (need n key <= fuel)%nat ->
  exists l, path_nodes db_node fuel n key = Ok l /\ Forall2 node_for l (opath ot key).
Proof.
  induction fuel as [|fuel IH]; intros root n ot key Hn Hat Hf; [unfold need in Hf; destruct (is_hash n); lia|].
  destruct key as [|x ktl].
  { exists []. split; [done|]. destruct (at_pos_nil _ Hat) as [->|[v ->]]; constructor. }
  destruct Hn as [|v|k n fl t Hfl Hn|ch fl ts Hfl Hch|h n t Hh Hdb Hst Hn]; cbn [path_nodes].
  - exists []. by split; [|constructor].
  - by apply at_pos_value in Hat.
  - apply at_pos_tree in Hat as [Hk Hc]; [|done]. cbn [opath tpath].
    assert (Hnf : node_for (shortNode k n fl) (TShort k t)) by (split_and!; [done|done|exists root; by constructor]).
    destruct (decide (take (length k) (x :: ktl) = k)) as [E|Hne].
    + rewrite bool_decide_true by done. apply take_length_app_iff in E as (key & E). rewrite E in *. rewrite take_app_length, drop_app_length, bool_decide_true by done.
      rewrite length_app. destruct (Nat.ltb_spec (length k + length key) (length k)); [lia|]. cbn [orb negb].
      destruct (IH false n (Some t) key) as (l & El & Hl); [done|by eapply canon_short| |].
      { pose proof (need_le n key). unfold need in Hf. cbn [is_hash] in Hf. rewrite length_app in Hf. apply canon_short_nonempty in Hc. destruct k; [done|]. cbn [length] in Hf. lia. }
      rewrite El. cbn. eexists. split; [done|]. by constructor.
    + rewrite (bool_decide_false (k = _)), orb_true_r, bool_decide_false by (done || (intros E; by apply Hne)). eexists. split; [done|]. constructor; [done|constructor].
  - apply at_pos_tree in Hat as [Hk Hc]; [|done]. destruct (canon_child ts x ktl Hc Hk) as (o & Ho & Hat).
    destruct (childAt_ok db_node _ _ ch ts (nib x) o Hch Ho) as (c & Hc' & -> & Hlc). cbn [mbind outcome_bind].
    destruct (IH false c o ktl) as (l & -> & Hl); [done|done| |].
    { pose proof (need_le c ktl). unfold need in Hf. cbn [is_hash length] in Hf. lia. }
    cbn [mbind outcome_bind opath]. rewrite tpath_full, Ho. eexists. split; [done|].
    constructor; [split_and!; [done|done|exists root; by constructor]|]. by destruct o.
  - unfold resolveHash. rewrite Hdb. cbn [mbind outcome_bind]. apply (IH root); [done|done|].
    unfold need in *. rewrite (stored_not_hash n Hst). cbn [is_hash] in Hf. lia.
Qed.

(** The collapsed form of a node that stands for a subtree. *)
Lemma collapse_ok n s : node_for n s -> tfits s ->
  exists c cac, hashChildren (node_hash (D:=unit) None) n tt = (Ok (c, cac), tt) /\ collapses s c /\ cache_ok s c.
Proof.
  intros (Hst & Hc & root & Hl) Hf.
  assert (Hspec : forall u, hash_spec (fun _ : unit => db_node) None (fun _ => True) s u).
  { intros u. apply node_hash_ok; try done. intros u' Hu' Hcu. by eapply tfits_sub. }
  inversion Hl as [|v|k c fl t Hfl Hn|ch fl ts Hfl Hch|]; subst; try done.
  - destruct (children_short (fun _ : unit => db_node) None (fun _ => True) (TShort k t) k c fl t tt) as (col & cac & [] & E & Hcol & _); try done; [constructor|].
    exists (shortNode (compact k) col fl). eexists. split; [exact E|]. split; [by exists col, fl|by eapply (okf_cache (fun _ : unit => db_node) tt)].
  - destruct (children_full (fun _ : unit => db_node) None (fun _ => True) (TFull ts) ch fl ts tt) as (cols & cacs & [] & E & Hcols & _); try done; [constructor|].
    exists (fullNode cols fl). eexists. split; [exact E|]. split; [apply collapses_full; by exists cols, fl|by eapply (okf_cache (fun _ : unit => db_node) tt)].
Qed.

Lemma put_nodes_ok nodes : forall first ss,
  Forall2 node_for nodes ss -> Forall tfits ss ->
  exists l, put_nodes first 0 nodes = Ok l /\
    (forall s, s ∈ ss -> (32 <= length (enc s))%nat -> (keccak256 (enc s), enc s) ∈ l) /\
    (first = true -> forall s, head ss = Some s -> (keccak256 (enc s), enc s) ∈ l) /\
    (forall h b, (h, b) ∈ l -> keccak256 b = h).
Proof.
  induction nodes as [|n nodes IH]; intros first ss Hf Hfit; inversion Hf as [|? s ? ss' Hn Hns]; subst.
  { exists []. split_and!; [done|..]; intros; set_solver. }
  apply Forall_cons in Hfit as [Hfs Hfit]. destruct (IH false ss' Hns Hfit) as (l & El & H1 & _ & H3).
  destruct (collapse_ok n s Hn Hfs) as (c & cac & Ec & Hcol & Hca). pose proof Hn as (_ & Hcan & _).
  destruct (store_ok (fun _ : unit => db_node) None (fun _ => True) s) with (t := s) (c := c) (force := false) (d := tt) as (hn & [] & Es & Hh & _);
    try done; [by intros u Hu Hcu; eapply tfits_sub|constructor|].
  assert (Een : EncodeToBytes (node_item c) = enc s).
  { rewrite (collapses_item s c Hcol), EncodeToBytes_rlp_enc; [done|]. by apply tfits_fits; [apply canon_not_val|]. }
  cbn [put_nodes]. rewrite Ec, Es, Een. cbv zeta.
  assert (Hnew : exists l', (l ← put_nodes false 0 nodes; Ok ((keccak256 (enc s), enc s) :: l))%stdpp = Ok l' /\
    (forall s', s' ∈ s :: ss' -> (32 <= length (enc s'))%nat -> (keccak256 (enc s'), enc s') ∈ l') /\
    (first = true -> forall s', head (s :: ss') = Some s' -> (keccak256 (enc s'), enc s') ∈ l') /\
    (forall h b, (h, b) ∈ l' -> keccak256 b = h)).
  { rewrite El. eexists. split; [done|]. split_and!.
    - intros s' [->|Hs']%elem_of_cons Hl; [by left|right; by apply H1].
    - intros _ s' [= ->]. by left.
    - intros h b [[= -> ->]|Hin]%elem_of_cons; [done|by apply H3]. }
  unfold hashes in Hh. cbn [orb] in Hh. destruct (Nat.leb_spec 32 (length (enc s))) as [Hge|Hlt].
  - subst hn. exact Hnew.
  - assert (Hold : first = false -> exists l', put_nodes false 0 nodes = Ok l' /\
      (forall s', s' ∈ s :: ss' -> (32 <= length (enc s'))%nat -> (keccak256 (enc s'), enc s') ∈ l') /\
      (first = true -> forall s', head (s :: ss') = Some s' -> (keccak256 (enc s'), enc s') ∈ l') /\
      (forall h b, (h, b) ∈ l' -> keccak256 b = h)).
    { intros ->. exists l. split_and!; [done| |done|done]. intros s' [->|Hs']%elem_of_cons Hl; [lia|by apply H1]. }
    destruct (collapses_not_ref s hn Hcan Hh) as [Hnh _]. destruct hn, first; try done; try (by apply Hold); exact Hnew.
Qed.
End Nodes.
End ProofFacts.

(** ** Proofs of a trie *)


Lemma tpath_sub t : forall key s, s ∈ tpath t key -> canon t -> node_of s t /\ canon s.
Proof.
  induction t as [v|k t IH|ts IH] using tree_induction; intros key s Hs Hc; [inversion Hc|..]; cbn [tpath] in Hs.
  - apply elem_of_cons in Hs as [->|Hs]; [by split; [constructor|]|]. case_bool_decide; [|by apply elem_of_nil in Hs].
    inversion Hc as [? v Hk|? ts Hn Hne Hts|]; subst; [by apply elem_of_nil in Hs|]. destruct (IH _ _ Hs Hts). by split; [constructor|].
  - destruct key as [|x key]; [apply elem_of_cons in Hs as [->|Hs]; [by split; [constructor|]|by apply elem_of_nil in Hs]|].
    change (s ∈ tpath (TFull ts) (x :: key)) in Hs. rewrite tpath_full in Hs. apply elem_of_cons in Hs as [->|Hs]; [by split; [constructor|]|].
    destruct (ts !! nib x) as [[t|]|] eqn:Et; try (by apply elem_of_nil in Hs). inversion Hc as [| |? Hlen Hch Hval _]; subst.
    pose proof (lookup_lt_Some _ _ _ Et). destruct (decide (nib x < 16)%nat).
    + destruct (IH _ _ Et key s Hs) as [H1 H2]; [by eapply Hch|]. split; [by econstructor|done].
    + assert (E : nib x = 16%nat) by lia. rewrite E in Et. destruct (Hval _ Et) as [v ->]. by apply elem_of_nil in Hs.
Qed.

(** proofs are complete.  For any key of a trie that is not empty, present or absent,
    [Prove] succeeds, and verification of what it wrote against the root hash returns the
    value of the trie. *)
Theorem trie_proof_complete `{Crypto} (db_node : hash -> option node) (root root' : node) (m : bytes -> option bytes) (n : nat)
    (h : hash) (key k0 v0 : bytes) :
  holds db_node root m -> fixed_keys m n -> m k0 = Some v0 -> trie_Hash root = (Ok h, root') ->
  exists entries, Prove db_node root key 0 = Ok entries /\
    (forall h b, (h, b) ∈ entries -> keccak256 b = h) /\
    forall proofDb, (forall h b, (h, b) ∈ entries -> proofDb h = Some b) ->
      exists i, VerifyProof proofDb h key = Ok (m key, i).
Proof.
  intros (ot & Hl & Ht) Hfix H0 Hh. pose proof (tree_holds_ok _ _ Ht) as Hok.
  destruct (trie_Hash_ok db_node root ot Hl Hok) as (r & E & _). rewrite E in Hh. injection Hh as <- _.
  destruct ot as [t|]; [|rewrite <- (th_map _ _ Ht) in H0; done]. destruct Hok as [Hc Hf].
  destruct (path_nodes_ok db_node (walk_fuel (keybytesToHex key)) true root (Some t) (keybytesToHex key)) as (nodes & En & Hn);
    [done|by eapply holds_pos|apply walk_enough|].
  destruct (put_nodes_ok db_node nodes true (tpath t (keybytesToHex key)) Hn) as (l & El & H1 & H2 & H3).
  { apply Forall_forall. intros s Hs. apply tpath_sub in Hs as [? ?]; [|done]. by eapply tfits_sub. }
  exists l. unfold Prove. cbv zeta. rewrite En. cbn [mbind outcome_bind]. split_and!; [done|done|]. intros proofDb Hdb.
  unfold VerifyProof. cbv zeta. rewrite hash_bytes_root.
  destruct (verify_complete proofDb (S (length (keybytesToHex key))) t (keybytesToHex key) 0) as (i & Ei);
    [done|by eapply holds_solid|done|apply keybytesToHex_full|lia| |intros u Hu H32; by apply Hdb, H1|].
  { apply Hdb, H2; [done|]. by destruct (tpath_head t (keybytesToHex key) Hc) as [l' ->]. }
  exists i. cbn [root_hash]. rewrite Ei. f_equal. f_equal. apply (th_map _ _ Ht).
Qed.

(** ** Instances *)

Definition sample_root : node := snd (trie_run (crypto:=trie_crypto) no_nodes sample_ops1 nilNode).
Definition sample_hash : hash := match fst (trie_Hash (crypto:=trie_crypto) sample_root) with Ok h => h | _ => 0 end.
Definition sample_entries : list (bytes * bytes) :=
  match Prove (crypto:=trie_crypto) no_nodes sample_root sample_k2 0 with Ok l => l | _ => [] end.

Definition list_db (l : list (bytes * bytes)) (h : bytes) : option bytes :=
  match list_find (fun e => e.1 = h) l with Some (_, e) => Some e.2 | None => None end.

Lemma list_db_entry l h b : list_db l h = Some b -> (h, b) ∈ l.
Proof.
  unfold list_db. destruct (list_find _ l) as [[i [h' b']]|] eqn:E; [|done]. intros [= <-].
  apply list_find_Some in E as (Hl & <- & _). by eapply list_elem_of_lookup_2.
Qed.

Lemma sample_holds : holds (crypto:=trie_crypto) no_nodes sample_root (map_of sample_ops1 (fun _ => None)).
Proof.
  destruct (trie_run_ok (crypto:=trie_crypto) no_nodes sample_ops1 nilNode _ (holds_empty no_nodes)) as (r & E & H); [apply sample_ops_ok|].
  unfold sample_root. by rewrite E.
Qed.

Lemma sample_fixed : fixed_keys (map_of sample_ops1 (fun _ => None)) 2.
Proof.
  intros k v Hk. unfold map_of, sample_ops1 in Hk. cbn [foldl map_after] in Hk.
  destruct (decide (k = sample_k2)) as [->|]; [done|]. by destruct (decide (k = sample_k1)) as [->|].
Qed.

Lemma sample_hash_ok : exists r, trie_Hash (crypto:=trie_crypto) sample_root = (Ok sample_hash, r).
Proof.
  destruct sample_holds as (ot & Hl & Ht). destruct (trie_Hash_ok (crypto:=trie_crypto) no_nodes sample_root ot Hl (tree_holds_ok _ _ Ht)) as (r & E & _).
  exists r. unfold sample_hash. by rewrite E.
Qed.


Lemma trie_proof_complete_witness :
  exists entries, Prove (crypto:=trie_crypto) no_nodes sample_root sample_k3 0 = Ok entries /\
    (forall h b, (h, b) ∈ entries -> keccak256 (Crypto:=trie_crypto) b = h) /\
    forall proofDb, (forall h b, (h, b) ∈ entries -> proofDb h = Some b) ->
      exists i, VerifyProof proofDb sample_hash sample_k3 = Ok (None, i).
Proof.
  destruct sample_hash_ok as [r Hr].
  apply (trie_proof_complete (H:=trie_crypto) no_nodes sample_root r (map_of sample_ops1 (fun _ => None)) 2 sample_hash sample_k3
    sample_k1 [Byte.x01] sample_holds sample_fixed); [by vm_compute|exact Hr].
Defined.
