(* ===== verification/MemoryDB.v ===== *)
(** Key-value stores: the interface of package ethdb, and its implementation in memory
    (ethdb/memorydb/memorydb.go). *)
From stdpp Require Import prelude gmap list sorting strings.
From Stdlib Require Import ZArith Lia.
From S2P Require Import Prelude.
Local Open Scope Z_scope.

(** ** Batches *)

(** Queued writes: a value, or a deletion. *)
Record batch := mkBatch { b_writes : list (bytes * option bytes); b_size : Z }.

Definition NewBatch : batch := mkBatch [] 0.
Definition batch_Put (key value : bytes) (b : batch) : batch :=
  mkBatch (b_writes b ++ [(key, Some value)]) (b_size b + Z.of_nat (length value)).
Definition batch_Delete (key : bytes) (b : batch) : batch :=
  mkBatch (b_writes b ++ [(key, None)]) (b_size b + 1).
Definition batch_ValueSize (b : batch) : Z := b_size b.
Definition batch_Reset (b : batch) : batch := mkBatch [] 0.

Definition IdealBatchSize : Z := 100 * 1024.

(** What reading a key gives after the writes, [old] having been there before. *)
Definition written_value (ws : list (bytes * option bytes)) (key : bytes) (old : option bytes) : option bytes :=
  foldl (fun v w => if decide (fst w = key) then snd w else v) old ws.

(** ** The interface *)

(** A store: [Get], and [Write] of a batch, which may fail. *)
Class KeyValueStore (K : Type) := {
  kv_Get : bytes -> K -> goerror + bytes;
  kv_Write : list (bytes * option bytes) -> K -> outcome unit * K }.

(** The value under a key, an error being the same as its absence. *)
Definition kv_value {K} `{KeyValueStore K} (k : K) (key : bytes) : option bytes :=
  match kv_Get key k with inl _ => None | inr v => Some v end.

(** What a client relies on: while the store is open, a write happens as a whole, or
    returns an error and does not happen. *)
Class KeyValueLaws (K : Type) `{KeyValueStore K} := {
  kv_open : K -> Prop;
  kv_written : forall ws k, kv_open k -> exists k', kv_open k' /\
    ((kv_Write ws k = (Ok tt, k') /\ forall key, kv_value k' key = written_value ws key (kv_value k key)) \/
     (exists e, kv_Write ws k = (Err e, k') /\ forall key, kv_value k' key = kv_value k key)) }.

(** ** The store in memory *)

(** [None] once closed. *)
Abbreviation memorydb := (option (gmap bytes bytes)).

Definition errMemorydbClosed : goerror := ErrVar "errMemorydbClosed" "database closed".
Definition errMemorydbNotFound : goerror := ErrVar "errMemorydbNotFound" "not found".

Definition memorydb_New : memorydb := Some ∅.
Definition memorydb_Close : M memorydb unit := modS (fun _ => None).

Definition memorydb_Has (key : bytes) : M memorydb bool := fun db =>
  match db with
  | None => (Err errMemorydbClosed, db)
  | Some m => (Ok (bool_decide (is_Some (m !! key))), db)
  end.

Definition memorydb_Get (key : bytes) : M memorydb bytes := fun db =>
  match db with
  | None => (Err errMemorydbClosed, db)
  | Some m => match m !! key with Some v => (Ok v, db) | None => (Err errMemorydbNotFound, db) end
  end.

Definition memorydb_Put (key value : bytes) : M memorydb unit := fun db =>
  match db with
  | None => (Err errMemorydbClosed, db)
  | Some m => (Ok tt, Some (<[key := value]> m))
  end.

Definition memorydb_Delete (key : bytes) : M memorydb unit := fun db =>
  match db with
  | None => (Err errMemorydbClosed, db)
  | Some m => (Ok tt, Some (delete key m))
  end.

(** A put into the nil map of a closed store panics, a deletion does nothing. *)
Definition apply_write (w : bytes * option bytes) : M memorydb unit := fun db =>
  match db, w with
  | Some m, (k, Some v) => (Ok tt, Some (<[k := v]> m))
  | Some m, (k, None) => (Ok tt, Some (delete k m))
  | None, (_, Some _) => (Panic "assignment to entry in nil map", db)
  | None, (_, None) => (Ok tt, db)
  end.

Fixpoint memorydb_Write (ws : list (bytes * option bytes)) : M memorydb unit :=
  match ws with [] => ret tt | w :: ws => apply_write w ;; memorydb_Write ws end.

(** *** Iterators *)

(** The order of Go strings. *)
Fixpoint bytes_le (a b : bytes) : bool :=
  match a, b with
  | [], _ => true
  | _ :: _, [] => false
  | x :: a, y :: b => (b2z x <? b2z y) || ((b2z x =? b2z y) && bytes_le a b)
  end.

Definition hasPrefix (key pr : bytes) : bool := bool_decide (take (length pr) key = pr).

#[local] Instance bytes_le_dec : RelDecision (fun a b => bytes_le a b = true).
Proof. intros a b. apply _. Defined.

Record iterator := mkIter { it_inited : bool; it_keys : list bytes; it_values : list bytes }.

(** The keys of a map that satisfy a test, sorted, with their values. *)
Definition iterator_over (test : bytes -> bool) (db : memorydb) : iterator :=
  let m := default ∅ db in
  let keys := merge_sort (fun a b => bytes_le a b = true) (filter (fun k => test k = true) (fst <$> map_to_list m)) in
  mkIter false keys ((fun k => default [] (m !! k)) <$> keys).

Definition NewIteratorWithStart (start : bytes) (db : memorydb) : iterator :=
  iterator_over (fun key => bytes_le start key) db.
Definition NewIterator (db : memorydb) : iterator := NewIteratorWithStart [] db.
Definition NewIteratorWithPrefix (prefix : bytes) (db : memorydb) : iterator :=
  iterator_over (fun key => hasPrefix key prefix) db.

Definition iterator_Next : M iterator bool := fun it =>
  let it' := if it_inited it then
               match it_keys it with
               | [] => it
               | _ :: ks => mkIter true ks (drop 1 (it_values it))
               end
             else mkIter true (it_keys it) (it_values it) in
  (Ok (match it_keys it' with [] => false | _ => true end), it').

Definition iterator_Key (it : iterator) : option bytes := head (it_keys it).
Definition iterator_Value (it : iterator) : option bytes := head (it_values it).

(** The loop over an iterator: the pairs it goes through. *)
Fixpoint drain (fuel : nat) (it : iterator) : list (option bytes * option bytes) :=
  match fuel with
  | O => []
  | S fuel =>
      match iterator_Next it with
      | (Ok true, it) => (iterator_Key it, iterator_Value it) :: drain fuel it
      | _ => []
      end
  end.

(** ** Facts *)

#[global] Instance memorydb_store : KeyValueStore memorydb := {
  kv_Get key db := match fst (memorydb_Get key db) with Ok v => inr v | Err e => inl e | _ => inl errMemorydbClosed end;
  kv_Write := memorydb_Write }.

Lemma memorydb_value (db : memorydb) key : kv_value db key = default ∅ db !! key.
Proof.
  unfold kv_value. cbn. unfold memorydb_Get. destruct db as [m|]; cbn; [by destruct (m !! key)|by rewrite lookup_empty].
Qed.

Lemma memorydb_Write_ok ws : forall m, exists m', memorydb_Write ws (Some m) = (Ok tt, Some m') /\
  forall key, m' !! key = written_value ws key (m !! key).
Proof.
  induction ws as [|[k [v|]] ws IH]; intros m; [by exists m|..]; cbn [memorydb_Write].
  - destruct (IH (<[k := v]> m)) as (m' & E & Hm). exists m'. split; [by erewrite bind_Ok|]. intros key. rewrite Hm. unfold written_value. cbn [foldl fst snd].
    destruct (decide (k = key)) as [->|Hne]; [by rewrite lookup_insert_eq|by rewrite lookup_insert_ne].
  - destruct (IH (delete k m)) as (m' & E & Hm). exists m'. split; [by erewrite bind_Ok|]. intros key. rewrite Hm. unfold written_value. cbn [foldl fst snd].
    destruct (decide (k = key)) as [->|Hne]; [by rewrite lookup_delete_eq|by rewrite lookup_delete_ne].
Qed.

#[global] Instance memorydb_laws : KeyValueLaws memorydb.
Proof.
  refine {| kv_open := is_Some |}. intros ws k [m ->]. destruct (memorydb_Write_ok ws m) as (m' & E & Hm). exists (Some m'). split; [by eexists|].
  left. split; [exact E|]. intros key. rewrite !memorydb_value. apply Hm.
Defined.

Lemma bytes_le_refl a : bytes_le a a = true.
Proof. induction a as [|x a IH]; [done|]. cbn. rewrite Z.eqb_refl, IH. apply orb_true_r. Qed.

#[local] Instance bytes_le_total : Total (fun a b => bytes_le a b = true).
Proof.
  intros a. induction a as [|x a IH]; intros [|y b]; cbn; [by left|by left|by right|].
  destruct (Z.ltb_spec (b2z x) (b2z y)), (Z.ltb_spec (b2z y) (b2z x)); cbn [orb]; [lia|by left|by right|].
  destruct (Z.eqb_spec (b2z x) (b2z y)), (Z.eqb_spec (b2z y) (b2z x)); try lia. cbn. apply IH.
Qed.

#[local] Instance bytes_le_trans : Transitive (fun a b => bytes_le a b = true).
Proof.
  intros a. induction a as [|x a IH]; intros [|y b] [|z c]; cbn; try done.
  destruct (Z.ltb_spec (b2z x) (b2z y)), (Z.ltb_spec (b2z y) (b2z z)), (Z.ltb_spec (b2z x) (b2z z)); cbn [orb]; try done; try lia;
    destruct (Z.eqb_spec (b2z x) (b2z y)), (Z.eqb_spec (b2z y) (b2z z)), (Z.eqb_spec (b2z x) (b2z z)); cbn [andb]; try done; try lia.
  apply IH.
Qed.

Lemma drain_inited fuel : forall ks vs, length vs = length ks -> (length ks <= fuel)%nat ->
  drain fuel (mkIter false ks vs) = zip (Some <$> ks) (Some <$> vs).
Proof.
  assert (Hi : forall ks vs fuel k v, length vs = length ks -> (length ks <= fuel)%nat ->
    drain fuel (mkIter true (k :: ks) (v :: vs)) = zip (Some <$> ks) (Some <$> vs)).
  { induction ks as [|k' ks IH]; intros [|v' vs] [|f] k v Hl Hf; try done; [cbn in Hf; lia|].
    cbn [drain iterator_Next it_inited it_keys it_values drop]. cbn. f_equal. cbn in Hl, Hf. apply IH; lia. }
  intros [|k ks] [|v vs] Hl Hf; try done; [by destruct fuel|]. destruct fuel as [|fuel]; [cbn in Hf; lia|].
  cbn [drain iterator_Next it_inited it_keys it_values]. cbn. f_equal. cbn in Hl, Hf. apply Hi; lia.
Qed.

(** The pairs an iterator goes through, for a test on keys. *)
Lemma iterator_over_spec (test : bytes -> bool) (m : gmap bytes bytes) :
  exists l, let it := iterator_over test (Some m) in
    drain (length (it_keys it)) it = (fun kv => (Some (fst kv), Some (snd kv))) <$> l /\
    StronglySorted (fun a b => bytes_le (fst a) (fst b) = true) l /\ NoDup (fst <$> l) /\
    forall k v, (k, v) ∈ l <-> m !! k = Some v /\ test k = true.
Proof.
  set (keys := merge_sort (fun a b => bytes_le a b = true) (filter (fun k => test k = true) (fst <$> map_to_list m))).
  assert (Hperm : keys ≡ₚ filter (fun k => test k = true) (fst <$> map_to_list m)) by apply merge_sort_Permutation.
  assert (Hin : forall k, k ∈ keys <-> is_Some (m !! k) /\ test k = true).
  { intros k. rewrite Hperm, list_elem_of_filter, list_elem_of_fmap. split.
    - intros (Ht & [k' v] & Hk & Hkv). apply elem_of_map_to_list in Hkv. cbn in Hk. subst k'. split; [by exists v|done].
    - intros [[v Hv] Ht]. split; [done|]. exists (k, v). split; [done|]. by apply elem_of_map_to_list. }
  exists ((fun k => (k, default [] (m !! k))) <$> keys). cbv zeta. unfold iterator_over. change (default ∅ (Some m)) with m. fold keys. cbn [it_keys].
  split_and!.
  - rewrite drain_inited by (by rewrite ?length_fmap). clear Hperm Hin. clearbody keys.
    induction keys as [|k l IH]; [done|]. cbn. f_equal. apply IH.
  - apply (StronglySorted_fmap _ (fun a b => bytes_le a b = true)); [done|]. apply StronglySorted_merge_sort; apply _.
  - rewrite <- list_fmap_compose. cbn. rewrite list_fmap_id, Hperm. apply NoDup_filter, NoDup_fst_map_to_list.
  - intros k v. rewrite list_elem_of_fmap. split.
    + intros (k' & [= -> ->] & Hk). apply Hin in Hk as [[v Hv] Ht]. by rewrite Hv.
    + intros [Hv Ht]. exists k. rewrite Hv. split; [done|]. apply Hin. split; [by eexists|done].
Qed.

(** iterating over the store in memory.  An iterator from a start key, or over a
    prefix, goes through exactly the stored pairs whose key is not below the start, or has
    the prefix, once each and in ascending order of the keys. *)
Theorem iterator_complete (m : gmap bytes bytes) (arg : bytes) :
  (exists l, let it := NewIteratorWithStart arg (Some m) in
     drain (length (it_keys it)) it = (fun kv => (Some (fst kv), Some (snd kv))) <$> l /\
     StronglySorted (fun a b => bytes_le (fst a) (fst b) = true) l /\ NoDup (fst <$> l) /\
     forall k v, (k, v) ∈ l <-> m !! k = Some v /\ bytes_le arg k = true) /\
  (exists l, let it := NewIteratorWithPrefix arg (Some m) in
     drain (length (it_keys it)) it = (fun kv => (Some (fst kv), Some (snd kv))) <$> l /\
     StronglySorted (fun a b => bytes_le (fst a) (fst b) = true) l /\ NoDup (fst <$> l) /\
     forall k v, (k, v) ∈ l <-> m !! k = Some v /\ hasPrefix k arg = true).
Proof.
  split; [apply (iterator_over_spec (fun key => bytes_le arg key))|apply (iterator_over_spec (fun key => hasPrefix key arg))].
Qed.
