(* ===== verification/TrieDB.v ===== *)
(** The trie database (trie/database.go): the layer between the tries and the store on
    disk, which accumulates nodes in memory, counts the references between them, and
    flushes them to disk or drops them.

    Sizes are [common.StorageSize], a float64, here [Z]: every size is a count of bytes.
    Times, meters and log output are left out.  The order in which Go goes through a map
    is the parameter [range].  The clean cache is the third-party fastcache, the
    class [Cache]. *)
From stdpp Require Import prelude gmap list strings.
From Stdlib Require Import ZArith Lia.
From S2P Require Import Prelude VarBytes RLP RLPStream Crypto TrieKeys Trie TrieNode MemoryDB.
Local Open Scope Z_scope.

(** ** Nodes without their caches *)

#[local] Set Warnings "-register-all".
(** [rawShortNode] and [rawFullNode], with the nodes that may be inside them. *)
Inductive raw :=
| rawNil
| rawShortNode (key : bytes) (val : raw)
| rawFullNode (children : list raw)
| rawHash (h : bytes)
| rawValue (v : bytes).

(** What an entry keeps, and what [insert] is given: a blob, or a trie node. *)
Inductive cached := rawNode (blob : bytes) | rawTrie (r : raw).
Inductive inserted := insBlob (blob : bytes) | insNode (n : node).

Definition unknown_node : string := "unknown node type".

(** [simplifyNode] on a trie node, and on any node. *)
Fixpoint simplify (n : node) : outcome raw :=
  match n with
  | shortNode k v _ => (v ← simplify v; Ok (rawShortNode k v))%stdpp
  | fullNode ch _ =>
      (l ← (fix go (l : list node) : outcome (list raw) :=
              match l with
              | [] => Ok []
              | c :: l => (c ← (match c with nilNode => Ok rawNil | _ => simplify c end); l ← go l; Ok (c :: l))%stdpp
              end) ch;
       Ok (rawFullNode l))%stdpp
  | valueNode v => Ok (rawValue v)
  | hashNode h => Ok (rawHash h)
  | nilNode => Panic unknown_node
  end.

Definition simplifyNode (n : inserted) : outcome cached :=
  match n with insBlob b => Ok (rawNode b) | insNode n => (r ← simplify n; Ok (rawTrie r))%stdpp end.

Fixpoint expandNode (h : option bytes) (n : raw) : outcome node :=
  match n with
  | rawShortNode k v => (v ← expandNode None v; Ok (shortNode (compactToHex k) v (mkFlag h false)))%stdpp
  | rawFullNode ch =>
      (l ← (fix go (l : list raw) : outcome (list node) :=
              match l with
              | [] => Ok []
              | c :: l => (c ← (match c with rawNil => Ok nilNode | _ => expandNode None c end); l ← go l; Ok (c :: l))%stdpp
              end) ch;
       Ok (fullNode l (mkFlag h false)))%stdpp
  | rawValue v => Ok (valueNode v)
  | rawHash h => Ok (hashNode h)
  | rawNil => Panic unknown_node
  end.

(** The items [rlp.EncodeToBytes] writes. *)
Fixpoint raw_item (n : raw) : item :=
  match n with
  | rawNil => Lst []
  | rawFullNode ch => Lst ((fun c => match c with rawNil => Str [] | _ => raw_item c end) <$> ch)
  | rawShortNode k v => Lst [Str k; raw_item v]
  | rawHash h => Str h
  | rawValue v => Str v
  end.

(** The hashes [forGatherChildren] calls back with, in order. *)
Fixpoint forGatherChildren (n : raw) : list hash :=
  match n with
  | rawShortNode _ v => forGatherChildren v
  | rawFullNode ch => concat (take 16 (forGatherChildren <$> ch))
  | rawHash h => [BytesToHash h]
  | rawValue _ | rawNil => []
  end.

(** ** Entries *)

Definition u16 (z : Z) : Z := z mod 2 ^ 16.
Definition u32 (z : Z) : Z := z mod 2 ^ 32.

Record cachedNode := mkCached {
  cn_node : cached;
  cn_size : Z;
  cn_parents : Z;
  cn_children : option (gmap hash Z);
  cn_flushPrev : hash;
  cn_flushNext : hash }.

Definition set_parents p n := mkCached (cn_node n) (cn_size n) p (cn_children n) (cn_flushPrev n) (cn_flushNext n).
Definition set_children c n := mkCached (cn_node n) (cn_size n) (cn_parents n) c (cn_flushPrev n) (cn_flushNext n).
Definition set_flushPrev h n := mkCached (cn_node n) (cn_size n) (cn_parents n) (cn_children n) h (cn_flushNext n).
Definition set_flushNext h n := mkCached (cn_node n) (cn_size n) (cn_parents n) (cn_children n) (cn_flushPrev n) h.

Definition cachedNodeSize : Z := 96.
Definition cachedNodeChildrenSize : Z := 48.

(** [cachedNode.rlp] *)
Definition cached_rlp (n : cachedNode) : outcome bytes :=
  match cn_node n with
  | rawNode b => Ok b
  | rawTrie rawNil => Panic "reflect: call of Value.Type on zero Value"
  | rawTrie r => Ok (EncodeToBytes (raw_item r))
  end.

(** [cachedNode.obj] *)
Definition cached_obj (h : hash) (n : cachedNode) : outcome node :=
  match cn_node n with
  | rawNode b => mustDecodeNode (Some (hash_bytes h)) b
  | rawTrie r => expandNode (Some (hash_bytes h)) r
  end.

(** The children inside a node. *)
Definition inner_children (n : cachedNode) : list hash :=
  match cn_node n with rawNode _ => [] | rawTrie r => forGatherChildren r end.
Definition ext_children (n : cachedNode) : gmap hash Z := default ∅ (cn_children n).

(** ** The clean cache *)

Class Cache (C : Type) := {
  cache_new : Z -> C;
  cache_Get : bytes -> C -> option bytes;
  cache_Set : bytes -> bytes -> C -> C }.

(** A cache returns nothing, or what was last set. *)
Class CacheLaws (C : Type) `{Cache C} : Prop := {
  cache_new_empty : forall n key, cache_Get key (cache_new n) = None;
  cache_set_get : forall key v c key' v', cache_Get key' (cache_Set key v c) = Some v' ->
    if decide (key' = key) then v' = v else cache_Get key' c = Some v' }.

(** ** The database *)

Record Database (K C : Type) := mkDatabase {
  tdb_diskdb : K;
  tdb_cleans : option C;
  tdb_dirties : gmap hash cachedNode;
  tdb_oldest : hash;
  tdb_newest : hash;
  tdb_preimages : gmap hash bytes;
  tdb_gcnodes : Z;
  tdb_gcsize : Z;
  tdb_flushnodes : Z;
  tdb_flushsize : Z;
  tdb_dirtiesSize : Z;
  tdb_childrenSize : Z;
  tdb_preimagesSize : Z }.
Arguments mkDatabase {K C}.
Arguments tdb_diskdb {K C}. Arguments tdb_cleans {K C}. Arguments tdb_dirties {K C}. Arguments tdb_oldest {K C}.
Arguments tdb_newest {K C}. Arguments tdb_preimages {K C}. Arguments tdb_gcnodes {K C}. Arguments tdb_gcsize {K C}.
Arguments tdb_flushnodes {K C}. Arguments tdb_flushsize {K C}. Arguments tdb_dirtiesSize {K C}.
Arguments tdb_childrenSize {K C}. Arguments tdb_preimagesSize {K C}.

Section TrieDB.
Context {K C : Type} `{KeyValueStore K} `{Cache C}.
Context (range : forall A, gmap hash A -> list hash).
Local Abbreviation Database := (Database K C).

Definition set_diskdb x (d : Database) : Database := mkDatabase x (tdb_cleans d) (tdb_dirties d) (tdb_oldest d) (tdb_newest d) (tdb_preimages d) (tdb_gcnodes d) (tdb_gcsize d) (tdb_flushnodes d) (tdb_flushsize d) (tdb_dirtiesSize d) (tdb_childrenSize d) (tdb_preimagesSize d).
Definition set_cleans x (d : Database) : Database := mkDatabase (tdb_diskdb d) x (tdb_dirties d) (tdb_oldest d) (tdb_newest d) (tdb_preimages d) (tdb_gcnodes d) (tdb_gcsize d) (tdb_flushnodes d) (tdb_flushsize d) (tdb_dirtiesSize d) (tdb_childrenSize d) (tdb_preimagesSize d).
Definition set_dirties x (d : Database) : Database := mkDatabase (tdb_diskdb d) (tdb_cleans d) x (tdb_oldest d) (tdb_newest d) (tdb_preimages d) (tdb_gcnodes d) (tdb_gcsize d) (tdb_flushnodes d) (tdb_flushsize d) (tdb_dirtiesSize d) (tdb_childrenSize d) (tdb_preimagesSize d).
Definition set_oldest x (d : Database) : Database := mkDatabase (tdb_diskdb d) (tdb_cleans d) (tdb_dirties d) x (tdb_newest d) (tdb_preimages d) (tdb_gcnodes d) (tdb_gcsize d) (tdb_flushnodes d) (tdb_flushsize d) (tdb_dirtiesSize d) (tdb_childrenSize d) (tdb_preimagesSize d).
Definition set_newest x (d : Database) : Database := mkDatabase (tdb_diskdb d) (tdb_cleans d) (tdb_dirties d) (tdb_oldest d) x (tdb_preimages d) (tdb_gcnodes d) (tdb_gcsize d) (tdb_flushnodes d) (tdb_flushsize d) (tdb_dirtiesSize d) (tdb_childrenSize d) (tdb_preimagesSize d).
Definition set_preimages x n (d : Database) : Database := mkDatabase (tdb_diskdb d) (tdb_cleans d) (tdb_dirties d) (tdb_oldest d) (tdb_newest d) x (tdb_gcnodes d) (tdb_gcsize d) (tdb_flushnodes d) (tdb_flushsize d) (tdb_dirtiesSize d) (tdb_childrenSize d) n.
Definition set_gc n x (d : Database) : Database := mkDatabase (tdb_diskdb d) (tdb_cleans d) (tdb_dirties d) (tdb_oldest d) (tdb_newest d) (tdb_preimages d) n x (tdb_flushnodes d) (tdb_flushsize d) (tdb_dirtiesSize d) (tdb_childrenSize d) (tdb_preimagesSize d).
Definition set_flush n x (d : Database) : Database := mkDatabase (tdb_diskdb d) (tdb_cleans d) (tdb_dirties d) (tdb_oldest d) (tdb_newest d) (tdb_preimages d) (tdb_gcnodes d) (tdb_gcsize d) n x (tdb_dirtiesSize d) (tdb_childrenSize d) (tdb_preimagesSize d).
Definition add_dirtiesSize x (d : Database) : Database := mkDatabase (tdb_diskdb d) (tdb_cleans d) (tdb_dirties d) (tdb_oldest d) (tdb_newest d) (tdb_preimages d) (tdb_gcnodes d) (tdb_gcsize d) (tdb_flushnodes d) (tdb_flushsize d) (tdb_dirtiesSize d + x) (tdb_childrenSize d) (tdb_preimagesSize d).
Definition add_childrenSize x (d : Database) : Database := mkDatabase (tdb_diskdb d) (tdb_cleans d) (tdb_dirties d) (tdb_oldest d) (tdb_newest d) (tdb_preimages d) (tdb_gcnodes d) (tdb_gcsize d) (tdb_flushnodes d) (tdb_flushsize d) (tdb_dirtiesSize d) (tdb_childrenSize d + x) (tdb_preimagesSize d).

(** [db.dirties[h].f = v], a nil pointer when there is no entry. *)
Definition nil_pointer : string := "nil pointer dereference".
Definition entry (h : hash) : M Database cachedNode := n ← gets (fun d => tdb_dirties d !! h); deref nil_pointer n.
Definition set_entry (h : hash) (n : cachedNode) : M Database unit := modS (fun d => set_dirties (<[h := n]> (tdb_dirties d)) d).
Definition upd_entry (h : hash) (f : cachedNode -> cachedNode) : M Database unit := n ← entry h; set_entry h (f n).

(** The map of dirty nodes starts with the meta root, under the zero hash. *)
Definition metaroot : cachedNode := mkCached (rawTrie rawNil) 0 0 (Some ∅) 0 0.

Definition NewDatabaseWithCache (diskdb : K) (cache : Z) : Database :=
  mkDatabase diskdb (if 0 <? cache then Some (cache_new (cache * 1024 * 1024)) else None) {[ 0 := metaroot ]} 0 0 ∅ 0 0 0 0 0 0 0.
Definition NewDatabase (diskdb : K) : Database := NewDatabaseWithCache diskdb 0.

(** *** Inserting *)

(** [c.parents++] for a child that has an entry. *)
Definition add_parent (child : hash) : M Database unit :=
  c ← gets (fun d => tdb_dirties d !! child);
  match c with None => ret tt | Some c => set_entry child (set_parents (u32 (cn_parents c + 1)) c) end.

Fixpoint for_each (f : hash -> M Database unit) (l : list hash) : M Database unit :=
  match l with [] => ret tt | h :: l => f h ;; for_each f l end.

Definition insert_at_tail (h : hash) : M Database unit :=
  oldest ← gets tdb_oldest;
  if oldest =? 0 then modS (fun d => set_newest h (set_oldest h d))
  else
    newest ← gets tdb_newest;
    upd_entry newest (set_flushNext h) ;;
    modS (set_newest h).

Definition Database_insert (h : hash) (blob : bytes) (n : inserted) : M Database unit :=
  known ← gets (fun d => tdb_dirties d !! h);
  match known with
  | Some _ => ret tt
  | None =>
      r ← lift_out (simplifyNode n);
      newest ← gets tdb_newest;
      let entry := mkCached r (u16 (Z.of_nat (length blob))) 0 None newest 0 in
      for_each add_parent (inner_children entry) ;;
      set_entry h entry ;;
      insert_at_tail h ;;
      modS (add_dirtiesSize (u16 (32 + cn_size entry)))
  end.

(** [InsertBlob]; the name [InsertBlob] is taken by the interface of the state database. *)
Definition Database_InsertBlob (h : hash) (blob : bytes) : M Database unit := Database_insert h blob (insBlob blob).

Definition insertPreimage (h : hash) (preimage : bytes) : M Database unit := modS (fun d =>
  match tdb_preimages d !! h with
  | Some _ => d
  | None => set_preimages (<[h := preimage]> (tdb_preimages d)) (tdb_preimagesSize d + 32 + Z.of_nat (length preimage)) d
  end).

(** *** Reading *)

Definition clean_get (h : hash) (d : Database) : option bytes := tdb_cleans d ≫= cache_Get (hash_bytes h).
Definition clean_set (h : hash) (enc : bytes) : M Database unit :=
  modS (fun d => set_cleans (cache_Set (hash_bytes h) enc <$> tdb_cleans d) d).

(** [None] is a nil node. *)
Definition Database_node (h : hash) : M Database (option node) :=
  clean ← gets (clean_get h);
  match clean with
  | Some enc => n ← lift_out (mustDecodeNode (Some (hash_bytes h)) enc); ret (Some n)
  | None =>
      dirty ← gets (fun d => tdb_dirties d !! h);
      match dirty with
      | Some c => n ← lift_out (cached_obj h c); ret (Some n)
      | None =>
          got ← gets (fun d => kv_Get (hash_bytes h) (tdb_diskdb d));
          match got with
          | inl _ => ret None
          | inr enc =>
              clean_set h enc ;;
              n ← lift_out (mustDecodeNode (Some (hash_bytes h)) enc); ret (Some n)
          end
      end
  end.

Definition errNotFound : goerror := ErrNew "not found".

Definition Database_Node (h : hash) : M Database bytes :=
  if h =? 0 then throw errNotFound
  else
    clean ← gets (clean_get h);
    match clean with
    | Some enc => ret enc
    | None =>
        dirty ← gets (fun d => tdb_dirties d !! h);
        match dirty with
        | Some c => lift_out (cached_rlp c)
        | None =>
            got ← gets (fun d => kv_Get (hash_bytes h) (tdb_diskdb d));
            match got with
            | inl e => throw e
            | inr enc => clean_set h enc ;; ret enc
            end
        end
    end.

Definition secureKeyPrefix : bytes := z2b <$> [115; 101; 99; 117; 114; 101; 45; 107; 101; 121; 45].
Definition secureKey (key : bytes) : bytes := secureKeyPrefix ++ key.

Definition preimage (h : hash) : M Database bytes :=
  p ← gets (fun d => tdb_preimages d !! h);
  match p with
  | Some p => ret p
  | None =>
      got ← gets (fun d => kv_Get (secureKey (hash_bytes h)) (tdb_diskdb d));
      match got with inl e => throw e | inr p => ret p end
  end.

Definition Nodes (d : Database) : list hash := filter (fun h => h <> 0) (range _ (tdb_dirties d)).

(** *** References *)

Definition reference (child parent : hash) : M Database unit :=
  node ← gets (fun d => tdb_dirties d !! child);
  match node with
  | None => ret tt
  | Some _ =>
      p ← entry parent;
      more ← (match cn_children p with
       | None =>
           set_entry parent (set_children (Some ∅) p) ;;
           modS (add_childrenSize cachedNodeChildrenSize) ;;
           ret true
       | Some m => ret (negb (bool_decide (is_Some (m !! child)) && negb (parent =? 0)))
       end);
      when (more : bool) (
        upd_entry child (fun c => set_parents (u32 (cn_parents c + 1)) c) ;;
        p ← entry parent;
        let n := u16 (default 0 (ext_children p !! child) + 1) in
        set_entry parent (set_children (Some (<[child := n]> (ext_children p))) p) ;;
        when (n =? 1) (modS (add_childrenSize 34)))
  end.

Definition Reference (child parent : hash) : M Database unit := reference child parent.

(** Taking a node out of the flush-list. *)
Definition unlink (h : hash) (node : cachedNode) : M Database unit :=
  oldest ← gets tdb_oldest;
  newest ← gets tdb_newest;
  if h =? oldest then
    modS (set_oldest (cn_flushNext node)) ;;
    upd_entry (cn_flushNext node) (set_flushPrev 0)
  else if h =? newest then
    modS (set_newest (cn_flushPrev node)) ;;
    upd_entry (cn_flushPrev node) (set_flushNext 0)
  else
    upd_entry (cn_flushPrev node) (set_flushNext (cn_flushNext node)) ;;
    upd_entry (cn_flushNext node) (set_flushPrev (cn_flushPrev node)).

(** [node.children[child]--] of a parent that counts the child. *)
Definition drop_child (child parent : hash) : M Database unit :=
  p ← entry parent;
  match ext_children p !! child with
  | Some n =>
      when (0 <? n) (
        if n - 1 =? 0 then
          set_entry parent (set_children (Some (delete child (ext_children p))) p) ;;
          modS (add_childrenSize (-34))
        else set_entry parent (set_children (Some (<[child := n - 1]> (ext_children p))) p))
  | None => ret tt
  end.

(** The call back for the children counted in the entry of [parent]: Go's [range] skips
    those that have been removed when it comes to them. *)
Definition if_still (parent : hash) (f : hash -> M Database unit) (child : hash) : M Database unit :=
  p ← gets (fun d => tdb_dirties d !! parent);
  when (match p with Some p => bool_decide (is_Some (ext_children p !! child)) | None => false end) (f child).

Fixpoint dereference (fuel : nat) (child parent : hash) : M Database unit :=
  match fuel with
  | O => blocked
  | S fuel =>
      drop_child child parent ;;
      node ← gets (fun d => tdb_dirties d !! child);
      match node with
      | None => ret tt
      | Some node =>
          let parents := if 0 <? cn_parents node then cn_parents node - 1 else cn_parents node in
          set_entry child (set_parents parents node) ;;
          when (parents =? 0) (
            unlink child node ;;
            for_each (if_still child (fun h => dereference fuel h child)) (range _ (ext_children node)) ;;
            for_each (fun h => dereference fuel h child) (inner_children node) ;;
            modS (fun d => set_dirties (delete child (tdb_dirties d)) d) ;;
            modS (add_dirtiesSize (- (32 + cn_size node))) ;;
            when (bool_decide (is_Some (cn_children node))) (modS (add_childrenSize (- cachedNodeChildrenSize))))
      end
  end.

Definition ndirties (d : Database) : Z := Z.of_nat (size (tdb_dirties d)).

Definition Dereference (fuel : nat) (root : hash) : M Database unit :=
  if root =? 0 then ret tt
  else
    d ← getS;
    dereference fuel root 0 ;;
    modS (fun d' => set_gc (u64 (tdb_gcnodes d' + (ndirties d - ndirties d'))) (tdb_gcsize d' + (tdb_dirtiesSize d - tdb_dirtiesSize d')) d').

(** *** Flushing *)

(** A database with a batch of writes for its store. *)
Local Abbreviation with_batch := (Database * batch)%type.
Definition on_db {A} (m : M Database A) : M with_batch A := fun '(d, b) =>
  let '(r, d) := m d in (r, (d, b)).
Definition put_batch (key value : bytes) : M with_batch unit := modS (fun '(d, b) => (d, batch_Put key value b)).
Definition reset_batch : M with_batch unit := modS (fun '(d, b) => (d, batch_Reset b)).
Definition batch_size : M with_batch Z := gets (fun '(d, b) => batch_ValueSize b).

(** [batch.Write()] *)
Definition write_batch : M with_batch unit := fun '(d, b) =>
  let '(r, k) := kv_Write (b_writes b) (tdb_diskdb d) in (r, (set_diskdb k d, b)).

(** Moving the preimages into the batch, writing it when it gets large. *)
Fixpoint flush_preimages (l : list hash) : M with_batch unit :=
  match l with
  | [] => ret tt
  | h :: l =>
      p ← gets (fun '(d, b) => tdb_preimages d !! h);
      put_batch (secureKey (hash_bytes h)) (default [] p) ;;
      size ← batch_size;
      when (IdealBatchSize <? size) (write_batch ;; reset_batch) ;;
      flush_preimages l
  end.

(** What an entry contributes to the memory in use. *)
Definition children_memory (n : cachedNode) : Z :=
  match cn_children n with None => 0 | Some m => cachedNodeChildrenSize + Z.of_nat (size m) * 34 end.

(** The first loop of [Cap]: writing the oldest nodes until the size is below the limit.
    It returns the node it stopped at. *)
Fixpoint cap_write (fuel : nat) (limit size : Z) (oldest : hash) : M with_batch hash :=
  if negb (limit <? size) || (oldest =? 0) then ret oldest
  else
    match fuel with
    | O => blocked
    | S fuel =>
        node ← on_db (entry oldest);
        blob ← lift_out (cached_rlp node);
        put_batch (hash_bytes oldest) blob ;;
        sz ← batch_size;
        when (IdealBatchSize <=? sz) (write_batch ;; reset_batch) ;;
        cap_write fuel limit (size - (32 + cn_size node + cachedNodeSize) - children_memory node) (cn_flushNext node)
    end.

(** The second loop: dropping the nodes that have been written. *)
Fixpoint cap_drop (fuel : nat) (until : hash) : M Database unit :=
  oldest ← gets tdb_oldest;
  if oldest =? until then ret tt
  else
    match fuel with
    | O => blocked
    | S fuel =>
        node ← entry oldest;
        modS (fun d => set_oldest (cn_flushNext node) (set_dirties (delete oldest (tdb_dirties d)) d)) ;;
        modS (add_dirtiesSize (- (32 + cn_size node))) ;;
        modS (add_childrenSize (- children_memory node)) ;;
        cap_drop fuel until
    end.

(** References of the meta root, which are not counted as memory. *)
Definition metaroot_refs : M Database Z := r ← entry 0; ret (Z.of_nat (size (ext_children r)) * 34).

(** The memory in use, without the preimages. *)
Definition memory_size : M Database Z :=
  refs ← metaroot_refs;
  gets (fun d => tdb_dirtiesSize d + (ndirties d - 1) * cachedNodeSize + (tdb_childrenSize d - refs)).

Definition Cap (limit : Z) : M Database unit := fun d0 =>
  let run : M with_batch unit :=
    size ← on_db memory_size;
    flushPreimages ← gets (fun '(d, _) => 4 * 1024 * 1024 <? tdb_preimagesSize d);
    l ← gets (fun '(d, _) => range _ (tdb_preimages d));
    when flushPreimages (flush_preimages l) ;;
    start ← gets (fun '(d, _) => tdb_oldest d);
    fuel ← gets (fun '(d, _) => Z.to_nat (ndirties d));
    oldest ← cap_write fuel limit size start;
    write_batch ;;
    on_db (
      when flushPreimages (modS (set_preimages ∅ 0)) ;;
      cap_drop fuel oldest ;;
      first ← gets tdb_oldest;
      when (negb (first =? 0)) (upd_entry first (set_flushPrev 0)) ;;
      modS (fun d => set_flush (u64 (tdb_flushnodes d + (ndirties d0 - ndirties d))) (tdb_flushsize d + (tdb_dirtiesSize d0 - tdb_dirtiesSize d)) d)) in
  let '(r, (d, _)) := run (d0, NewBatch) in (r, d).

(** [cleaner.Put] *)
Definition cleaner_Put (key rlp : bytes) : M Database unit :=
  let h := BytesToHash key in
  node ← gets (fun d => tdb_dirties d !! h);
  match node with
  | None => ret tt
  | Some node =>
      unlink h node ;;
      modS (fun d => set_dirties (delete h (tdb_dirties d)) d) ;;
      modS (add_dirtiesSize (- (32 + cn_size node))) ;;
      modS (add_dirtiesSize (- children_memory node)) ;;
      clean_set h rlp
  end.

(** [batch.Replay(uncacher)] *)
Fixpoint replay (ws : list (bytes * option bytes)) : M Database unit :=
  match ws with
  | [] => ret tt
  | (k, Some v) :: ws => cleaner_Put k v ;; replay ws
  | (_, None) :: _ => gopanic "not implemented"
  end.
Definition replay_batch : M with_batch unit := fun '(d, b) => on_db (replay (b_writes b)) (d, b).

Fixpoint commit_all (f : hash -> M with_batch unit) (l : list hash) : M with_batch unit :=
  match l with [] => ret tt | h :: l => f h ;; commit_all f l end.

Fixpoint commit (fuel : nat) (h : hash) : M with_batch unit :=
  match fuel with
  | O => blocked
  | S fuel =>
      node ← gets (fun '(d, _) => tdb_dirties d !! h);
      match node with
      | None => ret tt
      | Some node =>
          commit_all (commit fuel) (range _ (ext_children node) ++ inner_children node) ;;
          blob ← lift_out (cached_rlp node);
          put_batch (hash_bytes h) blob ;;
          size ← batch_size;
          when (IdealBatchSize <=? size) (write_batch ;; replay_batch ;; reset_batch)
      end
  end.

Definition Commit (fuel : nat) (node : hash) : M Database unit := fun d0 =>
  let run : M with_batch unit :=
    l ← gets (fun '(d, _) => range _ (tdb_preimages d));
    flush_preimages l ;;
    write_batch ;;
    reset_batch ;;
    commit fuel node ;;
    write_batch ;;
    replay_batch ;;
    reset_batch ;;
    on_db (modS (set_preimages ∅ 0) ;; modS (set_gc 0 0) ;; modS (set_flush 0 0)) in
  let '(r, (d, _)) := run (d0, NewBatch) in (r, d).

(** [Size] *)
Definition Database_Size : M Database (Z * Z) :=
  m ← memory_size; p ← gets tdb_preimagesSize; ret (m, p).
End TrieDB.
