(* ===== verification/TrieDBList.v ===== *)
(** The flush-list of the trie database: the dirty nodes, oldest first, as a doubly linked
    list through their entries.  The oldest entry's link backwards may be out of date, and
    so may [newest] when the list is empty. *)
From stdpp Require Import prelude gmap list strings.
From Stdlib Require Import ZArith Lia.
From S2P Require Import Prelude VarBytes RLP RLPStream Crypto TrieKeys Trie TrieNode MemoryDB TrieDB.
Local Open Scope Z_scope.

(** The first hash of a list, or a default. *)
Definition hd (q : hash) (L : list hash) : hash := default q (head L).

(** The entries of [L] are linked to each other, the last one to [q], and the first one
    back to [p], when it is given. *)
Fixpoint dll (D : gmap hash cachedNode) (p : option hash) (L : list hash) (q : hash) : Prop :=
  match L with
  | [] => True
  | a :: L => exists n, D !! a = Some n /\ (forall x, p = Some x -> cn_flushPrev n = x) /\ cn_flushNext n = hd q L /\ dll D (Some a) L q
  end.

Definition same_links (D D' : gmap hash cachedNode) (a : hash) : Prop := forall n, D !! a = Some n ->
  exists n', D' !! a = Some n' /\ cn_flushPrev n' = cn_flushPrev n /\ cn_flushNext n' = cn_flushNext n.

Lemma dll_frame D D' L : forall p q, (forall a, a ∈ L -> same_links D D' a) -> dll D p L q -> dll D' p L q.
Proof.
  induction L as [|a L IH]; intros p q Hs H; [done|]. destruct H as (n & Hn & Hp & Hq & Hl).
  destruct (Hs a (list_elem_of_here _ _) n Hn) as (n' & Hn' & Ep & Eq). exists n'. rewrite Ep, Eq. split_and!; [done..|].
  apply IH; [|done]. intros b Hb. apply Hs. by right.
Qed.

Lemma hd_app q L1 L2 : hd q (L1 ++ L2) = hd (hd q L2) L1.
Proof. by destruct L1. Qed.

Lemma dll_app D L1 : forall p L2 q,
  dll D p (L1 ++ L2) q <-> dll D p L1 (hd q L2) /\ dll D (match last L1 with Some a => Some a | None => p end) L2 q.
Proof.
  induction L1 as [|a L1 IH]; intros p L2 q; [cbn; tauto|]. rewrite last_cons. cbn [app dll].
  assert (E : match match last L1 with Some y => Some y | None => Some a end with Some a => Some a | None => p end =
              match last L1 with Some a => Some a | None => Some a end) by (by destruct (last L1)).
  rewrite E, hd_app. split.
  - intros (n & Hn & Hp & Hq & [Hl1 Hl2]%IH). split; [by exists n|done].
  - intros [(n & Hn & Hp & Hq & Hl1) Hl2]. exists n. split_and!; [done..|]. by apply IH.
Qed.

(** Where an element of the list is. *)
Lemma dll_lookup D p L q a : dll D p L q -> a ∈ L -> exists n, D !! a = Some n.
Proof.
  intros H Ha. apply list_elem_of_split in Ha as (L1 & L2 & ->). apply dll_app in H as [_ (n & Hn & _)]. eauto.
Qed.

Lemma same_links_other D a n b : b <> a -> same_links D (<[a := n]> D) b.
Proof. intros Hne m Hm. exists m. by rewrite lookup_insert_ne. Qed.

Lemma dll_insert_other D p L q a n : a ∉ L -> dll D p L q -> dll (<[a := n]> D) p L q.
Proof. intros Ha. apply dll_frame. intros b Hb. apply same_links_other. by intros ->. Qed.

Lemma dll_delete_other D p L q a : a ∉ L -> dll D p L q -> dll (delete a D) p L q.
Proof. intros Ha. apply dll_frame. intros b Hb m Hm. exists m. rewrite lookup_delete_ne by (by intros ->). done. Qed.

(** Changing where the last entry points, and where the first one points back. *)
Lemma dll_set_last D p L a q q' n : NoDup (L ++ [a]) -> D !! a = Some n ->
  dll D p (L ++ [a]) q -> dll (<[a := set_flushNext q' n]> D) p (L ++ [a]) q'.
Proof.
  intros Hnd Hn H. apply NoDup_app in Hnd as (_ & Hd & _). apply dll_app in H as [H1 (n' & Hn' & Hp & _)]. apply dll_app.
  assert (a ∉ L) by (intros Ha; apply (Hd a Ha); left). split; [by apply dll_insert_other|].
  simplify_eq. exists (set_flushNext q' n). rewrite lookup_insert_eq. by split_and!.
Qed.

Lemma dll_set_first D p p' a L q n : NoDup (a :: L) -> D !! a = Some n ->
  dll D p (a :: L) q -> dll (<[a := set_flushPrev p' n]> D) (Some p') (a :: L) q.
Proof.
  intros [Ha _]%NoDup_cons Hn (n' & Hn' & _ & Hq & Hl). simplify_eq. exists (set_flushPrev p' n). rewrite lookup_insert_eq.
  split_and!; [done|by intros ? [= <-]|done|]. by apply dll_insert_other.
Qed.

Lemma dll_forget D p L q : dll D p L q -> dll D None L q.
Proof. destruct L as [|a L]; [done|]. intros (n & Hn & _ & Hq & Hl). by exists n. Qed.

Section List.
Context {K C : Type} `{KeyValueStore K} `{Cache C}.
Context (range : forall A, gmap hash A -> list hash).
Local Abbreviation Database := (Database K C).

Record linked (d : Database) (L : list hash) : Prop := {
  lk_nodup : NoDup L;
  lk_zero : 0 ∉ L;
  lk_oldest : tdb_oldest d = hd 0 L;
  lk_newest : forall a, last L = Some a -> tdb_newest d = a;
  lk_links : dll (tdb_dirties d) None L 0 }.

(** An entry without its links: what the rest of the database goes by. *)
Definition core (n : cachedNode) : cachedNode := set_flushPrev 0 (set_flushNext 0 n).
Definition cores (d : Database) : gmap hash cachedNode := core <$> tdb_dirties d.

(** Two databases that differ in the flush-list alone. *)
Record relinked (d d' : Database) : Prop := {
  rl_cores : cores d' = cores d;
  rl_disk : tdb_diskdb d' = tdb_diskdb d;
  rl_cleans : tdb_cleans d' = tdb_cleans d;
  rl_preimages : tdb_preimages d' = tdb_preimages d }.

Lemma relinked_refl d : relinked d d.
Proof. by constructor. Qed.
Lemma relinked_trans d1 d2 d3 : relinked d1 d2 -> relinked d2 d3 -> relinked d1 d3.
Proof. intros [] []. constructor; congruence. Qed.

Lemma core_insert (D : gmap hash cachedNode) a n m : D !! a = Some m -> core n = core m -> core <$> (<[a := n]> D) = core <$> D.
Proof.
  intros Hm E. rewrite fmap_insert, E. apply insert_id. by rewrite lookup_fmap, Hm.
Qed.

Lemma upd_entry_ok a f (d : Database) n : tdb_dirties d !! a = Some n ->
  upd_entry a f d = (Ok tt, set_dirties (<[a := f n]> (tdb_dirties d)) d).
Proof. intros Hn. unfold upd_entry, entry, bindM, gets. by rewrite Hn. Qed.

Lemma cores_lookup (d d' : Database) a n : cores d' = cores d -> tdb_dirties d !! a = Some n ->
  exists n', tdb_dirties d' !! a = Some n' /\ core n' = core n.
Proof.
  intros E Hn. assert (Hc : cores d' !! a = Some (core n)) by (rewrite E; unfold cores; by rewrite lookup_fmap, Hn).
  unfold cores in Hc. rewrite lookup_fmap in Hc. destruct (tdb_dirties d' !! a) as [n'|]; [|done]. exists n'. split; [done|]. by apply (inj Some) in Hc.
Qed.

Lemma linked_frame (d d' : Database) L :
  tdb_oldest d' = tdb_oldest d -> tdb_newest d' = tdb_newest d -> (forall a, a ∈ L -> same_links (tdb_dirties d) (tdb_dirties d') a) ->
  linked d L -> linked d' L.
Proof.
  intros Eo En Hs [H1 H2 H3 H4 H5]. constructor; [done|done|congruence|intros a Ha; rewrite En; by apply H4|by eapply dll_frame].
Qed.

(** *** Taking a node out *)

Lemma unlink_first d x L2 node : is_Some (tdb_dirties d !! 0) -> linked d (x :: L2) -> tdb_dirties d !! x = Some node ->
  exists d', unlink x node d = (Ok tt, d') /\ linked d' L2 /\ relinked d d' /\
    (forall h, h ∉ L2 -> h <> 0 -> tdb_dirties d' !! h = tdb_dirties d !! h).
Proof.
  intros [m0 Hm0] [Hnd Hz Ho Hn Hl] Hx. destruct Hl as (n & Hn' & _ & Hq & Hl). simplify_eq. cbn [hd] in Ho.
  apply NoDup_cons in Hnd as [Hxn Hnd]. apply not_elem_of_cons in Hz as [Hx0 Hz].
  unfold unlink. unfold bindM at 1 2. cbn [gets]. change (default 0 (head (x :: L2))) with x in Ho. rewrite Ho, Z.eqb_refl.
  assert (exists m, tdb_dirties d !! cn_flushNext n = Some m) as [m Hm].
  { rewrite Hq. destruct L2 as [|b L2]; [by exists m0|]. eapply dll_lookup; [exact Hl|left]. }
  unfold modS. erewrite bind_Ok by done. erewrite upd_entry_ok by exact Hm. eexists. split; [done|]. split; [|split].
  - constructor; cbn; [done|done|done| |].
    + intros a Ha. apply Hn. rewrite last_cons, Ha. done.
    + destruct L2 as [|b L2]; [done|]. cbn [hd head default from_option] in Hq. unfold hd in Hq. cbn in Hq. rewrite Hq in *.
      eapply dll_forget, dll_set_first; [done|done|exact Hl].
  - constructor; try done. unfold cores. cbn. by eapply core_insert.
  - intros h Hh Hh0. cbn. rewrite lookup_insert_ne; [done|]. rewrite Hq. destruct L2 as [|b L2]; [by intros <-|].
    intros <-. apply Hh. left.
Qed.

Lemma last_snoc_split (L1 : list hash) b x : NoDup ((L1 ++ [b]) ++ x) -> b ∉ x.
Proof. intros (_ & Hd & _)%NoDup_app. apply Hd, elem_of_app. right. left. Qed.

Lemma hd_not_mid x L1 L2 : L1 <> [] -> NoDup (L1 ++ x :: L2) -> x <> hd 0 (L1 ++ x :: L2).
Proof.
  intros Hne (_ & Hd & _)%NoDup_app E. destruct L1 as [|c L1]; [done|]. apply (Hd x); [|left]. cbn in E. subst x. left.
Qed.

Lemma unlink_last d x L1 node : L1 <> [] -> linked d (L1 ++ [x]) -> tdb_dirties d !! x = Some node ->
  exists d', unlink x node d = (Ok tt, d') /\ linked d' L1 /\ relinked d d' /\
    (forall h, h ∉ L1 -> tdb_dirties d' !! h = tdb_dirties d !! h).
Proof.
  intros Hne [Hnd Hz Ho Hn Hl] Hx. pose proof (hd_not_mid x L1 [] Hne Hnd) as Hxo. destruct (exists_last Hne) as (L0 & b & ->).
  apply dll_app in Hl as [H1 H2]. rewrite last_snoc in H2. destruct H2 as (n & Hn' & Hp & Hq & _). simplify_eq.
  specialize (Hp b eq_refl). apply NoDup_app in Hnd as (Hnd & _ & _).
  destruct (dll_lookup _ _ _ _ b H1) as [nb Hb]; [apply elem_of_app; right; left|].
  unfold unlink. unfold bindM at 1 2. cbn [gets]. rewrite Ho, (Hn x) by apply last_snoc.
  apply Z.eqb_neq in Hxo as ->. rewrite Z.eqb_refl. rewrite Hp. unfold modS. erewrite bind_Ok by done. erewrite upd_entry_ok by exact Hb.
  eexists. split; [done|]. split; [|split].
  - constructor; cbn; [done| | | |by eapply dll_set_last].
    + intros Ha. apply Hz, elem_of_app. by left.
    + rewrite Ho. by destruct L0.
    + intros a. rewrite last_snoc. by intros [= <-].
  - constructor; try done. unfold cores. cbn. by eapply core_insert.
  - intros h Hh. cbn. rewrite lookup_insert_ne; [done|]. intros <-. apply Hh, elem_of_app. right. left.
Qed.

Lemma unlink_mid d x L0 b c L3 node : linked d ((L0 ++ [b]) ++ x :: c :: L3) -> tdb_dirties d !! x = Some node ->
  exists d', unlink x node d = (Ok tt, d') /\ linked d' ((L0 ++ [b]) ++ c :: L3) /\ relinked d d' /\
    (forall h, h <> b -> h <> c -> tdb_dirties d' !! h = tdb_dirties d !! h).
Proof.
  intros [Hnd Hz Ho Hn Hl] Hx. assert (Hxo : x <> hd 0 ((L0 ++ [b]) ++ x :: c :: L3)) by (apply hd_not_mid; [by destruct L0|done]).
  assert (Hlast : last ((L0 ++ [b]) ++ x :: c :: L3) = last (c :: L3)).
  { rewrite last_app, (last_cons x). destruct (last (c :: L3)) eqn:E; [done|]. by apply last_None in E. }
  assert (Hxn : tdb_newest d <> x).
  { destruct (last (c :: L3)) as [y|] eqn:E; [|by apply last_None in E]. rewrite (Hn y) by (by rewrite Hlast). intros ->.
    apply NoDup_app in Hnd as (_ & _ & [Hx' _]%NoDup_cons). by apply Hx', last_Some_elem_of. }
  apply dll_app in Hl as [H1 H2]. rewrite last_snoc in H2. destruct H2 as (n & Hn' & Hp & Hq & H3). simplify_eq.
  specialize (Hp b eq_refl). change (hd 0 (c :: L3)) with c in Hq.
  destruct (dll_lookup _ _ _ _ b H1) as [nb Hb]; [apply elem_of_app; right; left|].
  destruct (dll_lookup _ _ _ _ c H3) as [nc Hc]; [left|].
  assert (Hbcx : b ∉ x :: c :: L3) by (by eapply last_snoc_split).
  assert (Hbc : b <> c) by (intros ->; apply Hbcx; right; left).
  assert (Hnd2 : NoDup ((L0 ++ [b]) ++ c :: L3)).
  { apply NoDup_app in Hnd as (N1 & N2 & [_ N3]%NoDup_cons). apply NoDup_app. split_and!; [done| |done]. intros y Hy Hy'. apply (N2 y Hy). by right. }
  unfold unlink. unfold bindM at 1 2. cbn [gets]. rewrite Ho.
  apply Z.eqb_neq in Hxo as ->. destruct (Z.eqb_spec x (tdb_newest d)); [congruence|]. rewrite Hp, Hq. erewrite bind_Ok by (by eapply upd_entry_ok).
  erewrite upd_entry_ok by (cbn; rewrite lookup_insert_ne by done; exact Hc).
  eexists. split; [done|]. split; [|split].
  - constructor; cbn; [done| | | |].
    + intros Ha. apply Hz. apply elem_of_app in Ha as [Ha|Ha]; apply elem_of_app; [by left|right; by right].
    + rewrite Ho. by destruct L0.
    + intros a. rewrite last_app. intros Ha. apply Hn. rewrite Hlast. destruct (last (c :: L3)) eqn:E; [done|]. by apply last_None in E.
    + apply NoDup_app in Hnd2 as (N1 & N2 & N3). apply dll_app. rewrite last_snoc. split.
      * apply dll_insert_other; [intros Hin; apply (N2 c Hin); left|]. eapply dll_set_last; [done|done|exact H1].
      * eapply dll_set_first; [done|by rewrite lookup_insert_ne|]. apply dll_insert_other; [|exact H3]. intros Hin. apply Hbcx. by right.
  - constructor; try done. unfold cores. cbn. rewrite (core_insert _ _ _ nc); [by eapply core_insert|by rewrite lookup_insert_ne|done].
  - intros h H1' H2'. cbn. by rewrite !lookup_insert_ne by done.
Qed.

(** The three cases together. *)
Lemma unlink_ok d x L1 L2 node : is_Some (tdb_dirties d !! 0) -> linked d (L1 ++ x :: L2) -> tdb_dirties d !! x = Some node ->
  exists d', unlink x node d = (Ok tt, d') /\ linked d' (L1 ++ L2) /\ relinked d d' /\
    (forall h, h ∉ L1 ++ L2 -> h <> 0 -> tdb_dirties d' !! h = tdb_dirties d !! h).
Proof.
  intros Hroot Hl Hx. destruct L1 as [|a L1]; [by apply unlink_first|]. destruct L2 as [|c L3].
  - destruct (unlink_last d x (a :: L1) node) as (d' & E & Hl' & Hr & Ho); [done..|]. exists d'. rewrite app_nil_r. split_and!; [done..|]. intros h Hh _. by apply Ho.
  - destruct (exists_last (l := a :: L1)) as (L0 & b & E0); [done|]. rewrite E0 in *.
    destruct (unlink_mid d x L0 b c L3 node Hl Hx) as (d' & E & Hl' & Hr & Ho). exists d'. split_and!; [done..|]. intros h Hh _. apply Ho.
    + intros ->. apply Hh, elem_of_app. left. apply elem_of_app. right. left.
    + intros ->. apply Hh, elem_of_app. right. left.
Qed.

(** *** Adding a node at the end *)

Lemma insert_at_tail_ok d L x n : linked d L -> x ∉ L -> x <> 0 -> tdb_dirties d !! x = Some n ->
  cn_flushPrev n = tdb_newest d -> cn_flushNext n = 0 ->
  exists d', insert_at_tail x d = (Ok tt, d') /\ linked d' (L ++ [x]) /\ relinked d d'.
Proof.
  intros [Hnd Hz Ho Hn Hl] Hx Hx0 Hxn Hp Hq. unfold insert_at_tail. unfold bindM at 1. cbn [gets]. rewrite Ho.
  destruct L as [|a L].
  - eexists. split; [done|]. split; [|by constructor]. constructor; cbn; [apply NoDup_singleton|by intros ?%list_elem_of_singleton|done|by intros ? [= <-]|].
    exists n. by split_and!.
  - change (hd 0 (a :: L)) with a in *. assert (a <> 0) by (intros ->; apply Hz; left). destruct (Z.eqb_spec a 0); [done|].
    destruct (exists_last (l := a :: L)) as (L0 & b & E0); [done|]. rewrite E0 in *.
    unfold bindM at 1. cbn [gets]. rewrite (Hn b) by apply last_snoc. rewrite (Hn b) in Hp by apply last_snoc.
    destruct (dll_lookup _ _ _ _ b Hl) as [nb Hb]; [apply elem_of_app; right; left|].
    erewrite bind_Ok by (by eapply upd_entry_ok). eexists. split; [done|].
    assert (Hbx : x <> b) by (intros ->; apply Hx, elem_of_app; right; left). split; [constructor; cbn|].
    + apply NoDup_app. split_and!; [done| |apply NoDup_singleton]. intros y Hy Hy'%list_elem_of_singleton. by subst.
    + intros [?|?%list_elem_of_singleton]%elem_of_app; congruence.
    + rewrite Ho, <- E0. done.
    + intros y. rewrite last_snoc. by intros [= <-].
    + apply dll_app. rewrite last_snoc. split; [by eapply dll_set_last|]. exists n. rewrite lookup_insert_ne by done. split_and!; [done|by intros ? [= <-]|done|done].
    + constructor; try done. unfold cores. cbn. by eapply core_insert.
Qed.
End List.
