(* ===== verification/TrieDBGraph.v ===== *)
(** The references between the nodes of the trie database: the counts of the entries are
    exact for every node that is not on disk yet, so a node is dropped only when nothing
    needs it any more. *)
From stdpp Require Import prelude gmap list strings.
From Stdlib Require Import ZArith Lia.
From S2P Require Import Prelude VarBytes RLP RLPStream Crypto TrieKeys Trie TrieNode MemoryDB TrieDB TrieDBList.
Local Open Scope Z_scope.

(** ** Counting *)

Definition occ (h : hash) (l : list hash) : Z := Z.of_nat (length (filter (fun x => x = h) l)).

Lemma occ_cons h x l : occ h (x :: l) = (if decide (x = h) then 1 else 0) + occ h l.
Proof. unfold occ. rewrite filter_cons. destruct (decide (x = h)); cbn [length]; lia. Qed.
Lemma occ_app h l1 l2 : occ h (l1 ++ l2) = occ h l1 + occ h l2.
Proof. unfold occ. rewrite filter_app, length_app. lia. Qed.
Lemma occ_nonneg h l : 0 <= occ h l.
Proof. unfold occ. lia. Qed.
Lemma occ_le_length h l : occ h l <= Z.of_nat (length l).
Proof. unfold occ. pose proof (length_filter (fun x => x = h) l). lia. Qed.
Lemma occ_zero h l : h ∉ l -> occ h l = 0.
Proof.
  induction l as [|x l IH]; intros Hl; [done|]. apply not_elem_of_cons in Hl as [Hx Hl]. rewrite occ_cons, IH by done.
  rewrite decide_False by congruence. done.
Qed.
Lemma occ_elem h l : h ∈ l -> 1 <= occ h l.
Proof.
  intros (l1 & l2 & ->)%list_elem_of_split. rewrite occ_app, occ_cons, decide_True by done.
  pose proof (occ_nonneg h l1). pose proof (occ_nonneg h l2). lia.
Qed.
Lemma occ_nodup h l : NoDup l -> occ h l = if decide (h ∈ l) then 1 else 0.
Proof.
  intros Hl. destruct (decide (h ∈ l)) as [Hin|Hn]; [|by apply occ_zero].
  apply list_elem_of_split in Hin as (l1 & l2 & ->). apply NoDup_app in Hl as (_ & Hd & [Hh _]%NoDup_cons).
  rewrite occ_app, occ_cons, decide_True, !occ_zero by (done || intros Hin; apply (Hd h Hin); left). done.
Qed.

Fixpoint sumZ (f : hash -> Z) (l : list hash) : Z := match l with [] => 0 | p :: l => f p + sumZ f l end.

Lemma sumZ_app f l1 l2 : sumZ f (l1 ++ l2) = sumZ f l1 + sumZ f l2.
Proof. induction l1 as [|x l1 IH]; cbn; [done|]. rewrite IH. lia. Qed.
Lemma sumZ_ext f g l : (forall x, x ∈ l -> f x = g x) -> sumZ f l = sumZ g l.
Proof.
  induction l as [|x l IH]; intros He; [done|]. cbn. rewrite He by left. rewrite IH; [done|]. intros y Hy. apply He. by right.
Qed.
Lemma sumZ_nonneg f l : (forall x, x ∈ l -> 0 <= f x) -> 0 <= sumZ f l.
Proof.
  induction l as [|x l IH]; intros Hf; [done|]. cbn. specialize (IH ltac:(intros y Hy; apply Hf; by right)).
  specialize (Hf x ltac:(left)). lia.
Qed.
Lemma sumZ_elem f l x : (forall x, x ∈ l -> 0 <= f x) -> x ∈ l -> f x <= sumZ f l.
Proof.
  intros Hf (l1 & l2 & ->)%list_elem_of_split. rewrite sumZ_app. cbn.
  assert (0 <= sumZ f l1) by (apply sumZ_nonneg; intros y Hy; apply Hf, elem_of_app; by left).
  assert (0 <= sumZ f l2) by (apply sumZ_nonneg; intros y Hy; apply Hf, elem_of_app; right; by right). lia.
Qed.
(** A sum over part of a list is bounded by the sum over the list. *)
Lemma sumZ_incl f g : forall l u, NoDup l -> (forall x, x ∈ l -> x ∈ u /\ f x <= g x) -> (forall x, 0 <= g x) -> sumZ f l <= sumZ g u.
Proof.
  induction l as [|x l IH]; intros u Hl Hin Hg; [apply sumZ_nonneg; intros; apply Hg|]. apply NoDup_cons in Hl as [Hx Hl].
  destruct (Hin x ltac:(left)) as [Hxu Hfx]. apply list_elem_of_split in Hxu as (u1 & u2 & ->).
  specialize (IH (u1 ++ u2) Hl). rewrite sumZ_app in *. cbn. assert (sumZ f l <= sumZ g u1 + sumZ g u2); [|lia].
  apply IH; [|done]. intros y Hy. destruct (Hin y ltac:(by right)) as [Hyu Hfy]. split; [|done].
  apply elem_of_app in Hyu as [?|[->|?]%elem_of_cons]; apply elem_of_app; [by left|done|by right].
Qed.

(** ** What the nodes stand for *)

(** The nodes that may be in the database: their encodings, the hashes they hold, the
    hashes their leaves refer to. *)
Record universe := mkUniverse {
  u_nodes : list hash;
  u_blobs : hash -> bytes;
  u_inner : hash -> list hash;
  u_ext : hash -> list hash;
  u_rank : hash -> nat }.
Definition edges (u : universe) (h : hash) : list hash := u_inner u h ++ u_ext u h.

(** References do not form cycles, and there are fewer than a counter can hold. *)
Record universe_ok (u : universe) : Prop := {
  uo_rank : forall h e, e ∈ edges u h -> (u_rank u e < u_rank u h)%nat;
  uo_edges : forall h e, e ∈ edges u h -> e <> 0 /\ wf_hash e;
  uo_nodes : forall h, h ∈ u_nodes u -> h <> 0 /\ wf_hash h;
  uo_size : sumZ (fun h => Z.of_nat (length (u_inner u h)) + 1) (u_nodes u) + 2 ^ 16 < 2 ^ 32 }.

Definition cnt (n : cachedNode) (h : hash) : Z := occ h (inner_children n) + default 0 (ext_children n !! h).
Definition cnt_at (E : gmap hash cachedNode) (h p : hash) : Z := match E !! p with Some n => cnt n h | None => 0 end.
(** The references to a node from the meta root and the nodes of the flush-list. *)
Definition refs (E : gmap hash cachedNode) (L : list hash) (h : hash) : Z := sumZ (cnt_at E h) (0 :: L).

Lemma refs_remove E L1 x L2 h : refs E (L1 ++ x :: L2) h = cnt_at E h x + refs E (L1 ++ L2) h.
Proof. unfold refs. cbn [sumZ]. rewrite !sumZ_app. cbn [sumZ]. lia. Qed.

Lemma refs_ext E E' L h : (forall p, p ∈ 0 :: L -> cnt_at E' h p = cnt_at E h p) -> refs E' L h = refs E L h.
Proof. intros He. unfold refs. by apply sumZ_ext. Qed.

(** An entry replaced by one with the same children. *)
Lemma cnt_at_same E x n n' h p : E !! x = Some n -> inner_children n' = inner_children n -> ext_children n' = ext_children n ->
  cnt_at (<[x := n']> E) h p = cnt_at E h p.
Proof.
  intros Hx E1 E2. unfold cnt_at. destruct (decide (p = x)) as [->|Hne]; [|by rewrite lookup_insert_ne].
  rewrite lookup_insert_eq, Hx. unfold cnt. by rewrite E1, E2.
Qed.

(** ** The graph of the entries *)

Section Graph.
Context (u : universe) (U : universe_ok u).
(** The hashes that are on disk. *)
Implicit Type (D : hash -> Prop).

Record entry_ok (h : hash) (n : cachedNode) : Prop := {
  eo_node : h ∈ u_nodes u;
  eo_rlp : cached_rlp n = Ok (u_blobs u h);
  eo_obj : cached_obj h n = mustDecodeNode (Some (hash_bytes h)) (u_blobs u h);
  eo_inner : inner_children n = u_inner u h;
  eo_ext : forall e c, ext_children n !! e = Some c -> c = 1 /\ e ∈ u_ext u h }.

Record root_ok D (L : list hash) (r : cachedNode) : Prop := {
  ro_node : cn_node r = rawTrie rawNil;
  ro_ext : forall e c, ext_children r !! e = Some c -> 0 < c < 2 ^ 16 /\ (e ∈ L \/ D e);
  ro_wf : forall e c, ext_children r !! e = Some c -> wf_hash e }.

(** [E]: the entries, without their links; [L] the flush-list, [P] the nodes being
    dropped, [R] the references of theirs that have not been taken back yet; [X] the nodes
    whose leaves are still to be reported. *)
Record graphx D (X : list hash) (E : gmap hash cachedNode) (L P R : list hash) : Prop := {
  g_dom : forall h, is_Some (E !! h) <-> h = 0 \/ h ∈ L \/ h ∈ P;
  g_list : NoDup L /\ 0 ∉ L;
  g_pending : forall h, h ∈ P -> h <> 0 /\ h ∉ L;
  g_entry : forall h n, h <> 0 -> E !! h = Some n -> entry_ok h n;
  g_root : exists r, E !! 0 = Some r /\ root_ok D L r;
  g_covered : forall h n e, h ∈ L -> h ∉ X -> E !! h = Some n -> e ∈ edges u h -> D e \/ 1 <= cnt n e;
  g_order : forall L1 h L2 e, L = L1 ++ h :: L2 -> e ∈ edges u h -> e ∈ L1 \/ D e;
  g_count : forall h n, h ∈ L -> E !! h = Some n -> D h \/ cn_parents n = refs E L h + occ h R }.
#[local] Arguments g_dom {D X E L P R}. #[local] Arguments g_list {D X E L P R}. #[local] Arguments g_pending {D X E L P R}.
#[local] Arguments g_entry {D X E L P R}. #[local] Arguments g_root {D X E L P R}. #[local] Arguments g_covered {D X E L P R}.
#[local] Arguments g_order {D X E L P R}. #[local] Arguments g_count {D X E L P R}.
Abbreviation graph D := (graphx D []).

Lemma cnt_nonneg D X E L P R h p : graphx D X E L P R -> 0 <= cnt_at E h p.
Proof.
  intros G. unfold cnt_at. destruct (E !! p) as [n|] eqn:En; [|done]. unfold cnt. pose proof (occ_nonneg h (inner_children n)).
  destruct (ext_children n !! h) as [c|] eqn:Ec; cbn; [|lia].
  destruct (decide (p = 0)) as [->|Hp]; [destruct (g_root G) as (r & Hr & [_ Hx _]); simplify_eq; destruct (Hx _ _ Ec); lia|].
  destruct (eo_ext _ _ (g_entry G p n Hp En) _ _ Ec). lia.
Qed.

Lemma refs_nonneg D X E L P R h : graphx D X E L P R -> 0 <= refs E L h.
Proof. intros G. apply sumZ_nonneg. intros p _. by eapply cnt_nonneg. Qed.

Lemma g_lookup D X E L P R h : graphx D X E L P R -> h ∈ L -> exists n, E !! h = Some n /\ entry_ok h n.
Proof.
  intros G Hh. assert (is_Some (E !! h)) as [n Hn] by (apply (g_dom G); auto). exists n. split; [done|].
  eapply g_entry; [done| |done]. intros ->. by apply (g_list G).
Qed.

(** A node that nothing on the list refers to, unless it is on disk. *)
Lemma unreferenced D E L1 x L2 P R n p m :
  graph D E (L1 ++ x :: L2) P R -> E !! x = Some n -> D x \/ refs E (L1 ++ x :: L2) x = 0 ->
  p ∈ 0 :: L1 ++ L2 -> E !! p = Some m -> 1 <= cnt m x -> D x.
Proof.
  intros G Hx [?|Hz] Hp Hm Hc; [done|]. exfalso.
  assert (cnt_at E x p <= refs E (L1 ++ x :: L2) x).
  { unfold refs. apply sumZ_elem; [intros y _; by eapply cnt_nonneg|].
    apply elem_of_cons in Hp as [->|Hp]; [left|right]. apply elem_of_app in Hp as [?|?]; apply elem_of_app; [by left|right; by right]. }
  unfold cnt_at in *. rewrite Hm in *. lia.
Qed.

Lemma mid_elem {A} (h x : A) L1 L2 : h ∈ L1 ++ L2 -> h ∈ L1 ++ x :: L2.
Proof. rewrite !elem_of_app, elem_of_cons. tauto. Qed.
Lemma mid_inv {A} (h x : A) L1 L2 : h ∈ L1 ++ x :: L2 -> h = x \/ h ∈ L1 ++ L2.
Proof. rewrite !elem_of_app, elem_of_cons. tauto. Qed.
Lemma mid_nodup {A} (x : A) L1 L2 : NoDup (L1 ++ x :: L2) -> NoDup (L1 ++ L2) /\ x ∉ L1 ++ L2.
Proof.
  intros (N1 & N2 & [N3 N4]%NoDup_cons)%NoDup_app. split.
  - apply NoDup_app. split_and!; [done| |done]. intros y Hy Hy'. apply (N2 y Hy). by right.
  - intros [Hx|Hx]%elem_of_app; [|done]. apply (N2 x Hx). left.
Qed.
(** Splitting a list from which an element was taken. *)
Lemma mid_split {A} (x h : A) L1 L2 M1 M2 : L1 ++ L2 = M1 ++ h :: M2 ->
  exists N1 N2, L1 ++ x :: L2 = N1 ++ h :: N2 /\ (forall e, e ∈ N1 -> e = x \/ e ∈ M1).
Proof.
  intros E. destruct (decide (length M1 < length L1)%nat) as [Hlt|Hge].
  - assert (exists K, L1 = M1 ++ h :: K /\ M2 = K ++ L2) as (K & -> & ->).
    { exists (drop (S (length M1)) L1). assert (E1 : take (length L1) (L1 ++ L2) = take (length L1) (M1 ++ h :: M2)) by (by rewrite E).
      assert (E2 : drop (length L1) (L1 ++ L2) = drop (length L1) (M1 ++ h :: M2)) by (by rewrite E).
      rewrite take_app_length in E1. rewrite drop_app_length in E2. replace (length L1) with (length M1 + S (length L1 - length M1 - 1))%nat in E1, E2 by lia.
      rewrite take_app_add in E1. rewrite drop_app_add in E2. cbn in E1, E2. rewrite E1, E2. split.
      - f_equal. f_equal. rewrite drop_app_ge by lia. replace (S (length M1) - length M1)%nat with 1%nat by lia. by cbn; rewrite drop_0.
      - rewrite drop_app_ge by lia. replace (S (length M1) - length M1)%nat with 1%nat by lia. cbn. rewrite drop_0. by rewrite take_drop. }
    exists M1, (K ++ x :: L2). split; [by rewrite <- app_assoc|]. intros e He. by right.
  - assert (exists K, M1 = L1 ++ K /\ L2 = K ++ h :: M2) as (K & -> & ->).
    { exists (drop (length L1) M1). assert (E1 : take (length L1) (L1 ++ L2) = take (length L1) (M1 ++ h :: M2)) by (by rewrite E).
      assert (E2 : drop (length L1) (L1 ++ L2) = drop (length L1) (M1 ++ h :: M2)) by (by rewrite E).
      rewrite take_app_length in E1. rewrite drop_app_length in E2. rewrite take_app_le in E1 by lia. rewrite drop_app_le in E2 by lia.
      rewrite E2. split; [|done]. rewrite E1 at 1. by rewrite take_drop. }
    exists (L1 ++ x :: K), M2. split; [by rewrite <- app_assoc|]. intros e. rewrite !elem_of_app, elem_of_cons. tauto.
Qed.

(** *** Steps of a release *)

Lemma entry_ok_same h n n' : entry_ok h n -> cn_node n' = cn_node n -> cn_children n' = cn_children n -> entry_ok h n'.
Proof.
  intros [H1 H2 H3 H4 H5] E1 E2. constructor; [done|..]; unfold cached_rlp, cached_obj, inner_children, ext_children in *; rewrite ?E1, ?E2; done.
Qed.

Lemma root_ok_same D L r r' : root_ok D L r -> cn_node r' = cn_node r -> cn_children r' = cn_children r -> root_ok D L r'.
Proof. intros [H1 H2 H3] E1 E2. constructor; [congruence|unfold ext_children in *; by rewrite E2..]. Qed.

Lemma refs_same E x n n' L h : E !! x = Some n -> cn_node n' = cn_node n -> cn_children n' = cn_children n ->
  refs (<[x := n']> E) L h = refs E L h.
Proof.
  intros Hx E1 E2. apply refs_ext. intros p _. eapply cnt_at_same; [done|unfold inner_children; by rewrite E1|unfold ext_children; by rewrite E2].
Qed.

Lemma insert_dom (E : gmap hash cachedNode) x n n' h : E !! x = Some n -> is_Some ((<[x := n']> E) !! h) <-> is_Some (E !! h).
Proof.
  intros Hx. destruct (decide (h = x)) as [->|Hne]; [|by rewrite lookup_insert_ne]. rewrite lookup_insert_eq, Hx. split; by eexists.
Qed.

(** The count of one node and the references taken back. *)
Lemma graph_parents D X E L P R R' x n p' :
  graphx D X E L P R -> E !! x = Some n -> x ∈ L -> (forall h, h <> x -> occ h R' = occ h R) ->
  D x \/ p' = refs E L x + occ x R' -> graphx D X (<[x := set_parents p' n]> E) L P R'.
Proof.
  intros G Hx Hin HR Hc. assert (Hx0 : x <> 0) by (intros ->; by apply (g_list G)). destruct G as [G1 G2 G3 G4 G5 G6 G7 G8]. constructor; [|done|done| | | |done|].
  - intros h. rewrite insert_dom by done. apply G1.
  - intros h m Hh Hm. destruct (decide (h = x)) as [->|Hne]; [|rewrite lookup_insert_ne in Hm by done; by apply G4].
    rewrite lookup_insert_eq in Hm. simplify_eq. apply (entry_ok_same x n); [by apply G4|done|done].
  - rewrite lookup_insert_ne by done. done.
  - intros h m e Hh HX Hm He. destruct (decide (h = x)) as [->|Hne]; [|rewrite lookup_insert_ne in Hm by done; by eapply G6].
    rewrite lookup_insert_eq in Hm. simplify_eq. by apply (G6 x n).
  - intros h m Hh Hm. rewrite (refs_same _ _ n) by done. destruct (decide (h = x)) as [->|Hne].
    + rewrite lookup_insert_eq in Hm. by simplify_eq.
    + rewrite lookup_insert_ne in Hm by done. rewrite HR by done. by apply G8.
Qed.

Lemma occ_ext_keys n h keys : (forall e c, ext_children n !! e = Some c -> c = 1) -> keys ≡ₚ (map_to_list (ext_children n)).*1 ->
  occ h keys = default 0 (ext_children n !! h).
Proof.
  intros Hone Hk. assert (Hin : forall e, e ∈ keys <-> is_Some (ext_children n !! e)).
  { intros e. rewrite Hk, list_elem_of_fmap. split.
    - intros ([e' c] & -> & Hc%elem_of_map_to_list). by exists c.
    - intros [c Hc]. exists (e, c). split; [done|]. by apply elem_of_map_to_list. }
  rewrite occ_nodup by (rewrite Hk; apply NoDup_fst_map_to_list). destruct (decide (h ∈ keys)) as [Hh|Hh].
  - apply Hin in Hh as [c Hc]. rewrite Hc. symmetry. by eapply Hone.
  - destruct (ext_children n !! h) eqn:E; [|done]. exfalso. apply Hh, Hin. by eexists.
Qed.

(** A node whose count has come to zero leaves the list; its references are to be taken back. *)
Lemma graph_take_out D E L1 x L2 P R n keys :
  graph D E (L1 ++ x :: L2) P R -> E !! x = Some n -> D x \/ refs E (L1 ++ x :: L2) x + occ x R = 0 ->
  keys ≡ₚ (map_to_list (ext_children n)).*1 ->
  graph D E (L1 ++ L2) (x :: P) (keys ++ inner_children n ++ R).
Proof.
  intros G Hx Hz Hk. pose proof (refs_nonneg _ _ _ _ _ _ x G) as Hrn. pose proof (occ_nonneg x R).
  assert (Hun : forall p m, p ∈ 0 :: L1 ++ L2 -> E !! p = Some m -> 1 <= cnt m x -> D x).
  { intros p m Hp Hm. eapply unreferenced; [done|done|destruct Hz; [by left|right; lia]|done|done]. }
  destruct G as [G1 [G2 G2'] G3 G4 G5 G6 G7 G8]. apply mid_nodup in G2 as [Hnd Hxn].
  assert (Hx0 : x <> 0) by (intros ->; apply G2', elem_of_app; right; left).
  constructor; [| | |done| | | |].
  - intros h. rewrite G1, elem_of_cons. split.
    + intros [?|[[->|?]%mid_inv|?]]; auto.
    + intros [?|[?|[->|?]]]; auto; right; left; [by apply mid_elem|]. apply elem_of_app. right. left.
  - split; [done|]. intros ?. by apply G2', mid_elem.
  - intros h [->|Hh]%elem_of_cons; [done|]. destruct (G3 h Hh) as [? Hn]. split; [done|]. intros ?. by apply Hn, mid_elem.
  - destruct G5 as (r & Hr & [Hn Hex Hwf]). exists r. split; [done|]. constructor; [done| |done]. intros e c Hc. destruct (Hex e c Hc) as [Hb [[->|?]%mid_inv|?]]; [|auto..].
    split; [done|]. right. apply (Hun 0 r); [left|done|]. unfold cnt. rewrite Hc. cbn. pose proof (occ_nonneg x (inner_children r)). lia.
  - intros h m e Hh. by apply G6, mid_elem.
  - intros M1 h M2 e Heq He. destruct (mid_split x h L1 L2 M1 M2 Heq) as (N1 & N2 & EN & Hsub). rewrite EN in *.
    destruct (G7 N1 h N2 e eq_refl He) as [Hin|?]; [|by right]. destruct (Hsub e Hin) as [->|?]; [|by left]. right.
    assert (Hh : h ∈ L1 ++ L2) by (rewrite Heq; apply elem_of_app; right; left).
    assert (is_Some (E !! h)) as [m Hm] by (apply G1; right; left; apply elem_of_app; right; left).
    destruct (G6 h m x ltac:(apply elem_of_app; right; left) (not_elem_of_nil _) Hm He) as [?|Hc]; [done|]. apply (Hun h m); [by right|done|done].
  - intros h m Hh Hm. destruct (G8 h m ltac:(by apply mid_elem) Hm) as [?|Hc]; [by left|right].
    rewrite Hc, refs_remove, !occ_app. unfold cnt_at. rewrite Hx. unfold cnt.
    rewrite (occ_ext_keys n h keys); [lia| |done]. intros e c Hec. by destruct (eo_ext _ _ (G4 x n Hx0 Hx) e c Hec).
Qed.

Lemma graph_delete D E L P R x : graph D E L (x :: P) R -> x ∉ P -> graph D (delete x E) L P R.
Proof.
  intros [G1 G2 G3 G4 G5 G6 G7 G8] HxP. destruct (G3 x ltac:(left)) as [Hx0 HxL].
  assert (Hc : forall h p, p ∈ 0 :: L -> cnt_at (delete x E) h p = cnt_at E h p).
  { intros h p Hp. unfold cnt_at. rewrite lookup_delete_ne; [done|]. intros <-. by apply elem_of_cons in Hp as [?|?]. }
  constructor; [|done| | | | |done|].
  - intros h. destruct (decide (h = x)) as [->|Hne].
    + rewrite lookup_delete_eq. split; [by intros []|]. intros [?|[?|?]]; done.
    + rewrite lookup_delete_ne, G1, elem_of_cons by done. tauto.
  - intros h Hh. apply G3. by right.
  - intros h n Hh [? Hn]%lookup_delete_Some. by apply G4.
  - destruct G5 as (r & Hr & Hro). exists r. by rewrite lookup_delete_ne.
  - intros h n e Hh HX [? Hn]%lookup_delete_Some. by apply G6.
  - intros h n Hh [? Hn]%lookup_delete_Some. rewrite (refs_ext E) by apply Hc. by apply G8.
Qed.

(** A change to a node being dropped. *)
Lemma graph_pending D E L P R p n' : graph D E L P R -> p ∈ P -> entry_ok p n' -> graph D (<[p := n']> E) L P R.
Proof.
  intros [G1 G2 G3 G4 G5 G6 G7 G8] Hp Hn'. destruct (G3 p Hp) as [Hp0 HpL].
  assert (is_Some (E !! p)) as [n Hn] by (apply G1; auto).
  assert (Hc : forall h q, q ∈ 0 :: L -> cnt_at (<[p := n']> E) h q = cnt_at E h q).
  { intros h q Hq. unfold cnt_at. rewrite lookup_insert_ne; [done|]. intros <-. by apply elem_of_cons in Hq as [?|?]. }
  constructor; [|done|done| | | |done|].
  - intros h. rewrite insert_dom by done. apply G1.
  - intros h m Hh Hm. destruct (decide (h = p)) as [->|Hne]; [|rewrite lookup_insert_ne in Hm by done; by apply G4].
    rewrite lookup_insert_eq in Hm. by simplify_eq.
  - by rewrite lookup_insert_ne.
  - intros h m e Hh HX Hm. rewrite lookup_insert_ne in Hm by (by intros <-). by apply G6.
  - intros h m Hh Hm. rewrite lookup_insert_ne in Hm by (by intros <-). rewrite (refs_ext E) by apply Hc. by apply G8.
Qed.

Lemma graph_absent D E L P R x : graph D E L P (x :: R) -> E !! x = None -> graph D E L P R.
Proof.
  intros [G1 G2 G3 G4 G5 G6 G7 G8] Hx. constructor; try done. intros h n Hh Hn. destruct (G8 h n Hh Hn) as [?|Hc]; [by left|right].
  rewrite Hc, occ_cons, decide_False; [lia|]. by intros ->; simplify_eq.
Qed.

(** *** Bounds *)

Lemma cnt_at_bound D X E L P R h p : graphx D X E L P R -> p <> 0 -> cnt_at E h p <= Z.of_nat (length (u_inner u p)) + 1.
Proof.
  intros G Hp. unfold cnt_at. destruct (E !! p) as [n|] eqn:En; [|lia]. destruct (g_entry G p n Hp En) as [_ _ _ Hi He].
  unfold cnt. rewrite Hi. pose proof (occ_le_length h (u_inner u p)). destruct (ext_children n !! h) as [c|] eqn:Ec; cbn; [destruct (He _ _ Ec); lia|lia].
Qed.

Lemma root_inner D L r : root_ok D L r -> inner_children r = [].
Proof. intros [Hn _ _]. unfold inner_children. by rewrite Hn. Qed.

Lemma root_cnt_bound D X E L P R h : graphx D X E L P R -> cnt_at E h 0 < 2 ^ 16.
Proof.
  intros G. destruct (g_root G) as (r & Hr & Hro). unfold cnt_at. rewrite Hr. unfold cnt. rewrite (root_inner _ _ _ Hro). change (occ h []) with 0.
  destruct (ext_children r !! h) as [c|] eqn:Ec; [|done]. destruct (ro_ext _ _ _ Hro _ _ Ec) as [[] _]. by cbn [default from_option].
Qed.

Lemma in_universe D X E L P R h : graphx D X E L P R -> h ∈ L -> h ∈ u_nodes u.
Proof. intros G Hh. destruct (g_lookup _ _ _ _ _ _ h G Hh) as (n & _ & Ho). by apply Ho. Qed.

(** The references to a node, with those of one more node, fit the counter. *)
Lemma refs_bound D X E L P R x h : graphx D X E L P R -> h ∈ u_nodes u -> h ∉ L ->
  refs E L x + Z.of_nat (length (u_inner u h)) + 1 < 2 ^ 32.
Proof.
  intros G Hh HhL. unfold refs. cbn [sumZ]. pose proof (root_cnt_bound _ _ _ _ _ _ x G). pose proof (uo_size _ U).
  assert (sumZ (fun p => if decide (p = h) then Z.of_nat (length (u_inner u h)) + 1 else cnt_at E x p) (h :: L) <=
          sumZ (fun h => Z.of_nat (length (u_inner u h)) + 1) (u_nodes u)) as Hs.
  { apply sumZ_incl; [by apply NoDup_cons; split; [|apply (g_list G)]| |intros; lia].
    intros p Hp. split; [apply elem_of_cons in Hp as [->|Hp]; [done|by eapply in_universe]|].
    destruct (decide (p = h)) as [->|]; [lia|]. apply elem_of_cons in Hp as [?|Hp]; [done|].
    eapply cnt_at_bound; [done|]. intros ->. by apply (g_list G). }
  cbn [sumZ] in Hs. rewrite decide_True in Hs by done.
  rewrite (sumZ_ext _ (cnt_at E x) L) in Hs; [lia|]. intros p Hp. by rewrite decide_False by (by intros ->).
Qed.

Lemma refs_bound' D X E L P R x : graphx D X E L P R -> refs E L x + 1 < 2 ^ 32.
Proof.
  intros G. unfold refs. cbn [sumZ]. pose proof (root_cnt_bound _ _ _ _ _ _ x G). pose proof (uo_size _ U).
  assert (sumZ (cnt_at E x) L <= sumZ (fun h => Z.of_nat (length (u_inner u h)) + 1) (u_nodes u)); [|lia].
  apply sumZ_incl; [apply (g_list G)| |intros; lia]. intros p Hp. split; [by eapply in_universe|].
  eapply cnt_at_bound; [done|]. intros ->. by apply (g_list G).
Qed.

(** *** Inserting *)

Lemma sumZ_pos f l : sumZ f l <> 0 -> exists x, x ∈ l /\ f x <> 0.
Proof.
  induction l as [|x l IH]; [done|]. cbn. intros Hs. destruct (decide (f x = 0)) as [E|]; [|exists x; split; [left|done]].
  destruct IH as (y & Hy & Hf); [lia|]. exists y. split; [by right|done].
Qed.

(** What an entry refers to is an edge. *)
Lemma cnt_edge h n e : entry_ok h n -> 1 <= cnt n e -> e ∈ edges u h.
Proof.
  intros [_ _ _ Hi He] Hc. unfold cnt in Hc. unfold edges. apply elem_of_app. destruct (decide (e ∈ u_inner u h)) as [|Hn]; [by left|right].
  rewrite Hi, occ_zero in Hc by done. destruct (ext_children n !! e) as [c|] eqn:Ec; [|cbn in Hc; lia]. by apply (He _ _ Ec).
Qed.

(** Whatever is referred to is on the list or on disk. *)
Lemma referred D X E L P R p n e : graphx D X E L P R -> p ∈ 0 :: L -> E !! p = Some n -> 1 <= cnt n e -> e ∈ L \/ D e.
Proof.
  intros G [->|Hp]%elem_of_cons Hn Hc.
  - destruct (g_root G) as (r & Hr & Hro). simplify_eq. unfold cnt in Hc. rewrite (root_inner _ _ _ Hro) in Hc. change (occ e []) with 0 in Hc.
    destruct (ext_children n !! e) as [c|] eqn:Ec; [|cbn [default from_option] in Hc; lia]. by apply (ro_ext _ _ _ Hro _ _ Ec).
  - assert (He : e ∈ edges u p).
    { eapply cnt_edge; [|done]. eapply g_entry; [done| |done]. intros ->. by apply (g_list G). }
    apply list_elem_of_split in Hp as (L1 & L2 & EL). destruct (g_order G L1 p L2 e EL He) as [?|?]; [|by right].
    left. rewrite EL. apply elem_of_app. by left.
Qed.

Lemma unknown_unreferenced D X E L R h : graphx D X E L [] R -> h <> 0 -> E !! h = None -> D h \/ refs E L h = 0.
Proof.
  intros G Hh Hn. destruct (decide (refs E L h = 0)) as [|Hr]; [by right|left]. apply sumZ_pos in Hr as (p & Hp & Hc).
  assert (0 <= cnt_at E h p) by (by eapply cnt_nonneg). unfold cnt_at in *. destruct (E !! p) as [n|] eqn:En; [|done].
  destruct (referred _ _ _ _ _ _ p n h G Hp En ltac:(lia)) as [HL|]; [|done]. assert (is_Some (E !! h)) as [m Hm] by (apply (g_dom G); auto). by simplify_eq.
Qed.

Lemma refs_new E L h n x : E !! h = None -> h <> 0 -> h ∉ L -> refs (<[h := n]> E) (L ++ [h]) x = refs E L x + cnt n x.
Proof.
  intros Hn Hh HL. unfold refs. cbn [sumZ]. rewrite sumZ_app. cbn [sumZ]. unfold cnt_at at 1 3. rewrite lookup_insert_eq, lookup_insert_ne by done.
  rewrite (sumZ_ext _ (cnt_at E x) L); [unfold cnt_at at 2; lia|]. intros p Hp. unfold cnt_at. rewrite lookup_insert_ne; [done|]. by intros <-.
Qed.

(** The references a new node holds have been counted in [R]; its leaves come later. *)
Lemma graph_insert D E L R h n :
  graph D E L [] R -> E !! h = None -> entry_ok h n -> ext_children n = ∅ -> cn_parents n = 0 ->
  (forall e, occ e R = occ e (u_inner u h)) -> (forall e, e ∈ edges u h -> e ∈ L \/ D e) ->
  graphx D [h] (<[h := n]> E) (L ++ [h]) [] [].
Proof.
  intros G Hn Ho Hext Hpar HR Hed. destruct (uo_nodes _ U h (eo_node _ _ Ho)) as [Hh0 _].
  pose proof (unknown_unreferenced _ _ _ _ _ h G Hh0 Hn) as Hun.
  assert (HhL : h ∉ L) by (intros Hin; assert (is_Some (E !! h)) as [? ?] by (apply (g_dom G); auto); by simplify_eq).
  assert (Hcnt : forall x, cnt n x = occ x R) by (intros x; unfold cnt; rewrite (eo_inner _ _ Ho), Hext, lookup_empty, HR; cbn; lia).
  destruct G as [G1 [G2 G2'] G3 G4 G5 G6 G7 G8]. constructor.
  - intros x. rewrite elem_of_app, list_elem_of_singleton. destruct (decide (x = h)) as [->|Hne]; [rewrite lookup_insert_eq|rewrite lookup_insert_ne, G1 by done; tauto].
    split; [tauto|by eexists].
  - split; [|by rewrite elem_of_app, list_elem_of_singleton; intros [?|?]]. apply NoDup_app. split_and!; [done| |apply NoDup_singleton].
    intros x Hx Hx'%list_elem_of_singleton. by subst.
  - by intros x Hx%elem_of_nil.
  - intros x m Hx Hm. destruct (decide (x = h)) as [->|Hne]; [rewrite lookup_insert_eq in Hm; by simplify_eq|rewrite lookup_insert_ne in Hm by done; by apply G4].
  - destruct G5 as (r & Hr & [Hrn Hre Hwf]). exists r. rewrite lookup_insert_ne by done. split; [done|]. constructor; [done| |done].
    intros e c Hc. destruct (Hre e c Hc) as [? [?|?]]; (split; [done|]); [left; apply elem_of_app; by left|by right].
  - intros x m e Hx HX Hm He. rewrite list_elem_of_singleton in HX. rewrite lookup_insert_ne in Hm by done.
    apply elem_of_app in Hx as [Hx|Hx%list_elem_of_singleton]; [|done]. eapply G6; [done|apply not_elem_of_nil|done|done].
  - intros L1 x L2 e HL He. destruct (decide (x = h)) as [->|Hne].
    + assert (L1 = L) as ->; [|by apply Hed].
      destruct L2 as [|y L2 _] using rev_ind; [by apply app_inj_2 in HL as [-> _]|].
      rewrite app_comm_cons, app_assoc in HL. apply app_inj_2 in HL as [-> [= ->]]; [|done]. exfalso. apply HhL, elem_of_app. right. left.
    + destruct L2 as [|y L2 _] using rev_ind; [apply app_inj_2 in HL as [_ [= ?]]; done|].
      rewrite app_comm_cons, app_assoc in HL. apply app_inj_2 in HL as [-> _]; [|done]. by eapply G7.
  - intros x m Hx Hm. rewrite refs_new by done. apply elem_of_app in Hx as [Hx|Hx%list_elem_of_singleton]; [|subst x].
    + rewrite lookup_insert_ne in Hm by (by intros <-). rewrite Hcnt. destruct (G8 x m Hx Hm) as [?|Hc]; [by left|right]. change (occ x []) with 0. lia.
    + rewrite lookup_insert_eq in Hm. simplify_eq. destruct Hun as [?|Hz]; [by left|right]. rewrite Hpar, Hz, Hcnt, HR, occ_zero; [done|].
      intros Hin. assert (h ∈ edges u h) as Hc by (apply elem_of_app; by left). apply (uo_rank _ U) in Hc. lia.
Qed.

(** *** References *)

Lemma refs_swap E L p n n' x : NoDup (0 :: L) -> p ∈ 0 :: L -> E !! p = Some n ->
  refs (<[p := n']> E) L x = refs E L x - cnt n x + cnt n' x.
Proof.
  intros Hnd Hp Hn. unfold refs. apply list_elem_of_split in Hp as (l1 & l2 & EL). rewrite EL in Hnd |- *. rewrite !sumZ_app. cbn [sumZ].
  apply mid_nodup in Hnd as [_ Hp].
  assert (Hs : forall l, p ∉ l -> sumZ (cnt_at (<[p := n']> E) x) l = sumZ (cnt_at E x) l).
  { intros l Hl. apply sumZ_ext. intros y Hy. unfold cnt_at. rewrite lookup_insert_ne; [done|]. by intros <-. }
  rewrite !Hs by (intros Hin; apply Hp, elem_of_app; auto). unfold cnt_at at 2 5. rewrite lookup_insert_eq, Hn. lia.
Qed.

(** Changing the references an entry of the list, or the meta root, holds. *)
Lemma graph_edge D X E L P R R' p n n' :
  graphx D X E L P R -> p ∈ 0 :: L -> E !! p = Some n -> cn_parents n' = cn_parents n ->
  (p <> 0 -> entry_ok p n' /\ forall e, cnt n e <= cnt n' e) -> (p = 0 -> root_ok D L n') ->
  (forall e, cnt n' e + occ e R' = cnt n e + occ e R) ->
  graphx D X (<[p := n']> E) L P R'.
Proof.
  intros [G1 [G2 G2'] G3 G4 G5 G6 G7 G8] Hp Hn Hpar Hok Hrok HR. constructor; [|done|done| | | |done|].
  - intros h. rewrite insert_dom by done. apply G1.
  - intros h m Hh Hm. destruct (decide (h = p)) as [->|Hne]; [|rewrite lookup_insert_ne in Hm by done; by apply G4].
    rewrite lookup_insert_eq in Hm. simplify_eq. by apply Hok.
  - destruct (decide (p = 0)) as [->|Hp0]; [exists n'; rewrite lookup_insert_eq; auto|by rewrite lookup_insert_ne by done].
  - intros h m e Hh HX Hm He. destruct (decide (h = p)) as [->|Hne]; [|rewrite lookup_insert_ne in Hm by done; by eapply G6].
    rewrite lookup_insert_eq in Hm. simplify_eq. destruct (G6 p n e Hh HX Hn He) as [?|?]; [by left|right].
    destruct Hok as [_ Hle]; [by intros ->|]. specialize (Hle e). lia.
  - intros h m Hh Hm. rewrite (refs_swap _ _ _ n) by (done || by apply NoDup_cons). specialize (HR h).
    assert (exists m0, E !! h = Some m0 /\ cn_parents m0 = cn_parents m) as (m0 & Hm0 & E0).
    { destruct (decide (h = p)) as [->|Hne]; [|rewrite lookup_insert_ne in Hm by done; by exists m]. rewrite lookup_insert_eq in Hm. simplify_eq. by exists n. }
    destruct (G8 h m0 Hh Hm0) as [?|Hc]; [by left|right]. lia.
Qed.

(** The leaves of the new node have been reported. *)
Lemma graph_uncover D E L P R h n :
  graphx D [h] E L P R -> E !! h = Some n -> (forall e, e ∈ edges u h -> D e \/ 1 <= cnt n e) -> graph D E L P R.
Proof.
  intros [G1 G2 G3 G4 G5 G6 G7 G8] Hn Hc. constructor; try done. intros x m e Hx _ Hm He.
  destruct (decide (x = h)) as [->|Hne]; [simplify_eq; by apply Hc|]. eapply G6; [done|by rewrite list_elem_of_singleton|done|done].
Qed.

Lemma graph_cover D X E L P R : graph D E L P R -> graphx D X E L P R.
Proof. intros [G1 G2 G3 G4 G5 G6 G7 G8]. constructor; try done. intros x m e Hx _. apply G6; [done|apply not_elem_of_nil]. Qed.

(** *** Flushing *)

Lemma graph_disk D D' X E L P R : (forall h, D h -> D' h) -> graphx D X E L P R -> graphx D' X E L P R.
Proof.
  intros HD [G1 G2 G3 G4 G5 G6 G7 G8]. constructor; try done.
  - destruct G5 as (r & Hr & [H1 H2 H3]). exists r. split; [done|]. constructor; [done| |done]. intros e c Hc. destruct (H2 e c Hc) as [? []]; auto.
  - intros h n e Hh HX Hn He. destruct (G6 h n e Hh HX Hn He); auto.
  - intros L1 h L2 e HL He. destruct (G7 L1 h L2 e HL He); auto.
  - intros h n Hh Hn. destruct (G8 h n Hh Hn); auto.
Qed.

(** A node that is on disk with what it refers to can go. *)
Lemma graph_flush D E L1 x L2 P R :
  graph D E (L1 ++ x :: L2) P R -> x ∉ P -> D x -> (forall e, e ∈ edges u x -> D e) -> graph D (delete x E) (L1 ++ L2) P R.
Proof.
  intros G HxP HDx HDe. assert (HxL : x ∈ L1 ++ x :: L2) by (apply elem_of_app; right; left).
  destruct (g_lookup _ _ _ _ _ _ x G HxL) as (n & Hn & Ho).
  assert (Hnn : forall h, 0 <= cnt_at E h x) by (intros; by eapply cnt_nonneg).
  destruct G as [G1 [G2 G2'] G3 G4 G5 G6 G7 G8]. assert (Hx0 : x <> 0) by (by intros ->). apply mid_nodup in G2 as [Hnd Hx].
  constructor.
  - intros h. destruct (decide (h = x)) as [->|Hne].
    + rewrite lookup_delete_eq. split; [by intros []|]. intros [?|[?|?]]; done.
    + rewrite lookup_delete_ne, G1 by done. split; [intros [?|[[?|?]%mid_inv|?]]; auto; done|]. intros [?|[?|?]]; auto. right. left. by apply mid_elem.
  - split; [done|]. intros ?. by apply G2', mid_elem.
  - intros h Hh. destruct (G3 h Hh) as [? Hni]. split; [done|]. intros ?. by apply Hni, mid_elem.
  - intros h m Hh [? Hm]%lookup_delete_Some. by apply G4.
  - destruct G5 as (r & Hr & [H1 H2 H3]). exists r. rewrite lookup_delete_ne by done. split; [done|]. constructor; [done| |done].
    intros e c Hc. destruct (H2 e c Hc) as [? [[->|?]%mid_inv|?]]; auto.
  - intros h m e Hh HX [? Hm]%lookup_delete_Some. by apply G6; [apply mid_elem|..].
  - intros M1 h M2 e Heq He. destruct (mid_split x h L1 L2 M1 M2 Heq) as (N1 & N2 & EN & Hsub). rewrite EN in *.
    destruct (G7 N1 h N2 e eq_refl He) as [Hin|?]; [|by right]. destruct (Hsub e Hin) as [->|?]; [by right|by left].
  - intros h m Hh [? Hm]%lookup_delete_Some. destruct (G8 h m ltac:(by apply mid_elem) Hm) as [?|Hc]; [by left|].
    specialize (Hnn h). rewrite refs_remove in Hc. destruct (decide (cnt_at E h x = 0)) as [Hz|Hz].
    + right. rewrite Hc, Hz. rewrite (refs_ext E (delete x E)); [lia|]. intros p Hp. unfold cnt_at. rewrite lookup_delete_ne; [done|]. intros <-.
      by apply elem_of_cons in Hp as [?|?].
    + left. apply HDe. eapply cnt_edge; [done|]. unfold cnt_at in *. rewrite Hn in *. lia.
Qed.
End Graph.
