(* ===== verification/TrieDBFacts.v ===== *)
(** The trie database keeps what is needed: its invariant, and that every operation
    keeps it (trie/database.go). *)
From stdpp Require Import prelude gmap list strings.
From Stdlib Require Import ZArith Lia.
From S2P Require Import Prelude VarBytes RLP RLPStream Crypto TrieKeys Trie TrieNode MemoryDB TrieDB TrieDBList TrieDBGraph.
Local Open Scope Z_scope.

Section Facts.
Context {K C : Type} `{KeyValueLaws K} `{CacheLaws C}.
Context (range : forall A, gmap hash A -> list hash).
Hypothesis range_perm : forall A (m : gmap hash A), range A m ≡ₚ (map_to_list m).*1.
Local Abbreviation Database := (Database K C).
Context (u : universe) (U : universe_ok u).
Implicit Types d : Database.

Definition on_disk (k : K) (h : hash) : Prop := is_Some (kv_value k (hash_bytes h)).

(** What is on disk is right and complete. *)
Definition disk_ok (k : K) : Prop := forall h b, wf_hash h -> kv_value k (hash_bytes h) = Some b ->
  b = u_blobs u h /\ forall e, e ∈ edges u h -> on_disk k e.

Definition clean_ok (d : Database) : Prop := forall h b, wf_hash h -> clean_get h d = Some b ->
  b = u_blobs u h /\ on_disk (tdb_diskdb d) h.

Record dbinvx (X : list hash) (d : Database) (L P R : list hash) : Prop := {
  di_linked : linked d L;
  di_graph : graphx u (on_disk (tdb_diskdb d)) X (cores d) L P R;
  di_disk : disk_ok (tdb_diskdb d);
  di_clean : clean_ok d;
  di_open : kv_open (tdb_diskdb d) }.
Local Abbreviation dbinv := (dbinvx []).
#[local] Arguments di_linked {X d L P R}. #[local] Arguments di_graph {X d L P R}.
#[local] Arguments di_disk {X d L P R}. #[local] Arguments di_clean {X d L P R}. #[local] Arguments di_open {X d L P R}.

(** The parts of the database that only flushing and reading change. *)
Record same_store (d d' : Database) : Prop := {
  ss_disk : tdb_diskdb d' = tdb_diskdb d;
  ss_cleans : tdb_cleans d' = tdb_cleans d;
  ss_preimages : tdb_preimages d' = tdb_preimages d }.

Lemma same_store_refl d : same_store d d.
Proof. done. Qed.
Lemma same_store_trans d1 d2 d3 : same_store d1 d2 -> same_store d2 d3 -> same_store d1 d3.
Proof. intros [] []. split; congruence. Qed.
Lemma relinked_store d d' : relinked d d' -> same_store d d'.
Proof. by intros []. Qed.

(** What [dereference] leaves alone: the stores, and the meta root. *)
Record gc_frame (d d' : Database) : Prop := {
  gf_store : same_store d d';
  gf_root : cores d' !! 0 = cores d !! 0 }.

Lemma gc_frame_refl d : gc_frame d d.
Proof. done. Qed.
Lemma gc_frame_trans d1 d2 d3 : gc_frame d1 d2 -> gc_frame d2 d3 -> gc_frame d1 d3.
Proof. intros [] []. split; [by eapply same_store_trans|congruence]. Qed.
Lemma relinked_frame d d' : relinked d d' -> gc_frame d d'.
Proof. intros Hr. split; [by apply relinked_store|]. by rewrite (rl_cores _ _ Hr). Qed.

Lemma dbinv_same X d d' L P R L' P' R' X' : same_store d d' -> dbinvx X d L P R -> linked d' L' ->
  graphx u (on_disk (tdb_diskdb d)) X' (cores d') L' P' R' -> dbinvx X' d' L' P' R'.
Proof.
  intros [E1 E2 E3] [_ _ H3 H4 H5] Hl Hg. constructor; [done|by rewrite E1|by rewrite E1| |by rewrite E1]. intros h b Hh Hb. rewrite E1. apply H4; [done|].
  unfold clean_get in *. by rewrite <- E2.
Qed.

(** *** Entries *)

Lemma cores_Some d h n : tdb_dirties d !! h = Some n -> cores d !! h = Some (core n).
Proof. intros Hn. unfold cores. by rewrite lookup_fmap, Hn. Qed.
Lemma cores_None d h : tdb_dirties d !! h = None -> cores d !! h = None.
Proof. intros Hn. unfold cores. by rewrite lookup_fmap, Hn. Qed.
Lemma cores_inv d h c : cores d !! h = Some c -> exists n, tdb_dirties d !! h = Some n /\ c = core n.
Proof. unfold cores. rewrite lookup_fmap. destruct (tdb_dirties d !! h) as [n|]; [|done]. intros [= <-]. by exists n. Qed.

Lemma linked_set d L x n n' : linked d L -> tdb_dirties d !! x = Some n -> cn_flushPrev n' = cn_flushPrev n -> cn_flushNext n' = cn_flushNext n ->
  linked (set_dirties (<[x := n']> (tdb_dirties d)) d) L.
Proof.
  intros Hl Hx E1 E2. apply (linked_frame d); [done|done| |done]. intros a Ha m Hm. cbn. destruct (decide (a = x)) as [->|Hne].
  - simplify_eq. exists n'. by rewrite lookup_insert_eq.
  - exists m. by rewrite lookup_insert_ne.
Qed.

Lemma root_present X d L P R : dbinvx X d L P R -> is_Some (tdb_dirties d !! 0).
Proof. intros I. destruct (g_root _ _ _ _ _ _ _ (di_graph I)) as (r & Hr & _). apply cores_inv in Hr as (n & Hn & _). by eexists. Qed.

Lemma inv_entry X d L P R h n : dbinvx X d L P R -> h <> 0 -> tdb_dirties d !! h = Some n -> entry_ok u h n.
Proof.
  intros I Hh Hn. apply cores_Some in Hn as Hc. pose proof (g_entry _ _ _ _ _ _ _ (di_graph I) h _ Hh Hc) as Ho. by eapply entry_ok_same.
Qed.

(** *** Dropping a reference *)

Definition drop_count (x : hash) (m : gmap hash Z) : gmap hash Z :=
  match m !! x with Some n => if 0 <? n then if n - 1 =? 0 then delete x m else <[x := n - 1]> m else m | None => m end.

Lemma drop_child_ok x p d n : tdb_dirties d !! p = Some n ->
  exists d' n', drop_child x p d = (Ok tt, d') /\ tdb_dirties d' = <[p := n']> (tdb_dirties d) /\ same_store d d' /\
    tdb_oldest d' = tdb_oldest d /\ tdb_newest d' = tdb_newest d /\
    cn_node n' = cn_node n /\ cn_parents n' = cn_parents n /\ ext_children n' = drop_count x (ext_children n) /\
    cn_flushPrev n' = cn_flushPrev n /\ cn_flushNext n' = cn_flushNext n.
Proof.
  intros Hn. unfold drop_child. unfold bindM at 1, entry at 1, bindM at 1, gets at 1. rewrite Hn. cbn [deref ret]. unfold drop_count.
  assert (Hid : tdb_dirties d = <[p := n]> (tdb_dirties d)) by (symmetry; by apply insert_id).
  destruct (ext_children n !! x) as [c|] eqn:Ec; [|exists d, n; by split_and!]. destruct (0 <? c); [|exists d, n; by split_and!]. cbn [when].
  destruct (c - 1 =? 0); eexists _, (set_children _ n); by split_and!.
Qed.

Lemma same_dirties_linked d d' L x n n' : tdb_dirties d' = <[x := n']> (tdb_dirties d) -> tdb_oldest d' = tdb_oldest d -> tdb_newest d' = tdb_newest d ->
  tdb_dirties d !! x = Some n -> cn_flushPrev n' = cn_flushPrev n -> cn_flushNext n' = cn_flushNext n -> linked d L -> linked d' L.
Proof.
  intros Ed Eo En Hx E1 E2 Hl. apply (linked_frame d); [done|done| |done]. intros a Ha m Hm. rewrite Ed. destruct (decide (a = x)) as [->|Hne].
  - simplify_eq. exists n'. by rewrite lookup_insert_eq.
  - exists m. by rewrite lookup_insert_ne.
Qed.

Lemma cores_set d d' x n' : tdb_dirties d' = <[x := n']> (tdb_dirties d) -> cores d' = <[x := core n']> (cores d).
Proof. intros Ed. unfold cores. by rewrite Ed, fmap_insert. Qed.

(** The parent is a node being dropped: nothing else changes. *)
Lemma drop_pending x p d L P R n : dbinv d L P R -> p ∈ P -> tdb_dirties d !! p = Some n ->
  exists d' n', drop_child x p d = (Ok tt, d') /\ dbinv d' L P R /\ gc_frame d d' /\
    tdb_dirties d' = <[p := n']> (tdb_dirties d) /\ cn_node n' = cn_node n /\
    forall e, e <> x -> ext_children n' !! e = ext_children n !! e.
Proof.
  intros I Hp Hn. destruct (drop_child_ok x p d n Hn) as (d' & n' & E & Ed & Hs & Eo & En & E1 & E2 & E3 & E4 & E5).
  destruct (g_pending _ _ _ _ _ _ _ (di_graph I) p Hp) as [Hp0 HpL]. pose proof (inv_entry _ _ _ _ _ p n I Hp0 Hn) as [O1 O2 O3 O4 O5].
  assert (Hsub : forall e c, ext_children n' !! e = Some c -> e <> x \/ c <> 0 -> exists c', ext_children n !! e = Some c').
  { intros e c Hc _. rewrite E3 in Hc. unfold drop_count in Hc. destruct (ext_children n !! x) as [k|] eqn:Ek; [|eauto].
    destruct (0 <? k); [|eauto]. destruct (k - 1 =? 0); [apply lookup_delete_Some in Hc as [? ?]; eauto|].
    destruct (decide (e = x)) as [->|]; [eauto|]. rewrite lookup_insert_ne in Hc by done. eauto. }
  assert (Hoth : forall e, e <> x -> ext_children n' !! e = ext_children n !! e).
  { intros e Hne. rewrite E3. unfold drop_count. destruct (ext_children n !! x) as [k|]; [|done]. destruct (0 <? k); [|done].
    destruct (k - 1 =? 0); [by rewrite lookup_delete_ne|by rewrite lookup_insert_ne]. }
  exists d', n'. split_and!; try done; [|by split; [|rewrite (cores_set _ _ _ _ Ed), lookup_insert_ne]].
  eapply dbinv_same; [exact Hs|exact I|eapply same_dirties_linked; [exact Ed|done|done|exact Hn|done|done|apply I]|].
  rewrite (cores_set _ _ _ _ Ed). apply graph_pending; [apply I|done|].
  assert (entry_ok u p n'); [|by eapply entry_ok_same]. constructor; [done|unfold cached_rlp, cached_obj, inner_children in *; by rewrite E1..|].
  intros e c Hc. destruct (decide (e = x)) as [->|Hne]; [|rewrite Hoth in Hc by done; by apply O5].
  rewrite E3 in Hc. destruct (ext_children n !! x) as [k|] eqn:Ek; [|unfold drop_count in Hc; rewrite Ek in Hc; by simplify_eq].
  destruct (O5 x k Ek) as [-> Hx]. assert (Hd : drop_count x (ext_children n) = delete x (ext_children n)) by (unfold drop_count; by rewrite Ek).
  by rewrite Hd, lookup_delete_eq in Hc.
Qed.

(** A step of [dereference]: the specification of a call. *)
Record released (d d' : Database) (L L' P R : list hash) (x p : hash) : Prop := {
  re_inv : dbinv d' L' P R;
  re_list : sublist L' L;
  re_store : gc_frame d d';
  re_pending : forall q, q ∈ P -> q <> p -> tdb_dirties d' !! q = tdb_dirties d !! q;
  re_parent : forall n, tdb_dirties d !! p = Some n -> exists n', tdb_dirties d' !! p = Some n' /\ cn_node n' = cn_node n /\
    forall e, e <> x -> ext_children n' !! e = ext_children n !! e }.

Definition deref_spec (fuel : nat) : Prop := forall x p d L P R,
  dbinv d L P (x :: R) -> x <> 0 -> p ∈ P -> (forall q, q ∈ P -> (u_rank u x < u_rank u q)%nat) -> (u_rank u x < fuel)%nat ->
  exists d' L', dereference range fuel x p d = (Ok tt, d') /\ released d d' L L' P R x p.

Section Loops.
Context (fuel : nat) (IH : deref_spec fuel).

(** What a loop over references of the node [x] leaves alone. *)
Record looped (d d' : Database) (L L' P R : list hash) (x : hash) : Prop := {
  lo_inv : dbinv d' L' (x :: P) R;
  lo_list : sublist L' L;
  lo_store : gc_frame d d';
  lo_pending : forall q, q ∈ P -> q <> x -> tdb_dirties d' !! q = tdb_dirties d !! q;
  lo_node : forall n, tdb_dirties d !! x = Some n -> exists n', tdb_dirties d' !! x = Some n' }.

Lemma inner_loop l : forall x d L P R,
  dbinv d L (x :: P) (l ++ R) -> (forall e, e ∈ l -> e ∈ edges u x) -> (forall q, q ∈ P -> (u_rank u x < u_rank u q)%nat) ->
  (u_rank u x <= fuel)%nat ->
  exists d' L', for_each (fun h => dereference range fuel h x) l d = (Ok tt, d') /\ looped d d' L L' P R x.
Proof.
  induction l as [|e l IHl]; intros x d L P R I Hl Hr Hf; [exists d, L; split; [done|]; constructor; eauto; done|].
  assert (He := Hl e ltac:(left)). pose proof (uo_rank _ U _ _ He) as Hrk.
  destruct (IH e x d L (x :: P) (l ++ R) I) as (d1 & L1 & E1 & [I1 S1 T1 Q1 N1]);
    [by apply (uo_edges _ U _ _ He)|left|intros q [->|Hq]%elem_of_cons; [done|specialize (Hr q Hq); lia]|lia|].
  destruct (IHl x d1 L1 P R I1) as (d2 & L2 & E2 & [I2 S2 T2 Q2 N2]); [intros e' He'; apply Hl; by right|done|done|].
  exists d2, L2. cbn [for_each]. rewrite (bind_Ok _ _ _ _ _ E1). split; [done|].
  constructor; [done|by etrans|by eapply gc_frame_trans| |].
  - intros q Hq Hne. rewrite Q2 by done. apply Q1; [by right|done].
  - intros n Hn. destruct (N1 n Hn) as (n1 & Hn1 & _). by eapply N2.
Qed.

Lemma ext_loop l : forall x d L P R n,
  dbinv d L (x :: P) (l ++ R) -> NoDup l -> tdb_dirties d !! x = Some n -> (forall e, e ∈ l -> is_Some (ext_children n !! e)) ->
  (forall e, e ∈ l -> e ∈ edges u x) -> (forall q, q ∈ P -> (u_rank u x < u_rank u q)%nat) -> (u_rank u x <= fuel)%nat ->
  exists d' L', for_each (if_still x (fun h => dereference range fuel h x)) l d = (Ok tt, d') /\ looped d d' L L' P R x.
Proof.
  induction l as [|e l IHl]; intros x d L P R n I Hnd Hn Hk Hl Hr Hf; [exists d, L; split; [done|]; constructor; eauto; done|].
  assert (He := Hl e ltac:(left)). pose proof (uo_rank _ U _ _ He) as Hrk. apply NoDup_cons in Hnd as [Hel Hnd].
  destruct (IH e x d L (x :: P) (l ++ R) I) as (d1 & L1 & E1 & [I1 S1 T1 Q1 N1]);
    [by apply (uo_edges _ U _ _ He)|left|intros q [->|Hq]%elem_of_cons; [done|specialize (Hr q Hq); lia]|lia|].
  destruct (N1 n Hn) as (n1 & Hn1 & _ & Hsame).
  destruct (IHl x d1 L1 P R n1 I1) as (d2 & L2 & E2 & [I2 S2 T2 Q2 N2]); [done|done| |intros e' He'; apply Hl; by right|done|done|].
  { intros e' He'. rewrite Hsame by (by intros ->). apply Hk. by right. }
  exists d2, L2. cbn [for_each]. split.
  - assert (Es : if_still x (fun h => dereference range fuel h x) e d = (Ok tt, d1)); [|by rewrite (bind_Ok _ _ _ _ _ Es)].
    unfold if_still, bindM, gets. rewrite Hn. rewrite bool_decide_true by (apply Hk; left). done.
  - constructor; [done|by etrans|by eapply gc_frame_trans| |].
    + intros q Hq Hne. rewrite Q2 by done. apply Q1; [by right|done].
    + intros m Hm. by eapply N2.
Qed.
End Loops.

(** [dereference] after the parent's own count. *)
Definition drop_node (fuel : nat) (x : hash) (node : cachedNode) : M Database unit :=
  unlink x node ;;
  for_each (if_still x (fun h => dereference range fuel h x)) (range _ (ext_children node)) ;;
  for_each (fun h => dereference range fuel h x) (inner_children node) ;;
  modS (fun d => set_dirties (delete x (tdb_dirties d)) d) ;;
  modS (add_dirtiesSize (- (32 + cn_size node))) ;;
  when (bool_decide (is_Some (cn_children node))) (modS (add_childrenSize (- cachedNodeChildrenSize))).

Definition release (fuel : nat) (x : hash) : M Database unit :=
  node ← gets (fun d => tdb_dirties d !! x);
  match node with
  | None => ret tt
  | Some node =>
      let parents := if 0 <? cn_parents node then cn_parents node - 1 else cn_parents node in
      set_entry x (set_parents parents node) ;;
      when (parents =? 0) (drop_node fuel x node)
  end.

Lemma dereference_S fuel x p : dereference range (S fuel) x p = (drop_child x p ;; release fuel x).
Proof. done. Qed.

Lemma linked_delete d d' L x : tdb_dirties d' = delete x (tdb_dirties d) -> tdb_oldest d' = tdb_oldest d -> tdb_newest d' = tdb_newest d ->
  x ∉ L -> linked d L -> linked d' L.
Proof.
  intros Ed Eo En Hx Hl. apply (linked_frame d); [done|done| |done]. intros a Ha m Hm. rewrite Ed. exists m.
  by rewrite lookup_delete_ne by (by intros ->).
Qed.

(** The end of [drop_node]: the entry goes. *)
Lemma drop_end d L P R x sz ch : dbinv d L (x :: P) R -> x ∉ P ->
  exists d', (modS (fun d => set_dirties (delete x (tdb_dirties d)) d) ;; modS (add_dirtiesSize sz) ;;
              when ch (modS (add_childrenSize (- cachedNodeChildrenSize)))) d = (Ok tt, d') /\
    dbinv d' L P R /\ gc_frame d d' /\ tdb_dirties d' = delete x (tdb_dirties d).
Proof.
  intros I HxP. destruct (g_pending _ _ _ _ _ _ _ (di_graph I) x ltac:(left)) as [Hx0 HxL].
  assert (exists d', (modS (fun d => set_dirties (delete x (tdb_dirties d)) d) ;; modS (add_dirtiesSize sz) ;;
              when ch (modS (add_childrenSize (- cachedNodeChildrenSize)))) d = (Ok tt, d') /\ same_store d d' /\
              tdb_dirties d' = delete x (tdb_dirties d) /\ tdb_oldest d' = tdb_oldest d /\ tdb_newest d' = tdb_newest d) as (d' & E & Hs & Ed & Eo & En).
  { destruct ch; eexists; by split_and!. }
  exists d'. split_and!; [done| |split; [done|unfold cores; by rewrite Ed, fmap_delete, lookup_delete_ne]|done].
  eapply dbinv_same; [exact Hs|exact I|eapply linked_delete; [exact Ed|done|done|done|apply I]|].
  unfold cores. rewrite Ed, fmap_delete. apply graph_delete; [apply I|done].
Qed.

Lemma same_pending d L1 L2 x P R q : dbinv d (L1 ++ x :: L2) P R -> q ∈ P -> (q ∉ L1 ++ L2) /\ q <> 0.
Proof. intros I Hq. destruct (g_pending _ _ _ _ _ _ _ (di_graph I) q Hq) as [? Hn]. split; [|done]. intros ?. by apply Hn, mid_elem. Qed.

Lemma ext_keys (n : cachedNode) e : e ∈ range _ (ext_children n) <-> is_Some (ext_children n !! e).
Proof.
  rewrite (range_perm _ (ext_children n)), list_elem_of_fmap. split.
  - intros ([e' c] & -> & Hc%elem_of_map_to_list). by exists c.
  - intros [c Hc]. exists (e, c). split; [done|]. by apply elem_of_map_to_list.
Qed.

(** A node on the list with no reference left, already at zero parents. *)
Lemma drop_node_ok fuel x d L1 L2 P R n node :
  deref_spec fuel -> dbinv d (L1 ++ x :: L2) P R -> tdb_dirties d !! x = Some n -> node = set_parents (cn_parents node) n ->
  on_disk (tdb_diskdb d) x \/ refs (cores d) (L1 ++ x :: L2) x + occ x R = 0 ->
  (forall q, q ∈ P -> (u_rank u x < u_rank u q)%nat) -> (u_rank u x <= fuel)%nat ->
  exists d' L', drop_node fuel x node d = (Ok tt, d') /\ dbinv d' L' P R /\ sublist L' (L1 ++ x :: L2) /\ gc_frame d d' /\
    (forall q, q ∈ P -> tdb_dirties d' !! q = tdb_dirties d !! q).
Proof.
  intros IH I Hn Hnode Hz Hr Hf. destruct (mid_nodup _ _ _ (lk_nodup _ _ (di_linked I))) as [_ HxL].
  assert (HxP : x ∉ P) by (intros HP; specialize (Hr x HP); lia).
  assert (Hx0 : x <> 0) by (intros ->; apply (lk_zero _ _ (di_linked I)), elem_of_app; right; left).
  pose proof (inv_entry _ _ _ _ _ _ _ I Hx0 Hn) as Ho.
  assert (inner_children node = inner_children n /\ ext_children node = ext_children n) as [Ei Ee] by (rewrite Hnode; done).
  destruct (unlink_ok d x L1 L2 n (root_present _ _ _ _ _ I) (di_linked I) Hn) as (d1 & E1 & Hl1 & Hr1 & Hoth1).
  assert (Eu : unlink x node d = (Ok tt, d1)) by (rewrite Hnode; exact E1).
  assert (Hn1 : tdb_dirties d1 !! x = Some n) by (rewrite Hoth1; done).
  assert (I1 : dbinv d1 (L1 ++ L2) (x :: P) (range _ (ext_children node) ++ inner_children node ++ R)).
  { eapply dbinv_same; [by apply relinked_store|exact I|done|]. rewrite (rl_cores _ _ Hr1), Ei, Ee.
    apply (graph_take_out u (on_disk (tdb_diskdb d)) (cores d) L1 x L2 P R (core n)); [apply I|by apply cores_Some|done|]. apply range_perm. }
  destruct (ext_loop fuel IH (range _ (ext_children node)) x d1 (L1 ++ L2) P (inner_children node ++ R) n I1) as (d2 & L' & E2 & [I2 S2 T2 Q2 N2]);
    [rewrite range_perm; apply NoDup_fst_map_to_list|done|intros e He; apply ext_keys in He; by rewrite Ee in He| |done|done|].
  { intros e He. apply ext_keys in He. rewrite Ee in He. destruct He as [c Hc]. apply elem_of_app. right. by apply (eo_ext _ _ _ Ho _ _ Hc). }
  destruct (inner_loop fuel IH (inner_children node) x d2 L' P R I2) as (d3 & L'' & E3 & [I3 S3 T3 Q3 N3]); [|done|done|].
  { intros e. rewrite Ei, (eo_inner _ _ _ Ho). intros He. apply elem_of_app. by left. }
  destruct (drop_end d3 L'' P R x (- (32 + cn_size node)) (bool_decide (is_Some (cn_children node))) I3 HxP) as (d4 & E4 & I4 & T4 & Ed4).
  exists d4, L''. split_and!.
  - unfold drop_node. rewrite (bind_Ok _ _ _ _ _ Eu), (bind_Ok _ _ _ _ _ E2), (bind_Ok _ _ _ _ _ E3). exact E4.
  - done.
  - etrans; [exact S3|]. etrans; [exact S2|]. apply sublist_app; [done|]. by apply sublist_cons.
  - eapply gc_frame_trans; [by apply relinked_frame|]. eapply gc_frame_trans; [exact T2|]. by eapply gc_frame_trans.
  - intros q Hq. destruct (same_pending _ _ _ _ _ _ q I Hq). assert (q <> x) by congruence.
    rewrite Ed4, lookup_delete_ne, Q3, Q2 by done. by apply Hoth1.
Qed.

Lemma release_ok fuel x d L P R :
  deref_spec fuel -> dbinv d L P (x :: R) -> x <> 0 -> (forall q, q ∈ P -> (u_rank u x < u_rank u q)%nat) -> (u_rank u x <= fuel)%nat ->
  exists d' L', release fuel x d = (Ok tt, d') /\ dbinv d' L' P R /\ sublist L' L /\ gc_frame d d' /\
    (forall q, q ∈ P -> tdb_dirties d' !! q = tdb_dirties d !! q).
Proof.
  intros IH I Hx0 Hr Hf. unfold release. unfold bindM at 1, gets. destruct (tdb_dirties d !! x) as [n|] eqn:Hn.
  2:{ exists d, L. split_and!; try done. eapply dbinv_same; [done|exact I|apply I|]. eapply graph_absent; [apply I|by apply cores_None]. }
  assert (HxP : x ∉ P) by (intros HP; specialize (Hr x HP); lia).
  assert (HxL : x ∈ L).
  { assert (is_Some (cores d !! x)) as Hc by (rewrite (cores_Some _ _ _ Hn); by eexists). apply (g_dom _ _ _ _ _ _ _ (di_graph I)) in Hc as [?|[?|?]]; done. }
  set (parents := if 0 <? cn_parents n then cn_parents n - 1 else cn_parents n).
  set (d1 := set_dirties (<[x := set_parents parents n]> (tdb_dirties d)) d).
  assert (Hcnt : on_disk (tdb_diskdb d) x \/ parents = refs (cores d) L x + occ x R).
  { destruct (g_count _ _ _ _ _ _ _ (di_graph I) x _ HxL (cores_Some _ _ _ Hn)) as [?|Hc]; [by left|right]. change (cn_parents (core n)) with (cn_parents n) in Hc.
    rewrite occ_cons, decide_True in Hc by done. pose proof (refs_nonneg _ _ _ _ _ _ _ x (di_graph I)). pose proof (occ_nonneg x R).
    subst parents. destruct (Z.ltb_spec 0 (cn_parents n)); lia. }
  assert (I1 : dbinv d1 L P R).
  { eapply dbinv_same; [|exact I|eapply linked_set; [apply I|exact Hn|done|done]|]; [done|].
    rewrite (cores_set d d1 x _ eq_refl). apply (graph_parents u _ [] (cores d) L P (x :: R) R x (core n)); [apply I|by apply cores_Some|done| |done].
    intros h Hh. rewrite occ_cons, decide_False by done. lia. }
  assert (Hfr : gc_frame d d1) by (split; [done|by rewrite (cores_set d d1 x _ eq_refl), lookup_insert_ne]).
  erewrite bind_Ok by done. destruct (Z.eqb_spec parents 0) as [Hp|Hp]; cbn [when].
  2:{ exists d1, L. split_and!; [done|done|done|done|]. intros q Hq. cbn. rewrite lookup_insert_ne; [done|]. by intros ->. }
  apply list_elem_of_split in HxL as (L1 & L2 & ->).
  destruct (drop_node_ok fuel x d1 L1 L2 P R (set_parents parents n) n IH I1) as (d' & L' & E & I' & S' & T' & Q').
  - cbn. by rewrite lookup_insert_eq.
  - by destruct n.
  - destruct Hcnt as [?|Hc]; [by left|right]. rewrite (cores_set d d1 x _ eq_refl), (refs_same _ _ (core n)); [lia|by apply cores_Some|done|done].
  - done.
  - done.
  - exists d', L'. split_and!; [done|done|done|by eapply gc_frame_trans|]. intros q Hq. rewrite Q' by done. cbn. rewrite lookup_insert_ne; [done|]. by intros ->.
Qed.

Lemma dereference_ok fuel : deref_spec fuel.
Proof.
  induction fuel as [|fuel IH]; intros x p d L P R I Hx0 Hp Hr Hf; [lia|]. rewrite dereference_S.
  assert (is_Some (tdb_dirties d !! p)) as [n Hn].
  { assert (is_Some (cores d !! p)) as [c Hc] by (apply (g_dom _ _ _ _ _ _ _ (di_graph I)); auto). apply cores_inv in Hc as (n & Hn & _). by eexists. }
  destruct (drop_pending x p d L P (x :: R) n I Hp Hn) as (d1 & n' & E1 & I1 & T1 & Ed1 & Enode & Hsame).
  destruct (release_ok fuel x d1 L P R IH I1 Hx0 Hr ltac:(lia)) as (d2 & L' & E2 & I2 & S2 & T2 & Q2).
  exists d2, L'. rewrite (bind_Ok _ _ _ _ _ E1). split; [done|]. constructor; [done|done|by eapply gc_frame_trans| |].
  - intros q Hq Hne. rewrite Q2, Ed1 by done. by rewrite lookup_insert_ne.
  - intros m Hm. simplify_eq. exists n'. rewrite Q2, Ed1, lookup_insert_eq by done. done.
Qed.

(** ** Dereferencing a root *)

(** The roots that are referred to, with their counts. *)
Definition roots d : gmap hash Z := default ∅ (ext_children <$> tdb_dirties d !! 0).

Lemma roots_cores d d' : cores d' !! 0 = cores d !! 0 -> roots d' = roots d.
Proof.
  unfold cores, roots. rewrite !lookup_fmap. destruct (tdb_dirties d' !! 0) as [n'|], (tdb_dirties d !! 0) as [n|]; try done.
  cbn [fmap option_fmap option_map]. intros [= E]. cbn. unfold ext_children. congruence.
Qed.

Lemma drop_root x d L c : dbinv d L [] [] -> roots d !! x = Some c ->
  exists d', drop_child x 0 d = (Ok tt, d') /\ dbinv d' L [] [x] /\ same_store d d' /\ roots d' = drop_count x (roots d).
Proof.
  intros I Hc. destruct (root_present _ _ _ _ _ I) as [n Hn]. unfold roots in Hc. rewrite Hn in Hc. cbn in Hc.
  destruct (drop_child_ok x 0 d n Hn) as (d' & n' & E & Ed & Hs & Eo & En & E1 & E2 & E3 & E4 & E5).
  exists d'. split_and!; [done| |done|unfold roots; rewrite Ed, lookup_insert_eq, Hn; done].
  destruct (g_root _ _ _ _ _ _ _ (di_graph I)) as (r & Hr & Hro). rewrite (cores_Some _ _ _ Hn) in Hr. injection Hr as <-.
  assert (Hro' : root_ok (on_disk (tdb_diskdb d)) L n) by (by eapply root_ok_same).
  destruct (ro_ext _ _ _ Hro' x c Hc) as [Hcb _].
  assert (Hdrop : forall e, default 0 (ext_children n' !! e) = default 0 (ext_children n !! e) - if decide (x = e) then 1 else 0).
  { intros e. rewrite E3. unfold drop_count. rewrite Hc. destruct (Z.ltb_spec 0 c); [|lia]. destruct (Z.eqb_spec (c - 1) 0), (decide (x = e)) as [<-|Hne].
    - rewrite lookup_delete_eq, Hc. cbn. lia.
    - rewrite lookup_delete_ne by done. lia.
    - rewrite lookup_insert_eq, Hc. done.
    - rewrite lookup_insert_ne by done. lia. }
  assert (Hsub : forall e k, ext_children n' !! e = Some k -> 0 < k < 2 ^ 16 /\ exists k', ext_children n !! e = Some k').
  { intros e k Hk. rewrite E3 in Hk. unfold drop_count in Hk. rewrite Hc in Hk. destruct (Z.ltb_spec 0 c); [|lia].
    destruct (Z.eqb_spec (c - 1) 0); [apply lookup_delete_Some in Hk as [_ Hk]; split; [by apply (ro_ext _ _ _ Hro' e k)|eauto]|].
    destruct (decide (e = x)) as [->|Hne]; [rewrite lookup_insert_eq in Hk; injection Hk as <-; split; [lia|eauto]|].
    rewrite lookup_insert_ne in Hk by done. split; [by apply (ro_ext _ _ _ Hro' e k)|eauto]. }
  eapply dbinv_same; [exact Hs|exact I|eapply same_dirties_linked; [exact Ed|done|done|exact Hn|done|done|apply I]|].
  rewrite (cores_set _ _ _ _ Ed). eapply (graph_edge u _ [] (cores d) L [] []); [apply I|left|by apply cores_Some|done|done| |].
  - intros _. constructor; [by rewrite <- (ro_node _ _ _ Hro')|..].
    + intros e k Hk. destruct (Hsub e k Hk) as [? [k' Hk']]. split; [done|]. by apply (ro_ext _ _ _ Hro' e k').
    + intros e k Hk. destruct (Hsub e k Hk) as [? [k' Hk']]. by apply (ro_wf _ _ _ Hro' e k').
  - intros e. unfold cnt. change (inner_children (core n')) with (inner_children n'). change (ext_children (core n')) with (ext_children n').
    change (inner_children (core n)) with (inner_children n). change (ext_children (core n)) with (ext_children n).
    rewrite Hdrop, occ_cons. unfold inner_children. rewrite E1. change (occ e []) with 0. lia.
Qed.

Lemma graph_more D X E L P R x : graphx u D X E L P R -> x ∉ L \/ D x -> graphx u D X E L P (x :: R).
Proof.
  intros [G1 G2 G3 G4 G5 G6 G7 G8] Hx. constructor; try done. intros h n Hh Hn. destruct (G8 h n Hh Hn) as [?|Hc]; [by left|].
  destruct Hx as [Hx|Hx], (decide (x = h)) as [->|Hne]; try (by left); try done; right; rewrite Hc, occ_cons, decide_False by done; lia.
Qed.

(** Taking back the reference of the meta root to a node; one on disk may have none. *)
Lemma drop_ref x d L : dbinv d L [] [] -> is_Some (roots d !! x) \/ on_disk (tdb_diskdb d) x ->
  exists d', drop_child x 0 d = (Ok tt, d') /\ dbinv d' L [] [x] /\ same_store d d' /\ roots d' = drop_count x (roots d).
Proof.
  intros I Hx. destruct (roots d !! x) as [c|] eqn:Hc; [by eapply drop_root|]. destruct Hx as [[? ?]|Hd]; [done|].
  destruct (root_present _ _ _ _ _ I) as [n Hn]. exists d. split_and!.
  - unfold drop_child, entry, bindM, gets. rewrite Hn. cbn. unfold roots in Hc. rewrite Hn in Hc. cbn in Hc. by rewrite Hc.
  - destruct I as [I1 I2 I3 I4 I5]. constructor; [done| |done|done|done]. by apply graph_more; [|right].
  - apply same_store_refl.
  - unfold drop_count. by rewrite Hc.
Qed.

Lemma Dereference_ok fuel x d L : dbinv d L [] [] -> is_Some (roots d !! x) \/ on_disk (tdb_diskdb d) x -> x <> 0 -> (u_rank u x < fuel)%nat ->
  exists d' L', Dereference range fuel x d = (Ok tt, d') /\ dbinv d' L' [] [] /\ sublist L' L /\ same_store d d' /\
    roots d' = drop_count x (roots d).
Proof.
  intros I Hc Hx Hf. destruct fuel as [|fuel]; [lia|].
  destruct (drop_ref x d L I Hc) as (d1 & E1 & I1 & T1 & R1).
  destruct (release_ok fuel x d1 L [] [] (dereference_ok fuel) I1 Hx) as (d2 & L' & E2 & I2 & S2 & [T2 R2] & _); [by intros q ?%elem_of_nil|lia|].
  unfold Dereference. apply Z.eqb_neq in Hx as ->. unfold bindM at 1, getS. rewrite dereference_S.
  assert (E : (drop_child x 0 ;; release fuel x) d = (Ok tt, d2)) by (by rewrite (bind_Ok _ _ _ _ _ E1)).
  rewrite (bind_Ok _ _ _ _ _ E). eexists _, L'. split; [done|]. split_and!.
  - destruct I2 as [[? ? ? ? ?] ? ? ? ?]. by constructor.
  - done.
  - eapply same_store_trans; [exact T1|]. by destruct T2.
  - unfold roots at 1. cbn. fold (roots d2). by rewrite (roots_cores _ _ R2).
Qed.

(** ** Inserting *)

Lemma on_list X d L R c n : dbinvx X d L [] R -> c <> 0 -> tdb_dirties d !! c = Some n -> c ∈ L.
Proof.
  intros I Hc Hn. assert (is_Some (cores d !! c)) as Hs by (rewrite (cores_Some _ _ _ Hn); by eexists).
  apply (g_dom _ _ _ _ _ _ _ (di_graph I)) in Hs as [?|[?|?%elem_of_nil]]; done.
Qed.

Lemma listed X d L P R c : dbinvx X d L P R -> c ∈ L -> exists n, tdb_dirties d !! c = Some n /\ entry_ok u c n.
Proof.
  intros I Hc. destruct (dll_lookup _ _ _ _ c (lk_links _ _ (di_linked I)) Hc) as [n Hn]. exists n. split; [done|].
  eapply inv_entry; [done| |done]. intros ->. by apply (lk_zero _ _ (di_linked I)).
Qed.

(** One more parent, when the count has room for it. *)
Lemma count_parent X d L R c n : dbinvx X d L [] R -> c <> 0 -> tdb_dirties d !! c = Some n ->
  refs (cores d) L c + occ c R + 1 < 2 ^ 32 ->
  let d' := set_dirties (<[c := set_parents (u32 (cn_parents n + 1)) n]> (tdb_dirties d)) d in
  dbinvx X d' L [] (c :: R).
Proof.
  intros I Hc Hn Hb d'. pose proof (on_list _ _ _ _ _ _ I Hc Hn) as HL.
  eapply dbinv_same; [|exact I|eapply linked_set; [apply I|exact Hn|done|done]|]; [done|].
  rewrite (cores_set d d' c _ eq_refl). apply (graph_parents u _ X (cores d) L [] R (c :: R) c (core n)); [apply I|by apply cores_Some|done| |].
  - intros h Hh. rewrite occ_cons, decide_False by done. lia.
  - destruct (g_count _ _ _ _ _ _ _ (di_graph I) c _ HL (cores_Some _ _ _ Hn)) as [?|Hcn]; [by left|right].
    change (cn_parents (core n)) with (cn_parents n) in Hcn. rewrite occ_cons, decide_True by done. unfold u32.
    pose proof (refs_nonneg _ _ _ _ _ _ _ c (di_graph I)). pose proof (occ_nonneg c R). rewrite Z.mod_small by lia. change (cn_parents n + 1 = refs (cores d) L c + (1 + occ c R)). lia.
Qed.

Lemma refs_parents d c n p L x : tdb_dirties d !! c = Some n ->
  refs (cores (set_dirties (<[c := set_parents p n]> (tdb_dirties d)) d)) L x = refs (cores d) L x.
Proof. intros Hn. erewrite cores_set by reflexivity. eapply refs_same; [by apply cores_Some|done|done]. Qed.

(** Counting the references of a new node. *)
Lemma add_parents_ok l : forall d L R, dbinv d L [] R -> (forall e, e ∈ l -> e <> 0) ->
  (forall x, refs (cores d) L x + occ x R + Z.of_nat (length l) < 2 ^ 32) ->
  exists d', for_each add_parent l d = (Ok tt, d') /\ dbinv d' L [] (rev l ++ R) /\ same_store d d' /\
    tdb_newest d' = tdb_newest d /\ forall q, q ∉ l -> tdb_dirties d' !! q = tdb_dirties d !! q.
Proof.
  induction l as [|c l IH]; intros d L R I Hz Hb; [by exists d|]. assert (Hc := Hz c ltac:(left)).
  assert (exists d1, add_parent c d = (Ok tt, d1) /\ dbinv d1 L [] (c :: R) /\ same_store d d1 /\ tdb_newest d1 = tdb_newest d /\
    (forall q, q <> c -> tdb_dirties d1 !! q = tdb_dirties d !! q) /\ (forall x, refs (cores d1) L x = refs (cores d) L x)) as (d1 & E1 & I1 & T1 & N1 & Q1 & F1).
  { unfold add_parent, bindM, gets. destruct (tdb_dirties d !! c) as [n|] eqn:Hn.
    - eexists. split; [done|]. split_and!; [|done|done| |].
      + apply count_parent; [done|done|done|]. specialize (Hb c). cbn [length] in Hb. lia.
      + intros q Hq. cbn. by rewrite lookup_insert_ne.
      + intros x. by apply refs_parents.
    - exists d. split_and!; try done. eapply dbinv_same; [done|exact I|apply I|]. apply graph_more; [apply I|left].
      intros HL. destruct (listed _ _ _ _ _ _ I HL) as (m & Hm & _). congruence. }
  destruct (IH d1 L (c :: R) I1) as (d2 & E2 & I2 & T2 & N2 & Q2); [intros e He; apply Hz; by right| |].
  { intros x. specialize (Hb x). cbn [length] in Hb. rewrite F1, occ_cons. destruct (decide (c = x)); lia. }
  exists d2. cbn [for_each rev]. rewrite (bind_Ok _ _ _ _ _ E1). split_and!; [done|by rewrite <- app_assoc|by eapply same_store_trans|congruence|].
  intros q [Hq1 Hq2]%not_elem_of_cons. by rewrite Q2, Q1.
Qed.

Lemma occ_rev h l : occ h (rev l) = occ h l.
Proof. induction l as [|x l IH]; [done|]. cbn [rev]. rewrite occ_app, !occ_cons, IH. change (occ h []) with 0. lia. Qed.

Lemma not_listed X d L P R h : dbinvx X d L P R -> tdb_dirties d !! h = None -> h ∉ L.
Proof. intros I Hn HL. destruct (listed _ _ _ _ _ _ I HL) as (m & Hm & _). congruence. Qed.

Lemma inner_not_self h : (h ∉ u_inner u h) /\ 0 ∉ u_inner u h.
Proof.
  split; intros Hi; (assert (He : _ ∈ edges u h) by (apply elem_of_app; left; exact Hi)).
  - apply (uo_rank _ U) in He. lia.
  - by apply (uo_edges _ U) in He as [].
Qed.

(** A new node, whose children are there. *)
Lemma db_insert_ok d L h blob i r :
  dbinv d L [] [] -> tdb_dirties d !! h = None -> simplifyNode i = Ok r ->
  entry_ok u h (mkCached r (u16 (Z.of_nat (length blob))) 0 None 0 0) ->
  (forall e, e ∈ edges u h -> e ∈ L \/ on_disk (tdb_diskdb d) e) ->
  exists d', Database_insert h blob i d = (Ok tt, d') /\ dbinvx [h] d' (L ++ [h]) [] [] /\ same_store d d' /\ roots d' = roots d /\
    exists n, tdb_dirties d' !! h = Some n /\ cn_children n = None.
Proof.
  intros I Hn Hr Ho Hed. destruct (uo_nodes _ U h (eo_node _ _ _ Ho)) as [Hh0 _]. destruct (inner_not_self h) as [Hhi H0i].
  pose proof (not_listed _ _ _ _ _ _ I Hn) as HhL.
  set (en := mkCached r (u16 (Z.of_nat (length blob))) 0 None (tdb_newest d) 0).
  assert (Ho' : entry_ok u h (core en)) by (by eapply entry_ok_same).
  assert (Ein : inner_children en = u_inner u h) by apply Ho.
  destruct (add_parents_ok (inner_children en) d L [] I) as (d1 & E1 & I1 & T1 & N1 & Q1).
  { rewrite Ein. by intros e He ->. }
  { intros x. change (occ x []) with 0. rewrite Ein. pose proof (refs_bound u U _ _ _ _ _ _ x h (di_graph I) (eo_node _ _ _ Ho) HhL). lia. }
  set (d2 := set_dirties (<[h := en]> (tdb_dirties d1)) d1).
  assert (Hl2 : linked d2 L).
  { apply (linked_frame d1); [done|done| |apply I1]. intros a Ha m Hm. exists m. cbn. by rewrite lookup_insert_ne by (by intros ->). }
  destruct (insert_at_tail_ok d2 L h en Hl2 HhL Hh0) as (d3 & E3 & Hl3 & Hr3); [cbn; by rewrite lookup_insert_eq|cbn; by rewrite N1|done|].
  exists (add_dirtiesSize (u16 (32 + cn_size en)) d3). split_and!.
  - unfold Database_insert, bindM at 1, gets at 1. rewrite Hn. rewrite Hr. unfold bindM at 1, lift_out. unfold bindM at 1, gets at 1. fold en.
    rewrite (bind_Ok _ _ _ _ _ E1). unfold set_entry, modS at 1. erewrite bind_Ok by done. fold d2. rewrite (bind_Ok _ _ _ _ _ E3). done.
  - eapply (dbinv_same [] d1); [|exact I1| |].
    + by destruct Hr3.
    + destruct Hl3. by constructor.
    + assert (Ec : cores (add_dirtiesSize (u16 (32 + cn_size en)) d3) = <[h := core en]> (cores d1)).
      { transitivity (cores d3); [done|]. rewrite (rl_cores _ _ Hr3). by apply cores_set. }
      rewrite Ec. apply (graph_insert u U _ _ _ (rev (inner_children en) ++ []));
        [apply I1|apply cores_None; rewrite Q1, Hn by (by rewrite Ein); done|done|done|done| |by rewrite (ss_disk _ _ T1)].
      intros e. by rewrite app_nil_r, occ_rev, Ein.
  - eapply same_store_trans; [exact T1|]. by destruct Hr3.
  - etrans; [apply (roots_cores d2)|].
    + transitivity (cores d3 !! 0); [done|]. by rewrite (rl_cores _ _ Hr3).
    + unfold roots. cbn. rewrite lookup_insert_ne by done. by rewrite Q1 by (by rewrite Ein).
  - destruct (cores_lookup d2 d3 h en) as (n & Hn3 & Ec); [by apply Hr3|cbn; by rewrite lookup_insert_eq|]. exists n. split; [done|].
    assert (cn_children (core n) = cn_children (core en)) as Hch by (by rewrite Ec). done.
Qed.

(** ** References *)

Definition ext_at d (h : hash) : gmap hash Z := default ∅ (ext_children <$> tdb_dirties d !! h).

Lemma ext_at_roots d : ext_at d 0 = roots d.
Proof. done. Qed.

(** Recording a reference from an entry that does not count it yet, or from the meta root. *)
Lemma reference_count d p c n nc : c <> p -> tdb_dirties d !! p = Some n -> tdb_dirties d !! c = Some nc ->
  (ext_children n !! c = None \/ p = 0) ->
  exists d' n', reference c p d = (Ok tt, d') /\ same_store d d' /\ tdb_oldest d' = tdb_oldest d /\ tdb_newest d' = tdb_newest d /\
    tdb_dirties d' = <[p := n']> (<[c := set_parents (u32 (cn_parents nc + 1)) nc]> (tdb_dirties d)) /\
    n' = set_children (Some (<[c := u16 (default 0 (ext_children n !! c) + 1)]> (ext_children n))) n.
Proof.
  intros Hcp Hn Hnc Hnew. unfold reference, bindM at 1, gets. rewrite Hnc. unfold bindM at 1, entry at 1, bindM at 1, gets. rewrite Hn. cbn [deref ret].
  set (cs := match cn_children n with
             | None => _ | Some m => _ end).
  assert (exists d1 n1, cs d = (Ok true, d1) /\ same_store d d1 /\ tdb_oldest d1 = tdb_oldest d /\ tdb_newest d1 = tdb_newest d /\
    tdb_dirties d1 = <[p := n1]> (tdb_dirties d) /\ ext_children n1 = ext_children n /\ (forall m, set_children m n1 = set_children m n)) as (d1 & n1 & E1 & T1 & O1 & N1 & Q1 & X1 & F1).
  { subst cs. destruct (cn_children n) as [m|] eqn:Em.
    - exists d, n. assert (Hb : negb (bool_decide (is_Some (m !! c)) && negb (p =? 0)) = true).
      { unfold ext_children in Hnew. rewrite Em in Hnew. cbn in Hnew. destruct Hnew as [->| ->]; [rewrite bool_decide_false by (by intros []); done|].
        by rewrite andb_false_r. }
      rewrite Hb. split_and!; try done. by rewrite insert_id.
    - eexists _, (set_children (Some ∅) n). split; [done|]. split_and!; try done. unfold ext_children. by rewrite Em. }
  rewrite (bind_Ok _ _ _ _ _ E1). cbn [when]. erewrite bind_Ok by (apply upd_entry_ok; by rewrite Q1, lookup_insert_ne).
  unfold bindM at 1, entry, bindM at 1, gets. cbn [tdb_dirties set_dirties]. rewrite Q1. rewrite lookup_insert_ne, lookup_insert_eq by done. cbn [deref ret].
  unfold set_entry, modS at 1. erewrite bind_Ok by done. rewrite X1, F1. set (k := u16 _).
  assert (Ed : forall d2 : Database, tdb_dirties d2 = <[p:=set_children (Some (<[c:=k]> (ext_children n))) n]>
      (<[c:=set_parents (u32 (cn_parents nc + 1)) nc]> (<[p:=n1]> (tdb_dirties d))) ->
      tdb_dirties d2 = <[p:=set_children (Some (<[c:=k]> (ext_children n))) n]> (<[c:=set_parents (u32 (cn_parents nc + 1)) nc]> (tdb_dirties d))).
  { intros d2 ->. rewrite (insert_insert_ne _ c p) by done. by rewrite insert_insert_eq. }
  destruct (k =? 1); cbn [when]; eexists _, _; (split; [done|]); (split; [by destruct T1|]); (split_and!; [done|done| |done]); by apply Ed.
Qed.

Lemma ext_nonneg X d L P R p n c : dbinvx X d L P R -> tdb_dirties d !! p = Some n -> 0 <= default 0 (ext_children n !! c).
Proof.
  intros I Hn. destruct (ext_children n !! c) as [k|] eqn:Ek; [|done]. cbn. destruct (decide (p = 0)) as [->|Hp].
  - destruct (g_root _ _ _ _ _ _ _ (di_graph I)) as (r & Hr & Hro). rewrite (cores_Some _ _ _ Hn) in Hr. injection Hr as <-.
    destruct (ro_ext _ _ _ Hro c k Ek) as [[] _]. lia.
  - destruct (eo_ext _ _ _ (inv_entry _ _ _ _ _ _ _ I Hp Hn) _ _ Ek). lia.
Qed.

Lemma cnt_add n c k e : k = default 0 (ext_children n !! c) + 1 ->
  cnt (core (set_children (Some (<[c := k]> (ext_children n))) n)) e = cnt (core n) e + if decide (c = e) then 1 else 0.
Proof.
  intros ->. unfold cnt. set (m := <[c := _]> (ext_children n)).
  change (inner_children (core (set_children (Some m) n))) with (inner_children n). change (ext_children (core (set_children (Some m) n))) with m.
  change (inner_children (core n)) with (inner_children n). change (ext_children (core n)) with (ext_children n). subst m.
  destruct (decide (c = e)) as [->|Hne]; [rewrite lookup_insert_eq; cbn [from_option]; unfold id|rewrite lookup_insert_ne by done]; lia.
Qed.

Lemma reference_add X d L c p n :
  dbinvx X d L [] [] -> c ∈ L -> p ∈ 0 :: L -> c <> p -> tdb_dirties d !! p = Some n -> ext_children n !! c = None \/ p = 0 ->
  default 0 (ext_children n !! c) + 1 < 2 ^ 16 -> (p <> 0 -> c ∈ u_ext u p) ->
  exists d', reference c p d = (Ok tt, d') /\ dbinvx X d' L [] [] /\ same_store d d' /\
    forall h, ext_at d' h = if decide (h = p) then <[c := default 0 (ext_children n !! c) + 1]> (ext_children n) else ext_at d h.
Proof.
  intros I Hc Hp Hcp Hn Hnew Hk Hext. destruct (listed _ _ _ _ _ _ I Hc) as (nc & Hnc & Hoc).
  assert (Hc0 : c <> 0) by (intros ->; by apply (lk_zero _ _ (di_linked I))).
  destruct (reference_count d p c n nc Hcp Hn Hnc Hnew) as (d' & n' & E & T & O & N & Q & En').
  pose proof (ext_nonneg _ _ _ _ _ _ _ c I Hn) as Hpos.
  set (k := default 0 (ext_children n !! c) + 1) in *. assert (Eu : u16 k = k) by (unfold u16; apply Z.mod_small; lia). rewrite Eu in En'.
  set (dm := set_dirties (<[c := set_parents (u32 (cn_parents nc + 1)) nc]> (tdb_dirties d)) d).
  assert (Im : dbinvx X dm L [] [c]).
  { apply count_parent; [done|done|done|]. pose proof (refs_bound' u U _ _ _ _ _ _ c (di_graph I)). change (occ c []) with 0. lia. }
  assert (Hnm : tdb_dirties dm !! p = Some n) by (cbn; by rewrite lookup_insert_ne).
  exists d'. split_and!; [done| |done|].
  - eapply (dbinv_same X dm); [by destruct T|exact Im| |].
    + eapply (same_dirties_linked dm d'); [exact Q|done|done|exact Hnm|by rewrite En'|by rewrite En'|apply Im].
    + rewrite (cores_set dm d' p n' Q). eapply (graph_edge u _ X (cores dm) L [] [c] [] p (core n)); [apply Im|done|by apply cores_Some|by rewrite En'| | |].
      * intros Hp0. pose proof (inv_entry _ _ _ _ _ _ _ I Hp0 Hn) as [O1 O2 O3 O4 O5]. split.
        -- rewrite En'. constructor; [done..|]. intros e k' Hk'. change (<[c := k]> (ext_children n) !! e = Some k') in Hk'.
           destruct (decide (e = c)) as [->|Hne]; [|rewrite lookup_insert_ne in Hk' by done; by apply O5].
           rewrite lookup_insert_eq in Hk'. injection Hk' as <-. destruct Hnew as [Hz|]; [|done]. subst k. rewrite Hz. split; [done|by apply Hext].
        -- intros e. rewrite En', (cnt_add n c k e eq_refl). destruct (decide _); lia.
      * intros ->. destruct (g_root _ _ _ _ _ _ _ (di_graph I)) as (r & Hr & [R1 R2 R3]). rewrite (cores_Some _ _ _ Hn) in Hr. injection Hr as <-.
        rewrite En'. constructor; [done|..]; intros e k' Hk'; change (<[c := k]> (ext_children n) !! e = Some k') in Hk';
          (destruct (decide (e = c)) as [->|Hne]; [|rewrite lookup_insert_ne in Hk' by done; by eauto]).
        -- rewrite lookup_insert_eq in Hk'. injection Hk' as <-. split; [lia|by left].
        -- apply (uo_nodes _ U), Hoc.
      * intros e. rewrite En', (cnt_add n c k e eq_refl), occ_cons. change (occ e []) with 0. lia.
  - intros h. unfold ext_at. rewrite Q. destruct (decide (h = p)) as [->|Hne]; [rewrite lookup_insert_eq, En'; done|].
    rewrite lookup_insert_ne by done. destruct (decide (h = c)) as [->|]; [rewrite lookup_insert_eq, Hnc; done|by rewrite lookup_insert_ne].
Qed.

(** A reference from a node to something its leaves refer to. *)
Lemma reference_node X d L c p : dbinvx X d L [] [] -> p ∈ L -> c ∈ u_ext u p ->
  exists d', reference c p d = (Ok tt, d') /\ dbinvx X d' L [] [] /\ same_store d d' /\ roots d' = roots d /\
    (forall e, is_Some (ext_at d p !! e) -> is_Some (ext_at d' p !! e)) /\ (c ∈ L -> is_Some (ext_at d' p !! c)).
Proof.
  intros I Hp Hc. assert (He : c ∈ edges u p) by (apply elem_of_app; by right). destruct (uo_edges _ U _ _ He) as [Hc0 _].
  assert (c <> p) by (intros ->; apply (uo_rank _ U) in He; lia). assert (Hp0 : p <> 0) by (intros ->; by apply (lk_zero _ _ (di_linked I))).
  destruct (listed _ _ _ _ _ _ I Hp) as (n & Hn & Ho).
  destruct (tdb_dirties d !! c) as [nc|] eqn:Hnc.
  2:{ exists d. split; [unfold reference, bindM, gets; by rewrite Hnc|]. split_and!; try done. intros HL.
      destruct (listed _ _ _ _ _ _ I HL) as (m & Hm & _). congruence. }
  assert (HL : c ∈ L) by (by eapply on_list). destruct (ext_children n !! c) as [k|] eqn:Ek.
  - assert (Ex : ext_at d p = ext_children n) by (unfold ext_at; by rewrite Hn).
    exists d. split; [|split_and!; try done; intros _; rewrite Ex, Ek; by eexists].
    unfold reference, bindM at 1, gets. rewrite Hnc. unfold bindM at 1, entry, bindM at 1, gets. rewrite Hn. cbn [deref ret].
    unfold ext_children in Ek. destruct (cn_children n) as [m|]; [|done]. cbn in Ek. rewrite Ek, bool_decide_true by (by eexists).
    apply Z.eqb_neq in Hp0 as ->. done.
  - destruct (reference_add X d L c p n I HL ltac:(by right) ltac:(done) Hn ltac:(by left)) as (d' & E & I' & T & Hx); [by rewrite Ek|done|].
    exists d'. split_and!; [done..| | |].
    + rewrite <- !ext_at_roots, Hx, decide_False by done. done.
    + intros e. rewrite Hx, decide_True by done. unfold ext_at. rewrite Hn. cbn. intros [j Hj].
      destruct (decide (e = c)) as [->|]; [rewrite lookup_insert_eq; by eexists|rewrite lookup_insert_ne, Hj by done; by eexists].
    + intros _. rewrite Hx, decide_True, lookup_insert_eq by done. by eexists.
Qed.

(** A reference to a root. *)
Lemma reference_root d L c : dbinv d L [] [] -> c ∈ L -> default 0 (roots d !! c) + 1 < 2 ^ 16 ->
  exists d', Reference c 0 d = (Ok tt, d') /\ dbinv d' L [] [] /\ same_store d d' /\
    roots d' = <[c := default 0 (roots d !! c) + 1]> (roots d).
Proof.
  intros I Hc Hk. destruct (root_present _ _ _ _ _ I) as [n Hn]. assert (Hc0 : c <> 0) by (intros ->; by apply (lk_zero _ _ (di_linked I))).
  assert (Er : roots d = ext_children n) by (unfold roots; by rewrite Hn). rewrite Er in *.
  destruct (reference_add [] d L c 0 n I Hc ltac:(left) Hc0 Hn ltac:(by right) Hk) as (d' & E & I' & T & Hx); [done|].
  exists d'. split_and!; [done..|]. by rewrite <- ext_at_roots, Hx.
Qed.
End Facts.
