(* ===== verification/TrieDBFlush.v ===== *)
(** Reading from the trie database, and writing its oldest nodes to disk: [Cap]
    (trie/database.go; see [TrieDBCommit] for [Commit]). *)
From stdpp Require Import prelude gmap list strings.
From Stdlib Require Import ZArith Lia.
From S2P Require Import Prelude VarBytes RLP RLPStream Crypto TrieKeys Trie TrieNode MemoryDB TrieDB TrieDBList TrieDBGraph TrieDBFacts.
Local Open Scope Z_scope.

(** ** Hashes as keys *)

Lemma secureKey_length h : length (secureKey (hash_bytes h)) = 43%nat.
Proof. unfold secureKey. by rewrite length_app, length_hash_bytes. Qed.

(** What a batch leaves under a key all of whose writes agree. *)
Lemma written_agree ws key v old : (forall w, w ∈ ws -> fst w = key -> snd w = Some v) ->
  written_value ws key old = if decide ((key, Some v) ∈ ws) then Some v else old.
Proof.
  revert old. induction ws as [|[k o] ws IH]; intros old Hw; [by rewrite decide_False by apply not_elem_of_nil|].
  unfold written_value in *. cbn [foldl fst snd]. rewrite IH by (intros w Hin; apply Hw; by right).
  destruct (decide (k = key)) as [->|Hne].
  - assert (o = Some v) as -> by (apply (Hw (key, o)); [left|done]). rewrite (decide_True (P := (key, Some v) ∈ (key, Some v) :: ws)) by left. by destruct (decide _).
  - destruct (decide ((key, Some v) ∈ ws)) as [Hin|Hn]; [by rewrite decide_True by (by right)|]. rewrite decide_False; [done|].
    intros [E|?]%elem_of_cons; [by injection E as -> _|done].
Qed.

Lemma written_kept ws key old : (forall w, w ∈ ws -> is_Some (snd w)) -> is_Some old -> is_Some (written_value ws key old).
Proof.
  revert old. induction ws as [|w ws IH]; intros old Hw Ho; [done|]. apply IH; [intros w' Hin; apply Hw; by right|].
  destruct (decide _); [apply Hw; left|done].
Qed.

Section Flush.
Context {K C : Type} `{KeyValueLaws K} `{CacheLaws C}.
Context (range : forall A, gmap hash A -> list hash).
Hypothesis range_perm : forall A (m : gmap hash A), range A m ≡ₚ (map_to_list m).*1.
Local Abbreviation Database := (Database K C).
Context (u : universe) (U : universe_ok u).
Implicit Types d : Database.
Local Abbreviation dbinv d L := (dbinvx u [] d L [] []).
Local Abbreviation disk d := (on_disk (tdb_diskdb d)).

(** A hash that can be read. *)
Definition avail_in d (L : list hash) (h : hash) : Prop := h ∈ L \/ disk d h.

(** ** Reading *)

(** Reading changes the clean cache alone. *)
Record same_data d d' : Prop := {
  sd_disk : tdb_diskdb d' = tdb_diskdb d;
  sd_dirties : tdb_dirties d' = tdb_dirties d;
  sd_oldest : tdb_oldest d' = tdb_oldest d;
  sd_newest : tdb_newest d' = tdb_newest d;
  sd_preimages : tdb_preimages d' = tdb_preimages d }.

Lemma inv_same_data X d d' L P R : same_data d d' -> clean_ok u d' -> dbinvx u X d L P R -> dbinvx u X d' L P R.
Proof.
  intros [E1 E2 E3 E4 E5] Hc [H1' H2' H3' H4' H5']. constructor; [|by unfold cores; rewrite E1, E2|by rewrite E1|done|by rewrite E1].
  apply (linked_frame d); [done|done| |done]. intros a Ha n Hn. rewrite E2. by exists n.
Qed.

Lemma clean_set_ok X d L P R h b : dbinvx u X d L P R -> wf_hash h -> b = u_blobs u h -> disk d h ->
  exists d', clean_set h b d = (Ok tt, d') /\ dbinvx u X d' L P R /\ same_data d d'.
Proof.
  intros I Hh -> Hd. eexists. split; [done|]. split; [|done]. apply (inv_same_data X d); [done| |exact I]. intros h' b' Hh' Hb. cbn.
  unfold clean_get in Hb. cbn in Hb. destruct (tdb_cleans d) as [c|] eqn:Ec; [|done]. cbn in Hb. apply cache_set_get in Hb.
  case_decide as E.
  - apply hash_bytes_inj in E as ->; [|done..]. split; [exact Hb|exact Hd].
  - eapply (di_clean _ _ _ _ _ _ I); [done|]. unfold clean_get. by rewrite Ec.
Qed.

Lemma kv_Get_Some (k : K) key b : kv_value k key = Some b -> kv_Get key k = inr b.
Proof. unfold kv_value. destruct (kv_Get key k); [done|]. by intros [= <-]. Qed.
Lemma kv_Get_None (k : K) key : kv_value k key = None -> exists e, kv_Get key k = inl e.
Proof. unfold kv_value. destruct (kv_Get key k); [|done]. eauto. Qed.

Definition unlisted_None X d L R h : dbinvx u X d L [] R -> h <> 0 -> h ∉ L -> tdb_dirties d !! h = None.
Proof. intros I Hh HL. destruct (tdb_dirties d !! h) as [n|] eqn:E; [|done]. exfalso. by eapply HL, on_list. Qed.

(** What can be read is the right encoding, and what cannot is an error. *)
Lemma Database_Node_ok X d L R h : dbinvx u X d L [] R -> wf_hash h -> h <> 0 -> avail_in d L h ->
  exists d', Database_Node h d = (Ok (u_blobs u h), d') /\ dbinvx u X d' L [] R /\ same_data d d'.
Proof.
  intros I Hh H0' Hav. unfold Database_Node. apply Z.eqb_neq in H0' as Ez. rewrite Ez. unfold bindM at 1, gets.
  destruct (clean_get h d) as [b|] eqn:Ec. { destruct (di_clean _ _ _ _ _ _ I h b Hh Ec) as [-> _]. by exists d. }
  unfold bindM at 1. destruct (tdb_dirties d !! h) as [n|] eqn:En.
  { exists d. split_and!; [|done|done]. unfold lift_out. by rewrite (eo_rlp _ _ _ (inv_entry _ _ _ _ _ _ _ _ I H0' En)). }
  unfold bindM at 1. destruct Hav as [HL|[b Hb]]; [destruct (listed _ _ _ _ _ _ _ I HL) as (m & Hm & _); congruence|].
  rewrite (kv_Get_Some _ _ _ Hb). destruct (di_disk _ _ _ _ _ _ I h b Hh Hb) as [-> _].
  destruct (clean_set_ok X d L [] R h (u_blobs u h) I Hh eq_refl ltac:(by eexists)) as (d' & E & I' & Hs). exists d'. by rewrite (bind_Ok _ _ _ _ _ E).
Qed.

Lemma Database_Node_missing X d L R h : dbinvx u X d L [] R -> wf_hash h -> h <> 0 -> h ∉ L -> ~ disk d h ->
  exists e, Database_Node h d = (Err e, d).
Proof.
  intros I Hh H0' HL Hd. unfold Database_Node. apply Z.eqb_neq in H0' as Ez. rewrite Ez. unfold bindM at 1, gets.
  destruct (clean_get h d) as [b|] eqn:Ec. { by destruct (di_clean _ _ _ _ _ _ I h b Hh Ec). }
  unfold bindM at 1. rewrite (unlisted_None _ _ _ _ _ I H0' HL). unfold bindM at 1.
  destruct (kv_value (tdb_diskdb d) (hash_bytes h)) as [b|] eqn:Eb; [by destruct Hd; eexists|].
  destruct (kv_Get_None _ _ Eb) as [e ->]. by exists e.
Qed.

(** The node under a hash. *)
Definition decoded (h : hash) : outcome (option node) := (Some <$> mustDecodeNode (Some (hash_bytes h)) (u_blobs u h))%stdpp.

Lemma lift_decoded d h : (n ← lift_out (mustDecodeNode (Some (hash_bytes h)) (u_blobs u h)); ret (Some n)) d = (decoded h, d).
Proof. unfold bindM, lift_out, decoded. by destruct (mustDecodeNode _ _). Qed.

Lemma Database_node_ok X d L R h : dbinvx u X d L [] R -> wf_hash h -> h <> 0 -> avail_in d L h ->
  exists d', Database_node h d = (decoded h, d') /\ dbinvx u X d' L [] R /\ same_data d d'.
Proof.
  intros I Hh H0' Hav. unfold Database_node. unfold bindM at 1, gets.
  destruct (clean_get h d) as [b|] eqn:Ec. { destruct (di_clean _ _ _ _ _ _ I h b Hh Ec) as [-> _]. exists d. by rewrite lift_decoded. }
  unfold bindM at 1. destruct (tdb_dirties d !! h) as [n|] eqn:En.
  { exists d. rewrite (eo_obj _ _ _ (inv_entry _ _ _ _ _ _ _ _ I H0' En)). by rewrite lift_decoded. }
  unfold bindM at 1. destruct Hav as [HL|[b Hb]]; [destruct (listed _ _ _ _ _ _ _ I HL) as (m & Hm & _); congruence|].
  rewrite (kv_Get_Some _ _ _ Hb). destruct (di_disk _ _ _ _ _ _ I h b Hh Hb) as [-> _].
  destruct (clean_set_ok X d L [] R h (u_blobs u h) I Hh eq_refl ltac:(by eexists)) as (d' & E & I' & Hs). exists d'.
  rewrite (bind_Ok _ _ _ _ _ E). by rewrite lift_decoded.
Qed.

Lemma Database_node_missing X d L R h : dbinvx u X d L [] R -> wf_hash h -> h <> 0 -> h ∉ L -> ~ disk d h ->
  Database_node h d = (Ok None, d).
Proof.
  intros I Hh H0' HL Hd. unfold Database_node. unfold bindM at 1, gets.
  destruct (clean_get h d) as [b|] eqn:Ec. { by destruct (di_clean _ _ _ _ _ _ I h b Hh Ec). }
  unfold bindM at 1. rewrite (unlisted_None _ _ _ _ _ I H0' HL). unfold bindM at 1.
  destruct (kv_value (tdb_diskdb d) (hash_bytes h)) as [b|] eqn:Eb; [by destruct Hd; eexists|].
  by destruct (kv_Get_None _ _ Eb) as [e ->].
Qed.

(** ** Writing batches *)

(** A batch holds preimages, and nodes with their encodings. *)
Definition batch_ok (b : batch) : Prop := forall w, w ∈ b_writes b ->
  (length (fst w) <> 32%nat /\ is_Some (snd w)) \/ exists h, wf_hash h /\ w = (hash_bytes h, Some (u_blobs u h)).
Definition pending (b : batch) (h : hash) : Prop := (hash_bytes h, Some (u_blobs u h)) ∈ b_writes b.
(** With a node, the batch or the disk has what the node refers to. *)
Definition closed d (b : batch) : Prop := forall h e, wf_hash h -> pending b h -> e ∈ edges u h -> disk d e \/ pending b e.

Record finv d (b : batch) (L : list hash) : Prop := {
  fi_inv : dbinv d L;
  fi_batch : batch_ok b;
  fi_closed : closed d b }.

Lemma pending_value d b h : batch_ok b -> wf_hash h ->
  written_value (b_writes b) (hash_bytes h) (kv_value (tdb_diskdb d) (hash_bytes h)) =
    if decide ((hash_bytes h, Some (u_blobs u h)) ∈ b_writes b) then Some (u_blobs u h) else kv_value (tdb_diskdb d) (hash_bytes h).
Proof.
  intros Hb Hh. apply written_agree. intros w Hw Hk. destruct (Hb w Hw) as [[Hl _]|(h' & Hh' & ->)]; [by rewrite Hk, length_hash_bytes in Hl|].
  cbn in Hk |- *. apply hash_bytes_inj in Hk as ->; done.
Qed.

(** The database over another disk that has more. *)
Lemma inv_disk d L k' : dbinv d L -> kv_open k' -> (forall h, on_disk (tdb_diskdb d) h -> on_disk k' h) -> disk_ok u k' ->
  dbinv (set_diskdb k' d) L.
Proof.
  intros [I1 I2 I3 I4 I5] Ho Hm Hd. constructor; [|by eapply graph_disk|done| |done].
  - destruct I1. by constructor.
  - intros h b Hh Hb. destruct (I4 h b Hh Hb). split; [done|by apply Hm].
Qed.

Lemma write_batch_ok d b L : finv d b L ->
  exists r k', write_batch (d, b) = (r, (set_diskdb k' d, b)) /\ dbinv (set_diskdb k' d) L /\ (forall h, disk d h -> on_disk k' h) /\
    ((r = Ok tt /\ forall h, wf_hash h -> on_disk k' h <-> disk d h \/ pending b h) \/ (exists e, r = Err e) /\ closed (set_diskdb k' d) b).
Proof.
  intros [I Hb Hc]. destruct (kv_written (b_writes b) (tdb_diskdb d) (di_open _ _ _ _ _ _ I)) as (k' & Ho & [[E Hv]|(e & E & Hv)]).
  - assert (Hdisk : forall h, wf_hash h -> on_disk k' h <-> disk d h \/ pending b h).
    { intros h Hh. unfold on_disk. rewrite Hv, pending_value by done. unfold pending. destruct (decide _) as [Hp|Hp]; [split; [by right|by eexists]|].
      split; [by left|]. by intros [?|?]. }
    assert (Hmono : forall h, disk d h -> on_disk k' h).
    { intros h Hh. unfold on_disk in *. rewrite Hv. apply written_kept; [|done]. intros w Hw. destruct (Hb w Hw) as [[_ ?]|(? & _ & ->)]; [done|by eexists]. }
    exists (Ok tt), k'. split; [unfold write_batch; by rewrite E|]. split; [|split; [done|left; done]]. apply inv_disk; [done..|].
    intros h v Hh Hv'. rewrite Hv, pending_value in Hv' by done. destruct (decide _) as [Hp|Hp].
    + injection Hv' as <-. split; [done|]. intros e He. apply Hdisk; [by apply (uo_edges _ U _ _ He)|]. by eapply Hc.
    + destruct (di_disk _ _ _ _ _ _ I h v Hh Hv') as [-> Hed]. split; [done|]. intros e He. by apply Hmono, Hed.
  - assert (Hsame : forall h, on_disk k' h <-> disk d h) by (intros h; unfold on_disk; by rewrite Hv).
    exists (Err e), k'. split; [unfold write_batch; by rewrite E|]. split; [|split; [by intros h; apply Hsame|right; split; [by exists e|]]].
    + apply inv_disk; [done|done|by intros h; apply Hsame|]. intros h v Hh Hv'. rewrite Hv in Hv'. destruct (di_disk _ _ _ _ _ _ I h v Hh Hv') as [-> Hed].
      split; [done|]. intros x Hx. by apply Hsame, Hed.
    + intros h x Hh Hp Hx. destruct (Hc h x Hh Hp Hx) as [?|?]; [left; by apply Hsame|by right].
Qed.

Lemma batch_ok_put b k v : batch_ok b -> ((length k <> 32%nat) \/ exists h, wf_hash h /\ k = hash_bytes h /\ v = u_blobs u h) -> batch_ok (batch_Put k v b).
Proof.
  intros Hb Hk w Hw. cbn in Hw. apply elem_of_app in Hw as [Hw|Hw%list_elem_of_singleton]; [by apply Hb|subst w].
  destruct Hk as [?|(h & ? & -> & ->)]; [left; split; [done|by eexists]|right; by exists h].
Qed.

Lemma pending_put b k v h : pending (batch_Put k v b) h <-> pending b h \/ (k = hash_bytes h /\ v = u_blobs u h).
Proof.
  unfold pending. cbn. rewrite elem_of_app, list_elem_of_singleton. split; (intros [?|E]; [by left|right]); [by injection E|]. by destruct E as [-> ->].
Qed.

Lemma finv_reset d b L : dbinv d L -> finv d (batch_Reset b) L.
Proof. intros I. constructor; [done|by intros w Hw%elem_of_nil|by intros h e _ Hp%elem_of_nil]. Qed.

Lemma not_pending_reset b h : ~ pending (batch_Reset b) h.
Proof. apply not_elem_of_nil. Qed.

(** Writing the batch when it is large, and starting over. *)
Lemma flush_if_ok d b L (big : bool) : finv d b L ->
  exists r k' b', (when big (write_batch ;; reset_batch)) (d, b) = (r, (set_diskdb k' d, b')) /\ finv (set_diskdb k' d) b' L /\
    (forall h, disk d h -> on_disk k' h) /\ (forall h, pending b' h -> pending b h) /\
    ((r = Ok tt /\ forall h, wf_hash h -> pending b h -> on_disk k' h \/ pending b' h) \/ exists e, r = Err e).
Proof.
  intros F. assert (Hsd : set_diskdb (tdb_diskdb d) d = d) by (by destruct d). destruct big; cbn [when].
  - destruct (write_batch_ok d b L F) as (r & k' & E & I' & Hm & [[-> Hd]|[[e ->] Hcl]]).
    + exists (Ok tt), k', (batch_Reset b). split; [by rewrite (bind_Ok _ _ _ _ _ E)|]. split_and!; [by apply finv_reset|done|by intros h Hp%not_pending_reset|].
      left. split; [done|]. intros h Hh Hp. left. apply Hd; auto.
    + exists (Err e), k', b. split; [by rewrite (bind_Err _ _ _ _ _ E)|]. split_and!; [constructor; [done|by apply F|done]|done|done|]. right. by exists e.
  - exists (Ok tt), (tdb_diskdb d), b. rewrite Hsd. split_and!; [done|done|done|done|]. left. split; [done|]. by right.
Qed.

(** The preimages go to disk without touching the nodes. *)
Lemma flush_preimages_ok l : forall d b L, finv d b L -> (forall h, ~ pending b h) ->
  exists r k' b', flush_preimages l (d, b) = (r, (set_diskdb k' d, b')) /\ finv (set_diskdb k' d) b' L /\
    (forall h, disk d h -> on_disk k' h) /\ (forall h, ~ pending b' h) /\ (r = Ok tt \/ exists e, r = Err e).
Proof.
  induction l as [|x l IH]; intros d b L F Hno.
  { exists (Ok tt), (tdb_diskdb d), b. assert (set_diskdb (tdb_diskdb d) d = d) as -> by (by destruct d). split_and!; auto. }
  cbn [flush_preimages]. unfold bindM at 1, gets. set (p := default [] _). set (b1 := batch_Put (secureKey (hash_bytes x)) p b).
  assert (Hno1 : forall h, ~ pending b1 h).
  { intros h [Hp|[Hk _]]%pending_put; [by eapply Hno|]. apply (f_equal length) in Hk. by rewrite secureKey_length, length_hash_bytes in Hk. }
  assert (F1 : finv d b1 L).
  { constructor; [apply F|apply batch_ok_put; [apply F|left; by rewrite secureKey_length]|]. intros h e _ Hp. by apply Hno1 in Hp. }
  unfold put_batch, modS. erewrite bind_Ok by done. fold b1. unfold batch_size, gets. erewrite bind_Ok by done.
  destruct (flush_if_ok d b1 L (IdealBatchSize <? batch_ValueSize b1) F1) as (r & k1 & b2 & E & F2 & Hm & Hp2 & Hr).
  assert (Hno2 : forall h, ~ pending b2 h) by (intros h Hp; by eapply Hno1, Hp2).
  destruct Hr as [[-> _]|[e ->]].
  - destruct (IH (set_diskdb k1 d) b2 L F2 Hno2) as (r & k2 & b3 & E3 & F3 & Hm3 & Hno3 & Hr3).
    exists r, k2, b3. rewrite (bind_Ok _ _ _ _ _ E). split_and!; [exact E3|exact F3|intros h Hh; by apply Hm3, Hm|done|done].
  - exists (Err e), k1, b2. rewrite (bind_Err _ _ _ _ _ E). split_and!; [done|done|done|done|]. right. by exists e.
Qed.

(** ** [Cap] *)

(** What an entry adds to the memory in use. *)
Definition weight (n : cachedNode) : Z := 32 + cn_size n + cachedNodeSize + children_memory n.
Definition weights d (M : list hash) : Z := sumZ (fun h => match tdb_dirties d !! h with Some n => weight n | None => 0 end) M.

(** The first loop: a front part [L1] of the list is on disk or in the batch. *)
Record front d (b : batch) (L1 : list hash) : Prop := {
  fr_done : forall h, h ∈ L1 -> disk d h \/ pending b h;
  fr_only : forall h, wf_hash h -> pending b h -> h ∈ L1 }.

Lemma hd_next d L1 x L2 n : linked d (L1 ++ x :: L2) -> tdb_dirties d !! x = Some n -> cn_flushNext n = hd 0 L2.
Proof. intros [_ _ _ _ Hl] Hn. apply dll_app in Hl as [_ (m & Hm & _ & Hq & _)]. by simplify_eq. Qed.

Lemma front_put d b L1 x L2 : finv d b (L1 ++ x :: L2) -> front d b L1 -> wf_hash x ->
  finv d (batch_Put (hash_bytes x) (u_blobs u x) b) (L1 ++ x :: L2) /\ front d (batch_Put (hash_bytes x) (u_blobs u x) b) (L1 ++ [x]).
Proof.
  intros [I Hb Hc] [F1 F2] Hx. split; constructor.
  - done.
  - apply batch_ok_put; [done|]. right. by exists x.
  - intros h e Hh [Hp|[Hk _]]%pending_put He; [destruct (Hc h e Hh Hp He); [by left|right; apply pending_put; by left]|].
    apply hash_bytes_inj in Hk as <-; [|done..]. destruct (g_order _ _ _ _ _ _ _ (di_graph _ _ _ _ _ _ I) L1 x L2 e eq_refl He) as [Hin|?]; [|by left].
    destruct (F1 e Hin); [by left|right; apply pending_put; by left].
  - intros h [Hin| ->%list_elem_of_singleton]%elem_of_app; [destruct (F1 h Hin); [by left|right; apply pending_put; by left]|].
    right. apply pending_put. by right.
  - intros h Hh [Hp|[Hk _]]%pending_put; apply elem_of_app; [left; by apply F2|right]. apply hash_bytes_inj in Hk as <-; [left|done..].
Qed.

Lemma cap_write_ok limit L2 : forall fuel size d b L1, (length L2 <= fuel)%nat -> finv d b (L1 ++ L2) -> front d b L1 ->
  exists r k' b', cap_write fuel limit size (hd 0 L2) (d, b) = (r, (set_diskdb k' d, b')) /\ finv (set_diskdb k' d) b' (L1 ++ L2) /\
    (forall h, disk d h -> on_disk k' h) /\
    ((exists M N, L2 = M ++ N /\ r = Ok (hd 0 N) /\ front (set_diskdb k' d) b' (L1 ++ M) /\ (N = [] \/ size - weights d M <= limit)) \/
     exists e, r = Err e).
Proof.
  induction L2 as [|x L2 IH]; intros fuel size d b L1 Hf F Fr.
  { exists (Ok 0), (tdb_diskdb d), b. assert (set_diskdb (tdb_diskdb d) d = d) as -> by (by destruct d). split_and!; [|done|done|].
    - destruct fuel; cbn; by rewrite orb_true_r.
    - left. exists [], []. split_and!; [done|done|by rewrite app_nil_r|by left]. }
  destruct fuel as [|fuel]; [cbn in Hf; lia|]. cbn [cap_write]. change (hd 0 (x :: L2)) with x.
  assert (HxL : x ∈ L1 ++ x :: L2) by (apply elem_of_app; right; left).
  destruct (listed _ _ _ _ _ _ _ (fi_inv _ _ _ F) HxL) as (n & Hn & Ho). destruct (uo_nodes _ U x (eo_node _ _ _ Ho)) as [Hx0 Hxw].
  apply Z.eqb_neq in Hx0 as ->. rewrite orb_false_r. destruct (Z.ltb_spec limit size) as [Hlt|Hge]; cbn [negb].
  2:{ exists (Ok x), (tdb_diskdb d), b. assert (set_diskdb (tdb_diskdb d) d = d) as -> by (by destruct d). split_and!; [done|done|done|].
      left. exists [], (x :: L2). split_and!; [done|done|by rewrite app_nil_r|right; unfold weights; cbn; lia]. }
  assert (Een : on_db (entry x) (d, b) = (Ok n, (d, b))) by (unfold on_db, entry, bindM, gets; by rewrite Hn).
  rewrite (bind_Ok _ _ _ _ _ Een). erewrite bind_Ok by (unfold lift_out; by rewrite (eo_rlp _ _ _ Ho)).
  unfold put_batch, modS. erewrite bind_Ok by done. set (b1 := batch_Put _ _ b). unfold batch_size, gets. erewrite bind_Ok by done.
  destruct (front_put d b L1 x L2 F Fr Hxw) as [F1 Fr1]. fold b1 in F1, Fr1.
  destruct (flush_if_ok d b1 _ (IdealBatchSize <=? batch_ValueSize b1) F1) as (r & k1 & b2 & E & F2 & Hm & Hp2 & [[-> Hdone]|[e ->]]).
  2:{ exists (Err e), k1, b2. rewrite (bind_Err _ _ _ _ _ E). split_and!; [done|done|done|]. right. by exists e. }
  rewrite (bind_Ok _ _ _ _ _ E). rewrite (hd_next d L1 x L2 n); [|apply F|done].
  assert (Fr2 : front (set_diskdb k1 d) b2 (L1 ++ [x])).
  { constructor; [|intros h Hh Hp; apply Fr1; auto]. intros h Hin. destruct (fr_done _ _ _ Fr1 h Hin) as [?|Hp]; [left; by apply Hm|].
    apply Hdone; [|done]. assert (h ∈ L1 ++ x :: L2) as HhL by (apply elem_of_app in Hin as [?| ->%list_elem_of_singleton]; [apply elem_of_app; by left|done]).
    destruct (listed _ _ _ _ _ _ _ (fi_inv _ _ _ F) HhL) as (m & _ & Hm'). by apply (uo_nodes _ U), Hm'. }
  destruct (IH fuel (size - (32 + cn_size n + cachedNodeSize) - children_memory n) (set_diskdb k1 d) b2 (L1 ++ [x])) as (r & k2 & b3 & E3 & F3 & Hm3 & Hr);
    [cbn in Hf; lia|by rewrite <- app_assoc|done|].
  exists r, k2, b3. rewrite <- app_assoc in F3. split_and!; [exact E3|exact F3|intros h Hh; by apply Hm3, Hm|].
  destruct Hr as [(M & N & -> & -> & Fr3 & Hw)|He]; [left|by right]. exists (x :: M), N. rewrite <- app_assoc in Fr3. split_and!; [done|done|done|].
  destruct Hw as [?|Hw]; [by left|right]. change (weights (set_diskdb k1 d) M) with (weights d M) in Hw.
  assert (weights d (x :: M) = weight n + weights d M) as -> by (unfold weights; cbn [sumZ]; by rewrite Hn). unfold weight. lia.
Qed.

(** The memory in use by the nodes: what [Cap] compares with its limit. *)
Definition in_use d : Z := tdb_dirtiesSize d + (ndirties d - 1) * cachedNodeSize + (tdb_childrenSize d - Z.of_nat (size (roots d)) * 34).

Lemma entry_Some d h n : tdb_dirties d !! h = Some n -> entry h d = (Ok n, d).
Proof. intros Hn. unfold entry, bindM, gets. by rewrite Hn. Qed.

Lemma memory_size_ok d L : dbinv d L -> memory_size d = (Ok (in_use d), d).
Proof.
  intros I. destruct (root_present _ _ _ _ _ _ I) as [r Hr]. unfold memory_size, metaroot_refs. rewrite bindM_assoc.
  erewrite bind_Ok by exact (entry_Some _ _ _ Hr). unfold in_use, roots. by rewrite Hr.
Qed.

(** Dropping an entry whose node is on disk. *)
Lemma drop_flushed d d' L1 x L2 : dbinv d (L1 ++ x :: L2) -> disk d x ->
  tdb_dirties d' = delete x (tdb_dirties d) -> same_store d d' -> linked d' (L1 ++ L2) -> dbinv d' (L1 ++ L2) /\ roots d' = roots d.
Proof.
  intros I Hd E S Hl. destruct (g_list _ _ _ _ _ _ _ (di_graph _ _ _ _ _ _ I)) as [_ Hz].
  assert (Hx : x <> 0) by (intros ->; apply Hz; apply elem_of_app; right; left).
  split; [|unfold roots; rewrite E; by rewrite lookup_delete_ne].
  eapply dbinv_same; [exact S|exact I|exact Hl|]. unfold cores. rewrite E, fmap_delete. apply graph_flush; [apply I|by intros ?%elem_of_nil|done|].
  destruct (listed _ _ _ _ _ _ x I) as (n & Hn & Ho); [apply elem_of_app; right; left|]. destruct Hd as [v Hv].
  by apply (di_disk _ _ _ _ _ _ I x v (proj2 (uo_nodes _ U x (eo_node _ _ _ Ho)))).
Qed.

Lemma linked_tail d d' x L n : linked d (x :: L) -> tdb_dirties d !! x = Some n -> tdb_dirties d' = delete x (tdb_dirties d) ->
  tdb_oldest d' = cn_flushNext n -> tdb_newest d' = tdb_newest d -> linked d' L.
Proof.
  intros [Hnd Hz _ Hl (m & Hm & _ & Hq & Hd)] Hn E Eo En. simplify_eq. apply NoDup_cons in Hnd as [Hx Hnd]. constructor; [done|by intros ?; apply Hz; right| | |].
  - by rewrite Eo.
  - intros a Ha. rewrite En. apply Hl. by destruct L.
  - rewrite E. apply dll_delete_other; [done|]. by eapply dll_forget.
Qed.

Lemma weights_other d d' M : (forall h, h ∈ M -> tdb_dirties d' !! h = tdb_dirties d !! h) -> weights d' M = weights d M.
Proof. intros Hm. apply sumZ_ext. intros h Hh. by rewrite Hm. Qed.

Lemma cap_drop_ok M : forall fuel d N, (length M <= fuel)%nat -> dbinv d (M ++ N) -> (forall h, h ∈ M -> disk d h) ->
  exists d', cap_drop fuel (hd 0 N) d = (Ok tt, d') /\ dbinv d' N /\ same_store d d' /\ roots d' = roots d /\ in_use d' = in_use d - weights d M.
Proof.
  induction M as [|x M IH]; intros fuel d N Hf I Hd.
  { exists d. split_and!; [|done|apply same_store_refl|done|unfold weights; cbn; lia]. destruct fuel; cbn; unfold bindM, gets;
    rewrite (lk_oldest _ _ (di_linked _ _ _ _ _ _ I)); by rewrite Z.eqb_refl. }
  destruct fuel as [|fuel]; [cbn in Hf; lia|]. cbn [cap_drop]. unfold bindM at 1, gets. rewrite (lk_oldest _ _ (di_linked _ _ _ _ _ _ I)).
  change (hd 0 ((x :: M) ++ N)) with x. destruct (di_linked _ _ _ _ _ _ I) as [Hnd Hz _ _ _]. cbn in Hnd. apply NoDup_cons in Hnd as [Hx Hnd].
  assert (x <> hd 0 N) as Hxn%Z.eqb_neq.
  { destruct N as [|y N]; [intros ->; apply Hz; left|]. intros ->. apply Hx, elem_of_app. right. left. }
  rewrite Hxn. destruct (listed _ _ _ _ _ _ x I) as (n & Hn & Ho); [left|]. rewrite (bind_Ok _ _ _ _ _ (entry_Some _ _ _ Hn)).
  unfold modS. do 3 (erewrite bind_Ok by done). cbn [fst]. set (d1 := add_childrenSize _ _).
  assert (E1 : tdb_dirties d1 = delete x (tdb_dirties d)) by done.
  assert (S1 : same_store d d1) by by constructor.
  destruct (drop_flushed d d1 [] x (M ++ N) I) as [I1 R1]; [apply Hd; left|done|done|by eapply (linked_tail d d1 x _ n); [apply I|..]|].
  destruct (IH fuel d1 N) as (d' & E & I' & S' & R' & W'); [cbn in Hf; lia|done|intros h Hh; apply Hd; by right|].
  exists d'. split_and!; [exact E|done|by eapply same_store_trans|by rewrite R'|].
  rewrite W'. rewrite (weights_other d d1 M).
  2:{ intros h Hh. rewrite E1, lookup_delete_ne; [done|]. intros ->. apply Hx, elem_of_app. by left. }
  assert (weights d (x :: M) = weight n + weights d M) as -> by (unfold weights; cbn [sumZ]; by rewrite Hn).
  unfold in_use. rewrite R1. unfold ndirties. rewrite E1. pose proof (map_size_delete_Some x (tdb_dirties d) (ex_intro _ n Hn)) as Hs. rewrite Hs. unfold d1, weight. cbn [tdb_dirtiesSize tdb_childrenSize add_childrenSize add_dirtiesSize set_dirties set_oldest].
  assert (size (tdb_dirties d) <> 0%nat) by (intros Hz0%map_size_empty_inv; by rewrite Hz0, lookup_empty in Hn).
  unfold cachedNodeSize. lia.
Qed.

Lemma list_length_dirties d L : dbinv d L -> (length L <= Z.to_nat (ndirties d))%nat.
Proof.
  intros I. unfold ndirties. rewrite Nat2Z.id. destruct (di_linked _ _ _ _ _ _ I) as [Hnd _ _ _ _]. rewrite <- (length_map_to_list (tdb_dirties d)), <- (length_fmap fst).
  apply submseteq_length, NoDup_submseteq; [done|]. intros h Hh. destruct (listed _ _ _ _ _ _ _ I Hh) as (n & Hn & _).
  apply list_elem_of_fmap. exists (h, n). split; [done|]. by apply elem_of_map_to_list.
Qed.

Lemma preimages_step d L (c : bool) l : dbinv d L ->
  exists r k' b', (when c (flush_preimages l)) (d, NewBatch) = (r, (set_diskdb k' d, b')) /\ finv (set_diskdb k' d) b' L /\
    (forall h, disk d h -> on_disk k' h) /\ (forall h, ~ pending b' h) /\ (r = Ok tt \/ exists e, r = Err e).
Proof.
  intros I. assert (F : finv d NewBatch L) by (apply (finv_reset d NewBatch L I)). destruct c; cbn [when].
  - apply flush_preimages_ok; [done|]. intros h. apply (not_pending_reset NewBatch).
  - exists (Ok tt), (tdb_diskdb d), NewBatch. assert (set_diskdb (tdb_diskdb d) d = d) as -> by (by destruct d).
    split_and!; [done|done|done| |by left]. intros h. apply (not_pending_reset NewBatch).
Qed.

(** Changes outside of the nodes and their list. *)
Record outside d d' : Prop := {
  os_disk : tdb_diskdb d' = tdb_diskdb d;
  os_cleans : tdb_cleans d' = tdb_cleans d;
  os_dirties : tdb_dirties d' = tdb_dirties d;
  os_oldest : tdb_oldest d' = tdb_oldest d;
  os_newest : tdb_newest d' = tdb_newest d }.

Lemma outside_inv d d' L : outside d d' -> dbinv d L -> dbinv d' L.
Proof.
  intros [E1 E2 E3 E4 E5] [I1 I2 I3 I4 I5]. constructor; [|by unfold cores; rewrite E1, E3|by rewrite E1|by unfold clean_ok, clean_get; rewrite E1, E2|by rewrite E1].
  apply (linked_frame d); [done|done| |done]. intros a _ n Hn. rewrite E3. by exists n.
Qed.

(** The link of the first node, reset. *)
Lemma first_link_ok d L : dbinv d L ->
  exists d', (first ← gets tdb_oldest; when (negb (first =? 0)) (upd_entry first (set_flushPrev 0))) d = (Ok tt, d') /\ dbinv d' L /\ same_store d d' /\
    roots d' = roots d /\ in_use d' = in_use d.
Proof.
  intros I. unfold bindM at 1, gets. rewrite (lk_oldest _ _ (di_linked _ _ _ _ _ _ I)). destruct L as [|x L].
  { exists d. cbn. split_and!; [done|done|apply same_store_refl|done|done]. }
  change (hd 0 (x :: L)) with x. destruct (listed _ _ _ _ _ _ x I) as (n & Hn & Ho); [left|]. destruct (uo_nodes _ U x (eo_node _ _ _ Ho)) as [Hx0 _].
  apply Z.eqb_neq in Hx0 as Ex. rewrite Ex. cbn [when negb]. rewrite (upd_entry_ok _ _ _ _ Hn). set (d' := set_dirties _ d).
  assert (R' : roots d' = roots d) by (unfold roots, d'; cbn; by rewrite lookup_insert_ne).
  assert (S' : same_store d d') by by constructor.
  exists d'. split_and!; [done| |done|done|].
  - eapply dbinv_same; [exact S'|exact I| |].
    + destruct (di_linked _ _ _ _ _ _ I) as [Hnd Hz Hold Hnew Hl]. constructor; [done|done|done|done|]. eapply dll_forget, dll_set_first; [done|exact Hn|exact Hl].
    + unfold cores, d'. cbn. rewrite (core_insert _ x (set_flushPrev 0 n) n Hn eq_refl). apply I.
  - unfold in_use. rewrite R'. unfold ndirties, d'. cbn [tdb_dirties set_dirties tdb_dirtiesSize tdb_childrenSize].
    by rewrite map_size_insert_Some by (by exists n).
Qed.

(** What flushing keeps: the invariant, the roots, and everything that can be read. *)
Record flushed d d' L L' : Prop := {
  fd_inv : dbinv d' L';
  fd_roots : roots d' = roots d;
  fd_disk : forall h, disk d h -> disk d' h;
  fd_avail : forall h, avail_in d L h -> avail_in d' L' h }.

Lemma flushed_disk d k' L : dbinv (set_diskdb k' d) L -> (forall h, disk d h -> on_disk k' h) -> flushed d (set_diskdb k' d) L L.
Proof. intros I Hm. constructor; [done|done|done|]. intros h [?|?]; [by left|right; by apply Hm]. Qed.

(** The second half of [Cap]: the written nodes leave the cache. *)
Definition cap_end (flushPreimages : bool) (fuel : nat) (oldest : hash) d0 : M Database unit :=
  when flushPreimages (modS (set_preimages ∅ 0)) ;;
  cap_drop fuel oldest ;;
  first ← gets tdb_oldest;
  when (negb (first =? 0)) (upd_entry first (set_flushPrev 0)) ;;
  modS (fun d => set_flush (u64 (tdb_flushnodes d + (ndirties d0 - ndirties d))) (tdb_flushsize d + (tdb_dirtiesSize d0 - tdb_dirtiesSize d)) d).

Lemma cap_end_ok c fuel d0 d M N : dbinv d (M ++ N) -> (forall h, h ∈ M -> disk d h) -> (length M <= fuel)%nat ->
  exists d', cap_end c fuel (hd 0 N) d0 d = (Ok tt, d') /\ flushed d d' (M ++ N) N /\ in_use d' = in_use d - weights d M.
Proof.
  intros I Hd Hf. unfold cap_end. set (d1 := if c then set_preimages ∅ 0 d else d).
  assert (O1 : outside d d1) by (unfold d1; destruct c; by constructor).
  assert (E1 : (when c (modS (set_preimages ∅ 0))) d = (Ok tt, d1)) by (by unfold d1; destruct c). rewrite (bind_Ok _ _ _ _ _ E1).
  destruct (cap_drop_ok M fuel d1 N Hf) as (d2 & E2 & I2 & S2 & R2 & W2); [by apply (outside_inv d)|by rewrite (os_disk _ _ O1)|].
  rewrite (bind_Ok _ _ _ _ _ E2). destruct (first_link_ok d2 N I2) as (d3 & E3 & I3 & S3 & R3 & W3).
  rewrite <- bindM_assoc. rewrite (bind_Ok _ _ _ _ _ E3). eexists. split; [done|].
  assert (Hdisk : tdb_diskdb d3 = tdb_diskdb d) by (rewrite (ss_disk _ _ S3), (ss_disk _ _ S2); apply O1).
  assert (Hr1 : roots d1 = roots d) by (unfold roots; by rewrite (os_dirties _ _ O1)).
  assert (Hr : roots d3 = roots d) by (by rewrite R3, R2).
  split; [constructor|].
  - by apply (outside_inv d3).
  - exact Hr.
  - intros h Hh. unfold on_disk in *. cbn. by rewrite Hdisk.
  - assert (forall h, disk d h -> on_disk (tdb_diskdb d3) h) as Hk by (intros h Hh; by rewrite Hdisk).
    intros h [Hin|Hh]; [|right; by apply Hk]. apply elem_of_app in Hin as [Hin|Hin]; [right; apply Hk; auto|by left].
  - assert (Hw : weights d1 M = weights d M) by (apply weights_other; intros h _; by rewrite (os_dirties _ _ O1)).
    assert (Hu : in_use d1 = in_use d) by (unfold in_use; rewrite Hr1; unfold ndirties; rewrite (os_dirties _ _ O1); unfold d1; by destruct c).
    transitivity (in_use d3); [done|]. by rewrite W3, W2, Hu, Hw.
Qed.

Lemma Cap_ok limit d L : dbinv d L ->
  exists r d' L', Cap range limit d = (r, d') /\ flushed d d' L L' /\
    ((r = Ok tt /\ (L' = [] \/ in_use d' <= limit)) \/ exists e, r = Err e).
Proof.
  intros I. unfold Cap. assert (E0 : on_db memory_size (d, NewBatch) = (Ok (in_use d), (d, NewBatch))) by (unfold on_db; by rewrite (memory_size_ok d L I)).
  rewrite (bind_Ok _ _ _ _ _ E0). unfold gets. do 2 (erewrite bind_Ok by done).
  set (c := _ <? _). set (l := range _ _). destruct (preimages_step d L c l I) as (r1 & k1 & b1 & E1 & F1 & M1 & N1 & [-> |[e ->]]).
  2:{ rewrite (bind_Err _ _ _ _ _ E1). exists (Err e), (set_diskdb k1 d), L. split; [done|]. split; [by apply flushed_disk; [apply F1|]|right; by exists e]. }
  rewrite (bind_Ok _ _ _ _ _ E1). do 2 (erewrite bind_Ok by done). set (d1 := set_diskdb k1 d) in *.
  assert (tdb_oldest d1 = hd 0 L) as -> by (apply (di_linked _ _ _ _ _ _ (fi_inv _ _ _ F1))).
  assert (Fr : front d1 b1 []) by (constructor; [by intros h ?%elem_of_nil|intros h _ Hp; by apply N1 in Hp]).
  destruct (cap_write_ok limit L (Z.to_nat (ndirties d1)) (in_use d) d1 b1 [] (list_length_dirties d1 L (fi_inv _ _ _ F1)) F1 Fr)
    as (r2 & k2 & b2 & E2 & F2 & M2 & [(M & N & -> & -> & Fr2 & Hw)|[e ->]]).
  2:{ rewrite (bind_Err _ _ _ _ _ E2). exists (Err e), (set_diskdb k2 d), L. split; [done|]. split; [apply flushed_disk; [apply F2|]|right; by exists e].
      intros h Hh. by apply M2, M1. }
  rewrite (bind_Ok _ _ _ _ _ E2). set (d2 := set_diskdb k2 d1) in *.
  destruct (write_batch_ok d2 b2 (M ++ N) F2) as (r3 & k3 & E3 & I3 & M3 & [[-> Hd3]|[[e ->] _]]).
  2:{ rewrite (bind_Err _ _ _ _ _ E3). exists (Err e), (set_diskdb k3 d), (M ++ N). split; [done|]. split; [apply flushed_disk; [apply I3|]|right; by exists e].
      intros h Hh. by apply M3, M2, M1. }
  rewrite (bind_Ok _ _ _ _ _ E3). change (set_diskdb k3 d2) with (set_diskdb k3 d) in *.
  change (on_db _ _) with (on_db (cap_end c (Z.to_nat (ndirties d1)) (hd 0 N) d) (set_diskdb k3 d, b2)).
  assert (Hm : forall h, disk d h -> on_disk k3 h) by (intros h Hh; by apply M3, M2, M1).
  destruct (cap_end_ok c (Z.to_nat (ndirties d1)) d (set_diskdb k3 d) M N) as (d' & E4 & [P1 P2 P3 P4] & W4); [done| | |].
  - intros h Hh. assert (wf_hash h) as Hwf.
    { destruct (listed _ _ _ _ _ _ h I3) as (m & _ & Ho); [apply elem_of_app; by left|]. apply (uo_nodes _ U), Ho. }
    apply Hd3; [done|]. by apply (fr_done _ _ _ Fr2).
  - pose proof (list_length_dirties d1 _ (fi_inv _ _ _ F1)) as Hlen. rewrite length_app in Hlen. lia.
  - unfold on_db. rewrite E4. exists (Ok tt), d', N. split; [done|]. split; [|left; split; [done|]].
    + constructor; [done|by rewrite P2|intros h Hh; by apply P3, Hm|]. intros h [?|?]; apply P4; [by left|right; by apply Hm].
    + destruct Hw as [?|Hw]; [by left|right]. rewrite W4. exact Hw.
Qed.
End Flush.
