(* ===== verification/TrieDBCommit.v ===== *)
(** * Committing a trie to disk

    Lemmas on [Commit] of trie/database.go (see [TrieDB]): the nodes below the committed
    one go into a batch, children first; every batch that reaches the disk is replayed to
    drop its nodes from the cache.  On success the node is on disk, and with it everything
    it refers to. *)
From stdpp Require Import prelude gmap list strings.
From Stdlib Require Import ZArith Lia.
From S2P Require Import Prelude VarBytes RLP RLPStream Crypto TrieKeys Trie TrieNode MemoryDB TrieDB TrieDBList TrieDBGraph TrieDBFacts TrieDBFlush.
Local Open Scope Z_scope.

Section Commit.
Context {K C : Type} `{KeyValueLaws K} `{CacheLaws C}.
Context (range : forall A, gmap hash A -> list hash).
Hypothesis range_perm : forall A (m : gmap hash A), range A m ≡ₚ (map_to_list m).*1.
Local Abbreviation Database := (Database K C).
Context (u : universe) (U : universe_ok u).
Implicit Types d : Database.
Local Abbreviation dbinv d L := (dbinvx u [] d L [] []).
Local Abbreviation disk d := (on_disk (tdb_diskdb d)).
Local Abbreviation pending := (pending u).
Local Abbreviation flushed := (flushed u).

Lemma flushed_refl d L : dbinv d L -> flushed d d L L.
Proof. by constructor. Qed.
Lemma flushed_trans d1 d2 d3 L1 L2 L3 : flushed d1 d2 L1 L2 -> flushed d2 d3 L2 L3 -> flushed d1 d3 L1 L3.
Proof. intros [A1 A2 A3 A4] [B1 B2 B3 B4]. constructor; [done|by rewrite B2|auto|auto]. Qed.

(** [cleaner.Put] of a node that is on disk. *)
Lemma cleaner_Put_ok d L h : dbinv d L -> wf_hash h -> h <> 0 -> disk d h ->
  exists d' L', cleaner_Put (hash_bytes h) (u_blobs u h) d = (Ok tt, d') /\ flushed d d' L L' /\ tdb_diskdb d' = tdb_diskdb d.
Proof.
  intros I Hh H0' Hd. unfold cleaner_Put. rewrite (BytesToHash_hash_bytes h Hh). unfold bindM at 1, gets.
  destruct (tdb_dirties d !! h) as [n|] eqn:En; [|exists d, L; split_and!; [done|by apply flushed_refl|done]].
  pose proof (on_list _ _ _ _ _ _ _ I H0' En) as HL. apply list_elem_of_split in HL as (L1 & L2 & ->).
  destruct (unlink_ok d h L1 L2 n (root_present _ _ _ _ _ _ I) (di_linked _ _ _ _ _ _ I) En) as (d1 & E1 & Hl1 & R1 & _).
  rewrite (bind_Ok _ _ _ _ _ E1). unfold modS. do 3 (erewrite bind_Ok by done). set (d2 := add_dirtiesSize _ _).
  assert (S2 : same_store d d2) by (destruct R1; by constructor).
  assert (Hh' : h ∉ L1 ++ L2) by (apply mid_nodup; apply (di_linked _ _ _ _ _ _ I)).
  assert (Hl2 : linked d2 (L1 ++ L2)) by (by apply (linked_delete d1 d2 _ h)).
  assert (I2 : dbinv d2 (L1 ++ L2)).
  { eapply dbinv_same; [exact S2|exact I|exact Hl2|]. unfold cores, d2. cbn. rewrite fmap_delete. change (core <$> tdb_dirties d1) with (cores d1). rewrite (rl_cores _ _ R1).
    apply graph_flush; [apply I|by intros ?%elem_of_nil|done|]. destruct Hd as [v Hv]. by apply (di_disk _ _ _ _ _ _ I h v Hh). }
  assert (Hd2 : tdb_diskdb d2 = tdb_diskdb d) by apply S2.
  destruct (clean_set_ok u [] d2 _ [] [] h (u_blobs u h) I2 Hh eq_refl) as (d3 & E3 & I3 & S3); [by rewrite Hd2|].
  exists d3, (L1 ++ L2). assert (Hd3 : tdb_diskdb d3 = tdb_diskdb d) by (by rewrite (sd_disk _ _ S3)). split_and!; [exact E3| |done].
  constructor; [done| |by rewrite Hd3|].
  - transitivity (roots d2); [unfold roots; by rewrite (sd_dirties _ _ S3)|]. transitivity (roots d1); [unfold roots, d2; cbn; by rewrite lookup_delete_ne|].
    apply roots_cores. by rewrite (rl_cores _ _ R1).
  - intros x [Hx|Hx]; [|right; by rewrite Hd3]. apply mid_inv in Hx as [-> |Hx]; [right; by rewrite Hd3|by left].
Qed.

(** The batch of a commit has nodes only. *)
Definition nodes_only (b : batch) : Prop := forall w, w ∈ b_writes b -> exists h, wf_hash h /\ h <> 0 /\ w = (hash_bytes h, Some (u_blobs u h)).
Record cinv d (b : batch) (L : list hash) : Prop := {
  ci_finv : finv u d b L;
  ci_nodes : nodes_only b }.

Lemma replay_ok ws : forall d L, dbinv d L -> (forall w, w ∈ ws -> exists h, wf_hash h /\ h <> 0 /\ disk d h /\ w = (hash_bytes h, Some (u_blobs u h))) ->
  exists d' L', replay ws d = (Ok tt, d') /\ flushed d d' L L' /\ tdb_diskdb d' = tdb_diskdb d.
Proof.
  induction ws as [|w ws IH]; intros d L I Hw; [exists d, L; split_and!; [done|by apply flushed_refl|done]|].
  destruct (Hw w) as (h & Hh & Hz & Hd & ->); [left|]. cbn [replay].
  destruct (cleaner_Put_ok d L h I Hh Hz Hd) as (d1 & L1 & E1 & F1 & D1). rewrite (bind_Ok _ _ _ _ _ E1).
  destruct (IH d1 L1) as (d2 & L2 & E2 & F2 & D2); [apply F1|rewrite D1; intros w Hin; apply Hw; by right|].
  exists d2, L2. split_and!; [done|by eapply flushed_trans|by rewrite D2].
Qed.

Lemma cinv_reset d b L : dbinv d L -> cinv d (batch_Reset b) L.
Proof. intros I. constructor; [by apply finv_reset|by intros w ?%elem_of_nil]. Qed.

(** Writing the batch and dropping its nodes from the cache. *)
Lemma flush_replay_ok d b L : cinv d b L ->
  exists r d' b' L', (write_batch ;; replay_batch ;; reset_batch) (d, b) = (r, (d', b')) /\ flushed d d' L L' /\
    ((r = Ok tt /\ cinv d' b' L' /\ forall h, wf_hash h -> pending b h -> disk d' h) \/ exists e, r = Err e).
Proof.
  intros [F Hn]. destruct (write_batch_ok u U d b L F) as (r & k' & E & I' & Hm & [[-> Hd]|[[e ->] _]]).
  2:{ exists (Err e), (set_diskdb k' d), b, L. rewrite (bind_Err _ _ _ _ _ E). split_and!; [done|by apply flushed_disk|right; by exists e]. }
  rewrite (bind_Ok _ _ _ _ _ E). destruct (replay_ok (b_writes b) (set_diskdb k' d) L I') as (d2 & L2 & E2 & F2 & D2).
  { intros w Hw. destruct (Hn w Hw) as (h & Hh & Hz & ->). exists h. split_and!; [done|done|apply Hd; [done|by right]|done]. }
  assert (E3 : replay_batch (set_diskdb k' d, b) = (Ok tt, (d2, b))) by (unfold replay_batch, on_db; by rewrite E2).
  rewrite (bind_Ok _ _ _ _ _ E3). exists (Ok tt), d2, (batch_Reset b), L2. split_and!; [done| |].
  - eapply flushed_trans; [by apply flushed_disk|done].
  - left. split_and!; [done|apply cinv_reset, F2|]. intros h Hh Hp. rewrite D2. apply Hd; [done|by right].
Qed.

Lemma flush_replay_assoc {A} (m : M (Database * batch) A) s :
  (write_batch ;; replay_batch ;; reset_batch ;; m) s = ((write_batch ;; replay_batch ;; reset_batch) ;; m) s.
Proof. unfold bindM. destruct (write_batch s) as [[] s1]; [|done..]. by destruct (replay_batch s1) as [[] s2]. Qed.

(** A node that will be on disk with the batch. *)
Definition written d (b : batch) (h : hash) : Prop := disk d h \/ pending b h.
Record progress d (b : batch) L d' (b' : batch) L' : Prop := {
  pg_flushed : flushed d d' L L';
  pg_cinv : cinv d' b' L';
  pg_written : forall h, wf_hash h -> written d b h -> written d' b' h }.

Definition commit_spec (fuel : nat) : Prop := forall h d b L, cinv d b L -> wf_hash h -> h <> 0 -> (u_rank u h < fuel)%nat ->
  exists r d' b' L', commit range fuel h (d, b) = (r, (d', b')) /\ flushed d d' L L' /\
    ((r = Ok tt /\ progress d b L d' b' L' /\ (avail_in d L h -> written d' b' h)) \/ exists e, r = Err e).

Lemma progress_refl d b L : cinv d b L -> progress d b L d b L.
Proof. intros Ci. constructor; [apply flushed_refl, Ci|done|done]. Qed.
Lemma progress_trans d1 b1 L1 d2 b2 L2 d3 b3 L3 : progress d1 b1 L1 d2 b2 L2 -> progress d2 b2 L2 d3 b3 L3 -> progress d1 b1 L1 d3 b3 L3.
Proof. intros [A1 A2 A3] [B1 B2 B3]. constructor; [by eapply flushed_trans|done|auto]. Qed.

Lemma commit_all_ok fuel : commit_spec fuel -> forall l d b L, cinv d b L -> (forall h, h ∈ l -> wf_hash h /\ h <> 0 /\ (u_rank u h < fuel)%nat) ->
  exists r d' b' L', commit_all (commit range fuel) l (d, b) = (r, (d', b')) /\ flushed d d' L L' /\
    ((r = Ok tt /\ progress d b L d' b' L' /\ forall h, h ∈ l -> avail_in d L h -> written d' b' h) \/ exists e, r = Err e).
Proof.
  intros IHf. induction l as [|x l IH]; intros d b L Ci Hl.
  { exists (Ok tt), d, b, L. split_and!; [done|apply flushed_refl, Ci|]. left. split_and!; [done|by apply progress_refl|by intros h ?%elem_of_nil]. }
  cbn [commit_all]. destruct (Hl x) as (Hx & Hz & Hr); [left|].
  destruct (IHf x d b L Ci Hx Hz Hr) as (r & d1 & b1 & L1 & E1 & F1 & [(-> & P1 & W1)|[e ->]]).
  2:{ exists (Err e), d1, b1, L1. rewrite (bind_Err _ _ _ _ _ E1). split_and!; [done|done|right; by exists e]. }
  rewrite (bind_Ok _ _ _ _ _ E1).
  destruct (IH d1 b1 L1) as (r & d2 & b2 & L2 & E2 & F2 & Hr2); [apply P1|intros h Hh; apply Hl; by right|].
  exists r, d2, b2, L2. split_and!; [done|by eapply flushed_trans|]. destruct Hr2 as [(-> & P2 & W2)|?]; [left|by right].
  split_and!; [done|by eapply progress_trans|]. intros h [-> |Hin]%elem_of_cons Hav; [apply P2; auto|]. apply W2; [done|]. by apply F1.
Qed.

(** Everything a cached node refers to is on disk, or counted in its entry. *)
Lemma commit_children d L h n e : dbinv d L -> h <> 0 -> tdb_dirties d !! h = Some n -> e ∈ edges u h ->
  avail_in d L e /\ (disk d e \/ e ∈ range _ (ext_children n) ++ inner_children n).
Proof.
  intros I Hz Hn He. pose proof (on_list _ _ _ _ _ _ _ I Hz Hn) as HL. pose proof (di_graph _ _ _ _ _ _ I) as G. split.
  - apply list_elem_of_split in HL as (L1 & L2 & ->). destruct (g_order _ _ _ _ _ _ _ G L1 h L2 e eq_refl He) as [?|?]; [left; apply elem_of_app; by left|by right].
  - destruct (g_covered _ _ _ _ _ _ _ G h (core n) e HL (not_elem_of_nil _) (cores_Some _ _ _ Hn) He) as [?|Hc]; [by left|right].
    change (cnt (core n) e) with (cnt n e) in Hc. unfold cnt in Hc. apply elem_of_app. destruct (ext_children n !! e) as [c|] eqn:Ec.
    + left. apply (ext_keys _ range_perm). by exists c.
    + right. destruct (decide (e ∈ inner_children n)) as [?|Hni]; [done|]. rewrite (occ_zero _ _ Hni) in Hc. cbn in Hc. lia.
Qed.

Lemma children_edges d L h n e : dbinv d L -> h <> 0 -> tdb_dirties d !! h = Some n -> e ∈ range _ (ext_children n) ++ inner_children n -> e ∈ edges u h.
Proof.
  intros I Hz Hn He. pose proof (inv_entry _ _ _ _ _ _ _ _ I Hz Hn) as Ho. unfold edges. apply elem_of_app in He as [He|He]; apply elem_of_app.
  - right. apply (ext_keys _ range_perm) in He as [c Hc]. by eapply Ho.
  - left. by rewrite <- (eo_inner _ _ _ Ho).
Qed.

(** Adding a node whose children are in the batch or on disk. *)
Lemma cinv_put d b L h : cinv d b L -> wf_hash h -> h <> 0 -> (forall e, e ∈ edges u h -> written d b e) ->
  cinv d (batch_Put (hash_bytes h) (u_blobs u h) b) L.
Proof.
  intros [[I Hb Hc] Hn] Hh Hz He. constructor; [constructor; [done|apply batch_ok_put; [done|right; by exists h]|]|].
  - intros x e Hx [Hp|[Hk _]]%pending_put Hin.
    + destruct (Hc x e Hx Hp Hin); [by left|right; apply pending_put; by left].
    + apply hash_bytes_inj in Hk as <-; [|done..]. destruct (He e Hin); [by left|right; apply pending_put; by left].
  - intros w. cbn. intros [Hw| ->%list_elem_of_singleton]%elem_of_app; [by apply Hn|]. by exists h.
Qed.

Lemma commit_ok fuel : commit_spec fuel.
Proof.
  induction fuel as [|fuel IH]; intros h d b L Ci Hh Hz Hr; [lia|]. cbn [commit]. unfold bindM at 1, gets.
  destruct (tdb_dirties d !! h) as [n|] eqn:En.
  2:{ exists (Ok tt), d, b, L. split_and!; [done|apply flushed_refl, Ci|]. left. split_and!; [done|by apply progress_refl|]. intros [HL|?]; [|by left].
      destruct (listed _ _ _ _ _ _ _ (fi_inv _ _ _ _ (ci_finv _ _ _ Ci)) HL) as (m & Hm & _); congruence. }
  pose proof (fi_inv _ _ _ _ (ci_finv _ _ _ Ci)) as I. set (l := range _ _ ++ _).
  destruct (commit_all_ok fuel IH l d b L Ci) as (r & d1 & b1 & L1 & E1 & F1 & [(-> & P1 & W1)|[e ->]]).
  { intros e He. apply (children_edges d L h n e I Hz En) in He. pose proof (uo_rank _ U _ _ He). pose proof (uo_edges _ U _ _ He) as [? ?]. split_and!; [done|done|lia]. }
  2:{ exists (Err e), d1, b1, L1. rewrite (bind_Err _ _ _ _ _ E1). split_and!; [done|done|right; by exists e]. }
  rewrite (bind_Ok _ _ _ _ _ E1). pose proof (inv_entry _ _ _ _ _ _ _ _ I Hz En) as Ho.
  erewrite bind_Ok by (unfold lift_out; by rewrite (eo_rlp _ _ _ Ho)). unfold put_batch, modS. erewrite bind_Ok by done. unfold batch_size, gets. erewrite bind_Ok by done.
  set (b2 := batch_Put _ _ b1). assert (Ci2 : cinv d1 b2 L1).
  { apply cinv_put; [apply P1|done|done|]. intros e He. destruct (commit_children d L h n e I Hz En He) as [Hav [Hd|Hin]]; [left; by apply F1|by apply W1]. }
  assert (P2 : progress d b L d1 b2 L1).
  { constructor; [done|done|]. intros x Hx Hw. destruct (pg_written _ _ _ _ _ _ P1 x Hx Hw); [by left|right; apply pending_put; by left]. }
  assert (W2 : written d1 b2 h) by (right; apply pending_put; by right).
  destruct (IdealBatchSize <=? _); cbn [when].
  2:{ exists (Ok tt), d1, b2, L1. split_and!; [done|done|]. left. by split_and!. }
  destruct (flush_replay_ok d1 b2 L1 Ci2) as (r & d3 & b3 & L3 & E3 & F3 & Hr3). exists r, d3, b3, L3.
  split_and!; [done|by eapply flushed_trans|]. destruct Hr3 as [(-> & Ci3 & Hd3)|?]; [left|by right].
  assert (P3 : progress d1 b2 L1 d3 b3 L3). { constructor; [done|done|]. intros x Hx [?|?]; left; [by apply F3|by apply Hd3]. }
  split_and!; [done|by eapply progress_trans|]. intros _. by apply (pg_written _ _ _ _ _ _ P3).
Qed.

Lemma Commit_ok fuel node d L : dbinv d L -> wf_hash node -> node <> 0 -> (u_rank u node < fuel)%nat ->
  exists r d' L', Commit range fuel node d = (r, d') /\ flushed d d' L L' /\ ((r = Ok tt /\ (avail_in d L node -> disk d' node)) \/ exists e, r = Err e).
Proof.
  intros I Hh Hz Hr. unfold Commit, gets. erewrite bind_Ok by done. set (l := range _ _).
  destruct (preimages_step u U d L true l I) as (r1 & k1 & b1 & E1 & F1 & M1 & _ & [-> |[e ->]]); cbn [when] in E1.
  2:{ rewrite (bind_Err _ _ _ _ _ E1). exists (Err e), (set_diskdb k1 d), L. split; [done|]. split; [by apply flushed_disk; [apply F1|]|right; by exists e]. }
  rewrite (bind_Ok _ _ _ _ _ E1). set (d1 := set_diskdb k1 d) in *.
  destruct (write_batch_ok u U d1 b1 L F1) as (r2 & k2 & E2 & I2 & M2 & [[-> _]|[[e ->] _]]).
  2:{ rewrite (bind_Err _ _ _ _ _ E2). exists (Err e), (set_diskdb k2 d), L. split; [done|]. split; [apply flushed_disk; [apply I2|]|right; by exists e].
      intros h Hx. by apply M2, M1. }
  rewrite (bind_Ok _ _ _ _ _ E2). unfold reset_batch at 1, modS at 1. erewrite bind_Ok by done. set (d2 := set_diskdb k2 d1) in *.
  assert (F2 : flushed d d2 L L) by (apply (flushed_disk u d k2 L I2); intros h Hx; by apply M2, M1).
  destruct (commit_ok fuel node d2 (batch_Reset b1) L (cinv_reset _ _ _ I2) Hh Hz Hr) as (r3 & d3 & b3 & L3 & E3 & F3 & [(-> & P3 & W3)|[e ->]]).
  2:{ rewrite (bind_Err _ _ _ _ _ E3). exists (Err e), d3, L3. split; [done|]. split; [by eapply flushed_trans|right; by exists e]. }
  rewrite (bind_Ok _ _ _ _ _ E3). destruct (flush_replay_ok d3 b3 L3 (pg_cinv _ _ _ _ _ _ P3)) as (r4 & d4 & b4 & L4 & E4 & F4 & Hr4).
  pose proof (flushed_trans _ _ _ _ _ _ F2 (flushed_trans _ _ _ _ _ _ F3 F4)) as F5.
  rewrite (flush_replay_assoc _ (d3, b3)). destruct Hr4 as [(-> & Ci4 & Hd4)|[e ->]].
  2:{ rewrite (bind_Err _ _ _ _ _ E4). exists (Err e), d4, L4. split; [done|]. split; [done|right; by exists e]. }
  rewrite (bind_Ok _ _ _ _ _ E4). eexists (Ok tt), _, L4. split; [done|]. split; [|left; split; [done|]].
  - destruct F5 as [A1 A2 A3 A4]. constructor; [by apply (outside_inv u d4)|exact A2|exact A3|exact A4].
  - intros Hav. destruct (W3 (fd_avail _ _ _ _ _ F2 _ Hav)) as [Hw|Hw]; [by apply F4|by apply Hd4].
Qed.
End Commit.
