(* ===== verification/TrieDBSafe.v ===== *)
(** * Garbage collection is safe

    A client of the trie database (trie/database.go, see [TrieDB]) stores nodes, children
    first, references roots and takes references back that it made, reads nodes, and has
    the database write nodes to disk with [Cap] and [Commit], which may fail.  In every
    state it can get to, everything below a root it still refers to can be read; what has
    been committed can be read by a new database over the same disk. *)
From stdpp Require Import prelude gmap list strings.
From Stdlib Require Import ZArith Lia.
From S2P Require Import Prelude VarBytes RLP RLPStream Crypto TrieKeys Trie TrieNode MemoryDB TrieDB TrieDBList TrieDBGraph TrieDBFacts TrieDBFlush TrieDBCommit.
Local Open Scope Z_scope.

Section Safe.
Context {K C : Type} `{KeyValueLaws K} `{CacheLaws C}.
Context (range : forall A, gmap hash A -> list hash).
Hypothesis range_perm : forall A (m : gmap hash A), range A m ≡ₚ (map_to_list m).*1.
Local Abbreviation Database := (Database K C).
Context (u : universe) (U : universe_ok u).
Implicit Types d : Database.
Local Abbreviation dbinv d L := (dbinvx u [] d L [] []).
Local Abbreviation disk d := (on_disk (tdb_diskdb d)).
Local Abbreviation flushed := (flushed u).

(** ** Storing a node *)

(** A node and the references of its leaves. *)
Definition store_node (h : hash) (blob : bytes) (i : inserted) (refs : list hash) : M Database unit :=
  Database_insert h blob i ;; for_each (fun c => reference c h) refs.

(** The node is the one the universe has under the hash. *)
Record known (h : hash) (blob : bytes) (i : inserted) (refs : list hash) : Prop := {
  kn_entry : exists r, simplifyNode i = Ok r /\ entry_ok u h (mkCached r (u16 (Z.of_nat (length blob))) 0 None 0 0);
  kn_refs : forall e, e ∈ refs <-> e ∈ u_ext u h }.

Lemma references_ok X h L l : forall d, dbinvx u X d L [] [] -> h ∈ L -> (forall c, c ∈ l -> c ∈ u_ext u h) ->
  exists d', for_each (fun c => reference c h) l d = (Ok tt, d') /\ dbinvx u X d' L [] [] /\ same_store d d' /\ roots d' = roots d /\
    (forall e, is_Some (ext_at d h !! e) -> is_Some (ext_at d' h !! e)) /\ (forall c, c ∈ l -> c ∈ L -> is_Some (ext_at d' h !! c)).
Proof.
  induction l as [|c l IH]; intros d I Hh Hl.
  { exists d. split_and!; [done|done|apply same_store_refl|done|done|by intros c ?%elem_of_nil]. }
  cbn [for_each]. destruct (reference_node u U X d L c h I Hh) as (d1 & E1 & I1 & S1 & R1 & X1 & Y1); [apply Hl; left|].
  rewrite (bind_Ok _ _ _ _ _ E1). destruct (IH d1 I1 Hh) as (d2 & E2 & I2 & S2 & R2 & X2 & Y2); [intros e He; apply Hl; by right|].
  exists d2. split_and!; [done|done|by eapply same_store_trans|by rewrite R2|auto|].
  intros e [-> |He]%elem_of_cons HL; auto.
Qed.

Lemma uncover d L h : dbinvx u [h] d L [] [] -> h ∈ L -> (forall e, e ∈ u_ext u h -> disk d e \/ is_Some (ext_at d h !! e)) -> dbinv d L.
Proof.
  intros I HL He. destruct (listed _ _ _ _ _ _ _ I HL) as (n & Hn & Ho). destruct I as [I1 I2 I3 I4 I5]. constructor; [done| |done|done|done].
  eapply graph_uncover; [exact I2|by apply cores_Some|]. intros e [Hin|Hin]%elem_of_app.
  - right. change (cnt (core n) e) with (cnt n e). unfold cnt. rewrite (eo_inner _ _ _ Ho). pose proof (occ_elem _ _ Hin).
    assert (0 <= default 0 (ext_children n !! e)); [|lia]. destruct (ext_children n !! e) as [c|] eqn:Ec; [|done]. by destruct (eo_ext _ _ _ Ho e c Ec) as [-> _].
  - destruct (He e Hin) as [?|[c Hc]]; [by left|right]. change (cnt (core n) e) with (cnt n e). unfold cnt. unfold ext_at in Hc. rewrite Hn in Hc.
    cbn in Hc. rewrite Hc. destruct (eo_ext _ _ _ Ho e c Hc) as [-> _]. pose proof (occ_nonneg e (inner_children n)). cbn. lia.
Qed.

Lemma store_node_ok h blob i refs d L : dbinv d L -> known h blob i refs -> (forall e, e ∈ edges u h -> avail_in d L e) ->
  exists d' L', store_node h blob i refs d = (Ok tt, d') /\ dbinv d' L' /\ same_store d d' /\ roots d' = roots d /\
    forall x, x ∈ L' <-> x ∈ L \/ x = h.
Proof.
  intros I [(r & Hr & Ho) Href] Hed. unfold store_node. destruct (uo_nodes _ U h (eo_node _ _ _ Ho)) as [Hz _].
  destruct (tdb_dirties d !! h) as [n|] eqn:En.
  - assert (E : Database_insert h blob i d = (Ok tt, d)) by (unfold Database_insert, bindM, gets; by rewrite En).
    pose proof (on_list _ _ _ _ _ _ _ I Hz En) as HL. rewrite (bind_Ok _ _ _ _ _ E).
    destruct (references_ok [] h L refs d I HL) as (d' & E' & I' & S' & R' & _); [intros c; apply Href|]. exists d', L. split_and!; [done..|].
    intros x. split; [by left|]. by intros [?| ->].
  - destruct (db_insert_ok u U d L h blob i r I En Hr Ho Hed) as (d1 & E1 & I1 & S1 & R1 & n & Hn & Hc). rewrite (bind_Ok _ _ _ _ _ E1).
    assert (Hh : h ∈ L ++ [h]) by (apply elem_of_app; right; left).
    destruct (references_ok [h] h (L ++ [h]) refs d1 I1 Hh) as (d2 & E2 & I2 & S2 & R2 & _ & Y2); [intros c; apply Href|].
    exists d2, (L ++ [h]). split_and!; [done| |by eapply same_store_trans|by rewrite R2|].
    + apply (uncover d2 (L ++ [h]) h I2 Hh). intros e He. destruct (Hed e) as [HeL|Hd]; [apply elem_of_app; by right| |].
      * right. apply Y2; [by apply Href|apply elem_of_app; by left].
      * left. unfold on_disk. by rewrite (ss_disk _ _ S2), (ss_disk _ _ S1).
    + intros x. by rewrite elem_of_app, list_elem_of_singleton.
Qed.

(** ** Clients *)

Definition readable d (h : hash) : Prop := exists b, fst (Database_Node h d) = Ok b.

(** [client d G]: a client that has made the references [G], and not taken them back yet,
    can have brought the database to [d]. *)
Inductive client : Database -> list hash -> Prop :=
| cl_new k cache : kv_open k -> disk_ok u k -> client (NewDatabaseWithCache k cache) []
| cl_store d G h blob i refs r d' : client d G -> known h blob i refs -> (forall e, e ∈ edges u h -> readable d e) ->
    store_node h blob i refs d = (r, d') -> client d' G
| cl_reference d G h r d' : client d G -> wf_hash h -> readable d h -> occ h G + 1 < 2 ^ 16 ->
    Reference h 0 d = (r, d') -> client d' (h :: G)
| cl_dereference d G1 h G2 fuel r d' : client d (G1 ++ h :: G2) -> (u_rank u h < fuel)%nat ->
    Dereference range fuel h d = (r, d') -> client d' (G1 ++ G2)
| cl_cap d G limit r d' : client d G -> Cap range limit d = (r, d') -> client d' G
| cl_commit d G fuel h r d' : client d G -> wf_hash h -> h <> 0 -> (u_rank u h < fuel)%nat ->
    Commit range fuel h d = (r, d') -> client d' G
| cl_node d G h r d' : client d G -> wf_hash h -> h <> 0 -> Database_node h d = (r, d') -> client d' G
| cl_Node d G h r d' : client d G -> wf_hash h -> Database_Node h d = (r, d') -> client d' G
| cl_preimage d G h p r d' : client d G -> insertPreimage h p d = (r, d') -> client d' G.

(** What holds in all of these states: a reference is counted, or the root is on disk. *)
Record live d (L G : list hash) : Prop := {
  li_inv : dbinv d L;
  li_hash : forall r, r ∈ G -> wf_hash r /\ r <> 0;
  li_count : forall r, default 0 (roots d !! r) <= occ r G;
  li_counted : forall r, r ∈ G -> disk d r \/ occ r G <= default 0 (roots d !! r) }.

Lemma dec_disk d h : disk d h \/ ~ disk d h.
Proof. unfold on_disk. destruct (kv_value _ _); [left; by eexists|right; by intros []]. Qed.

Lemma readable_avail d L h : dbinv d L -> wf_hash h -> readable d h -> h <> 0 /\ avail_in d L h.
Proof.
  intros I Hh [b Hb]. destruct (decide (h = 0)) as [->|Hz]; [done|]. split; [done|]. destruct (decide (h ∈ L)) as [?|HL]; [by left|].
  destruct (dec_disk d h) as [?|Hd]; [by right|]. destruct (Database_Node_missing u [] d L [] h I Hh Hz HL Hd) as [e E]. by rewrite E in Hb.
Qed.

(** Counted roots are there. *)
Lemma roots_avail d L r : dbinv d L -> is_Some (roots d !! r) -> avail_in d L r.
Proof.
  intros I [c Hc]. destruct (g_root _ _ _ _ _ _ _ (di_graph _ _ _ _ _ _ I)) as (n & Hn & Hro). apply cores_inv in Hn as (m & Hm & ->).
  unfold roots in Hc. rewrite Hm in Hc. exact (proj2 (ro_ext _ _ _ Hro r c Hc)).
Qed.

Lemma roots_nonneg d L r : dbinv d L -> 0 <= default 0 (roots d !! r).
Proof.
  intros I. destruct (root_present _ _ _ _ _ _ I) as [n Hn]. pose proof (ext_nonneg u _ _ _ _ _ 0 n r I Hn) as Hnn. unfold roots. by rewrite Hn.
Qed.

Lemma live_avail d L G r : live d L G -> r ∈ G -> avail_in d L r.
Proof.
  intros [I Hh _ Hc] Hr. destruct (Hc r Hr) as [?|Hle]; [by right|]. apply roots_avail; [done|].
  pose proof (occ_elem _ _ Hr) as Ho. destruct (roots d !! r) as [c|]; [by eexists|cbn in Hle; lia].
Qed.

Lemma avail_edge d L h e : dbinv d L -> wf_hash h -> avail_in d L h -> e ∈ edges u h -> avail_in d L e.
Proof.
  intros I Hh [HL|[v Hv]] He.
  - apply list_elem_of_split in HL as (L1 & L2 & ->). destruct (g_order _ _ _ _ _ _ _ (di_graph _ _ _ _ _ _ I) L1 h L2 e eq_refl He) as [?|?]; [|by right].
    left. apply elem_of_app. by left.
  - right. by eapply (di_disk _ _ _ _ _ _ I h v Hh Hv).
Qed.

(** Everything below a node. *)
Definition below : hash -> hash -> Prop := rtc (fun h e => e ∈ edges u h).

Lemma avail_below d L r h : dbinv d L -> wf_hash r -> r <> 0 -> avail_in d L r -> below r h -> wf_hash h /\ h <> 0 /\ avail_in d L h.
Proof.
  intros I Hr Hz Ha Hb. revert Hr Hz Ha. induction Hb as [|x y z Hxy _ IH]; intros Hr Hz Ha; [done|].
  destruct (uo_edges _ U _ _ Hxy). apply IH; [done|done|exact (avail_edge d L x y I Hr Ha Hxy)].
Qed.

(** A change that keeps the counts of the roots and the disk. *)
Lemma live_kept d d' L L' G : live d L G -> dbinv d' L' -> (forall h, disk d h -> disk d' h) -> roots d' = roots d -> live d' L' G.
Proof.
  intros [I Hh Hc Hd] I' Hm Hr. constructor; [done|done|by rewrite Hr|]. intros r Hin. rewrite Hr. destruct (Hd r Hin) as [?|?]; [left; auto|by right].
Qed.

Lemma same_disk d d' : same_store d d' -> forall h, disk d h -> disk d' h.
Proof. intros S h. unfold on_disk. by rewrite (ss_disk _ _ S). Qed.

Lemma new_live k cache : kv_open k -> disk_ok u k -> live (NewDatabaseWithCache k cache) [] [].
Proof.
  intros Hk Hd. assert (Hr : roots (NewDatabaseWithCache (C := C) k cache) = ∅) by (unfold roots, NewDatabaseWithCache; cbn; by rewrite lookup_singleton_eq).
  constructor; [constructor|by intros r ?%elem_of_nil| |by intros r ?%elem_of_nil].
  - constructor; [constructor|by intros ?%elem_of_nil|done|done|done].
  - constructor.
    + intros h. unfold cores, NewDatabaseWithCache. cbn. rewrite map_fmap_singleton. split.
      * intros Hs. left. destruct (decide (h = 0)) as [|Hne]; [done|]. by rewrite lookup_singleton_ne in Hs by done; destruct Hs.
      * intros [->|[?%elem_of_nil|?%elem_of_nil]]; [|done..]. rewrite lookup_singleton_eq. by eexists.
    + split; [constructor|by intros ?%elem_of_nil].
    + by intros h ?%elem_of_nil.
    + intros h n Hz Hn. unfold cores, NewDatabaseWithCache in Hn. cbn in Hn. rewrite map_fmap_singleton, lookup_singleton_ne in Hn by done. done.
    + exists (core metaroot). unfold cores, NewDatabaseWithCache. cbn. rewrite map_fmap_singleton, lookup_singleton_eq. split; [done|].
      constructor; [done|by intros e c; cbn; rewrite lookup_empty|by intros e c; cbn; rewrite lookup_empty].
    + by intros h n e ?%elem_of_nil.
    + intros L1 h L2 e HL. by destruct L1.
    + by intros h n ?%elem_of_nil.
  - exact Hd.
  - intros h b _ Hb. unfold clean_get, NewDatabaseWithCache in Hb. cbn in Hb. destruct (0 <? cache); [|done]. cbn in Hb. by rewrite cache_new_empty in Hb.
  - exact Hk.
  - intros r. rewrite Hr, lookup_empty. apply occ_nonneg.
Qed.

(** ** The steps *)

Lemma store_live d L G h blob i refs : live d L G -> known h blob i refs -> (forall e, e ∈ edges u h -> readable d e) ->
  exists d' L', store_node h blob i refs d = (Ok tt, d') /\ live d' L' G /\ forall x, x ∈ L' <-> x ∈ L \/ x = h.
Proof.
  intros Hl Hk He. destruct (store_node_ok h blob i refs d L (li_inv _ _ _ Hl) Hk) as (d' & L' & E & I' & S' & R' & HL').
  { intros e Hin. apply (readable_avail d L e (li_inv _ _ _ Hl)); [by apply (uo_edges _ U _ _ Hin)|by apply He]. }
  exists d', L'. split_and!; [done|eapply live_kept; [done|done|by apply same_disk|done]|done].
Qed.

Lemma reference_live d L G h : live d L G -> wf_hash h -> readable d h -> occ h G + 1 < 2 ^ 16 ->
  exists d', Reference h 0 d = (Ok tt, d') /\ live d' L (h :: G).
Proof.
  intros [I Hh Hc Hd] Hw Hr Ho. destruct (readable_avail d L h I Hw Hr) as [Hz Hav].
  assert (Hh' : forall r, r ∈ h :: G -> wf_hash r /\ r <> 0) by (intros r [-> |?]%elem_of_cons; auto).
  destruct (decide (h ∈ L)) as [HL|HL].
  - pose proof (Hc h) as Hch. destruct (reference_root u U d L h I HL) as (d' & E & I' & S' & R'); [lia|]. exists d'. split; [done|].
    assert (Hcnt : forall r, default 0 (roots d' !! r) = default 0 (roots d !! r) + if decide (h = r) then 1 else 0).
    { intros r. rewrite R'. destruct (decide (h = r)) as [->|Hne]; [by rewrite lookup_insert_eq|]. rewrite lookup_insert_ne by done. lia. }
    constructor; [done|done| |].
    + intros r. rewrite Hcnt, occ_cons. pose proof (Hc r). destruct (decide _); lia.
    + intros r [-> |Hin]%elem_of_cons; rewrite Hcnt, occ_cons.
      * rewrite decide_True by done. destruct (decide (h ∈ G)) as [Hin|Hni]; [destruct (Hd h Hin) as [?|?]; [left; by apply (same_disk d)|right; lia]|].
        right. rewrite (occ_zero _ _ Hni). pose proof (roots_nonneg d L h I). lia.
      * destruct (Hd r Hin) as [?|?]; [left; by apply (same_disk d)|right; destruct (decide _); lia].
  - assert (Hdk : disk d h) by (destruct Hav; done).
    assert (E : Reference h 0 d = (Ok tt, d)) by (unfold Reference, reference, bindM, gets; by rewrite (unlisted_None u _ _ _ _ _ I Hz HL)).
    exists d. split; [done|]. constructor; [done|done| |].
    + intros r. rewrite occ_cons. pose proof (Hc r). destruct (decide _); lia.
    + intros r [-> |Hin]%elem_of_cons; [by left|]. rewrite occ_cons. destruct (decide (h = r)) as [<-|]; [by left|]. destruct (Hd r Hin); [by left|right; lia].
Qed.

Lemma drop_count_value x (m : gmap hash Z) e : (forall e, 0 <= default 0 (m !! e)) ->
  default 0 (drop_count x m !! e) = if decide (x = e) then Z.max 0 (default 0 (m !! e) - 1) else default 0 (m !! e).
Proof.
  intros Hm. unfold drop_count. destruct (m !! x) as [n|] eqn:En.
  2:{ destruct (decide (x = e)) as [<-|]; [by rewrite En|done]. }
  pose proof (Hm x) as Hx. rewrite En in Hx. cbn in Hx. destruct (Z.ltb_spec 0 n), (Z.eqb_spec (n - 1) 0), (decide (x = e)) as [<-|Hne]; try lia;
    rewrite ?lookup_delete_eq, ?lookup_insert_eq, ?lookup_delete_ne, ?lookup_insert_ne, ?En by done; cbn; lia.
Qed.

Lemma dereference_live d L G1 h G2 fuel : live d L (G1 ++ h :: G2) -> (u_rank u h < fuel)%nat ->
  exists d' L', Dereference range fuel h d = (Ok tt, d') /\ live d' L' (G1 ++ G2).
Proof.
  intros [I Hh Hc Hd] Hf. assert (Hin : h ∈ G1 ++ h :: G2) by (apply elem_of_app; right; left). destruct (Hh h Hin) as [_ Hz].
  assert (Ho : forall r, occ r (G1 ++ h :: G2) = occ r (G1 ++ G2) + if decide (h = r) then 1 else 0) by (intros r; rewrite !occ_app, occ_cons; lia).
  destruct (Dereference_ok range range_perm u U fuel h d L I) as (d' & L' & E & I' & _ & S' & R'); [|done|done|].
  { destruct (Hd h Hin) as [?|Hle]; [by right|left]. pose proof (occ_elem _ _ Hin). destruct (roots d !! h); [by eexists|cbn in Hle; lia]. }
  exists d', L'. split; [done|]. assert (Hnn : forall e, 0 <= default 0 (roots d !! e)) by (intros e; by eapply roots_nonneg).
  constructor; [done|intros r Hr; by apply Hh, mid_elem| |].
  - intros r. rewrite R', drop_count_value by done. pose proof (Hc r) as Hr. rewrite Ho in Hr. pose proof (occ_nonneg r (G1 ++ G2)). destruct (decide _); lia.
  - intros r Hr. destruct (Hd r) as [?|Hle]; [by apply mid_elem|left; by apply (same_disk d)|right].
    rewrite R', drop_count_value by done. rewrite Ho in Hle. destruct (decide _); lia.
Qed.

Lemma live_read d d' L G : live d L G -> dbinv d' L -> same_data d d' -> live d' L G.
Proof.
  intros Hl I' [S1 S2 S3 S4 S5]. eapply live_kept; [exact Hl|exact I'|intros h; unfold on_disk; by rewrite S1|unfold roots; by rewrite S2].
Qed.

Lemma Node_live d L G h : live d L G -> wf_hash h ->
  exists r d', Database_Node h d = (r, d') /\ live d' L G /\ (r = Ok (u_blobs u h) \/ exists e, r = Err e).
Proof.
  intros Hl Hh. pose proof (li_inv _ _ _ Hl) as I. destruct (decide (h = 0)) as [->|Hz]; [exists (Err errNotFound), d; split_and!; [done|done|right; by eexists]|].
  assert (avail_in d L h \/ (h ∉ L) /\ ~ disk d h) as [Ha|[HL Hd]].
  { unfold avail_in. destruct (decide (h ∈ L)), (dec_disk d h); tauto. }
  - destruct (Database_Node_ok u [] d L [] h I Hh Hz Ha) as (d' & E & I' & S'). exists (Ok (u_blobs u h)), d'. split_and!; [done|by eapply live_read|by left].
  - destruct (Database_Node_missing u [] d L [] h I Hh Hz HL Hd) as [e E]. exists (Err e), d. split_and!; [done|done|right; by exists e].
Qed.

Lemma node_live d L G h : live d L G -> wf_hash h -> h <> 0 ->
  exists r d', Database_node h d = (r, d') /\ live d' L G /\ (r = decoded u h \/ r = Ok None).
Proof.
  intros Hl Hh Hz. pose proof (li_inv _ _ _ Hl) as I.
  assert (avail_in d L h \/ (h ∉ L) /\ ~ disk d h) as [Ha|[HL Hd]].
  { unfold avail_in. destruct (decide (h ∈ L)), (dec_disk d h); tauto. }
  - destruct (Database_node_ok u [] d L [] h I Hh Hz Ha) as (d' & E & I' & S'). exists (decoded u h), d'. split_and!; [done|by eapply live_read|by left].
  - pose proof (Database_node_missing u [] d L [] h I Hh Hz HL Hd) as E. exists (Ok None), d. split_and!; [done|done|by right].
Qed.

Lemma flushed_live d d' L L' G : live d L G -> flushed d d' L L' -> live d' L' G.
Proof. intros Hl [F1 F2 F3 _]. by eapply live_kept. Qed.

Lemma client_live d G : client d G -> exists L, live d L G.
Proof.
  induction 1 as [k c Hk Hd|d G h blob i refs r d' _ [L Hl] Hk He E|d G h r d' _ [L Hl] Hh Hr Ho E|d G1 h G2 fuel r d' _ [L Hl] Hf E|d G limit r d' _ [L Hl] E
    |d G fuel h r d' _ [L Hl] Hh Hz Hf E|d G h r d' _ [L Hl] Hh Hz E|d G h r d' _ [L Hl] Hh E|d G h p r d' _ [L Hl] E].
  - exists []. by apply new_live.
  - destruct (store_live d L G h blob i refs Hl Hk He) as (d1 & L' & E' & Hl' & _). exists L'. rewrite E in E'. by injection E' as -> ->.
  - destruct (reference_live d L G h Hl Hh Hr Ho) as (d1 & E' & Hl'). exists L. rewrite E in E'. by injection E' as -> ->.
  - destruct (dereference_live d L G1 h G2 fuel Hl Hf) as (d1 & L' & E' & Hl'). exists L'. rewrite E in E'. by injection E' as -> ->.
  - destruct (Cap_ok range u U limit d L (li_inv _ _ _ Hl)) as (r' & d1 & L' & E' & F & _). exists L'. rewrite E in E'. injection E' as -> ->. by eapply flushed_live.
  - destruct (Commit_ok range range_perm u U fuel h d L (li_inv _ _ _ Hl) Hh Hz Hf) as (r' & d1 & L' & E' & F & _). exists L'. rewrite E in E'. injection E' as -> ->. by eapply flushed_live.
  - destruct (node_live d L G h Hl Hh Hz) as (r' & d1 & E' & Hl' & _). exists L. rewrite E in E'. by injection E' as -> ->.
  - destruct (Node_live d L G h Hl Hh) as (r' & d1 & E' & Hl' & _). exists L. rewrite E in E'. by injection E' as -> ->.
  - exists L. unfold insertPreimage, modS in E. injection E as _ <-. eapply live_kept; [done| | |].
    + eapply (outside_inv u d); [|apply Hl]. destruct (tdb_preimages d !! h); by constructor.
    + by destruct (tdb_preimages d !! h).
    + by destruct (tdb_preimages d !! h).
Qed.

(** ** Theorems *)

(** C35: garbage collection never takes a node that is still needed: whatever nodes a client
    has stored, referenced, dereferenced, read, capped and committed, in whatever order and
    with whatever writes to disk failing, every node below a root it still refers to can be
    read, with its encoding. *)
Theorem gc_safe d G r h : client d G -> r ∈ G -> below r h ->
  fst (Database_Node h d) = Ok (u_blobs u h).
Proof.
  intros Hcl Hr Hb. destruct (client_live d G Hcl) as [L Hl]. destruct (li_hash _ _ _ Hl r Hr) as [Hw Hz]. pose proof (li_inv _ _ _ Hl) as I.
  destruct (avail_below d L r h I Hw Hz (live_avail d L G r Hl Hr) Hb) as (Hwh & Hzh & Ha).
  by destruct (Database_Node_ok u [] d L [] h I Hwh Hzh Ha) as (d' & -> & _).
Qed.

(** C36: nothing a client does makes the database panic or loop: storing, referencing and
    dereferencing succeed, and [Cap] and [Commit] succeed or return the error of a write
    that failed. *)
Theorem gc_total d G : client d G ->
  (forall h blob i refs, known h blob i refs -> (forall e, e ∈ edges u h -> readable d e) -> fst (store_node h blob i refs d) = Ok tt) /\
  (forall h, wf_hash h -> readable d h -> occ h G + 1 < 2 ^ 16 -> fst (Reference h 0 d) = Ok tt) /\
  (forall h fuel, h ∈ G -> (u_rank u h < fuel)%nat -> fst (Dereference range fuel h d) = Ok tt) /\
  (forall limit, fst (Cap range limit d) = Ok tt \/ exists e, fst (Cap range limit d) = Err e) /\
  (forall h fuel, wf_hash h -> h <> 0 -> (u_rank u h < fuel)%nat ->
     fst (Commit range fuel h d) = Ok tt \/ exists e, fst (Commit range fuel h d) = Err e).
Proof.
  intros Hcl. destruct (client_live d G Hcl) as [L Hl]. pose proof (li_inv _ _ _ Hl) as I. split_and!.
  - intros h blob i refs Hk He. by destruct (store_live d L G h blob i refs Hl Hk He) as (? & ? & -> & _).
  - intros h Hh Hr Ho. by destruct (reference_live d L G h Hl Hh Hr Ho) as (? & -> & _).
  - intros h fuel (G1 & G2 & ->)%list_elem_of_split Hf. by destruct (dereference_live d L G1 h G2 fuel Hl Hf) as (? & ? & -> & _).
  - intros limit. destruct (Cap_ok range u U limit d L I) as (r & d' & L' & -> & _ & [[-> _]|[e ->]]); [by left|right; by exists e].
  - intros h fuel Hh Hz Hf. destruct (Commit_ok range range_perm u U fuel h d L I Hh Hz Hf) as (r & d' & L' & -> & _ & [[-> _]|[e ->]]); [by left|right; by exists e].
Qed.

(** C37: a [Commit] that succeeds is durable: a new database over the disk it leaves reads
    every node below the committed one. *)
Theorem commit_durable d G fuel r d' h cache : client d G -> wf_hash r -> readable d r -> (u_rank u r < fuel)%nat ->
  Commit range fuel r d = (Ok tt, d') -> below r h ->
  fst (Database_Node h (NewDatabaseWithCache (C := C) (tdb_diskdb d') cache)) = Ok (u_blobs u h).
Proof.
  intros Hcl Hw Hr Hf E Hb. destruct (client_live d G Hcl) as [L Hl]. pose proof (li_inv _ _ _ Hl) as I. destruct (readable_avail d L r I Hw Hr) as [Hz Ha].
  destruct (Commit_ok range range_perm u U fuel r d L I Hw Hz Hf) as (x & d1 & L' & E' & F & Hres). rewrite E in E'. injection E' as <- <-. destruct Hres as [[_ Hd]|[e ?]]; [|done].
  pose proof (fd_inv _ _ _ _ _ F) as I'. pose proof (new_live (tdb_diskdb d') cache (di_open _ _ _ _ _ _ I') (di_disk _ _ _ _ _ _ I')) as [In _ _ _].
  destruct (avail_below _ _ r h In Hw Hz (or_intror (Hd Ha)) Hb) as (Hwh & Hzh & Hah).
  by destruct (Database_Node_ok u [] _ _ [] h In Hwh Hzh Hah) as (d2 & -> & _).
Qed.

(** after [Cap] succeeds, the memory the database counts for its nodes is within the
    limit, or it caches no node. *)
Theorem cap_bounded d G limit d' : client d G -> Cap range limit d = (Ok tt, d') ->
  exists m, memory_size d' = (Ok m, d') /\ (m <= limit \/ Nodes range d' = []).
Proof.
  intros Hcl E. destruct (client_live d G Hcl) as [L Hl]. destruct (Cap_ok range u U limit d L (li_inv _ _ _ Hl)) as (x & d1 & L' & E' & F & Hres).
  rewrite E in E'. injection E' as <- <-. pose proof (fd_inv _ _ _ _ _ F) as I'. exists (in_use d'). split; [by eapply memory_size_ok|].
  destruct Hres as [[_ [->|?]]|[e ?]]; [right|by left|done]. unfold Nodes.
  destruct (filter _ _) as [|h l] eqn:Ef; [done|]. assert (Hh : h ∈ filter (fun h => h <> 0) (range _ (tdb_dirties d'))) by (rewrite Ef; left).
  apply list_elem_of_filter in Hh as [Hz Hh]. rewrite range_perm in Hh. apply list_elem_of_fmap in Hh as ([h' n] & -> & Hin%elem_of_map_to_list). cbn in *.
  destruct (not_elem_of_nil h' (on_list _ _ _ _ _ _ _ I' Hz Hin)).
Qed.
End Safe.
