(* ===== verification/TrieStore.v ===== *)
(** * Tries in the trie database

    The hasher of trie/hasher.go hands the nodes of a trie to the database of
    trie/database.go, which simplifies them; the trie reads them back through
    [Database.node].  Here the two are put together: a trie that is committed to the
    database, and with it to disk, is the same trie when it is opened again from the disk. *)
From stdpp Require Import prelude gmap list strings.
From Stdlib Require Import ZArith Lia.
From S2P Require Import Prelude VarBytes RLP RLPStream RLPDecode Crypto TrieKeys Trie TrieNode TrieFacts TrieEnc TrieDecode TrieHash TrieMap MemoryDB TrieDB TrieDBList TrieDBGraph TrieDBFacts TrieDBFlush TrieDBCommit TrieDBSafe.
Local Open Scope Z_scope.

(** ** Simplified nodes *)

Section Simplified.
Context {crypto : Crypto}.

(** The hashes in a node as it is written. *)
Definition child_hashes (rec : tree -> list hash) (t : tree) : list hash :=
  match t with TVal _ => [] | _ => if (length (enc t) <? 32)%nat then rec t else [hash_of t] end.
Fixpoint node_hashes (t : tree) : list hash :=
  match t with
  | TVal _ => []
  | TShort _ t => child_hashes node_hashes t
  | TFull ts => concat (take 16 ((fun o => match o with None => [] | Some t => child_hashes node_hashes t end) <$> ts))
  end.
Definition slot_hashes (o : option tree) : list hash := match o with None => [] | Some t => child_hashes node_hashes t end.

(** What [simplifyNode] leaves of a node, and of a child. *)
Record simplified (t : tree) (r : raw) : Prop := {
  sp_item : raw_item r = body t;
  sp_expand : forall h, expandNode h r = Ok (expand h t);
  sp_hashes : forGatherChildren r = node_hashes t;
  sp_node : r <> rawNil }.
Record simplified_child (t : tree) (r : raw) : Prop := {
  sc_item : raw_item r = child_item body t;
  sc_expand : expandNode None r = Ok (expand_child t);
  sc_hashes : forGatherChildren r = child_hashes node_hashes t;
  sc_node : r <> rawNil }.
Definition simplified_slot (o : option tree) (r : raw) : Prop :=
  match o with None => r = rawNil | Some t => simplified_child t r end.

Definition simplify_spec (t : tree) : Prop := forall c, canon t -> collapses t c -> exists r, simplify c = Ok r /\ simplified t r.

Lemma nonval_child t : ~ is_val t ->
  child_item body t = (if (length (enc t) <? 32)%nat then body t else Str (keccak256 (enc t))) /\
  expand_child t = (if (length (enc t) <? 32)%nat then expand None t else hashNode (keccak256 (enc t))) /\
  child_hashes node_hashes t = (if (length (enc t) <? 32)%nat then node_hashes t else [hash_of t]) /\
  forall c, cchild collapses t c = (if (length (enc t) <? 32)%nat then collapses t c else c = hashNode (keccak256 (enc t))).
Proof. by destruct t. Qed.

Lemma simplify_child t c : simplify_spec t -> canon t \/ is_val t -> cchild collapses t c -> exists r, simplify c = Ok r /\ simplified_child t r.
Proof.
  intros IH Hc Hcc. destruct Hc as [Hc|Hv]; [|destruct t; [|done..]; cbn in Hcc; subst c; eexists; split; [done|]; by constructor].
  destruct (nonval_child t (canon_not_val t Hc)) as (E1 & E2 & E3 & E4). rewrite E4 in Hcc. destruct (length (enc t) <? 32)%nat.
  - destruct (IH c Hc Hcc) as (r & E & [S1 S2 S3 S4]). exists r. split; [done|]. constructor; [by rewrite E1|by rewrite E2|by rewrite E3|done].
  - subst c. exists (rawHash (keccak256 (enc t))). split; [done|]. constructor; [by rewrite E1|by rewrite E2|by rewrite E3|done].
Qed.

(** A full node, slot by slot. *)
Definition simplify_slot (c : node) : outcome raw := match c with nilNode => Ok rawNil | _ => simplify c end.
Definition expand_raw_slot (r : raw) : outcome node := match r with rawNil => Ok nilNode | _ => expandNode None r end.

Lemma simplify_full cols fl rs : Forall2 (fun c r => simplify_slot c = Ok r) cols rs -> simplify (fullNode cols fl) = Ok (rawFullNode rs).
Proof.
  intros Hs. cbn [simplify]. match goal with |- context [?f cols] => is_fix f; set (go := f) end.
  assert (E : go cols = Ok rs); [|by rewrite E]. induction Hs as [|c r cols rs Hc _ IH]; [done|]. unfold simplify_slot in Hc. cbn [go]. fold go. by rewrite Hc, IH.
Qed.

Lemma expand_raw_full h rs ns : Forall2 (fun r n => expand_raw_slot r = Ok n) rs ns -> expandNode h (rawFullNode rs) = Ok (fullNode ns (mkFlag h false)).
Proof.
  intros Hs. cbn [expandNode]. match goal with |- context [?f rs] => is_fix f; set (go := f) end.
  assert (E : go rs = Ok ns); [|by rewrite E]. induction Hs as [|r n rs ns Hr _ IH]; [done|]. unfold expand_raw_slot in Hr. cbn [go]. fold go. by rewrite Hr, IH.
Qed.

Lemma simplify_slots ts cols : (forall i t, ts !! i = Some (Some t) -> simplify_spec t /\ (canon t \/ is_val t)) -> Forall2 cslot ts cols ->
  exists rs, Forall2 (fun c r => simplify_slot c = Ok r) cols rs /\ Forall2 simplified_slot ts rs.
Proof.
  intros Hts Hc. induction Hc as [|o c ts cols Ho _ IH]; [by exists []|]. destruct IH as (rs & H1 & H2); [intros i t Hi; by apply (Hts (S i))|].
  destruct o as [t|].
  - destruct (Hts O t eq_refl) as [Hs Hct]. destruct (simplify_child t c Hs Hct Ho) as (r & E & Hr). exists (r :: rs). split; constructor; try done.
    destruct c; try done.
  - cbn in Ho. subst c. exists (rawNil :: rs). by split; constructor.
Qed.

Lemma simplified_full ts rs : Forall2 simplified_slot ts rs -> simplified (TFull ts) (rawFullNode rs).
Proof.
  intros Hs. constructor; [| | |done].
  - cbn [raw_item body]. f_equal. induction Hs as [|o r ts rs Ho _ IH]; [done|]. rewrite !fmap_cons. f_equal; [|done].
    destruct o as [t|]; [|by cbn in Ho; subst]. destruct Ho as [E _ _ Hn]. rewrite <- E. by destruct r.
  - intros h. rewrite expand_full. apply expand_raw_full. induction Hs as [|o r ts rs Ho _ IH]; [constructor|]. rewrite fmap_cons. constructor; [|done].
    destruct o as [t|]; [|by cbn in Ho; subst]. destruct Ho as [_ E _ Hn]. cbn [expand_slot]. rewrite <- E. by destruct r.
  - cbn [forGatherChildren node_hashes]. do 2 f_equal. induction Hs as [|o r ts rs Ho _ IH]; [done|]. rewrite !fmap_cons. f_equal; [|done].
    destruct o as [t|]; [|by cbn in Ho; subst]. apply Ho.
Qed.

Lemma simplify_ok t : simplify_spec t.
Proof.
  induction t as [v|k t IH|ts IH] using tree_induction; intros c Hc Hcol; [inversion Hc|..].
  - destruct Hcol as (cc & fl & -> & Hcc). destruct (simplify_child t cc IH) as (r & E & [S1 S2 S3 S4]); [inversion Hc; subst; [by right|by left]|done|].
    exists (rawShortNode (compact k) r). cbn [simplify]. rewrite E. split; [done|]. constructor; [cbn; by rewrite S1| |exact S3|done].
    intros h. rewrite expand_short. cbn [expandNode]. rewrite S2. cbn [mbind outcome_bind]. by rewrite (compactToHex_compact k t Hc).
  - apply collapses_full in Hcol as (cols & fl & -> & Hcols). inversion Hc as [| |? Hlen Hch Hval _]; subst.
    destruct (simplify_slots ts cols) as (rs & H1 & H2); [|done|].
    { intros i t Hi. split; [by eapply IH|]. destruct (decide (i < 16)%nat) as [Hlt|Hge]; [left; by eapply Hch|]. pose proof (lookup_lt_Some _ _ _ Hi).
      assert (i = 16%nat) as -> by lia. destruct (Hval t Hi) as [v ->]. by right. }
    exists (rawFullNode rs). split; [by apply simplify_full|by apply simplified_full].
Qed.
End Simplified.

(** ** The nodes of a trie in the database *)

Section Store.
Context {crypto : Crypto} {K C : Type} `{KeyValueLaws K} `{CacheLaws C}.
Context (range : forall A, gmap hash A -> list hash).
Hypothesis range_perm : forall A (m : gmap hash A), range A m ≡ₚ (map_to_list m).*1.
Local Abbreviation Database := (Database K C).
Context (u : universe) (U : universe_ok u).
(** What the leaves of the trie refer to: in the trie of accounts, storage and code. *)
Context (refs : bytes -> list hash).
Implicit Types d : Database.
Local Abbreviation dbinv d L := (dbinvx u [] d L [] []).
Local Abbreviation client := (client range u).

(** What the trie reads from the database. *)
Definition db_reads d (h : hash) : option node := match fst (Database_node h d) with Ok n => n | _ => None end.

(** What the hasher is given: [Database.insert], and a callback that references. *)
Definition db_insert (h : hash) (blob : bytes) (n : node) : M Database unit := Database_insert h blob (insNode n).
Definition db_onleaf (leaf : bytes) (parent : hash) : M Database unit := for_each (fun c => reference c parent) (refs leaf).

Definition leaf_of (t : tree) : list hash := match t with TShort _ (TVal v) => refs v | _ => [] end.

(** The universe has the nodes of the tree under their hashes, which are no one else's. *)
Record covers (t : tree) : Prop := {
  cv_canon : canon t;
  cv_fits : tfits t;
  cv_solid : solid t;
  cv_root : hash_of t <> trie_emptyRoot;
  cv_node : forall s, node_of s t -> canon s -> hash_of s ∈ u_nodes u;
  cv_blob : forall s, node_of s t -> u_blobs u (hash_of s) = enc s;
  cv_inner : forall s, node_of s t -> canon s -> u_inner u (hash_of s) = node_hashes s;
  cv_ext : forall s e, node_of s t -> canon s -> e ∈ u_ext u (hash_of s) <-> e ∈ leaf_of s }.

Lemma wf_hash_of t : wf_hash (hash_of t).
Proof. apply wf_BytesToHash, keccak256_length. Qed.
Lemma hash_bytes_of t : hash_bytes (hash_of t) = keccak256 (enc t).
Proof. apply hash_bytes_BytesToHash, keccak256_length. Qed.

Lemma decoded_tree t s : covers t -> node_of s t -> canon s -> decoded u (hash_of s) = Ok (Some (expand (Some (keccak256 (enc s))) s)).
Proof.
  intros Hc Hs Hcs. unfold decoded. rewrite (cv_blob _ Hc s Hs), hash_bytes_of. unfold mustDecodeNode.
  rewrite decodeNode_enc; [done|done|eapply solid_sub; [apply Hc|done]|eapply tfits_sub; [apply Hc|done|done]].
Qed.

(** A node of the tree is found when it is in the cache or on disk, and nothing else is
    found under its hash. *)
Lemma found_avail d L t s : dbinv d L -> covers t -> node_of s t -> canon s -> avail_in d L (hash_of s) -> found (db_reads d) s.
Proof.
  intros I Hc Hs Hcs Ha. destruct (uo_nodes _ U _ (cv_node _ Hc s Hs Hcs)) as [Hz _].
  destruct (Database_node_ok u [] d L [] (hash_of s) I (wf_hash_of s) Hz Ha) as (d' & E & _). unfold found, db_reads.
  by rewrite E, (decoded_tree t s Hc Hs Hcs).
Qed.

Lemma avail_found d L t s n : dbinv d L -> covers t -> node_of s t -> canon s -> db_reads d (hash_of s) = Some n ->
  avail_in d L (hash_of s) /\ n = expand (Some (keccak256 (enc s))) s.
Proof.
  intros I Hc Hs Hcs Hn. destruct (uo_nodes _ U _ (cv_node _ Hc s Hs Hcs)) as [Hz _].
  assert (Ha : avail_in d L (hash_of s)).
  { destruct (decide (hash_of s ∈ L)) as [?|HL]; [by left|]. destruct (dec_disk d (hash_of s)) as [?|Hd]; [by right|].
    unfold db_reads in Hn. by rewrite (Database_node_missing u [] d L [] (hash_of s) I (wf_hash_of s) Hz HL Hd) in Hn. }
  split; [done|]. pose proof (found_avail d L t s I Hc Hs Hcs Ha) as Hf. unfold found in Hf. rewrite Hn in Hf. by injection Hf.
Qed.

(** A node of the tree is the one the universe knows. *)
Lemma tree_known t s c : covers t -> node_of s t -> canon s -> collapses s c -> known u (hash_of s) (enc s) (insNode c) (leaf_of s).
Proof.
  intros Hc Hs Hcs Hcol. destruct (simplify_ok s c Hcs Hcol) as (r & E & [S1 S2 S3 S4]). constructor; [|intros e; symmetry; by apply (cv_ext _ Hc)].
  exists (rawTrie r). cbn [simplifyNode]. rewrite E. split; [done|].
  assert (Hf : tfits s) by (eapply tfits_sub; [apply Hc|done|done]). assert (Hso : solid s) by (eapply solid_sub; [apply Hc|done]).
  constructor; cbn [cn_node cn_children inner_children ext_children].
  - by apply (cv_node _ Hc).
  - rewrite (cv_blob _ Hc s Hs). unfold cached_rlp. cbn [cn_node].
    assert (EncodeToBytes (raw_item r) = enc s) as Hb; [|by destruct r; [done|rewrite <- Hb..]].
    rewrite S1. apply EncodeToBytes_rlp_enc, tfits_fits; [by apply canon_not_val|done].
  - unfold cached_obj. cbn [cn_node]. rewrite S2, (cv_blob _ Hc s Hs). unfold mustDecodeNode. by rewrite decodeNode_enc.
  - rewrite (cv_inner _ Hc s Hs Hcs). exact S3.
  - intros e k. cbn. by rewrite lookup_empty.
Qed.

(** The hashes in a node are those of large nodes below it. *)
Lemma node_hashes_nodes t : canon t -> forall e, e ∈ node_hashes t -> exists s, node_of s t /\ canon s /\ (32 <= length (enc s))%nat /\ e = hash_of s.
Proof.
  assert (Hchild : forall t, (canon t -> forall e, e ∈ node_hashes t -> exists s, node_of s t /\ canon s /\ (32 <= length (enc s))%nat /\ e = hash_of s) ->
    canon t \/ is_val t -> forall e, e ∈ child_hashes node_hashes t -> exists s, node_of s t /\ canon s /\ (32 <= length (enc s))%nat /\ e = hash_of s).
  { clear t. intros x IH [Hc|Hv] e He; [|by destruct x; [apply elem_of_nil in He|..]].
    destruct (nonval_child x (canon_not_val x Hc)) as (_ & _ & E & _). rewrite E in He. destruct (Nat.ltb_spec (length (enc x)) 32) as [|Hge]; [by apply IH|].
    apply list_elem_of_singleton in He as ->. exists x. by split_and!; [constructor|..]. }
  induction t as [v|k t IH|ts IH] using tree_induction; intros Hc e He; [inversion Hc|..].
  - destruct (Hchild t IH) with (e := e) as (s & Hs & Hrest); [inversion Hc; subst; [by right|by left]|done|]. exists s. split; [by constructor|done].
  - cbn [node_hashes] in He. apply list_elem_of_In, in_concat in He as (l & Hl%list_elem_of_In & He%list_elem_of_In).
    apply elem_of_take in Hl as (i & Hi & Hlt). apply list_lookup_fmap_Some in Hi as (o & -> & Hi). destruct o as [t|]; [|by apply elem_of_nil in He].
    inversion Hc as [| |? Hlen Hch Hval _]; subst. destruct (Hchild t (IH i t Hi)) with (e := e) as (s & Hs & Hrest); [left; by eapply Hch|done|].
    exists s. split; [by econstructor|done].
Qed.

(** Storing a node leaves what is read elsewhere alone. *)
Lemma reads_root d L : dbinv d L -> clean_get 0 d = None -> db_reads d 0 = None.
Proof.
  intros I Hcl. destruct (g_root _ _ _ _ _ _ _ (di_graph _ _ _ _ _ _ I)) as (r & Hr & Hro). apply cores_inv in Hr as (n & Hn & ->).
  pose proof (ro_node _ _ _ Hro) as Hnode. cbn in Hnode. unfold db_reads, Database_node, bindM at 1, gets. rewrite Hcl. unfold bindM at 1. rewrite Hn.
  unfold cached_obj. by rewrite Hnode.
Qed.

Lemma reads_unlisted d d' h : same_store d d' -> tdb_dirties d !! h = None -> tdb_dirties d' !! h = None -> db_reads d' h = db_reads d h.
Proof.
  intros [S1 S2 S3] E1 E2. unfold db_reads, Database_node, bindM, gets, clean_get, lift_out, clean_set, modS. cbv beta iota. rewrite S2.
  destruct (tdb_cleans d ≫= cache_Get (hash_bytes h)) as [b|]; [by destruct (mustDecodeNode _ b)|].
  cbv beta iota. rewrite E1, E2. cbv beta iota. rewrite S1. destruct (kv_Get _ _) as [e|b]; [done|]. cbv beta iota. by destruct (mustDecodeNode _ b).
Qed.

Lemma reads_same d d' L L' x h : dbinv d L -> dbinv d' L' -> same_store d d' -> (forall y, y ∈ L' <-> y ∈ L \/ y = x) -> h <> x ->
  db_reads d' h = db_reads d h.
Proof.
  intros I I' S HL Hne. destruct (decide (h = 0)) as [->|Hz].
  { assert (clean_get 0 d' = clean_get 0 d) as Ec by (unfold clean_get; by rewrite (ss_cleans _ _ S)).
    destruct (clean_get 0 d) as [b|] eqn:E; [|by rewrite (reads_root d L I E), (reads_root d' L' I' Ec)].
    unfold db_reads, Database_node, bindM, gets, lift_out. cbv beta iota. rewrite E, Ec. cbv beta iota. by destruct (mustDecodeNode _ b). }
  destruct (decide (h ∈ L)) as [Hin|Hni].
  - destruct (listed _ _ _ _ _ _ _ I Hin) as (n & _ & Ho). destruct (uo_nodes _ U h (eo_node _ _ _ Ho)) as [_ Hw].
    destruct (Database_node_ok u [] d L [] h I Hw Hz (or_introl Hin)) as (d1 & E1 & _).
    destruct (Database_node_ok u [] d' L' [] h I' Hw Hz (or_introl (proj2 (HL h) (or_introl Hin)))) as (d2 & E2 & _). unfold db_reads. by rewrite E1, E2.
  - apply reads_unlisted; [done|by eapply unlisted_None|]. eapply (unlisted_None u []); [done|done|]. by intros [?|?]%HL.
Qed.

(** ** Committing to the database *)

Context (onleaf : option (bytes -> hash -> M Database unit)).
Hypothesis onleaf_refs : onleaf = Some db_onleaf \/ onleaf = None /\ forall v, refs v = [].

Lemma leaf_list_none f h l : (forall v, valueNode v ∉ l) -> forall d, leaf_list f h l d = (Ok tt, d).
Proof.
  induction l as [|c l IH]; intros Hl d; [done|]. assert (Hr : forall v, valueNode v ∉ l) by (intros v Hv; apply (Hl v); by right).
  destruct c as [| | | |v]; cbn [leaf_list]; try (by apply IH). destruct (Hl v). left.
Qed.

(** Only a leaf is reported. *)
Lemma leaf_refs_ok f h t c d : canon t -> collapses t c ->
  leaf_refs f h c d = match t with TShort _ (TVal v) => call_leaf f v h d | _ => (Ok tt, d) end.
Proof.
  intros Hc Hcol. inversion Hc as [k v Hk|k ts Hn Hne Hts|ts Hlen Hch Hval _]; subst.
  - destruct Hcol as (cc & fl & -> & Hcc). cbn in Hcc. by subst cc.
  - destruct Hcol as (cc & fl & -> & Hcc). cbn [cchild] in Hcc. destruct (_ <? 32)%nat; [|by subst cc].
    by apply collapses_full in Hcc as (cols & fl' & -> & _).
  - apply collapses_full in Hcol as (cols & fl & -> & Hcols). cbn [leaf_refs]. apply leaf_list_none. intros v Hv.
    apply elem_of_take in Hv as (i & Hi & Hlt). destruct (Forall2_lookup_r _ _ _ _ _ Hcols Hi) as (o & Ho & Hs).
    destruct o as [t|]; [|done]. specialize (Hch i t Hlt Ho). cbn in Hs. destruct (nonval_child t (canon_not_val t Hch)) as (_ & _ & _ & E). rewrite E in Hs.
    destruct (_ <? 32)%nat; [|done]. destruct Hch; [by destruct Hs as (? & ? & ? & _)|by destruct Hs as (? & ? & ? & _)|by apply collapses_full in Hs as (? & ? & ? & _)].
Qed.

Lemma put_store t c blob h d d' : canon t -> collapses t c -> store_node h blob (insNode c) (leaf_of t) d = (Ok tt, d') ->
  put db_insert onleaf h blob c d = (Ok tt, d').
Proof.
  intros Hc Hcol E. unfold put, store_node in *. apply bind_Ok_inv in E as ([] & d1 & E1 & E2). rewrite (bind_Ok _ _ _ _ _ E1).
  assert (Hleaf : forall v, leaf_of (TShort [] (TVal v)) = refs v) by done.
  destruct onleaf_refs as [->|[-> Hno]]; [rewrite (leaf_refs_ok _ _ t c d1 Hc Hcol)|].
  - destruct t as [v|k [v|k' t|ts]|ts]; cbn [leaf_of for_each] in E2; try exact E2. unfold call_leaf, db_onleaf. by rewrite E2.
  - destruct t as [v|k [v|k' t|ts]|ts]; cbn [leaf_of for_each] in E2; try exact E2. by rewrite Hno in E2.
Qed.

(** Between two insertions: a client's database that has what the leaves refer to. *)
Definition store_inv (G : list hash) (whole : tree) d : Prop :=
  client d G /\ forall s e, node_of s whole -> canon s -> e ∈ leaf_of s -> readable d e.

Lemma avail_readable d L h : dbinv d L -> wf_hash h -> h <> 0 -> avail_in d L h -> readable d h.
Proof. intros I Hw Hz Ha. destruct (Database_Node_ok u [] d L [] h I Hw Hz Ha) as (d' & E & _). exists (u_blobs u h). by rewrite E. Qed.

Lemma store_grows d d' L L' x h : dbinv d L -> dbinv d' L' -> same_store d d' -> (forall y, y ∈ L' <-> y ∈ L \/ y = x) -> wf_hash h ->
  readable d h -> readable d' h.
Proof.
  intros I I' S HL Hw Hr. destruct (readable_avail u d L h I Hw Hr) as [Hz Ha]. apply (avail_readable d' L'); [done..|].
  destruct Ha as [?|?]; [left; apply HL; by left|right; by apply (same_disk d)].
Qed.

Lemma database_node_store G whole : covers whole -> node_store db_reads db_insert onleaf (store_inv G whole) whole.
Proof.
  intros Hcv d c t [Hcl Hlf] Ht Hc Hso Hf Hcol Hold Hsub. destruct (client_live range range_perm u U d G Hcl) as [L Hl]. pose proof (li_inv _ _ _ _ Hl) as I.
  assert (Hext : forall e, e ∈ u_ext u (hash_of t) -> readable d e) by (intros e He; apply (Hlf t); [done|done|by apply (cv_ext _ Hcv)]).
  assert (Hed : forall e, e ∈ edges u (hash_of t) -> avail_in d L e).
  { intros e He. pose proof (uo_edges _ U _ _ He) as [_ Hw]. pose proof (uo_rank _ U _ _ He) as Hrk. apply elem_of_app in He as [He|He].
    - rewrite (cv_inner _ Hcv t Ht Hc) in He. destruct (node_hashes_nodes t Hc e He) as (s & Hs & Hcs & Hlen & ->).
      destruct (Hsub s Hs (canon_not_val s Hcs) Hlen) as [->|Hfd]; [lia|]. eapply (avail_found d L whole s); [done|done|by eapply node_of_trans|done|exact Hfd].
    - by apply (readable_avail u d L e I Hw), Hext. }
  pose proof (tree_known whole t c Hcv Ht Hc Hcol) as Hk.
  destruct (store_node_ok u U (hash_of t) (enc t) (insNode c) (leaf_of t) d L I Hk Hed) as (d' & L' & E & I' & S' & R' & HL').
  exists d'. split_and!; [by apply (put_store t)|split| |].
  - eapply cl_store; [exact Hcl|exact Hk| |exact E]. intros e He. pose proof (uo_edges _ U _ _ He) as [Hz Hw]. apply (avail_readable d L); auto.
  - intros s e Hs Hcs He. eapply (store_grows d d' L L'); [done..| |by eapply Hlf].
    apply (uo_edges _ U (hash_of s)), elem_of_app. right. by apply (cv_ext _ Hcv).
  - apply (found_avail d' L' whole); [done|done|done|done|left; apply HL'; by right].
  - intros h Hne. by apply (reads_same d d' L L' (hash_of t)).
Qed.

(** ** Opening the trie again *)

Lemma canon_sub t s : canon t -> node_of s t -> canon s \/ is_val s.
Proof.
  intros Hc Hs. revert Hc. induction Hs as [|k t Hs IH|ts i t Hi Hs IH]; intros Hc; [by left|..].
  - inversion Hc as [? v Hk|? ts Hn Hne Hts|]; subst; [inversion Hs; subst; by right|by apply IH].
  - inversion Hc as [| |? Hlen Hch Hval _]; subst. destruct (decide (i < 16)%nat) as [Hlt|Hge]; [by eapply IH, Hch|].
    pose proof (lookup_lt_Some _ _ _ Hi). assert (i = 16%nat) as -> by lia. destruct (Hval t Hi) as [v ->]. inversion Hs; subst. by right.
Qed.

(** A large node is the node itself, or below a hash in it. *)
Lemma large_below_child t s : (canon t -> s = t \/ exists x, node_of x t /\ canon x /\ hash_of x ∈ node_hashes t /\ node_of s x) ->
  canon t \/ is_val t -> canon s -> node_of s t -> (32 <= length (enc s))%nat ->
  exists x, node_of x t /\ canon x /\ hash_of x ∈ child_hashes node_hashes t /\ node_of s x.
Proof.
  intros IH Hct Hcs Hs Hlen. destruct Hct as [Hc|Hv]; [|destruct t; try done; inversion Hs; subst; inversion Hcs].
  destruct (nonval_child t (canon_not_val t Hc)) as (_ & _ & E & _). rewrite E. destruct (Nat.ltb_spec (length (enc t)) 32) as [Hlt|Hge].
  - destruct (IH Hc) as [->|?]; [lia|done].
  - exists t. split_and!; [constructor|done|left|done].
Qed.

Lemma large_below t s : canon s -> (32 <= length (enc s))%nat -> canon t -> node_of s t ->
  s = t \/ exists x, node_of x t /\ canon x /\ hash_of x ∈ node_hashes t /\ node_of s x.
Proof.
  intros Hcs Hlen. induction t as [v|k t IH|ts IH] using tree_induction; intros Hc Hs; [inversion Hc|..].
  - inversion Hs as [|? ? Hs'|]; subst; [by left|right]. destruct (large_below_child t s) as (x & Hx & Hrest); try done; [by intros; apply IH| |].
    { inversion Hc; subst; [by right|by left]. }
    exists x. split; [by constructor|done].
  - inversion Hs as [| |? i t Hi Hs']; subst; [by left|right]. inversion Hc as [| |? Hl Hch Hval _]; subst.
    assert (Hlt : (i < 16)%nat).
    { destruct (decide (i < 16)%nat); [done|]. pose proof (lookup_lt_Some _ _ _ Hi). assert (i = 16%nat) as -> by lia. destruct (Hval t Hi) as [v ->].
      inversion Hs'; subst. inversion Hcs. }
    destruct (large_below_child t s) as (x & Hx & Hcx & Hin & Hsx); try done; [by intros; eapply IH|left; by eapply Hch|].
    exists x. split_and!; [by econstructor|done| |done]. cbn [node_hashes]. apply list_elem_of_In, in_concat. exists (child_hashes node_hashes t).
    split; [|by apply list_elem_of_In]. apply list_elem_of_In, elem_of_take. exists i. split; [|done]. apply list_lookup_fmap_Some. by exists (Some t).
Qed.

Lemma node_below whole t s : covers whole -> node_of t whole -> canon t -> canon s -> (32 <= length (enc s))%nat -> node_of s t ->
  below u (hash_of t) (hash_of s).
Proof.
  intros Hcv. remember (u_rank u (hash_of t)) as r eqn:Hr. revert t Hr. induction r as [r IH] using lt_wf_ind. intros t -> Ht Hc Hcs Hlen Hs.
  destruct (large_below t s Hcs Hlen Hc Hs) as [->|(x & Hx & Hcx & Hin & Hsx)]; [constructor|].
  assert (He : hash_of x ∈ edges u (hash_of t)) by (apply elem_of_app; left; by rewrite (cv_inner _ Hcv t Ht Hc)).
  apply (rtc_l _ _ (hash_of x)); [done|]. eapply IH; [by apply (uo_rank _ U)|done|by eapply node_of_trans|done..].
Qed.

Lemma covers_storable d L t : dbinv d L -> covers t -> storable db_reads d t.
Proof.
  intros I Hcv. constructor; [apply Hcv..| |].
  - intros s1 s2 H1' H2' E. rewrite <- (cv_blob _ Hcv s1 H1'), <- (cv_blob _ Hcv s2 H2'). unfold hash_of. by rewrite E.
  - intros s n Hs Hcs Hn. by eapply (avail_found d L t s).
Qed.

End Store.
