(* ===== verification/TrieStoreSample.v ===== *)
(** * A small database of tries, and a trie written to disk

    Two roots over one account and its code, in a memory database without failures and with
    a cache that keeps everything: the theorems of [TrieDBSafe] on a concrete run.

    The theorem of [TrieStore] on a concrete trie: a branch with a leaf of its own node and
    a leaf inside the branch, committed to an empty database and read back from disk. *)
From stdpp Require Import prelude gmap list strings.
From Stdlib Require Import ZArith Lia.
From S2P Require Import Prelude VarBytes RLP RLPStream RLPDecode Crypto TrieKeys Trie TrieNode TrieFacts TrieEnc TrieDecode TrieHash TrieMap MemoryDB TrieDB TrieDBList TrieDBGraph TrieDBFacts TrieDBFlush TrieDBCommit TrieDBSafe TrieStore.
Local Open Scope Z_scope.

(** A cache that forgets nothing. *)
Abbreviation keepall := (gmap bytes bytes).
#[global] Instance keepall_cache : Cache keepall := {
  cache_new _ := ∅;
  cache_Get key c := c !! key;
  cache_Set key v c := <[key := v]> c }.
#[global] Instance keepall_laws : CacheLaws keepall.
Proof.
  constructor; [intros n key; apply lookup_empty|]. intros key v c key' v' E. cbn in E. destruct (decide (key' = key)) as [->|Hne].
  - rewrite lookup_insert_eq in E. by injection E.
  - by rewrite lookup_insert_ne in E by done.
Qed.

Definition keys (A : Type) (m : gmap hash A) : list hash := (map_to_list m).*1.
Lemma keys_perm A (m : gmap hash A) : keys A m ≡ₚ (map_to_list m).*1.
Proof. done. Qed.

(** The nodes: code [2], an account leaf [1] that refers to it, and two branches [3] and
    [4] over the leaf. *)
Definition sample_code : inserted := insBlob (z2b <$> [96; 0; 96; 0; 253]).
Definition sample_leaf : inserted := insNode (shortNode (z2b <$> [49; 35]) (valueNode (z2b <$> [7; 7; 7])) newFlag).
Definition sample_branch (i : nat) : inserted :=
  insNode (fullNode (<[i := hashNode (hash_bytes 1)]> (<[5%nat := hashNode (hash_bytes 1)]> (replicate 17 nilNode))) newFlag).
Definition sample_node (h : hash) : inserted :=
  if h =? 1 then sample_leaf else if h =? 2 then sample_code else sample_branch (Z.to_nat h).
Definition sample_blob (h : hash) : bytes :=
  match sample_node h with insBlob b => b | insNode n => EncodeToBytes (node_item n) end.
Definition sample_refs (h : hash) : list hash := if h =? 1 then [2] else [].

Definition sample : universe := {|
  u_nodes := [1; 2; 3; 4];
  u_blobs := sample_blob;
  u_inner h := if (h =? 3) || (h =? 4) then [1; 1] else [];
  u_ext := sample_refs;
  u_rank h := if h =? 2 then 0%nat else if h =? 1 then 1%nat else 2%nat |}.

Lemma sample_ok : universe_ok sample.
Proof.
  assert (Hed : forall h e, e ∈ edges sample h -> (e = 1 /\ (h = 3 \/ h = 4)) \/ (e = 2 /\ h = 1)).
  { intros h e. unfold edges, sample, sample_refs. cbn. destruct (Z.eqb_spec h 3), (Z.eqb_spec h 4), (Z.eqb_spec h 1); cbn; subst; try lia;
      rewrite ?elem_of_cons, ?elem_of_nil; lia. }
  constructor.
  - intros h e [[-> [-> | ->]]|[-> ->]]%Hed; cbn; lia.
  - intros h e [[-> _]|[-> _]]%Hed; split; [done|split; lia|done|split; lia].
  - intros h Hh. cbn in Hh. rewrite !elem_of_cons, elem_of_nil in Hh. destruct Hh as [-> |[-> |[-> |[-> |[]]]]]; split; try done; split; lia.
  - vm_compute. done.
Qed.

Local Abbreviation database := (Database memorydb keepall).

Lemma sample_known h : h ∈ u_nodes sample -> known sample h (sample_blob h) (sample_node h) (sample_refs h).
Proof.
  intros Hh. cbn in Hh. rewrite !elem_of_cons, elem_of_nil in Hh. constructor; [|done]. destruct Hh as [-> |[-> |[-> |[-> |[]]]]]; (eexists; split; [vm_compute; reflexivity|]);
    (constructor; [by apply (bool_decide_unpack _)|vm_compute; reflexivity|vm_compute; reflexivity|vm_compute; reflexivity|intros e c; cbn; by rewrite lookup_empty]).
Qed.

Definition store_sample (h : hash) : M database unit := store_node h (sample_blob h) (sample_node h) (sample_refs h).

Definition after {A} (m : M database A) (d : database) : database := snd (m d).
Lemma after_Ok {A} (m : M database A) d a : fst (m d) = Ok a -> m d = (Ok a, after m d).
Proof. unfold after. by destruct (m d) as [r d'] eqn:E; intros [= ->]. Qed.

Definition db0 : database := NewDatabaseWithCache memorydb_New 1.
Definition db1 : database := after (store_sample 1) (after (store_sample 2) db0).
Definition db2 : database := after (Reference 3 0) (after (store_sample 3) db1).
Definition db3 : database := after (Reference 4 0) (after (store_sample 4) db2).
(** The first root taken back. *)
Definition db4 : database := after (Dereference keys 3%nat 3) db3.

Local Abbreviation sample_client := (client keys sample).

Lemma client_store d G h : sample_client d G -> h ∈ u_nodes sample -> Forall (readable d) (edges sample h) -> sample_client (after (store_sample h) d) G.
Proof.
  intros Hc Hh He. eapply cl_store; [exact Hc|by apply sample_known|by apply Forall_forall|apply surjective_pairing].
Qed.

Lemma client_reference d G h : sample_client d G -> wf_hash h -> readable d h -> occ h G + 1 < 2 ^ 16 -> sample_client (after (Reference h 0) d) (h :: G).
Proof. intros Hc Hw Hr Ho. eapply cl_reference; [exact Hc|done|done|done|apply surjective_pairing]. Qed.

Ltac sample_store := apply client_store; [|by apply (bool_decide_unpack _)|repeat constructor; eexists; vm_compute; reflexivity].
Ltac sample_reference := apply client_reference; [|split; lia|eexists; vm_compute; reflexivity|vm_compute; reflexivity].

Lemma client_db3 : sample_client db3 [4; 3].
Proof.
  unfold db3. sample_reference. sample_store. unfold db2. sample_reference. sample_store. unfold db1. do 2 sample_store.
  apply cl_new; [by eexists|]. intros h b _ Hb. by rewrite memorydb_value in Hb.
Qed.

Lemma client_db4 : sample_client db4 [4].
Proof. eapply (cl_dereference keys sample db3 [4] 3 [] 3); [apply client_db3|vm_compute; lia|apply surjective_pairing]. Qed.

Lemma below_sample : below sample 4 2.
Proof. apply (rtc_l _ _ 1); [by apply (bool_decide_unpack _)|]. apply rtc_once. by apply (bool_decide_unpack _). Qed.

(** The code below the root that is left can be read; the root taken back is gone. *)
Lemma gc_safe_witness : fst (Database_Node 2 db4) = Ok (sample_blob 2) /\ tdb_dirties db4 !! 3 = None.
Proof.
  split; [|vm_compute; reflexivity]. apply (gc_safe keys keys_perm sample sample_ok db4 [4] 4 2); [apply client_db4|left|apply below_sample].
Defined.

Lemma gc_total_witness : fst (Dereference keys 3%nat 4 db4) = Ok tt /\ Nodes keys (after (Dereference keys 3%nat 4) db4) = [].
Proof.
  split; [|vm_compute; reflexivity].
  apply (gc_total keys keys_perm sample sample_ok db4 [4] client_db4); [left|vm_compute; lia].
Defined.

Lemma commit_durable_witness :
  fst (Database_Node 2 (NewDatabaseWithCache (C := keepall) (tdb_diskdb (after (Commit keys 3%nat 4) db4)) 0)) = Ok (sample_blob 2) /\
  Nodes keys (after (Commit keys 3%nat 4) db4) = [].
Proof.
  split; [|vm_compute; reflexivity].
  assert (Hw : wf_hash 4) by (split; lia).
  assert (Hr : readable db4 4) by (eexists; vm_compute; reflexivity).
  assert (Hc : Commit keys 3%nat 4 db4 = (Ok tt, after (Commit keys 3%nat 4) db4)) by (apply after_Ok; vm_compute; reflexivity).
  exact (commit_durable keys keys_perm sample sample_ok db4 [4] 3 4 (after (Commit keys 3%nat 4) db4) 2 0 client_db4 Hw Hr ltac:(vm_compute; lia) Hc below_sample).
Defined.

Lemma cap_bounded_witness : exists m, memory_size (after (Cap keys 300) db3) = (Ok m, after (Cap keys 300) db3) /\
  (m <= 300 \/ Nodes keys (after (Cap keys 300) db3) = []).
Proof. apply (cap_bounded keys keys_perm sample sample_ok db3 [4; 3] 300 (after (Cap keys 300) db3) client_db3). apply after_Ok. vm_compute. reflexivity. Defined.

(** ** A trie written to disk *)

(** The tree behind a node with nothing left to load. *)
Fixpoint node_tree (n : node) : option tree :=
  match n with
  | nilNode | hashNode _ => None
  | valueNode v => Some (TVal v)
  | shortNode k c _ => TShort k <$> node_tree c
  | fullNode ch _ => Some (TFull (node_tree <$> ch))
  end.
Fixpoint hashless (n : node) : bool :=
  match n with
  | nilNode | valueNode _ => true
  | hashNode _ => false
  | shortNode _ c _ => hashless c
  | fullNode ch _ => forallb hashless ch
  end.

Lemma loads_tree db okf okh t : forall root n, loads db okf okh root n (Some t) -> hashless n = true -> node_tree n = Some t.
Proof.
  induction t as [v|k t IH|ts IH] using tree_induction; intros root n Hl Hh; inversion Hl; subst; try done.
  - cbn in Hh |- *. by erewrite IH.
  - cbn in Hh |- *. do 2 f_equal. match goal with H : Forall2 _ _ _ |- _ => rename H into Hch end. clear Hl. match goal with H : okf _ _ _ |- _ => clear H end. revert Hh.
    induction Hch as [|c o ch ts Hc _ IHc]; intros Hh; [done|]. cbn in Hh. apply andb_true_iff in Hh as [Hhc Hh]. rewrite fmap_cons. f_equal.
    + destruct o as [t|]; [by eapply (IH O)|]. by apply loads_None_inv in Hc as ->.
    + apply IHc; [|done]. intros i t Hi. by apply (IH (S i)).
Qed.

(** All nodes of a tree, and a universe of them. *)
Fixpoint subtrees (t : tree) : list tree :=
  t :: match t with
       | TVal _ => []
       | TShort _ t => subtrees t
       | TFull ts => concat ((fun o => match o with None => [] | Some t => subtrees t end) <$> ts)
       end.

Lemma node_subtrees s t : node_of s t -> s ∈ subtrees t.
Proof.
  induction 1 as [|k t _ IH|ts i t Hi _ IH]; [destruct s; left|by right|]. right. apply list_elem_of_In, in_concat. exists (subtrees t).
  split; [|by apply list_elem_of_In]. apply list_elem_of_In, list_elem_of_fmap. exists (Some t). split; [done|by eapply list_elem_of_lookup_2].
Qed.

Fixpoint depth (t : tree) : nat :=
  match t with
  | TVal _ => 0
  | TShort _ t => S (depth t)
  | TFull ts => S (foldr Nat.max 0%nat ((fun o => match o with None => 0%nat | Some t => depth t end) <$> ts))
  end.
Definition nonval (t : tree) : bool := match t with TVal _ => false | _ => true end.

Section Universe.
Context {crypto : Crypto}.

Definition node_at (t : tree) (h : hash) : option tree := list_find (fun s => hash_of s = h) (subtrees t) ≫= fun p => Some p.2.
Definition tree_universe (t : tree) : universe := {|
  u_nodes := hash_of <$> filter (fun s => nonval s = true) (subtrees t);
  u_blobs h := default [] (enc <$> node_at t h);
  u_inner h := default [] (node_hashes <$> node_at t h);
  u_ext _ := [];
  u_rank h := default 0%nat (depth <$> node_at t h) |}.

(** What a concrete tree is checked for. *)
Definition node_fine (t s : tree) : bool :=
  let u := tree_universe t in let h := hash_of s in
  bool_decide (u_blobs u h = enc s) && (negb (nonval s) || bool_decide (u_inner u h = node_hashes s)) &&
  forallb (fun e => (u_rank u e <? u_rank u h)%nat && negb (e =? 0) && (0 <=? e) && (e <? 2 ^ 256)) (u_inner u h) &&
  negb (h =? 0) && (0 <=? h) && (h <? 2 ^ 256).
Definition tree_fine (t : tree) : bool :=
  forallb (node_fine t) (subtrees t) && negb (hash_of t =? trie_emptyRoot) &&
  (sumZ (fun h => Z.of_nat (length (u_inner (tree_universe t) h)) + 1) (u_nodes (tree_universe t)) + 2 ^ 16 <? 2 ^ 32).

Lemma tree_fine_nodes t s : tree_fine t = true -> s ∈ subtrees t -> node_fine t s = true.
Proof. unfold tree_fine. rewrite !andb_true_iff, forallb_forall. intros [[Hf _] _] Hs. by apply Hf, list_elem_of_In. Qed.

Lemma node_at_Some t h s : node_at t h = Some s -> s ∈ subtrees t /\ hash_of s = h.
Proof.
  unfold node_at. destruct (list_find _ _) as [[i x]|] eqn:E; [|done]. intros [= <-]. apply list_find_Some in E as (Hi & Hx & _).
  split; [by eapply list_elem_of_lookup_2|done].
Qed.

Lemma tree_universe_ok t : tree_fine t = true -> universe_ok (tree_universe t).
Proof.
  intros Ht. assert (Hedge : forall h e, e ∈ edges (tree_universe t) h -> exists s, s ∈ subtrees t /\ hash_of s = h /\ e ∈ u_inner (tree_universe t) h).
  { intros h e [He|He%elem_of_nil]%elem_of_app; [|done]. pose proof He as He'. cbn in He. destruct (node_at t h) as [s|] eqn:E; [|by apply elem_of_nil in He].
    destruct (node_at_Some _ _ _ E). by exists s. }
  assert (Hall : forall h e, e ∈ edges (tree_universe t) h -> (u_rank (tree_universe t) e < u_rank (tree_universe t) h)%nat /\ e <> 0 /\ wf_hash e).
  { intros h e (s & Hs & <- & He)%Hedge. pose proof (tree_fine_nodes t s Ht Hs) as Hf. unfold node_fine in Hf. cbv zeta in Hf. rewrite !andb_true_iff, forallb_forall in Hf.
    destruct Hf as [[[[_ Hf] _] _] _]. apply list_elem_of_In in He. specialize (Hf e He). rewrite !andb_true_iff, negb_true_iff in Hf.
    destruct Hf as [[[Hr Hz] Hlo] Hhi]. apply Nat.ltb_lt in Hr. apply Z.eqb_neq in Hz. split_and!; [done|done|split; lia]. }
  constructor; [by apply Hall|intros h e He; by apply Hall in He as (_ & ? & ?)| |].
  - intros h Hh. cbn in Hh. apply list_elem_of_fmap in Hh as (s & -> & [_ Hs]%list_elem_of_filter). pose proof (tree_fine_nodes t s Ht Hs) as Hf.
    unfold node_fine in Hf. cbv zeta in Hf. rewrite !andb_true_iff, negb_true_iff in Hf. destruct Hf as [[[_ Hz] Hlo] Hhi]. apply Z.eqb_neq in Hz. split; [done|split; lia].
  - unfold tree_fine in Ht. rewrite !andb_true_iff in Ht. destruct Ht as [_ Ht]. lia.
Qed.

Lemma tree_covers t : tree_fine t = true -> canon t -> tfits t -> solid t -> covers (tree_universe t) (fun _ => []) t.
Proof.
  intros Ht Hc Hf Hs.
  assert (Hnode : forall s, node_of s t -> u_blobs (tree_universe t) (hash_of s) = enc s /\ (canon s -> u_inner (tree_universe t) (hash_of s) = node_hashes s)).
  { intros s Hn. pose proof (tree_fine_nodes t s Ht (node_subtrees s t Hn)) as Hx. unfold node_fine in Hx. cbv zeta in Hx. rewrite !andb_true_iff, orb_true_iff in Hx.
    destruct Hx as [[[[[Hb Hi] _] _] _] _]. apply bool_decide_eq_true in Hb. split; [done|]. intros Hcs. destruct Hi as [Hv|Hi]; [by destruct Hcs|].
    by apply bool_decide_eq_true in Hi. }
  constructor; [done..| | | | |].
  - unfold tree_fine in Ht. rewrite !andb_true_iff, negb_true_iff in Ht. destruct Ht as [[_ Ht] _]. by apply Z.eqb_neq.
  - intros s Hn Hcs. apply list_elem_of_fmap. exists s. split; [done|]. apply list_elem_of_filter. split; [by destruct Hcs|by apply node_subtrees].
  - intros s Hn. by apply Hnode.
  - intros s Hn. by apply Hnode.
  - intros s e Hn Hcs. cbn. destruct s as [v|k [v|k' s|ts]|ts]; cbn; done.
Qed.
End Universe.

(** ** The trie *)

Definition stored_ops : list trie_op := [TUpdate sample_k1 (replicate 40 Byte.xaa); TUpdate sample_k3 [Byte.x07]].
Definition stored_map : bytes -> option bytes := map_of stored_ops (fun _ => None).
Definition stored_root : node := snd (trie_run (crypto:=trie_crypto) (db_reads db0) stored_ops nilNode).
Definition stored_tree : tree := default (TVal []) (node_tree stored_root).
Local Abbreviation stored_universe := (tree_universe (crypto:=trie_crypto) stored_tree).

Lemma stored_holds : loads (db_reads db0) (okf (crypto:=trie_crypto) (db_reads db0)) (okh (crypto:=trie_crypto) (db_reads db0)) true stored_root (Some stored_tree) /\
  tree_holds (Some stored_tree) stored_map.
Proof.
  destruct (trie_run_ok (crypto:=trie_crypto) (db_reads db0) stored_ops nilNode _ (holds_empty _)) as (r & E & ot & Hl & Hm);
    [repeat constructor; vm_compute; discriminate|].
  assert (r = stored_root) as -> by (unfold stored_root; by rewrite E). destruct ot as [t|]; [|by apply loads_None_inv in Hl; vm_compute in Hl].
  assert (Ht : node_tree stored_root = Some t) by (eapply loads_tree; [exact Hl|by vm_compute]).
  assert (stored_tree = t) as -> by (unfold stored_tree; by rewrite Ht). done.
Qed.

Lemma stored_fine : tree_fine (crypto:=trie_crypto) stored_tree = true.
Proof. vm_compute. reflexivity. Qed.

Lemma stored_covers : covers (crypto:=trie_crypto) stored_universe (fun _ => []) stored_tree.
Proof.
  destruct stored_holds as [_ Hm]. destruct (tree_holds_ok (crypto:=trie_crypto) _ _ Hm) as [Hc Hf]. apply tree_covers; [apply stored_fine|done|done|].
  eapply (holds_solid _ _ 2); [exact Hm|]. intros k v Hk. unfold stored_map, map_of, stored_ops in Hk. cbn [foldl map_after] in Hk.
  destruct (decide (k = sample_k3)) as [->|]; [done|]. destruct (decide (k = sample_k1)) as [->|]; done.
Qed.

Lemma stored_client : client keys stored_universe db0 [].
Proof. apply cl_new; [by eexists|]. intros h b _ Hb. by rewrite memorydb_value in Hb. Qed.

