(* ===== verification/Hexutil.v ===== *)
(** Hexadecimal JSON encodings (common/hexutil/hexutil.go, common/hexutil/json.go):
    byte strings, quantities of any size and [uint64] quantities with the 0x
    prefix.  Texts are lists of 8-bit characters; [encoding/hex] and [strconv]
    belong to the standard library and are written out. *)
From stdpp Require Import prelude list strings.
From Stdlib Require Import ZArith Lia Ascii.
From S2P Require Import Prelude VarBytes RLP Crypto.
Local Open Scope Z_scope.

Abbreviation text := (list ascii) (only parsing).

(** *** Errors *)
Definition ErrEmptyString := ErrVar "ErrEmptyString" "empty hex string".
Definition ErrSyntax := ErrVar "ErrSyntax" "invalid hex string".
Definition ErrMissingPrefix := ErrVar "ErrMissingPrefix" "hex string without 0x prefix".
Definition ErrOddLength := ErrVar "ErrOddLength" "hex string of odd length".
Definition ErrEmptyNumber := ErrVar "ErrEmptyNumber" "hex string 0x".
Definition ErrLeadingZero := ErrVar "ErrLeadingZero" "hex number with leading zero digits".
Definition ErrUint64Range := ErrVar "ErrUint64Range" "hex number > 64 bits".
Definition ErrUintRange := ErrVar "ErrUintRange" "hex number > 64 bits".
Definition ErrBig256Range := ErrVar "ErrBig256Range" "hex number > 256 bits".

Definition has0xPrefix (input : text) : bool :=
  match input with
  | c0 :: c1 :: _ => bool_decide (c0 = "0"%char) && (bool_decide (c1 = "x"%char) || bool_decide (c1 = "X"%char))
  | _ => false
  end.

(** [None] is [badNibble]. *)
Definition decodeNibble (c : ascii) : option Z :=
  let n := Z.of_N (N_of_ascii c) in
  if (48 <=? n) && (n <=? 57) then Some (n - 48)
  else if (65 <=? n) && (n <=? 70) then Some (n - 65 + 10)
  else if (97 <=? n) && (n <=? 102) then Some (n - 97 + 10)
  else None.

(** [hex.DecodeString]: the errors are an invalid byte or an odd length; a lone
    last character is looked at first. [mapError] turns them into the package's
    own. *)
Fixpoint hex_DecodeString (s : text) : outcome bytes :=
  match s with
  | [] => Ok []
  | [c] => match decodeNibble c with None => Err ErrSyntax | Some _ => Err ErrOddLength end
  | c1 :: c2 :: s' =>
      match decodeNibble c1, decodeNibble c2 with
      | Some a, Some b => (rest ← hex_DecodeString s'; Ok (z2b (a * 16 + b) :: rest))%stdpp
      | _, _ => Err ErrSyntax
      end
  end.

Definition Decode (input : text) : outcome bytes :=
  if (length input =? 0)%nat then Err ErrEmptyString
  else if negb (has0xPrefix input) then Err ErrMissingPrefix
  else hex_DecodeString (drop 2 input).

Definition Encode (b : bytes) : text := ["0"; "x"]%char ++ hex_chars b.

Definition checkNumber (input : text) : outcome text :=
  if (length input =? 0)%nat then Err ErrEmptyString
  else if negb (has0xPrefix input) then Err ErrMissingPrefix
  else
    let input := drop 2 input in
    match input with
    | [] => Err ErrEmptyNumber
    | c :: _ => if (1 <? length input)%nat && bool_decide (c = "0"%char) then Err ErrLeadingZero
                else Ok input
    end.

(** The digits of a number in base 16, most significant first, at least one;
    one digit per bit is enough fuel. *)
Fixpoint hex_digits (fuel : nat) (z : Z) : text :=
  match fuel with
  | O => [hex_digit (z mod 16)]
  | S f => if z <? 16 then [hex_digit z] else hex_digits f (z / 16) ++ [hex_digit (z mod 16)]
  end.
Definition base16 (z : Z) : text := hex_digits (Z.to_nat (Z.log2 z)) z.

(** [strconv.ParseUint(s, 16, 64)] on a non-empty string; the accumulator stops
    at the first character that is no digit or overflows 64 bits. *)
Fixpoint ParseUint16 (acc : Z) (s : text) : outcome Z :=
  match s with
  | [] => Ok acc
  | c :: s' =>
      match decodeNibble c with
      | None => Err ErrSyntax
      | Some d =>
          if maxU64 / 16 + 1 <=? acc then Err ErrUint64Range
          else if maxU64 <? acc * 16 + d then Err ErrUint64Range
          else ParseUint16 (acc * 16 + d) s'
      end
  end.

Definition DecodeUint64 (input : text) : outcome Z :=
  (raw ← checkNumber input; ParseUint16 0 raw)%stdpp.
Definition EncodeUint64 (i : Z) : text := ["0"; "x"]%char ++ base16 i.

(** The nibbles of one [big.Word] of 64 bits. *)
Definition bigWordNibbles : nat := 16.
Fixpoint decode_word (w : Z) (s : text) : option Z :=
  match s with
  | [] => Some w
  | c :: s' => match decodeNibble c with
               | None => None
               | Some nib => decode_word (u64 (u64 (w * 16) + nib)) s'
               end
  end.

(** [for i := range words]: words are filled from the end of the text. *)
Fixpoint decode_words (n : nat) (raw : text) : option (list Z) :=
  match n with
  | O => Some []
  | S n' =>
      let start := (length raw - bigWordNibbles)%nat in
      w ← decode_word 0 (drop start raw);
      ws ← decode_words n' (take start raw);
      Some (w :: ws)
  end%stdpp.

(** [SetBits]: little-endian words. *)
Definition SetBits (ws : list Z) : Z := foldr (fun w acc => w + 2 ^ 64 * acc) 0 ws.

Definition decode_quantity (raw : text) : outcome Z :=
  if (64 <? length raw)%nat then Err ErrBig256Range
  else match decode_words (length raw / bigWordNibbles + 1) raw with
       | None => Err ErrSyntax
       | Some words => Ok (SetBits words)
       end.

Definition DecodeBig (input : text) : outcome Z :=
  (raw ← checkNumber input; decode_quantity raw)%stdpp.

(** [%#x] of a [big.Int] writes the sign before the prefix. *)
Definition EncodeBig (bigint : Z) : text :=
  if bigint =? 0 then ["0"; "x"; "0"]%char
  else (if bigint <? 0 then ["-"%char] else []) ++ ["0"; "x"]%char ++ base16 (Z.abs bigint).

(** *** The text methods of the JSON types *)

(** [checkText] and [checkNumberText] accept the empty text. *)
Definition checkText (input : text) (wantPrefix : bool) : outcome text :=
  if (length input =? 0)%nat then Ok []
  else
   (input ← (if has0xPrefix input then Ok (drop 2 input)
             else if wantPrefix then Err ErrMissingPrefix else Ok input);
    if negb (Nat.even (length input)) then Err ErrOddLength else Ok input)%stdpp.

Definition checkNumberText (input : text) : outcome text :=
  if (length input =? 0)%nat then Ok [] else checkNumber input.

Definition Bytes_UnmarshalText (input : text) : outcome bytes :=
  (raw ← checkText input true; hex_DecodeString raw)%stdpp.

(** Into an array of [n] bytes; [wantPrefix] is false for
    [UnmarshalFixedUnprefixedText]. *)
Definition UnmarshalFixed (wantPrefix : bool) (n : nat) (input : text) : outcome bytes :=
  (raw ← checkText input wantPrefix;
   if negb (length raw / 2 =? n)%nat then Err (ErrNew "hex string has wrong length")
   else if negb (forallb (fun c => bool_decide (is_Some (decodeNibble c))) raw) then Err ErrSyntax
   else hex_DecodeString raw)%stdpp.
Definition UnmarshalFixedText := UnmarshalFixed true.
Definition UnmarshalFixedUnprefixedText := UnmarshalFixed false.

Definition Big_UnmarshalText (input : text) : outcome Z :=
  (raw ← checkNumberText input; decode_quantity raw)%stdpp.

Definition Uint64_UnmarshalText (input : text) : outcome Z :=
  (raw ← checkNumberText input;
   if (16 <? length raw)%nat then Err ErrUint64Range
   else match decode_word 0 raw with None => Err ErrSyntax | Some dec => Ok dec end)%stdpp.

(** [uint] has 64 bits, so only the range error changes. *)
Definition Uint_UnmarshalText (input : text) : outcome Z :=
  match Uint64_UnmarshalText input with
  | Err e => if bool_decide (e = ErrUint64Range) then Err ErrUintRange else Err e
  | o => o
  end.

(** ** The word loop computes the base-16 value *)

(** The reference reading of a numeral. *)
Fixpoint nibbles (s : text) : option (list Z) :=
  match s with
  | [] => Some []
  | c :: s' => (d ← decodeNibble c; ds ← nibbles s'; Some (d :: ds))%stdpp
  end.
Fixpoint horner (acc : Z) (ds : list Z) : Z :=
  match ds with [] => acc | d :: ds' => horner (acc * 16 + d) ds' end.

Lemma decodeNibble_range c d : decodeNibble c = Some d -> nibble d.
Proof.
  unfold decodeNibble, nibble. intros H. repeat case_in H; simplify_eq.
  all: repeat match goal with E : _ && _ = true |- _ => apply andb_true_iff in E as [?%Z.leb_le ?%Z.leb_le] end; lia.
Qed.

Lemma nibbles_range s ds : nibbles s = Some ds -> Forall nibble ds.
Proof.
  revert ds. induction s as [|c s IH]; intros ds H; cbn in H; [by injection H as <-|].
  destruct (decodeNibble c) as [d|] eqn:Ed; [|done]. destruct (nibbles s) as [ds'|]; [|done].
  cbn in H. injection H as <-. constructor; [by eapply decodeNibble_range|by apply IH].
Qed.

Lemma nibbles_length s ds : nibbles s = Some ds -> length ds = length s.
Proof.
  revert ds. induction s as [|c s IH]; intros ds H; cbn in H; [by injection H as <-|].
  destruct (decodeNibble c); [|done]. destruct (nibbles s); [|done]. cbn in H. injection H as <-.
  cbn. by rewrite (IH _ eq_refl).
Qed.

Lemma nibbles_app s t :
  nibbles (s ++ t) = (ds ← nibbles s; dt ← nibbles t; Some (ds ++ dt))%stdpp.
Proof.
  induction s as [|c s IH]; cbn; [by destruct (nibbles t)|]. rewrite IH.
  destruct (decodeNibble c); [|done]. cbn. destruct (nibbles s); [|done]. cbn. by destruct (nibbles t).
Qed.

Lemma horner_app acc ds dt : horner acc (ds ++ dt) = horner (horner acc ds) dt.
Proof. revert acc. induction ds as [|d ds IH]; intros acc; [done|]. apply IH. Qed.

Lemma horner_shift ds acc : horner acc ds = acc * 16 ^ Z.of_nat (length ds) + horner 0 ds.
Proof.
  revert acc. induction ds as [|d ds IH]; intros acc; cbn [horner length]; [simpl; lia|].
  rewrite IH, (IH (0 * 16 + d)), Nat2Z.inj_succ, Z.pow_succ_r by lia. ring.
Qed.

Lemma horner_range ds : Forall nibble ds -> 0 <= horner 0 ds < 16 ^ Z.of_nat (length ds).
Proof.
  induction 1 as [|d ds Hd _ IH]; cbn [horner length]; [simpl; lia|]. unfold nibble in Hd.
  rewrite horner_shift, Nat2Z.inj_succ, Z.pow_succ_r by lia. nia.
Qed.

(** No word of at most 16 nibbles overflows. *)
Lemma decode_word_nibbles s : forall w k,
  (k + length s <= 16)%nat -> 0 <= w < 16 ^ Z.of_nat k ->
  decode_word w s = (fun ds => horner w ds) <$> nibbles s.
Proof.
  induction s as [|c s IH]; intros w k Hk Hw; [done|]. cbn in *.
  destruct (decodeNibble c) as [d|] eqn:Ed; [|done]. apply decodeNibble_range in Ed as Hd.
  unfold nibble in Hd.
  assert (Hp : 16 ^ Z.of_nat (S k) <= 2 ^ 64).
  { change (2 ^ 64) with (16 ^ 16). apply Z.pow_le_mono_r; lia. }
  rewrite Nat2Z.inj_succ, Z.pow_succ_r in Hp by lia.
  rewrite (u64_small (w * 16)), u64_small by (unfold in_u64; lia).
  rewrite (IH (w * 16 + d) (S k)) by (rewrite ?Nat2Z.inj_succ, ?Z.pow_succ_r; lia).
  cbn. by destruct (nibbles s).
Qed.

Lemma SetBits_cons w ws : SetBits (w :: ws) = w + 2 ^ 64 * SetBits ws.
Proof. done. Qed.
#[local] Arguments SetBits : simpl never.

Lemma decode_words_nibbles n : forall raw,
  (length raw < n * 16)%nat ->
  SetBits <$> decode_words n raw = horner 0 <$> nibbles raw.
Proof.
  induction n as [|n IH]; intros raw Hl; [lia|]. cbn [decode_words].
  set (start := (length raw - bigWordNibbles)%nat).
  assert (Hd : (length (drop start raw) <= 16)%nat)
    by (rewrite length_drop; unfold start, bigWordNibbles; lia).
  assert (nibbles raw = nibbles (take start raw ++ drop start raw)) as -> by (by rewrite take_drop).
  rewrite nibbles_app.
  rewrite (decode_word_nibbles _ 0 0) by (simpl; lia).
  destruct (decide (start = 0%nat)) as [Hs|Hs].
  - rewrite Hs, take_0, drop_0. cbn. destruct (nibbles raw) as [ds|]; [|done]. cbn.
    assert (decode_words n [] = Some (replicate n 0)) as ->.
    { clear. induction n as [|n IH]; [done|]. cbn. by rewrite IH. }
    cbn. f_equal. rewrite SetBits_cons. assert (SetBits (replicate n 0) = 0) as ->; [|lia].
    { clear. induction n as [|n IH]; [done|]. cbn [replicate]. rewrite SetBits_cons, IH. lia. }
  - assert (Hl16 : length (drop start raw) = 16%nat)
      by (rewrite length_drop; unfold start, bigWordNibbles in *; lia).
    specialize (IH (take start raw)). rewrite length_take in IH.
    specialize (IH ltac:(unfold start, bigWordNibbles in *; lia)).
    destruct (nibbles (drop start raw)) as [dt|] eqn:Et.
    + cbn. destruct (decode_words n _), (nibbles (take start raw)); try done.
      cbn in *. injection IH as IH. f_equal. rewrite SetBits_cons, horner_app, (horner_shift dt (horner 0 _)).
      apply nibbles_length in Et. rewrite Et, Hl16, IH. change (16 ^ Z.of_nat 16) with (2 ^ 64). lia.
    + cbn. by destruct (nibbles (take start raw)).
Qed.

Lemma decode_quantity_correct raw :
  (length raw <= 64)%nat ->
  decode_quantity raw = match nibbles raw with None => Err ErrSyntax | Some ds => Ok (horner 0 ds) end.
Proof.
  intros Hl. unfold decode_quantity. destruct (Nat.ltb_spec 64 (length raw)); [lia|].
  pose proof (decode_words_nibbles (length raw / bigWordNibbles + 1) raw) as Hw.
  pose proof (Nat.mod_upper_bound (length raw) bigWordNibbles ltac:(done)).
  pose proof (Nat.div_mod (length raw) bigWordNibbles ltac:(done)).
  assert (Hm : (length raw < (length raw / bigWordNibbles + 1) * 16)%nat)
    by (unfold bigWordNibbles in *; lia).
  specialize (Hw Hm). destruct (decode_words _ raw), (nibbles raw); cbn in Hw; congruence.
Qed.

(** ** Round trips *)

Lemma decodeNibble_hex_digit n : nibble n -> decodeNibble (hex_digit n) = Some n.
Proof. intros Hn. pattern n. apply nibble_cases; [|done]. repeat constructor. Qed.

Lemma hex_DecodeString_chars b : hex_DecodeString (hex_chars b) = Ok b.
Proof.
  induction b as [|x b IH]; [done|].
  change (hex_chars (x :: b)) with (hex_digit (b2z x / 16) :: hex_digit (b2z x mod 16) :: hex_chars b).
  cbn [hex_DecodeString]. destruct (byte_nibbles x).
  rewrite !decodeNibble_hex_digit by done. rewrite IH. cbn [mbind outcome_bind].
  rewrite (Z.mul_comm _ 16), <- Z.div_mod, z2b_b2z by lia. done.
Qed.

Lemma length_hex_chars b : length (hex_chars b) = (2 * length b)%nat.
Proof. induction b as [|x b IH]; [done|]. cbn [hex_chars flat_map app length] in *. unfold hex_chars in IH. lia. Qed.

Lemma nibbles_hex_digits fuel z :
  0 <= z < 16 ^ (Z.of_nat fuel + 1) ->
  exists ds, nibbles (hex_digits fuel z) = Some ds /\ horner 0 ds = z.
Proof.
  revert z. induction fuel as [|f IH]; intros z Hz; cbn [hex_digits].
  - exists [z]. rewrite Z.mod_small by (simpl in Hz; lia). cbn.
    rewrite decodeNibble_hex_digit by (unfold nibble; simpl in Hz; lia). done.
  - destruct (Z.ltb_spec z 16).
    + exists [z]. cbn. rewrite decodeNibble_hex_digit by (unfold nibble; lia). done.
    + destruct (IH (z / 16)) as (ds & E & Hv).
      { split; [apply Z.div_pos; lia|]. apply Z.div_lt_upper_bound; [lia|].
        rewrite Nat2Z.inj_succ in Hz. rewrite <- Z.pow_succ_r by lia.
        replace (Z.succ (Z.of_nat f + 1)) with (Z.succ (Z.of_nat f) + 1) by lia. lia. }
      pose proof (Z.mod_pos_bound z 16 ltac:(lia)).
      exists (ds ++ [z mod 16]). rewrite nibbles_app, E. cbn -[Z.modulo].
      rewrite decodeNibble_hex_digit by (unfold nibble; lia). cbn -[Z.modulo]. split; [done|].
      rewrite horner_app, Hv. cbn -[Z.modulo Z.div]. rewrite (Z.div_mod z 16) at 3 by lia. lia.
Qed.

Lemma base16_fuel z : 0 <= z -> 0 <= z < 16 ^ (Z.of_nat (Z.to_nat (Z.log2 z)) + 1).
Proof.
  intros Hz. split; [done|]. pose proof (Z.log2_nonneg z). rewrite Z2Nat.id by done.
  destruct (Z.eq_dec z 0) as [->|Hne]; [simpl; lia|].
  pose proof (Z.log2_spec z ltac:(lia)) as [_ Hl]. eapply Z.lt_le_trans; [exact Hl|].
  rewrite <- Z.add_1_r. apply Z.pow_le_mono_l. lia.
Qed.

Lemma base16_nibbles z : 0 <= z -> exists ds, nibbles (base16 z) = Some ds /\ horner 0 ds = z.
Proof. intros Hz. by apply nibbles_hex_digits, base16_fuel. Qed.

Lemma hex_digits_length fuel z k :
  0 <= z < 16 ^ (Z.of_nat k + 1) -> (length (hex_digits fuel z) <= k + 1)%nat.
Proof.
  revert z k. induction fuel as [|f IH]; intros z k Hz; cbn; [lia|].
  destruct (Z.ltb_spec z 16); cbn; [lia|]. rewrite length_app. cbn.
  destruct k as [|k]; [simpl in Hz; lia|]. specialize (IH (z / 16) k).
  enough (length (hex_digits f (z / 16)) <= k + 1)%nat by lia. apply IH.
  split; [apply Z.div_pos; lia|]. apply Z.div_lt_upper_bound; [lia|].
  rewrite <- Z.pow_succ_r by lia. rewrite Nat2Z.inj_succ in Hz.
  replace (Z.succ (Z.of_nat k + 1)) with (Z.succ (Z.of_nat k) + 1) by lia. lia.
Qed.

(** The numeral has no leading zero. *)
Lemma hex_digits_head fuel z :
  0 <= z -> exists c l, hex_digits fuel z = c :: l /\ (16 <= z < 16 ^ (Z.of_nat fuel + 1) -> c <> "0"%char).
Proof.
  revert z. induction fuel as [|f IH]; intros z Hz; cbn [hex_digits].
  - eexists _, _. split; [done|]. simpl. lia.
  - destruct (Z.ltb_spec z 16); [eexists _, _; split; [done|lia]|].
    destruct (IH (z / 16)) as (c & l & E & Hc); [apply Z.div_pos; lia|].
    rewrite E. eexists _, _. split; [done|]. intros Hb.
    assert (Hq : 1 <= z / 16 < 16 ^ (Z.of_nat f + 1)).
    { split; [apply Z.div_le_lower_bound; lia|]. apply Z.div_lt_upper_bound; [lia|].
      rewrite <- Z.pow_succ_r by lia. rewrite Nat2Z.inj_succ in Hb.
      replace (Z.succ (Z.of_nat f + 1)) with (Z.succ (Z.of_nat f) + 1) by lia. lia. }
    destruct (Z.le_gt_cases 16 (z / 16)); [apply Hc; lia|].
    destruct f; cbn [hex_digits] in E.
    + rewrite Z.mod_small in E by lia. injection E as <- <-. intros E0.
      apply (hex_digit_inj (z / 16) 0) in E0; unfold nibble; lia.
    + destruct (Z.ltb_spec (z / 16) 16); [|lia]. injection E as <- <-. intros E0.
      apply (hex_digit_inj (z / 16) 0) in E0; unfold nibble; lia.
Qed.

Lemma checkNumber_base16 z : 0 <= z -> checkNumber (["0"; "x"]%char ++ base16 z) = Ok (base16 z).
Proof.
  intros Hz. destruct (hex_digits_head (Z.to_nat (Z.log2 z)) z Hz) as (c & l & E & Hc).
  change (base16 z) with (hex_digits (Z.to_nat (Z.log2 z)) z). rewrite E. unfold checkNumber.
  cbn [length app Nat.eqb drop]. change (has0xPrefix _) with true. cbn [negb].
  destruct l as [|c' l]; [done|]. change (1 <? _)%nat with true.
  rewrite bool_decide_false; [done|]. apply Hc. pose proof (base16_fuel z Hz). split; [|lia].
  destruct (Z.le_gt_cases 16 z); [done|]. exfalso.
  pose proof (hex_digits_length (Z.to_nat (Z.log2 z)) z 0 ltac:(simpl; lia)) as Hk.
  rewrite E in Hk. cbn in Hk. lia.
Qed.

Lemma base16_length z k : 0 <= z < 16 ^ (Z.of_nat k + 1) -> (length (base16 z) <= k + 1)%nat.
Proof. intros Hz. by apply hex_digits_length. Qed.

Lemma quantity_base16 z : 0 <= z < 2 ^ 256 -> decode_quantity (base16 z) = Ok z.
Proof.
  intros Hz. pose proof (base16_length z 63 Hz) as Hl. rewrite decode_quantity_correct by lia.
  destruct (base16_nibbles z ltac:(lia)) as (ds & -> & Hv). by rewrite Hv.
Qed.

Lemma ParseUint16_nibbles s : forall acc ds,
  0 <= acc -> nibbles s = Some ds -> horner acc ds <= maxU64 -> ParseUint16 acc s = Ok (horner acc ds).
Proof.
  induction s as [|c s IH]; intros acc ds Ha E Hm; cbn in E; [by injection E as <-|].
  destruct (decodeNibble c) as [d|] eqn:Ed; [|done]. apply decodeNibble_range in Ed as Hd.
  destruct (nibbles s) as [ds'|] eqn:Es; [|done]. cbn in E. injection E as <-. cbn [ParseUint16 horner] in *.
  rewrite Ed. unfold nibble in Hd. rewrite (horner_shift ds') in Hm.
  pose proof (horner_range ds' (nibbles_range _ _ Es)).
  assert (0 < 16 ^ Z.of_nat (length ds')) by (apply Z.pow_pos_nonneg; lia).
  assert (acc * 16 + d <= maxU64) by nia. unfold maxU64 in *. change ((2 ^ 64 - 1) / 16) with (2 ^ 60 - 1).
  zcases. apply IH; [lia|done|]. rewrite horner_shift. lia.
Qed.

Lemma checkText_Encode b : checkText (Encode b) true = Ok (hex_chars b).
Proof.
  change (checkText (Encode b) true) with
    (if negb (Nat.even (length (hex_chars b))) then Err ErrOddLength else Ok (hex_chars b)).
  by rewrite length_hex_chars, Nat.even_mul.
Qed.

Lemma hex_chars_nibbles b : forallb (fun c => bool_decide (is_Some (decodeNibble c))) (hex_chars b) = true.
Proof.
  apply forallb_forall. intros c Hc. apply bool_decide_eq_true.
  apply in_flat_map in Hc as (x & _ & Hc). destruct (byte_nibbles x).
  destruct Hc as [<-|[<-|[]]]; rewrite decodeNibble_hex_digit by done; by eexists.
Qed.

(** byte strings and quantities survive the JSON encoding: a decoded encoding
    is the value itself, for byte strings, for numbers below 2^256 (the loop over
    64-bit words agrees with the base-16 value) and for every [uint64]. *)
Theorem hexutil_roundtrip (b : bytes) (z i : Z) :
  0 <= z < 2 ^ 256 -> in_u64 i ->
  Decode (Encode b) = Ok b /\ Bytes_UnmarshalText (Encode b) = Ok b /\
  UnmarshalFixedText (length b) (Encode b) = Ok b /\
  DecodeBig (EncodeBig z) = Ok z /\ Big_UnmarshalText (EncodeBig z) = Ok z /\
  DecodeUint64 (EncodeUint64 i) = Ok i /\ Uint64_UnmarshalText (EncodeUint64 i) = Ok i.
Proof.
  intros Hz Hi. assert (HB : EncodeBig z = ["0"; "x"]%char ++ base16 z).
  { unfold EncodeBig. destruct (Z.eqb_spec z 0) as [->|]; [done|].
    destruct (Z.ltb_spec z 0); [lia|]. by rewrite Z.abs_eq by lia. }
  assert (HN : forall n, 0 <= n -> checkNumberText (["0"; "x"]%char ++ base16 n) = Ok (base16 n)).
  { intros n Hn. unfold checkNumberText. cbn [length app Nat.eqb]. by apply checkNumber_base16. }
  destruct (base16_nibbles i) as (ds & Ed & Hv); [apply Hi|].
  pose proof (base16_length i 15) as Hl. assert (Hi' : 0 <= i < 16 ^ 16) by exact Hi.
  repeat apply conj.
  - apply hex_DecodeString_chars.
  - unfold Bytes_UnmarshalText. rewrite checkText_Encode. apply hex_DecodeString_chars.
  - unfold UnmarshalFixedText, UnmarshalFixed. rewrite checkText_Encode. cbn [mbind outcome_bind].
    rewrite length_hex_chars, Nat.mul_comm, Nat.div_mul, Nat.eqb_refl by lia. cbn [negb].
    rewrite hex_chars_nibbles. apply hex_DecodeString_chars.
  - unfold DecodeBig. rewrite HB, checkNumber_base16 by lia. by apply quantity_base16.
  - unfold Big_UnmarshalText. rewrite HB, HN by lia. by apply quantity_base16.
  - unfold DecodeUint64, EncodeUint64. rewrite checkNumber_base16 by lia. cbn [mbind outcome_bind].
    rewrite (ParseUint16_nibbles _ 0 ds), Hv; [done|lia|done|]. unfold maxU64. lia.
  - unfold Uint64_UnmarshalText, EncodeUint64. rewrite HN by lia. cbn [mbind outcome_bind].
    destruct (Nat.ltb_spec 16 (length (base16 i))); [lia|].
    rewrite (decode_word_nibbles _ 0 0), Ed by (simpl; lia). cbn. by rewrite Hv.
Qed.

Lemma hexutil_roundtrip_witness :
  DecodeBig (EncodeBig 0xDEADBEEF0123456789ABCDEF) = Ok 0xDEADBEEF0123456789ABCDEF.
Proof.
  apply (hexutil_roundtrip [] 0xDEADBEEF0123456789ABCDEF 5); unfold in_u64; lia.
Defined.

(** The sign of a negative number is not ignored: it is written before the prefix,
    and the text is not decoded back. *)
Lemma EncodeBig_negative z :
  z < 0 -> EncodeBig z = "-"%char :: EncodeBig (- z) /\ DecodeBig (EncodeBig z) = Err ErrMissingPrefix.
Proof.
  intros Hz. unfold EncodeBig. destruct (Z.eqb_spec z 0), (Z.eqb_spec (- z) 0); try lia.
  destruct (Z.ltb_spec z 0), (Z.ltb_spec (- z) 0); try lia. by rewrite Z.abs_opp.
Qed.
