(* ===== verification/Transaction.v ===== *)
(** Transactions, their RLP form and hash, and signature handling
    (core/types/transaction.go, core/types/transaction_signing.go).

    A [Transaction] carries the three caches of the Go struct ([hash], [size],
    [from]); methods on [*Transaction] are computations over that record. *)
From stdpp Require Import prelude list strings.
From Stdlib Require Import ZArith Lia.
From S2P Require Import Prelude VarBytes TxMeta RLP RLPStream RLPStreamFacts RLPDecode Crypto.
Local Open Scope Z_scope.

(** ** Data *)

(** The [*big.Int] fields are never nil: the constructors, the RLP decoder and the
    JSON decoder ([gencodec:"required"]) all set them. *)
Record txdata := mkTxdata {
  AccountNonce : Z; Price : Z; GasLimit : Z; Recipient : option address;
  Amount : Z; Payload : bytes; dV : Z; dR : Z; dS : Z }.

Inductive Signer := EIP155Signer (chainId : Z) | HomesteadSigner | FrontierSigner.

Record Transaction := mkTx {
  data : txdata; meta : TransactionMeta;
  t_hash : option hash; t_size : option Z; t_from : option (Signer * address);
  l2tx : Z }.

Record SeqSign := { sR : option Z; sS : option Z; sV : option Z }.

#[export] Instance txdata_eq_decision : EqDecision txdata.
Proof. solve_decision. Defined.
#[export] Instance Signer_eq_decision : EqDecision Signer.
Proof. solve_decision. Defined.
#[export] Instance Transaction_eq_decision : EqDecision Transaction.
Proof. solve_decision. Defined.

Definition with_meta (m : TransactionMeta) (t : Transaction) : Transaction :=
  mkTx (data t) m (t_hash t) (t_size t) (t_from t) (l2tx t).
Definition with_hash (h : option hash) (t : Transaction) : Transaction :=
  mkTx (data t) (meta t) h (t_size t) (t_from t) (l2tx t).
Definition with_size (n : option Z) (t : Transaction) : Transaction :=
  mkTx (data t) (meta t) (t_hash t) n (t_from t) (l2tx t).
Definition with_from (f : option (Signer * address)) (t : Transaction) : Transaction :=
  mkTx (data t) (meta t) (t_hash t) (t_size t) f (l2tx t).

Definition meta_set_index (i : option Z) (m : TransactionMeta) : TransactionMeta :=
  mkMeta (L1BlockNumber m) (L1Timestamp m) (L1MessageSender m) (QueueOrigin m) i
    (QueueIndex m) (RawTransaction m) (mR m) (mS m) (mV m).
Definition meta_set_ts (ts : Z) (m : TransactionMeta) : TransactionMeta :=
  mkMeta (L1BlockNumber m) ts (L1MessageSender m) (QueueOrigin m) (Index m)
    (QueueIndex m) (RawTransaction m) (mR m) (mS m) (mV m).
Definition meta_set_bn (bn : option Z) (m : TransactionMeta) : TransactionMeta :=
  mkMeta bn (L1Timestamp m) (L1MessageSender m) (QueueOrigin m) (Index m)
    (QueueIndex m) (RawTransaction m) (mR m) (mS m) (mV m).
Definition meta_set_sign (r s v : option Z) (m : TransactionMeta) : TransactionMeta :=
  mkMeta (L1BlockNumber m) (L1Timestamp m) (L1MessageSender m) (QueueOrigin m) (Index m)
    (QueueIndex m) (RawTransaction m) r s v.
Definition meta_fill (m : TransactionMeta) : TransactionMeta :=
  mkMeta (L1BlockNumber m) (L1Timestamp m) (Some (default 0 (L1MessageSender m))) (QueueOrigin m)
    (Some (default 0 (Index m))) (Some (default 0 (QueueIndex m))) (RawTransaction m)
    (mR m) (mS m) (mV m).

(** ** Construction and accessors *)

Definition newTransaction (nonce : Z) (to : option address) (amount : option Z) (gasLimit : Z)
    (gasPrice : option Z) (payload : bytes) : Transaction :=
  let meta := NewTransactionMeta None 0 None QueueOriginSequencer None None None in
  mkTx (mkTxdata nonce (default 0 gasPrice) gasLimit to (default 0 amount) payload 0 0 0)
    meta None None None 0.
Definition NewTransaction (nonce : Z) (to : address) := newTransaction nonce (Some to).
Definition NewContractCreation (nonce : Z) := newTransaction nonce None.

Definition SetTransactionMeta (m : option TransactionMeta) (t : Transaction) : Transaction :=
  match m with None => t | Some m => with_meta m t end.
Definition SetIndex (index : Z) (t : Transaction) := with_meta (meta_set_index (Some index) (meta t)) t.
Definition SetL1Timestamp (ts : Z) (t : Transaction) := with_meta (meta_set_ts ts (meta t)) t.
Definition SetL1BlockNumber (bn : Z) (t : Transaction) := with_meta (meta_set_bn (Some bn) (meta t)) t.
Definition SetL2Tx (n : Z) (t : Transaction) : Transaction :=
  mkTx (data t) (meta t) (t_hash t) (t_size t) (t_from t) n.
Definition SetSeqSign (s : SeqSign) (t : Transaction) : Transaction :=
  with_meta (meta_set_sign (sR s) (sS s) (sV s) (meta t)) t.

(** A zero [R] counts as no signature. *)
Definition GetSeqSign (t : Transaction) : option SeqSign :=
  match mR (meta t) with
  | None => None
  | Some r => if r =? 0 then None
              else Some {| sR := mR (meta t); sS := mS (meta t); sV := mV (meta t) |}
  end.

Definition Cost (t : Transaction) : Z := Price (data t) * GasLimit (data t) + Amount (data t).

(** ** RLP form *)

(** [writeBigInt] rejects negative integers. *)
Definition big_out (z : Z) : outcome item :=
  if z <? 0 then Err (ErrNew "rlp: cannot encode negative *big.Int") else Ok (big_item z).
Definition big_ptr_out (p : option Z) : outcome item :=
  match p with None => Ok (Str []) | Some z => big_out z end.
Definition addr_item (a : address) : item := Str (addr_bytes a).

Definition txdata_item (d : txdata) : outcome item :=
  (price ← big_out (Price d); amount ← big_out (Amount d);
   v ← big_out (dV d); r ← big_out (dR d); s ← big_out (dS d);
   Ok (Lst [uint_item (AccountNonce d); price; uint_item (GasLimit d);
            ptr_item addr_item (Recipient d); amount; Str (Payload d); v; r; s]))%stdpp.

(** [TransactionMeta.EncodeRLP]: seven fields without a sequencer signature
    (version 1), ten with one (version 2). *)
Definition meta_item (m : TransactionMeta) : outcome item :=
  (bn ← big_ptr_out (L1BlockNumber m);
   let common := [bn; uint_item (L1Timestamp m); ptr_item addr_item (L1MessageSender m);
     uint_item (QueueOrigin m); ptr_item uint_item (Index m); ptr_item uint_item (QueueIndex m);
     Str (default [] (RawTransaction m))] in
   match mR m with
   | None => Ok (Lst common)
   | Some _ =>
       r ← big_ptr_out (mR m); s ← big_ptr_out (mS m); v ← big_ptr_out (mV m);
       Ok (Lst (common ++ [r; s; v]))
   end)%stdpp.

(** [Transaction.EncodeRLP]: the bare data for peers ([l2tx = 2]), data and
    metadata otherwise. *)
Definition tx_item (t : Transaction) : outcome item :=
  if l2tx t =? 2 then txdata_item (data t)
  else (d ← txdata_item (data t); m ← meta_item (meta t); Ok (Lst [d; m]))%stdpp.

Definition encoded (o : outcome item) : outcome bytes := (it ← o; Ok (EncodeToBytes it))%stdpp.

(** What [rlp.Encode] wrote before an error: nothing. *)
Definition written (o : outcome item) : bytes :=
  match encoded o with Ok b => b | _ => [] end.

Section Tx.
Context {crypto : Crypto}.

Definition rlpHash (o : outcome item) : hash := Keccak256Hash (written o).

(** [Hash] and [Size] fill their caches. *)
Definition Hash : M Transaction hash :=
  t ← getS;
  match t_hash t with
  | Some h => ret h
  | None => let v := rlpHash (txdata_item (data t)) in modS (with_hash (Some v)) ;; ret v
  end.

Definition Size : M Transaction Z :=
  t ← getS;
  match t_size t with
  | Some n => ret n
  | None =>
      let c := Z.of_nat (length (written (txdata_item (data t)))) in
      modS (with_size (Some c)) ;; ret c
  end.

(** ** Signers *)

Definition ErrInvalidSig := ErrVar "ErrInvalidSig" "invalid transaction v, r, s values".
Definition ErrInvalidChainId := ErrVar "ErrInvalidChainId" "invalid chain id for signer".

Definition BitLen (z : Z) : Z := if z =? 0 then 0 else Z.log2 (Z.abs z) + 1.

Definition isProtectedV (V : Z) : bool :=
  if BitLen V <=? 8 then
    let v := big_uint64 V in negb (v =? 27) && negb (v =? 28)
  else true.

Definition deriveChainId (v : Z) : Z :=
  if BitLen v <=? 64 then
    let v := big_uint64 v in
    if (v =? 27) || (v =? 28) then 0 else u64 (v - 35) / 2
  else (v - 35) / 2.

Definition Signer_Equal (s1 s2 : Signer) : bool :=
  match s1, s2 with
  | EIP155Signer c1, EIP155Signer c2 => c2 =? c1
  | HomesteadSigner, HomesteadSigner | FrontierSigner, FrontierSigner => true
  | _, _ => false
  end.

(** The item list the signature hash is taken of. *)
Definition sighash_item (s : Signer) (d : txdata) : outcome item :=
  (price ← big_out (Price d); amount ← big_out (Amount d);
   let six := [uint_item (AccountNonce d); price; uint_item (GasLimit d);
               ptr_item addr_item (Recipient d); amount; Str (Payload d)] in
   match s with
   | EIP155Signer chainId =>
       c ← big_out chainId; Ok (Lst (six ++ [c; uint_item 0; uint_item 0]))
   | _ => Ok (Lst six)
   end)%stdpp.
Definition Signer_Hash (s : Signer) (t : Transaction) : hash := rlpHash (sighash_item s (data t)).

(** [copy(sig[32-len(r):32], r)]: a value of more than 32 bytes makes the slice
    bounds negative. *)
Definition sig_field (z : Z) : outcome bytes :=
  if (32 <? length (big_bytes z))%nat then Panic "slice bounds out of range"
  else Ok (replicate (32 - length (big_bytes z)) Byte.x00 ++ big_bytes z).

Definition recoverPlain (sighash : hash) (R S Vb : Z) (homestead : bool) : outcome address :=
  if 8 <? BitLen Vb then Err ErrInvalidSig
  else
    let V := u8 (big_uint64 Vb - 27) in
    if negb (ValidateSignatureValues V R S homestead) then Err ErrInvalidSig
    else
      (r ← sig_field R; s ← sig_field S;
       pub ← Ecrecover (hash_bytes sighash) (r ++ s ++ [z2b V]);
       match pub with
       | p0 :: rest =>
           if b2z p0 =? 4 then Ok (BytesToAddress (drop 12 (keccak256 rest)))
           else Err (ErrNew "invalid public key")
       | [] => Err (ErrNew "invalid public key")
       end)%stdpp.

Definition Signer_Sender (s : Signer) (t : Transaction) : outcome address :=
  let d := data t in
  match s with
  | FrontierSigner => recoverPlain (Signer_Hash FrontierSigner t) (dR d) (dS d) (dV d) false
  | HomesteadSigner => recoverPlain (Signer_Hash HomesteadSigner t) (dR d) (dS d) (dV d) true
  | EIP155Signer chainId =>
      if negb (isProtectedV (dV d))
      then recoverPlain (Signer_Hash HomesteadSigner t) (dR d) (dS d) (dV d) true
      else if negb (deriveChainId (dV d) =? chainId) then Err ErrInvalidChainId
      else recoverPlain (Signer_Hash s t) (dR d) (dS d) (dV d - chainId * 2 - 8) true
  end.

(** [Sender], with the cache of the last derivation. *)
Definition Sender (signer : Signer) : M Transaction address :=
  t ← getS;
  match t_from t with
  | Some (sc, from) =>
      if Signer_Equal sc signer then ret from
      else
        addr ← lift_out (Signer_Sender signer t);
        modS (with_from (Some (signer, addr))) ;; ret addr
  | None =>
      addr ← lift_out (Signer_Sender signer t);
      modS (with_from (Some (signer, addr))) ;; ret addr
  end.

(** [SignatureValues]: [R || S || V] split into integers. *)
Definition SignatureValues (s : Signer) (sig : bytes) : outcome (Z * Z * Z) :=
  if negb (length sig =? SignatureLength)%nat then Panic "wrong size for signature"
  else
    let last := b2z (nth 64 sig Byte.x00) in
    let r := be_value (take 32 sig) in
    let sv := be_value (take 32 (drop 32 sig)) in
    let v := u8 (last + 27) in
    match s with
    | EIP155Signer chainId =>
        Ok (r, sv, if chainId =? 0 then v else u8 (last + 35) + chainId * 2)
    | _ => Ok (r, sv, v)
    end.

Definition WithSignature (signer : Signer) (sig : bytes) (t : Transaction) : outcome Transaction :=
  ('(r, s, v) ← SignatureValues signer sig;
   let d := data t in
   Ok (mkTx (mkTxdata (AccountNonce d) (Price d) (GasLimit d) (Recipient d) (Amount d) (Payload d) v r s)
         (meta t) None None None 0))%stdpp.

(** ** Messages *)

Record Message := mkMessage {
  m_to : option address; m_from : address; m_nonce : Z; m_amount : Z; m_gasLimit : Z;
  m_gasPrice : Z; m_data : bytes; m_checkNonce : bool;
  m_l1Timestamp : Z; m_l1BlockNumber : option Z; m_queueOrigin : Z }.

(** [AsMessage] fills the nil metadata pointers of the transaction it is called
    on. *)
Definition AsMessage (UsingOVM : bool) (s : Signer) : M Transaction Message :=
  modS (fun t => with_meta (meta_fill (meta t)) t) ;;
  t ← getS;
  let d := data t in
  from ← (if UsingOVM then
            match L1MessageSender (meta t) with
            | Some sender => if QueueOrigin (meta t) =? QueueOriginL1ToL2 then ret sender else Sender s
            | None => Sender s
            end
          else Sender s);
  ret {| m_to := Recipient d; m_from := from; m_nonce := AccountNonce d; m_amount := Amount d;
         m_gasLimit := GasLimit d; m_gasPrice := Price d; m_data := Payload d; m_checkNonce := true;
         m_l1Timestamp := L1Timestamp (meta t); m_l1BlockNumber := L1BlockNumber (meta t);
         m_queueOrigin := QueueOrigin (meta t) |}.
End Tx.

(** ** Fixed-width integers in signatures *)

Lemma sig_field_be_value b : length b = 32%nat -> sig_field (be_value b) = Ok b.
Proof.
  intros Hl. unfold sig_field.
  assert (Hb : (length (big_bytes (be_value b)) <= 32)%nat).
  { apply length_big_bytes. pose proof (be_value_range b) as Hr. rewrite Hl in Hr. lia. }
  destruct (Nat.ltb_spec 32 (length (big_bytes (be_value b)))); [lia|]. f_equal.
  apply be_value_inj; [rewrite length_app, length_replicate; lia|].
  rewrite be_value_zeros, be_value_big_bytes. apply Z.abs_eq, be_value_nonneg.
Qed.

(** ** Signing and recovering *)

Lemma BitLen_le z n : 0 <= n -> Z.abs z < 2 ^ n -> BitLen z <= n.
Proof.
  intros Hn Hz. unfold BitLen. destruct (Z.eqb_spec z 0); [lia|].
  assert (Z.log2 (Z.abs z) < n) by (apply Z.log2_lt_pow2; lia). lia.
Qed.

Lemma BitLen_gt z n : 0 <= n -> n < BitLen z -> 2 ^ n <= Z.abs z.
Proof.
  intros Hn Hz. destruct (Z.le_gt_cases (2 ^ n) (Z.abs z)); [done|].
  assert (BitLen z <= n) by (by apply BitLen_le). lia.
Qed.

Lemma BitLen_bound z n : 0 <= n -> BitLen z <= n -> Z.abs z < 2 ^ n.
Proof.
  intros Hn. unfold BitLen. destruct (Z.eqb_spec z 0) as [->|Hz]; intros Hl.
  - simpl. apply Z.pow_pos_nonneg; lia.
  - apply Z.log2_lt_pow2; lia.
Qed.

(** The [V] of an EIP-155 signature for chain [c] with recovery id [v]. *)
Lemma deriveChainId_V c v : 1 <= c -> 0 <= v <= 1 -> deriveChainId (v + 35 + c * 2) = c.
Proof.
  intros Hc Hv.
  assert (Hd : (v + 35 + c * 2 - 35) / 2 = c).
  { replace (v + 35 + c * 2 - 35) with (v + c * 2) by lia.
    rewrite Z.div_add by lia. assert (v / 2 = 0) by (apply Z.div_small; lia). lia. }
  unfold deriveChainId, big_uint64. cbv zeta.
  destruct (Z.leb_spec (BitLen (v + 35 + c * 2)) 64) as [Hb|_]; [|done].
  apply BitLen_bound in Hb; [|lia]. rewrite Z.abs_eq in * by lia.
  rewrite !u64_small by (unfold in_u64; lia).
  destruct (Z.eqb_spec (v + 35 + c * 2) 27), (Z.eqb_spec (v + 35 + c * 2) 28); [lia..|done].
Qed.

Lemma isProtectedV_V c v : 1 <= c -> 0 <= v <= 1 -> isProtectedV (v + 35 + c * 2) = true.
Proof.
  intros Hc Hv. unfold isProtectedV, big_uint64. cbv zeta.
  destruct (Z.leb_spec (BitLen (v + 35 + c * 2)) 8) as [Hb|_]; [|done].
  apply BitLen_bound in Hb; [|lia]. rewrite Z.abs_eq in * by lia.
  rewrite !u64_small by (unfold in_u64; lia). by zcases.
Qed.

(** A signature as the signing library returns it: 65 bytes, recovery id 0 or 1,
    and values in the range Homestead accepts. *)
Record wf_sig (sig : bytes) : Prop := {
  sig_len : length sig = 65%nat;
  sig_valid : ValidateSignatureValues (b2z (nth 64 sig Byte.x00))
                (be_value (take 32 sig)) (be_value (take 32 (drop 32 sig))) true = true }.

Lemma wf_sig_v sig : wf_sig sig -> 0 <= b2z (nth 64 sig Byte.x00) <= 1.
Proof.
  intros [_ H]. unfold ValidateSignatureValues in H. repeat case_in H; try discriminate.
  apply andb_true_iff in H as [_ H]. apply orb_true_iff in H as [H|H]; apply Z.eqb_eq in H; lia.
Qed.

Lemma sig_split (sig : bytes) : length sig = 65%nat ->
  take 32 sig ++ take 32 (drop 32 sig) ++ [nth 64 sig Byte.x00] = sig.
Proof.
  intros Hl. rewrite <- (take_drop 32 sig) at 4. f_equal.
  rewrite <- (take_drop 32 (drop 32 sig)) at 2. f_equal.
  rewrite drop_drop. change (32 + 32)%nat with 64%nat. destruct (drop 64 sig) as [|b [|c l]] eqn:E.
  - apply (f_equal length) in E. rewrite length_drop, Hl in E. cbn in E. lia.
  - rewrite <- (take_drop 64 sig), E, app_nth2 by (rewrite length_take; lia).
    by rewrite length_take, Hl.
  - apply (f_equal length) in E. rewrite length_drop, Hl in E. cbn in E. lia.
Qed.

Section SignFacts.
Context {crypto : Crypto}.

(** The address of a recovered key, as [recoverPlain] computes it. *)
Definition pub_address (pub : bytes) : outcome address :=
  match pub with
  | p0 :: rest =>
      if b2z p0 =? 4 then Ok (BytesToAddress (drop 12 (keccak256 rest)))
      else Err (ErrNew "invalid public key")
  | [] => Err (ErrNew "invalid public key")
  end.

Lemma recoverPlain_sig h sig :
  wf_sig sig ->
  recoverPlain h (be_value (take 32 sig)) (be_value (take 32 (drop 32 sig)))
    (b2z (nth 64 sig Byte.x00) + 27) true =
  (Ecrecover (hash_bytes h) sig ≫= pub_address).
Proof.
  intros Hs. pose proof (wf_sig_v _ Hs) as Hv. destruct Hs as [Hl Hs].
  set (v := nth 64 sig Byte.x00) in *. unfold recoverPlain.
  assert (Hb : BitLen (b2z v + 27) <= 8) by (apply BitLen_le; lia). zcases.
  assert (Hu : u8 (big_uint64 (b2z v + 27) - 27) = b2z v).
  { unfold big_uint64, u8. rewrite Z.abs_eq, u64_small by (unfold in_u64; lia).
    rewrite Z.add_simpl_r. apply Z.mod_small. lia. }
  cbv zeta. rewrite Hu, Hs. cbn [negb].
  rewrite !sig_field_be_value by (rewrite ?length_take, ?length_drop, Hl; done).
  cbn [mbind outcome_bind]. rewrite z2b_b2z. unfold v. rewrite sig_split by done. done.
Qed.

Lemma WithSignature_EIP155 c sig t :
  wf_sig sig -> 1 <= c ->
  exists t', WithSignature (EIP155Signer c) sig t = Ok t' /\ meta t' = meta t /\
    data t' = mkTxdata (AccountNonce (data t)) (Price (data t)) (GasLimit (data t)) (Recipient (data t))
      (Amount (data t)) (Payload (data t)) (b2z (nth 64 sig Byte.x00) + 35 + c * 2)
      (be_value (take 32 sig)) (be_value (take 32 (drop 32 sig))).
Proof.
  intros Hs Hc. pose proof (wf_sig_v _ Hs) as Hv. destruct Hs as [Hl _].
  unfold WithSignature, SignatureValues. rewrite Hl. cbn [SignatureLength Nat.eqb negb].
  destruct (Z.eqb_spec c 0); [lia|]. cbn [mbind outcome_bind].
  unfold u8. rewrite (Z.mod_small (_ + 35)) by lia. by eexists.
Qed.

(** The sender of any transaction carrying the values of a well-formed signature. *)
Lemma eip155_recover c sig t :
  1 <= c -> wf_sig sig ->
  data t = mkTxdata (AccountNonce (data t)) (Price (data t)) (GasLimit (data t)) (Recipient (data t))
      (Amount (data t)) (Payload (data t)) (b2z (nth 64 sig Byte.x00) + 35 + c * 2)
      (be_value (take 32 sig)) (be_value (take 32 (drop 32 sig))) ->
  Signer_Sender (EIP155Signer c) t =
    (Ecrecover (hash_bytes (Signer_Hash (EIP155Signer c) t)) sig ≫= pub_address).
Proof.
  intros Hc Hs Hd. pose proof (wf_sig_v _ Hs) as Hv.
  assert (HV : dV (data t) = b2z (nth 64 sig Byte.x00) + 35 + c * 2) by (by rewrite Hd).
  assert (HR : dR (data t) = be_value (take 32 sig)) by (by rewrite Hd).
  assert (HS : dS (data t) = be_value (take 32 (drop 32 sig))) by (by rewrite Hd).
  unfold Signer_Sender. cbv zeta. rewrite HV, HR, HS.
  rewrite isProtectedV_V, deriveChainId_V, Z.eqb_refl by done. cbn [negb].
  replace (b2z (nth 64 sig Byte.x00) + 35 + c * 2 - c * 2 - 8) with (b2z (nth 64 sig Byte.x00) + 27) by lia.
  by apply recoverPlain_sig.
Qed.

(** C25: signing for a chain and recovering on the same chain are inverse: the
    sender of a transaction carrying a well-formed signature is the address the
    recovery library derives from exactly that 65-byte signature over the
    transaction's own signing hash. *)
Theorem eip155_sign_recover (c : Z) (sig : bytes) (t : Transaction) :
  1 <= c -> wf_sig sig ->
  exists t', WithSignature (EIP155Signer c) sig t = Ok t' /\
    Signer_Sender (EIP155Signer c) t' =
      (Ecrecover (hash_bytes (Signer_Hash (EIP155Signer c) t)) sig ≫= pub_address).
Proof.
  intros Hc Hs. destruct (WithSignature_EIP155 c sig t Hs Hc) as (t' & E & _ & Hd). exists t'. split; [done|].
  rewrite (eip155_recover c sig t' Hc Hs) by (by rewrite Hd).
  unfold Signer_Hash, sighash_item. by rewrite Hd.
Qed.

(** C26: replay protection: a transaction signed for one chain is rejected by the
    signer of every other chain. *)
Theorem eip155_replay_rejected (c c' : Z) (sig : bytes) (t t' : Transaction) :
  1 <= c -> c <> c' -> wf_sig sig -> WithSignature (EIP155Signer c) sig t = Ok t' ->
  Signer_Sender (EIP155Signer c') t' = Err ErrInvalidChainId.
Proof.
  intros Hc Hne Hs E. pose proof (wf_sig_v _ Hs) as Hv.
  destruct (WithSignature_EIP155 c sig t Hs Hc) as (t1 & E1 & _ & Hd).
  rewrite E in E1. injection E1 as <-. unfold Signer_Sender. cbv zeta. rewrite Hd. cbn [dV].
  rewrite isProtectedV_V, deriveChainId_V by done. cbn [negb]. by destruct (Z.eqb_spec c c').
Qed.
End SignFacts.

(** ** The hashed bytes determine the transaction *)

Record wf_txdata (d : txdata) : Prop := {
  wd_nonce : in_u64 (AccountNonce d); wd_gas : in_u64 (GasLimit d);
  wd_price : 0 <= Price d; wd_amount : 0 <= Amount d;
  wd_to : match Recipient d with Some a => wf_address a | None => True end;
  wd_v : 0 <= dV d; wd_r : 0 <= dR d; wd_s : 0 <= dS d }.

Lemma Str_inj a b : Str a = Str b -> a = b.
Proof. by intros [= ->]. Qed.

Lemma Lst_inj a b : Lst a = Lst b -> a = b.
Proof. by intros [= ->]. Qed.

Lemma cons_both {A} (x y : A) l k : x :: l = y :: k -> x = y /\ l = k.
Proof. by intros [= -> ->]. Qed.

Lemma uint_item_inj a b : in_u64 a -> in_u64 b -> uint_item a = uint_item b -> a = b.
Proof.
  intros Ha Hb. unfold uint_item.
  pose proof (putint_length a Ha). pose proof (putint_length b Hb).
  destruct (Z.eqb_spec a 0), (Z.eqb_spec b 0); intros E%Str_inj.
  - lia.
  - rewrite <- E in *. cbn in *. lia.
  - rewrite E in *. cbn in *. lia.
  - by rewrite <- (putint_value a), <- (putint_value b), E.
Qed.

Lemma big_item_inj a b : 0 <= a -> 0 <= b -> big_item a = big_item b -> a = b.
Proof.
  intros Ha Hb [= E]. apply (f_equal be_value) in E. rewrite !be_value_big_bytes in E. lia.
Qed.

Lemma to_item_inj (a b : option address) :
  match a with Some x => wf_address x | None => True end ->
  match b with Some x => wf_address x | None => True end ->
  ptr_item addr_item a = ptr_item addr_item b -> a = b.
Proof.
  intros Ha Hb. destruct a as [a|], b as [b|]; intros E%Str_inj; [| | |done].
  - f_equal. by apply addr_bytes_inj.
  - apply (f_equal length) in E. rewrite length_addr_bytes in E. done.
  - apply (f_equal length) in E. rewrite length_addr_bytes in E. done.
Qed.

Lemma big_out_nonneg z : 0 <= z -> big_out z = Ok (big_item z).
Proof. intros Hz. unfold big_out. by destruct (Z.ltb_spec z 0); [lia|]. Qed.

(** The six fields every signing hash covers. *)
Definition six_items (d : txdata) : list item :=
  [uint_item (AccountNonce d); big_item (Price d); uint_item (GasLimit d);
   ptr_item addr_item (Recipient d); big_item (Amount d); Str (Payload d)].

Lemma six_items_inj d1 d2 : wf_txdata d1 -> wf_txdata d2 -> six_items d1 = six_items d2 ->
  AccountNonce d1 = AccountNonce d2 /\ Price d1 = Price d2 /\ GasLimit d1 = GasLimit d2 /\
  Recipient d1 = Recipient d2 /\ Amount d1 = Amount d2 /\ Payload d1 = Payload d2.
Proof.
  intros [] [] E. unfold six_items in E.
  apply cons_both in E as [E1 E]. apply cons_both in E as [E2 E]. apply cons_both in E as [E3 E].
  apply cons_both in E as [E4 E]. apply cons_both in E as [E5 E]. apply cons_both in E as [E6%Str_inj _].
  repeat split; [by apply uint_item_inj|by apply big_item_inj|by apply uint_item_inj
    |by apply to_item_inj|by apply big_item_inj|done].
Qed.

Lemma txdata_item_wf d : wf_txdata d ->
  txdata_item d = Ok (Lst (six_items d ++ [big_item (dV d); big_item (dR d); big_item (dS d)])).
Proof. intros []. unfold txdata_item. by rewrite !big_out_nonneg. Qed.

Lemma written_inj i1 i2 :
  Z.of_nat (length (rlp_enc i1)) <= 2 ^ 48 -> Z.of_nat (length (rlp_enc i2)) <= 2 ^ 48 ->
  written (Ok i1) = written (Ok i2) -> i1 = i2.
Proof.
  intros H1 H2. unfold written, encoded. cbn.
  rewrite !EncodeToBytes_rlp_enc by (unfold fits; lia). by apply rlp_enc_inj.
Qed.

(** Encodings a Go slice can hold. *)
Definition small_item (o : outcome item) : Prop :=
  forall it, o = Ok it -> Z.of_nat (length (rlp_enc it)) <= 2 ^ 48.

(** the bytes a transaction hash is taken of determine the transaction data,
    signature included: different transactions never share a hash preimage. *)
Theorem tx_hash_preimage_injective (d1 d2 : txdata) :
  wf_txdata d1 -> wf_txdata d2 -> small_item (txdata_item d1) -> small_item (txdata_item d2) ->
  written (txdata_item d1) = written (txdata_item d2) -> d1 = d2.
Proof.
  intros W1 W2 S1 S2. rewrite (txdata_item_wf d1 W1), (txdata_item_wf d2 W2) in *.
  intros E%written_inj; [|by apply S1|by apply S2]. apply Lst_inj in E.
  apply app_inj_1 in E as [E6 E3]; [|done]. apply six_items_inj in E6; [|done..].
  apply cons_both in E3 as [Ev E3]. apply cons_both in E3 as [Er E3]. apply cons_both in E3 as [Es _].
  destruct W1, W2. apply big_item_inj in Ev, Er, Es; try done.
  destruct E6 as (? & ? & ? & ? & ? & ?). destruct d1, d2; cbn in *. by subst.
Qed.

(** the bytes a signing hash is taken of determine the six signed fields and
    the chain: a signature never covers two different calls, and a signature for
    one chain (or for no chain) covers no transaction of another. *)
Theorem sighash_preimage_injective (s1 s2 : Signer) (d1 d2 : txdata) :
  wf_txdata d1 -> wf_txdata d2 ->
  (forall c, s1 = EIP155Signer c -> 0 <= c) -> (forall c, s2 = EIP155Signer c -> 0 <= c) ->
  small_item (sighash_item s1 d1) -> small_item (sighash_item s2 d2) ->
  written (sighash_item s1 d1) = written (sighash_item s2 d2) ->
  six_items d1 = six_items d2 /\ forall c, s1 = EIP155Signer c <-> s2 = EIP155Signer c.
Proof.
  intros W1 W2 C1 C2 S1 S2.
  assert (Hs : forall s d, wf_txdata d -> (forall c, s = EIP155Signer c -> 0 <= c) -> sighash_item s d =
    Ok (Lst (six_items d ++ match s with EIP155Signer c => [big_item c; uint_item 0; uint_item 0]
                                       | _ => [] end))).
  { intros s d [] Hc. unfold sighash_item. rewrite !big_out_nonneg by done. cbn.
    destruct s as [c| |]; cbn; [|done..]. by rewrite big_out_nonneg by (by apply Hc). }
  rewrite (Hs s1 d1), (Hs s2 d2) in * by done. clear Hs.
  intros E%written_inj; [|by apply S1|by apply S2]. apply Lst_inj in E.
  apply app_inj_1 in E as [E6 E3]; [|done]. split; [done|]. intros c.
  destruct s1 as [c1| |], s2 as [c2| |]; try done.
  assert (c1 = c2) as ->; [|done].
  apply big_item_inj; [by apply C1|by apply C2|by apply cons_both in E3 as [? _]].
Qed.

(** ** Caches *)

Section Caches.
Context {crypto : Crypto}.

(** Every cached value is the one a fresh computation gives. *)
Record coherent (t : Transaction) : Prop := {
  coh_hash : forall h, t_hash t = Some h -> h = rlpHash (txdata_item (data t));
  coh_size : forall n, t_size t = Some n -> n = Z.of_nat (length (written (txdata_item (data t))));
  coh_from : forall s a, t_from t = Some (s, a) -> Signer_Sender s t = Ok a }.

Lemma Signer_Equal_eq s1 s2 : Signer_Equal s1 s2 = true -> s1 = s2.
Proof. destruct s1, s2; cbn; try done. by intros ->%Z.eqb_eq. Qed.

(** Sender recovery reads the data only. *)
Lemma Signer_Sender_data s t t' : data t = data t' -> Signer_Sender s t = Signer_Sender s t'.
Proof. intros E. unfold Signer_Sender, Signer_Hash. by rewrite E. Qed.

Lemma coherent_meta m t : coherent t -> coherent (with_meta m t).
Proof. intros []. by constructor. Qed.

Lemma coherent_from s a t :
  coherent t -> Signer_Sender s t = Ok a -> coherent (with_from (Some (s, a)) t).
Proof. intros [] Hs. constructor; cbn; [done..|]. by intros ? ? [= <- <-]. Qed.

Lemma Sender_run s t : coherent t ->
  fst (Sender s t) = Signer_Sender s t /\ coherent (snd (Sender s t)) /\
  data (snd (Sender s t)) = data t /\ meta (snd (Sender s t)) = meta t.
Proof.
  intros Hc.
  assert (Hm : forall m : M Transaction address,
    m = (addr ← lift_out (Signer_Sender s t); modS (with_from (Some (s, addr))) ;; ret addr) ->
    fst (m t) = Signer_Sender s t /\ coherent (snd (m t)) /\
    data (snd (m t)) = data t /\ meta (snd (m t)) = meta t).
  { intros m ->. unfold_M. destruct (Signer_Sender s t) as [a|e|w|] eqn:E; cbn; try done.
    split; [done|]. split; [by apply coherent_from|done]. }
  unfold Sender. erewrite bind_Ok by reflexivity. destruct (t_from t) as [[sc a]|] eqn:Ef; [|by apply Hm].
  destruct (Signer_Equal sc s) eqn:E; [|by apply Hm].
  apply Signer_Equal_eq in E as ->. destruct Hc as [? ? Hfrom]. cbn.
  split; [by rewrite (Hfrom s a)|]. by repeat split.
Qed.

(** the caches are transparent.  On a transaction whose cached values are
    coherent, [Hash], [Size] and [Sender] return what a fresh computation
    returns, for any signer and whatever was cached for another signer, and leave
    a coherent transaction with the same data; the setters of metadata preserve
    coherence, and a new transaction is coherent. *)
Theorem caches_transparent (t : Transaction) : coherent t ->
  (exists t', Hash t = (Ok (rlpHash (txdata_item (data t))), t') /\ coherent t' /\ data t' = data t) /\
  (exists t', Size t = (Ok (Z.of_nat (length (written (txdata_item (data t))))), t') /\
     coherent t' /\ data t' = data t) /\
  (forall s, exists t', Sender s t = (Signer_Sender s t, t') /\ coherent t' /\ data t' = data t) /\
  (forall m i ts bn sg, coherent (SetTransactionMeta m t) /\ coherent (SetIndex i t) /\
     coherent (SetL1Timestamp ts t) /\ coherent (SetL1BlockNumber bn t) /\ coherent (SetSeqSign sg t)) /\
  (forall n to am g p d, coherent (newTransaction n to am g p d)).
Proof.
  intros Hc. repeat apply conj.
  - unfold Hash. unfold_M. destruct (t_hash t) as [h|] eqn:E; eexists.
    + split; [|by split]. destruct Hc as [Hh _ _]. by rewrite (Hh h E).
    + split; [reflexivity|]. split; [|done]. destruct Hc. constructor; cbn; try done. by intros ? [= <-].
  - unfold Size. unfold_M. destruct (t_size t) as [n|] eqn:E; eexists.
    + split; [|by split]. destruct Hc as [_ Hn _]. by rewrite (Hn n E).
    + split; [reflexivity|]. split; [|done]. destruct Hc. constructor; cbn; try done. by intros ? [= <-].
  - intros s. destruct (Sender_run s t Hc) as (H1 & H2 & H3 & _). exists (snd (Sender s t)).
    rewrite <- H1, <- surjective_pairing. done.
  - intros m i ts bn sg. repeat apply conj; try (by apply coherent_meta).
    destruct m; [by apply coherent_meta|done].
  - intros. constructor; done.
Qed.

(** the message of a deposit is sent by the L1 sender recorded in its
    metadata (the zero address when none is recorded) without looking at the
    signature; any other transaction is sent by the recovered signer.  Either way
    the transaction's nil metadata pointers are filled in. *)
Theorem AsMessage_from (s : Signer) (t : Transaction) : coherent t ->
  let from := if QueueOrigin (meta t) =? QueueOriginL1ToL2
              then Ok (default 0 (L1MessageSender (meta t))) else Signer_Sender s t in
  (m_from <$> fst (AsMessage true s t)) = from /\
  meta (snd (AsMessage true s t)) = meta_fill (meta t) /\
  data (snd (AsMessage true s t)) = data t.
Proof.
  intros Hc from. unfold AsMessage. erewrite bind_Ok by reflexivity. erewrite bind_Ok by reflexivity.
  cbv zeta. set (t1 := with_meta (meta_fill (meta t)) t).
  change (L1MessageSender (meta t1)) with (Some (default 0 (L1MessageSender (meta t)))).
  change (QueueOrigin (meta t1)) with (QueueOrigin (meta t)). cbv iota. subst from.
  destruct (QueueOrigin (meta t) =? QueueOriginL1ToL2); [done|].
  destruct (Sender_run s t1) as (H1 & H2 & H3 & H4); [by apply coherent_meta|].
  unfold bindM. destruct (Sender s t1) as [o t2]. cbn in H1, H3, H4.
  rewrite <- (Signer_Sender_data s t1 t eq_refl), <- H1.
  destruct o; cbn; by rewrite ?H3, ?H4.
Qed.
End Caches.

Definition sample_sig : bytes :=
  replicate 31 Byte.x00 ++ [Byte.x01] ++ replicate 31 Byte.x00 ++ [Byte.x02] ++ [Byte.x01].
Definition sample_tx : Transaction := NewTransaction 7 0xAB (Some 5) 21000 (Some 1) [Byte.x60].

Lemma sample_sig_wf : wf_sig sample_sig.
Proof. split; vm_compute; reflexivity. Qed.

Lemma eip155_sign_recover_witness :
  1 <= 1088 /\ wf_sig sample_sig /\
  exists t', WithSignature (EIP155Signer 1088) sample_sig sample_tx = Ok t' /\
    Signer_Sender (crypto:=sample_crypto) (EIP155Signer 1088) t' =
      (Ecrecover (crypto:=sample_crypto)
         (hash_bytes (Signer_Hash (crypto:=sample_crypto) (EIP155Signer 1088) sample_tx)) sample_sig
       ≫= pub_address (crypto:=sample_crypto)).
Proof.
  split; [lia|]. split; [apply sample_sig_wf|].
  apply (eip155_sign_recover (crypto:=sample_crypto) 1088 sample_sig sample_tx);
    [lia|apply sample_sig_wf].
Defined.

Lemma eip155_replay_rejected_witness :
  exists t', WithSignature (EIP155Signer 1088) sample_sig sample_tx = Ok t' /\
    Signer_Sender (crypto:=sample_crypto) (EIP155Signer 1) t' = Err ErrInvalidChainId.
Proof.
  eexists. split; [vm_compute; reflexivity|].
  apply (eip155_replay_rejected (crypto:=sample_crypto) 1088 1 sample_sig sample_tx);
    [lia|lia|apply sample_sig_wf|vm_compute; reflexivity].
Defined.

Lemma sample_tx_wf : wf_txdata (data sample_tx).
Proof. split; cbn; try done; unfold in_u64, wf_address; lia. Qed.

Lemma tx_hash_preimage_injective_witness :
  written (txdata_item (data sample_tx)) = written (txdata_item (data sample_tx)) /\
  data sample_tx = data sample_tx.
Proof.
  split; [reflexivity|].
  apply (tx_hash_preimage_injective (data sample_tx) (data sample_tx));
    [apply sample_tx_wf|apply sample_tx_wf
    |intros it E; injection E as <-; vm_compute; discriminate
    |intros it E; injection E as <-; vm_compute; discriminate|reflexivity].
Defined.

Lemma sighash_preimage_injective_witness :
  six_items (data sample_tx) = six_items (data sample_tx) /\
  forall c, EIP155Signer 1088 = EIP155Signer c <-> EIP155Signer 1088 = EIP155Signer c.
Proof.
  apply (sighash_preimage_injective (EIP155Signer 1088) (EIP155Signer 1088) (data sample_tx) (data sample_tx));
    [apply sample_tx_wf|apply sample_tx_wf|intros c [= <-]; lia|intros c [= <-]; lia
    |intros it E; injection E as <-; vm_compute; discriminate
    |intros it E; injection E as <-; vm_compute; discriminate|reflexivity].
Defined.

Lemma caches_transparent_witness :
  let t := snd (Hash (crypto:=sample_crypto) sample_tx) in
  coherent (crypto:=sample_crypto) t /\
  exists t', Hash (crypto:=sample_crypto) t =
    (Ok (rlpHash (crypto:=sample_crypto) (txdata_item (data t))), t') /\
    coherent (crypto:=sample_crypto) t' /\ data t' = data t.
Proof.
  assert (Hc : coherent (crypto:=sample_crypto) (snd (Hash (crypto:=sample_crypto) sample_tx))).
  { constructor; [|discriminate..]. intros h E. vm_compute in E. injection E as <-. vm_compute. reflexivity. }
  split; [exact Hc|].
  exact (proj1 (caches_transparent (crypto:=sample_crypto) _ Hc)).
Defined.

Lemma AsMessage_from_witness :
  let t := SetTransactionMeta (Some (NewTransactionMeta (Some 3) 9 (Some 0xCD) QueueOriginL1ToL2
                                       (Some 4) (Some 2) None)) sample_tx in
  coherent (crypto:=sample_crypto) t /\
  (m_from <$> fst (AsMessage (crypto:=sample_crypto) true FrontierSigner t)) = Ok 0xCD.
Proof.
  cbv zeta. assert (Hc : coherent (crypto:=sample_crypto)
    (SetTransactionMeta (Some (NewTransactionMeta (Some 3) 9 (Some 0xCD) QueueOriginL1ToL2
       (Some 4) (Some 2) None)) sample_tx)) by (constructor; discriminate).
  split; [exact Hc|]. apply (AsMessage_from (crypto:=sample_crypto) FrontierSigner _ Hc).
Defined.
