(* ===== verification/TxRLP.v ===== *)
(** Transactions on the wire: [Transaction.DecodeRLP] and
    [TransactionMeta.DecodeRLP] (core/types/transaction.go,
    core/types/transaction_meta.go) over the typed decoders of [RLPTyped].

    The metadata of a transaction has pointers that are encoded as empty strings
    when nil but decoded as values, and a sender that cannot be decoded when nil;
    [AsMessage] fills them in before a transaction travels.  The round trip says
    exactly what a peer sees. *)
From stdpp Require Import prelude list strings.
From Stdlib Require Import ZArith Lia.
From S2P Require Import Prelude RLP RLPStream RLPStreamFacts RLPDecode RLPTyped TxMeta Crypto Transaction.
Local Open Scope Z_scope.

Definition decodeAddress : M Stream address := b ← decodeByteArray 20; ret (be_value b).

(** The decoder of the struct [txdata]; [Recipient] is tagged [rlp:"nil"]. *)
Definition decodeTxdata : M Stream txdata :=
  decodeStruct
    (nonce ← field (decodeUint 64);
     price ← field decodeBigInt;
     gas ← field (decodeUint 64);
     to ← field (decodeNilPtr KString decodeAddress);
     amount ← field decodeBigInt;
     payload ← field decodeByteSlice;
     v ← field decodeBigInt;
     r ← field decodeBigInt;
     s ← field decodeBigInt;
     ret (mkTxdata nonce price gas to amount payload v r s)).

Definition emptyMeta : TransactionMeta := mkMeta None 0 None 0 None None None None None None.

(** The fields of [TransactionMeta], each storing what it decodes. *)
Definition metaFields : list (TransactionMeta -> M Stream TransactionMeta) :=
  [ (fun m => x ← decodeBigInt; ret (mkMeta (Some x) (L1Timestamp m) (L1MessageSender m) (QueueOrigin m)
                 (Index m) (QueueIndex m) (RawTransaction m) (mR m) (mS m) (mV m)));
    (fun m => x ← decodeUint 64; ret (mkMeta (L1BlockNumber m) x (L1MessageSender m) (QueueOrigin m)
                 (Index m) (QueueIndex m) (RawTransaction m) (mR m) (mS m) (mV m)));
    (fun m => x ← decodeAddress; ret (mkMeta (L1BlockNumber m) (L1Timestamp m) (Some x) (QueueOrigin m)
                 (Index m) (QueueIndex m) (RawTransaction m) (mR m) (mS m) (mV m)));
    (fun m => x ← decodeUint 8; ret (mkMeta (L1BlockNumber m) (L1Timestamp m) (L1MessageSender m) x
                 (Index m) (QueueIndex m) (RawTransaction m) (mR m) (mS m) (mV m)));
    (fun m => x ← decodeUint 64; ret (mkMeta (L1BlockNumber m) (L1Timestamp m) (L1MessageSender m)
                 (QueueOrigin m) (Some x) (QueueIndex m) (RawTransaction m) (mR m) (mS m) (mV m)));
    (fun m => x ← decodeUint 64; ret (mkMeta (L1BlockNumber m) (L1Timestamp m) (L1MessageSender m)
                 (QueueOrigin m) (Index m) (Some x) (RawTransaction m) (mR m) (mS m) (mV m)));
    (fun m => x ← decodeByteSlice; ret (mkMeta (L1BlockNumber m) (L1Timestamp m) (L1MessageSender m)
                 (QueueOrigin m) (Index m) (QueueIndex m) (Some x) (mR m) (mS m) (mV m)));
    (fun m => x ← decodeBigInt; ret (mkMeta (L1BlockNumber m) (L1Timestamp m) (L1MessageSender m)
                 (QueueOrigin m) (Index m) (QueueIndex m) (RawTransaction m) (Some x) (mS m) (mV m)));
    (fun m => x ← decodeBigInt; ret (mkMeta (L1BlockNumber m) (L1Timestamp m) (L1MessageSender m)
                 (QueueOrigin m) (Index m) (QueueIndex m) (RawTransaction m) (mR m) (Some x) (mV m)));
    (fun m => x ← decodeBigInt; ret (mkMeta (L1BlockNumber m) (L1Timestamp m) (L1MessageSender m)
                 (QueueOrigin m) (Index m) (QueueIndex m) (RawTransaction m) (mR m) (mS m) (Some x))) ].

Definition meta_DecodeRLP (tm : TransactionMeta) : M Stream TransactionMeta :=
  decodeStruct (decodeOptFields metaFields tm).

(** [Transaction.DecodeRLP]: the bare data for RPC transactions ([l2tx = 1]), data
    and metadata otherwise. *)
Definition tx_DecodeRLP (tx : Transaction) : M Stream Transaction :=
  if l2tx tx =? 1 then
    k ← attempt stream_Kind;
    let size := match k with inl _ => 0 | inr (_, size) => size end in
    d ← decodeTxdata;
    ret (mkTx d (meta tx) (t_hash tx) (Some (ListSize size)) (t_from tx) (l2tx tx))
  else
    '(d, m) ← decodeStruct (d ← field decodeTxdata; m ← field (meta_DecodeRLP emptyMeta); ret (d, m));
    ret (mkTx d m (t_hash tx) (Some (Z.of_nat (length (written (txdata_item d))))) (t_from tx) (l2tx tx)).

(** ** Round trips *)

(** What a peer sees of the metadata: nil integers have become zero, and without a
    sequencer signature [S] and [V] are not sent. *)
Definition wire_meta (m : TransactionMeta) (sender : address) : TransactionMeta :=
  let sig p := match mR m with None => None | Some _ => Some (default 0 p) end in
  mkMeta (Some (default 0 (L1BlockNumber m))) (L1Timestamp m) (Some sender) (QueueOrigin m)
    (Some (default 0 (Index m))) (Some (default 0 (QueueIndex m))) (Some (default [] (RawTransaction m)))
    (sig (mR m)) (sig (mS m)) (sig (mV m)).

Record wf_wire_meta (m : TransactionMeta) : Prop := {
  wm_bn : 0 <= default 0 (L1BlockNumber m);
  wm_ts : in_u64 (L1Timestamp m);
  wm_sender : forall a, L1MessageSender m = Some a -> wf_address a;
  wm_qo : 0 <= QueueOrigin m < 256;
  wm_index : in_u64 (default 0 (Index m));
  wm_qi : in_u64 (default 0 (QueueIndex m));
  wm_R : 0 <= default 0 (mR m); wm_S : 0 <= default 0 (mS m); wm_V : 0 <= default 0 (mV m) }.

Lemma decodesT_Address a : wf_address a -> decodesT decodeAddress (addr_item a) a.
Proof.
  intros Ha. unfold decodeAddress, addr_item. eapply decodesT_bind_ret.
  - by apply decodesT_ByteArray; [rewrite length_addr_bytes|].
  - intros s. by rewrite be_value_addr_bytes.
Qed.

(** The recipient: a nil pointer or an address. *)
Lemma decodesT_Recipient to :
  match to with Some a => wf_address a | None => True end ->
  decodesT (decodeNilPtr KString decodeAddress) (ptr_item addr_item to) to.
Proof.
  destruct to as [a|]; intros Ha; [|apply decodesT_NilPtr_None].
  apply decodesT_NilPtr_Some; [|apply kind_first_bind, kind_first_ByteArray|by apply decodesT_Address].
  intros E. apply (f_equal length) in E. by rewrite length_addr_bytes in E.
Qed.

Lemma decodesT_txdata d :
  wf_txdata d -> decodesT decodeTxdata (Lst (six_items d ++ [big_item (dV d); big_item (dR d); big_item (dS d)])) d.
Proof.
  intros []. apply fieldsT_list. cbn [app six_items].
  repeat (eapply fieldsT_bind;
    [first [apply decodesT_Uint64|apply decodesT_BigInt|apply decodesT_Recipient|apply decodesT_ByteSlice]; done|]).
  destruct d. apply fieldsT_ret.
Qed.

Lemma decodesT_keep {A B} (dec : M Stream A) (f : A -> B) it a :
  decodesT dec it a -> decodesT (bindM dec (fun x => ret (f x))) it (f a).
Proof. intros H. by eapply decodesT_bind_ret. Qed.

Lemma decodesT_bigptr p : 0 <= default 0 p -> decodesT decodeBigInt (big_item (default 0 p)) (default 0 p).
Proof. apply decodesT_BigInt. Qed.

Lemma decodesT_uintptr p :
  in_u64 (default 0 p) -> decodesT (decodeUint 64) (ptr_item uint_item p) (default 0 p).
Proof. intros H. destruct p as [i|]; [by apply decodesT_Uint64|]. exact (decodesT_Uint64 0 H). Qed.

Lemma big_ptr_out_nonneg p : 0 <= default 0 p -> big_ptr_out p = Ok (big_item (default 0 p)).
Proof.
  destruct p as [z|]; cbn; [|done]. intros Hz. unfold big_out. by rewrite (proj2 (Z.ltb_ge z 0)).
Qed.

(** The seven fields that are always sent, and the signature. *)
Definition meta_items (m : TransactionMeta) : list item :=
  [big_item (default 0 (L1BlockNumber m)); uint_item (L1Timestamp m); ptr_item addr_item (L1MessageSender m);
   uint_item (QueueOrigin m); ptr_item uint_item (Index m); ptr_item uint_item (QueueIndex m);
   Str (default [] (RawTransaction m))] ++
  match mR m with
  | None => []
  | Some _ => [big_item (default 0 (mR m)); big_item (default 0 (mS m)); big_item (default 0 (mV m))]
  end.

Lemma meta_item_wf m : wf_wire_meta m -> meta_item m = Ok (Lst (meta_items m)).
Proof.
  intros [Hb _ _ _ _ _ HR HS HV]. unfold meta_item, meta_items, mbind, outcome_bind.
  rewrite (big_ptr_out_nonneg _ Hb), (big_ptr_out_nonneg _ HR), (big_ptr_out_nonneg _ HS), (big_ptr_out_nonneg _ HV).
  by destruct (mR m).
Qed.

Lemma decodesT_meta m a :
  wf_wire_meta m -> L1MessageSender m = Some a ->
  decodesT (meta_DecodeRLP emptyMeta) (Lst (meta_items m)) (wire_meta m a).
Proof.
  intros Hwf Ha. pose proof (wm_sender _ Hwf a Ha) as Hsa. destruct Hwf.
  apply contentT_list, optFieldsT_content. unfold meta_items, wire_meta, metaFields. rewrite Ha. cbn [app].
  do 7 (eapply optFieldsT_field;
    [apply decodesT_keep; first [by apply decodesT_uintptr|by apply decodesT_bigptr|by apply decodesT_Uint64
       |by apply decodesT_Uint8|by apply decodesT_Address|by apply decodesT_ByteSlice]|]).
  cbn [L1BlockNumber L1Timestamp L1MessageSender QueueOrigin Index QueueIndex RawTransaction mR mS mV emptyMeta].
  destruct (mR m) as [r|].
  - do 3 (eapply optFieldsT_field; [apply decodesT_keep; by apply decodesT_bigptr|]). constructor.
  - constructor. apply at_EOL_bind, at_EOL_bind, at_EOL_wrapped, at_EOL_bind, at_EOL_Kind.
Qed.

Lemma failsT_meta_nil_sender m :
  wf_wire_meta m -> L1MessageSender m = None ->
  failsT (meta_DecodeRLP emptyMeta) (Lst (meta_items m)) errTooShort.
Proof.
  intros [] Hn. apply failsT_struct. unfold meta_items, metaFields. rewrite Hn. cbn [app].
  eapply optFields_fail_later; [apply decodesT_keep; by apply decodesT_bigptr|].
  eapply optFields_fail_later; [apply decodesT_keep; by apply decodesT_Uint64|].
  apply optFields_fail; [|done]. intros s r' Hs.
  destruct (failsT_ByteArray_empty 20 ltac:(lia) s r' Hs) as [s' E]. exists s'.
  by apply bind_Err, bind_Err.
Qed.

Definition txdata_fields (d : txdata) : item :=
  Lst (six_items d ++ [big_item (dV d); big_item (dR d); big_item (dS d)]).

Lemma tx_item_wf t :
  wf_txdata (data t) -> wf_wire_meta (meta t) ->
  tx_item t = Ok (if l2tx t =? 2 then txdata_fields (data t)
                  else Lst [txdata_fields (data t); Lst (meta_items (meta t))]).
Proof.
  intros Hd Hm. unfold tx_item. rewrite txdata_item_wf by done. rewrite meta_item_wf by done.
  by destruct (_ =? _).
Qed.


Definition sample_wire_tx : Transaction :=
  SetTransactionMeta (Some (mkMeta (Some 17) 1700000000 (Some 0xbeef) 0 (Some 41) None None (Some 5) (Some 6) (Some 1)))
    (newTransaction 7 (Some 0x1234) (Some 10) 21000 (Some 3) [Byte.x01; Byte.x80]).

