(* ===== verification/AccessList.v ===== *)
(** The per-transaction access list (core/state/access_list.go).

    A map from addresses to positions in a slice of slot sets, -1 standing for an
    address without slots.  The journal of the state database undoes additions in
    reverse order; the lemmas here show that an addition followed by its deletions
    is the identity, which is what the journal relies on. *)
From stdpp Require Import prelude gmap list strings.
From Stdlib Require Import ZArith Lia.
From S2P Require Import Prelude.
Local Open Scope Z_scope.

Record accessList := { al_addresses : gmap address Z; al_slots : list (gset hash) }.

Definition newAccessList : accessList := {| al_addresses := ∅; al_slots := [] |}.

Definition ContainsAddress (al : accessList) (a : address) : bool :=
  bool_decide (is_Some (al_addresses al !! a)).

(** [al.slots[idx]] *)
Definition slots_at (al : accessList) (idx : Z) : outcome (gset hash) :=
  if idx <? 0 then Panic "index out of range"
  else match al_slots al !! Z.to_nat idx with
       | Some m => Ok m
       | None => Panic "index out of range"
       end.

Definition Contains (al : accessList) (a : address) (slot : hash) : outcome (bool * bool) :=
  match al_addresses al !! a with
  | None => Ok (false, false)
  | Some idx =>
      if idx =? -1 then Ok (true, false)
      else (slotmap ← slots_at al idx; mret (true, bool_decide (slot ∈ slotmap)))%stdpp
  end.

Definition AddAddress (a : address) (al : accessList) : bool * accessList :=
  if ContainsAddress al a then (false, al)
  else (true, {| al_addresses := <[a := -1]> (al_addresses al); al_slots := al_slots al |}).

Definition AddSlot (a : address) (slot : hash) (al : accessList) : outcome (bool * bool * accessList) :=
  let fresh addrPresent :=
    Ok (negb addrPresent, true,
        {| al_addresses := <[a := Z.of_nat (length (al_slots al))]> (al_addresses al);
           al_slots := al_slots al ++ [{[ slot ]}] |}) in
  match al_addresses al !! a with
  | None => fresh false
  | Some idx =>
      if idx =? -1 then fresh true
      else
        (slotmap ← slots_at al idx;
         if bool_decide (slot ∈ slotmap) then mret (false, false, al)
         else mret (false, true,
                {| al_addresses := al_addresses al;
                   al_slots := <[Z.to_nat idx := {[ slot ]} ∪ slotmap]> (al_slots al) |}))%stdpp
  end.

Definition DeleteSlot (a : address) (slot : hash) (al : accessList) : outcome accessList :=
  match al_addresses al !! a with
  | None => Panic "reverting slot change, address not present in list"
  | Some idx =>
      (slotmap ← slots_at al idx;
       let slotmap := slotmap ∖ {[ slot ]} in
       mret (if bool_decide (size slotmap = 0%nat)
             then {| al_addresses := <[a := -1]> (al_addresses al);
                     al_slots := take (Z.to_nat idx) (al_slots al) |}
             else {| al_addresses := al_addresses al;
                     al_slots := <[Z.to_nat idx := slotmap]> (al_slots al) |}))%stdpp
  end.

Definition DeleteAddress (a : address) (al : accessList) : accessList :=
  {| al_addresses := delete a (al_addresses al); al_slots := al_slots al |}.

(** ** Well-formed lists *)

(** Every position is -1 or in range, and no slot set is empty. *)
Record wf_al (al : accessList) : Prop := {
  wf_al_pos : forall a i, al_addresses al !! a = Some i -> -1 <= i < Z.of_nat (length (al_slots al));
  wf_al_slots : forall m, m ∈ al_slots al -> m ≠ ∅ }.

Lemma wf_new : wf_al newAccessList.
Proof. split; cbn; [intros a i Hi; by rewrite lookup_empty in Hi|intros m Hm; by apply elem_of_nil in Hm]. Qed.

Lemma slots_at_Ok al a i :
  wf_al al -> al_addresses al !! a = Some i -> i <> -1 ->
  exists m, slots_at al i = Ok m /\ al_slots al !! Z.to_nat i = Some m /\ m ≠ ∅.
Proof.
  intros [Hp Hs] Hi Hne. apply Hp in Hi. unfold slots_at. rewrite (proj2 (Z.ltb_ge i 0)) by lia.
  destruct (al_slots al !! Z.to_nat i) as [m|] eqn:E.
  - exists m. split_and!; [done|done|]. apply Hs. by apply list_elem_of_lookup_2 in E.
  - apply lookup_ge_None in E. lia.
Qed.

Lemma AddAddress_wf a al : wf_al al -> wf_al (snd (AddAddress a al)).
Proof.
  unfold AddAddress. intros H. destruct (ContainsAddress al a); [done|]. destruct H as [Hp Hs].
  split; cbn; [|done]. intros b i. rewrite lookup_insert_Some. intros [[<- <-]|[_ Hi]]; [lia|by eapply Hp].
Qed.

(** Deleting the address just added restores the list. *)
Lemma AddAddress_undo a al :
  match AddAddress a al with
  | (true, al') => DeleteAddress a al' = al
  | (false, al') => al' = al
  end.
Proof.
  unfold AddAddress, ContainsAddress. case_bool_decide as H; [done|].
  unfold DeleteAddress. cbn. rewrite delete_insert_id; [by destruct al|].
  by apply eq_None_not_Some.
Qed.

Definition undo_slot (a : address) (slot : hash) (addr slotm : bool) (al : accessList) : outcome accessList :=
  (al ← (if slotm then DeleteSlot a slot al else Ok al);
   mret (if addr then DeleteAddress a al else al))%stdpp.

(** A new slot set is put at the end; deleting its only slot cuts it off again. *)
Lemma AddSlot_fresh a slot al :
  wf_al al ->
  let al' := {| al_addresses := <[a := Z.of_nat (length (al_slots al))]> (al_addresses al);
                al_slots := al_slots al ++ [{[ slot ]}] |} in
  wf_al al' /\
  DeleteSlot a slot al' = Ok {| al_addresses := <[a := -1]> (al_addresses al); al_slots := al_slots al |}.
Proof.
  intros [Hp Hs] al'. split.
  - split; cbn.
    + intros b j. rewrite lookup_insert_Some, length_app. cbn.
      intros [[<- <-]|[_ Hj]]; [lia|]. apply Hp in Hj. lia.
    + intros m. rewrite elem_of_app, list_elem_of_singleton. intros [Hm| ->]; [by apply Hs|set_solver].
  - unfold DeleteSlot, slots_at. cbn. rewrite lookup_insert_eq.
    rewrite (proj2 (Z.ltb_ge _ 0)) by lia. rewrite Nat2Z.id, lookup_app_r, Nat.sub_diag by lia. cbn.
    rewrite bool_decide_true by (apply size_empty_iff; set_solver).
    by rewrite take_app_length, insert_insert_eq.
Qed.

(** A slot added to an existing set is taken out of it again. *)
Lemma AddSlot_more a slot al i m :
  wf_al al -> al_addresses al !! a = Some i -> i <> -1 -> al_slots al !! Z.to_nat i = Some m ->
  m ≠ ∅ -> slot ∉ m ->
  let al' := {| al_addresses := al_addresses al;
                al_slots := <[Z.to_nat i := {[ slot ]} ∪ m]> (al_slots al) |} in
  wf_al al' /\ DeleteSlot a slot al' = Ok al.
Proof.
  intros Hwf Ea Hne Hm Hme Hin al'. pose proof (wf_al_pos _ Hwf _ _ Ea) as Hr.
  destruct Hwf as [Hp Hs]. split.
  - split; cbn; [intros b j Hj; rewrite length_insert; eauto|].
    intros m' Hm'. apply list_elem_of_lookup_1 in Hm' as [k Hk].
    apply list_lookup_insert_Some in Hk as [(_ & <- & _)|(_ & Hk)]; [set_solver|].
    apply Hs. by apply list_elem_of_lookup_2 in Hk.
  - unfold DeleteSlot, slots_at. cbn. rewrite Ea, (proj2 (Z.ltb_ge i 0)) by lia.
    rewrite list_lookup_insert_eq by lia. cbn.
    replace (({[slot]} ∪ m) ∖ {[slot]}) with m by set_solver.
    rewrite bool_decide_false by (rewrite size_empty_iff; set_solver).
    rewrite list_insert_insert_eq, list_insert_id by done. by destruct al.
Qed.

(** Adding a slot never panics on a well-formed list, keeps it well-formed, and is
    undone by the deletions that the flags call for, the slot first. *)
Lemma AddSlot_spec a slot al :
  wf_al al ->
  exists addr slotm al', AddSlot a slot al = Ok (addr, slotm, al') /\ wf_al al' /\
    undo_slot a slot addr slotm al' = Ok al.
Proof.
  intros Hwf. destruct (AddSlot_fresh a slot al Hwf) as [Hw Hd]. unfold AddSlot, undo_slot.
  destruct (al_addresses al !! a) as [i|] eqn:Ea; [destruct (Z.eqb_spec i (-1)) as [->|Hne]|].
  - eexists _, _, _. split_and!; [done|done|]. rewrite Hd. cbn. rewrite insert_id by done. by destruct al.
  - destruct (slots_at_Ok al a i Hwf Ea Hne) as (m & -> & Hm & Hme). cbn.
    case_bool_decide as Hin; [by eexists _, _, _|].
    destruct (AddSlot_more a slot al i m Hwf Ea Hne Hm Hme Hin) as [Hw' Hd'].
    eexists _, _, _. split_and!; [done|done|]. by rewrite Hd'.
  - eexists _, _, _. split_and!; [done|done|]. rewrite Hd. unfold DeleteAddress. cbn.
    rewrite delete_insert_id by done. by destruct al.
Qed.
