(* ===== verification/StateData.v ===== *)
(** The data of the state database (core/state/statedb.go, state_object.go,
    journal.go): accounts, live objects, the journal of changes, and the database
    with its caches.

    The [Trie] and [Database] interfaces of core/state/database.go are the class
    [Backend].  Its reads are pure on the tries they read (resolving a node of a trie
    does not change what the trie holds), and errors are values, as in the source.
    Objects are reached through the map of live objects alone, so an object is a
    value in that map; a [resetObjectChange] keeps the object it replaced.  The
    measurements of expensive metrics are left out. *)
From stdpp Require Import prelude gmap list strings.
From Stdlib Require Import ZArith Lia.
From S2P Require Import Prelude AccessList.
Local Open Scope Z_scope.

(** ** The backend *)

Class Backend (T D : Type) := {
  TryGet : T -> bytes -> goerror + bytes;
  TryUpdate : T -> bytes -> bytes -> option goerror * T;
  TryDelete : T -> bytes -> option goerror * T;
  trie_Hash : T -> hash;
  trie_Commit : T -> D -> (goerror + hash) * (T * D);
  OpenTrie : D -> hash -> goerror + T;
  OpenStorageTrie : D -> hash -> hash -> goerror + T;
  ContractCode : D -> hash -> hash -> goerror + bytes;
  ContractCodeSize : D -> hash -> hash -> goerror + Z;
  InsertBlob : hash -> bytes -> D -> D }.

(** A log (core/types/log.go). *)
Record Log := mkLog {
  log_Address : address; log_Topics : list hash; log_Data : bytes; log_BlockNumber : Z;
  log_TxHash : hash; log_TxIndex : Z; log_BlockHash : hash; log_Index : Z; log_Removed : bool }.

Abbreviation Storage := (gmap hash hash).

(** Reading a Go map: the zero value when absent. *)
Definition storage_get (m : Storage) (k : hash) : hash := default 0 (m !! k).

Record Account := mkAccount { acc_Nonce : Z; acc_Balance : Z; acc_Root : hash; acc_CodeHash : bytes }.

Definition ripemd : address := 3.
Definition OvmEthAddress : address := 0xDeadDeAddeAddEAddeadDEaDDEAdDeaDDeAD0000.
Definition emptyRoot : hash := 0x56e81f171bcc55a6ff8345e692c0f86e5b48e01b996cadc001622fb5e363b421.

Section StateData.
Context {T D : Type}.

(** ** Data *)

Record stateObject := mkObject {
  so_address : address;
  so_data : Account;
  so_dbErr : option goerror;
  so_trie : option T;
  so_code : option bytes;
  so_origin : Storage;
  so_pending : Storage;
  so_dirty : Storage;
  so_fake : option Storage;
  so_dirtyCode : bool;
  so_suicided : bool;
  so_deleted : bool }.

Inductive journalEntry :=
| createObjectChange (account : address)
| resetObjectChange (prev : stateObject)
| suicideChange (account : address) (prev : bool) (prevbalance : Z)
| balanceChange (account : address) (prev : Z)
| nonceChange (account : address) (prev : Z)
| storageChange (account : address) (key prevalue : hash)
| codeChange (account : address) (prevcode : option bytes) (prevhash : bytes)
| refundChange (prev : Z)
| addLogChange (txhash : hash)
| addPreimageChange (h : hash)
| touchChange (account : address)
| accessListAddAccountChange (a : address)
| accessListAddSlotChange (a : address) (slot : hash).

Record journal := mkJournal { j_entries : list journalEntry; j_dirties : gmap address Z }.

Definition newJournal : journal := mkJournal [] ∅.

Record StateDB := mkStateDB {
  sdb_db : D;
  sdb_trie : T;
  sdb_objects : gmap address stateObject;
  sdb_pending : gset address;
  sdb_dirty : gset address;
  sdb_dbErr : option goerror;
  sdb_refund : Z;
  sdb_thash : hash;
  sdb_bhash : hash;
  sdb_txIndex : Z;
  sdb_logs : gmap hash (list Log);
  sdb_logSize : Z;
  sdb_preimages : gmap hash bytes;
  sdb_accessList : accessList;
  sdb_journal : journal;
  sdb_revisions : list (Z * nat);
  sdb_nextRevisionId : Z }.

Definition set_acc_Nonce (v : Z) (o : Account) : Account :=
  mkAccount v (acc_Balance o) (acc_Root o) (acc_CodeHash o).
Definition set_acc_Balance (v : Z) (o : Account) : Account :=
  mkAccount (acc_Nonce o) v (acc_Root o) (acc_CodeHash o).
Definition set_acc_Root (v : hash) (o : Account) : Account :=
  mkAccount (acc_Nonce o) (acc_Balance o) v (acc_CodeHash o).
Definition set_acc_CodeHash (v : bytes) (o : Account) : Account :=
  mkAccount (acc_Nonce o) (acc_Balance o) (acc_Root o) v.
Definition set_so_address (v : address) (o : stateObject) : stateObject :=
  mkObject v (so_data o) (so_dbErr o) (so_trie o) (so_code o) (so_origin o) (so_pending o) (so_dirty o)
    (so_fake o) (so_dirtyCode o) (so_suicided o) (so_deleted o).
Definition set_so_data (v : Account) (o : stateObject) : stateObject :=
  mkObject (so_address o) v (so_dbErr o) (so_trie o) (so_code o) (so_origin o) (so_pending o) (so_dirty o)
    (so_fake o) (so_dirtyCode o) (so_suicided o) (so_deleted o).
Definition set_so_dbErr (v : option goerror) (o : stateObject) : stateObject :=
  mkObject (so_address o) (so_data o) v (so_trie o) (so_code o) (so_origin o) (so_pending o) (so_dirty o)
    (so_fake o) (so_dirtyCode o) (so_suicided o) (so_deleted o).
Definition set_so_trie (v : option T) (o : stateObject) : stateObject :=
  mkObject (so_address o) (so_data o) (so_dbErr o) v (so_code o) (so_origin o) (so_pending o) (so_dirty o)
    (so_fake o) (so_dirtyCode o) (so_suicided o) (so_deleted o).
Definition set_so_code (v : option bytes) (o : stateObject) : stateObject :=
  mkObject (so_address o) (so_data o) (so_dbErr o) (so_trie o) v (so_origin o) (so_pending o) (so_dirty o)
    (so_fake o) (so_dirtyCode o) (so_suicided o) (so_deleted o).
Definition set_so_origin (v : Storage) (o : stateObject) : stateObject :=
  mkObject (so_address o) (so_data o) (so_dbErr o) (so_trie o) (so_code o) v (so_pending o) (so_dirty o)
    (so_fake o) (so_dirtyCode o) (so_suicided o) (so_deleted o).
Definition set_so_pending (v : Storage) (o : stateObject) : stateObject :=
  mkObject (so_address o) (so_data o) (so_dbErr o) (so_trie o) (so_code o) (so_origin o) v (so_dirty o)
    (so_fake o) (so_dirtyCode o) (so_suicided o) (so_deleted o).
Definition set_so_dirty (v : Storage) (o : stateObject) : stateObject :=
  mkObject (so_address o) (so_data o) (so_dbErr o) (so_trie o) (so_code o) (so_origin o) (so_pending o) v
    (so_fake o) (so_dirtyCode o) (so_suicided o) (so_deleted o).
Definition set_so_fake (v : option Storage) (o : stateObject) : stateObject :=
  mkObject (so_address o) (so_data o) (so_dbErr o) (so_trie o) (so_code o) (so_origin o) (so_pending o)
    (so_dirty o) v (so_dirtyCode o) (so_suicided o) (so_deleted o).
Definition set_so_dirtyCode (v : bool) (o : stateObject) : stateObject :=
  mkObject (so_address o) (so_data o) (so_dbErr o) (so_trie o) (so_code o) (so_origin o) (so_pending o)
    (so_dirty o) (so_fake o) v (so_suicided o) (so_deleted o).
Definition set_so_suicided (v : bool) (o : stateObject) : stateObject :=
  mkObject (so_address o) (so_data o) (so_dbErr o) (so_trie o) (so_code o) (so_origin o) (so_pending o)
    (so_dirty o) (so_fake o) (so_dirtyCode o) v (so_deleted o).
Definition set_so_deleted (v : bool) (o : stateObject) : stateObject :=
  mkObject (so_address o) (so_data o) (so_dbErr o) (so_trie o) (so_code o) (so_origin o) (so_pending o)
    (so_dirty o) (so_fake o) (so_dirtyCode o) (so_suicided o) v.
Definition set_sdb_db (v : D) (o : StateDB) : StateDB :=
  mkStateDB v (sdb_trie o) (sdb_objects o) (sdb_pending o) (sdb_dirty o) (sdb_dbErr o) (sdb_refund o)
    (sdb_thash o) (sdb_bhash o) (sdb_txIndex o) (sdb_logs o) (sdb_logSize o) (sdb_preimages o)
    (sdb_accessList o) (sdb_journal o) (sdb_revisions o) (sdb_nextRevisionId o).
Definition set_sdb_trie (v : T) (o : StateDB) : StateDB :=
  mkStateDB (sdb_db o) v (sdb_objects o) (sdb_pending o) (sdb_dirty o) (sdb_dbErr o) (sdb_refund o)
    (sdb_thash o) (sdb_bhash o) (sdb_txIndex o) (sdb_logs o) (sdb_logSize o) (sdb_preimages o)
    (sdb_accessList o) (sdb_journal o) (sdb_revisions o) (sdb_nextRevisionId o).
Definition set_sdb_objects (v : gmap address stateObject) (o : StateDB) : StateDB :=
  mkStateDB (sdb_db o) (sdb_trie o) v (sdb_pending o) (sdb_dirty o) (sdb_dbErr o) (sdb_refund o)
    (sdb_thash o) (sdb_bhash o) (sdb_txIndex o) (sdb_logs o) (sdb_logSize o) (sdb_preimages o)
    (sdb_accessList o) (sdb_journal o) (sdb_revisions o) (sdb_nextRevisionId o).
Definition set_sdb_pending (v : gset address) (o : StateDB) : StateDB :=
  mkStateDB (sdb_db o) (sdb_trie o) (sdb_objects o) v (sdb_dirty o) (sdb_dbErr o) (sdb_refund o)
    (sdb_thash o) (sdb_bhash o) (sdb_txIndex o) (sdb_logs o) (sdb_logSize o) (sdb_preimages o)
    (sdb_accessList o) (sdb_journal o) (sdb_revisions o) (sdb_nextRevisionId o).
Definition set_sdb_dirty (v : gset address) (o : StateDB) : StateDB :=
  mkStateDB (sdb_db o) (sdb_trie o) (sdb_objects o) (sdb_pending o) v (sdb_dbErr o) (sdb_refund o)
    (sdb_thash o) (sdb_bhash o) (sdb_txIndex o) (sdb_logs o) (sdb_logSize o) (sdb_preimages o)
    (sdb_accessList o) (sdb_journal o) (sdb_revisions o) (sdb_nextRevisionId o).
Definition set_sdb_dbErr (v : option goerror) (o : StateDB) : StateDB :=
  mkStateDB (sdb_db o) (sdb_trie o) (sdb_objects o) (sdb_pending o) (sdb_dirty o) v (sdb_refund o)
    (sdb_thash o) (sdb_bhash o) (sdb_txIndex o) (sdb_logs o) (sdb_logSize o) (sdb_preimages o)
    (sdb_accessList o) (sdb_journal o) (sdb_revisions o) (sdb_nextRevisionId o).
Definition set_sdb_refund (v : Z) (o : StateDB) : StateDB :=
  mkStateDB (sdb_db o) (sdb_trie o) (sdb_objects o) (sdb_pending o) (sdb_dirty o) (sdb_dbErr o) v
    (sdb_thash o) (sdb_bhash o) (sdb_txIndex o) (sdb_logs o) (sdb_logSize o) (sdb_preimages o)
    (sdb_accessList o) (sdb_journal o) (sdb_revisions o) (sdb_nextRevisionId o).
Definition set_sdb_thash (v : hash) (o : StateDB) : StateDB :=
  mkStateDB (sdb_db o) (sdb_trie o) (sdb_objects o) (sdb_pending o) (sdb_dirty o) (sdb_dbErr o)
    (sdb_refund o) v (sdb_bhash o) (sdb_txIndex o) (sdb_logs o) (sdb_logSize o) (sdb_preimages o)
    (sdb_accessList o) (sdb_journal o) (sdb_revisions o) (sdb_nextRevisionId o).
Definition set_sdb_bhash (v : hash) (o : StateDB) : StateDB :=
  mkStateDB (sdb_db o) (sdb_trie o) (sdb_objects o) (sdb_pending o) (sdb_dirty o) (sdb_dbErr o)
    (sdb_refund o) (sdb_thash o) v (sdb_txIndex o) (sdb_logs o) (sdb_logSize o) (sdb_preimages o)
    (sdb_accessList o) (sdb_journal o) (sdb_revisions o) (sdb_nextRevisionId o).
Definition set_sdb_txIndex (v : Z) (o : StateDB) : StateDB :=
  mkStateDB (sdb_db o) (sdb_trie o) (sdb_objects o) (sdb_pending o) (sdb_dirty o) (sdb_dbErr o)
    (sdb_refund o) (sdb_thash o) (sdb_bhash o) v (sdb_logs o) (sdb_logSize o) (sdb_preimages o)
    (sdb_accessList o) (sdb_journal o) (sdb_revisions o) (sdb_nextRevisionId o).
Definition set_sdb_logs (v : gmap hash (list Log)) (o : StateDB) : StateDB :=
  mkStateDB (sdb_db o) (sdb_trie o) (sdb_objects o) (sdb_pending o) (sdb_dirty o) (sdb_dbErr o)
    (sdb_refund o) (sdb_thash o) (sdb_bhash o) (sdb_txIndex o) v (sdb_logSize o) (sdb_preimages o)
    (sdb_accessList o) (sdb_journal o) (sdb_revisions o) (sdb_nextRevisionId o).
Definition set_sdb_logSize (v : Z) (o : StateDB) : StateDB :=
  mkStateDB (sdb_db o) (sdb_trie o) (sdb_objects o) (sdb_pending o) (sdb_dirty o) (sdb_dbErr o)
    (sdb_refund o) (sdb_thash o) (sdb_bhash o) (sdb_txIndex o) (sdb_logs o) v (sdb_preimages o)
    (sdb_accessList o) (sdb_journal o) (sdb_revisions o) (sdb_nextRevisionId o).
Definition set_sdb_preimages (v : gmap hash bytes) (o : StateDB) : StateDB :=
  mkStateDB (sdb_db o) (sdb_trie o) (sdb_objects o) (sdb_pending o) (sdb_dirty o) (sdb_dbErr o)
    (sdb_refund o) (sdb_thash o) (sdb_bhash o) (sdb_txIndex o) (sdb_logs o) (sdb_logSize o) v
    (sdb_accessList o) (sdb_journal o) (sdb_revisions o) (sdb_nextRevisionId o).
Definition set_sdb_accessList (v : accessList) (o : StateDB) : StateDB :=
  mkStateDB (sdb_db o) (sdb_trie o) (sdb_objects o) (sdb_pending o) (sdb_dirty o) (sdb_dbErr o)
    (sdb_refund o) (sdb_thash o) (sdb_bhash o) (sdb_txIndex o) (sdb_logs o) (sdb_logSize o) (sdb_preimages
    o) v (sdb_journal o) (sdb_revisions o) (sdb_nextRevisionId o).
Definition set_sdb_journal (v : journal) (o : StateDB) : StateDB :=
  mkStateDB (sdb_db o) (sdb_trie o) (sdb_objects o) (sdb_pending o) (sdb_dirty o) (sdb_dbErr o)
    (sdb_refund o) (sdb_thash o) (sdb_bhash o) (sdb_txIndex o) (sdb_logs o) (sdb_logSize o) (sdb_preimages
    o) (sdb_accessList o) v (sdb_revisions o) (sdb_nextRevisionId o).
Definition set_sdb_revisions (v : list (Z * nat)) (o : StateDB) : StateDB :=
  mkStateDB (sdb_db o) (sdb_trie o) (sdb_objects o) (sdb_pending o) (sdb_dirty o) (sdb_dbErr o)
    (sdb_refund o) (sdb_thash o) (sdb_bhash o) (sdb_txIndex o) (sdb_logs o) (sdb_logSize o) (sdb_preimages
    o) (sdb_accessList o) (sdb_journal o) v (sdb_nextRevisionId o).
Definition set_sdb_nextRevisionId (v : Z) (o : StateDB) : StateDB :=
  mkStateDB (sdb_db o) (sdb_trie o) (sdb_objects o) (sdb_pending o) (sdb_dirty o) (sdb_dbErr o)
    (sdb_refund o) (sdb_thash o) (sdb_bhash o) (sdb_txIndex o) (sdb_logs o) (sdb_logSize o) (sdb_preimages
    o) (sdb_accessList o) (sdb_journal o) (sdb_revisions o) v.

End StateData.
Arguments stateObject T : clear implicits.
Arguments journalEntry T : clear implicits.
Arguments journal T : clear implicits.
Arguments StateDB T D : clear implicits.
