(* ===== verification/State.v ===== *)
(** The operations of the state database (core/state/statedb.go, state_object.go,
    journal.go), each a computation on [StateDB].

    [UsingOVM] is the switch of rollup/rcfg: with it, balances live in the storage
    of the OVM_ETH contract. *)
From stdpp Require Import prelude gmap list strings.
From Stdlib Require Import ZArith Lia.
From S2P Require Import Prelude RLP RLPStream RLPDecode RLPTyped Crypto AccessList StateData.
Local Open Scope Z_scope.

Section State.
Context {T D : Type} {backend : Backend T D} {crypto : Crypto} (UsingOVM : bool).
Local Abbreviation stateObject := (stateObject T).
Local Abbreviation StateDB := (StateDB T D).
Implicit Types (a : address) (k : hash) (o obj : stateObject).

Definition emptyCodeHash : bytes := keccak256 [].
Definition addrHash (a : address) : hash := Keccak256Hash (addr_bytes a).

(** ** Accounts *)

Definition newObject (a : address) (d : Account) : stateObject :=
  let d := if acc_Root d =? 0 then set_acc_Root emptyRoot d else d in
  mkObject a d None None None ∅ ∅ ∅ None false false false.

(** [newObject(s, addr, Account{})]: nil fields get their defaults. *)
Definition emptyAccount : Account := mkAccount 0 0 0 emptyCodeHash.

Definition empty (o : stateObject) : bool :=
  (acc_Nonce (so_data o) =? 0) && (acc_Balance (so_data o) =? 0) &&
  bool_decide (acc_CodeHash (so_data o) = emptyCodeHash).

(** The account as stored in the trie. *)
Definition account_item (d : Account) : item :=
  Lst [uint_item (acc_Nonce d); big_item (acc_Balance d); Str (hash_bytes (acc_Root d)); Str (acc_CodeHash d)].
Definition decodeAccount : M Stream Account :=
  decodeStruct
    (nonce ← field (decodeUint 64);
     balance ← field decodeBigInt;
     root ← field (decodeByteArray 32);
     code ← field decodeByteSlice;
     ret (mkAccount nonce balance (be_value root) code)).

Definition setError (err : option goerror) (s : StateDB) : StateDB :=
  match sdb_dbErr s with None => set_sdb_dbErr err s | Some _ => s end.
Definition so_setError (err : option goerror) (o : stateObject) : stateObject :=
  match so_dbErr o with None => set_so_dbErr err o | Some _ => o end.

(** ** Storage of an object *)

(** [getTrie]: the storage trie, opened on first access; a trie that cannot be
    opened is replaced by the empty one.  Should that fail too, the source keeps a
    nil trie and panics on its use. *)
Definition getTrie (d : D) (o : stateObject) : outcome (T * stateObject) :=
  match so_trie o with
  | Some t => Ok (t, o)
  | None =>
      match OpenStorageTrie d (addrHash (so_address o)) (acc_Root (so_data o)) with
      | inr t => Ok (t, set_so_trie (Some t) o)
      | inl err =>
          match OpenStorageTrie d (addrHash (so_address o)) 0 with
          | inr t => Ok (t, so_setError (Some (ErrWrap "can't create storage trie" err)) (set_so_trie (Some t) o))
          | inl _ => Panic "nil storage trie"
          end
      end
  end.

(** The value in a trie leaf: an RLP string, cropped or padded to 32 bytes. *)
Definition leafValue (enc : bytes) : hash * option goerror :=
  match enc with
  | [] => (0, None)
  | _ => match Split enc with
         | Ok (_, content, _) => (BytesToHash content, None)
         | Err err => (0, Some err)
         | _ => (0, None)
         end
  end.

Definition so_GetCommittedState (d : D) (k : hash) (o : stateObject) : outcome (hash * stateObject) :=
  match so_fake o with
  | Some f => Ok (storage_get f k, o)
  | None =>
      match so_pending o !! k with
      | Some v => Ok (v, o)
      | None =>
          match so_origin o !! k with
          | Some v => Ok (v, o)
          | None =>
              ('(t, o) ← getTrie d o;
               match TryGet t (hash_bytes k) with
               | inl err => mret (0, so_setError (Some err) o)
               | inr enc =>
                   let '(v, err) := leafValue enc in
                   let o := match err with None => o | Some e => so_setError (Some e) o end in
                   mret (v, set_so_origin (<[k := v]> (so_origin o)) o)
               end)%stdpp
          end
      end
  end.

Definition so_GetState (d : D) (k : hash) (o : stateObject) : outcome (hash * stateObject) :=
  match so_fake o with
  | Some f => Ok (storage_get f k, o)
  | None =>
      match so_dirty o !! k with
      | Some v => Ok (v, o)
      | None => so_GetCommittedState d k o
      end
  end.

(** [Code]: loaded from the database on first access. *)
Definition so_Code (d : D) (o : stateObject) : option bytes * stateObject :=
  match so_code o with
  | Some c => (Some c, o)
  | None =>
      if bool_decide (acc_CodeHash (so_data o) = emptyCodeHash) then (None, o)
      else match ContractCode d (addrHash (so_address o)) (BytesToHash (acc_CodeHash (so_data o))) with
           | inr code => (Some code, set_so_code (Some code) o)
           | inl err => (None, so_setError (Some (ErrWrap "can't load code hash" err)) o)
           end
  end.

(** ** Live objects *)

(** What the trie holds for an account. *)
Definition loadAccount (t : T) (a : address) : option goerror * option Account :=
  match TryGet t (addr_bytes a) with
  | inl err => (Some err, None)
  | inr [] => (None, None)
  | inr enc => (None, match DecodeBytesT decodeAccount enc with Ok d => Some d | _ => None end)
  end.

Definition setStateObject (o : stateObject) (s : StateDB) : StateDB :=
  set_sdb_objects (<[so_address o := o]> (sdb_objects s)) s.

Definition getDeletedStateObject (a : address) : M StateDB (option stateObject) := fun s =>
  match sdb_objects s !! a with
  | Some obj => (Ok (Some obj), s)
  | None =>
      match loadAccount (sdb_trie s) a with
      | (err, None) => (Ok None, match err with None => s | Some _ => setError err s end)
      | (_, Some d) => let obj := newObject a d in (Ok (Some obj), setStateObject obj s)
      end
  end.

Definition getStateObject (a : address) : M StateDB (option stateObject) :=
  obj ← getDeletedStateObject a;
  ret (match obj with Some o => if so_deleted o then None else Some o | None => None end).

(** ** The journal *)

Definition dirtied (e : journalEntry T) : option address :=
  match e with
  | createObjectChange a | suicideChange a _ _ | balanceChange a _ | nonceChange a _
  | storageChange a _ _ | codeChange a _ _ | touchChange a => Some a
  | _ => None
  end.

Definition bump_dirty (a : address) (m : gmap address Z) : gmap address Z := <[a := default 0 (m !! a) + 1]> m.

Definition j_append (e : journalEntry T) (j : journal T) : journal T :=
  mkJournal (j_entries j ++ [e])
    (match dirtied e with Some a => bump_dirty a (j_dirties j) | None => j_dirties j end).
Definition j_dirty (a : address) (j : journal T) : journal T :=
  mkJournal (j_entries j) (bump_dirty a (j_dirties j)).

Definition journal_append (e : journalEntry T) : M StateDB unit :=
  modS (fun s => set_sdb_journal (j_append e (sdb_journal s)) s).

(** [s.getStateObject(a).f()] and the same without a nil check. *)
Definition on_object (a : address) (f : stateObject -> stateObject) : M StateDB unit :=
  obj ← getStateObject a;
  match obj with
  | Some o => modS (setStateObject (f o))
  | None => gopanic "nil state object"
  end.

Definition set_balance (v : Z) (o : stateObject) : stateObject := set_so_data (set_acc_Balance v (so_data o)) o.
Definition set_nonce (v : Z) (o : stateObject) : stateObject := set_so_data (set_acc_Nonce v (so_data o)) o.
Definition set_code (h : bytes) (c : option bytes) (o : stateObject) : stateObject :=
  set_so_dirtyCode true (set_so_data (set_acc_CodeHash h (so_data o)) (set_so_code c o)).
Definition set_state (k v : hash) (o : stateObject) : stateObject := set_so_dirty (<[k := v]> (so_dirty o)) o.

Definition entry_revert (e : journalEntry T) : M StateDB unit :=
  match e with
  | createObjectChange a =>
      modS (fun s => set_sdb_dirty (sdb_dirty s ∖ {[ a ]}) (set_sdb_objects (delete a (sdb_objects s)) s))
  | resetObjectChange prev => modS (setStateObject prev)
  | suicideChange a prev prevbalance =>
      obj ← getStateObject a;
      match obj with
      | Some o => modS (setStateObject (set_balance prevbalance (set_so_suicided prev o)))
      | None => ret tt
      end
  | balanceChange a prev => on_object a (set_balance prev)
  | nonceChange a prev => on_object a (set_nonce prev)
  | storageChange a k prevalue => on_object a (set_state k prevalue)
  | codeChange a prevcode prevhash => on_object a (set_code (hash_bytes (BytesToHash prevhash)) prevcode)
  | refundChange prev => modS (set_sdb_refund prev)
  | addLogChange txhash =>
      modS (fun s =>
        let logs := default [] (sdb_logs s !! txhash) in
        let m := if (length logs =? 1)%nat then delete txhash (sdb_logs s)
                 else <[txhash := take (length logs - 1) logs]> (sdb_logs s) in
        set_sdb_logSize (u64 (sdb_logSize s - 1)) (set_sdb_logs m s))
  | addPreimageChange h => modS (fun s => set_sdb_preimages (delete h (sdb_preimages s)) s)
  | touchChange _ => ret tt
  | accessListAddAccountChange a =>
      modS (fun s => set_sdb_accessList (DeleteAddress a (sdb_accessList s)) s)
  | accessListAddSlotChange a slot =>
      s ← getS;
      al ← lift_out (DeleteSlot a slot (sdb_accessList s));
      modS (set_sdb_accessList al)
  end.

(** Drop the dirty mark that the entry had set. *)
Definition undirty (e : journalEntry T) (j : journal T) : journal T :=
  match dirtied e with
  | None => j
  | Some a =>
      let n := default 0 (j_dirties j !! a) - 1 in
      mkJournal (j_entries j) (if n =? 0 then delete a (j_dirties j) else <[a := n]> (j_dirties j))
  end.

(** Undo the entries, the newest first. *)
Fixpoint revert_entries (newest_first : list (journalEntry T)) : M StateDB unit :=
  match newest_first with
  | [] => ret tt
  | e :: es =>
      entry_revert e ;;
      modS (fun s => set_sdb_journal (undirty e (sdb_journal s)) s) ;;
      revert_entries es
  end.

Definition j_revert (snapshot : nat) : M StateDB unit :=
  s ← getS;
  revert_entries (reverse (drop snapshot (j_entries (sdb_journal s)))) ;;
  modS (fun s => set_sdb_journal
    (mkJournal (take snapshot (j_entries (sdb_journal s))) (j_dirties (sdb_journal s))) s).

(** ** Creating objects *)

Definition createObject (a : address) : M StateDB (stateObject * option stateObject) :=
  prev ← getDeletedStateObject a;
  let newobj := set_nonce 0 (newObject a emptyAccount) in
  journal_append (match prev with None => createObjectChange a | Some p => resetObjectChange p end) ;;
  modS (setStateObject newobj) ;;
  ret (newobj, prev).

Definition GetOrNewStateObject (a : address) : M StateDB stateObject :=
  obj ← getStateObject a;
  match obj with
  | Some o => ret o
  | None => '(o, _) ← createObject a; ret o
  end.

Definition CreateAccount (a : address) : M StateDB unit :=
  '(newobj, prev) ← createObject a;
  match prev with
  | Some p => modS (setStateObject (set_balance (acc_Balance (so_data p)) newobj))
  | None => ret tt
  end.

(** ** Changing an object *)

Definition so_SetBalance (amount : Z) (o : stateObject) : M StateDB unit :=
  journal_append (balanceChange (so_address o) (acc_Balance (so_data o))) ;;
  modS (setStateObject (set_balance amount o)).

Definition touch (o : stateObject) : M StateDB unit :=
  journal_append (touchChange (so_address o)) ;;
  when (so_address o =? ripemd) (modS (fun s => set_sdb_journal (j_dirty (so_address o) (sdb_journal s)) s)).

Definition so_AddBalance (amount : Z) (o : stateObject) : M StateDB unit :=
  if amount =? 0 then when (empty o) (touch o)
  else so_SetBalance (acc_Balance (so_data o) + amount) o.

Definition so_SubBalance (amount : Z) (o : stateObject) : M StateDB unit :=
  if amount =? 0 then ret tt else so_SetBalance (acc_Balance (so_data o) - amount) o.

Definition so_SetNonce (nonce : Z) (o : stateObject) : M StateDB unit :=
  journal_append (nonceChange (so_address o) (acc_Nonce (so_data o))) ;;
  modS (setStateObject (set_nonce nonce o)).

Definition so_SetCode (codeHash : hash) (code : option bytes) (o : stateObject) : M StateDB unit :=
  s ← getS;
  let '(prevcode, o) := so_Code (sdb_db s) o in
  journal_append (codeChange (so_address o) prevcode (acc_CodeHash (so_data o))) ;;
  modS (setStateObject (set_code (hash_bytes codeHash) code o)).

Definition so_SetState (k v : hash) (o : stateObject) : M StateDB unit :=
  match so_fake o with
  | Some f => modS (setStateObject (set_so_fake (Some (<[k := v]> f)) o))
  | None =>
      s ← getS;
      '(prev, o) ← lift_out (so_GetState (sdb_db s) k o);
      modS (setStateObject o) ;;
      if prev =? v then ret tt
      else
        journal_append (storageChange (so_address o) k prev) ;;
        modS (setStateObject (set_state k v o))
  end.

(** [SetStorage], for debugging: the new entries win over the old ones. *)
Definition so_SetStorage (storage : Storage) (o : stateObject) : M StateDB unit :=
  modS (setStateObject (set_so_fake (Some (storage ∪ default ∅ (so_fake o))) o)).

(** ** Reads *)

Definition Exist (a : address) : M StateDB bool :=
  obj ← getStateObject a; ret (match obj with Some _ => true | None => false end).

Definition Empty (a : address) : M StateDB bool :=
  so ← getStateObject a; ret (match so with Some o => empty o | None => true end).

Definition GetNonce (a : address) : M StateDB Z :=
  obj ← getStateObject a; ret (match obj with Some o => acc_Nonce (so_data o) | None => 0 end).

(** Read through an object, keeping what the read has cached in it. *)
Definition GetState (a : address) (k : hash) : M StateDB hash :=
  obj ← getStateObject a;
  match obj with
  | None => ret 0
  | Some o =>
      s ← getS;
      '(v, o) ← lift_out (so_GetState (sdb_db s) k o);
      modS (setStateObject o) ;; ret v
  end.

Definition GetCommittedState (a : address) (k : hash) : M StateDB hash :=
  obj ← getStateObject a;
  match obj with
  | None => ret 0
  | Some o =>
      s ← getS;
      '(v, o) ← lift_out (so_GetCommittedState (sdb_db s) k o);
      modS (setStateObject o) ;; ret v
  end.

Definition GetCode (a : address) : M StateDB (option bytes) :=
  obj ← getStateObject a;
  match obj with
  | None => ret None
  | Some o =>
      s ← getS;
      let '(c, o) := so_Code (sdb_db s) o in
      modS (setStateObject o) ;; ret c
  end.

Definition GetCodeSize (a : address) : M StateDB Z :=
  obj ← getStateObject a;
  match obj with
  | None => ret 0
  | Some o =>
      match so_code o with
      | Some c => ret (Z.of_nat (length c))
      | None =>
          s ← getS;
          match ContractCodeSize (sdb_db s) (addrHash (so_address o)) (BytesToHash (acc_CodeHash (so_data o))) with
          | inr size => ret size
          | inl err => modS (setError (Some err)) ;; ret 0
          end
      end
  end.

Definition GetCodeHash (a : address) : M StateDB hash :=
  obj ← getStateObject a;
  ret (match obj with Some o => BytesToHash (acc_CodeHash (so_data o)) | None => 0 end).

Definition HasSuicided (a : address) : M StateDB bool :=
  obj ← getStateObject a; ret (match obj with Some o => so_suicided o | None => false end).

Definition GetOVMBalanceKey (a : address) : hash :=
  BytesToHash (keccak256 (LeftPadBytes (addr_bytes a) 32 ++ LeftPadBytes (big_bytes 0) 32)).

Definition GetBalance (a : address) : M StateDB Z :=
  if UsingOVM then GetState OvmEthAddress (GetOVMBalanceKey a)
  else obj ← getStateObject a; ret (match obj with Some o => acc_Balance (so_data o) | None => 0 end).

Definition GetRefund : M StateDB Z := gets sdb_refund.
Definition GetLogs (h : hash) : M StateDB (list Log) := gets (fun s => default [] (sdb_logs s !! h)).

(** ** Changes *)

Definition SetState (a : address) (k v : hash) : M StateDB unit :=
  o ← GetOrNewStateObject a; so_SetState k v o.

(** A balance in the storage of OVM_ETH. *)
Definition change_ovm_balance (a : address) (f : Z -> Z) : M StateDB unit :=
  let key := GetOVMBalanceKey a in
  bal ← GetState OvmEthAddress key;
  SetState OvmEthAddress key (BigToHash (f bal)).

Definition AddBalance (a : address) (amount : Z) : M StateDB unit :=
  if UsingOVM then change_ovm_balance a (fun bal => bal + amount)
  else o ← GetOrNewStateObject a; so_AddBalance amount o.

Definition SubBalance (a : address) (amount : Z) : M StateDB unit :=
  if UsingOVM then change_ovm_balance a (fun bal => bal - amount)
  else o ← GetOrNewStateObject a; so_SubBalance amount o.

Definition SetBalance (a : address) (amount : Z) : M StateDB unit :=
  if UsingOVM then SetState OvmEthAddress (GetOVMBalanceKey a) (BigToHash amount)
  else o ← GetOrNewStateObject a; so_SetBalance amount o.

Definition SetNonce (a : address) (nonce : Z) : M StateDB unit :=
  o ← GetOrNewStateObject a; so_SetNonce nonce o.

Definition SetCode (a : address) (code : option bytes) : M StateDB unit :=
  o ← GetOrNewStateObject a; so_SetCode (Keccak256Hash (default [] code)) code o.

Definition SetStorage (a : address) (storage : Storage) : M StateDB unit :=
  o ← GetOrNewStateObject a; so_SetStorage storage o.

Definition Suicide (a : address) : M StateDB bool :=
  obj ← getStateObject a;
  match obj with
  | None => ret false
  | Some o =>
      journal_append (suicideChange a (so_suicided o) (acc_Balance (so_data o))) ;;
      modS (setStateObject (set_balance 0 (set_so_suicided true o))) ;;
      ret true
  end.

Definition AddLog (log : Log) : M StateDB unit :=
  s ← getS;
  journal_append (addLogChange (sdb_thash s)) ;;
  let log := mkLog (log_Address log) (log_Topics log) (log_Data log) (log_BlockNumber log)
    (sdb_thash s) (u64 (sdb_txIndex s)) (sdb_bhash s) (sdb_logSize s) (log_Removed log) in
  modS (fun s => set_sdb_logSize (u64 (sdb_logSize s + 1))
    (set_sdb_logs (<[sdb_thash s := default [] (sdb_logs s !! sdb_thash s) ++ [log]]> (sdb_logs s)) s)).

Definition AddPreimage (h : hash) (preimage : bytes) : M StateDB unit :=
  s ← getS;
  match sdb_preimages s !! h with
  | Some _ => ret tt
  | None =>
      journal_append (addPreimageChange h) ;;
      modS (fun s => set_sdb_preimages (<[h := preimage]> (sdb_preimages s)) s)
  end.

Definition AddRefund (gas : Z) : M StateDB unit :=
  s ← getS;
  journal_append (refundChange (sdb_refund s)) ;;
  modS (set_sdb_refund (u64 (sdb_refund s + gas))).

Definition SubRefund (gas : Z) : M StateDB unit :=
  s ← getS;
  journal_append (refundChange (sdb_refund s)) ;;
  if sdb_refund s <? gas then gopanic "Refund counter below zero"
  else modS (set_sdb_refund (sdb_refund s - gas)).

Definition AddAddressToAccessList (a : address) : M StateDB unit :=
  s ← getS;
  let '(change, al) := AddAddress a (sdb_accessList s) in
  modS (set_sdb_accessList al) ;;
  when change (journal_append (accessListAddAccountChange a)).

Definition AddSlotToAccessList (a : address) (slot : hash) : M StateDB unit :=
  s ← getS;
  '(addrMod, slotMod, al) ← lift_out (AddSlot a slot (sdb_accessList s));
  modS (set_sdb_accessList al) ;;
  when addrMod (journal_append (accessListAddAccountChange a)) ;;
  when slotMod (journal_append (accessListAddSlotChange a slot)).

Fixpoint each {S A} (l : list A) (f : A -> M S unit) : M S unit :=
  match l with [] => ret tt | x :: l => f x ;; each l f end.

Definition PrepareAccessList (sender : address) (dst : option address) (precompiles : list address)
    (list : list (address * list hash)) : M StateDB unit :=
  AddAddressToAccessList sender ;;
  (match dst with Some d => AddAddressToAccessList d | None => ret tt end) ;;
  each precompiles AddAddressToAccessList ;;
  each list (fun '(a, keys) => AddAddressToAccessList a ;; each keys (AddSlotToAccessList a)).

Definition AddressInAccessList (a : address) : M StateDB bool :=
  gets (fun s => ContainsAddress (sdb_accessList s) a).
Definition SlotInAccessList (a : address) (slot : hash) : M StateDB (bool * bool) :=
  s ← getS; lift_out (Contains (sdb_accessList s) a slot).

(** ** Revisions *)

Definition Snapshot : M StateDB Z :=
  id ← gets sdb_nextRevisionId;
  modS (fun s => set_sdb_revisions (sdb_revisions s ++ [(id, length (j_entries (sdb_journal s)))])
                   (set_sdb_nextRevisionId (id + 1) s)) ;;
  ret id.

(** [sort.Search(n, f)]: binary search for the least index at which [f] holds. *)
Fixpoint sort_Search_loop (fuel : nat) (f : nat -> bool) (i j : nat) : nat :=
  match fuel with
  | O => i
  | S fuel =>
      if (i <? j)%nat then
        let h := ((i + j) / 2)%nat in
        if f h then sort_Search_loop fuel f i h else sort_Search_loop fuel f (S h) j
      else i
  end.
Definition sort_Search (n : nat) (f : nat -> bool) : nat := sort_Search_loop n f 0 n.

Definition RevertToSnapshot (revid : Z) : M StateDB unit :=
  s ← getS;
  let revs := sdb_revisions s in
  let idx := sort_Search (length revs)
    (fun i => match revs !! i with Some (id, _) => revid <=? id | None => true end) in
  match revs !! idx with
  | Some (id, snapshot) =>
      if negb (id =? revid) then gopanic "revision id cannot be reverted"
      else
        j_revert snapshot ;;
        modS (fun s => set_sdb_revisions (take idx revs) s)
  | None => gopanic "revision id cannot be reverted"
  end.

(** ** The end of a transaction *)

Definition so_finalise (o : stateObject) : stateObject :=
  set_so_dirty ∅ (set_so_pending (so_dirty o ∪ so_pending o) o).

Definition clearJournalAndRefund (s : StateDB) : StateDB :=
  let s := match j_entries (sdb_journal s) with
           | [] => s
           | _ => set_sdb_refund 0 (set_sdb_journal newJournal s)
           end in
  set_sdb_revisions [] s.

(** The body of the loop of [Finalise] for one dirty address. *)
Definition finalise_one (deleteEmptyObjects : bool) (a : address) (s : StateDB) : StateDB :=
  match sdb_objects s !! a with
  | None => s
  | Some obj =>
      let obj := if so_suicided obj || (deleteEmptyObjects && empty obj)
                 then set_so_deleted true obj else so_finalise obj in
      set_sdb_dirty ({[ a ]} ∪ sdb_dirty s)
        (set_sdb_pending ({[ a ]} ∪ sdb_pending s) (set_sdb_objects (<[a := obj]> (sdb_objects s)) s))
  end.

Definition Finalise (deleteEmptyObjects : bool) : M StateDB unit :=
  modS (fun s =>
    clearJournalAndRefund
      (foldr (finalise_one deleteEmptyObjects) s (elements (dom (j_dirties (sdb_journal s)))))).

Definition Prepare (thash bhash : hash) (ti : Z) : M StateDB unit :=
  modS (fun s => set_sdb_accessList newAccessList
    (set_sdb_txIndex ti (set_sdb_bhash bhash (set_sdb_thash thash s)))).

(** ** Writing to the tries *)

Fixpoint TrimLeftZeroes (b : bytes) : bytes :=
  match b with
  | x :: b' => if b2z x =? 0 then TrimLeftZeroes b' else b
  | [] => []
  end.

(** One pending slot: skip what has not changed, delete zero, write the rest. *)
Definition update_slot (kv : hash * hash) (r : T * stateObject) : T * stateObject :=
  let '(tr, o) := r in
  let '(key, value) := kv in
  if value =? storage_get (so_origin o) key then (tr, o)
  else
    let o := set_so_origin (<[key := value]> (so_origin o)) o in
    let '(err, tr) :=
      if value =? 0 then TryDelete tr (hash_bytes key)
      else TryUpdate tr (hash_bytes key) (EncodeToBytes (Str (TrimLeftZeroes (hash_bytes value)))) in
    (tr, match err with None => o | Some _ => so_setError err o end).

Definition updateTrie (d : D) (o : stateObject) : outcome (T * stateObject) :=
  ('(tr, o) ← getTrie d (so_finalise o);
   let '(tr, o) := foldr update_slot (tr, o) (map_to_list (so_pending o)) in
   mret (tr, set_so_pending ∅ (set_so_trie (Some tr) o)))%stdpp.

Definition updateRoot (d : D) (o : stateObject) : outcome stateObject :=
  ('(tr, o) ← updateTrie d o;
   mret (set_so_data (set_acc_Root (trie_Hash tr) (so_data o)) o))%stdpp.

Definition CommitTrie (o : stateObject) : M StateDB (option goerror) :=
  s ← getS;
  '(tr, o) ← lift_out (updateTrie (sdb_db s) o);
  match so_dbErr o with
  | Some err => modS (setStateObject o) ;; ret (Some err)
  | None =>
      let '(root, (tr, d)) := trie_Commit tr (sdb_db s) in
      let o := set_so_trie (Some tr) o in
      modS (set_sdb_db d) ;;
      match root with
      | inr root => modS (setStateObject (set_so_data (set_acc_Root root (so_data o)) o)) ;; ret None
      | inl err => modS (setStateObject o) ;; ret (Some err)
      end
  end.

Definition updateStateObject (o : stateObject) : M StateDB unit :=
  if acc_Balance (so_data o) <? 0 then gopanic "can't encode object"
  else modS (fun s =>
    let '(err, tr) := TryUpdate (sdb_trie s) (addr_bytes (so_address o))
                        (EncodeToBytes (account_item (so_data o))) in
    setError err (set_sdb_trie tr s)).

Definition deleteStateObject (o : stateObject) : M StateDB unit :=
  modS (fun s =>
    let '(err, tr) := TryDelete (sdb_trie s) (addr_bytes (so_address o)) in
    setError err (set_sdb_trie tr s)).

Definition flush_one (a : address) : M StateDB unit :=
  s ← getS;
  obj ← deref "nil state object" (sdb_objects s !! a);
  if so_deleted obj then deleteStateObject obj
  else
    obj ← lift_out (updateRoot (sdb_db s) obj);
    modS (setStateObject obj) ;;
    updateStateObject obj.

Definition IntermediateRoot (deleteEmptyObjects : bool) : M StateDB hash :=
  Finalise deleteEmptyObjects ;;
  s ← getS;
  each (elements (sdb_pending s)) flush_one ;;
  modS (set_sdb_pending ∅) ;;
  gets (fun s => trie_Hash (sdb_trie s)).

Definition commit_one (a : address) : M StateDB unit :=
  s ← getS;
  obj ← deref "nil state object" (sdb_objects s !! a);
  if so_deleted obj then ret tt
  else
    (match so_code obj with
     | Some c => when (so_dirtyCode obj)
         (modS (set_sdb_db (InsertBlob (BytesToHash (acc_CodeHash (so_data obj))) c (sdb_db s))))
     | None => ret tt
     end) ;;
    let obj := match so_code obj with Some _ => set_so_dirtyCode false obj | None => obj end in
    err ← CommitTrie obj;
    match err with Some e => throw e | None => ret tt end.

(** [Commit]; the callback on leaves only counts references for the garbage
    collector of the trie database. *)
Definition Commit (deleteEmptyObjects : bool) : M StateDB hash :=
  IntermediateRoot deleteEmptyObjects ;;
  s ← getS;
  each (elements (sdb_dirty s)) commit_one ;;
  modS (set_sdb_dirty ∅) ;;
  s ← getS;
  let '(root, (tr, d)) := trie_Commit (sdb_trie s) (sdb_db s) in
  modS (fun s => set_sdb_db d (set_sdb_trie tr s)) ;;
  match root with inr root => ret root | inl err => throw err end.

(** ** Opening and copying *)

Definition New (root : hash) (db : D) : goerror + StateDB :=
  match OpenTrie db root with
  | inl err => inl err
  | inr tr => inr (mkStateDB db tr ∅ ∅ ∅ None 0 0 0 0 ∅ 0 ∅ newAccessList newJournal [] 0)
  end.

(** [Reset] keeps the recorded error and the revision counter. *)
Definition state_Reset (root : hash) : M StateDB unit :=
  s ← getS;
  match OpenTrie (sdb_db s) root with
  | inl err => throw err
  | inr tr =>
      modS (fun s => clearJournalAndRefund
        (mkStateDB (sdb_db s) tr ∅ ∅ ∅ (sdb_dbErr s) (sdb_refund s) 0 0 0 ∅ 0 ∅ newAccessList
           (sdb_journal s) (sdb_revisions s) (sdb_nextRevisionId s)))
  end.

Definition deepCopy (o : stateObject) : stateObject :=
  let n := newObject (so_address o) (so_data o) in
  mkObject (so_address n) (so_data n) None (so_trie o) (so_code o) (so_origin o) (so_pending o) (so_dirty o)
    None (so_dirtyCode o) (so_suicided o) (so_deleted o).

(** [Copy]: the objects that the journal, the pending and the dirty sets name; an
    address of the journal without an object is skipped, one of the sets panics. *)
Definition state_Copy (s : StateDB) : outcome StateDB :=
  let live := filter (fun a => is_Some (sdb_objects s !! a)) (dom (j_dirties (sdb_journal s))) in
  let named := live ∪ sdb_pending s ∪ sdb_dirty s in
  if bool_decide (set_Forall (fun a => is_Some (sdb_objects s !! a)) named)
  then Ok (mkStateDB (sdb_db s) (sdb_trie s)
        (deepCopy <$> filter (fun '(a, _) => a ∈ named) (sdb_objects s))
        (live ∪ sdb_pending s) (live ∪ sdb_dirty s) None (sdb_refund s) 0 0 0
        (sdb_logs s) (sdb_logSize s) (sdb_preimages s) (sdb_accessList s) newJournal [] 0)
  else Panic "nil state object".
End State.
