(* ===== verification/StateFacts.v ===== *)
(** Undoing changes of the state database.

    Two states are equivalent when every read gives the same answer: caches filled
    by reads, and objects loaded early or late, do not count.  Every operation is
    [undo]able: it only appends to the journal, and reverting what it has appended
    leads to an equivalent state.  Since reverting respects the equivalence, undoing
    composes, which gives the theorem on snapshots. *)
From stdpp Require Import prelude gmap list sorting strings.
From Stdlib Require Import ZArith Lia.
From S2P Require Import Prelude RLP RLPStream RLPDecode RLPTyped Crypto AccessList StateData State.
Local Open Scope Z_scope.

Section StateFacts.
Context {T D : Type} {backend : Backend T D} {crypto : Crypto} (UsingOVM : bool).
Local Abbreviation stateObject := (stateObject T).
Local Abbreviation StateDB := (StateDB T D).
Implicit Types (a : address) (k : hash) (o obj : stateObject) (s : StateDB).

(** ** What a read of an object returns *)

Definition trieOf (d : D) (o : stateObject) : outcome T :=
  match so_trie o with
  | Some t => Ok t
  | None =>
      match OpenStorageTrie d (addrHash (so_address o)) (acc_Root (so_data o)) with
      | inr t => Ok t
      | inl _ => match OpenStorageTrie d (addrHash (so_address o)) 0 with
                 | inr t => Ok t
                 | inl _ => Panic "nil storage trie"
                 end
      end
  end.

Definition slotOf (t : T) (k : hash) : hash :=
  match TryGet t (hash_bytes k) with inl _ => 0 | inr enc => fst (leafValue enc) end.

Definition committed (d : D) (o : stateObject) (k : hash) : outcome hash :=
  match so_fake o with
  | Some f => Ok (storage_get f k)
  | None =>
      match so_pending o !! k with
      | Some v => Ok v
      | None => match so_origin o !! k with Some v => Ok v | None => (fun t => slotOf t k) <$> trieOf d o end
      end
  end.
Definition current (d : D) (o : stateObject) (k : hash) : outcome hash :=
  match so_fake o with
  | Some f => Ok (storage_get f k)
  | None => match so_dirty o !! k with Some v => Ok v | None => committed d o k end
  end.
Definition codeOf (d : D) (o : stateObject) : option bytes :=
  match so_code o with
  | Some c => Some c
  | None =>
      if bool_decide (acc_CodeHash (so_data o) = emptyCodeHash) then None
      else match ContractCode d (addrHash (so_address o)) (BytesToHash (acc_CodeHash (so_data o))) with
           | inr c => Some c
           | inl _ => None
           end
  end.

(** Objects that answer alike. *)
Record obj_equiv (d : D) (o1 o2 : stateObject) : Prop := {
  oe_address : so_address o1 = so_address o2;
  oe_data : so_data o1 = so_data o2;
  oe_suicided : so_suicided o1 = so_suicided o2;
  oe_deleted : so_deleted o1 = so_deleted o2;
  oe_fake : so_fake o1 = so_fake o2;
  oe_current : forall k, current d o1 k = current d o2 k;
  oe_committed : forall k, committed d o1 k = committed d o2 k;
  oe_code : codeOf d o1 = codeOf d o2 }.

#[global] Instance obj_equiv_equivalence d : Equivalence (obj_equiv d).
Proof.
  split.
  - intros o. by constructor.
  - intros o1 o2 []. by constructor.
  - intros o1 o2 o3 [] []. constructor; try congruence; intros k; etrans; eauto.
Qed.

Lemma getTrie_trieOf d o : fst <$> getTrie d o = trieOf d o.
Proof.
  unfold getTrie, trieOf. destruct (so_trie o); [done|]. destruct (OpenStorageTrie d _ (acc_Root _)); [|done].
  by destruct (OpenStorageTrie d _ 0).
Qed.

Lemma getTrie_equiv d o t o' : getTrie d o = Ok (t, o') -> obj_equiv d o o' /\ so_trie o' = Some t /\
  so_origin o' = so_origin o /\ so_pending o' = so_pending o /\ so_dirty o' = so_dirty o /\ so_fake o' = so_fake o.
Proof.
  intros H. assert (Ht : trieOf d o = Ok t) by (by rewrite <- getTrie_trieOf, H).
  unfold getTrie in H. assert (o' = set_so_dbErr (so_dbErr o') (set_so_trie (Some t) o)) as ->.
  { destruct o as [adr dat err tr ? ? ? ? ? ? ? ?]; cbn in *. destruct tr as [t0|]; [by injection H as <- <-|].
    destruct (OpenStorageTrie d _ (acc_Root _)) as [e1|t0]; [destruct (OpenStorageTrie d _ 0) as [?|t0]|];
      [done|..]; injection H as <- <-; [|done]. unfold so_setError. cbn. by destruct err. }
  split; [|done].
  constructor; try done; intros k; unfold current, committed; cbn; destruct (so_fake o); try done;
    [destruct (so_dirty o !! k); try done|]; destruct (so_pending o !! k); try done;
    destruct (so_origin o !! k); try done; by rewrite Ht.
Qed.

Lemma so_setError_equiv d e o : obj_equiv d o (so_setError e o).
Proof. unfold so_setError. destruct (so_dbErr o); [done|]. by constructor. Qed.

(** A read returns the value of the slot and an object that answers alike. *)
Lemma so_GetCommittedState_spec d k o :
  match so_GetCommittedState d k o with
  | Ok (v, o') => committed d o k = Ok v /\ obj_equiv d o o'
  | Err e => committed d o k = Err e
  | Panic w => committed d o k = Panic w
  | Blocked => committed d o k = Blocked
  end.
Proof.
  unfold so_GetCommittedState, committed. destruct (so_fake o) as [f|] eqn:Ef; [done|].
  destruct (so_pending o !! k) as [v|] eqn:Ep; [done|]. destruct (so_origin o !! k) as [v|] eqn:Eo; [done|].
  rewrite <- getTrie_trieOf. destruct (getTrie d o) as [[t o']|e|w|] eqn:Et; try done.
  destruct (getTrie_equiv d o t o' Et) as (He & Ht & Ho & Hp & Hd & Hf).
  cbn [mbind outcome_bind fmap outcome_fmap fst]. unfold slotOf, mret, outcome_ret.
  destruct (TryGet t (hash_bytes k)) as [err|enc] eqn:EG.
  { split; [done|]. etrans; [exact He|apply so_setError_equiv]. }
  destruct (leafValue enc) as [v err] eqn:EL. cbn. split; [done|]. etrans; [exact He|].
  set (o1 := match err with None => o' | Some e => so_setError (Some e) o' end).
  assert (H1 : obj_equiv d o' o1 /\ so_trie o1 = Some t /\ so_origin o1 = so_origin o /\ so_pending o1 = so_pending o /\
    so_dirty o1 = so_dirty o /\ so_fake o1 = None).
  { subst o1. destruct err as [e|]; [|rewrite Ho, Hp, Hd, Hf; done]. unfold so_setError.
    destruct (so_dbErr o'); cbn; rewrite Ho, Hp, Hd, Hf; (split; [by constructor|done]). }
  destruct H1 as (H1 & Ht1 & Ho1 & Hp1 & Hd1 & Hf1). etrans; [exact H1|].
  assert (Hc : forall k', committed d (set_so_origin (<[k:=v]> (so_origin o1)) o1) k' = committed d o1 k').
  { intros k'. unfold committed. cbn. rewrite Hf1. destruct (so_pending o1 !! k'); [done|].
    destruct (decide (k' = k)) as [->|Hne]; [|by rewrite lookup_insert_ne].
    rewrite lookup_insert_eq, Ho1, Eo. unfold trieOf. rewrite Ht1. cbn. unfold slotOf. by rewrite EG, EL. }
  constructor; try done. intros k'. unfold current. by rewrite Hc.
Qed.

Lemma so_GetState_spec d k o :
  match so_GetState d k o with
  | Ok (v, o') => current d o k = Ok v /\ obj_equiv d o o'
  | Err e => current d o k = Err e
  | Panic w => current d o k = Panic w
  | Blocked => current d o k = Blocked
  end.
Proof.
  unfold so_GetState, current. destruct (so_fake o) as [f|] eqn:Ef; [done|].
  destruct (so_dirty o !! k) as [v|]; [done|]. apply so_GetCommittedState_spec.
Qed.

Lemma so_Code_spec d o c o' : so_Code d o = (c, o') -> codeOf d o = c /\ obj_equiv d o o'.
Proof.
  unfold codeOf, so_Code. intros H. destruct (so_code o) as [c0|] eqn:Ec; [by simplify_eq|].
  case_bool_decide as Eh; [by simplify_eq|].
  destruct (ContractCode _ _ _) as [err|c0] eqn:E; simplify_eq; (split; [done|]); [apply so_setError_equiv|].
  constructor; try done. unfold codeOf. cbn. rewrite Ec, bool_decide_false by done. by rewrite E.
Qed.

(** The changes made to objects respect the equivalence. *)
Definition respects (d : D) (f : stateObject -> stateObject) : Prop :=
  forall o1 o2, obj_equiv d o1 o2 -> obj_equiv d (f o1) (f o2).

Lemma respects_balance d v : respects d (set_balance v).
Proof. intros o1 o2 []. constructor; try done. cbn. by f_equal. Qed.
Lemma respects_nonce d v : respects d (set_nonce v).
Proof. intros o1 o2 []. constructor; try done. cbn. by f_equal. Qed.
Lemma respects_suicided d b : respects d (set_so_suicided b).
Proof. intros o1 o2 []. by constructor. Qed.
Lemma respects_state d k v : respects d (set_state k v).
Proof.
  intros o1 o2 [Ha Hd Hs Hx Hf Hc Hm Hk]. constructor; try done. intros k'. unfold current. cbn.
  rewrite Hf. destruct (so_fake o2) eqn:Ef; [done|].
  destruct (decide (k' = k)) as [->|Hne]; [by rewrite !lookup_insert_eq|]. rewrite !lookup_insert_ne by done.
  specialize (Hc k'). unfold current in Hc. rewrite Hf, Ef in Hc. exact Hc.
Qed.
Lemma respects_code d h c : respects d (set_code h c).
Proof.
  intros o1 o2 [Ha Hd Hs Hx Hf Hc Hm Hk]. constructor; try done; [cbn; by f_equal|].
  unfold codeOf. cbn. destruct c; [done|]. by rewrite Ha.
Qed.

(** ** States that answer alike *)

(** The object of an address, live or in the trie. *)
Definition lookupObj (s : StateDB) (a : address) : option stateObject :=
  match sdb_objects s !! a with
  | Some o => Some o
  | None => newObject a <$> snd (loadAccount (sdb_trie s) a)
  end.

Definition logsOf (s : StateDB) (h : hash) : list Log := default [] (sdb_logs s !! h).

(** All that is not an object, a log, the journal or a recorded error. *)
Definition rest (s : StateDB) :=
  (sdb_db s, sdb_trie s, sdb_refund s, sdb_thash s, sdb_bhash s, sdb_txIndex s, sdb_logSize s,
   sdb_preimages s, sdb_accessList s).

Record state_equiv (s1 s2 : StateDB) : Prop := {
  se_rest : rest s1 = rest s2;
  se_logs : forall h, logsOf s1 h = logsOf s2 h;
  se_objects : forall a, option_Forall2 (obj_equiv (sdb_db s2)) (lookupObj s1 a) (lookupObj s2 a) }.

#[global] Instance state_equiv_equivalence : Equivalence state_equiv.
Proof.
  split.
  - intros s. constructor; [done|done|]. intros a. by destruct (lookupObj s a); constructor.
  - intros s1 s2 [Hr Hl Ho]. constructor; [done|done|]. intros a. assert (sdb_db s1 = sdb_db s2) as -> by (unfold rest in Hr; congruence).
    destruct (Ho a) as [o1 o2 H|]; constructor. by symmetry.
  - intros s1 s2 s3 [Hr Hl Ho] [Hr' Hl' Ho']. constructor; [congruence|intros h; by rewrite Hl|]. intros a.
    assert (E : sdb_db s2 = sdb_db s3) by (unfold rest in Hr'; congruence). specialize (Ho a). rewrite E in Ho.
    specialize (Ho' a). destruct Ho as [o1 o2 H|]; inversion Ho'; subst; constructor. by etrans.
Qed.

Lemma se_db s1 s2 : state_equiv s1 s2 -> sdb_db s1 = sdb_db s2.
Proof. intros [H _ _]. unfold rest in H. congruence. Qed.

(** Neither the journal nor a recorded error counts. *)
Lemma equiv_journal j s : state_equiv (set_sdb_journal j s) s.
Proof. constructor; [done|done|]. intros a. change (lookupObj (set_sdb_journal j s) a) with (lookupObj s a). by destruct (lookupObj s a); constructor. Qed.
Lemma equiv_setError e s : state_equiv (setError e s) s.
Proof. unfold setError. destruct (sdb_dbErr s); [done|]. constructor; [done|done|]. intros a. change (lookupObj (set_sdb_dbErr e s) a) with (lookupObj s a). by destruct (lookupObj s a); constructor. Qed.

Lemma lookup_setStateObject o s a :
  lookupObj (setStateObject o s) a = if decide (a = so_address o) then Some o else lookupObj s a.
Proof.
  unfold lookupObj, setStateObject. cbn. case_decide as E; [subst; by rewrite lookup_insert_eq|].
  by rewrite lookup_insert_ne.
Qed.

Lemma equiv_setStateObject o1 o2 s1 s2 :
  state_equiv s1 s2 -> obj_equiv (sdb_db s2) o1 o2 -> state_equiv (setStateObject o1 s1) (setStateObject o2 s2).
Proof.
  intros [Hr Hl Ho] He. constructor; [done|done|]. intros a. rewrite !lookup_setStateObject, (oe_address _ _ _ He).
  case_decide; [by constructor|apply Ho].
Qed.

(** Storing what an address holds already. *)
Lemma equiv_setStateObject_same o s :
  option_Forall2 (obj_equiv (sdb_db s)) (Some o) (lookupObj s (so_address o)) -> state_equiv (setStateObject o s) s.
Proof.
  intros H. constructor; [done|done|]. intros a. rewrite lookup_setStateObject.
  case_decide as E; [by subst|]. by destruct (lookupObj s a); constructor.
Qed.

Lemma newObject_address a d : so_address (newObject (T:=T) a d) = a.
Proof. done. Qed.

Lemma getDeletedStateObject_spec a s :
  exists s', getDeletedStateObject a s = (Ok (lookupObj s a), s') /\ state_equiv s' s /\
    sdb_journal s' = sdb_journal s /\ sdb_revisions s' = sdb_revisions s /\
    sdb_nextRevisionId s' = sdb_nextRevisionId s /\ lookupObj s' a = lookupObj s a.
Proof.
  unfold getDeletedStateObject. destruct (sdb_objects s !! a) as [o|] eqn:E.
  { assert (Hl : lookupObj s a = Some o) by (unfold lookupObj; by rewrite E). rewrite Hl. by exists s. }
  destruct (loadAccount (sdb_trie s) a) as [err [d|]] eqn:El; cbn.
  - eexists. assert (Hl : lookupObj s a = Some (newObject a d)) by (unfold lookupObj; by rewrite E, El).
    rewrite Hl. split; [done|]. split; [|by rewrite lookup_setStateObject, decide_True].
    apply equiv_setStateObject_same. cbn. rewrite Hl. by constructor.
  - assert (Hl : lookupObj s a = None) by (unfold lookupObj; by rewrite E, El).
    rewrite Hl. destruct err as [e|]; [|by exists s]. eexists. split; [done|]. split; [apply equiv_setError|].
    unfold setError. by destruct (sdb_dbErr s); rewrite <- Hl.
Qed.

Definition live (obj : option stateObject) : option stateObject :=
  match obj with Some o => if so_deleted o then None else Some o | None => None end.

Lemma getStateObject_spec a s :
  exists s', getStateObject a s = (Ok (live (lookupObj s a)), s') /\ state_equiv s' s /\
    sdb_journal s' = sdb_journal s /\ sdb_revisions s' = sdb_revisions s /\
    sdb_nextRevisionId s' = sdb_nextRevisionId s /\ lookupObj s' a = lookupObj s a.
Proof.
  unfold getStateObject. destruct (getDeletedStateObject_spec a s) as (s' & H & Hs').
  exists s'. by erewrite bind_Ok.
Qed.

(** ** Reverting respects the equivalence *)

Definition proper (m : M StateDB unit) : Prop := forall s1 s2 s1',
  state_equiv s1 s2 -> m s1 = (Ok tt, s1') -> exists s2', m s2 = (Ok tt, s2') /\ state_equiv s1' s2'.

Lemma live_equiv d x y : option_Forall2 (obj_equiv d) x y -> option_Forall2 (obj_equiv d) (live x) (live y).
Proof.
  intros [o1 o2 H|]; cbn; [|constructor]. rewrite (oe_deleted _ _ _ H).
  by destruct (so_deleted o2); constructor.
Qed.

(** After a lookup in both states: the objects are equivalent, and so are the states. *)
Lemma getStateObject_both a s1 s2 : state_equiv s1 s2 ->
  exists x y s1' s2', getStateObject a s1 = (Ok x, s1') /\ getStateObject a s2 = (Ok y, s2') /\
    option_Forall2 (obj_equiv (sdb_db s2')) x y /\ state_equiv s1' s2'.
Proof.
  intros He. destruct (getStateObject_spec a s1) as (s1' & H1 & E1 & _).
  destruct (getStateObject_spec a s2) as (s2' & H2 & E2 & _). eexists _, _, s1', s2'. split_and!; [done|done| |].
  - rewrite (se_db _ _ E2). apply live_equiv, (se_objects _ _ He).
  - etrans; [exact E1|]. etrans; [exact He|by symmetry].
Qed.

Lemma proper_on_object a f : (forall d, respects d f) -> proper (on_object a f).
Proof.
  intros Hf s1 s2 s1' He H. destruct (getStateObject_both a s1 s2 He) as (x & y & t1 & t2 & H1 & H2 & Hxy & Ht).
  unfold on_object in *. erewrite bind_Ok in H by done. erewrite bind_Ok by done.
  destruct Hxy as [o1 o2 Ho|]; [|done]. unfold modS in *. injection H as <-.
  eexists. split; [done|]. apply equiv_setStateObject; [done|]. by apply Hf.
Qed.

Lemma proper_entry e : proper (entry_revert e).
Proof.
  destruct e; cbn [entry_revert]; try (apply proper_on_object; intros d);
    [| | |apply respects_balance|apply respects_nonce|apply respects_state|apply respects_code|..];
    intros s1 s2 s1' He H.
  2: { unfold modS in *. injection H as <-. eexists. split; [done|]. by apply equiv_setStateObject. }
  2: { destruct (getStateObject_both account s1 s2 He) as (x & y & t1 & t2 & H1 & H2 & Hxy & Ht).
       erewrite bind_Ok in H by done. erewrite bind_Ok by done. destruct Hxy as [o1 o2 Ho|].
       - unfold modS in *. injection H as <-. eexists. split; [done|]. apply equiv_setStateObject; [done|].
         by apply respects_balance, respects_suicided.
       - unfold ret in *. injection H as <-. by eexists. }
  all: destruct He as [Hr Hl Ho]; unfold rest in Hr.
  - unfold modS in *. injection H as <-. eexists. split; [done|]. constructor; [exact Hr|done|].
    intros b. unfold lookupObj in *. cbn. specialize (Ho b). destruct (decide (b = account)) as [->|Hne].
    + rewrite !lookup_delete_eq. assert (sdb_trie s1 = sdb_trie s2) as -> by congruence.
      clear Ho. by destruct (snd (loadAccount (sdb_trie s2) account)); constructor.
    + by rewrite !lookup_delete_ne.
  - unfold modS in *. injection H as <-. eexists. split; [done|]. constructor; [|done|done].
    unfold rest in *. cbn. congruence.
  - unfold modS in *. injection H as <-. eexists. split; [done|].
    pose proof (Hl txhash) as Ht. unfold logsOf in Ht. constructor; [unfold rest; cbn; congruence| |done].
    intros h. specialize (Hl h). unfold logsOf in *. cbn. rewrite Ht.
    destruct (length _ =? 1)%nat; destruct (decide (h = txhash)) as [->|Hne];
      rewrite ?lookup_delete_eq, ?lookup_insert_eq, ?lookup_delete_ne, ?lookup_insert_ne by done; done.
  - unfold modS in *. injection H as <-. eexists. split; [done|]. constructor; [|done|done].
    unfold rest in *. cbn. congruence.
  - unfold ret in *. injection H as <-. by eexists.
  - unfold modS in *. injection H as <-. eexists. split; [done|]. constructor; [|done|done].
    unfold rest in *. cbn. congruence.
  - unfold getS in *. unfold bindM, lift_out, modS in *. assert (sdb_accessList s1 = sdb_accessList s2) as E by congruence.
    rewrite E in H. destruct (DeleteSlot a slot _) as [al|?|?|]; try done. injection H as <-.
    eexists. split; [done|]. constructor; [|done|done]. unfold rest in *. cbn. congruence.
Qed.

Lemma proper_revert_entries es : proper (revert_entries es).
Proof.
  induction es as [|e es IH]; cbn [revert_entries]; intros s1 s2 s1' He H.
  { unfold ret in H. injection H as <-. by exists s2. }
  apply bind_Ok_inv in H as ([] & t1 & H1 & H). destruct (proper_entry e _ _ _ He H1) as (t2 & H2 & Et).
  unfold modS in H. erewrite bind_Ok in H by done. erewrite bind_Ok by done. unfold modS. erewrite bind_Ok by done.
  eapply IH; [|exact H]. etrans; [apply equiv_journal|]. etrans; [exact Et|]. symmetry. apply equiv_journal.
Qed.

(** ** Undoing what an operation has done *)

Record sane (s : StateDB) : Prop := {
  sane_access : wf_al (sdb_accessList s);
  sane_logSize : in_u64 (sdb_logSize s);
  sane_object : forall a o, lookupObj s a = Some o ->
    so_address o = a /\ so_fake o = None /\ length (acc_CodeHash (so_data o)) = 32%nat }.

Lemma sane_equiv s1 s2 : state_equiv s1 s2 -> sane s1 -> sane s2.
Proof.
  intros [Hr _ Ho] [Ha Hl Hs]. unfold rest in Hr. constructor; [congruence|congruence|]. intros a o E.
  specialize (Ho a). rewrite E in Ho. inversion Ho as [o1 o2 He E1|]; subst. destruct (Hs a o1) as (H1 & H2 & H3); [done|].
  by rewrite <- (oe_address _ _ _ He), <- (oe_fake _ _ _ He), <- (oe_data _ _ _ He).
Qed.

Definition entries (s : StateDB) : list (journalEntry T) := j_entries (sdb_journal s).
Definition revs (s : StateDB) := (sdb_revisions s, sdb_nextRevisionId s).

(** [s'] is reached from [s] by changes that its journal can undo. *)
Record stepped (s s' : StateDB) : Prop := {
  st_sane : sane s';
  st_revs : revs s' = revs s;
  st_undo : exists new s'', entries s' = entries s ++ new /\
    revert_entries (reverse new) s' = (Ok tt, s'') /\ state_equiv s'' s }.

(** Under [P], the value and state that [m] returns satisfy [Q], and its changes can
    be undone. *)
Definition undo {A} (P : StateDB -> Prop) (m : M StateDB A) (Q : A -> StateDB -> Prop) : Prop :=
  forall s, sane s -> P s -> match m s with (Ok x, s') => Q x s' /\ stepped s s' | _ => True end.

Lemma stepped_equiv s s' :
  sane s -> state_equiv s' s -> entries s' = entries s -> revs s' = revs s -> stepped s s'.
Proof.
  intros Hs He Hj Hr. constructor; [by eapply sane_equiv; [symmetry|]|done|].
  exists [], s'. by rewrite Hj, app_nil_r.
Qed.

Lemma revert_entries_app es1 es2 s :
  revert_entries (es1 ++ es2) s = (revert_entries es1 ;; revert_entries es2) s.
Proof.
  revert s. induction es1 as [|e es1 IH]; intros s; [done|]. cbn [app revert_entries].
  unfold bindM in *. destruct (entry_revert e s) as [[]]; try done. unfold modS. by rewrite IH.
Qed.

Lemma stepped_trans s1 s2 s3 : stepped s1 s2 -> stepped s2 s3 -> stepped s1 s3.
Proof.
  intros [_ Hr1 (n1 & t1 & En1 & R1 & E1)] [Hs Hr2 (n2 & t2 & En2 & R2 & E2)].
  constructor; [done|congruence|]. destruct (proper_revert_entries _ _ _ _ (symmetry E2) R1) as (t3 & R3 & E3).
  exists (n1 ++ n2), t3. rewrite En2, En1, app_assoc. split; [done|]. split.
  - rewrite reverse_app, revert_entries_app. by erewrite bind_Ok.
  - etrans; [symmetry; exact E3|exact E1].
Qed.

Lemma undo_ret {A} P (x : A) (Q : A -> StateDB -> Prop) : (forall s, P s -> Q x s) -> undo P (ret x) Q.
Proof. intros H s Hs HP. split; [by apply H|]. by apply stepped_equiv. Qed.

Lemma undo_bind {A B} P (m : M StateDB A) (f : A -> M StateDB B) Q R :
  undo P m Q -> (forall x, undo (Q x) (f x) R) -> undo P (bindM m f) R.
Proof.
  intros Hm Hf s Hs HP. specialize (Hm s Hs HP). unfold bindM. destruct (m s) as [[x|e|w|] s1]; try done.
  destruct Hm as [HQ H1]. specialize (Hf x s1 (st_sane _ _ H1) HQ).
  destruct (f x s1) as [[y|e|w|] s2]; try done. destruct Hf as [HR H2]. split; [done|by eapply stepped_trans].
Qed.

Lemma undo_conseq {A} P P' (m : M StateDB A) (Q Q' : A -> StateDB -> Prop) :
  undo P' m Q' -> (forall s, P s -> P' s) -> (forall x s, Q' x s -> Q x s) -> undo P m Q.
Proof.
  intros H HP HQ s Hs Hp. specialize (H s Hs (HP s Hp)). destruct (m s) as [[x|e|w|] s']; try done.
  destruct H. split; [by apply HQ|done].
Qed.

Lemma undo_pre {A} P P' (m : M StateDB A) Q : undo P' m Q -> (forall s, P s -> P' s) -> undo P m Q.
Proof. intros H HP. by eapply undo_conseq. Qed.

(** Reading the state: the continuation knows the state it has read. *)
Lemma undo_getS {A} P (f : StateDB -> M StateDB A) Q :
  (forall s0, undo (fun s => P s /\ s = s0) (f s0) Q) -> undo P (bindM getS f) Q.
Proof. intros H s Hs HP. by apply (H s s). Qed.

Lemma undo_lift_out {A B} P (o : outcome A) (f : A -> M StateDB B) Q :
  (forall x, o = Ok x -> undo P (f x) Q) -> undo P (bindM (lift_out o) f) Q.
Proof. intros H s Hs HP. unfold bindM, lift_out. destruct o as [x|e|w|]; try done. by apply H. Qed.

Lemma undo_when P b m (Q : unit -> StateDB -> Prop) :
  (b = true -> undo P m Q) -> (b = false -> forall s, P s -> Q tt s) -> undo P (when b m) Q.
Proof. destruct b; cbn; intros H1 H2; [by apply H1|]. apply undo_ret. by apply H2. Qed.

(** A change with its entry. *)
Lemma undo_change P e f (Q : unit -> StateDB -> Prop) :
  (forall s, sane s -> P s -> sane (f s) /\ revs (f s) = revs s /\ sdb_journal (f s) = sdb_journal s /\
     (forall j, f (set_sdb_journal j s) = set_sdb_journal j (f s)) /\
     (forall j, Q tt (set_sdb_journal j (f s))) /\
     exists s'', entry_revert e (f s) = (Ok tt, s'') /\ state_equiv s'' s) ->
  undo P (journal_append e ;; modS f) Q.
Proof.
  intros H s Hs HP. destruct (H s Hs HP) as (H1 & H2 & H3 & H4 & H5 & s'' & H6 & H7).
  unfold journal_append, bindM, modS. rewrite H4. split; [done|].
  set (s' := set_sdb_journal (j_append e (sdb_journal s)) (f s)).
  assert (He : state_equiv s' (f s)) by apply equiv_journal.
  destruct (proper_entry e _ s' _ (symmetry He) H6) as (t & Ht & Et).
  constructor; [by eapply sane_equiv; [symmetry|]|done|].
  exists [e]. eexists. split; [done|]. cbn [reverse rev_append revert_entries app].
  split; [erewrite bind_Ok by done; reflexivity|].
  etrans; [apply equiv_journal|]. etrans; [by symmetry|exact H7].
Qed.

(** [o] is the live object of its address. *)
Definition holds (o : stateObject) (s : StateDB) : Prop :=
  lookupObj s (so_address o) = Some o /\ so_deleted o = false.

(** Objects that may be stored. *)
Definition storable (o : stateObject) : Prop := so_fake o = None /\ length (acc_CodeHash (so_data o)) = 32%nat.

Lemma storable_equiv d o o' : obj_equiv d o o' -> storable o -> storable o'.
Proof. intros He [Hf Hc]. split; [by rewrite <- (oe_fake _ _ _ He)|by rewrite <- (oe_data _ _ _ He)]. Qed.

Lemma sane_setStateObject o s : sane s -> storable o -> sane (setStateObject o s).
Proof.
  intros [Ha Hl Hs] [Hf Hc]. constructor; [done|done|]. intros a o'. rewrite lookup_setStateObject.
  case_decide as E; [|apply Hs]. by intros [= <-].
Qed.

Lemma getStateObject_holds o s : holds o s ->
  exists s', getStateObject (so_address o) s = (Ok (Some o), s') /\ state_equiv s' s.
Proof.
  intros [Hl Hd]. destruct (getStateObject_spec (so_address o) s) as (s' & H & He & _).
  exists s'. rewrite H, Hl. cbn. by rewrite Hd.
Qed.

Lemma setStateObject_twice o1 o2 s :
  so_address o1 = so_address o2 -> setStateObject o2 (setStateObject o1 s) = setStateObject o2 s.
Proof. intros E. unfold setStateObject. cbn. by rewrite E, insert_insert_eq. Qed.

(** Changing the live object by [f], undone by [g]. *)
Lemma undo_object e o f g :
  entry_revert e = on_object (so_address o) g ->
  so_address (f o) = so_address o -> so_deleted (f o) = so_deleted o -> storable (f o) ->
  undo (fun s => holds o s /\ obj_equiv (sdb_db s) (g (f o)) o)
    (journal_append e ;; modS (setStateObject (f o))) (fun _ s => holds (f o) s).
Proof.
  intros He Ha Hd Hst. apply undo_change. intros s Hs [[Hl Hdel] Hgf].
  assert (Hh : holds (f o) (setStateObject (f o) s)) by (split; [by rewrite lookup_setStateObject, decide_True|congruence]).
  split_and!; [by apply sane_setStateObject|done|done|done|by intros j|].
  destruct (getStateObject_holds _ _ Hh) as (t & Ht & Et). rewrite He. unfold on_object. rewrite <- Ha.
  erewrite bind_Ok by done. eexists. split; [done|].
  etrans; [by apply equiv_setStateObject; [exact Et|apply Hgf]|]. rewrite setStateObject_twice by done.
  apply equiv_setStateObject_same. rewrite Hl. by constructor.
Qed.

(** ** The operations *)

Lemma undo_getDeletedStateObject a :
  undo (fun _ => True) (getDeletedStateObject a) (fun x s => lookupObj s a = x).
Proof.
  intros s Hs _. destruct (getDeletedStateObject_spec a s) as (s' & -> & He & Hj & Hr & Hn & Hl).
  split; [done|]. apply stepped_equiv; [done|done|unfold entries; by rewrite Hj|unfold revs; by rewrite Hr, Hn].
Qed.

Lemma undo_getStateObject a :
  undo (fun _ => True) (getStateObject a)
    (fun x s => x = live (lookupObj s a) /\ forall o, x = Some o -> holds o s /\ storable o /\ so_address o = a).
Proof.
  intros s Hs _. destruct (getStateObject_spec a s) as (s' & -> & He & Hj & Hr & Hn & Hl).
  split; [|apply stepped_equiv; [done|done|unfold entries; by rewrite Hj|unfold revs; by rewrite Hr, Hn]]. rewrite Hl. split; [done|]. intros o Ho.
  destruct (lookupObj s a) as [o'|] eqn:E; [|done]. cbn in Ho. destruct (so_deleted o') eqn:Ed; [done|].
  injection Ho as ->. destruct (sane_object _ Hs a o E) as (Ha & Hf & Hc). split_and!; [|done|done].
  split; [by rewrite Ha, Hl|done].
Qed.

(** The entry that a new object at [a] is recorded with. *)
Definition createEntry (a : address) (prev : option stateObject) : journalEntry T :=
  match prev with None => createObjectChange a | Some p => resetObjectChange p end.

Lemma undo_create a prev n (Q : unit -> StateDB -> Prop) :
  so_address n = a -> storable n -> (forall s, lookupObj s a = Some n -> Q tt s) ->
  undo (fun s => lookupObj s a = prev) (journal_append (createEntry a prev) ;; modS (setStateObject n)) Q.
Proof.
  intros Ha Hst HQ. apply undo_change. intros s Hs Hl.
  split_and!; [by apply sane_setStateObject|done|done|done| |].
  { intros j. apply HQ. change (lookupObj (set_sdb_journal j (setStateObject n s)) a) with (lookupObj (setStateObject n s) a).
    by rewrite lookup_setStateObject, decide_True. }
  destruct prev as [p|]; cbn [createEntry entry_revert]; (eexists; split; [reflexivity|]).
  - destruct (sane_object _ Hs a p Hl) as (Hp & _). rewrite setStateObject_twice by congruence.
    apply equiv_setStateObject_same. rewrite Hp, Hl. by constructor.
  - constructor; [done|done|]. intros b. subst a. unfold lookupObj in *. cbn.
    destruct (decide (b = so_address n)) as [->|Hne].
    + rewrite lookup_delete_eq. destruct (sdb_objects s !! so_address n); [done|]. rewrite Hl. constructor.
    + rewrite lookup_delete_ne, lookup_insert_ne by done.
      by destruct (match sdb_objects s !! b with Some _ => _ | None => _ end); constructor.
Qed.

Lemma storable_new a : storable (set_nonce 0 (newObject (T:=T) a emptyAccount)).
Proof. split; [done|]. cbn. apply keccak256_length. Qed.

Lemma undo_assoc {A B C} P (m : M StateDB A) (f : A -> M StateDB B) (g : B -> M StateDB C) Q :
  undo P (bindM (bindM m f) g) Q -> undo P (bindM m (fun x => bindM (f x) g)) Q.
Proof. intros H s Hs HP. rewrite <- bindM_assoc. by apply H. Qed.

Lemma undo_createObject a :
  undo (fun _ => True) (createObject a) (fun x s => holds (fst x) s /\ storable (fst x) /\ so_address (fst x) = a).
Proof.
  eapply undo_bind; [apply undo_getDeletedStateObject|]. intros prev. cbv beta zeta. apply undo_assoc.
  eapply undo_bind.
  - apply (undo_create a prev _ (fun _ s => holds (set_nonce 0 (newObject a emptyAccount)) s)); [done|apply storable_new|].
    intros s Hl. by split.
  - intros []. apply undo_ret. intros s Hh. split_and!; [done|apply storable_new|done].
Qed.

Lemma undo_GetOrNewStateObject a :
  undo (fun _ => True) (GetOrNewStateObject a) (fun o s => holds o s /\ storable o /\ so_address o = a).
Proof.
  eapply undo_bind; [apply undo_getStateObject|]. intros [o|].
  - apply undo_ret. intros s [_ H]. by apply H.
  - apply (undo_pre _ (fun _ => True)); [|done]. eapply undo_bind; [apply undo_createObject|]. intros [n p].
    by apply undo_ret.
Qed.

Lemma undo_CreateAccount a : undo (fun _ => True) (CreateAccount a) (fun _ _ => True).
Proof.
  intros s Hs _. unfold CreateAccount, createObject. rewrite bindM_assoc.
  pose proof (undo_getDeletedStateObject a s Hs I) as Hd. unfold bindM at 1.
  destruct (getDeletedStateObject a s) as [[prev|?|?|] s1]; try done. destruct Hd as [Hl H1].
  set (n := match prev with Some p => set_balance (acc_Balance (so_data p)) (set_nonce 0 (newObject (T:=T) a emptyAccount))
            | None => set_nonce 0 (newObject a emptyAccount) end).
  assert (so_address n = a /\ storable n) as [Hna Hns].
  { subst n. destruct prev; (split; [done|]); apply storable_new. }
  pose proof (undo_create a prev n (fun _ _ => True) Hna Hns ltac:(done) s1 (st_sane _ _ H1) Hl) as H2.
  destruct prev as [p|]; unfold bindM, journal_append, modS, ret in *; cbn [fst snd] in *.
  - rewrite setStateObject_twice by done. destruct H2 as [_ H2]. split; [done|by eapply stepped_trans].
  - destruct H2 as [_ H2]. split; [done|by eapply stepped_trans].
Qed.

(** A fact that does not depend on the state. *)
Lemma undo_fact {A} (F : Prop) P (m : M StateDB A) Q : (F -> undo P m Q) -> undo (fun s => P s /\ F) m Q.
Proof. intros H s Hs [HP HF]. by apply H. Qed.

Lemma undo_so_SetBalance v o :
  undo (fun s => holds o s /\ storable o) (so_SetBalance v o) (fun _ _ => True).
Proof.
  apply undo_fact. intros Hst. eapply undo_conseq; [|intros s Hh|done].
  - by apply (undo_object _ o (set_balance v) (set_balance (acc_Balance (so_data o)))).
  - split; [exact Hh|]. destruct o as [? [] ? ? ? ? ? ? ? ? ? ?]. by constructor.
Qed.

Lemma undo_so_SetNonce v o :
  undo (fun s => holds o s /\ storable o) (so_SetNonce v o) (fun _ _ => True).
Proof.
  apply undo_fact. intros Hst. eapply undo_conseq; [|intros s Hh|done].
  - by apply (undo_object _ o (set_nonce v) (set_nonce (acc_Nonce (so_data o)))).
  - split; [exact Hh|]. destruct o as [? [] ? ? ? ? ? ? ? ? ? ?]. by constructor.
Qed.

Lemma undo_touch o : undo (fun _ => True) (touch o) (fun _ _ => True).
Proof.
  intros s Hs _. unfold touch, journal_append, bindM, modS. set (s1 := set_sdb_journal _ s).
  assert (H1 : stepped s s1).
  { assert (He : state_equiv s1 s) by apply equiv_journal.
    constructor; [by eapply sane_equiv; [symmetry|]|done|]. exists [touchChange (so_address o)]. eexists.
    split; [done|]. split; [reflexivity|]. etrans; [apply equiv_journal|exact He]. }
  destruct (so_address o =? ripemd); cbn [when]; (split; [done|]); [|done].
  eapply stepped_trans; [exact H1|]. apply stepped_equiv; [apply H1|apply equiv_journal|done|done].
Qed.

Lemma undo_true {A} (m : M StateDB A) P Q : undo (fun _ => True) m Q -> undo P m Q.
Proof. intros H. by eapply undo_pre. Qed.

Lemma undo_so_AddBalance v o :
  undo (fun s => holds o s /\ storable o) (so_AddBalance v o) (fun _ _ => True).
Proof.
  unfold so_AddBalance. destruct (v =? 0); [|apply undo_so_SetBalance].
  apply undo_when; [|done]. intros _. apply undo_true, undo_touch.
Qed.

Lemma undo_so_SubBalance v o :
  undo (fun s => holds o s /\ storable o) (so_SubBalance v o) (fun _ _ => True).
Proof. unfold so_SubBalance. destruct (v =? 0); [by apply undo_ret|apply undo_so_SetBalance]. Qed.

Lemma undo_so_SetCode h c o :
  undo (fun s => holds o s /\ storable o) (so_SetCode h c o) (fun _ _ => True).
Proof.
  apply undo_fact. intros [Hf Hc]. apply undo_getS. intros s0.
  destruct (so_Code (sdb_db s0) o) as [prev o'] eqn:E. destruct (so_Code_spec _ _ _ _ E) as [Hp He].
  rewrite <- (oe_address _ _ _ He), <- (oe_data _ _ _ He).
  eapply undo_conseq; [|intros s [Hh ->]|done].
  - apply (undo_object _ o (fun _ => set_code (hash_bytes h) c o') (set_code (hash_bytes (BytesToHash (acc_CodeHash (so_data o)))) prev)).
    + done.
    + symmetry. apply (oe_address _ _ _ He).
    + symmetry. apply (oe_deleted _ _ _ He).
    + split; [by rewrite <- Hf, (oe_fake _ _ _ He)|]. change (length (hash_bytes h) = 32%nat).
      unfold hash_bytes. by rewrite length_reverse, length_put_le.
  - split; [exact Hh|]. rewrite hash_bytes_BytesToHash by done. destruct He as [Ha Hd Hs Hx Hfk Hcu Hco Hcd].
    constructor; try done.
    + cbn. rewrite <- Hd. by destruct (so_data o).
    + unfold codeOf at 1. cbn. destruct prev as [p|]; [done|]. rewrite <- Ha.
      rewrite Hp. unfold codeOf in Hp. by destruct (so_code o).
Qed.

(** Storing an object that answers like the one held. *)
Lemma undo_store o o' :
  undo (fun s => (holds o s /\ obj_equiv (sdb_db s) o o') /\ storable o) (modS (setStateObject o'))
    (fun _ s => holds o' s /\ storable o').
Proof.
  intros s Hs [[[Hl Hd] He] Hst%(storable_equiv _ _ _ He)]. assert (Ha := oe_address _ _ _ He).
  cbn. split; [split; [split|done]|].
  - rewrite lookup_setStateObject. by rewrite decide_True.
  - by rewrite <- (oe_deleted _ _ _ He).
  - apply stepped_equiv; [done| |done|done]. apply equiv_setStateObject_same. rewrite <- Ha, Hl.
    constructor. by symmetry.
Qed.

(** A read through an object: [get] returns an object that answers alike. *)
Lemma undo_read_slot {A} (get : D -> stateObject -> outcome (A * stateObject)) o :
  (forall d x o', get d o = Ok (x, o') -> obj_equiv d o o') ->
  undo (fun s => holds o s /\ storable o)
    (s ← getS; '(v, o') ← lift_out (get (sdb_db s) o); modS (setStateObject o') ;; ret v) (fun _ _ => True).
Proof.
  intros Hg. apply undo_getS. intros s0. apply undo_lift_out. intros [x o'] E.
  eapply undo_bind; [|intros ?; by apply undo_ret].
  eapply undo_pre; [apply (undo_store o)|]. intros s [[Hh Hst] ->]. split_and!; [done|by eapply Hg|done].
Qed.

Lemma undo_on_live {A} a (f : stateObject -> M StateDB A) (x : A) :
  (forall o, so_address o = a -> undo (fun s => holds o s /\ storable o) (f o) (fun _ _ => True)) ->
  undo (fun _ => True)
    (obj ← getStateObject a; match obj with None => ret x | Some o => f o end) (fun _ _ => True).
Proof.
  intros H. eapply undo_bind; [apply undo_getStateObject|]. intros [o|]; [|by apply undo_ret].
  intros s Hs [_ Ho]. destruct (Ho o eq_refl) as (Hh & Hst & Ha). by apply H.
Qed.

Lemma undo_GetState a k : undo (fun _ => True) (GetState a k) (fun _ _ => True).
Proof.
  apply undo_on_live. intros o _. apply (undo_read_slot (fun d => so_GetState d k)). intros d x o' E.
  pose proof (so_GetState_spec d k o) as H. rewrite E in H. apply H.
Qed.

Lemma undo_GetCommittedState a k : undo (fun _ => True) (GetCommittedState a k) (fun _ _ => True).
Proof.
  apply undo_on_live. intros o _. apply (undo_read_slot (fun d => so_GetCommittedState d k)). intros d x o' E.
  pose proof (so_GetCommittedState_spec d k o) as H. rewrite E in H. apply H.
Qed.

Lemma undo_GetCode a : undo (fun _ => True) (GetCode a) (fun _ _ => True).
Proof.
  apply undo_on_live. intros o _. apply undo_getS. intros s0.
  destruct (so_Code (sdb_db s0) o) as [c o'] eqn:E. eapply undo_bind; [|intros ?; by apply undo_ret].
  eapply undo_pre; [apply (undo_store o)|]. intros s [[Hh Hst] ->].
  split_and!; [done|by destruct (so_Code_spec _ _ _ _ E)|done].
Qed.

Lemma undo_quiet g :
  (forall s, state_equiv (g s) s /\ entries (g s) = entries s /\ revs (g s) = revs s) ->
  forall P, undo P (modS g) (fun _ _ => True).
Proof. intros H P s Hs _. destruct (H s) as (H1 & H2 & H3). split; [done|]. by apply stepped_equiv. Qed.

Lemma undo_GetCodeSize a : undo (fun _ => True) (GetCodeSize a) (fun _ _ => True).
Proof.
  apply undo_on_live. intros o _. destruct (so_code o); [by apply undo_ret|]. apply undo_getS. intros s0.
  destruct (ContractCodeSize _ _ _) as [err|n]; [|by apply undo_ret].
  eapply undo_bind; [|intros ?; by apply undo_ret]. apply undo_quiet. intros s.
  split; [apply equiv_setError|]. unfold setError. by destruct (sdb_dbErr s).
Qed.

(** The reads that only look at the object. *)
Lemma undo_look {A} a (f : option stateObject -> A) :
  undo (fun _ => True) (obj ← getStateObject a; ret (f obj)) (fun _ _ => True).
Proof. eapply undo_bind; [apply undo_getStateObject|]. intros x. by apply undo_ret. Qed.

Lemma undo_GetBalance a : undo (fun _ => True) (GetBalance UsingOVM a) (fun _ _ => True).
Proof. unfold GetBalance. destruct UsingOVM; [apply undo_GetState|apply undo_look]. Qed.

(** Restoring the value that a slot had. *)
Lemma set_state_back d k v prev o :
  so_fake o = None -> current d o k = Ok prev -> obj_equiv d (set_state k prev (set_state k v o)) o.
Proof.
  intros Hf Hc. constructor; try done. intros k'. unfold current in *. cbn. rewrite Hf in *.
  rewrite insert_insert_eq. destruct (decide (k' = k)) as [->|Hne].
  - by rewrite lookup_insert_eq, Hc.
  - by rewrite lookup_insert_ne.
Qed.

Lemma undo_so_SetState k v o :
  undo (fun s => holds o s /\ storable o) (so_SetState k v o) (fun _ _ => True).
Proof.
  apply undo_fact. intros Hst. unfold so_SetState. rewrite (proj1 Hst). apply undo_getS. intros s0.
  apply undo_lift_out. intros [prev o'] E. pose proof (so_GetState_spec (sdb_db s0) k o) as H.
  rewrite E in H. destruct H as [Hc He].
  apply (undo_bind _ _ _ (fun _ s => holds o' s /\ sdb_db s = sdb_db s0)).
  { intros s Hs [Hh ->]. pose proof (undo_store o o' s0 Hs (conj (conj Hh He) Hst)) as H. cbn in *. tauto. }
  intros []. destruct (prev =? v); [by apply undo_ret|]. eapply undo_conseq; [|intros s [Hh Hd]|done].
  - apply (undo_object _ o' (set_state k v) (set_state k prev)); try done.
    exact (storable_equiv _ _ _ He Hst).
  - split; [exact Hh|]. rewrite Hd. apply set_state_back.
    + rewrite <- (oe_fake _ _ _ He). apply Hst.
    + by rewrite <- (oe_current _ _ _ He).
Qed.

(** Changing the object of an address, creating it when there is none. *)
Lemma undo_on_new a (f : stateObject -> M StateDB unit) :
  (forall o, undo (fun s => holds o s /\ storable o) (f o) (fun _ _ => True)) ->
  undo (fun _ => True) (o ← GetOrNewStateObject a; f o) (fun _ _ => True).
Proof.
  intros H. eapply undo_bind; [apply undo_GetOrNewStateObject|]. intros o.
  eapply undo_pre; [apply H|]. tauto.
Qed.

Lemma undo_SetState a k v : undo (fun _ => True) (SetState a k v) (fun _ _ => True).
Proof. apply undo_on_new. intros o. apply undo_so_SetState. Qed.
Lemma undo_SetNonce a v : undo (fun _ => True) (SetNonce a v) (fun _ _ => True).
Proof. apply undo_on_new. intros o. apply undo_so_SetNonce. Qed.
Lemma undo_SetCode a c : undo (fun _ => True) (SetCode a c) (fun _ _ => True).
Proof. apply undo_on_new. intros o. apply undo_so_SetCode. Qed.

Lemma undo_ovm_balance a f : undo (fun _ => True) (change_ovm_balance a f) (fun _ _ => True).
Proof. eapply undo_bind; [apply undo_GetState|]. intros bal. apply undo_SetState. Qed.

Lemma undo_AddBalance a v : undo (fun _ => True) (AddBalance UsingOVM a v) (fun _ _ => True).
Proof.
  unfold AddBalance. destruct UsingOVM; [apply undo_ovm_balance|].
  apply undo_on_new. intros o. apply undo_so_AddBalance.
Qed.
Lemma undo_SubBalance a v : undo (fun _ => True) (SubBalance UsingOVM a v) (fun _ _ => True).
Proof.
  unfold SubBalance. destruct UsingOVM; [apply undo_ovm_balance|].
  apply undo_on_new. intros o. apply undo_so_SubBalance.
Qed.
Lemma undo_SetBalance a v : undo (fun _ => True) (SetBalance UsingOVM a v) (fun _ _ => True).
Proof.
  unfold SetBalance. destruct UsingOVM; [apply undo_SetState|].
  apply undo_on_new. intros o. apply undo_so_SetBalance.
Qed.

Lemma undo_Suicide a : undo (fun _ => True) (Suicide a) (fun _ _ => True).
Proof.
  apply undo_on_live. intros o <-. apply undo_fact. intros Hst. apply undo_assoc.
  apply (undo_bind _ _ _ (fun _ _ => True)); [|intros ?; by apply undo_ret]. apply undo_change. intros s Hs [Hl Hd].
  assert (Hh : holds (set_balance 0 (set_so_suicided true o)) (setStateObject (set_balance 0 (set_so_suicided true o)) s))
    by (split; [by rewrite lookup_setStateObject, decide_True|done]).
  split_and!; [by apply sane_setStateObject|done|done|done|done|].
  destruct (getStateObject_holds _ _ Hh) as (t & Ht & Et). cbn [entry_revert].
  change (so_address o) with (so_address (set_balance 0 (set_so_suicided true o))). erewrite bind_Ok by done.
  eexists. split; [done|]. etrans; [apply equiv_setStateObject; [exact Et|]|].
  - instantiate (1 := o). destruct o as [? [] ? ? ? ? ? ? ? ? ? ?]. by constructor.
  - rewrite setStateObject_twice by done. apply equiv_setStateObject_same. rewrite Hl. by constructor.
Qed.

(** A change of the fields outside objects and logs, undone by restoring them. *)
Lemma undo_fields e f g :
  (forall s, lookupObj (f s) = lookupObj s /\ logsOf (f s) = logsOf s /\ revs (f s) = revs s /\
     sdb_journal (f s) = sdb_journal s /\ sdb_logSize (f s) = sdb_logSize s /\
     (forall j, f (set_sdb_journal j s) = set_sdb_journal j (f s))) ->
  (forall s, lookupObj (g s) = lookupObj s /\ logsOf (g s) = logsOf s) ->
  forall P, (forall s, sane s -> P s -> wf_al (sdb_accessList (f s)) /\
     entry_revert e (f s) = (Ok tt, g (f s)) /\ rest (g (f s)) = rest s) ->
  undo P (journal_append e ;; modS f) (fun _ _ => True).
Proof.
  intros Hf Hg P H. apply undo_change. intros s Hs HP. destruct (Hf s) as (H1 & H2 & H3 & H4 & H5 & H6).
  destruct (Hg (f s)) as (G1 & G2). destruct (H s Hs HP) as (A1 & A2 & A3). split_and!; [|done|done|done|done|].
  - destruct Hs as [_ Hl Ho]. constructor; [done|by rewrite H5|]. by rewrite H1.
  - eexists. split; [exact A2|]. constructor; [done|intros h; by rewrite G2, H2|]. intros a.
    rewrite G1, H1. by destruct (lookupObj s a); constructor.
Qed.

Lemma undo_AddRefund v : undo (fun _ => True) (AddRefund v) (fun _ _ => True).
Proof.
  apply undo_getS. intros s0.
  apply (undo_fields _ _ (set_sdb_refund (sdb_refund s0))); [by intros s; split_and!|done|].
  intros s Hs [_ ->]. split_and!; [apply Hs|done|done].
Qed.

Lemma undo_SubRefund v : undo (fun _ => True) (SubRefund v) (fun _ _ => True).
Proof.
  apply undo_getS. intros s0. destruct (sdb_refund s0 <? v); [by intros s Hs _|].
  apply (undo_fields _ _ (set_sdb_refund (sdb_refund s0))); [by intros s; split_and!|done|].
  intros s Hs [_ ->]. split_and!; [apply Hs|done|done].
Qed.

Lemma undo_AddPreimage h b : undo (fun _ => True) (AddPreimage h b) (fun _ _ => True).
Proof.
  apply undo_getS. intros s0. destruct (sdb_preimages s0 !! h) eqn:E; [by apply undo_ret|].
  apply (undo_fields _ _ (fun s => set_sdb_preimages (delete h (sdb_preimages s)) s)); [by intros s; split_and!|done|].
  intros s Hs [_ ->]. split_and!; [apply Hs|done|]. unfold rest. cbn. by rewrite delete_insert_id.
Qed.

Lemma undo_AddLog log : undo (fun _ => True) (AddLog log) (fun _ _ => True).
Proof.
  apply undo_getS. intros s0. apply undo_change. intros s Hs [_ ->].
  split_and!; [|done|done|done|done|].
  - destruct Hs as [Ha Hl Ho]. constructor; [done|apply u64_in|done].
  - eexists. split; [reflexivity|]. assert (Hl : u64 (u64 (sdb_logSize s0 + 1) - 1) = sdb_logSize s0).
    { rewrite <- (u64_small (sdb_logSize s0)) at 2 by apply Hs. unfold u64. rewrite Zminus_mod_idemp_l. f_equal. lia. }
    constructor; [unfold rest; cbn; by rewrite Hl| |intros a; by destruct (lookupObj s0 a) eqn:E; unfold lookupObj in *; cbn; rewrite E; constructor].
    intros h. unfold logsOf. cbn. rewrite lookup_insert_eq. cbn. rewrite length_app. cbn [length].
    rewrite Nat.add_sub, take_app_length.
    destruct (Nat.eqb_spec (length (default [] (sdb_logs s0 !! sdb_thash s0)) + 1) 1) as [E|E];
      destruct (decide (h = sdb_thash s0)) as [->|Hne];
      rewrite ?lookup_delete_eq, ?lookup_insert_eq, ?lookup_delete_ne, ?lookup_insert_ne by done; try done.
    by destruct (default [] (sdb_logs s0 !! sdb_thash s0)); [|cbn in E; lia].
Qed.

Lemma equiv_access al s1 s2 :
  state_equiv s1 s2 -> state_equiv (set_sdb_accessList al s1) (set_sdb_accessList al s2).
Proof.
  intros [Hr Hl Ho]. constructor; [|done|done]. unfold rest in *. cbn. congruence.
Qed.

(** Entries of the access list are undone on the access list alone. *)
Lemma stepped_access s al al' new dirties :
  sane s -> al = sdb_accessList s -> wf_al al' ->
  (forall t, state_equiv t (set_sdb_accessList al' s) -> exists t',
     revert_entries (reverse new) t = (Ok tt, t') /\ state_equiv t' (set_sdb_accessList al s)) ->
  stepped s (set_sdb_journal (mkJournal (entries s ++ new) dirties) (set_sdb_accessList al' s)).
Proof.
  intros Hs -> Hwf H. destruct (H (set_sdb_journal (mkJournal (entries s ++ new) dirties) (set_sdb_accessList al' s)))
    as (t' & Ht & Et); [apply equiv_journal|].
  constructor; [|done|].
  - destruct Hs as [_ Hl Ho]. by constructor.
  - exists new, t'. split_and!; [done|done|]. etrans; [exact Et|]. by destruct s.
Qed.

Lemma revert_addAccount a t s al al' :
  DeleteAddress a al' = al -> state_equiv t (set_sdb_accessList al' s) ->
  exists t', revert_entries [accessListAddAccountChange a] t = (Ok tt, t') /\ state_equiv t' (set_sdb_accessList al s).
Proof.
  intros <- He. eexists. split; [reflexivity|]. cbn. etrans; [apply equiv_journal|].
  assert (sdb_accessList t = al') as -> by (destruct He as [Hr _ _]; unfold rest in Hr; cbn in Hr; congruence).
  by apply (equiv_access (DeleteAddress a al')) in He.
Qed.

Lemma revert_addSlot a slot t s al al' :
  DeleteSlot a slot al' = Ok al -> state_equiv t (set_sdb_accessList al' s) ->
  exists t', revert_entries [accessListAddSlotChange a slot] t = (Ok tt, t') /\ state_equiv t' (set_sdb_accessList al s).
Proof.
  intros Hd He. assert (Ht : sdb_accessList t = al') by (destruct He as [Hr _ _]; unfold rest in Hr; cbn in Hr; congruence).
  unfold revert_entries, entry_revert, bindM, getS, lift_out, modS, ret. rewrite Ht, Hd.
  eexists. split; [reflexivity|]. etrans; [apply equiv_journal|]. by apply (equiv_access al) in He.
Qed.

Lemma undo_AddAddressToAccessList a : undo (fun _ => True) (AddAddressToAccessList a) (fun _ _ => True).
Proof.
  intros s Hs _. pose proof (AddAddress_undo a (sdb_accessList s)) as Hu.
  pose proof (AddAddress_wf a _ (sane_access _ Hs)) as Hw.
  unfold AddAddressToAccessList, getS, bindM. destruct (AddAddress a (sdb_accessList s)) as [[] al'] eqn:E; cbn in *.
  - split; [done|]. apply (stepped_access s (sdb_accessList s) al' [accessListAddAccountChange a]); [done|done|done|].
    intros t. by apply revert_addAccount.
  - subst al'. split; [done|]. by destruct s; apply stepped_equiv.
Qed.

Lemma undo_AddSlotToAccessList a slot : undo (fun _ => True) (AddSlotToAccessList a slot) (fun _ _ => True).
Proof.
  intros s Hs _. destruct (AddSlot_spec a slot _ (sane_access _ Hs)) as (addr & sm & al' & HA & Hw & Hu).
  unfold AddSlotToAccessList, getS, bindM, lift_out. rewrite HA. unfold undo_slot in Hu.
  destruct addr, sm; cbn in *; (split; [done|]).
  - destruct (DeleteSlot a slot al') as [al1|?|?|] eqn:Ed; try done. injection Hu as Hu.
    unfold j_append. cbn. rewrite <- app_assoc. cbn.
    apply (stepped_access s (sdb_accessList s) al' [accessListAddAccountChange a; accessListAddSlotChange a slot]); [done|done|done|].
    intros t Ht. destruct (revert_addSlot a slot t s al1 al' Ed Ht) as (t1 & R1 & E1).
    destruct (revert_addAccount a t1 s _ al1 Hu E1) as (t2 & R2 & E2). exists t2. split; [|done].
    change (reverse _) with ([accessListAddSlotChange (T:=T) a slot] ++ [accessListAddAccountChange a]).
    rewrite revert_entries_app. by erewrite bind_Ok.
  - injection Hu as Hu. apply (stepped_access s (sdb_accessList s) al' [accessListAddAccountChange a]); [done|done|done|].
    intros t. by apply revert_addAccount.
  - destruct (DeleteSlot a slot al') as [al1|?|?|] eqn:Ed; try done. injection Hu as ->.
    apply (stepped_access s (sdb_accessList s) al' [accessListAddSlotChange a slot]); [done|done|done|].
    intros t. by apply revert_addSlot.
  - injection Hu as ->. by destruct s; apply stepped_equiv.
Qed.

Lemma undo_each {A} (l : list A) (f : A -> M StateDB unit) :
  (forall x, undo (fun _ => True) (f x) (fun _ _ => True)) -> undo (fun _ => True) (each l f) (fun _ _ => True).
Proof.
  intros H. induction l as [|x l IH]; cbn [each]; [by apply undo_ret|].
  eapply undo_bind; [apply H|]. by intros [].
Qed.

Lemma undo_PrepareAccessList sender dst pre list :
  undo (fun _ => True) (PrepareAccessList sender dst pre list) (fun _ _ => True).
Proof.
  unfold PrepareAccessList. eapply undo_bind; [apply undo_AddAddressToAccessList|]. intros ?.
  apply (undo_bind _ _ _ (fun _ _ => True)); [destruct dst; [apply undo_AddAddressToAccessList|by apply undo_ret]|]. intros ?.
  eapply undo_bind; [apply undo_each, undo_AddAddressToAccessList|]. intros ?.
  apply undo_each. intros [a keys]. eapply undo_bind; [apply undo_AddAddressToAccessList|]. intros ?.
  apply undo_each, undo_AddSlotToAccessList.
Qed.

(** ** Histories *)

Inductive dbop :=
| OpAddBalance (a : address) (v : Z) | OpSubBalance (a : address) (v : Z) | OpSetBalance (a : address) (v : Z)
| OpSetNonce (a : address) (n : Z) | OpSetCode (a : address) (c : option bytes)
| OpSetState (a : address) (k v : hash) | OpSuicide (a : address) | OpCreateAccount (a : address)
| OpAddLog (l : Log) | OpAddPreimage (h : hash) (b : bytes) | OpAddRefund (g : Z) | OpSubRefund (g : Z)
| OpAccessAddress (a : address) | OpAccessSlot (a : address) (k : hash)
| OpPrepareAccess (sender : address) (dst : option address) (pre : list address) (l : list (address * list hash))
| OpGetBalance (a : address) | OpGetNonce (a : address) | OpGetCode (a : address) | OpGetCodeSize (a : address)
| OpGetState (a : address) (k : hash) | OpGetCommittedState (a : address) (k : hash)
| OpSnapshot | OpRevert (id : Z).

(** Everything but the two operations on revisions. *)
Definition exec_change (op : dbop) : M StateDB unit :=
  match op with
  | OpAddBalance a v => AddBalance UsingOVM a v
  | OpSubBalance a v => SubBalance UsingOVM a v
  | OpSetBalance a v => SetBalance UsingOVM a v
  | OpSetNonce a n => SetNonce a n
  | OpSetCode a c => SetCode a c
  | OpSetState a k v => SetState a k v
  | OpSuicide a => Suicide a ;; ret tt
  | OpCreateAccount a => CreateAccount a
  | OpAddLog l => AddLog l
  | OpAddPreimage h b => AddPreimage h b
  | OpAddRefund g => AddRefund g
  | OpSubRefund g => SubRefund g
  | OpAccessAddress a => AddAddressToAccessList a
  | OpAccessSlot a k => AddSlotToAccessList a k
  | OpPrepareAccess sender dst pre l => PrepareAccessList sender dst pre l
  | OpGetBalance a => GetBalance UsingOVM a ;; ret tt
  | OpGetNonce a => GetNonce a ;; ret tt
  | OpGetCode a => GetCode a ;; ret tt
  | OpGetCodeSize a => GetCodeSize a ;; ret tt
  | OpGetState a k => GetState a k ;; ret tt
  | OpGetCommittedState a k => GetCommittedState a k ;; ret tt
  | OpSnapshot | OpRevert _ => ret tt
  end.

Definition exec (op : dbop) : M StateDB unit :=
  match op with
  | OpSnapshot => Snapshot ;; ret tt
  | OpRevert id => RevertToSnapshot id
  | _ => exec_change op
  end.

Lemma undo_exec_change op : undo (fun _ => True) (exec_change op) (fun _ _ => True).
Proof.
  destruct op; cbn [exec_change];
    try (apply (undo_bind _ _ _ (fun _ _ => True)); [|intros ?; by apply undo_ret]).
  - apply undo_AddBalance.
  - apply undo_SubBalance.
  - apply undo_SetBalance.
  - apply undo_SetNonce.
  - apply undo_SetCode.
  - apply undo_SetState.
  - apply undo_Suicide.
  - apply undo_CreateAccount.
  - apply undo_AddLog.
  - apply undo_AddPreimage.
  - apply undo_AddRefund.
  - apply undo_SubRefund.
  - apply undo_AddAddressToAccessList.
  - apply undo_AddSlotToAccessList.
  - apply undo_PrepareAccessList.
  - apply undo_GetBalance.
  - apply (undo_look a (fun x => match x with Some o => acc_Nonce (so_data o) | None => 0 end)).
  - apply undo_GetCode.
  - apply undo_GetCodeSize.
  - apply undo_GetState.
  - apply undo_GetCommittedState.
  - by apply undo_ret.
  - by apply undo_ret.
Qed.

(** *** The stack of revisions *)

(** Reverting down to the entry [idx] leads back to [sv]. *)
Definition restores (s : StateDB) (idx : nat) (sv : StateDB) : Prop :=
  exists s', revert_entries (reverse (drop idx (entries s))) s = (Ok tt, s') /\ state_equiv s' sv.

Definition revision_ok (s : StateDB) (x : Z * nat * StateDB) : Prop :=
  x.1.1 < sdb_nextRevisionId s /\ (x.1.2 <= length (entries s))%nat /\ restores s x.1.2 x.2 /\ sane x.2.

(** [gl] gives for each revision the state in which it was taken, oldest first. *)
Record tracked (s : StateDB) (gl : list (Z * nat * StateDB)) : Prop := {
  tr_sane : sane s;
  tr_revs : sdb_revisions s = fst <$> gl;
  tr_sorted : StronglySorted (fun x y => x.1.1 < y.1.1 /\ (x.1.2 <= y.1.2)%nat) gl;
  tr_ok : Forall (revision_ok s) gl }.

Lemma restores_stepped s s' idx sv :
  stepped s s' -> (idx <= length (entries s))%nat -> restores s idx sv -> restores s' idx sv.
Proof.
  intros [_ _ (new & t & En & R & E)] Hi (u & Ru & Eu).
  destruct (proper_revert_entries _ _ _ _ (symmetry E) Ru) as (v & Rv & Ev). exists v. split.
  - rewrite En, drop_app_le, reverse_app, revert_entries_app by done. by erewrite bind_Ok.
  - etrans; [by symmetry|done].
Qed.

Lemma tracked_stepped s s' gl : tracked s gl -> stepped s s' -> tracked s' gl.
Proof.
  intros [Hs Hr Hso Hok] Hst. pose proof Hst as [Hs' Hrv (new & t & En & _)]. injection Hrv as E1 E2.
  constructor; [done|congruence|done|]. eapply Forall_impl; [exact Hok|]. intros x (H1 & H2 & H3 & H4).
  split_and!; [by rewrite E2|rewrite En, length_app; lia|by eapply restores_stepped|done].
Qed.

Lemma restores_equiv s s' idx sv :
  state_equiv s s' -> entries s' = entries s -> restores s idx sv -> restores s' idx sv.
Proof.
  intros He En (u & Ru & Eu). destruct (proper_revert_entries _ _ _ _ He Ru) as (v & Rv & Ev).
  exists v. rewrite En. split; [done|]. etrans; [by symmetry|done].
Qed.

Lemma tracked_Snapshot s gl :
  tracked s gl -> exists s', Snapshot s = (Ok (sdb_nextRevisionId s), s') /\
    tracked s' (gl ++ [(sdb_nextRevisionId s, length (entries s), s)]) /\
    sdb_nextRevisionId s' = sdb_nextRevisionId s + 1.
Proof.
  intros [Hs Hr Hso Hok]. eexists. split; [reflexivity|]. split; [|done].
  set (s' := set_sdb_revisions _ _). assert (He : state_equiv s' s).
  { constructor; [done|done|]. intros a. change (lookupObj s' a) with (lookupObj s a). by destruct (lookupObj s a); constructor. }
  constructor.
  - by eapply sane_equiv; [symmetry|].
  - cbn. by rewrite Hr, fmap_app.
  - apply StronglySorted_app. split_and!; [|done|by repeat constructor]. intros x y Hx ->%list_elem_of_singleton.
    rewrite Forall_forall in Hok. destruct (Hok x Hx) as (H1 & H2 & _). cbn. lia.
  - apply Forall_app. split.
    + eapply Forall_impl; [exact Hok|]. intros x (H1 & H2 & H3 & H4). split_and!; [cbn; lia|done| |done].
      by eapply restores_equiv; [symmetry|..].
    + constructor; [|done]. split_and!; [cbn; lia|done| |done]. cbn. exists s'.
      change (entries s') with (entries s). by rewrite drop_all.
Qed.

(** *** Binary search *)

Lemma sort_Search_threshold f n p :
  (forall i, f i = (p <=? i)%nat) -> (p <= n)%nat -> sort_Search n f = p.
Proof.
  intros Hf Hp. unfold sort_Search.
  enough (H : forall fuel i j, (j - i <= fuel)%nat -> (i <= p <= j)%nat -> sort_Search_loop fuel f i j = p) by (apply H; lia).
  induction fuel as [|fuel IH]; intros i j Hd Hij; cbn [sort_Search_loop]; [lia|].
  destruct (Nat.ltb_spec i j) as [Hlt|Hge]; [|lia].
  pose proof (Nat.div_mod_eq (i + j) 2) as Hm. pose proof (Nat.mod_upper_bound (i + j) 2 ltac:(lia)) as Hb.
  rewrite Hf. destruct (Nat.leb_spec p ((i + j) / 2)); apply IH; lia.
Qed.

(** The position that [RevertToSnapshot] finds in a sorted stack. *)
Lemma find_revision (l1 l2 : list (Z * nat)) id idx :
  let l := l1 ++ (id, idx) :: l2 in StronglySorted (fun x y => x.1 < y.1) l ->
  sort_Search (length l) (fun i => match l !! i with Some (id', _) => id <=? id' | None => true end) = length l1.
Proof.
  intros l Hs. apply sort_Search_threshold; [|unfold l; rewrite length_app; lia]. intros i.
  destruct (Nat.leb_spec (length l1) i) as [Hge|Hlt].
  - unfold l. rewrite lookup_app_r by done. destruct ((i - length l1)%nat) as [|k] eqn:Ek; cbn; [apply Z.leb_refl|].
    destruct (l2 !! k) as [[id' x]|] eqn:E; [|done]. apply Z.leb_le.
    apply StronglySorted_app_1_r in Hs. apply StronglySorted_inv in Hs as [_ Hs].
    rewrite Forall_forall in Hs. specialize (Hs (id', x) (list_elem_of_lookup_2 _ _ _ E)). cbn in Hs. lia.
  - unfold l. rewrite lookup_app_l by done. destruct (lookup_lt_is_Some_2 l1 i Hlt) as [[id' x] E]. rewrite E.
    apply Z.leb_gt. apply (StronglySorted_app_1_elem_of _ _ _ (id', x) (id, idx)) in Hs; [done| |by constructor].
    by eapply list_elem_of_lookup_2.
Qed.

Lemma revert_entries_keeps es s s' :
  revert_entries es s = (Ok tt, s') -> entries s' = entries s /\ revs s' = revs s.
Proof.
  revert s. induction es as [|e es IH]; intros s H; cbn [revert_entries] in H; [unfold ret in H; by simplify_eq|].
  apply bind_Ok_inv in H as ([] & s1 & H1 & H). unfold modS in H. erewrite bind_Ok in H by done.
  apply IH in H as [-> ->].
  enough (entries s1 = entries s /\ revs s1 = revs s) as [<- <-].
  { split; [|done]. unfold entries, undirty. cbn. by destruct (dirtied e). }
  assert (Hobj : forall a f t t', on_object a f t = (Ok tt, t') -> entries t' = entries t /\ revs t' = revs t).
  { intros a f t t' Ho. unfold on_object in Ho. destruct (getStateObject_spec a t) as (t1 & Hg & _ & Hj & Hr & Hn & _).
    erewrite bind_Ok in Ho by done. destruct (live _); [|done]. unfold modS in Ho. injection Ho as <-.
    unfold entries, revs. cbn. by rewrite Hj, Hr, Hn. }
  destruct e; cbn [entry_revert] in H1; try (by apply Hobj in H1); try (unfold modS, ret in H1; by simplify_eq).
  - destruct (getStateObject_spec account s) as (t1 & Hg & _ & Hj & Hr & Hn & _). erewrite bind_Ok in H1 by done.
    destruct (live _); unfold modS, ret in H1; simplify_eq; unfold entries, revs; cbn; by rewrite Hj, Hr, Hn.
  - unfold bindM, getS, lift_out, modS in H1. destruct (DeleteSlot _ _ _); by simplify_eq.
Qed.

Lemma bind_getS {A} (f : StateDB -> M StateDB A) s : bindM getS f s = f s s.
Proof. done. Qed.

Lemma tracked_Revert s gl1 gl2 id idx sv :
  tracked s (gl1 ++ (id, idx, sv) :: gl2) ->
  exists s', RevertToSnapshot id s = (Ok tt, s') /\ state_equiv s' sv /\ tracked s' gl1 /\
    entries s' = take idx (entries s) /\ sdb_nextRevisionId s' = sdb_nextRevisionId s.
Proof.
  intros [Hs Hr Hso Hok]. rewrite fmap_app, fmap_cons in Hr. cbn [fst] in Hr.
  pose proof Hok as Hok'. apply Forall_app in Hok' as [Hok1 Hok2]. apply Forall_cons in Hok2 as [(_ & Hlen & (t & Rt & Et) & Hsv) _].
  cbn [fst snd] in *. destruct (revert_entries_keeps _ _ _ Rt) as [Ent Hrt]. injection Hrt as E1 E2.
  set (s' := set_sdb_revisions (take (length gl1) (sdb_revisions s)) (set_sdb_journal
    (mkJournal (take idx (entries t)) (j_dirties (sdb_journal t))) t)).
  exists s'. assert (He : state_equiv s' t).
  { constructor; [done|done|]. intros a. change (lookupObj s' a) with (lookupObj t a). by destruct (lookupObj t a); constructor. }
  split_and!; [| |constructor| |done].
  - unfold RevertToSnapshot. rewrite bind_getS. cbv zeta.
    assert (Hss : StronglySorted (fun x y : Z * nat => x.1 < y.1) (gl1.*1 ++ (id, idx) :: gl2.*1)).
    { change ((id, idx) :: gl2.*1) with (((id, idx, sv) :: gl2).*1). rewrite <- fmap_app.
      eapply StronglySorted_fmap; [|exact Hso]. by intros x y []. }
    rewrite Hr, (find_revision _ _ _ _ Hss), length_fmap, (list_lookup_middle _ _ _ (length gl1)) by (by rewrite length_fmap).
    rewrite Z.eqb_refl. cbn [negb]. unfold j_revert. rewrite bindM_assoc, bind_getS, bindM_assoc.
    rewrite (bind_Ok _ _ _ _ _ Rt). unfold s'. by rewrite Hr.
  - etrans; [exact He|exact Et].
  - eapply sane_equiv; [|exact Hsv]. symmetry. etrans; [exact He|exact Et].
  - cbn. rewrite Hr, take_app_length'; [done|by rewrite length_fmap].
  - by apply StronglySorted_app_1_l in Hso.
  - apply Forall_forall. intros x Hx. rewrite Forall_forall in Hok1. destruct (Hok1 x Hx) as (H1 & H2 & H3 & H4).
    assert (Hidx : (x.1.2 <= idx)%nat).
    { apply (StronglySorted_app_1_elem_of _ _ _ x (id, idx, sv)) in Hso as [_ Hle]; [done|done|by constructor]. }
    assert (Hen : entries s' = take idx (entries s)) by (unfold entries in *; cbn; by rewrite Ent).
    split_and!; [cbn; by rewrite E2|rewrite Hen, length_take; lia| |done].
    destruct H3 as (u & Ru & Eu).
    assert (Hsplit : drop x.1.2 (entries s) = drop x.1.2 (take idx (entries s)) ++ drop idx (entries s)).
    { rewrite <- (take_drop idx (entries s)) at 1. rewrite drop_app_le; [done|rewrite length_take; lia]. }
    rewrite Hsplit, reverse_app, revert_entries_app in Ru. rewrite (bind_Ok _ _ _ _ _ Rt) in Ru.
    destruct (proper_revert_entries _ _ _ _ (symmetry He) Ru) as (v & Rv & Ev).
    exists v. rewrite Hen. split; [done|]. etrans; [by symmetry|done].
  - unfold entries in *. cbn. by rewrite Ent.
Qed.

Lemma Revert_inv s gl id s' :
  tracked s gl -> RevertToSnapshot id s = (Ok tt, s') ->
  exists gl1 idx sv gl2, gl = gl1 ++ (id, idx, sv) :: gl2 /\ tracked s' gl1 /\
    sdb_nextRevisionId s' = sdb_nextRevisionId s.
Proof.
  intros Ht H. pose proof H as H0. unfold RevertToSnapshot in H. rewrite bind_getS in H. cbv zeta in H.
  destruct (sdb_revisions s !! _) as [[id' idx]|] eqn:E; [|done].
  destruct (Z.eqb_spec id' id) as [->|Hne]; [|done]. rewrite (tr_revs _ _ Ht), list_lookup_fmap in E.
  destruct (gl !! _) as [[[i n] sv]|] eqn:Eg; [|done]. cbn in E. injection E as -> ->.
  apply list_elem_of_split_length in Eg as (gl1 & gl2 & -> & _).
  destruct (tracked_Revert s gl1 gl2 id idx sv Ht) as (t & Ht' & _ & Htr & _ & Hn).
  rewrite Ht' in H0. injection H0 as <-. by exists gl1, idx, sv, gl2.
Qed.

(** A consistent state: the stack of revisions belongs to its journal. *)
Definition consistent (s : StateDB) : Prop := exists gl, tracked s gl.

(** Either the revision [x] is still on the stack above [gl], or its number is gone
    for good. *)
Definition kept_or_gone (gl : list (Z * nat * StateDB)) (x : Z * nat * StateDB) (s : StateDB) : Prop :=
  (exists gl2, tracked s (gl ++ x :: gl2)) \/
  (exists gl', tracked s gl' /\ (x.1.1 ∉ (sdb_revisions s).*1) /\ x.1.1 < sdb_nextRevisionId s).

Lemma kept_or_gone_consistent gl x s : kept_or_gone gl x s -> consistent s.
Proof. intros [[gl2 H]|(gl' & H & _)]; by eexists. Qed.

Lemma kept_or_gone_change gl x s s' : kept_or_gone gl x s -> stepped s s' -> kept_or_gone gl x s'.
Proof.
  intros [[gl2 H]|(gl' & H & Hn & Hl)] Hs; [left; exists gl2; by eapply tracked_stepped|right].
  exists gl'. pose proof (st_revs _ _ Hs) as Hr. unfold revs in Hr. injection Hr as -> ->.
  split_and!; [by eapply tracked_stepped|done|done].
Qed.

Lemma kept_or_gone_Snapshot gl x s id s' :
  kept_or_gone gl x s -> Snapshot s = (Ok id, s') -> kept_or_gone gl x s'.
Proof.
  intros [[gl2 H]|(gl' & H & Hn & Hl)] Hs; destruct (tracked_Snapshot s _ H) as (t & Ht & Htr & Hnx);
    rewrite Ht in Hs; injection Hs as <- <-.
  - left. rewrite <- app_assoc in Htr. by eexists.
  - right. eexists. split_and!; [exact Htr| |lia].
    rewrite (tr_revs _ _ Htr), fmap_app, fmap_app, <- (tr_revs _ _ H). cbn.
    intros [?|?%list_elem_of_singleton]%elem_of_app; [done|lia].
Qed.

(** The revisions below [x] have other numbers. *)
Lemma sorted_below (g1 gl gl2 : list (Z * nat * StateDB)) x :
  StronglySorted (fun x y => x.1.1 < y.1.1 /\ (x.1.2 <= y.1.2)%nat) (gl ++ x :: gl2) ->
  (forall y, y ∈ g1 -> y ∈ gl) -> x.1.1 ∉ g1.*1.*1.
Proof.
  intros Hs Hsub Hin. apply list_elem_of_fmap_1 in Hin as (y & Ey & Hin).
  apply list_elem_of_fmap_1 in Hin as (z & -> & Hz). apply Hsub in Hz.
  apply (StronglySorted_app_1_elem_of _ _ _ z x) in Hs as [Hlt _]; [lia|done|by constructor].
Qed.

Lemma kept_or_gone_Revert gl x s id s' :
  kept_or_gone gl x s -> RevertToSnapshot id s = (Ok tt, s') -> kept_or_gone gl x s'.
Proof.
  intros [[gl2 H]|(gl' & H & Hn & Hl)] Hs; destruct (Revert_inv _ _ _ _ H Hs) as (g1 & idx & sv & g2 & E & Htr & Hnx).
  - assert (Hgone : (forall y, y ∈ g1 -> y ∈ gl) -> kept_or_gone gl x s').
    { intros Hsub. right. exists g1. split_and!; [done| |].
      - rewrite (tr_revs _ _ Htr). by eapply sorted_below; [apply H|].
      - rewrite Hnx. pose proof (tr_ok _ _ H) as Hok. rewrite Forall_forall in Hok.
        apply (Hok x). apply elem_of_app. right. by constructor. }
    apply app_eq_inv in E as [(k & -> & E)|(k & E1 & E2)].
    + apply Hgone. intros y Hy. apply elem_of_app. by left.
    + destruct k as [|y k]; [rewrite app_nil_r in E1; subst; by apply Hgone|]. cbn in E2. injection E2 as <- ->.
      left. exists k. by rewrite <- E1.
  - right. exists g1. split_and!; [done| |lia]. rewrite (tr_revs _ _ Htr). rewrite (tr_revs _ _ H), E in Hn.
    rewrite !fmap_app in Hn. intros Hx. apply Hn. apply elem_of_app. by left.
Qed.

Lemma exec_kept_or_gone gl x op s s' :
  kept_or_gone gl x s -> exec op s = (Ok tt, s') -> kept_or_gone gl x s'.
Proof.
  intros Hk H.
  assert (Hc : exec_change op s = (Ok tt, s') -> kept_or_gone gl x s').
  { intros Hc. destruct (kept_or_gone_consistent _ _ _ Hk) as [gl' Ht].
    pose proof (undo_exec_change op s (tr_sane _ _ Ht) I) as Hu. rewrite Hc in Hu. destruct Hu as [_ Hst].
    by eapply kept_or_gone_change. }
  destruct op; try (by apply Hc).
  - cbn [exec] in H. apply bind_Ok_inv in H as (id & s1 & H1 & H2). unfold ret in H2. injection H2 as <-.
    by eapply kept_or_gone_Snapshot.
  - by eapply kept_or_gone_Revert.
Qed.

Lemma each_exec_kept_or_gone gl x ops : forall s s',
  kept_or_gone gl x s -> each ops exec s = (Ok tt, s') -> kept_or_gone gl x s'.
Proof.
  induction ops as [|op ops IH]; intros s s' Hk H; cbn [each] in H.
  - unfold ret in H. by injection H as <-.
  - apply bind_Ok_inv in H as ([] & s1 & H1 & H2). eapply IH; [|exact H2]. by eapply exec_kept_or_gone.
Qed.

Lemma consistent_exec op s s' : consistent s -> exec op s = (Ok tt, s') -> consistent s'.
Proof.
  intros [gl Ht] H.
  assert (Hc : exec_change op s = (Ok tt, s') -> consistent s').
  { intros Hc. pose proof (undo_exec_change op s (tr_sane _ _ Ht) I) as Hu. rewrite Hc in Hu. destruct Hu as [_ Hst].
    exists gl. by eapply tracked_stepped. }
  destruct op; try (by apply Hc).
  - cbn [exec] in H. apply bind_Ok_inv in H as (id & s1 & H1 & H2). unfold ret in H2. injection H2 as <-.
    destruct (tracked_Snapshot s gl Ht) as (t & Ht' & Htr & _). rewrite Ht' in H1. injection H1 as _ <-. by eexists.
  - destruct (Revert_inv _ _ _ _ Ht H) as (g1 & _ & _ & _ & _ & Htr & _). by exists g1.
Qed.

(** *** Transactions *)

Lemma finalise_one_keeps d a s b :
  exists f, lookupObj (finalise_one d a s) b = f <$> lookupObj s b /\
    (forall o, so_address (f o) = so_address o /\ so_fake (f o) = so_fake o /\ so_data (f o) = so_data o).
Proof.
  unfold finalise_one. destruct (sdb_objects s !! a) as [o|] eqn:E.
  - unfold lookupObj. cbn. destruct (decide (b = a)) as [->|Hne].
    + rewrite lookup_insert_eq, E. eexists (fun o => if so_suicided o || (d && empty o) then set_so_deleted true o else so_finalise o).
      split; [done|]. intros o'. by destruct (_ || _).
    + rewrite lookup_insert_ne by done. exists id. split; [|done].
      by destruct (match sdb_objects s !! b with Some _ => _ | None => _ end).
  - exists id. split; [by destruct (lookupObj s b)|done].
Qed.

Lemma sane_finalise_one d a s : sane s -> sane (finalise_one d a s).
Proof.
  intros [Ha Hl Ho]. assert (sdb_accessList (finalise_one d a s) = sdb_accessList s /\ sdb_logSize (finalise_one d a s) = sdb_logSize s) as [E1 E2].
  { unfold finalise_one. by destruct (sdb_objects s !! a). }
  constructor; [by rewrite E1|by rewrite E2|]. intros b o Hb. destruct (finalise_one_keeps d a s b) as (f & Hf & Hk).
  rewrite Hf in Hb. destruct (lookupObj s b) as [o0|] eqn:E; [|done]. cbn in Hb. injection Hb as <-.
  destruct (Hk o0) as (-> & -> & ->). by apply Ho.
Qed.

(** The end of a transaction and the start of the next. *)
Definition next_transaction (d : bool) (thash bhash : hash) (ti : Z) : M StateDB unit :=
  Finalise d ;; Prepare thash bhash ti.

Lemma next_transaction_consistent d th bh ti s s' :
  consistent s -> next_transaction d th bh ti s = (Ok tt, s') -> consistent s'.
Proof.
  intros [gl Ht] H. unfold next_transaction, Finalise, Prepare, bindM, modS in H. injection H as <-.
  exists []. set (s1 := foldr _ _ _). assert (Hs : sane s1).
  { subst s1. induction (elements _) as [|a l IH]; cbn; [apply Ht|]. by apply sane_finalise_one. }
  assert (Hc : sane (clearJournalAndRefund s1) /\ sdb_revisions (clearJournalAndRefund s1) = []).
  { split; [|by unfold clearJournalAndRefund; destruct (j_entries _)]. unfold clearJournalAndRefund.
    by destruct (j_entries _); destruct Hs; constructor. }
  destruct Hc as [[_ Hl Ho] Hr]. constructor; [|done|constructor|constructor].
  constructor; [apply wf_new|done|done].
Qed.

(** Accounts in the trie carry a code hash. *)
Definition accounts_ok (t : T) : Prop :=
  forall a d, snd (loadAccount t a) = Some d -> length (acc_CodeHash d) = 32%nat.

(** The states of a database opened at some root, over any history of operations
    and transactions. *)
Inductive reachable : StateDB -> Prop :=
| reach_New root db s : New root db = inr s -> accounts_ok (sdb_trie s) -> reachable s
| reach_exec op s s' : reachable s -> exec op s = (Ok tt, s') -> reachable s'
| reach_next d th bh ti s s' : reachable s -> next_transaction d th bh ti s = (Ok tt, s') -> reachable s'.

Lemma reachable_consistent s : reachable s -> consistent s.
Proof.
  induction 1 as [root db s H Hok|op s s' _ IH H|d th bh ti s s' _ IH H].
  - unfold New in H. destruct (OpenTrie db root) as [|t]; [done|]. injection H as <-. exists [].
    constructor; [|done|constructor|constructor]. constructor; [apply wf_new|done|].
    intros a o Ho. unfold lookupObj in Ho. cbn in Ho. rewrite lookup_empty in Ho.
    destruct (snd (loadAccount t a)) as [d|] eqn:E; [|done]. injection Ho as <-. split_and!; [done|done|].
    cbn. rewrite <- (Hok a d E). by destruct (acc_Root d =? 0).
  - by eapply consistent_exec.
  - by eapply next_transaction_consistent.
Qed.

(** C29: snapshots.  Whatever a transaction does after taking a snapshot, nested
    snapshots and reverts included, reverting to it succeeds as long as its number
    has not been reverted past, and every account, slot, log, preimage, refund and
    access-list entry reads as it did when the snapshot was taken; the journal is cut
    back to what it was. *)
Theorem snapshot_revert (s s1 s2 : StateDB) (id : Z) (ops : list dbop) :
  reachable s -> Snapshot s = (Ok id, s1) -> each ops exec s1 = (Ok tt, s2) ->
  id ∈ (sdb_revisions s2).*1 ->
  exists s3, RevertToSnapshot id s2 = (Ok tt, s3) /\ state_equiv s3 s /\
    entries s3 = take (length (entries s)) (entries s2) /\ sdb_revisions s3 = sdb_revisions s.
Proof.
  intros Hr Hs Ho Hin. destruct (reachable_consistent s Hr) as [gl Ht].
  destruct (tracked_Snapshot s gl Ht) as (t & Hs' & Htr & Hn). rewrite Hs in Hs'. injection Hs' as -> <-.
  set (x := (sdb_nextRevisionId s, length (entries s), s)) in *.
  destruct (each_exec_kept_or_gone gl x ops s1 s2) as [[gl2 H2]|(gl' & _ & Hgone & _)]; [left; by exists []|done| |done].
  destruct (tracked_Revert s2 gl gl2 _ _ _ H2) as (s3 & H3 & He & Htr3 & En & _).
  exists s3. split_and!; [done|done|done|]. by rewrite (tr_revs _ _ Htr3), (tr_revs _ _ Ht).
Qed.
End StateFacts.

(** ** An instance: tries as association lists, nothing stored *)

Definition listTrie := list (bytes * bytes).

Definition listTrie_del (t : listTrie) (k : bytes) : listTrie := filter (fun e => e.1 <> k) t.

#[global] Instance listBackend : Backend listTrie unit := {
  TryGet t k := inr (match list_find (fun e => e.1 = k) t with Some (_, e) => e.2 | None => [] end);
  TryUpdate t k v := (None, (k, v) :: listTrie_del t k);
  TryDelete t k := (None, listTrie_del t k);
  trie_Hash _ := emptyRoot;
  trie_Commit t d := (inr emptyRoot, (t, d));
  OpenTrie _ _ := inr [];
  OpenStorageTrie _ _ _ := inr [];
  ContractCode _ _ _ := inr [];
  ContractCodeSize _ _ _ := inr 0;
  InsertBlob _ _ d := d }.

Definition sample_state : StateDB listTrie unit :=
  match New emptyRoot tt with
  | inr s => s
  | inl _ => mkStateDB tt [] ∅ ∅ ∅ None 0 0 0 0 ∅ 0 ∅ newAccessList newJournal [] 0
  end.

(** A transaction that writes, takes an inner snapshot, suicides, reverts the inner
    snapshot, and writes again. *)
Definition sample_before : list dbop :=
  [OpCreateAccount 5; OpSetNonce 5 1; OpAddBalance 5 100; OpSetState 5 1 2; OpAddRefund 7].
Definition sample_after : list dbop :=
  [OpSetState 5 1 9; OpAddLog (mkLog 5 [] [] 0 0 0 0 0 false); OpSnapshot; OpSuicide 5; OpCreateAccount 5;
   OpRevert 1; OpSubBalance 5 30; OpAccessSlot 5 1; OpSubRefund 4; OpSetNonce 6 3].

Lemma snapshot_revert_witness :
  let s := snd (each sample_before (exec (crypto:=sample_crypto) false) sample_state) in
  let s1 := snd (Snapshot s) in
  let s2 := snd (each sample_after (exec (crypto:=sample_crypto) false) s1) in
  exists s3, RevertToSnapshot 0 s2 = (Ok tt, s3) /\
    state_equiv (crypto:=sample_crypto) s3 s /\
    entries s3 = take (length (entries s)) (entries s2) /\ sdb_revisions s3 = sdb_revisions s.
Proof.
  intros s s1 s2.
  assert (Hr : forall ops t, reachable (crypto:=sample_crypto) false t ->
    fst (each ops (exec (crypto:=sample_crypto) false) t) = Ok tt ->
    reachable (crypto:=sample_crypto) false (snd (each ops (exec (crypto:=sample_crypto) false) t))).
  { induction ops as [|op ops IH]; intros t Ht H; [done|]. cbn [each] in *. unfold bindM in *.
    destruct (exec false op t) as [[[]| | |] t'] eqn:E; try done. apply IH; [|done]. by eapply reach_exec. }
  apply (snapshot_revert (crypto:=sample_crypto) false s s1 s2 0 sample_after).
  - apply Hr; [|by vm_compute]. eapply (reach_New _ emptyRoot tt); [reflexivity|]. intros a d Hd. done.
  - vm_compute. reflexivity.
  - subst s2. by vm_compute.
  - vm_compute. by constructor.
Defined.
