(* ===== verification/VMWord.v ===== *)
(** Words, stack and memory of the virtual machine (common/math/big.go,
    common/math/integer.go, core/vm/common.go, core/vm/stack.go, core/vm/memory.go).

    A [*big.Int] is a [Z]; the methods that look at its 64-bit words go through the
    list of words.  The stack is a list with its top first, the memory a byte string
    with the fee paid for it.  Reads out of range are panics. *)
From stdpp Require Import prelude list strings.
From Stdlib Require Import ZArith Lia.
From S2P Require Import Prelude VarBytes RLP Crypto.
Local Open Scope Z_scope.

(** ** Methods of [big.Int] *)

Definition tt255 : Z := 2 ^ 255.
Definition tt256 : Z := 2 ^ 256.
Definition tt256m1 : Z := tt256 - 1.
Definition MaxUint64 : Z := 2 ^ 64 - 1.

Definition in_word (z : Z) : Prop := 0 <= z < 2 ^ 256.

Definition BitLen (z : Z) : Z := if z =? 0 then 0 else Z.log2 (Z.abs z) + 1.
Definition IsUint64 (z : Z) : bool := (0 <=? z) && (z <? 2 ^ 64).
Definition big_int64 (z : Z) : Z :=
  let v := i64 (big_uint64 z) in if z <? 0 then i64 (- v) else v.

(** [Bits]: the absolute value in 64-bit words, least significant first. *)
Fixpoint words_le (fuel : nat) (z : Z) : list Z :=
  match fuel with
  | O => []
  | S f => if z =? 0 then [] else z mod 2 ^ 64 :: words_le f (z / 2 ^ 64)
  end.
Definition big_Bits (z : Z) : list Z := words_le (Z.to_nat (Z.log2 (Z.abs z) / 64 + 1)) (Z.abs z).

(** ** common/math *)

Definition BigMin (x y : Z) : Z := if y <? x then y else x.

Definition U256 (x : Z) : Z := Z.land x tt256m1.
Definition S256 (x : Z) : Z := if x <? tt255 then x else x - tt256.

(** The inner loop of [Exp] over the bits of one word, then the loop over the words;
    [base] is squared in place. *)
Fixpoint exp_bits (n : nat) (word result base : Z) : Z * Z :=
  match n with
  | O => (result, base)
  | S n' =>
      let result := if Z.land word 1 =? 1 then U256 (result * base) else result in
      exp_bits n' (Z.shiftr word 1) result (U256 (base * base))
  end.
Fixpoint exp_words (words : list Z) (result base : Z) : Z :=
  match words with
  | [] => result
  | word :: rest => let '(result, base) := exp_bits 64 word result base in exp_words rest result base
  end.
Definition Exp (base exponent : Z) : Z := exp_words (big_Bits exponent) 1 base.

Definition bigEndianByteAt (bigint n : Z) : Z :=
  let words := big_Bits bigint in
  let i := n / 8 in
  if Z.of_nat (length words) <=? i then 0
  else u8 (Z.shiftr (nth (Z.to_nat i) words 0) (8 * (n mod 8))).
Definition math_Byte (bigint padlength n : Z) : Z :=
  if padlength <=? n then 0 else bigEndianByteAt bigint (padlength - 1 - n).

(** [copy(dst, src)]: the shorter length is copied. *)
Definition copy_into {A} (dst src : list A) : list A := take (length dst) src ++ drop (length src) dst.

(** [ReadBits] fills the buffer from its end with the bytes of the words. *)
Definition ReadBits (bigint : Z) (buf : bytes) : bytes :=
  reverse (copy_into (reverse buf) (concat (put_le 8 <$> big_Bits bigint))).

Definition SafeAdd (x y : Z) : Z * bool := (u64 (x + y), MaxUint64 - x <? y).
Definition SafeMul (x y : Z) : Z * bool :=
  if (x =? 0) || (y =? 0) then (0, false) else (u64 (x * y), MaxUint64 / x <? y).

(** ** core/vm/common.go *)

Definition calcMemSize64WithUint (off length64 : Z) : Z * bool :=
  if length64 =? 0 then (0, false)
  else if negb (IsUint64 off) then (0, true)
  else let offset64 := big_uint64 off in
       let val := u64 (offset64 + length64) in (val, val <? offset64).
Definition calcMemSize64 (off l : Z) : Z * bool :=
  if negb (IsUint64 l) then (0, true) else calcMemSize64WithUint off (big_uint64 l).

(** A byte slice of Go: nil, or an array. *)
Abbreviation slice := (option bytes) (only parsing).
Definition slice_bytes (s : slice) : bytes := default [] s.
Definition slice_len (s : slice) : Z := Z.of_nat (length (slice_bytes s)).

(** [data[lo:hi]]; a bound beyond the length is taken as out of range, the capacity
    behind a slice being no part of the model. *)
Definition subslice (data : bytes) (lo hi : Z) : outcome bytes :=
  if (0 <=? lo) && (lo <=? hi) && (hi <=? Z.of_nat (length data))
  then Ok (take (Z.to_nat (hi - lo)) (drop (Z.to_nat lo) data))
  else Panic "slice bounds out of range".

Definition getData (data : bytes) (start size : Z) : outcome bytes :=
  let len := Z.of_nat (length data) in
  let start := if len <? start then len else start in
  let end_ := u64 (start + size) in
  let end_ := if len <? end_ then len else end_ in
  (d ← subslice data start end_; Ok (RightPadBytes d (i64 size)))%stdpp.
Definition getDataBig (data : bytes) (start size : Z) : outcome bytes :=
  let dlen := Z.of_nat (length data) in
  let s := BigMin start dlen in
  let e := BigMin (s + size) dlen in
  (d ← subslice data (big_uint64 s) (big_uint64 e); Ok (RightPadBytes d (i64 (big_uint64 size))))%stdpp.

Definition bigUint64 (v : Z) : Z * bool := (big_uint64 v, negb (IsUint64 v)).
Definition toWordSize (size : Z) : Z :=
  if MaxUint64 - 31 <? size then MaxUint64 / 32 + 1 else u64 (size + 31) / 32.
Definition allZero (b : bytes) : bool := forallb (fun x => b2z x =? 0) b.

(** ** core/vm/stack.go *)

Definition stack_pop (st : list Z) : outcome (Z * list Z) :=
  match st with [] => Panic "index out of range" | x :: rest => Ok (x, rest) end.
Definition stack_push (d : Z) (st : list Z) : list Z := d :: st.
(** [Back(n)]; [peek] is [Back(0)]. *)
Definition stack_Back (n : nat) (st : list Z) : outcome Z :=
  match st !! n with Some x => Ok x | None => Panic "index out of range" end.
Definition stack_peek (st : list Z) : outcome Z := stack_Back 0 st.
(** [swap(n)] and [dup(n)] count from one. *)
Definition stack_swap (n : nat) (st : list Z) : outcome (list Z) :=
  (a ← stack_Back (n - 1) st; b ← stack_Back 0 st; Ok (<[(n - 1)%nat := b]> (<[0%nat := a]> st)))%stdpp.
Definition stack_dup (n : nat) (st : list Z) : outcome (list Z) :=
  (a ← stack_Back (n - 1) st; Ok (stack_push a st))%stdpp.

(** ** core/vm/memory.go *)

Record Memory := mkMemory { mem_store : bytes; mem_lastGasCost : Z }.
Definition NewMemory : Memory := mkMemory [] 0.
Definition mem_Len (m : Memory) : Z := Z.of_nat (length (mem_store m)).
Definition set_mem_store (v : bytes) (m : Memory) : Memory := mkMemory v (mem_lastGasCost m).
Definition set_mem_lastGasCost (v : Z) (m : Memory) : Memory := mkMemory (mem_store m) v.

(** Writing [v] over the bytes from [lo]; [v] lies inside the store. *)
Definition splice (store : bytes) (lo : Z) (v : bytes) : bytes :=
  take (Z.to_nat lo) store ++ v ++ drop (Z.to_nat lo + length v) store.

Definition mem_Set (offset size : Z) (value : bytes) (m : Memory) : outcome Memory :=
  if 0 <? size then
    if mem_Len m <? u64 (offset + size) then Panic "invalid memory: store empty"
    else (dst ← subslice (mem_store m) offset (u64 (offset + size));
          Ok (set_mem_store (splice (mem_store m) offset (copy_into dst value)) m))%stdpp
  else Ok m.

Definition mem_Set32 (offset val : Z) (m : Memory) : outcome Memory :=
  if mem_Len m <? u64 (offset + 32) then Panic "invalid memory: store empty"
  else (dst ← subslice (mem_store m) offset (u64 (offset + 32));
        Ok (set_mem_store (splice (mem_store m) offset
              (ReadBits val (copy_into dst (replicate 32 Byte.x00)))) m))%stdpp.

Definition mem_Resize (size : Z) (m : Memory) : Memory :=
  if mem_Len m <? size
  then set_mem_store (mem_store m ++ replicate (Z.to_nat (size - mem_Len m)) Byte.x00) m else m.

(** [GetCopy] and [GetPtr] return the same bytes; the callers copy what they keep of
    the second. *)
Definition mem_GetPtr (offset size : Z) (m : Memory) : outcome slice :=
  if size =? 0 then Ok None
  else if offset <? mem_Len m
       then (d ← subslice (mem_store m) offset (i64 (offset + size)); Ok (Some d))%stdpp
       else Ok None.
Definition mem_GetCopy (offset size : Z) (m : Memory) : outcome slice :=
  if size =? 0 then Ok None
  else if offset <? mem_Len m
       then if size <? 0 then Panic "makeslice: len out of range"
            else (d ← subslice (mem_store m) offset (i64 (offset + size));
                  Ok (Some (copy_into (replicate (Z.to_nat size) Byte.x00) d)))%stdpp
       else Ok None.
