(* ===== verification/VMWordFacts.v ===== *)
(** Words, memory sizes and memory accesses compute what they stand for: reduction
    modulo 2^256, exponentiation, big-endian bytes; in range they do not panic. *)
From stdpp Require Import prelude list strings.
From Stdlib Require Import ZArith Zpow_facts Lia.
From S2P Require Import Prelude VarBytes RLP Crypto VMWord.
Local Open Scope Z_scope.

(** ** Words *)

Lemma U256_mod x : U256 x = x mod 2 ^ 256.
Proof. unfold U256, tt256m1, tt256. change (2 ^ 256 - 1) with (Z.ones 256). apply Z.land_ones. lia. Qed.

Lemma U256_word x : in_word (U256 x).
Proof. rewrite U256_mod. apply Z.mod_pos_bound. lia. Qed.

Lemma U256_small x : in_word x -> U256 x = x.
Proof. intros Hx. rewrite U256_mod. by apply Z.mod_small. Qed.

Lemma S256_range x : in_word x -> - 2 ^ 255 <= S256 x < 2 ^ 255.
Proof.
  unfold in_word, S256, tt255, tt256. change (2 ^ 256) with (2 * 2 ^ 255). destruct (Z.ltb_spec x (2 ^ 255)); lia.
Qed.

Lemma U256_S256 x : in_word x -> U256 (S256 x) = x.
Proof.
  intros Hx. rewrite U256_mod. unfold S256, tt256. destruct (x <? tt255); [by apply Z.mod_small|].
  rewrite <- (Z.mod_add _ 1) by lia. replace (x - 2 ^ 256 + 1 * 2 ^ 256) with x by lia. by apply Z.mod_small.
Qed.

Lemma IsUint64_true z : IsUint64 z = true <-> 0 <= z < 2 ^ 64.
Proof. unfold IsUint64. rewrite andb_true_iff, Z.leb_le, Z.ltb_lt. done. Qed.

Lemma word_uint64_small z : 0 <= z < 2 ^ 64 -> big_uint64 z = z.
Proof. intros Hz. unfold big_uint64. rewrite Z.abs_eq by lia. apply u64_small. exact Hz. Qed.

Lemma big_uint64_range z : 0 <= big_uint64 z < 2 ^ 64.
Proof. unfold big_uint64, u64. apply Z.mod_pos_bound. lia. Qed.

Lemma word_i64_small z : - 2 ^ 63 <= z < 2 ^ 63 -> i64 z = z.
Proof.
  intros Hz. unfold i64, u64. change (2 ^ 64) with (2 * 2 ^ 63).
  destruct (Z_lt_dec z 0) as [Hn|Hn].
  - rewrite <- (Z.mod_add z 1) by lia. rewrite (Z.mod_small (z + 1 * _)) by lia.
    destruct (Z.ltb_spec (z + 1 * (2 * 2 ^ 63)) (2 ^ 63)); lia.
  - rewrite Z.mod_small by lia. destruct (Z.ltb_spec z (2 ^ 63)); lia.
Qed.

Lemma big_int64_small z : 0 <= z < 2 ^ 63 -> big_int64 z = z.
Proof.
  intros Hz. unfold big_int64. rewrite word_uint64_small by lia. destruct (Z.ltb_spec z 0); [lia|]. apply word_i64_small. lia.
Qed.

Lemma word_BitLen_bound z n : 0 <= z -> 0 <= n -> BitLen z < n -> z < 2 ^ (n - 1).
Proof.
  intros Hz Hn. unfold BitLen. destruct (Z.eqb_spec z 0) as [->|Hne]; intros Hl; [apply Z.pow_pos_nonneg; lia|].
  apply Z.log2_lt_pow2; [lia|]. rewrite Z.abs_eq in Hl by lia. lia.
Qed.

(** ** 64-bit words *)

(** The number a list of words stands for. *)
Fixpoint words_value (ws : list Z) : Z :=
  match ws with [] => 0 | w :: rest => w + 2 ^ 64 * words_value rest end.

Lemma words_le_value fuel : forall z, 0 <= z < 2 ^ (64 * Z.of_nat fuel) -> words_value (words_le fuel z) = z.
Proof.
  induction fuel as [|f IH]; intros z Hz; cbn [words_le words_value]; [cbn in Hz; lia|].
  destruct (Z.eqb_spec z 0) as [->|Hne]; [done|]. cbn [words_value]. rewrite IH.
  - pose proof (Z.div_mod z (2 ^ 64) ltac:(lia)). lia.
  - split; [apply Z.div_pos; lia|]. apply Z.div_lt_upper_bound; [lia|].
    rewrite <- Z.pow_add_r by lia. replace (64 + 64 * Z.of_nat f) with (64 * Z.of_nat (S f)) by lia. lia.
Qed.

Lemma big_Bits_value z : words_value (big_Bits z) = Z.abs z.
Proof.
  unfold big_Bits. apply words_le_value. split; [lia|].
  destruct (Z.eq_dec z 0) as [->|Hz]; [done|].
  pose proof (Z.log2_spec (Z.abs z) ltac:(lia)) as [_ Hl]. eapply Z.lt_le_trans; [exact Hl|].
  pose proof (Z.log2_nonneg (Z.abs z)). pose proof (Z.div_pos (Z.log2 (Z.abs z)) 64 ltac:(lia) ltac:(lia)).
  apply Z.pow_le_mono_r; [lia|]. rewrite Z2Nat.id by lia.
  pose proof (Z.div_mod (Z.log2 (Z.abs z)) 64 ltac:(lia)). pose proof (Z.mod_pos_bound (Z.log2 (Z.abs z)) 64 ltac:(lia)). lia.
Qed.

Lemma words_le_range fuel : forall z, Forall (fun w => 0 <= w < 2 ^ 64) (words_le fuel z).
Proof.
  induction fuel as [|f IH]; intros z; cbn [words_le]; [done|]. destruct (z =? 0); [done|].
  constructor; [apply Z.mod_pos_bound; lia|apply IH].
Qed.

Lemma big_Bits_range z : Forall (fun w => 0 <= w < 2 ^ 64) (big_Bits z).
Proof. apply words_le_range. Qed.

(** ** Exponentiation *)

Lemma mod_pow_cong a b e m : 0 < m -> a mod m = b mod m -> a ^ e mod m = b ^ e mod m.
Proof. intros Hm H. rewrite (Zpower_mod a), (Zpower_mod b) by done. by rewrite H. Qed.

Lemma exp_bits_correct n : forall word result base r b,
  0 <= word < 2 ^ Z.of_nat n -> exp_bits n word result base = (r, b) ->
  r mod 2 ^ 256 = (result * base ^ word) mod 2 ^ 256 /\
  b mod 2 ^ 256 = base ^ (2 ^ Z.of_nat n) mod 2 ^ 256 /\ (in_word result -> in_word r).
Proof.
  induction n as [|n IH]; intros word result base r b Hw; cbn [exp_bits].
  - intros [= <- <-]. assert (word = 0) as -> by (cbn in Hw; lia). by rewrite Z.mul_1_r, Z.pow_1_r.
  - rewrite Nat2Z.inj_succ, Z.pow_succ_r in Hw by lia. intros E.
    rewrite Z.shiftr_div_pow2 in E by lia. change (2 ^ 1) with 2 in E.
    pose proof (Z.div_mod word 2 ltac:(lia)) as Hdm.
    assert (Hb : Z.land word 1 = word mod 2) by (apply (Z.land_ones word 1); lia). rewrite Hb in E.
    pose proof (Z.mod_pos_bound word 2 ltac:(lia)) as Hm2. pose proof (Z.div_pos word 2 ltac:(lia) ltac:(lia)) as Hdp.
    assert (Hrng : 0 <= word / 2 < 2 ^ Z.of_nat n) by (split; [lia|apply Z.div_lt_upper_bound; lia]).
    destruct (IH _ _ _ _ _ Hrng E) as (Hr & Hbb & Hwd). clear IH E.
    assert (Hsq : forall e, 0 <= e -> U256 (base * base) ^ e mod 2 ^ 256 = base ^ (2 * e) mod 2 ^ 256).
    { intros e He. rewrite Z.pow_mul_r, Z.pow_2_r by lia. apply mod_pow_cong; [lia|]. by rewrite U256_mod, Z.mod_mod by lia. }
    split; [|split].
    + rewrite Hr, Z.mul_mod, Hsq by lia. destruct (Z.eqb_spec (word mod 2) 1) as [H1|H1].
      * rewrite U256_mod, Z.mod_mod, <- Z.mul_mod by lia. rewrite Hdm at 2. rewrite H1, Z.pow_add_r by lia.
        f_equal. rewrite Z.pow_1_r. ring.
      * rewrite <- Z.mul_mod by lia. rewrite Hdm at 2. replace (word mod 2) with 0 by lia. by rewrite Z.add_0_r.
    + rewrite Hbb, Hsq by lia. rewrite Nat2Z.inj_succ, Z.pow_succ_r by lia. done.
    + intros Hres. apply Hwd. destruct (word mod 2 =? 1); [apply U256_word|done].
Qed.

Lemma exp_words_correct ws : forall result base,
  Forall (fun w => 0 <= w < 2 ^ 64) ws -> in_word result ->
  exp_words ws result base = (result * base ^ words_value ws) mod 2 ^ 256.
Proof.
  induction ws as [|w ws IH]; intros result base Hws Hres; cbn [exp_words words_value].
  - rewrite Z.mul_1_r. symmetry. by apply Z.mod_small.
  - apply Forall_cons in Hws as [Hw Hws]. destruct (exp_bits 64 w result base) as [r b] eqn:E.
    destruct (exp_bits_correct 64 w result base r b ltac:(exact Hw) E) as (Hr & Hb & Hin). clear E.
    change (2 ^ Z.of_nat 64) with (2 ^ 64) in Hb. assert (HK : 0 <= 2 ^ 64) by (clear; lia). revert Hb HK. generalize (2 ^ 64).
    intros K Hb HK. assert (Hv : 0 <= words_value ws).
    { clear -Hws. induction Hws as [|x l Hx Hl IHl]; cbn [words_value]; lia. }
    rewrite IH by auto. rewrite Z.mul_mod by lia. rewrite Hr, (mod_pow_cong b (base ^ K)) by (exact Hb || lia).
    rewrite <- Z.mul_mod, <- Z.pow_mul_r by lia. f_equal. rewrite Z.pow_add_r by lia. ring.
Qed.

Lemma Exp_correct base exponent : 0 <= exponent -> Exp base exponent = base ^ exponent mod 2 ^ 256.
Proof.
  intros He. unfold Exp. rewrite exp_words_correct; [|apply big_Bits_range|by unfold in_word].
  by rewrite big_Bits_value, Z.abs_eq, Z.mul_1_l.
Qed.

(** ** Bytes of words *)

Lemma words_value_nonneg ws : Forall (fun w => 0 <= w < 2 ^ 64) ws -> 0 <= words_value ws.
Proof. induction 1 as [|x l Hx Hl IHl]; cbn [words_value]; lia. Qed.

Lemma words_nth ws : forall i, Forall (fun w => 0 <= w < 2 ^ 64) ws ->
  nth i ws 0 = (words_value ws / 2 ^ (64 * Z.of_nat i)) mod 2 ^ 64.
Proof.
  induction ws as [|w ws IH]; intros i Hws; cbn [words_value].
  - rewrite Z.div_0_l by (apply Z.pow_nonzero; lia). by destruct i.
  - apply Forall_cons in Hws as [Hw Hws]. pose proof (words_value_nonneg _ Hws) as Hv. destruct i as [|i]; cbn [nth].
    + change (2 ^ (64 * Z.of_nat 0)) with 1. rewrite Z.div_1_r, Z.mul_comm, Z.mod_add by lia. symmetry. by apply Z.mod_small.
    + rewrite IH by done. replace (64 * Z.of_nat (S i)) with (64 + 64 * Z.of_nat i) by lia.
      rewrite Z.pow_add_r, <- Z.div_div by lia. rewrite (Z.mul_comm (2 ^ 64)), Z.div_add by lia.
      by rewrite (Z.div_small w) by done.
Qed.

Lemma bigEndianByteAt_correct z n : 0 <= z -> 0 <= n -> bigEndianByteAt z n = (z / 256 ^ n) mod 256.
Proof.
  intros Hz Hn. unfold bigEndianByteAt. cbv zeta.
  pose proof (Z.div_mod n 8 ltac:(lia)) as Hdm. pose proof (Z.mod_pos_bound n 8 ltac:(lia)) as Hmb.
  pose proof (Z.div_pos n 8 ltac:(lia) ltac:(lia)) as Hdp.
  pose proof (words_nth (big_Bits z) (Z.to_nat (n / 8)) (big_Bits_range z)) as Hnth.
  rewrite big_Bits_value, Z.abs_eq, Z2Nat.id in Hnth by lia.
  assert (Hbyte : (Z.shiftr (nth (Z.to_nat (n / 8)) (big_Bits z) 0) (8 * (n mod 8))) mod 256 = (z / 256 ^ n) mod 256).
  { rewrite Hnth. apply Z.bits_inj'. intros k Hk. change 256 with (2 ^ 8).
    destruct (Z_lt_dec k 8) as [Hlt|Hge].
    - rewrite !Z.mod_pow2_bits_low, Z.shiftr_spec, Z.mod_pow2_bits_low by lia.
      rewrite <- Z.pow_mul_r, !Z.div_pow2_bits by lia. f_equal. lia.
    - by rewrite !Z.mod_pow2_bits_high by lia. }
  destruct (Z.leb_spec (Z.of_nat (length (big_Bits z))) (n / 8)) as [Hle|Hgt].
  - rewrite nth_overflow in Hbyte by lia. rewrite Z.shiftr_0_l in Hbyte. rewrite <- Hbyte. done.
  - unfold u8. change (2 ^ 8) with 256. exact Hbyte.
Qed.

Lemma math_Byte_correct z n : 0 <= z -> 0 <= n ->
  math_Byte z 32 n = if n <? 32 then (z / 256 ^ (31 - n)) mod 256 else 0.
Proof.
  intros Hz Hn. unfold math_Byte. destruct (Z.leb_spec 32 n), (Z.ltb_spec n 32); try lia.
  replace (32 - 1 - n) with (31 - n) by lia. apply bigEndianByteAt_correct; lia.
Qed.

Lemma get_le_words ws : Forall (fun w => 0 <= w < 2 ^ 64) ws -> get_le (concat (put_le 8 <$> ws)) = words_value ws.
Proof.
  induction 1 as [|w ws Hw Hws IH]; [done|]. rewrite fmap_cons. cbn [concat words_value].
  rewrite get_le_app, length_put_le, get_put_le, IH. change (256 ^ Z.of_nat 8) with (2 ^ 64).
  by rewrite Z.mod_small.
Qed.

Lemma length_words_bytes ws : length (concat (put_le 8 <$> ws)) = (8 * length ws)%nat.
Proof. induction ws as [|w ws IH]; [done|]. rewrite fmap_cons. cbn [concat]. rewrite length_app, length_put_le, IH. cbn [length]. lia. Qed.

Lemma length_words_le fuel : forall z, (length (words_le fuel z) <= fuel)%nat.
Proof.
  induction fuel as [|f IH]; intros z; cbn [words_le]; [done|]. destruct (z =? 0); cbn [length]; [lia|].
  specialize (IH (z / 2 ^ 64)). lia.
Qed.

Lemma length_big_Bits z : in_word z -> (length (big_Bits z) <= 4)%nat.
Proof.
  intros Hz. unfold big_Bits. etrans; [apply length_words_le|].
  assert (Z.log2 (Z.abs z) < 256) as Hl.
  { rewrite Z.abs_eq by apply Hz. destruct (Z.eq_dec z 0) as [->|]; [done|]. unfold in_word in Hz. apply Z.log2_lt_pow2; lia. }
  pose proof (Z.div_le_mono _ 255 64 ltac:(lia) (Zlt_succ_le _ 255 Hl)). change (255 / 64) with 3 in *. lia.
Qed.

Lemma length_copy_into {A} (dst src : list A) : length (copy_into dst src) = length dst.
Proof. unfold copy_into. rewrite length_app, length_take, length_drop. lia. Qed.

Lemma length_ReadBits z buf : length (ReadBits z buf) = length buf.
Proof. unfold ReadBits. by rewrite length_reverse, length_copy_into, length_reverse. Qed.

Lemma get_le_zeros k : get_le (replicate k Byte.x00) = 0.
Proof. induction k as [|k IH]; [done|]. cbn [replicate get_le]. rewrite IH. done. Qed.

Lemma put_le_app_zeros b k : (length b <= k)%nat -> b ++ replicate (k - length b) Byte.x00 = put_le k (get_le b).
Proof.
  intros Hk. rewrite <- (put_get_le (b ++ _)), length_app, length_replicate, get_le_app, get_le_zeros, Z.mul_0_r, Z.add_0_r.
  f_equal. lia.
Qed.

(** A word written into 32 zero bytes is its big-endian encoding. *)
Lemma ReadBits_word z : in_word z -> ReadBits z (replicate 32 Byte.x00) = hash_bytes z.
Proof.
  intros Hz. unfold ReadBits, hash_bytes. f_equal. rewrite reverse_replicate. unfold copy_into. rewrite length_replicate.
  pose proof (length_big_Bits z Hz) as Hl. pose proof (length_words_bytes (big_Bits z)) as Hb.
  rewrite take_ge, drop_replicate by lia. rewrite put_le_app_zeros by lia.
  rewrite get_le_words by apply big_Bits_range. rewrite big_Bits_value, Z.abs_eq by apply Hz. done.
Qed.

(** ** Memory sizes *)

Lemma calcMemSize64WithUint_ok off l sz : 0 <= off -> 0 <= l < 2 ^ 64 -> calcMemSize64WithUint off l = (sz, false) ->
  (l = 0 /\ sz = 0) \/ (0 < l /\ sz = off + l /\ off + l < 2 ^ 64).
Proof.
  intros Ho Hl. unfold calcMemSize64WithUint. destruct (Z.eqb_spec l 0) as [->|Hne]; [intros [= <-]; auto|].
  destruct (IsUint64 off) eqn:Eo; cbn [negb]; [|discriminate]. apply IsUint64_true in Eo.
  rewrite word_uint64_small by done. intros [= <- Hof]. right. apply Z.ltb_ge in Hof. unfold u64 in *.
  destruct (Z_lt_dec (off + l) (2 ^ 64)) as [Hlt|Hge]; [rewrite Z.mod_small by lia; lia|].
  rewrite <- (Z.mod_add (off + l) (-1)) in Hof by lia. rewrite Z.mod_small in Hof by lia. lia.
Qed.

Lemma calcMemSize64_ok off l sz : 0 <= off -> 0 <= l -> calcMemSize64 off l = (sz, false) ->
  (l = 0 /\ sz = 0) \/ (0 < l /\ sz = off + l /\ off + l < 2 ^ 64).
Proof.
  intros Ho Hl. unfold calcMemSize64. destruct (IsUint64 l) eqn:El; cbn [negb]; [|discriminate].
  apply IsUint64_true in El. rewrite word_uint64_small by done. by apply calcMemSize64WithUint_ok.
Qed.

Lemma toWordSize_correct size : 0 <= size < 2 ^ 64 -> toWordSize size = (size + 31) / 32.
Proof.
  intros Hs. unfold toWordSize, MaxUint64. destruct (Z.ltb_spec (2 ^ 64 - 1 - 31) size) as [Hlt|Hge].
  - change ((2 ^ 64 - 1) / 32 + 1) with (2 ^ 59). apply Z.div_unique with (size + 31 - 2 ^ 64); lia.
  - unfold u64. by rewrite Z.mod_small by lia.
Qed.

Lemma word_rounding sz m : 0 <= sz < 2 ^ 64 -> SafeMul (toWordSize sz) 32 = (m, false) ->
  sz <= m < sz + 32 /\ m = 32 * ((sz + 31) / 32) /\ m < 2 ^ 64.
Proof.
  intros Hs. rewrite toWordSize_correct by done.
  pose proof (Z.div_mod (sz + 31) 32 ltac:(lia)) as Hdm. pose proof (Z.mod_pos_bound (sz + 31) 32 ltac:(lia)) as Hmb.
  pose proof (Z.div_pos (sz + 31) 32 ltac:(lia) ltac:(lia)) as Hdp. generalize dependent ((sz + 31) / 32). intros q Hdm Hdp.
  unfold SafeMul. destruct (Z.eqb_spec q 0) as [->|Hq]; cbn [orb Z.eqb]; [intros [= <-]; lia|].
  intros [= <- Hof]. apply Z.ltb_ge in Hof. unfold MaxUint64 in Hof.
  assert (32 * q <= 2 ^ 64 - 1) as Hle.
  { pose proof (Z.mul_div_le (2 ^ 64 - 1) q ltac:(lia)). nia. }
  unfold u64. rewrite Z.mod_small by lia. lia.
Qed.

Lemma SafeAdd_ok x y z : 0 <= x < 2 ^ 64 -> 0 <= y < 2 ^ 64 -> SafeAdd x y = (z, false) -> z = x + y /\ x + y < 2 ^ 64.
Proof.
  intros Hx Hy [= <- Hof]. apply Z.ltb_ge in Hof. unfold MaxUint64 in Hof. unfold u64. rewrite Z.mod_small by lia. lia.
Qed.

Lemma SafeMul_ok x y z : 0 <= x < 2 ^ 64 -> 0 <= y < 2 ^ 64 -> SafeMul x y = (z, false) -> z = x * y /\ x * y < 2 ^ 64.
Proof.
  intros Hx Hy. unfold SafeMul. destruct (Z.eqb_spec x 0) as [->|Hx0]; cbn [orb]; [intros [= <-]; lia|].
  destruct (Z.eqb_spec y 0) as [->|Hy0]; [intros [= <-]; lia|].
  intros [= <- Hof]. apply Z.ltb_ge in Hof. unfold MaxUint64 in Hof.
  assert (x * y <= 2 ^ 64 - 1) as Hle.
  { pose proof (Z.mul_div_le (2 ^ 64 - 1) x ltac:(lia)). nia. }
  unfold u64. rewrite Z.mod_small by nia. lia.
Qed.

(** ** Memory accesses *)

(** The region from [off] of [l] bytes lies inside a memory of [n] bytes. *)
Definition fits (off l n : Z) : Prop := l = 0 \/ off + l <= n.

Lemma subslice_Ok data lo hi : 0 <= lo -> lo <= hi -> hi <= Z.of_nat (length data) ->
  subslice data lo hi = Ok (take (Z.to_nat (hi - lo)) (drop (Z.to_nat lo) data)).
Proof.
  intros H1 H2 H3. unfold subslice. by rewrite (proj2 (Z.leb_le 0 lo)), (proj2 (Z.leb_le lo hi)), (proj2 (Z.leb_le hi _)).
Qed.

Lemma length_subslice data lo hi d : subslice data lo hi = Ok d -> Z.of_nat (length d) = hi - lo.
Proof.
  unfold subslice. destruct (Z.leb_spec 0 lo), (Z.leb_spec lo hi), (Z.leb_spec hi (Z.of_nat (length data))); cbn; try discriminate.
  intros [= <-]. rewrite length_take, length_drop. lia.
Qed.

Lemma length_splice store lo v : 0 <= lo -> lo + Z.of_nat (length v) <= Z.of_nat (length store) ->
  length (splice store lo v) = length store.
Proof. intros H1 H2. unfold splice. rewrite !length_app, length_take, length_drop. lia. Qed.

Section access.
Context (m : Memory) (Hm : mem_Len m < 2 ^ 63).

Lemma mem_GetPtr_ok off l : 0 <= off -> 0 <= l -> fits off l (mem_Len m) ->
  mem_GetPtr (big_int64 off) (big_int64 l) m =
    Ok (if l =? 0 then None else Some (take (Z.to_nat l) (drop (Z.to_nat off) (mem_store m)))).
Proof.
  intros Ho Hl [->|Hf]; [done|]. unfold mem_GetPtr. destruct (Z.eqb_spec l 0) as [->|Hne]; [done|].
  rewrite !big_int64_small by lia. destruct (Z.eqb_spec l 0); [lia|]. destruct (Z.ltb_spec off (mem_Len m)); [|lia].
  rewrite word_i64_small by lia. rewrite subslice_Ok by (unfold mem_Len in *; lia).
  cbn. by replace (off + l - off) with l by lia.
Qed.

Lemma mem_GetCopy_ok off l : 0 <= off -> 0 <= l -> fits off l (mem_Len m) ->
  mem_GetCopy (big_int64 off) (big_int64 l) m = mem_GetPtr (big_int64 off) (big_int64 l) m.
Proof.
  intros Ho Hl [->|Hf]; [done|]. unfold mem_GetCopy, mem_GetPtr. destruct (Z.eq_dec l 0) as [->|Hne]; [done|].
  rewrite !big_int64_small by lia. destruct (Z.eqb_spec l 0); [lia|]. destruct (Z.ltb_spec off (mem_Len m)); [|lia].
  destruct (Z.ltb_spec l 0); [lia|]. rewrite word_i64_small by lia. rewrite subslice_Ok by (unfold mem_Len in *; lia).
  cbn. do 2 f_equal. unfold copy_into. rewrite length_replicate.
  assert (length (take (Z.to_nat (off + l - off)) (drop (Z.to_nat off) (mem_store m))) = Z.to_nat l) as Hlen.
  { unfold mem_Len in *. rewrite length_take, length_drop. lia. }
  rewrite Hlen, drop_replicate, Nat.sub_diag, app_nil_r. apply take_ge. lia.
Qed.

Lemma mem_Set_ok off l v : 0 <= off -> 0 <= l -> fits off l (mem_Len m) ->
  exists m', mem_Set (big_uint64 off) (big_uint64 l) v m = Ok m' /\
    mem_Len m' = mem_Len m /\ mem_lastGasCost m' = mem_lastGasCost m.
Proof.
  intros Ho Hl [->|Hf]; [by exists m|]. unfold mem_Set. destruct (Z.eq_dec l 0) as [->|Hne]; [by exists m|].
  rewrite !word_uint64_small by lia. destruct (Z.ltb_spec 0 l); [|lia]. unfold u64. rewrite Z.mod_small by lia.
  destruct (Z.ltb_spec (mem_Len m) (off + l)); [lia|].
  destruct (subslice (mem_store m) off (off + l)) as [d| | |] eqn:E;
    try (rewrite subslice_Ok in E by (unfold mem_Len in *; lia); discriminate E).
  cbn. eexists. split; [done|]. split; [|done]. unfold mem_Len in *. cbn [mem_store set_mem_store].
  apply length_subslice in E. rewrite length_splice; [done|done|]. rewrite length_copy_into. lia.
Qed.

Lemma mem_Set32_ok off v : 0 <= off -> off + 32 <= mem_Len m -> in_word v ->
  mem_Set32 (big_uint64 off) v m = Ok (set_mem_store (splice (mem_store m) off (hash_bytes v)) m).
Proof.
  intros Ho Hf Hv. unfold mem_Set32. rewrite !word_uint64_small by lia. unfold u64. rewrite Z.mod_small by lia.
  destruct (Z.ltb_spec (mem_Len m) (off + 32)); [lia|].
  destruct (subslice (mem_store m) off (off + 32)) as [d| | |] eqn:E;
    try (rewrite subslice_Ok in E by (unfold mem_Len in *; lia); discriminate E).
  apply length_subslice in E. cbn [mbind outcome_bind]. do 3 f_equal. replace (copy_into d (replicate 32 Byte.x00)) with (replicate 32 Byte.x00).
  - by apply ReadBits_word.
  - unfold copy_into. rewrite length_replicate, drop_ge, app_nil_r by lia. by rewrite take_ge by (rewrite length_replicate; lia).
Qed.
End access.

Lemma mem_Len_Resize size m : mem_Len (mem_Resize size m) = Z.max size (mem_Len m).
Proof.
  unfold mem_Resize. destruct (Z.ltb_spec (mem_Len m) size) as [Hlt|Hge]; [|lia].
  unfold mem_Len in *. cbn [mem_store set_mem_store]. rewrite length_app, length_replicate. lia.
Qed.

Lemma getDataBig_ok data start size : Z.of_nat (length data) < 2 ^ 63 -> 0 <= start -> 0 <= size < 2 ^ 63 ->
  exists d, getDataBig data start size = Ok d /\ Z.of_nat (length d) = size.
Proof.
  intros Hd Hs Hz. unfold getDataBig. cbv zeta. set (n := Z.of_nat (length data)) in *.
  assert (0 <= n) by lia. set (s := BigMin start n). assert (0 <= s <= n) as Hsn by (unfold s, BigMin; destruct (Z.ltb_spec n start); lia).
  set (e := BigMin (s + size) n). assert (s <= e <= n /\ e <= s + size) as He by (unfold e, BigMin; destruct (Z.ltb_spec n (s + size)); lia).
  rewrite !word_uint64_small by lia. destruct (subslice data s e) as [d| | |] eqn:E;
    try (rewrite subslice_Ok in E by (unfold n in *; lia); discriminate E).
  apply length_subslice in E. cbn. eexists. split; [done|]. rewrite word_i64_small by lia. unfold RightPadBytes.
  destruct (Z.leb_spec size (Z.of_nat (length d))); [lia|]. rewrite length_app, length_replicate. lia.
Qed.
