(* ===== verification/VMAnalysis.v ===== *)
(** Jump destination analysis (core/vm/analysis.go).

    [codeBitmap] marks the bytes of a program that are arguments of push
    instructions, eight at a time where it can, in a bit vector that is a little
    longer than the code.  The reference definition walks the code one instruction
    at a time; the theorem says that both agree on every position of the code and
    that no index is out of range. *)
From stdpp Require Import prelude list strings.
From Stdlib Require Import ZArith Lia.
From S2P Require Import Prelude VarBytes RLP Crypto VMWord VMWordFacts.
Local Open Scope Z_scope.

(** ** The bit vector *)

Abbreviation bitvec := (list Z) (only parsing).

Definition OpPUSH1 : Z := 0x60.
Definition OpPUSH32 : Z := 0x7f.

(** [bits[i] |= v] *)
Definition or_at (i : Z) (v : Z) (bits : bitvec) : outcome bitvec :=
  match bits !! Z.to_nat i with
  | Some x => Ok (<[Z.to_nat i := Z.lor x v]> bits)
  | None => Panic "index out of range"
  end.

Definition bits_set (pos : Z) (bits : bitvec) : outcome bitvec :=
  or_at (pos / 8) (Z.shiftr 0x80 (pos mod 8)) bits.

Definition bits_set8 (pos : Z) (bits : bitvec) : outcome bitvec :=
  (bits ← or_at (pos / 8) (Z.shiftr 0xFF (pos mod 8)) bits;
   or_at (pos / 8 + 1) (Z.lxor 0xFF (Z.shiftr 0xFF (pos mod 8))) bits)%stdpp.

Definition codeSegment (pos : Z) (bits : bitvec) : outcome bool :=
  match bits !! Z.to_nat (pos / 8) with
  | Some x => Ok (Z.land x (Z.shiftr 0x80 (pos mod 8)) =? 0)
  | None => Panic "index out of range"
  end.

(** The two inner loops: [n] groups of eight, then [n] single bits. *)
Fixpoint mark8 (n : nat) (pc : Z) (bits : bitvec) : outcome (Z * bitvec) :=
  match n with
  | O => Ok (pc, bits)
  | S n' => (bits ← bits_set8 pc bits; mark8 n' (u64 (pc + 8)) bits)%stdpp
  end.
Fixpoint mark1 (n : nat) (pc : Z) (bits : bitvec) : outcome (Z * bitvec) :=
  match n with
  | O => Ok (pc, bits)
  | S n' => (bits ← bits_set pc bits; mark1 n' (u64 (pc + 1)) bits)%stdpp
  end.

(** The loop over the code; every round moves on by at least one byte. *)
Fixpoint codeBitmap_loop (fuel : nat) (code : bytes) (pc : Z) (bits : bitvec) : outcome bitvec :=
  if Z.of_nat (length code) <=? pc then Ok bits else
  match fuel with
  | O => Blocked
  | S f =>
      let op := b2z (nth (Z.to_nat pc) code Byte.x00) in
      if (OpPUSH1 <=? op) && (op <=? OpPUSH32) then
        let numbits := op - OpPUSH1 + 1 in
        ('(pc, bits) ← mark8 (Z.to_nat (numbits / 8)) (u64 (pc + 1)) bits;
         '(pc, bits) ← mark1 (Z.to_nat (numbits mod 8)) pc bits;
         codeBitmap_loop f code pc bits)%stdpp
      else codeBitmap_loop f code (u64 (pc + 1)) bits
  end.

Definition codeBitmap (code : bytes) : outcome bitvec :=
  codeBitmap_loop (length code) code 0 (replicate (length code / 8 + 1 + 4) 0).

(** ** The reference *)

(** How many bytes after the instruction [op] are its argument. *)
Definition push_size (op : Z) : nat :=
  if (OpPUSH1 <=? op) && (op <=? OpPUSH32) then Z.to_nat (op - OpPUSH1 + 1) else 0.

(** Which bytes of a program are arguments, [k] of them being still to come. *)
Fixpoint push_data (k : nat) (code : bytes) : list bool :=
  match code with
  | [] => []
  | b :: rest =>
      match k with
      | S k' => true :: push_data k' rest
      | O => false :: push_data (push_size (b2z b)) rest
      end
  end.

(** ** Bits *)

(** The bit of [bits] for position [p], and the number of positions. *)
Definition bit_at (bits : bitvec) (p : Z) : bool :=
  Z.testbit (nth (Z.to_nat (p / 8)) bits 0) (7 - p mod 8).
Definition room (bits : bitvec) : Z := 8 * Z.of_nat (length bits).

Lemma shiftr_80_bit p k : 0 <= k -> Z.testbit (Z.shiftr 0x80 (p mod 8)) k = (k =? 7 - p mod 8).
Proof.
  intros Hk. pose proof (Z.mod_pos_bound p 8 ltac:(lia)). rewrite Z.shiftr_spec by done. change 0x80 with (2 ^ 7).
  rewrite Z.pow2_bits_eqb by lia. destruct (Z.eqb_spec 7 (k + p mod 8)), (Z.eqb_spec k (7 - p mod 8)); done || lia.
Qed.

Lemma shiftr_FF_bit p k : 0 <= k -> Z.testbit (Z.shiftr 0xFF (p mod 8)) k = (k <=? 7 - p mod 8).
Proof.
  intros Hk. pose proof (Z.mod_pos_bound p 8 ltac:(lia)). rewrite Z.shiftr_spec by done. change 0xFF with (Z.ones 8).
  destruct (Z.leb_spec k (7 - p mod 8)); [apply Z.ones_spec_low; lia|apply Z.ones_spec_high; lia].
Qed.

(** [bits'] is [bits] with the positions from [lo] to before [hi] set. *)
Definition marked (lo hi : Z) (bits bits' : bitvec) : Prop :=
  length bits' = length bits /\
  forall p, 0 <= p -> bit_at bits' p = bit_at bits p || ((lo <=? p) && (p <? hi)).

Lemma marked_refl lo bits : marked lo lo bits bits.
Proof.
  split; [done|]. intros p Hp. destruct (Z.leb_spec lo p), (Z.ltb_spec p lo); cbn; rewrite ?orb_false_r; done || lia.
Qed.

Lemma marked_trans lo mid hi b1 b2 b3 : lo <= mid <= hi -> marked lo mid b1 b2 -> marked mid hi b2 b3 -> marked lo hi b1 b3.
Proof.
  intros Hle [L1 H1] [L2 H2]. split; [congruence|]. intros p Hp. rewrite H2, H1 by done. rewrite <- orb_assoc. f_equal.
  destruct (Z.leb_spec lo p), (Z.ltb_spec p mid), (Z.leb_spec mid p), (Z.ltb_spec p hi); done || lia.
Qed.

Lemma or_at_ok i v bits : 0 <= i < Z.of_nat (length bits) ->
  exists bits', or_at i v bits = Ok bits' /\ length bits' = length bits /\
    forall p, 0 <= p -> bit_at bits' p = bit_at bits p || ((p / 8 =? i) && Z.testbit v (7 - p mod 8)).
Proof.
  intros Hi. unfold or_at. destruct (lookup_lt_is_Some_2 bits (Z.to_nat i) ltac:(lia)) as [x Hx]. rewrite Hx.
  eexists. split; [done|]. split; [apply length_insert|]. intros p Hp. unfold bit_at.
  pose proof (Z.div_pos p 8 ltac:(lia) ltac:(lia)) as Hdp. rewrite !nth_lookup.
  destruct (Z.eqb_spec (p / 8) i) as [->|Hne].
  - rewrite list_lookup_insert_eq by lia. rewrite Hx. cbn. by rewrite Z.lor_spec.
  - rewrite list_lookup_insert_ne by lia. cbn. by rewrite orb_false_r.
Qed.

Lemma bits_set_ok pos bits : 0 <= pos < room bits ->
  exists bits', bits_set pos bits = Ok bits' /\ marked pos (pos + 1) bits bits'.
Proof.
  intros Hp. unfold bits_set, room in *. pose proof (Z.div_mod pos 8 ltac:(lia)). pose proof (Z.mod_pos_bound pos 8 ltac:(lia)).
  destruct (or_at_ok (pos / 8) (Z.shiftr 0x80 (pos mod 8)) bits ltac:(lia)) as (b & -> & Hl & Hb).
  exists b. split; [done|]. split; [done|]. intros p Hp0. rewrite Hb by done. f_equal.
  pose proof (Z.div_mod p 8 ltac:(lia)). pose proof (Z.mod_pos_bound p 8 ltac:(lia)). rewrite shiftr_80_bit by lia.
  destruct (Z.eqb_spec (p / 8) (pos / 8)), (Z.eqb_spec (7 - p mod 8) (7 - pos mod 8)), (Z.leb_spec pos p), (Z.ltb_spec p (pos + 1));
    done || lia.
Qed.

Lemma bits_set8_ok pos bits : 0 <= pos -> pos + 8 < room bits ->
  exists bits', bits_set8 pos bits = Ok bits' /\ marked pos (pos + 8) bits bits'.
Proof.
  intros Hp Hr. unfold bits_set8, room in *. pose proof (Z.div_mod pos 8 ltac:(lia)). pose proof (Z.mod_pos_bound pos 8 ltac:(lia)).
  destruct (or_at_ok (pos / 8) (Z.shiftr 0xFF (pos mod 8)) bits ltac:(lia)) as (b & -> & Hl & Hb). cbn [mbind outcome_bind].
  destruct (or_at_ok (pos / 8 + 1) (Z.lxor 0xFF (Z.shiftr 0xFF (pos mod 8))) b ltac:(lia)) as (b' & -> & Hl' & Hb').
  exists b'. split; [done|]. split; [congruence|]. intros p Hp0. rewrite Hb', Hb by done. rewrite <- orb_assoc. f_equal.
  pose proof (Z.div_mod p 8 ltac:(lia)). pose proof (Z.mod_pos_bound p 8 ltac:(lia)).
  rewrite Z.lxor_spec, !shiftr_FF_bit by lia. change 0xFF with (Z.ones 8). rewrite Z.ones_spec_low by lia. cbn [xorb].
  destruct (Z.eqb_spec (p / 8) (pos / 8)), (Z.leb_spec (7 - p mod 8) (7 - pos mod 8)), (Z.eqb_spec (p / 8) (pos / 8 + 1)),
    (Z.leb_spec pos p), (Z.ltb_spec p (pos + 8)); done || lia.
Qed.

Lemma mark8_ok n : forall pc bits, 0 <= pc -> (n <> O -> pc + 8 * Z.of_nat n < room bits) -> pc + 8 * Z.of_nat n < 2 ^ 64 ->
  exists bits', mark8 n pc bits = Ok (pc + 8 * Z.of_nat n, bits') /\ marked pc (pc + 8 * Z.of_nat n) bits bits'.
Proof.
  induction n as [|n IH]; intros pc bits Hpc Hr Hb; cbn [mark8].
  - exists bits. rewrite Z.mul_0_r, Z.add_0_r. split; [done|apply marked_refl].
  - destruct (bits_set8_ok pc bits Hpc ltac:(lia)) as (b & -> & Hm). cbn [mbind outcome_bind].
    unfold u64. rewrite Z.mod_small by lia. destruct (IH (pc + 8) b) as (b' & -> & Hm'); [lia|intros _; destruct Hm as [Hl _]; unfold room in *; lia|lia|].
    exists b'. replace (pc + 8 + 8 * Z.of_nat n) with (pc + 8 * Z.of_nat (S n)) in * by lia.
    split; [done|]. apply (marked_trans _ (pc + 8) _ _ b); [lia|done|done].
Qed.

Lemma mark1_ok n : forall pc bits, 0 <= pc -> pc + Z.of_nat n <= room bits -> pc + Z.of_nat n < 2 ^ 64 ->
  exists bits', mark1 n pc bits = Ok (pc + Z.of_nat n, bits') /\ marked pc (pc + Z.of_nat n) bits bits'.
Proof.
  induction n as [|n IH]; intros pc bits Hpc Hr Hb; cbn [mark1].
  - exists bits. rewrite Z.add_0_r. split; [done|apply marked_refl].
  - destruct (bits_set_ok pc bits ltac:(lia)) as (b & -> & Hm). cbn [mbind outcome_bind].
    unfold u64. rewrite Z.mod_small by lia. destruct (IH (pc + 1) b) as (b' & -> & Hm'); [lia|destruct Hm as [Hl _]; unfold room in *; lia|lia|].
    exists b'. replace (pc + 1 + Z.of_nat n) with (pc + Z.of_nat (S n)) in * by lia.
    split; [done|]. apply (marked_trans _ (pc + 1) _ _ b); [lia|done|done].
Qed.

(** ** The reference definition along the code *)

Lemma length_push_data code : forall k, length (push_data k code) = length code.
Proof. induction code as [|b code IH]; intros [|k]; cbn; f_equal; auto. Qed.

Lemma push_data_args k : forall code j, (j < k)%nat -> (j < length code)%nat -> push_data k code !! j = Some true.
Proof.
  induction k as [|k IH]; intros [|b code] [|j] Hj Hl; cbn in *; try lia; [done|]. apply IH; lia.
Qed.

Lemma push_data_next k : forall code, drop k (push_data k code) = push_data 0 (drop k code).
Proof. induction k as [|k IH]; intros [|b code]; cbn; [done|done|done|]. apply IH. Qed.

Lemma push_data_at (pc : nat) code b : code !! pc = Some b -> drop pc (push_data 0 code) = push_data 0 (drop pc code) ->
  push_data 0 code !! pc = Some false /\
  (forall j, (j < push_size (b2z b))%nat -> (pc + 1 + j < length code)%nat -> push_data 0 code !! (pc + 1 + j)%nat = Some true) /\
  drop (pc + 1 + push_size (b2z b)) (push_data 0 code) = push_data 0 (drop (pc + 1 + push_size (b2z b)) code).
Proof.
  intros Hb Hd. rewrite (drop_S _ _ _ Hb) in Hd. cbn [push_data] in Hd.
  assert (Hnext : drop (pc + 1) (push_data 0 code) = push_data (push_size (b2z b)) (drop (S pc) code)).
  { replace (pc + 1)%nat with (pc + 1)%nat by lia. rewrite <- drop_drop, Hd. done. }
  split; [|split].
  - rewrite <- (Nat.add_0_r pc), <- lookup_drop, Hd. done.
  - intros j Hj Hl. rewrite <- lookup_drop, Hnext. apply push_data_args; [done|]. rewrite length_drop. lia.
  - rewrite <- drop_drop, Hnext, push_data_next, drop_drop. do 2 f_equal. lia.
Qed.

(** Up to [pc], an instruction boundary, the bits are those of the reference. *)
Definition scanned (code : bytes) (pc : Z) (bits : bitvec) : Prop :=
  0 <= pc /\ room bits = 8 * Z.of_nat (length code / 8 + 1 + 4) /\
  drop (Z.to_nat pc) (push_data 0 code) = push_data 0 (drop (Z.to_nat pc) code) /\
  forall p, 0 <= p < Z.of_nat (length code) -> bit_at bits p = (p <? pc) && nth (Z.to_nat p) (push_data 0 code) false.

Lemma scanned_step code pc bits bits' b : scanned code pc bits -> pc < Z.of_nat (length code) ->
  code !! Z.to_nat pc = Some b ->
  marked (pc + 1) (pc + 1 + Z.of_nat (push_size (b2z b))) bits bits' ->
  scanned code (pc + 1 + Z.of_nat (push_size (b2z b))) bits'.
Proof.
  intros (Hpc & Hroom & Hd & Hbits) Hlt Hb [Hl Hm]. destruct (push_data_at _ _ _ Hb Hd) as (Hat & Hargs & Hnext).
  set (n := push_size (b2z b)) in *. split; [lia|]. split; [unfold room in *; by rewrite Hl|]. split.
  { replace (Z.to_nat (pc + 1 + Z.of_nat n)) with (Z.to_nat pc + 1 + n)%nat by lia. done. }
  intros p Hp. rewrite Hm, Hbits by lia.
  destruct (Z.ltb_spec p pc), (Z.leb_spec (pc + 1) p), (Z.ltb_spec p (pc + 1 + Z.of_nat n)); cbn [andb orb]; rewrite ?orb_false_r; try done; try lia.
  - rewrite nth_lookup. replace (Z.to_nat p) with (Z.to_nat pc + 1 + Z.to_nat (p - pc - 1))%nat by lia. rewrite Hargs by lia. done.
  - replace (Z.to_nat p) with (Z.to_nat pc) by lia. by rewrite nth_lookup, Hat.
Qed.

Lemma push_size_le op : (push_size op <= 32)%nat.
Proof. unfold push_size, OpPUSH1, OpPUSH32. destruct (Z.leb_spec 0x60 op), (Z.leb_spec op 0x7f); cbn [andb]; lia. Qed.

Lemma codeBitmap_loop_ok code (Hlen : Z.of_nat (length code) < 2 ^ 63) fuel : forall pc bits,
  scanned code pc bits -> Z.of_nat (length code) - pc <= Z.of_nat fuel ->
  exists pc' bits', codeBitmap_loop fuel code pc bits = Ok bits' /\ scanned code pc' bits' /\ Z.of_nat (length code) <= pc'.
Proof.
  induction fuel as [|f IH]; intros pc bits Hs Hf; cbn [codeBitmap_loop];
    (destruct (Z.leb_spec (Z.of_nat (length code)) pc) as [Hge|Hlt]; [by exists pc, bits|]); [lia|].
  pose proof Hs as (Hpc & Hroom & _ & _).
  destruct (lookup_lt_is_Some_2 code (Z.to_nat pc) ltac:(lia)) as [b Hb].
  pose proof (scanned_step code pc bits) as Hstep. rewrite nth_lookup, Hb. cbn [default from_option id].
  specialize (fun bits' => Hstep bits' b Hs Hlt Hb). pose proof (push_size_le (b2z b)) as Hps.
  unfold push_size in *. assert (u64 (pc + 1) = pc + 1) as -> by (apply u64_small; unfold in_u64; lia).
  destruct ((OpPUSH1 <=? b2z b) && (b2z b <=? OpPUSH32)) eqn:Epush.
  - apply andb_true_iff in Epush as [E1 E2]. apply Z.leb_le in E1, E2. cbv zeta.
    set (n := b2z b - OpPUSH1 + 1) in *. assert (1 <= n <= 32) as Hn by (unfold n, OpPUSH1, OpPUSH32 in *; lia).
    pose proof (Z.div_mod n 8 ltac:(lia)) as Hdm. pose proof (Z.mod_pos_bound n 8 ltac:(lia)) as Hmb.
    pose proof (Z.div_pos n 8 ltac:(lia) ltac:(lia)) as Hdp. pose proof (Nat.div_mod_eq (length code) 8) as Hdl.
    pose proof (Nat.mod_upper_bound (length code) 8 ltac:(lia)) as Hml.
    destruct (mark8_ok (Z.to_nat (n / 8)) (pc + 1) bits) as (b8 & E8 & M8); [lia|lia|lia|]. rewrite E8. cbn [mbind outcome_bind].
    destruct (mark1_ok (Z.to_nat (n mod 8)) (pc + 1 + 8 * Z.of_nat (Z.to_nat (n / 8))) b8) as (b1 & E1' & M1);
      [lia|destruct M8 as [Hl8 _]; unfold room in *; lia|lia|]. rewrite E1'. cbn [mbind outcome_bind].
    apply IH; [|lia]. replace (pc + 1 + 8 * Z.of_nat (Z.to_nat (n / 8)) + Z.of_nat (Z.to_nat (n mod 8)))
      with (pc + 1 + Z.of_nat (Z.to_nat n)) in * by lia.
    apply Hstep. apply (marked_trans _ (pc + 1 + 8 * Z.of_nat (Z.to_nat (n / 8))) _ _ b8); [lia|done|done].
  - apply IH; [|lia]. specialize (Hstep bits). rewrite Z.add_0_r in Hstep. apply Hstep, marked_refl.
Qed.

(** The analysis never leaves its bit vector, and tells code from push data at every
    position of the program. *)
Lemma codeBitmap_segments code : Z.of_nat (length code) < 2 ^ 63 ->
  exists bits, codeBitmap code = Ok bits /\
    forall pos, 0 <= pos < Z.of_nat (length code) ->
      codeSegment pos bits = Ok (negb (nth (Z.to_nat pos) (push_data 0 code) false)).
Proof.
  intros Hlen. unfold codeBitmap.
  destruct (codeBitmap_loop_ok code Hlen (length code) 0 (replicate (length code / 8 + 1 + 4) 0)) as (pc & bits & -> & Hs & Hge).
  - split; [lia|]. split; [unfold room; by rewrite length_replicate|]. split; [by rewrite !drop_0|].
    intros p Hp. unfold bit_at. destruct (Z.ltb_spec p 0); [lia|]. cbn [andb].
    rewrite nth_lookup. destruct (replicate _ 0 !! _) eqn:E; [|by rewrite Z.bits_0].
    apply lookup_replicate in E as [-> _]. apply Z.bits_0.
  - lia.
  - exists bits. split; [done|]. intros pos Hpos. destruct Hs as (_ & Hroom & _ & Hbits). specialize (Hbits pos Hpos).
    destruct (Z.ltb_spec pos pc); [|lia]. cbn [andb] in Hbits. rewrite <- Hbits. unfold codeSegment, bit_at.
    pose proof (Z.div_mod pos 8 ltac:(lia)). pose proof (Z.mod_pos_bound pos 8 ltac:(lia)).
    pose proof (Nat.div_mod_eq (length code) 8). pose proof (Nat.mod_upper_bound (length code) 8 ltac:(lia)).
    destruct (lookup_lt_is_Some_2 bits (Z.to_nat (pos / 8))) as [x Hx]; [unfold room in *; lia|].
    rewrite nth_lookup, Hx. cbn [default from_option id]. f_equal. destruct (Z.testbit x (7 - pos mod 8)) eqn:Et; cbn [negb].
    + apply Z.eqb_neq. intros E0. assert (Z.testbit (Z.land x (Z.shiftr 0x80 (pos mod 8))) (7 - pos mod 8) = true) as Ht.
      { rewrite Z.land_spec, Et, shiftr_80_bit by lia. apply Z.eqb_refl. }
      rewrite E0, Z.bits_0 in Ht. discriminate Ht.
    + apply Z.eqb_eq, Z.bits_inj'. intros k Hk. rewrite Z.land_spec, shiftr_80_bit, Z.bits_0 by lia.
      destruct (Z.eqb_spec k (7 - pos mod 8)) as [->|]; [by rewrite Et|apply andb_false_r].
Qed.
