(* ===== verification/VMState.v ===== *)
(** What the virtual machine works on (core/vm/interface.go, contract.go, the types
    of evm.go and interpreter.go, rollup/rcfg/system_address.go).

    The interface [StateDB] is the signature [method]: one constructor per method,
    indexed by what it returns; a database is an interpretation of the signature.
    [EVM] holds what a call changes in the machine, [scope] what an instruction sees:
    the machine and the contract, memory, stack and program counter of the frame. *)
From stdpp Require Import prelude gmap list strings.
From Stdlib Require Import ZArith Lia.
From S2P Require Import Prelude Params VarBytes RLP Crypto StateData VMWord VMAnalysis.
Local Open Scope Z_scope.

(** ** The state database *)

Inductive method : Type -> Type :=
| CreateAccount (a : address) : method unit
| SubBalance (a : address) (amount : Z) : method unit
| AddBalance (a : address) (amount : Z) : method unit
| GetBalance (a : address) : method Z
| GetNonce (a : address) : method Z
| SetNonce (a : address) (nonce : Z) : method unit
| GetCodeHash (a : address) : method hash
| GetCode (a : address) : method slice
| SetCode (a : address) (code : slice) : method unit
| GetCodeSize (a : address) : method Z
| AddRefund (gas : Z) : method unit
| SubRefund (gas : Z) : method unit
| GetRefund : method Z
| GetCommittedState (a : address) (k : hash) : method hash
| GetState (a : address) (k : hash) : method hash
| SetState (a : address) (k v : hash) : method unit
| Suicide (a : address) : method bool
| HasSuicided (a : address) : method bool
| Exist (a : address) : method bool
| Empty (a : address) : method bool
| PrepareAccessList (sender : address) (dest : option address) (precompiles : list address)
    (txAccesses : list (address * list hash)) : method unit
| AddressInAccessList (a : address) : method bool
| SlotInAccessList (a : address) (slot : hash) : method (bool * bool)
| AddAddressToAccessList (a : address) : method unit
| AddSlotToAccessList (a : address) (slot : hash) : method unit
| RevertToSnapshot (id : Z) : method unit
| Snapshot : method Z
| AddLog (log : Log) : method unit
| AddPreimage (h : hash) (preimage : bytes) : method unit.

Class Database (S : Type) := call : forall {A : Type}, method A -> M S A.

(** ** System addresses (rollup/rcfg/system_address.go) *)

Definition SystemAddress0 : address := 0x4200000000000000000000000000000000000042.
Definition SystemAddress1 : address := 0x4200000000000000000000000000000000000014.
Definition ZeroSystemAddress : address := 0.

Definition SystemAddressDeployers (chainID : Z) : option (address * address) :=
  if chainID =? 10 then
    Some (0xcDE47C1a5e2d60b9ff262b0a3b6d486048575Ad9, 0x53A6eecC2dD4795Fcc68940ddc6B4d53Bd88Bd9E)
  else if chainID =? 69 then
    Some (0xd23eb5c2dd7035e6eb4a7e129249d9843123079f, 0xa81224490b9fa4930a2e920550cd1c9106bb6d9e)
  else if (chainID =? 420) || (chainID =? 421) then
    Some (0xc30276833798867c1dbc5c468bf51ca900b44e4c, 0x5c679a57e018f5f146838138d3e032ef4913d551)
  else if (chainID =? 588) || (chainID =? 1088) then
    Some (0xcDf02971871B7736874E20B8487c019D28090019, 0x9cB01d516D930EF49591a05B09e0D33E6286689D)
  else None.

Definition deployer_SystemAddressFor (s : address * address) (addr : address) : address :=
  if s.1 =? addr then SystemAddress0 else if s.2 =? addr then SystemAddress1 else ZeroSystemAddress.

Definition SystemAddressFor (envDeployer : address * address) (chainID : Z) (addr : address) : address :=
  deployer_SystemAddressFor (default envDeployer (SystemAddressDeployers (big_uint64 chainID))) addr.

(** ** The environment of a machine *)

(** [Context]; its functions [CanTransfer] and [Transfer] are those of core/evm.go. *)
Record Context := mkContext {
  GetHash : Z -> hash;
  Origin : address; GasPrice : Z; Coinbase : address; GasLimit : Z; BlockNumber : Z; Time : Z; Difficulty : Z;
  L1BlockNumber : option Z }.

(** The part of [Config] that execution depends on; tracing is left out. *)
Record Config := mkVMConfig { NoRecursion : bool; EnablePreimageRecording : bool; ExtraEips : list Z }.

(** What does not change while a machine runs: the switch of rollup/rcfg, the
    deployers configured there, the abi encoder of error messages, the block
    context, the chain and the machine configuration. *)
Record Env := mkEnv {
  UsingOVM : bool; envSystemAddressDeployer : address * address; EncodeSolidityError : string -> goerror + bytes;
  context : Context; chainConfig : ChainConfig; vmConfig : Config }.

Definition chainRules (env : Env) : Rules := config_Rules (chainConfig env) (Some (BlockNumber (context env))).

Definition OvmWhitelistAddress : address := 0x4200000000000000000000000000000000000002.

(** ** Errors (core/vm/errors.go, instructions.go, jump_table.go) *)

Definition ErrOutOfGas := ErrVar "ErrOutOfGas" "out of gas".
Definition ErrCodeStoreOutOfGas := ErrVar "ErrCodeStoreOutOfGas" "contract creation code storage out of gas".
Definition ErrDepth := ErrVar "ErrDepth" "max call depth exceeded".
Definition ErrInsufficientBalance := ErrVar "ErrInsufficientBalance" "insufficient balance for transfer".
Definition ErrContractAddressCollision := ErrVar "ErrContractAddressCollision" "contract address collision".
Definition ErrGasUintOverflow := ErrVar "ErrGasUintOverflow" "gas uint64 overflow".
Definition errWriteProtection := ErrVar "errWriteProtection" "evm: write protection".
Definition errReturnDataOutOfBounds := ErrVar "errReturnDataOutOfBounds" "evm: return data out of bounds".
Definition errExecutionReverted := ErrVar "errExecutionReverted" "evm: execution reverted".
Definition errMaxCodeSizeExceeded := ErrVar "errMaxCodeSizeExceeded" "evm: max code size exceeded".
Definition errInvalidJump := ErrVar "errInvalidJump" "evm: invalid jump destination".
Definition errGasUintOverflow := ErrVar "errGasUintOverflow" "gas uint64 overflow".

(** ** Contracts (core/vm/contract.go) *)

(** A [ContractRef]: an account, or a running contract, of which only its address,
    its caller's address and its value are read through the reference. *)
Inductive ContractRef :=
| AccountRef (a : address)
| ContractOf (self CallerAddress : address) (value : option Z).
Definition ref_Address (r : ContractRef) : address :=
  match r with AccountRef a => a | ContractOf a _ _ => a end.

Record Contract := mkContract {
  CallerAddress : address; c_caller : ContractRef; c_self : address;
  c_analysis : option bitvec;
  Code : bytes; CodeHash : hash; CodeAddr : option address; Input : slice;
  Gas : Z; c_value : option Z }.

Definition set_Gas (v : Z) (c : Contract) : Contract :=
  mkContract (CallerAddress c) (c_caller c) (c_self c) (c_analysis c) (Code c) (CodeHash c) (CodeAddr c) (Input c) v (c_value c).
Definition set_Input (v : slice) (c : Contract) : Contract :=
  mkContract (CallerAddress c) (c_caller c) (c_self c) (c_analysis c) (Code c) (CodeHash c) (CodeAddr c) v (Gas c) (c_value c).
Definition set_analysis (v : option bitvec) (c : Contract) : Contract :=
  mkContract (CallerAddress c) (c_caller c) (c_self c) v (Code c) (CodeHash c) (CodeAddr c) (Input c) (Gas c) (c_value c).

Definition contract_ref (c : Contract) : ContractRef := ContractOf (c_self c) (CallerAddress c) (c_value c).

(** [NewContract] but for the shared map of analyses, which is part of the machine. *)
Definition NewContract (caller : ContractRef) (object : address) (value : option Z) (gas : Z) : Contract :=
  mkContract (ref_Address caller) caller object None [] 0 None None gas value.

(** [AsDelegate]: the type assertion on the caller panics for an account. *)
Definition AsDelegate (c : Contract) : outcome Contract :=
  match c_caller c with
  | ContractOf _ caller value =>
      Ok (mkContract caller (c_caller c) (c_self c) (c_analysis c) (Code c) (CodeHash c) (CodeAddr c) (Input c) (Gas c) value)
  | AccountRef _ => Panic "interface conversion: vm.ContractRef is not *vm.Contract"
  end.

Definition SetCallCode (addr : option address) (hash : hash) (code : slice) (c : Contract) : Contract :=
  mkContract (CallerAddress c) (c_caller c) (c_self c) (c_analysis c) (slice_bytes code) hash addr (Input c) (Gas c) (c_value c).

Definition GetByte (n : Z) (c : Contract) : Z :=
  if n <? Z.of_nat (length (Code c)) then b2z (nth (Z.to_nat n) (Code c) Byte.x00) else 0.
Definition GetOp (n : Z) (c : Contract) : Z := GetByte n c.

(** [UseGas]: the contract afterwards, when there was enough. *)
Definition UseGas (gas : Z) (c : Contract) : option Contract :=
  if Gas c <? gas then None else Some (set_Gas (u64 (Gas c - gas)) c).

(** ** The machine *)

Section machine.
Context {S : Type} {database : Database S}.

(** The changing part of [EVM] and its interpreter.  The map of jump destination
    analyses is shared by the contracts of one outermost call.  [evm_abort] is when
    [Cancel] takes effect, counted in rounds of the interpreter loop. *)
Record EVM := mkEVM {
  evm_db : S; evm_depth : Z; evm_readOnly : bool; evm_returnData : slice; evm_callGasTemp : Z;
  evm_jumpdests : gmap hash bitvec; evm_abort : option nat }.

Definition set_db (v : S) (e : EVM) : EVM :=
  mkEVM v (evm_depth e) (evm_readOnly e) (evm_returnData e) (evm_callGasTemp e) (evm_jumpdests e) (evm_abort e).
Definition set_depth (v : Z) (e : EVM) : EVM :=
  mkEVM (evm_db e) v (evm_readOnly e) (evm_returnData e) (evm_callGasTemp e) (evm_jumpdests e) (evm_abort e).
Definition set_readOnly (v : bool) (e : EVM) : EVM :=
  mkEVM (evm_db e) (evm_depth e) v (evm_returnData e) (evm_callGasTemp e) (evm_jumpdests e) (evm_abort e).
Definition set_returnData (v : slice) (e : EVM) : EVM :=
  mkEVM (evm_db e) (evm_depth e) (evm_readOnly e) v (evm_callGasTemp e) (evm_jumpdests e) (evm_abort e).
Definition set_callGasTemp (v : Z) (e : EVM) : EVM :=
  mkEVM (evm_db e) (evm_depth e) (evm_readOnly e) (evm_returnData e) v (evm_jumpdests e) (evm_abort e).
Definition set_jumpdests (v : gmap hash bitvec) (e : EVM) : EVM :=
  mkEVM (evm_db e) (evm_depth e) (evm_readOnly e) (evm_returnData e) (evm_callGasTemp e) v (evm_abort e).
Definition set_abort (v : option nat) (e : EVM) : EVM :=
  mkEVM (evm_db e) (evm_depth e) (evm_readOnly e) (evm_returnData e) (evm_callGasTemp e) (evm_jumpdests e) v.

Record scope := mkScope { sc_evm : EVM; sc_contract : Contract; sc_memory : Memory; sc_stack : list Z; sc_pc : Z }.

Definition set_evm (v : EVM) (s : scope) : scope := mkScope v (sc_contract s) (sc_memory s) (sc_stack s) (sc_pc s).
Definition set_contract (v : Contract) (s : scope) : scope := mkScope (sc_evm s) v (sc_memory s) (sc_stack s) (sc_pc s).
Definition set_memory (v : Memory) (s : scope) : scope := mkScope (sc_evm s) (sc_contract s) v (sc_stack s) (sc_pc s).
Definition set_stack (v : list Z) (s : scope) : scope := mkScope (sc_evm s) (sc_contract s) (sc_memory s) v (sc_pc s).
Definition set_pc (v : Z) (s : scope) : scope := mkScope (sc_evm s) (sc_contract s) (sc_memory s) (sc_stack s) v.

(** A method of the database called by the machine, and by an instruction. *)
Definition on_db {A} (m : M S A) : M EVM A := fun e => let '(o, d) := m (evm_db e) in (o, set_db d e).
Definition db {A} (c : method A) : M EVM A := on_db (call c).
Definition on_evm {A} (m : M EVM A) : M scope A := fun s => let '(o, e) := m (sc_evm s) in (o, set_evm e s).
Definition sdb {A} (c : method A) : M scope A := on_evm (db c).

(** The stack as an instruction uses it; assigning to a peeked item is [poke]. *)
Definition pop : M scope Z :=
  st ← gets sc_stack; '(x, rest) ← lift_out (stack_pop st); modS (set_stack rest) ;; ret x.
Definition push (x : Z) : M scope unit := modS (fun s => set_stack (stack_push x (sc_stack s)) s).
Definition back (n : nat) : M scope Z := st ← gets sc_stack; lift_out (stack_Back n st).
Definition peek : M scope Z := back 0.
Definition poke (x : Z) : M scope unit := pop ;; push x.

(** [contract.UseGas]: whether there was enough. *)
Definition use_gas (gas : Z) : M scope bool :=
  c ← gets sc_contract;
  match UseGas gas c with
  | Some c => modS (set_contract c) ;; ret true
  | None => ret false
  end.
Definition self : M scope address := gets (fun s => c_self (sc_contract s)).

(** ** Jump destinations *)

Definition JUMPDEST : Z := 0x5b.

Definition validJumpdest (dest : Z) : M scope bool :=
  c ← gets sc_contract;
  let udest := big_uint64 dest in
  if (63 <=? BitLen dest) || (Z.of_nat (length (Code c)) <=? udest) then ret false
  else if negb (b2z (nth (Z.to_nat udest) (Code c) Byte.x00) =? JUMPDEST) then ret false
  else if negb (CodeHash c =? 0) then
    jumpdests ← gets (fun s => evm_jumpdests (sc_evm s));
    match jumpdests !! CodeHash c with
    | Some analysis => lift_out (codeSegment udest analysis)
    | None =>
        analysis ← lift_out (codeBitmap (Code c));
        modS (fun s => set_evm (set_jumpdests (<[CodeHash c := analysis]> jumpdests) (sc_evm s)) s) ;;
        lift_out (codeSegment udest analysis)
    end
  else
    match c_analysis c with
    | Some analysis => lift_out (codeSegment udest analysis)
    | None =>
        analysis ← lift_out (codeBitmap (Code c));
        modS (set_contract (set_analysis (Some analysis) c)) ;;
        lift_out (codeSegment udest analysis)
    end.
End machine.

Arguments EVM : clear implicits.
Arguments scope : clear implicits.
