(* ===== verification/VMGas.v ===== *)
(** Gas of the instructions (core/vm/gas.go, gas_table.go, memory_table.go,
    operations_acl.go, operations_acl_optimism.go, params/protocol_params.go).

    A gas function sees the whole frame: it may read the database, extend the access
    list, add refunds, note the memory fee and the gas passed on by a call.  Gas is
    an unsigned 64-bit integer. *)
From stdpp Require Import prelude gmap list strings.
From Stdlib Require Import ZArith Lia.
From S2P Require Import Prelude Params VarBytes RLP Crypto StateData VMWord VMAnalysis VMState.
Local Open Scope Z_scope.

(** ** Prices *)

Abbreviation GasQuickStep := 2 (only parsing).
Abbreviation GasFastestStep := 3 (only parsing).
Abbreviation GasFastStep := 5 (only parsing).
Abbreviation GasMidStep := 8 (only parsing).
Abbreviation GasSlowStep := 10 (only parsing).
Abbreviation GasExtStep := 20 (only parsing).
Abbreviation CallValueTransferGas := 9000 (only parsing).
Abbreviation CallNewAccountGas := 25000 (only parsing).
Abbreviation QuadCoeffDiv := 512 (only parsing).
Abbreviation LogDataGas := 8 (only parsing).
Abbreviation CallStipend := 2300 (only parsing).
Abbreviation Sha3Gas := 30 (only parsing).
Abbreviation Sha3WordGas := 6 (only parsing).
Abbreviation SstoreSetGas := 20000 (only parsing).
Abbreviation SstoreResetGas := 5000 (only parsing).
Abbreviation SstoreClearGas := 5000 (only parsing).
Abbreviation SstoreRefundGas := 15000 (only parsing).
Abbreviation NetSstoreNoopGas := 200 (only parsing).
Abbreviation NetSstoreInitGas := 20000 (only parsing).
Abbreviation NetSstoreCleanGas := 5000 (only parsing).
Abbreviation NetSstoreDirtyGas := 200 (only parsing).
Abbreviation NetSstoreClearRefund := 15000 (only parsing).
Abbreviation NetSstoreResetRefund := 4800 (only parsing).
Abbreviation NetSstoreResetClearRefund := 19800 (only parsing).
Abbreviation SstoreSentryGasEIP2200 := 2300 (only parsing).
Abbreviation SstoreSetGasEIP2200 := 20000 (only parsing).
Abbreviation SstoreResetGasEIP2200 := 5000 (only parsing).
Abbreviation SstoreClearsScheduleRefundEIP2200 := 15000 (only parsing).
Abbreviation SstoreNoopGasEIP2200 := 800 (only parsing).
Abbreviation SstoreDirtyGasEIP2200 := 800 (only parsing).
Abbreviation SstoreInitGasEIP2200 := 20000 (only parsing).
Abbreviation SstoreInitRefundEIP2200 := 19200 (only parsing).
Abbreviation SstoreCleanGasEIP2200 := 5000 (only parsing).
Abbreviation SstoreCleanRefundEIP2200 := 4200 (only parsing).
Abbreviation SstoreClearRefundEIP2200 := 15000 (only parsing).
Abbreviation ColdAccountAccessCostEIP2929 := 2600 (only parsing).
Abbreviation ColdSloadCostEIP2929 := 2100 (only parsing).
Abbreviation WarmStorageReadCostEIP2929 := 100 (only parsing).
Abbreviation TxAccessListStorageKeyGas := 1900 (only parsing).
Abbreviation SstoreClearsScheduleRefundEIP3529 :=
  (SstoreResetGasEIP2200 - ColdSloadCostEIP2929 + TxAccessListStorageKeyGas) (only parsing).
Abbreviation ExpGas := 10 (only parsing).
Abbreviation LogGas := 375 (only parsing).
Abbreviation CopyGas := 3 (only parsing).
Abbreviation LogTopicGas := 375 (only parsing).
Abbreviation SelfdestructRefundGas := 24000 (only parsing).
Abbreviation MemoryGas := 3 (only parsing).
Abbreviation SelfdestructGasEIP150 := 5000 (only parsing).
Abbreviation ExpByteFrontier := 10 (only parsing).
Abbreviation ExpByteEIP158 := 50 (only parsing).
Abbreviation CreateBySelfdestructGas := 25000 (only parsing).

(** ** core/vm/gas.go *)

Definition callGas (isEip150 : bool) (availableGas base callCost : Z) : goerror + Z :=
  let rest := if IsUint64 callCost then inr (big_uint64 callCost) else inl errGasUintOverflow in
  if isEip150 then
    let availableGas := u64 (availableGas - base) in
    let gas := u64 (availableGas - availableGas / 64) in
    if negb (IsUint64 callCost) || (gas <? big_uint64 callCost) then inr gas else rest
  else rest.

(** ** core/vm/memory_table.go *)

Abbreviation memorySizeFunc := (list Z -> outcome (Z * bool)) (only parsing).

(** The size for the region whose offset and length are the given stack items. *)
Definition memoryRegion (off l : nat) : memorySizeFunc := fun st =>
  (o ← stack_Back off st; n ← stack_Back l st; Ok (calcMemSize64 o n))%stdpp.
Definition memoryFixed (off : nat) (l : Z) : memorySizeFunc := fun st =>
  (o ← stack_Back off st; Ok (calcMemSize64WithUint o l))%stdpp.

Definition memorySha3 := memoryRegion 0 1.
Definition memoryCallDataCopy := memoryRegion 0 2.
Definition memoryReturnDataCopy := memoryRegion 0 2.
Definition memoryCodeCopy := memoryRegion 0 2.
Definition memoryExtCodeCopy := memoryRegion 1 3.
Definition memoryMLoad := memoryFixed 0 32.
Definition memoryMStore8 := memoryFixed 0 1.
Definition memoryMStore := memoryFixed 0 32.
Definition memoryCreate := memoryRegion 1 2.
Definition memoryCreate2 := memoryRegion 1 2.
(** The larger of the output and the input region of a call. *)
Definition memoryCallRegions (outOff outLen inOff inLen : nat) : memorySizeFunc := fun st =>
  ('(x, overflow) ← memoryRegion outOff outLen st;
   if overflow : bool then Ok (0, true) else
   '(y, overflow) ← memoryRegion inOff inLen st;
   if overflow : bool then Ok (0, true) else Ok (if y <? x then x else y, false))%stdpp.
Definition memoryCall := memoryCallRegions 5 6 3 4.
Definition memoryDelegateCall := memoryCallRegions 4 5 2 3.
Definition memoryStaticCall := memoryCallRegions 4 5 2 3.
Definition memoryReturn := memoryRegion 0 1.
Definition memoryRevert := memoryRegion 0 1.
Definition memoryLog := memoryRegion 0 1.

Section gas.
Context {S : Type} {database : Database S} (env : Env).
Local Abbreviation scope := (scope S).
Local Abbreviation gasFunc := (Z -> M scope Z) (only parsing).
Local Abbreviation rules := (chainRules env).

(** [if x, overflow = f(..); overflow { return 0, errGasUintOverflow }] *)
Definition checked (r : Z * bool) : M scope Z := if r.2 then throw errGasUintOverflow else ret r.1.

(** ** core/vm/gas_table.go *)

Definition memoryGasCost : gasFunc := fun newMemSize =>
  if newMemSize =? 0 then ret 0
  else if 0x1FFFFFFFE0 <? newMemSize then throw errGasUintOverflow
  else
    let newMemSizeWords := toWordSize newMemSize in
    let newMemSize := u64 (newMemSizeWords * 32) in
    mem ← gets sc_memory;
    if mem_Len mem <? newMemSize then
      let square := u64 (newMemSizeWords * newMemSizeWords) in
      let linCoef := u64 (newMemSizeWords * MemoryGas) in
      let quadCoef := square / QuadCoeffDiv in
      let newTotalFee := u64 (linCoef + quadCoef) in
      let fee := u64 (newTotalFee - mem_lastGasCost mem) in
      modS (set_memory (set_mem_lastGasCost newTotalFee mem)) ;;
      ret fee
    else ret 0.

(** Memory plus a price for each word of the size in a stack item. *)
Definition memoryWordGas (stackpos : nat) (price : Z) : gasFunc := fun memorySize =>
  gas ← memoryGasCost memorySize;
  size ← back stackpos;
  words ← checked (bigUint64 size);
  words ← checked (SafeMul (toWordSize words) price);
  checked (SafeAdd gas words).

Definition memoryCopierGas (stackpos : nat) : gasFunc := memoryWordGas stackpos CopyGas.
Definition gasCallDataCopy := memoryCopierGas 2.
Definition gasCodeCopy := memoryCopierGas 2.
Definition gasExtCodeCopy := memoryCopierGas 3.
Definition gasReturnDataCopy := memoryCopierGas 2.

(** [UsingOVM && IsRFDUpdate(BlockNumber) && OvmEthAddress == contract.Address()] *)
Definition isOvmRefund : M scope bool :=
  if UsingOVM env then
    b ← lift_out (IsRFDUpdate (chainConfig env) (Some (BlockNumber (context env))));
    a ← self; ret (b && (OvmEthAddress =? a))
  else ret false.

Definition gasSStore : gasFunc := fun _ =>
  y ← back 1; x ← back 0; a ← self;
  current ← sdb (GetState a (BigToHash x));
  ovm ← isOvmRefund;
  if r_IsPetersburg rules || negb (r_IsConstantinople rules) then
    if (current =? 0) && negb (y =? 0) then ret SstoreSetGas
    else if negb (current =? 0) && (y =? 0) then
      when (negb ovm) (sdb (AddRefund SstoreRefundGas)) ;; ret SstoreClearGas
    else ret SstoreResetGas
  else
    let value := BigToHash y in
    if current =? value then ret NetSstoreNoopGas else
    original ← sdb (GetCommittedState a (BigToHash x));
    if original =? current then
      if original =? 0 then ret NetSstoreInitGas else
      when ((value =? 0) && negb ovm) (sdb (AddRefund NetSstoreClearRefund)) ;;
      ret NetSstoreCleanGas
    else
      when (negb (original =? 0) && negb ovm)
        (if current =? 0 then sdb (SubRefund NetSstoreClearRefund)
         else when (value =? 0) (sdb (AddRefund NetSstoreClearRefund))) ;;
      when ((original =? value) && negb ovm)
        (if original =? 0 then sdb (AddRefund NetSstoreResetClearRefund)
         else sdb (AddRefund NetSstoreResetRefund)) ;;
      ret NetSstoreDirtyGas.

Definition gasSStoreEIP2200 : gasFunc := fun _ =>
  c ← gets sc_contract;
  if Gas c <=? SstoreSentryGasEIP2200 then throw (ErrNew "not enough gas for reentrancy sentry") else
  y ← back 1; x ← back 0; a ← self;
  current ← sdb (GetState a (BigToHash x));
  let value := BigToHash y in
  ovm ← isOvmRefund;
  if current =? value then ret SstoreNoopGasEIP2200 else
  original ← sdb (GetCommittedState a (BigToHash x));
  if original =? current then
    if original =? 0 then ret SstoreInitGasEIP2200 else
    when ((value =? 0) && negb ovm) (sdb (AddRefund SstoreClearRefundEIP2200)) ;;
    ret SstoreCleanGasEIP2200
  else
    when (negb (original =? 0) && negb ovm)
      (if current =? 0 then sdb (SubRefund SstoreClearRefundEIP2200)
       else when (value =? 0) (sdb (AddRefund SstoreClearRefundEIP2200))) ;;
    when ((original =? value) && negb ovm)
      (if original =? 0 then sdb (AddRefund SstoreInitRefundEIP2200)
       else sdb (AddRefund SstoreCleanRefundEIP2200)) ;;
    ret SstoreDirtyGasEIP2200.

Definition makeGasLog (n : Z) : gasFunc := fun memorySize =>
  size ← back 1;
  requestedSize ← checked (bigUint64 size);
  gas ← memoryGasCost memorySize;
  gas ← checked (SafeAdd gas LogGas);
  gas ← checked (SafeAdd gas (n * LogTopicGas));
  memorySizeGas ← checked (SafeMul requestedSize LogDataGas);
  checked (SafeAdd gas memorySizeGas).

Definition gasSha3 : gasFunc := memoryWordGas 1 Sha3WordGas.
Definition pureMemoryGascost : gasFunc := memoryGasCost.
Definition gasCreate2 : gasFunc := memoryWordGas 2 Sha3WordGas.

Definition gasExp (byteGas : Z) : gasFunc := fun _ =>
  exponent ← back 1;
  let expByteLen := (BitLen exponent + 7) / 8 in
  checked (SafeAdd (u64 (expByteLen * byteGas)) ExpGas).
Definition gasExpFrontier := gasExp ExpByteFrontier.
Definition gasExpEIP158 := gasExp ExpByteEIP158.

(** The end of the four call functions: the gas passed on is noted and charged. *)
Definition passCallGas (gas : Z) : M scope Z :=
  c ← gets sc_contract;
  callCost ← back 0;
  match callGas (r_IsEIP150 rules) (Gas c) gas callCost with
  | inl err =>
      modS (fun s => set_evm (set_callGasTemp 0 (sc_evm s)) s) ;; throw err
  | inr temp =>
      modS (fun s => set_evm (set_callGasTemp temp (sc_evm s)) s) ;;
      checked (SafeAdd gas temp)
  end.

Definition gasCall : gasFunc := fun memorySize =>
  value ← back 2;
  let transfersValue := negb (value =? 0) in
  to ← back 1;
  let address := BigToAddress to in
  newAccount ←
    (if r_IsEIP158 rules then
       if transfersValue then sdb (Empty address) else ret false
     else exist ← sdb (Exist address); ret (negb exist));
  let gas := (if newAccount : bool then CallNewAccountGas else 0) + (if transfersValue then CallValueTransferGas else 0) in
  memoryGas ← memoryGasCost memorySize;
  gas ← checked (SafeAdd gas memoryGas);
  passCallGas gas.

Definition gasCallCode : gasFunc := fun memorySize =>
  memoryGas ← memoryGasCost memorySize;
  value ← back 2;
  gas ← checked (SafeAdd (if negb (value =? 0) then CallValueTransferGas else 0) memoryGas);
  passCallGas gas.

Definition gasDelegateCall : gasFunc := fun memorySize => gas ← memoryGasCost memorySize; passCallGas gas.
Definition gasStaticCall : gasFunc := fun memorySize => gas ← memoryGasCost memorySize; passCallGas gas.

Definition gasSelfdestruct : gasFunc := fun _ =>
  a ← self;
  gas ←
    (if r_IsEIP150 rules then
       to ← back 0;
       let address := BigToAddress to in
       if r_IsEIP158 rules then
         empty ← sdb (Empty address);
         if empty : bool then
           balance ← sdb (GetBalance a);
           ret (if negb (balance =? 0) then SelfdestructGasEIP150 + CreateBySelfdestructGas else SelfdestructGasEIP150)
         else ret SelfdestructGasEIP150
       else
         exist ← sdb (Exist address);
         ret (if exist : bool then SelfdestructGasEIP150 else SelfdestructGasEIP150 + CreateBySelfdestructGas)
     else ret 0);
  suicided ← sdb (HasSuicided a);
  when (negb suicided) (sdb (AddRefund SelfdestructRefundGas)) ;;
  ret gas.

(** ** core/vm/operations_acl.go *)

Definition makeGasSStoreFunc (clearingRefund : Z) : gasFunc := fun _ =>
  c ← gets sc_contract;
  if Gas c <=? SstoreSentryGasEIP2200 then throw (ErrNew "not enough gas for reentrancy sentry") else
  y ← back 1; x ← peek; a ← self;
  let slot := BigToHash x in
  current ← sdb (GetState a slot);
  '(addrPresent, slotPresent) ← sdb (SlotInAccessList a slot);
  cost ←
    (if slotPresent : bool then ret 0 else
     sdb (AddSlotToAccessList a slot) ;;
     if addrPresent : bool then ret ColdSloadCostEIP2929
     else gopanic "impossible case: address was not present in access list during sstore op");
  let value := BigToHash y in
  if current =? value then ret (u64 (cost + WarmStorageReadCostEIP2929)) else
  ovm ← isOvmRefund;
  original ← sdb (GetCommittedState a slot);
  if original =? current then
    if original =? 0 then ret (u64 (cost + SstoreSetGasEIP2200)) else
    when ((value =? 0) && negb ovm) (sdb (AddRefund clearingRefund)) ;;
    ret (u64 (cost + (SstoreResetGasEIP2200 - ColdSloadCostEIP2929)))
  else
    when (negb (original =? 0) && negb ovm)
      (if current =? 0 then sdb (SubRefund clearingRefund)
       else when (value =? 0) (sdb (AddRefund clearingRefund))) ;;
    when ((original =? value) && negb ovm)
      (if original =? 0 then sdb (AddRefund (SstoreSetGasEIP2200 - WarmStorageReadCostEIP2929))
       else sdb (AddRefund ((SstoreResetGasEIP2200 - ColdSloadCostEIP2929) - WarmStorageReadCostEIP2929))) ;;
    ret (u64 (cost + WarmStorageReadCostEIP2929)).

Definition gasSLoadEIP2929 : gasFunc := fun _ =>
  loc ← peek; a ← self;
  let slot := BigToHash loc in
  '(_, slotPresent) ← sdb (SlotInAccessList a slot);
  if slotPresent : bool then ret WarmStorageReadCostEIP2929
  else sdb (AddSlotToAccessList a slot) ;; ret ColdSloadCostEIP2929.

Definition gasExtCodeCopyEIP2929 : gasFunc := fun memorySize =>
  gas ← gasExtCodeCopy memorySize;
  top ← peek;
  let addr := BigToAddress top in
  warm ← sdb (AddressInAccessList addr);
  if warm : bool then ret gas else
  sdb (AddAddressToAccessList addr) ;;
  let '(gas, overflow) := SafeAdd gas (ColdAccountAccessCostEIP2929 - WarmStorageReadCostEIP2929) in
  if overflow : bool then throw ErrGasUintOverflow else ret gas.

Definition gasEip2929AccountCheck : gasFunc := fun _ =>
  top ← peek;
  let addr := BigToAddress top in
  warm ← sdb (AddressInAccessList addr);
  if warm : bool then ret 0 else
  sdb (AddAddressToAccessList addr) ;;
  ret (ColdAccountAccessCostEIP2929 - WarmStorageReadCostEIP2929).

(** The cold charge is taken before the old calculator runs, then given back and
    returned with its result. *)
Definition chargeCold (coldCost : Z) (oldCalculator : gasFunc) : gasFunc := fun memorySize =>
  paid ← use_gas coldCost;
  if negb paid then throw ErrOutOfGas else
  gas ← oldCalculator memorySize;
  modS (fun s => set_contract (set_Gas (u64 (Gas (sc_contract s) + coldCost)) (sc_contract s)) s) ;;
  ret (u64 (gas + coldCost)).

Definition makeCallVariantGasCallEIP2929 (oldCalculator : gasFunc) : gasFunc := fun memorySize =>
  to ← back 1;
  let addr := BigToAddress to in
  warmAccess ← sdb (AddressInAccessList addr);
  if warmAccess : bool then oldCalculator memorySize else
  sdb (AddAddressToAccessList addr) ;;
  chargeCold (ColdAccountAccessCostEIP2929 - WarmStorageReadCostEIP2929) oldCalculator memorySize.

Definition gasCallEIP2929 := makeCallVariantGasCallEIP2929 gasCall.
Definition gasDelegateCallEIP2929 := makeCallVariantGasCallEIP2929 gasDelegateCall.
Definition gasStaticCallEIP2929 := makeCallVariantGasCallEIP2929 gasStaticCall.
Definition gasCallCodeEIP2929 := makeCallVariantGasCallEIP2929 gasCallCode.
Definition gasSStoreEIP2929 := makeGasSStoreFunc SstoreClearsScheduleRefundEIP2200.
Definition gasSStoreEIP3529 := makeGasSStoreFunc SstoreClearsScheduleRefundEIP3529.

(** The second half of the self-destruct functions. *)
Definition selfdestructGas (refundsEnabled : bool) (address : address) (gas : Z) : M scope Z :=
  a ← self;
  empty ← sdb (Empty address);
  gas ←
    (if empty : bool then
       balance ← sdb (GetBalance a);
       ret (if negb (balance =? 0) then u64 (gas + CreateBySelfdestructGas) else gas)
     else ret gas);
  (if refundsEnabled then
     suicided ← sdb (HasSuicided a);
     when (negb suicided) (sdb (AddRefund SelfdestructRefundGas))
   else ret tt) ;;
  ret gas.

Definition makeSelfdestructGasFn (refundsEnabled : bool) : gasFunc := fun _ =>
  top ← peek;
  let address := BigToAddress top in
  warm ← sdb (AddressInAccessList address);
  gas ← (if warm : bool then ret 0
         else sdb (AddAddressToAccessList address) ;; ret ColdAccountAccessCostEIP2929);
  selfdestructGas refundsEnabled address gas.
Definition gasSelfdestructEIP2929 := makeSelfdestructGasFn true.
Definition gasSelfdestructEIP3529 := makeSelfdestructGasFn false.

(** ** core/vm/operations_acl_optimism.go *)

Definition gasSLoadEIP2929Optimism : gasFunc := fun _ => ret ColdSloadCostEIP2929.

Definition gasExtCodeCopyEIP2929Optimism : gasFunc := fun memorySize =>
  gas ← gasExtCodeCopy memorySize;
  let '(gas, overflow) := SafeAdd gas (ColdAccountAccessCostEIP2929 - WarmStorageReadCostEIP2929) in
  if overflow : bool then throw (ErrNew "gas uint64 overflow") else ret gas.

Definition gasEip2929AccountCheckOptimism : gasFunc := fun _ =>
  ret (ColdAccountAccessCostEIP2929 - WarmStorageReadCostEIP2929).

Definition makeCallVariantGasCallEIP2929Optimism (oldCalculator : gasFunc) : gasFunc :=
  chargeCold (ColdAccountAccessCostEIP2929 - WarmStorageReadCostEIP2929) oldCalculator.
Definition gasCallEIP2929Optimism := makeCallVariantGasCallEIP2929Optimism gasCall.
Definition gasDelegateCallEIP2929Optimism := makeCallVariantGasCallEIP2929Optimism gasDelegateCall.
Definition gasStaticCallEIP2929Optimism := makeCallVariantGasCallEIP2929Optimism gasStaticCall.
Definition gasCallCodeEIP2929Optimism := makeCallVariantGasCallEIP2929Optimism gasCallCode.

Definition makeSelfdestructGasFnOptimism (refundsEnabled : bool) : gasFunc := fun _ =>
  top ← peek;
  selfdestructGas refundsEnabled (BigToAddress top) ColdAccountAccessCostEIP2929.
Definition gasSelfdestructEIP2929Optimism := makeSelfdestructGasFnOptimism true.
End gas.
