(* ===== verification/VMPrecompiles.v ===== *)
(** Precompiled contracts (core/vm/contracts.go).

    The hash functions and the elliptic curve are the class [Natives]: SHA-256 and
    RIPEMD-160 of the Go libraries, the curve bn256 and the compression function of
    BLAKE2b, with the lengths of what they return.  What is charged and how the input is read is modelled. *)
From stdpp Require Import prelude gmap list strings.
From Stdlib Require Import ZArith Lia.
From S2P Require Import Prelude Params VarBytes RLP Crypto VMWord VMAnalysis VMState.
Local Open Scope Z_scope.

Class Natives {crypto : Crypto} := {
  RecoverPubkey_length : forall m s p, length s = 65%nat -> RecoverPubkey m s = Ok p -> length p = 65%nat;
  sha256_Sum256 : bytes -> bytes;
  sha256_length : forall b, length (sha256_Sum256 b) = 32%nat;
  ripemd160_Sum : bytes -> bytes;
  ripemd160_length : forall b, length (ripemd160_Sum b) = 20%nat;
  bn256_G1 : Type;
  bn256_G2 : Type;
  G1_Unmarshal : bytes -> goerror + bn256_G1;
  G2_Unmarshal : bytes -> goerror + bn256_G2;
  G1_Marshal : bn256_G1 -> bytes;
  G1_Marshal_length : forall p, length (G1_Marshal p) = 64%nat;
  G1_Add : bn256_G1 -> bn256_G1 -> bn256_G1;
  G1_ScalarMult : bn256_G1 -> Z -> bn256_G1;
  bn256_PairingCheck : list bn256_G1 -> list bn256_G2 -> bool;
  blake2b_F : list Z -> list Z -> Z * Z -> bool -> Z -> list Z;
  blake2b_F_length : forall h m t f r, length (blake2b_F h m t f r) = length h }.

Inductive precompile :=
| ecrecover | sha256hash | ripemd160hash | dataCopy | bigModExp (eip2565 : bool)
| bn256AddIstanbul | bn256AddByzantium | bn256ScalarMulIstanbul | bn256ScalarMulByzantium
| bn256PairingIstanbul | bn256PairingByzantium | blake2F.

(** ** Which addresses are precompiled *)

Definition PrecompiledContractsHomestead (a : address) : option precompile :=
  if a =? 1 then Some ecrecover else if a =? 2 then Some sha256hash
  else if a =? 3 then Some ripemd160hash else if a =? 4 then Some dataCopy else None.

Definition PrecompiledContractsByzantium (a : address) : option precompile :=
  if a =? 5 then Some (bigModExp false) else if a =? 6 then Some bn256AddByzantium
  else if a =? 7 then Some bn256ScalarMulByzantium else if a =? 8 then Some bn256PairingByzantium
  else PrecompiledContractsHomestead a.

Definition PrecompiledContractsIstanbul (a : address) : option precompile :=
  if a =? 5 then Some (bigModExp false) else if a =? 6 then Some bn256AddIstanbul
  else if a =? 7 then Some bn256ScalarMulIstanbul else if a =? 8 then Some bn256PairingIstanbul
  else if a =? 9 then Some blake2F else PrecompiledContractsHomestead a.

Definition PrecompiledContractsBerlin (a : address) : option precompile :=
  if a =? 5 then Some (bigModExp true) else PrecompiledContractsIstanbul a.

(** The choice made by [run] and [Call]. *)
Definition precompiles (rules : Rules) : address -> option precompile :=
  if r_IsBerlin rules then PrecompiledContractsBerlin
  else if r_IsIstanbul rules then PrecompiledContractsIstanbul
  else if r_IsByzantium rules then PrecompiledContractsByzantium
  else PrecompiledContractsHomestead.

Definition ActivePrecompiles (rules : Rules) : list address :=
  if r_IsBerlin rules then [1; 2; 3; 4; 5; 6; 7; 8; 9]
  else if r_IsIstanbul rules then [1; 2; 3; 4; 5; 6; 7; 8; 9]
  else if r_IsByzantium rules then [1; 2; 3; 4; 5; 6; 7; 8]
  else [1; 2; 3; 4].

(** ** Gas *)

(** [uint64(len(input)+31)/32*perWord + base] *)
Definition perWordGas (perWord base : Z) (input : bytes) : Z :=
  u64 (u64 (u64 (Z.of_nat (length input) + 31) / 32 * perWord) + base).

Definition modexpMultComplexity (x : Z) : Z :=
  if x <=? 64 then x * x
  else if x <=? 1024 then x * x / 4 + (96 * x - 3072)
  else x * x / 16 + (480 * x - 199680).

Definition bytes_int (b : outcome bytes) : outcome Z := be_value <$> b.

Definition modexp_RequiredGas (eip2565 : bool) (input : bytes) : outcome Z :=
  (baseLen ← bytes_int (getData input 0 32);
   expLen ← bytes_int (getData input 32 32);
   modLen ← bytes_int (getData input 64 32);
   let input := drop 96 input in
   expHead ← (if Z.of_nat (length input) <=? baseLen then Ok 0
              else if 32 <? expLen then bytes_int (getData input (big_uint64 baseLen) 32)
              else bytes_int (getData input (big_uint64 baseLen) (big_uint64 expLen)));
   let msb := if 0 <? BitLen expHead then BitLen expHead - 1 else 0 in
   let adjExpLen := (if 32 <? expLen then 8 * (expLen - 32) else 0) + msb in
   let gas := Z.max modLen baseLen in
   if eip2565 then
     let gas := (gas + 7) / 8 in
     let gas := gas * gas * Z.max adjExpLen 1 / 3 in
     Ok (if 64 <? BitLen gas then MaxUint64 else if big_uint64 gas <? 200 then 200 else big_uint64 gas)
   else
     let gas := modexpMultComplexity gas * Z.max adjExpLen 1 / 20 in
     Ok (if 64 <? BitLen gas then MaxUint64 else big_uint64 gas))%stdpp.

(** [uint64(len(input)/192)*perPoint + base] *)
Definition pairingGas (perPoint base : Z) (input : bytes) : Z :=
  u64 (base + u64 (Z.of_nat (length input) / 192 * perPoint)).

Definition RequiredGas (p : precompile) (input : bytes) : outcome Z :=
  match p with
  | ecrecover => Ok 3000
  | sha256hash => Ok (perWordGas 12 60 input)
  | ripemd160hash => Ok (perWordGas 120 600 input)
  | dataCopy => Ok (perWordGas 3 15 input)
  | bigModExp eip2565 => modexp_RequiredGas eip2565 input
  | bn256AddIstanbul => Ok 150
  | bn256AddByzantium => Ok 500
  | bn256ScalarMulIstanbul => Ok 6000
  | bn256ScalarMulByzantium => Ok 40000
  | bn256PairingIstanbul => Ok (pairingGas 34000 45000 input)
  | bn256PairingByzantium => Ok (pairingGas 80000 100000 input)
  | blake2F => Ok (if negb (length input =? 213)%nat then 0 else be_value (take 4 input))
  end.

(** ** Execution *)

Definition errBadPairingInput := ErrVar "errBadPairingInput" "bad elliptic curve pairing size".
Definition errBlake2FInvalidInputLength := ErrVar "errBlake2FInvalidInputLength" "invalid input length".
Definition errBlake2FInvalidFinalFlag := ErrVar "errBlake2FInvalidFinalFlag" "invalid final flag".

Section run.
Context {crypto : Crypto} {natives : Natives}.

Definition ecrecover_Run (input : bytes) : outcome slice :=
  let input := RightPadBytes input 128 in
  let r := be_value (take 32 (drop 64 input)) in
  let s := be_value (take 32 (drop 96 input)) in
  let v := u8 (b2z (nth 63 input Byte.x00) - 27) in
  if negb (allZero (take 31 (drop 32 input))) || negb (ValidateSignatureValues v r s false) then Ok None
  else
    let sig := take 64 (drop 64 input) ++ [z2b v] in
    match Ecrecover (take 32 input) sig with
    | Ok pubKey =>
        (rest ← subslice pubKey 1 (Z.of_nat (length pubKey));
         Ok (Some (LeftPadBytes (drop 12 (keccak256 rest)) 32)))%stdpp
    | Err _ => Ok None
    | Panic w => Panic w
    | Blocked => Blocked
    end.

(** [base.Exp(base, exp, mod)] by squaring, for a positive modulus. *)
Fixpoint modpow (base : Z) (e : positive) (m : Z) : Z :=
  match e with
  | xH => base mod m
  | xO e' => let r := modpow base e' m in (r * r) mod m
  | xI e' => let r := modpow base e' m in (r * r * base) mod m
  end.
Definition big_Exp (base exp m : Z) : Z :=
  match exp with Zpos e => modpow base e m | _ => 1 mod m end.

Definition modexp_Run (input : bytes) : outcome slice :=
  (baseLen ← bytes_int (getData input 0 32);
   expLen ← bytes_int (getData input 32 32);
   modLen ← bytes_int (getData input 64 32);
   let baseLen := big_uint64 baseLen in
   let expLen := big_uint64 expLen in
   let modLen := big_uint64 modLen in
   let input := drop 96 input in
   if (baseLen =? 0) && (modLen =? 0) then Ok (Some []) else
   base ← bytes_int (getData input 0 baseLen);
   exp ← bytes_int (getData input baseLen expLen);
   m ← bytes_int (getData input (u64 (baseLen + expLen)) modLen);
   if BitLen m =? 0 then Ok (Some (LeftPadBytes [] (i64 modLen)))
   else Ok (Some (LeftPadBytes (big_bytes (big_Exp base exp m)) (i64 modLen))))%stdpp.

Definition lift_sum {A} (x : goerror + A) : outcome A := match x with inl e => Err e | inr a => Ok a end.
Definition newCurvePoint (blob : bytes) : outcome bn256_G1 := lift_sum (G1_Unmarshal blob).
Definition newTwistPoint (blob : bytes) : outcome bn256_G2 := lift_sum (G2_Unmarshal blob).

Definition runBn256Add (input : bytes) : outcome slice :=
  (b ← getData input 0 64; x ← newCurvePoint b;
   b ← getData input 64 64; y ← newCurvePoint b;
   Ok (Some (G1_Marshal (G1_Add x y))))%stdpp.

Definition runBn256ScalarMul (input : bytes) : outcome slice :=
  (b ← getData input 0 64; p ← newCurvePoint b;
   k ← bytes_int (getData input 64 32);
   Ok (Some (G1_Marshal (G1_ScalarMult p k))))%stdpp.

(** The loop over the chunks of 192 bytes. *)
Fixpoint pairing_points (n : nat) (input : bytes) : outcome (list bn256_G1 * list bn256_G2) :=
  match n with
  | O => Ok ([], [])
  | Datatypes.S n' =>
      (c ← newCurvePoint (take 64 input);
       t ← newTwistPoint (take 128 (drop 64 input));
       '(cs, ts) ← pairing_points n' (drop 192 input);
       Ok (c :: cs, t :: ts))%stdpp
  end.

Definition true32Byte : bytes := hash_bytes 1.
Definition false32Byte : bytes := hash_bytes 0.

Definition runBn256Pairing (input : bytes) : outcome slice :=
  if (0 <? length input mod 192)%nat then Err errBadPairingInput
  else ('(cs, ts) ← pairing_points (length input / 192) input;
        Ok (Some (if bn256_PairingCheck cs ts then true32Byte else false32Byte)))%stdpp.

(** The little-endian words of the input from [offset]. *)
Definition le_words (n : nat) (offset : nat) (input : bytes) : list Z :=
  (fun i => get_le (take 8 (drop (offset + i * 8) input))) <$> seq 0 n.

Definition blake2F_Run (input : bytes) : outcome slice :=
  if negb (length input =? 213)%nat then Err errBlake2FInvalidInputLength else
  let flag := b2z (nth 212 input Byte.x00) in
  if negb (flag =? 0) && negb (flag =? 1) then Err errBlake2FInvalidFinalFlag else
  let rounds := be_value (take 4 input) in
  let h := le_words 8 4 input in
  let m := le_words 16 68 input in
  let t := (get_le (take 8 (drop 196 input)), get_le (take 8 (drop 204 input))) in
  Ok (Some (concat (put_le 8 <$> blake2b_F h m t (flag =? 1) rounds))).

Definition precompile_Run (p : precompile) (input : slice) : outcome slice :=
  let b := slice_bytes input in
  match p with
  | ecrecover => ecrecover_Run b
  | sha256hash => Ok (Some (sha256_Sum256 b))
  | ripemd160hash => Ok (Some (LeftPadBytes (ripemd160_Sum b) 32))
  | dataCopy => Ok input
  | bigModExp _ => modexp_Run b
  | bn256AddIstanbul | bn256AddByzantium => runBn256Add b
  | bn256ScalarMulIstanbul | bn256ScalarMulByzantium => runBn256ScalarMul b
  | bn256PairingIstanbul | bn256PairingByzantium => runBn256Pairing b
  | blake2F => blake2F_Run b
  end.

(** [RunPrecompiledContract]: result, error and the contract with the gas taken. *)
Definition RunPrecompiledContract (p : precompile) (input : slice) (contract : Contract) :
  outcome (slice * option goerror * Contract) :=
  (gas ← RequiredGas p (slice_bytes input);
   match UseGas gas contract with
   | Some contract =>
       match precompile_Run p input with
       | Ok r => Ok (r, None, contract)
       | Err e => Ok (None, Some e, contract)
       | Panic w => Panic w
       | Blocked => Blocked
       end
   | None => Ok (None, Some ErrOutOfGas, contract)
   end)%stdpp.
End run.
