(* ===== verification/VMCall.v ===== *)
(** Calls and creations (core/vm/evm.go, core/evm.go).

    The interpreter is a parameter of the definitions, which is how the source has
    it: [run] dispatches to the precompiled contracts or to an [Interpreter].  A run
    gives back the result, the error and the contract with the gas it has left. *)
From stdpp Require Import prelude gmap list strings.
From Stdlib Require Import ZArith Lia.
From S2P Require Import Prelude Params VarBytes RLP Crypto StateData VMWord VMAnalysis VMState VMPrecompiles.
Local Open Scope Z_scope.

Abbreviation CallCreateDepth := 1024 (only parsing).
Abbreviation MaxCodeSize := 2457600 (only parsing).
Abbreviation CreateDataGas := 200 (only parsing).

Record codeAndHash := mkCodeAndHash { ch_code : slice; ch_hash : hash }.

Section calls.
Context {crypto : Crypto} {natives : Natives} {S : Type} {database : Database S} (env : Env).
Local Abbreviation EVM := (EVM S).
Local Abbreviation rules := (chainRules env).

Abbreviation runner := (Contract -> slice -> bool -> M EVM (slice * option goerror * Contract)) (only parsing).
Context (Run : runner).

(** ** core/evm.go *)

Definition CanTransfer (addr : address) (amount : Z) : M EVM bool :=
  balance ← db (GetBalance addr); ret (amount <=? balance).
Definition Transfer (sender recipient : address) (amount : Z) : M EVM unit :=
  db (SubBalance sender amount) ;; db (AddBalance recipient amount).

(** ** core/vm/evm.go *)

Definition run (contract : Contract) (input : slice) (readOnly : bool) : M EVM (slice * option goerror * Contract) :=
  match CodeAddr contract ≫= precompiles rules with
  | Some p => lift_out (RunPrecompiledContract p input contract)
  | None => Run contract input readOnly
  end.

(** A contract whose caller is no contract starts a new map of analyses. *)
Definition fresh_jumpdests (caller : ContractRef) : M EVM unit :=
  match caller with AccountRef _ => modS (set_jumpdests ∅) | ContractOf _ _ _ => ret tt end.

(** The end of the four kinds of calls: an error undoes the changes and, unless the
    code reverted, takes the gas that is left. *)
Definition settle (snapshot : Z) (r : slice * option goerror * Contract) : M EVM (slice * Z * option goerror) :=
  let '(r, err, contract) := r in
  match err with
  | None => ret (r, Gas contract, None)
  | Some e =>
      db (RevertToSnapshot snapshot) ;;
      ret (r, if decide (e = errExecutionReverted) then Gas contract else 0, Some e)
  end.

Definition Call (caller : ContractRef) (addr : address) (input : slice) (gas value : Z) : M EVM (slice * Z * option goerror) :=
  depth ← gets evm_depth;
  if NoRecursion (vmConfig env) && (0 <? depth) then ret (None, gas, None) else
  if CallCreateDepth <? depth then ret (None, gas, Some ErrDepth) else
  ok ← CanTransfer (ref_Address caller) value;
  if negb ok then ret (None, gas, Some ErrInsufficientBalance) else
  snapshot ← db Snapshot;
  exist ← db (Exist addr);
  if negb exist && bool_decide (precompiles rules addr = None) && r_IsEIP158 rules && (value =? 0)
  then ret (None, gas, None) else
  when (negb exist) (db (CreateAccount addr)) ;;
  Transfer (ref_Address caller) addr value ;;
  fresh_jumpdests caller ;;
  codeHash ← db (GetCodeHash addr);
  code ← db (GetCode addr);
  let contract := SetCallCode (Some addr) codeHash code (NewContract caller addr (Some value) gas) in
  r ← run contract input false;
  settle snapshot r.

Definition CallCode (caller : ContractRef) (addr : address) (input : slice) (gas value : Z) : M EVM (slice * Z * option goerror) :=
  depth ← gets evm_depth;
  if NoRecursion (vmConfig env) && (0 <? depth) then ret (None, gas, None) else
  if CallCreateDepth <? depth then ret (None, gas, Some ErrDepth) else
  ok ← CanTransfer (ref_Address caller) value;
  if negb ok then ret (None, gas, Some ErrInsufficientBalance) else
  snapshot ← db Snapshot;
  fresh_jumpdests caller ;;
  codeHash ← db (GetCodeHash addr);
  code ← db (GetCode addr);
  let contract := SetCallCode (Some addr) codeHash code (NewContract caller (ref_Address caller) (Some value) gas) in
  r ← run contract input false;
  settle snapshot r.

Definition DelegateCall (caller : ContractRef) (addr : address) (input : slice) (gas : Z) : M EVM (slice * Z * option goerror) :=
  depth ← gets evm_depth;
  if NoRecursion (vmConfig env) && (0 <? depth) then ret (None, gas, None) else
  if CallCreateDepth <? depth then ret (None, gas, Some ErrDepth) else
  snapshot ← db Snapshot;
  fresh_jumpdests caller ;;
  contract ← lift_out (AsDelegate (NewContract caller (ref_Address caller) None gas));
  codeHash ← db (GetCodeHash addr);
  code ← db (GetCode addr);
  let contract := SetCallCode (Some addr) codeHash code contract in
  r ← run contract input false;
  settle snapshot r.

Definition StaticCall (caller : ContractRef) (addr : address) (input : slice) (gas : Z) : M EVM (slice * Z * option goerror) :=
  depth ← gets evm_depth;
  if NoRecursion (vmConfig env) && (0 <? depth) then ret (None, gas, None) else
  if CallCreateDepth <? depth then ret (None, gas, Some ErrDepth) else
  snapshot ← db Snapshot;
  fresh_jumpdests caller ;;
  codeHash ← db (GetCodeHash addr);
  code ← db (GetCode addr);
  let contract := SetCallCode (Some addr) codeHash code (NewContract caller addr (Some 0) gas) in
  db (AddBalance addr 0) ;;
  r ← run contract input true;
  settle snapshot r.

(** [codeAndHash.Hash] computes the hash once. *)
Definition ch_Hash (c : codeAndHash) : codeAndHash :=
  if ch_hash c =? 0 then mkCodeAndHash (ch_code c) (Keccak256Hash (slice_bytes (ch_code c))) else c.

Definition vm_emptyCodeHash : hash := Keccak256Hash [].

Definition AddressWhitelisted (addr : address) : M EVM bool :=
  owner ← db (GetState OvmWhitelistAddress 0);
  if owner =? 0 then ret true else
  let key := BytesToHash (keccak256 (LeftPadBytes (addr_bytes addr) 32 ++ LeftPadBytes (big_bytes 1) 32)) in
  isWhitelisted ← db (GetState OvmWhitelistAddress key);
  ret (negb (isWhitelisted =? 0)).

(** The first half of [create]: the checks, the address and the nonce; what the
    source returns early is on the left. *)
Definition create_address (caller : ContractRef) (gas value : Z) (address : address) :
  M EVM ((slice * Prelude.address * Z * option goerror) + Prelude.address) :=
  depth ← gets evm_depth;
  if CallCreateDepth <? depth then ret (inl (None, 0, gas, Some ErrDepth)) else
  ok ← CanTransfer (ref_Address caller) value;
  if negb ok then ret (inl (None, 0, gas, Some ErrInsufficientBalance)) else
  if UsingOVM env then
    whitelisted ← AddressWhitelisted (ref_Address caller);
    if negb whitelisted then
      let solerr := ("deployer address not whitelisted: " +:+ Address_Hex (ref_Address caller))%string in
      match EncodeSolidityError env solerr with
      | inl _ => ret (inl (None, 0, gas, Some (ErrNew solerr)))
      | inr r => ret (inl (Some r, 0, gas, Some errExecutionReverted))
      end
    else
      chainID ← deref "nil ChainID" (ChainID (chainConfig env));
      let sysAddr := SystemAddressFor (envSystemAddressDeployer env) chainID (ref_Address caller) in
      if sysAddr =? ZeroSystemAddress then ret (inr address) else
      nonce ← db (GetNonce (ref_Address caller));
      ret (inr (if nonce =? 0 then sysAddr else address))
  else ret (inr address).

(** The second half: what has become of the creation code. *)
Definition create_finish (snapshot : Z) (address : address) (r : slice * option goerror * Contract) :
  M EVM (slice * Prelude.address * Z * option goerror) :=
  let '(r, err, contract) := r in
  let maxCodeSizeExceeded := r_IsEIP158 rules && (MaxCodeSize <? slice_len r) in
  '(err, contract) ←
    (match err with
     | None =>
         if maxCodeSizeExceeded then ret (None, contract) else
         match UseGas (u64 (slice_len r * CreateDataGas)) contract with
         | Some contract => db (SetCode address r) ;; ret (None, contract)
         | None => ret (Some ErrCodeStoreOutOfGas, contract)
         end
     | Some e => ret (Some e, contract)
     end);
  let failed := match err with
                | None => false
                | Some e => r_IsHomestead rules || bool_decide (e <> ErrCodeStoreOutOfGas)
                end in
  gas ←
    (if maxCodeSizeExceeded || failed then
       db (RevertToSnapshot snapshot) ;;
       ret (if decide (err = Some errExecutionReverted) then Gas contract else 0)
     else ret (Gas contract));
  let err := match err with
             | None => if maxCodeSizeExceeded then Some errMaxCodeSizeExceeded else None
             | Some e => Some e
             end in
  ret (r, address, gas, err).

Definition create (caller : ContractRef) (codeAndHash : codeAndHash) (gas value : Z) (address : address) :
  M EVM (slice * Prelude.address * Z * option goerror) :=
  early ← create_address caller gas value address;
  match early with
  | inl r => ret r
  | inr address =>
      nonce ← db (GetNonce (ref_Address caller));
      db (SetNonce (ref_Address caller) (u64 (nonce + 1))) ;;
      when (r_IsBerlin rules) (db (AddAddressToAccessList address)) ;;
      contractHash ← db (GetCodeHash address);
      nonce ← db (GetNonce address);
      if negb (nonce =? 0) || (negb (contractHash =? 0) && negb (contractHash =? vm_emptyCodeHash))
      then ret (None, 0, 0, Some ErrContractAddressCollision) else
      snapshot ← db Snapshot;
      db (CreateAccount address) ;;
      when (r_IsEIP158 rules) (db (SetNonce address 1)) ;;
      Transfer (ref_Address caller) address value ;;
      fresh_jumpdests caller ;;
      let contract := SetCallCode (Some address) (ch_hash codeAndHash) (ch_code codeAndHash)
                        (NewContract caller address (Some value) gas) in
      depth ← gets evm_depth;
      if NoRecursion (vmConfig env) && (0 <? depth) then ret (None, address, gas, None) else
      r ← run contract None false;
      create_finish snapshot address r
  end.

Definition Create (caller : ContractRef) (code : slice) (gas value : Z) : M EVM (slice * address * Z * option goerror) :=
  nonce ← db (GetNonce (ref_Address caller));
  create caller (mkCodeAndHash code 0) gas value (CreateAddress (ref_Address caller) nonce).

Definition Create2 (caller : ContractRef) (code : slice) (gas endowment salt : Z) : M EVM (slice * address * Z * option goerror) :=
  let codeAndHash := ch_Hash (mkCodeAndHash code 0) in
  create caller codeAndHash gas endowment
    (CreateAddress2 (ref_Address caller) (BigToHash salt) (hash_bytes (ch_hash codeAndHash))).
End calls.
