(* ===== verification/VMOps.v ===== *)
(** The instructions of the virtual machine (core/vm/instructions.go, the two of
    core/vm/eips.go).

    Each is a computation on the frame that gives the bytes the source returns; an
    error of the source is thrown.  The pool of integers only recycles memory and is
    left out. *)
From stdpp Require Import prelude gmap list strings.
From Stdlib Require Import ZArith Lia.
From S2P Require Import Prelude Params VarBytes RLP Crypto StateData VMWord VMAnalysis VMState VMPrecompiles VMGas VMCall.
Local Open Scope Z_scope.

Section ops.
Context {crypto : Crypto} {natives : Natives} {S : Type} {database : Database S} (env : Env).
Local Abbreviation scope := (scope S).
Local Abbreviation executionFunc := (M scope slice) (only parsing).
Local Abbreviation ctx := (context env).
Local Abbreviation rules := (chainRules env).
Local Abbreviation runner := (Contract -> slice -> bool -> M (EVM S) (slice * option goerror * Contract)) (only parsing).

Definition done_nil : executionFunc := ret None.
Definition of_bool (b : bool) : Z := if b then 1 else 0.

(** [x, y := stack.pop(), stack.peek()] and the result left in [y]. *)
Definition binary (f : Z -> Z -> Z) : executionFunc := x ← pop; y ← peek; poke (f x y) ;; done_nil.
(** [x := stack.peek()] changed in place. *)
Definition unary (f : Z -> Z) : executionFunc := x ← peek; poke (f x) ;; done_nil.
(** A value pushed. *)
Definition pushed (m : M scope Z) : executionFunc := x ← m; push x ;; done_nil.

(** ** Arithmetic *)

Definition opAdd := binary (fun x y => U256 (x + y)).
Definition opSub := binary (fun x y => U256 (x - y)).
Definition opMul : executionFunc := x ← pop; y ← pop; push (U256 (x * y)) ;; done_nil.
Definition opDiv := binary (fun x y => if negb (y =? 0) then U256 (x / y) else 0).

Definition sdiv (x y : Z) : Z :=
  if (y =? 0) || (x =? 0) then 0
  else if negb (Z.sgn x =? Z.sgn y) then U256 (- (Z.abs x / Z.abs y))
  else U256 (Z.abs x / Z.abs y).
Definition opSdiv : executionFunc := x ← pop; y ← pop; push (sdiv (S256 x) (S256 y)) ;; done_nil.

Definition opMod : executionFunc := x ← pop; y ← pop; push (if y =? 0 then 0 else U256 (x mod y)) ;; done_nil.

Definition smod (x y : Z) : Z :=
  if y =? 0 then 0
  else if x <? 0 then U256 (- (Z.abs x mod Z.abs y))
  else U256 (Z.abs x mod Z.abs y).
Definition opSmod : executionFunc := x ← pop; y ← pop; push (smod (S256 x) (S256 y)) ;; done_nil.

Definition opExp : executionFunc :=
  base ← pop; exponent ← pop;
  push (if exponent <? 1 then 1 else if base =? 0 then 0 else if exponent =? 1 then base else Exp base exponent) ;;
  done_nil.

Definition signExtend (back num : Z) : Z :=
  let bit := u64 (big_uint64 back * 8 + 7) in
  let mask := Z.shiftl 1 bit - 1 in
  U256 (if Z.testbit num bit then Z.lor num (Z.lnot mask) else Z.land num mask).
Definition opSignExtend : executionFunc :=
  back ← pop;
  when (back <? 31) (num ← pop; push (signExtend back num)) ;; done_nil.

Definition opNot := unary (fun x => U256 (Z.lnot x)).
Definition opLt := binary (fun x y => of_bool (x <? y)).
Definition opGt := binary (fun x y => of_bool (y <? x)).
Definition opSlt := binary (fun x y =>
  if (tt255 <=? x) && (y <? tt255) then 1
  else if (x <? tt255) && (tt255 <=? y) then 0
  else of_bool (x <? y)).
Definition opSgt := binary (fun x y =>
  if (tt255 <=? x) && (y <? tt255) then 0
  else if (x <? tt255) && (tt255 <=? y) then 1
  else of_bool (y <? x)).
Definition opEq := binary (fun x y => of_bool (x =? y)).
Definition opIszero := unary (fun x => of_bool (negb (0 <? x))).
Definition opAnd : executionFunc := x ← pop; y ← pop; push (Z.land x y) ;; done_nil.
Definition opOr := binary Z.lor.
Definition opXor := binary Z.lxor.
Definition opByte := binary (fun th val => if th <? 32 then math_Byte val 32 (big_int64 th) else 0).

Definition opAddmod : executionFunc :=
  x ← pop; y ← pop; z ← pop; push (if 0 <? z then U256 ((x + y) mod z) else 0) ;; done_nil.
Definition opMulmod : executionFunc :=
  x ← pop; y ← pop; z ← pop; push (if 0 <? z then U256 ((x * y) mod z) else 0) ;; done_nil.

Definition opSHL := binary (fun shift value =>
  let shift := U256 shift in let value := U256 value in
  if 256 <=? shift then 0 else U256 (Z.shiftl value (big_uint64 shift))).
Definition opSHR := binary (fun shift value =>
  let shift := U256 shift in let value := U256 value in
  if 256 <=? shift then 0 else U256 (Z.shiftr value (big_uint64 shift))).
Definition opSAR : executionFunc :=
  shift ← pop; value ← pop;
  let shift := U256 shift in let value := S256 value in
  push (if 256 <=? shift then U256 (if 0 <=? value then 0 else -1)
        else U256 (Z.shiftr value (big_uint64 shift))) ;; done_nil.

(** ** Memory in and out *)

Definition mem_read (offset size : Z) : M scope slice :=
  mem ← gets sc_memory; lift_out (mem_GetPtr (big_int64 offset) (big_int64 size) mem).
Definition mem_copy (offset size : Z) : M scope slice :=
  mem ← gets sc_memory; lift_out (mem_GetCopy (big_int64 offset) (big_int64 size) mem).
Definition mem_write (offset size : Z) (value : bytes) : M scope unit :=
  mem ← gets sc_memory; mem ← lift_out (mem_Set (big_uint64 offset) (big_uint64 size) value mem); modS (set_memory mem).

Definition opSha3 : executionFunc :=
  offset ← pop; size ← pop;
  data ← mem_read offset size;
  let h := keccak256 (slice_bytes data) in
  when (EnablePreimageRecording (vmConfig env)) (sdb (AddPreimage (be_value h) (slice_bytes data))) ;;
  push (be_value h) ;; done_nil.

(** ** The environment *)

Definition addr_word (a : address) : Z := be_value (addr_bytes a).
Definition opAddress := pushed (a ← self; ret (addr_word a)).
Definition opBalance : executionFunc := slot ← peek; b ← sdb (GetBalance (BigToAddress slot)); poke b ;; done_nil.
Definition opOrigin := pushed (ret (addr_word (Origin ctx))).
Definition opCaller := pushed (gets (fun s => addr_word (CallerAddress (sc_contract s)))).
Definition opCallValue := pushed (c ← gets sc_contract; deref "nil value" (c_value c)).
Definition opCallDataLoad : executionFunc :=
  x ← pop; c ← gets sc_contract;
  d ← lift_out (getDataBig (slice_bytes (Input c)) x 32); push (be_value d) ;; done_nil.
Definition opCallDataSize := pushed (gets (fun s => i64 (slice_len (Input (sc_contract s))))).
Definition opCallDataCopy : executionFunc :=
  memOffset ← pop; dataOffset ← pop; length ← pop; c ← gets sc_contract;
  d ← lift_out (getDataBig (slice_bytes (Input c)) dataOffset length);
  mem_write memOffset length d ;; done_nil.
Definition opReturnDataSize := pushed (gets (fun s => u64 (slice_len (evm_returnData (sc_evm s))))).
Definition opReturnDataCopy : executionFunc :=
  memOffset ← pop; dataOffset ← pop; length ← pop;
  let end_ := dataOffset + length in
  data ← gets (fun s => slice_bytes (evm_returnData (sc_evm s)));
  if negb (IsUint64 end_) || (Z.of_nat (List.length data) <? big_uint64 end_) then throw errReturnDataOutOfBounds else
  d ← lift_out (subslice data (big_uint64 dataOffset) (big_uint64 end_));
  mem_write memOffset length d ;; done_nil.
Definition opExtCodeSize : executionFunc :=
  slot ← peek; n ← sdb (GetCodeSize (BigToAddress slot)); poke (u64 n) ;; done_nil.
Definition opCodeSize := pushed (gets (fun s => i64 (Z.of_nat (length (Code (sc_contract s)))))).
Definition opCodeCopy : executionFunc :=
  memOffset ← pop; codeOffset ← pop; length ← pop; c ← gets sc_contract;
  d ← lift_out (getDataBig (Code c) codeOffset length);
  mem_write memOffset length d ;; done_nil.
Definition opExtCodeCopy : executionFunc :=
  a ← pop; memOffset ← pop; codeOffset ← pop; length ← pop;
  code ← sdb (GetCode (BigToAddress a));
  d ← lift_out (getDataBig (slice_bytes code) codeOffset length);
  mem_write memOffset length d ;; done_nil.
Definition opExtCodeHash : executionFunc :=
  slot ← peek;
  let address := BigToAddress slot in
  empty ← sdb (Empty address);
  (if empty : bool then poke 0
   else h ← sdb (GetCodeHash address); poke (be_value (hash_bytes h))) ;; done_nil.
Definition opGasprice := pushed (ret (GasPrice ctx)).
Definition opBlockhash : executionFunc :=
  num ← pop;
  push (if (BlockNumber ctx - 257 <? num) && (num <? BlockNumber ctx)
        then be_value (hash_bytes (GetHash ctx (big_uint64 num))) else 0) ;; done_nil.
Definition opCoinbase := pushed (ret (addr_word (Coinbase ctx))).
Definition opTimestamp := pushed (ret (U256 (Time ctx))).
Definition opNumber := pushed (ret (U256 (BlockNumber ctx))).
Definition opDifficulty := pushed (ret (U256 (Difficulty ctx))).
Definition opGasLimit := pushed (ret (U256 (GasLimit ctx))).
Definition opL1BlockNumber := pushed (n ← deref "nil L1BlockNumber" (L1BlockNumber ctx); ret (U256 n)).
Definition opSelfBalance := pushed (a ← self; sdb (GetBalance a)).
Definition opChainID := pushed (deref "nil ChainID" (ChainID (chainConfig env))).

(** ** Stack, memory, storage and flow *)

Definition opPop : executionFunc := pop ;; done_nil.
Definition opMload : executionFunc := v ← peek; d ← mem_read v 32; poke (be_value (slice_bytes d)) ;; done_nil.
Definition opMstore : executionFunc :=
  mStart ← pop; val ← pop; mem ← gets sc_memory;
  mem ← lift_out (mem_Set32 (big_uint64 mStart) val mem); modS (set_memory mem) ;; done_nil.
Definition opMstore8 : executionFunc :=
  off ← pop; val ← pop; mem ← gets sc_memory;
  let off := big_int64 off in
  if (0 <=? off) && (off <? mem_Len mem)
  then modS (set_memory (set_mem_store (<[Z.to_nat off := z2b (Z.land (big_int64 val) 0xff)]> (mem_store mem)) mem)) ;; done_nil
  else gopanic "index out of range".
Definition opSload : executionFunc :=
  loc ← peek; a ← self; v ← sdb (GetState a (BigToHash loc)); poke (be_value (hash_bytes v)) ;; done_nil.
Definition opSstore : executionFunc :=
  loc ← pop; val ← pop; a ← self; sdb (SetState a (BigToHash loc) (BigToHash val)) ;; done_nil.
Definition opJump : executionFunc :=
  pos ← pop; ok ← validJumpdest pos;
  if negb ok then throw errInvalidJump else modS (set_pc (big_uint64 pos)) ;; done_nil.
Definition opJumpi : executionFunc :=
  pos ← pop; cond ← pop;
  if negb (cond =? 0) then
    ok ← validJumpdest pos;
    if negb ok then throw errInvalidJump else modS (set_pc (big_uint64 pos)) ;; done_nil
  else modS (fun s => set_pc (u64 (sc_pc s + 1)) s) ;; done_nil.
Definition opJumpdest : executionFunc := done_nil.
Definition opPc := pushed (gets sc_pc).
Definition opMsize := pushed (gets (fun s => i64 (mem_Len (sc_memory s)))).
Definition opGas := pushed (gets (fun s => Gas (sc_contract s))).

Definition opPush1 : executionFunc :=
  modS (fun s => set_pc (u64 (sc_pc s + 1)) s) ;;
  s ← getS;
  push (if sc_pc s <? Z.of_nat (length (Code (sc_contract s)))
        then b2z (nth (Z.to_nat (sc_pc s)) (Code (sc_contract s)) Byte.x00) else 0) ;; done_nil.
Definition opPush0 : executionFunc := push 0 ;; done_nil.
Definition makePush (size : Z) (pushByteSize : Z) : executionFunc :=
  s ← getS;
  let codeLen := Z.of_nat (length (Code (sc_contract s))) in
  let next := i64 (u64 (sc_pc s + 1)) in
  let startMin := if next <? codeLen then next else codeLen in
  let endMin := if startMin + pushByteSize <? codeLen then startMin + pushByteSize else codeLen in
  d ← lift_out (subslice (Code (sc_contract s)) startMin endMin);
  push (be_value (RightPadBytes d pushByteSize)) ;;
  modS (fun s => set_pc (u64 (sc_pc s + size)) s) ;; done_nil.
Definition makeDup (size : nat) : executionFunc :=
  st ← gets sc_stack; st ← lift_out (stack_dup size st); modS (set_stack st) ;; done_nil.
Definition makeSwap (size : nat) : executionFunc :=
  st ← gets sc_stack; st ← lift_out (stack_swap (size + 1) st); modS (set_stack st) ;; done_nil.

Fixpoint pop_topics (n : nat) : M scope (list hash) :=
  match n with
  | O => ret []
  | Datatypes.S n' => x ← pop; rest ← pop_topics n'; ret (BigToHash x :: rest)
  end.
Definition makeLog (size : nat) : executionFunc :=
  mStart ← pop; mSize ← pop;
  topics ← pop_topics size;
  d ← mem_copy mStart mSize;
  a ← self;
  sdb (AddLog (mkLog a topics (slice_bytes d) (big_uint64 (BlockNumber ctx)) 0 0 0 0 false)) ;; done_nil.

(** ** Calls and creations *)

Context (Run : runner).

(** [contract.Gas += returnGas] *)
Definition give_gas (gas : Z) : M scope unit :=
  modS (fun s => set_contract (set_Gas (u64 (Gas (sc_contract s) + gas)) (sc_contract s)) s).

(** The end of the two creations. *)
Definition created (ok : bool) (r : slice * address * Z * option goerror) : executionFunc :=
  let '(res, addr, returnGas, suberr) := r in
  push (if ok then addr_word addr else 0) ;;
  give_gas returnGas ;;
  ret (if decide (suberr = Some errExecutionReverted) then res else None).

Definition opCreate : executionFunc :=
  value ← pop; offset ← pop; size ← pop;
  input ← mem_copy offset size;
  c ← gets sc_contract;
  let gas := if r_IsEIP150 rules then u64 (Gas c - Gas c / 64) else Gas c in
  use_gas gas ;;
  r ← on_evm (Create env Run (contract_ref c) input gas value);
  let suberr := r.2 in
  created (match suberr with
           | None => true
           | Some e => bool_decide (e = ErrCodeStoreOutOfGas) && negb (r_IsHomestead rules)
           end) r.

Definition opCreate2 : executionFunc :=
  endowment ← pop; offset ← pop; size ← pop; salt ← pop;
  input ← mem_copy offset size;
  c ← gets sc_contract;
  let gas := u64 (Gas c - Gas c / 64) in
  use_gas gas ;;
  r ← on_evm (Create2 env Run (contract_ref c) input gas endowment salt);
  created (match r.2 with None => true | Some _ => false end) r.

(** The end of the four calls: the flag, the output and the gas that is left. *)
Definition called (retOffset retSize : Z) (r : slice * Z * option goerror) : executionFunc :=
  let '(r, returnGas, err) := r in
  push (match err with None => 1 | Some _ => 0 end) ;;
  when (bool_decide (err = None) || bool_decide (err = Some errExecutionReverted))
    (mem_write retOffset retSize (slice_bytes r)) ;;
  give_gas returnGas ;;
  ret r.

Definition opCall : executionFunc :=
  pop ;;
  gas ← gets (fun s => evm_callGasTemp (sc_evm s));
  addr ← pop; value ← pop; inOffset ← pop; inSize ← pop; retOffset ← pop; retSize ← pop;
  let toAddr := BigToAddress addr in
  let value := U256 value in
  args ← mem_read inOffset inSize;
  let gas := if negb (value =? 0) then u64 (gas + CallStipend) else gas in
  c ← gets sc_contract;
  r ← on_evm (Call env Run (contract_ref c) toAddr args gas value);
  called retOffset retSize r.

Definition opCallCode : executionFunc :=
  pop ;;
  gas ← gets (fun s => evm_callGasTemp (sc_evm s));
  addr ← pop; value ← pop; inOffset ← pop; inSize ← pop; retOffset ← pop; retSize ← pop;
  let toAddr := BigToAddress addr in
  let value := U256 value in
  args ← mem_read inOffset inSize;
  let gas := if negb (value =? 0) then u64 (gas + CallStipend) else gas in
  c ← gets sc_contract;
  r ← on_evm (CallCode env Run (contract_ref c) toAddr args gas value);
  called retOffset retSize r.

Definition opDelegateCall : executionFunc :=
  pop ;;
  gas ← gets (fun s => evm_callGasTemp (sc_evm s));
  addr ← pop; inOffset ← pop; inSize ← pop; retOffset ← pop; retSize ← pop;
  args ← mem_read inOffset inSize;
  c ← gets sc_contract;
  r ← on_evm (DelegateCall env Run (contract_ref c) (BigToAddress addr) args gas);
  called retOffset retSize r.

Definition opStaticCall : executionFunc :=
  pop ;;
  gas ← gets (fun s => evm_callGasTemp (sc_evm s));
  addr ← pop; inOffset ← pop; inSize ← pop; retOffset ← pop; retSize ← pop;
  args ← mem_read inOffset inSize;
  c ← gets sc_contract;
  r ← on_evm (StaticCall env Run (contract_ref c) (BigToAddress addr) args gas);
  called retOffset retSize r.

(** ** Ends *)

Definition opReturn : executionFunc := offset ← pop; size ← pop; mem_read offset size.
Definition opRevert : executionFunc := offset ← pop; size ← pop; mem_read offset size.
Definition opStop : executionFunc := done_nil.
Definition opSuicide : executionFunc :=
  a ← self;
  balance ← sdb (GetBalance a);
  beneficiary ← pop;
  sdb (AddBalance (BigToAddress beneficiary) balance) ;;
  sdb (Suicide a) ;;
  (if UsingOVM env then
     sd ← lift_out (IsSDUpdate (chainConfig env) (Some (BlockNumber ctx)));
     when sd (sdb (SubBalance a balance))
   else ret tt) ;;
  done_nil.
End ops.
