(* ===== verification/VMTable.v ===== *)
(** The instruction tables (core/vm/opcodes.go, stack_table.go, jump_table.go,
    eips.go).

    An [operation] has the fields of the source; absent entries of a table are the
    invalid ones.  Tables of later forks are the earlier tables with entries added
    and fields changed, in the order of the source. *)
From stdpp Require Import prelude gmap list strings.
From Stdlib Require Import ZArith Lia.
From S2P Require Import Prelude Params VarBytes RLP Crypto StateData VMWord VMAnalysis VMState VMPrecompiles VMGas VMCall VMOps.
Local Open Scope Z_scope.

(** ** Opcodes *)

Abbreviation STOP := 0x00 (only parsing).
Abbreviation ADD := 0x01 (only parsing).
Abbreviation MUL := 0x02 (only parsing).
Abbreviation SUB := 0x03 (only parsing).
Abbreviation DIV := 0x04 (only parsing).
Abbreviation SDIV := 0x05 (only parsing).
Abbreviation MOD := 0x06 (only parsing).
Abbreviation SMOD := 0x07 (only parsing).
Abbreviation ADDMOD := 0x08 (only parsing).
Abbreviation MULMOD := 0x09 (only parsing).
Abbreviation EXP := 0x0a (only parsing).
Abbreviation SIGNEXTEND := 0x0b (only parsing).
Abbreviation LT := 0x10 (only parsing).
Abbreviation GT := 0x11 (only parsing).
Abbreviation SLT := 0x12 (only parsing).
Abbreviation SGT := 0x13 (only parsing).
Abbreviation EQ := 0x14 (only parsing).
Abbreviation ISZERO := 0x15 (only parsing).
Abbreviation AND := 0x16 (only parsing).
Abbreviation OR := 0x17 (only parsing).
Abbreviation XOR := 0x18 (only parsing).
Abbreviation NOT := 0x19 (only parsing).
Abbreviation BYTE := 0x1a (only parsing).
Abbreviation SHL := 0x1b (only parsing).
Abbreviation SHR := 0x1c (only parsing).
Abbreviation SAR := 0x1d (only parsing).
Abbreviation SHA3 := 0x20 (only parsing).
Abbreviation ADDRESS := 0x30 (only parsing).
Abbreviation BALANCE := 0x31 (only parsing).
Abbreviation ORIGIN := 0x32 (only parsing).
Abbreviation CALLER := 0x33 (only parsing).
Abbreviation CALLVALUE := 0x34 (only parsing).
Abbreviation CALLDATALOAD := 0x35 (only parsing).
Abbreviation CALLDATASIZE := 0x36 (only parsing).
Abbreviation CALLDATACOPY := 0x37 (only parsing).
Abbreviation CODESIZE := 0x38 (only parsing).
Abbreviation CODECOPY := 0x39 (only parsing).
Abbreviation GASPRICE := 0x3a (only parsing).
Abbreviation EXTCODESIZE := 0x3b (only parsing).
Abbreviation EXTCODECOPY := 0x3c (only parsing).
Abbreviation RETURNDATASIZE := 0x3d (only parsing).
Abbreviation RETURNDATACOPY := 0x3e (only parsing).
Abbreviation EXTCODEHASH := 0x3f (only parsing).
Abbreviation BLOCKHASH := 0x40 (only parsing).
Abbreviation COINBASE := 0x41 (only parsing).
Abbreviation TIMESTAMP := 0x42 (only parsing).
Abbreviation NUMBER := 0x43 (only parsing).
Abbreviation DIFFICULTY := 0x44 (only parsing).
Abbreviation GASLIMIT := 0x45 (only parsing).
Abbreviation CHAINID := 0x46 (only parsing).
Abbreviation SELFBALANCE := 0x47 (only parsing).
Abbreviation L1BLOCKNUMBER := 0x4b (only parsing).
Abbreviation POP := 0x50 (only parsing).
Abbreviation MLOAD := 0x51 (only parsing).
Abbreviation MSTORE := 0x52 (only parsing).
Abbreviation MSTORE8 := 0x53 (only parsing).
Abbreviation SLOAD := 0x54 (only parsing).
Abbreviation SSTORE := 0x55 (only parsing).
Abbreviation JUMP := 0x56 (only parsing).
Abbreviation JUMPI := 0x57 (only parsing).
Abbreviation PC := 0x58 (only parsing).
Abbreviation MSIZE := 0x59 (only parsing).
Abbreviation GAS := 0x5a (only parsing).
Abbreviation PUSH0 := 0x5f (only parsing).
Abbreviation PUSH1 := 0x60 (only parsing).
Abbreviation DUP1 := 0x80 (only parsing).
Abbreviation SWAP1 := 0x90 (only parsing).
Abbreviation LOG0 := 0xa0 (only parsing).
Abbreviation LOG1 := 0xa1 (only parsing).
Abbreviation LOG2 := 0xa2 (only parsing).
Abbreviation LOG3 := 0xa3 (only parsing).
Abbreviation LOG4 := 0xa4 (only parsing).
Abbreviation CREATE := 0xf0 (only parsing).
Abbreviation CALL := 0xf1 (only parsing).
Abbreviation CALLCODE := 0xf2 (only parsing).
Abbreviation RETURN := 0xf3 (only parsing).
Abbreviation DELEGATECALL := 0xf4 (only parsing).
Abbreviation CREATE2 := 0xf5 (only parsing).
Abbreviation STATICCALL := 0xfa (only parsing).
Abbreviation REVERT := 0xfd (only parsing).
Abbreviation SELFDESTRUCT := 0xff (only parsing).

(** Prices that only the tables use. *)
Abbreviation JumpdestGas := 1 (only parsing).
Abbreviation CreateGas := 32000 (only parsing).
Abbreviation Create2Gas := 32000 (only parsing).
Abbreviation CallGasFrontier := 40 (only parsing).
Abbreviation CallGasEIP150 := 700 (only parsing).
Abbreviation BalanceGasFrontier := 20 (only parsing).
Abbreviation BalanceGasEIP150 := 400 (only parsing).
Abbreviation BalanceGasEIP1884 := 700 (only parsing).
Abbreviation ExtcodeSizeGasFrontier := 20 (only parsing).
Abbreviation ExtcodeSizeGasEIP150 := 700 (only parsing).
Abbreviation SloadGasFrontier := 50 (only parsing).
Abbreviation SloadGasEIP150 := 200 (only parsing).
Abbreviation SloadGasEIP1884 := 800 (only parsing).
Abbreviation ExtcodeHashGasConstantinople := 400 (only parsing).
Abbreviation ExtcodeHashGasEIP1884 := 700 (only parsing).
Abbreviation ExtcodeCopyBaseFrontier := 20 (only parsing).
Abbreviation ExtcodeCopyBaseEIP150 := 700 (only parsing).

Abbreviation StackLimit := 1024 (only parsing).
Definition maxStack (pop push : Z) : Z := StackLimit + pop - push.
Definition minStack (pops push : Z) : Z := pops.

Section table.
Context {crypto : Crypto} {natives : Natives} {S : Type} {database : Database S} (env : Env).
Local Abbreviation scope := (scope S).
Local Abbreviation runner := (Contract -> slice -> bool -> M (EVM S) (slice * option goerror * Contract)) (only parsing).

Record operation := mkOperation {
  execute : runner -> M scope slice; constantGas : Z; dynamicGas : option (Z -> M scope Z);
  op_minStack : Z; op_maxStack : Z; memorySize : option (list Z -> outcome (Z * bool));
  halts : bool; jumps : bool; writes : bool; valid : bool; reverts : bool; returns : bool }.

(** A valid entry that takes [pops] items and leaves [pushes], and the fields an
    entry may set besides. *)
Definition instr (ex : runner -> M scope slice) (gas pops pushes : Z) : operation :=
  mkOperation ex gas None (minStack pops pushes) (maxStack pops pushes) None false false false true false false.
Definition charging (g : Z -> M scope Z) (o : operation) : operation :=
  mkOperation (execute o) (constantGas o) (Some g) (op_minStack o) (op_maxStack o) (memorySize o)
    (halts o) (jumps o) (writes o) (valid o) (reverts o) (returns o).
Definition costing (g : Z) (o : operation) : operation :=
  mkOperation (execute o) g (dynamicGas o) (op_minStack o) (op_maxStack o) (memorySize o)
    (halts o) (jumps o) (writes o) (valid o) (reverts o) (returns o).
Definition sized (f : list Z -> outcome (Z * bool)) (o : operation) : operation :=
  mkOperation (execute o) (constantGas o) (dynamicGas o) (op_minStack o) (op_maxStack o) (Some f)
    (halts o) (jumps o) (writes o) (valid o) (reverts o) (returns o).
Definition halting (o : operation) : operation :=
  mkOperation (execute o) (constantGas o) (dynamicGas o) (op_minStack o) (op_maxStack o) (memorySize o)
    true (jumps o) (writes o) (valid o) (reverts o) (returns o).
Definition jumping (o : operation) : operation :=
  mkOperation (execute o) (constantGas o) (dynamicGas o) (op_minStack o) (op_maxStack o) (memorySize o)
    (halts o) true (writes o) (valid o) (reverts o) (returns o).
Definition writing (o : operation) : operation :=
  mkOperation (execute o) (constantGas o) (dynamicGas o) (op_minStack o) (op_maxStack o) (memorySize o)
    (halts o) (jumps o) true (valid o) (reverts o) (returns o).
Definition reverting (o : operation) : operation :=
  mkOperation (execute o) (constantGas o) (dynamicGas o) (op_minStack o) (op_maxStack o) (memorySize o)
    (halts o) (jumps o) (writes o) (valid o) true (returns o).
Definition returning (o : operation) : operation :=
  mkOperation (execute o) (constantGas o) (dynamicGas o) (op_minStack o) (op_maxStack o) (memorySize o)
    (halts o) (jumps o) (writes o) (valid o) (reverts o) true.

Abbreviation JumpTable := (gmap Z operation).
Local Notation "o |> f" := (f o) (at level 50, left associativity, only parsing).

(** ** Frontier *)

Definition frontier_arithmetic : list (Z * operation) := [
  (STOP, instr (fun _ => opStop) 0 0 0 |> halting);
  (ADD, instr (fun _ => opAdd) GasFastestStep 2 1);
  (MUL, instr (fun _ => opMul) GasFastStep 2 1);
  (SUB, instr (fun _ => opSub) GasFastestStep 2 1);
  (DIV, instr (fun _ => opDiv) GasFastStep 2 1);
  (SDIV, instr (fun _ => opSdiv) GasFastStep 2 1);
  (MOD, instr (fun _ => opMod) GasFastStep 2 1);
  (SMOD, instr (fun _ => opSmod) GasFastStep 2 1);
  (ADDMOD, instr (fun _ => opAddmod) GasMidStep 3 1);
  (MULMOD, instr (fun _ => opMulmod) GasMidStep 3 1);
  (EXP, instr (fun _ => opExp) 0 2 1 |> charging gasExpFrontier);
  (SIGNEXTEND, instr (fun _ => opSignExtend) GasFastStep 2 1);
  (LT, instr (fun _ => opLt) GasFastestStep 2 1);
  (GT, instr (fun _ => opGt) GasFastestStep 2 1);
  (SLT, instr (fun _ => opSlt) GasFastestStep 2 1);
  (SGT, instr (fun _ => opSgt) GasFastestStep 2 1);
  (EQ, instr (fun _ => opEq) GasFastestStep 2 1);
  (ISZERO, instr (fun _ => opIszero) GasFastestStep 1 1)].

Definition frontier_bits : list (Z * operation) := [
  (AND, instr (fun _ => opAnd) GasFastestStep 2 1);
  (XOR, instr (fun _ => opXor) GasFastestStep 2 1);
  (OR, instr (fun _ => opOr) GasFastestStep 2 1);
  (NOT, instr (fun _ => opNot) GasFastestStep 1 1);
  (BYTE, instr (fun _ => opByte) GasFastestStep 2 1);
  (SHA3, instr (fun _ => opSha3 env) Sha3Gas 2 1 |> charging gasSha3 |> sized memorySha3);
  (ADDRESS, instr (fun _ => opAddress) GasQuickStep 0 1);
  (BALANCE, instr (fun _ => opBalance) BalanceGasFrontier 1 1);
  (ORIGIN, instr (fun _ => opOrigin env) GasQuickStep 0 1);
  (CALLER, instr (fun _ => opCaller) GasQuickStep 0 1);
  (CALLVALUE, instr (fun _ => opCallValue) GasQuickStep 0 1);
  (CALLDATALOAD, instr (fun _ => opCallDataLoad) GasFastestStep 1 1);
  (CALLDATASIZE, instr (fun _ => opCallDataSize) GasQuickStep 0 1);
  (CALLDATACOPY, instr (fun _ => opCallDataCopy) GasFastestStep 3 0 |> charging gasCallDataCopy |> sized memoryCallDataCopy);
  (CODESIZE, instr (fun _ => opCodeSize) GasQuickStep 0 1);
  (CODECOPY, instr (fun _ => opCodeCopy) GasFastestStep 3 0 |> charging gasCodeCopy |> sized memoryCodeCopy);
  (GASPRICE, instr (fun _ => opGasprice env) GasQuickStep 0 1);
  (EXTCODESIZE, instr (fun _ => opExtCodeSize) ExtcodeSizeGasFrontier 1 1)].

Definition frontier_environment : list (Z * operation) := [
  (EXTCODECOPY, instr (fun _ => opExtCodeCopy) ExtcodeCopyBaseFrontier 4 0 |> charging gasExtCodeCopy |> sized memoryExtCodeCopy);
  (BLOCKHASH, instr (fun _ => opBlockhash env) GasExtStep 1 1);
  (COINBASE, instr (fun _ => opCoinbase env) GasQuickStep 0 1);
  (TIMESTAMP, instr (fun _ => opTimestamp env) GasQuickStep 0 1);
  (NUMBER, instr (fun _ => opNumber env) GasQuickStep 0 1);
  (DIFFICULTY, instr (fun _ => opDifficulty env) GasQuickStep 0 1);
  (GASLIMIT, instr (fun _ => opGasLimit env) GasQuickStep 0 1);
  (POP, instr (fun _ => opPop) GasQuickStep 1 0);
  (MLOAD, instr (fun _ => opMload) GasFastestStep 1 1 |> charging pureMemoryGascost |> sized memoryMLoad);
  (MSTORE, instr (fun _ => opMstore) GasFastestStep 2 0 |> charging pureMemoryGascost |> sized memoryMStore);
  (MSTORE8, instr (fun _ => opMstore8) GasFastestStep 2 0 |> charging pureMemoryGascost |> sized memoryMStore8);
  (SLOAD, instr (fun _ => opSload) SloadGasFrontier 1 1);
  (SSTORE, instr (fun _ => opSstore) 0 2 0 |> charging (gasSStore env) |> writing);
  (JUMP, instr (fun _ => opJump) GasMidStep 1 0 |> jumping);
  (JUMPI, instr (fun _ => opJumpi) GasSlowStep 2 0 |> jumping);
  (PC, instr (fun _ => opPc) GasQuickStep 0 1);
  (MSIZE, instr (fun _ => opMsize) GasQuickStep 0 1);
  (GAS, instr (fun _ => opGas) GasQuickStep 0 1);
  (JUMPDEST, instr (fun _ => opJumpdest) JumpdestGas 0 0)].

Definition frontier_ends : list (Z * operation) := [
  (LOG0, instr (fun _ => makeLog env 0) 0 2 0 |> charging (makeGasLog 0) |> sized memoryLog |> writing);
  (LOG1, instr (fun _ => makeLog env 1) 0 3 0 |> charging (makeGasLog 1) |> sized memoryLog |> writing);
  (LOG2, instr (fun _ => makeLog env 2) 0 4 0 |> charging (makeGasLog 2) |> sized memoryLog |> writing);
  (LOG3, instr (fun _ => makeLog env 3) 0 5 0 |> charging (makeGasLog 3) |> sized memoryLog |> writing);
  (LOG4, instr (fun _ => makeLog env 4) 0 6 0 |> charging (makeGasLog 4) |> sized memoryLog |> writing);
  (CREATE, instr (opCreate env) CreateGas 3 1 |> charging pureMemoryGascost |> sized memoryCreate |> writing |> returning);
  (CALL, instr (opCall env) CallGasFrontier 7 1 |> charging (gasCall env) |> sized memoryCall |> returning);
  (CALLCODE, instr (opCallCode env) CallGasFrontier 7 1 |> charging (gasCallCode env) |> sized memoryCall |> returning);
  (RETURN, instr (fun _ => opReturn) 0 2 0 |> charging pureMemoryGascost |> sized memoryReturn |> halting);
  (SELFDESTRUCT, instr (fun _ => opSuicide env) 0 1 0 |> charging (gasSelfdestruct env) |> halting |> writing);
  (L1BLOCKNUMBER, instr (fun _ => opL1BlockNumber env) GasQuickStep 0 1)].

Definition frontier_push_low : list (Z * operation) :=
  (PUSH1, instr (fun _ => opPush1) GasFastestStep 0 1) ::
  ((fun n => (PUSH1 + n - 1, instr (fun _ => makePush n n) GasFastestStep 0 1)) <$> seqZ 2 20).
Definition frontier_push_high : list (Z * operation) :=
  (fun n => (PUSH1 + n - 1, instr (fun _ => makePush n n) GasFastestStep 0 1)) <$> seqZ 22 11.
Definition frontier_dup : list (Z * operation) :=
  (fun n => (DUP1 + n - 1, instr (fun _ => makeDup (Z.to_nat n)) GasFastestStep n (n + 1))) <$> seqZ 1 16.
Definition frontier_swap : list (Z * operation) :=
  (fun n => (SWAP1 + n - 1, instr (fun _ => makeSwap (Z.to_nat n)) GasFastestStep (n + 1) (n + 1))) <$> seqZ 1 16.

Definition newFrontierInstructionSet : JumpTable :=
  list_to_map (frontier_arithmetic ++ frontier_bits ++ frontier_environment ++
               frontier_push_low ++ frontier_push_high ++ frontier_dup ++ frontier_swap ++ frontier_ends).

(** ** Later forks *)

(** Assigning to a field of an entry; the fields of an invalid entry are never read. *)
Definition set_constantGas (op gas : Z) (jt : JumpTable) : JumpTable := alter (costing gas) op jt.
Definition set_dynamicGas (op : Z) (g : Z -> M scope Z) (jt : JumpTable) : JumpTable := alter (charging g) op jt.

Definition newHomesteadInstructionSet : JumpTable :=
  <[DELEGATECALL := instr (opDelegateCall env) CallGasFrontier 6 1 |> charging (gasDelegateCall env) |> sized memoryDelegateCall |> returning]>
  newFrontierInstructionSet.

Definition newTangerineWhistleInstructionSet : JumpTable :=
  newHomesteadInstructionSet
  |> set_constantGas BALANCE BalanceGasEIP150
  |> set_constantGas EXTCODESIZE ExtcodeSizeGasEIP150
  |> set_constantGas SLOAD SloadGasEIP150
  |> set_constantGas EXTCODECOPY ExtcodeCopyBaseEIP150
  |> set_constantGas CALL CallGasEIP150
  |> set_constantGas CALLCODE CallGasEIP150
  |> set_constantGas DELEGATECALL CallGasEIP150.

Definition newSpuriousDragonInstructionSet : JumpTable :=
  newTangerineWhistleInstructionSet |> set_dynamicGas EXP gasExpEIP158.

Definition newByzantiumInstructionSet : JumpTable :=
  <[REVERT := instr (fun _ => opRevert) 0 2 0 |> charging pureMemoryGascost |> sized memoryRevert |> reverting |> returning]>
  (<[RETURNDATACOPY := instr (fun _ => opReturnDataCopy) GasFastestStep 3 0 |> charging gasReturnDataCopy |> sized memoryReturnDataCopy]>
  (<[RETURNDATASIZE := instr (fun _ => opReturnDataSize) GasQuickStep 0 1]>
  (<[STATICCALL := instr (opStaticCall env) CallGasEIP150 6 1 |> charging (gasStaticCall env) |> sized memoryStaticCall |> returning]>
  newSpuriousDragonInstructionSet))).

Definition newConstantinopleInstructionSet : JumpTable :=
  <[CREATE2 := instr (opCreate2 env) Create2Gas 4 1 |> charging gasCreate2 |> sized memoryCreate2 |> writing |> returning]>
  (<[EXTCODEHASH := instr (fun _ => opExtCodeHash) ExtcodeHashGasConstantinople 1 1]>
  (<[SAR := instr (fun _ => opSAR) GasFastestStep 2 1]>
  (<[SHR := instr (fun _ => opSHR) GasFastestStep 2 1]>
  (<[SHL := instr (fun _ => opSHL) GasFastestStep 2 1]>
  newByzantiumInstructionSet)))).

(** ** core/vm/eips.go *)

Definition enable1884 (jt : JumpTable) : JumpTable :=
  <[SELFBALANCE := instr (fun _ => opSelfBalance) GasFastStep 0 1]>
  (jt |> set_constantGas BALANCE BalanceGasEIP1884
      |> set_constantGas EXTCODEHASH ExtcodeHashGasEIP1884
      |> set_constantGas SLOAD SloadGasEIP1884).

Definition enable1344 (jt : JumpTable) : JumpTable :=
  <[CHAINID := instr (fun _ => opChainID env) GasQuickStep 0 1]> jt.

Definition enable2200 (jt : JumpTable) : JumpTable := jt |> set_dynamicGas SSTORE (gasSStoreEIP2200 env).

Definition enable2929 (jt : JumpTable) : JumpTable :=
  jt |> set_dynamicGas SSTORE (gasSStoreEIP2929 env)
  |> set_constantGas SLOAD 0 |> set_dynamicGas SLOAD gasSLoadEIP2929
  |> set_constantGas EXTCODECOPY WarmStorageReadCostEIP2929 |> set_dynamicGas EXTCODECOPY gasExtCodeCopyEIP2929
  |> set_constantGas EXTCODESIZE WarmStorageReadCostEIP2929 |> set_dynamicGas EXTCODESIZE gasEip2929AccountCheck
  |> set_constantGas EXTCODEHASH WarmStorageReadCostEIP2929 |> set_dynamicGas EXTCODEHASH gasEip2929AccountCheck
  |> set_constantGas BALANCE WarmStorageReadCostEIP2929 |> set_dynamicGas BALANCE gasEip2929AccountCheck
  |> set_constantGas CALL WarmStorageReadCostEIP2929 |> set_dynamicGas CALL (gasCallEIP2929 env)
  |> set_constantGas CALLCODE WarmStorageReadCostEIP2929 |> set_dynamicGas CALLCODE (gasCallCodeEIP2929 env)
  |> set_constantGas STATICCALL WarmStorageReadCostEIP2929 |> set_dynamicGas STATICCALL (gasStaticCallEIP2929 env)
  |> set_constantGas DELEGATECALL WarmStorageReadCostEIP2929 |> set_dynamicGas DELEGATECALL (gasDelegateCallEIP2929 env)
  |> set_constantGas SELFDESTRUCT SelfdestructGasEIP150 |> set_dynamicGas SELFDESTRUCT gasSelfdestructEIP2929.

Definition enable3529 (jt : JumpTable) : JumpTable :=
  jt |> set_dynamicGas SSTORE (gasSStoreEIP3529 env) |> set_dynamicGas SELFDESTRUCT gasSelfdestructEIP3529.

Definition enable3855 (jt : JumpTable) : JumpTable := <[PUSH0 := instr (fun _ => opPush0) GasQuickStep 0 1]> jt.

Definition enableMinimal2929 (jt : JumpTable) : JumpTable :=
  jt |> set_constantGas SLOAD 0 |> set_dynamicGas SLOAD gasSLoadEIP2929Optimism
  |> set_constantGas EXTCODECOPY WarmStorageReadCostEIP2929 |> set_dynamicGas EXTCODECOPY gasExtCodeCopyEIP2929Optimism
  |> set_constantGas EXTCODESIZE WarmStorageReadCostEIP2929 |> set_dynamicGas EXTCODESIZE gasEip2929AccountCheckOptimism
  |> set_constantGas EXTCODEHASH WarmStorageReadCostEIP2929 |> set_dynamicGas EXTCODEHASH gasEip2929AccountCheckOptimism
  |> set_constantGas BALANCE WarmStorageReadCostEIP2929 |> set_dynamicGas BALANCE gasEip2929AccountCheckOptimism
  |> set_constantGas CALL WarmStorageReadCostEIP2929 |> set_dynamicGas CALL (gasCallEIP2929Optimism env)
  |> set_constantGas CALLCODE WarmStorageReadCostEIP2929 |> set_dynamicGas CALLCODE (gasCallCodeEIP2929Optimism env)
  |> set_constantGas STATICCALL WarmStorageReadCostEIP2929 |> set_dynamicGas STATICCALL (gasStaticCallEIP2929Optimism env)
  |> set_constantGas DELEGATECALL WarmStorageReadCostEIP2929 |> set_dynamicGas DELEGATECALL (gasDelegateCallEIP2929Optimism env)
  |> set_constantGas SELFDESTRUCT SelfdestructGasEIP150 |> set_dynamicGas SELFDESTRUCT gasSelfdestructEIP2929Optimism.

Definition EnableEIP (eipNum : Z) (jt : JumpTable) : goerror + JumpTable :=
  if eipNum =? 2200 then inr (enable2200 jt)
  else if eipNum =? 1884 then inr (enable1884 jt)
  else if eipNum =? 1344 then inr (enable1344 jt)
  else inl (ErrNew "undefined eip").

Definition newIstanbulInstructionSet : JumpTable :=
  newConstantinopleInstructionSet |> enable1344 |> enable1884 |> enable2200.
Definition newBerlinInstructionSet : JumpTable := newIstanbulInstructionSet |> enable2929 |> enable3529.
Definition newShanghaiInstructionSet : JumpTable := newBerlinInstructionSet |> enable3855.

(** The loop of [NewEVMInterpreter] over the extra EIPs.  It ranges over the array
    of [n] elements it started with; removing the failed element [i] from the slice,
    [k] long by now, moves the elements behind it forward in that same array. *)
Fixpoint enable_extra (n i : nat) (arr : list Z) (k : nat) (jt : JumpTable) : outcome JumpTable :=
  match n with
  | O => Ok jt
  | Datatypes.S n' =>
      match EnableEIP (nth i arr 0) jt with
      | inr jt => enable_extra n' (i + 1) arr k jt
      | inl _ =>
          if (k <? i + 1)%nat then Panic "slice bounds out of range"
          else enable_extra n' (i + 1) (take i arr ++ drop (i + 1) (take k arr) ++ drop (k - 1) arr) (k - 1) jt
      end
  end.

(** The choice of [NewEVMInterpreter], for a configuration without a table of its own. *)
Definition fork_instructionSet : JumpTable :=
  let rules := chainRules env in
  if r_IsShanghai rules then newShanghaiInstructionSet
  else if r_IsBerlin rules then newBerlinInstructionSet
  else if r_IsIstanbul rules then
    if UsingOVM env then enableMinimal2929 newIstanbulInstructionSet else newIstanbulInstructionSet
  else if r_IsConstantinople rules then newConstantinopleInstructionSet
  else if r_IsByzantium rules then newByzantiumInstructionSet
  else if r_IsEIP158 rules then newSpuriousDragonInstructionSet
  else if r_IsEIP150 rules then newTangerineWhistleInstructionSet
  else if r_IsHomestead rules then newHomesteadInstructionSet
  else newFrontierInstructionSet.
Definition instructionSet : outcome JumpTable :=
  let eips := ExtraEips (vmConfig env) in
  enable_extra (length eips) 0 eips (length eips) fork_instructionSet.
End table.
