(* ===== verification/VMRun.v ===== *)
(** The interpreter loop (core/vm/interpreter.go) and the machine put together.

    The loop runs on fuel: a round of the loop, and entering a nested call, takes one
    unit.  Every round that does not end the frame uses gas, and a nested call gets
    less gas than its caller had, so fuel beyond the gas is enough.  Tracing, which
    only observes, is left out; the numbers in the texts of two errors as well. *)
From stdpp Require Import prelude gmap list strings.
From Stdlib Require Import ZArith Lia.
From S2P Require Import Prelude Params VarBytes RLP Crypto StateData VMWord VMAnalysis VMState VMPrecompiles VMGas VMCall VMOps VMTable.
Local Open Scope Z_scope.

Section run.
Context {crypto : Crypto} {natives : Natives} {S : Type} {database : Database S} (env : Env).
Local Abbreviation scope := (scope S).
Local Abbreviation EVM := (EVM S).
Local Abbreviation rules := (chainRules env).
Local Abbreviation runner := (Contract -> slice -> bool -> M EVM (slice * option goerror * Contract)) (only parsing).
Context (jt : gmap Z (operation (S:=S))).

(** [atomic.LoadInt32(&in.evm.abort)]: whether [Cancel] has taken effect. *)
Definition poll_abort : M scope bool :=
  a ← gets (fun s => evm_abort (sc_evm s));
  match a with
  | None => ret false
  | Some O => ret true
  | Some (Datatypes.S n) => modS (fun s => set_evm (set_abort (Some n) (sc_evm s)) s) ;; ret false
  end.

(** Whether the write protection forbids the operation. *)
Definition write_protected (op : Z) (o : operation (S:=S)) : M scope bool :=
  readOnly ← gets (fun s => evm_readOnly (sc_evm s));
  if readOnly && r_IsByzantium rules then
    if writes o then ret true
    else if op =? CALL then value ← back 2; ret (negb (value =? 0))
    else ret false
  else ret false.

(** The memory size an operation asks for, in bytes of whole words. *)
Definition required_memory (o : operation (S:=S)) : M scope Z :=
  match memorySize o with
  | None => ret 0
  | Some f =>
      st ← gets sc_stack;
      '(memSize, overflow) ← lift_out (f st);
      if overflow : bool then throw errGasUintOverflow else
      let '(size, overflow) := SafeMul (toWordSize memSize) 32 in
      if overflow : bool then throw errGasUintOverflow else ret size
  end.

Definition charge_dynamic (o : operation (S:=S)) (memorySize : Z) : M scope unit :=
  match dynamicGas o with
  | None => ret tt
  | Some g =>
      cost ← attempt (g memorySize);
      match cost with
      | inl _ => throw ErrOutOfGas
      | inr cost => paid ← use_gas cost; if negb paid then throw ErrOutOfGas else ret tt
      end
  end.

(** One round: nothing when the loop goes on, else what [Run] returns. *)
Definition step (Run : runner) : M scope (option (slice * option goerror)) :=
  s ← getS;
  let op := GetOp (sc_pc s) (sc_contract s) in
  match jt !! op with
  | None => throw (ErrNew "invalid opcode")
  | Some o =>
      if negb (valid o) then throw (ErrNew "invalid opcode") else
      let sLen := Z.of_nat (length (sc_stack s)) in
      if sLen <? op_minStack o then throw (ErrNew "stack underflow") else
      if op_maxStack o <? sLen then throw (ErrNew "stack limit reached") else
      protected ← write_protected op o;
      if protected : bool then throw errWriteProtection else
      paid ← use_gas (constantGas o);
      if negb paid then throw ErrOutOfGas else
      memorySize ← required_memory o;
      charge_dynamic o memorySize ;;
      when (0 <? memorySize) (modS (fun s => set_memory (mem_Resize memorySize (sc_memory s)) s)) ;;
      res ← attempt (execute o Run);
      when (returns o) (modS (fun s => set_evm (set_returnData (match res with inl _ => None | inr r => r end) (sc_evm s)) s)) ;;
      match res with
      | inl err => throw err
      | inr res =>
          if reverts o then ret (Some (res, Some errExecutionReverted))
          else if halts o then ret (Some (res, None))
          else when (negb (jumps o)) (modS (fun s => set_pc (u64 (sc_pc s + 1)) s)) ;; ret None
      end
  end.

(** [Run] around its loop: depth, write protection and return data, which the
    deferred functions put back. *)
Definition run_frame (loop : M scope (slice * option goerror)) : runner := fun contract input readOnly e =>
  let protect := readOnly && negb (evm_readOnly e) in
  let e1 := set_returnData None (set_readOnly (protect || evm_readOnly e) (set_depth (evm_depth e + 1) e)) in
  let leave e2 := set_readOnly (if protect then false else evm_readOnly e2) (set_depth (evm_depth e2 - 1) e2) in
  if (length (Code contract) =? 0)%nat then (Ok (None, None, contract), leave e1)
  else
    let '(o, s) := loop (mkScope e1 (set_Input input contract) NewMemory [] 0) in
    (match o with
     | Ok (r, err) => Ok (r, err, sc_contract s)
     | Err err => Ok (None, Some err, sc_contract s)
     | Panic w => Panic w
     | Blocked => Blocked
     end, leave (sc_evm s)).

Fixpoint loop (fuel : nat) : M scope (slice * option goerror) :=
  aborted ← poll_abort;
  if aborted : bool then ret (None, None) else
  match fuel with
  | O => blocked
  | Datatypes.S f =>
      r ← step (run_frame (loop f));
      match r with
      | Some x => ret x
      | None => loop f
      end
  end.

Definition Run (fuel : nat) : runner := run_frame (loop fuel).
End run.

(** [NewEVM]: the machine a transaction starts with, and its instruction table. *)
Definition NewEVM {crypto : Crypto} {natives : Natives} {S} {database : Database S} (env : Env) (statedb : S) (abort : option nat) :
  outcome (EVM S * gmap Z (operation (S:=S))) :=
  if IsEWASM (chainConfig env) (Some (BlockNumber (context env))) then Panic "No supported ewasm interpreter yet."
  else (jt ← instructionSet env; Ok (mkEVM statedb 0 false None 0 ∅ abort, jt))%stdpp.
