(* ===== verification/VMDatabase.v ===== *)
(** The state database as the database of the virtual machine: core/state/statedb.go
    implements the interface of core/vm/interface.go. *)
From stdpp Require Import prelude gmap list strings.
From Stdlib Require Import ZArith Lia.
From S2P Require Import Prelude Params VarBytes RLP RLPStream RLPDecode RLPTyped Crypto AccessList StateData State VMWord VMAnalysis VMState.
Local Open Scope Z_scope.

Section instance.
Context {T D : Type} {backend : Backend T D} {crypto : Crypto} (ovm : bool).
Local Abbreviation StateDB := (StateDB T D).

Definition state_call {A} (c : method A) : M StateDB A :=
  match c in method B return M StateDB B with
  | CreateAccount a => State.CreateAccount a
  | SubBalance a v => State.SubBalance ovm a v
  | AddBalance a v => State.AddBalance ovm a v
  | GetBalance a => State.GetBalance ovm a
  | GetNonce a => State.GetNonce a
  | SetNonce a n => State.SetNonce a n
  | GetCodeHash a => State.GetCodeHash a
  | GetCode a => State.GetCode a
  | SetCode a c => State.SetCode a c
  | GetCodeSize a => State.GetCodeSize a
  | AddRefund g => State.AddRefund g
  | SubRefund g => State.SubRefund g
  | GetRefund => State.GetRefund
  | GetCommittedState a k => State.GetCommittedState a k
  | GetState a k => State.GetState a k
  | SetState a k v => State.SetState a k v
  | Suicide a => State.Suicide a
  | HasSuicided a => State.HasSuicided a
  | Exist a => State.Exist a
  | Empty a => State.Empty a
  | PrepareAccessList sender dst pre l => State.PrepareAccessList sender dst pre l
  | AddressInAccessList a => State.AddressInAccessList a
  | SlotInAccessList a k => State.SlotInAccessList a k
  | AddAddressToAccessList a => State.AddAddressToAccessList a
  | AddSlotToAccessList a k => State.AddSlotToAccessList a k
  | RevertToSnapshot id => State.RevertToSnapshot id
  | Snapshot => State.Snapshot
  | AddLog l => State.AddLog l
  | AddPreimage h b => State.AddPreimage h b
  end.

Definition state_database : Database StateDB := fun A c => state_call c.
End instance.
