(* ===== verification/VMLaws.v ===== *)
(** What the virtual machine relies on, and what it promises to keep.

    [DatabaseLaws] is the contract between the machine and its database: methods
    return or panic, keep the open snapshots, reads give values in range, and
    reverting to an open snapshot leads to an equivalent state.  The theorems on the
    machine are proved against these laws. *)
From stdpp Require Import prelude gmap list strings.
From Stdlib Require Import ZArith Lia.
From S2P Require Import Prelude Params VarBytes RLP Crypto StateData VMWord VMWordFacts VMAnalysis VMState.
Local Open Scope Z_scope.

(** A byte slice short enough that sums of lengths and word sizes fit an integer. *)
Definition slice_ok (s : slice) : Prop := slice_len s < 2 ^ 62.

(** What the machine passes to a method. *)
Definition args_ok {A} (c : method A) : Prop :=
  match c with
  | SetCode _ code => slice_ok code
  | SetState _ k v => wf_hash k /\ wf_hash v
  | SetNonce _ n => in_u64 n
  | SubRefund g => 0 <= g
  | _ => True
  end.

(** What a method gives back. *)
Definition result_ok {A} (c : method A) : A -> Prop :=
  match c in method B return B -> Prop with
  | GetBalance _ => in_word
  | GetNonce _ => in_u64
  | GetRefund => in_u64
  | GetCode _ => slice_ok
  | GetCodeHash _ | GetState _ _ | GetCommittedState _ _ => wf_hash
  | _ => fun _ => True
  end.

(** The methods that are not about snapshots. *)
Definition plain {A} (c : method A) : bool :=
  match c with RevertToSnapshot _ | Snapshot => false | _ => true end.

(** The methods that only look. *)
Definition reading {A} (c : method A) : bool :=
  match c with
  | GetBalance _ | GetNonce _ | GetCodeHash _ | GetCode _ | GetCodeSize _ | GetRefund | GetCommittedState _ _
  | GetState _ _ | HasSuicided _ | Exist _ | Empty _ | AddressInAccessList _ | SlotInAccessList _ _ => true
  | _ => false
  end.

(** The methods a frame under write protection may call: reads, access lists,
    preimages, and balance changes by nothing. *)
Definition quiet {A} (c : method A) : bool :=
  match c with
  | AddAddressToAccessList _ | AddSlotToAccessList _ _ | AddPreimage _ _ => true
  | SubBalance _ v | AddBalance _ v => v =? 0
  | _ => reading c
  end.

Class DatabaseLaws (S : Type) {database : Database S} {crypto : Crypto} := {
  (** [db_open s gl]: [s] is a reachable state whose open snapshots are [gl], oldest
      first, each with the state it was taken in. *)
  db_open : S -> list (Z * S) -> Prop;
  db_equiv : S -> S -> Prop;
  db_panics : string -> Prop;
  db_plain : forall A (c : method A) s gl o s', db_open s gl -> plain c = true -> args_ok c -> call c s = (o, s') ->
    match o with
    | Ok a => db_open s' gl /\ result_ok c a
    | Panic w => db_panics w
    | Err _ | Blocked => False
    end;
  db_Snapshot : forall s gl, db_open s gl -> exists id s', call Snapshot s = (Ok id, s') /\ db_open s' (gl ++ [(id, s)]);
  db_Revert : forall s gl id sv rest, db_open s (gl ++ (id, sv) :: rest) ->
    exists s', call (RevertToSnapshot id) s = (Ok tt, s') /\ db_open s' gl /\ db_equiv s' sv;
  db_read : forall A (c : method A) s gl a s', db_open s gl -> reading c = true -> call c s = (Ok a, s') -> db_equiv s' s;
  db_equiv_refl : forall s, db_equiv s s;
  db_equiv_trans : forall s1 s2 s3, db_equiv s1 s2 -> db_equiv s2 s3 -> db_equiv s1 s3;
  db_code : forall a s gl h s1 code s2, db_open s gl -> call (GetCodeHash a) s = (Ok h, s1) -> call (GetCode a) s1 = (Ok code, s2) ->
    slice_bytes code = [] \/ h = 0 \/ h = Keccak256Hash (slice_bytes code);
  db_refund : forall s gl g s', db_open s gl -> call GetRefund s = (Ok g, s') -> s' = s }.

Section laws.
Context {S : Type} {database : Database S} {crypto : Crypto} {laws : DatabaseLaws S}.

Definition db_ok (s : S) : Prop := exists gl, db_open s gl.

(** [kept s s']: every snapshot open in [s] is still open in [s']. *)
Definition kept (s s' : S) : Prop := forall gl, db_open s gl -> exists gl2, db_open s' (gl ++ gl2).

Lemma kept_refl s : kept s s.
Proof. intros gl H. exists []. by rewrite app_nil_r. Qed.

Lemma kept_trans s1 s2 s3 : kept s1 s2 -> kept s2 s3 -> kept s1 s3.
Proof.
  intros H12 H23 gl H. destruct (H12 gl H) as (g2 & H2). destruct (H23 _ H2) as (g3 & H3).
  exists (g2 ++ g3). by rewrite app_assoc.
Qed.

Lemma kept_ok s s' : db_ok s -> kept s s' -> db_ok s'.
Proof. intros (gl & H) K. destruct (K gl H) as (g2 & H2). by eexists. Qed.

Lemma plain_kept {A} (c : method A) s a s' : plain c = true -> args_ok c -> call c s = (Ok a, s') -> kept s s'.
Proof.
  intros Hp Ha Hc gl H. exists []. rewrite app_nil_r. exact (proj1 (db_plain _ c s gl _ s' H Hp Ha Hc)).
Qed.

(** Undoing what was done since a snapshot. *)
Lemma snapshot_block s id s1 s2 : db_ok s -> call Snapshot s = (Ok id, s1) -> kept s1 s2 ->
  exists s3, call (RevertToSnapshot id) s2 = (Ok tt, s3) /\ kept s s3 /\ db_equiv s3 s.
Proof.
  intros (gl0 & H0) Hs K.
  assert (Hrev : forall gl, db_open s gl -> exists s3, call (RevertToSnapshot id) s2 = (Ok tt, s3) /\ db_open s3 gl /\ db_equiv s3 s).
  { intros gl H. destruct (db_Snapshot s gl H) as (id' & s1' & E & Hop). rewrite Hs in E. injection E as <- <-.
    destruct (K _ Hop) as (g2 & H2). rewrite <- app_assoc in H2. cbn [app] in H2. exact (db_Revert _ _ _ _ _ H2). }
  destruct (Hrev gl0 H0) as (s3 & E3 & _ & Heq). exists s3. split; [done|]. split; [|done].
  intros gl H. destruct (Hrev gl H) as (s3' & E3' & Hop & _). rewrite E3 in E3'. injection E3' as <-.
  exists []. by rewrite app_nil_r.
Qed.
End laws.
