(* ===== verification/VMFrame.v ===== *)
(** The invariant of the machine and rules to run instructions symbolically.

    [at_ s0 v s]: since [s0] the machine has only made allowed changes, and of the
    frame [s] the stack, memory, gas, passed gas and program counter are those of the
    view [v].  [wp] runs a computation: it must return with the postcondition, fail
    with [E], or panic for a reason listed in [panic_ok]; it never blocks. *)
From stdpp Require Import prelude gmap list strings.
From Stdlib Require Import ZArith Lia.
From S2P Require Import Prelude Params VarBytes RLP Crypto StateData VMWord VMWordFacts VMAnalysis VMState VMLaws.
Local Open Scope Z_scope.

(** The gas a machine is started with: beyond it the sizes given to the precompiled
    exponentiation can overflow. *)
Definition gas_limit : Z := 2 ^ 62.

Definition sstore_canary : string := "impossible case: address was not present in access list during sstore op".

(** The fee for a memory of [n] bytes. *)
Definition memory_fee (n : Z) : Z := let w := n / 32 in w * 3 + w * w / 512.

Definition max_memory : Z := 0x1FFFFFFFE0.

Record mem_ok (m : Memory) : Prop := {
  mo_words : mem_Len m mod 32 = 0;
  mo_max : mem_Len m <= max_memory;
  mo_paid : mem_lastGasCost m = memory_fee (mem_Len m) }.

(** What the code relies on in its configuration. *)
Record env_ok (env : Env) : Prop := {
  eo_ChainID : exists id, ChainID (chainConfig env) = Some id /\ in_word id;
  eo_L1 : is_Some (L1BlockNumber (context env));
  eo_GasPrice : in_word (GasPrice (context env));
  eo_150 : r_IsBerlin (chainRules env) || r_IsShanghai (chainRules env) || r_IsIstanbul (chainRules env) = true ->
    r_IsEIP150 (chainRules env) = true;
  eo_158 : r_IsByzantium (chainRules env) = true -> r_IsEIP158 (chainRules env) = true;
  eo_encode : forall e b, EncodeSolidityError env e = inr b -> slice_ok (Some b) }.

Section frame.
Context {S : Type} {database : Database S} {crypto : Crypto} {laws : DatabaseLaws S}.
Local Abbreviation EVM := (EVM S).
Local Abbreviation scope := (scope S).

(** The mode: [Q] relates the states before and after; in a write protected machine
    only quiet methods are called, otherwise all of them keep [Q]. *)
Context (ro : bool) (Q : S -> S -> Prop).

Record mode_ok : Prop := {
  Q_refl : forall s, Q s s;
  Q_trans : forall s1 s2 s3, Q s1 s2 -> Q s2 s3 -> Q s1 s3;
  Q_equiv : forall s s', db_equiv s' s -> Q s s';
  Q_write : ro = false -> forall A (c : method A) s a s', db_ok s -> plain c = true -> args_ok c -> call c s = (Ok a, s') -> Q s s';
  Q_quiet : forall A (c : method A) s a s', db_ok s -> quiet c = true -> call c s = (Ok a, s') -> Q s s';
  Q_snapshot : forall s id s', db_ok s -> call Snapshot s = (Ok id, s') -> Q s s';
  Q_create : forall a s s1 s2, db_ok s -> call (Exist a) s = (Ok false, s1) -> call (CreateAccount a) s1 = (Ok tt, s2) -> Q s s2 }.
Context (mode : mode_ok).

Definition allowed {A} (c : method A) : Prop := ro = true -> quiet c = true.

Definition moves (s s' : S) : Prop := kept s s' /\ Q s s'.

Lemma moves_refl s : moves s s.
Proof. split; [apply kept_refl|apply mode]. Qed.
Lemma moves_trans s1 s2 s3 : moves s1 s2 -> moves s2 s3 -> moves s1 s3.
Proof. intros [K1 Q1] [K2 Q2]. split; [by eapply kept_trans|by eapply (Q_trans mode)]. Qed.

(** Cached analyses belong to a code with the hash they are cached under. *)
Definition jumpdests_ok (m : gmap hash bitvec) : Prop :=
  forall h bits, m !! h = Some bits ->
    exists code, Keccak256Hash code = h /\ Z.of_nat (length code) < 2 ^ 63 /\ codeBitmap code = Ok bits.

Record evm_ok (e : EVM) : Prop := {
  ev_db : db_ok (evm_db e);
  ev_jumpdests : jumpdests_ok (evm_jumpdests e);
  ev_returnData : slice_ok (evm_returnData e);
  ev_temp : 0 <= evm_callGasTemp e }.

(** Two codes with one hash have been given to the machine. *)
Definition clash (e : EVM) : Prop :=
  exists code code' bits, code <> code' /\ Keccak256Hash code = Keccak256Hash code' /\
    evm_jumpdests e !! Keccak256Hash code = Some bits /\ codeBitmap code' = Ok bits.

Definition panic_ok (w : string) (e : EVM) : Prop := db_panics w \/ w = sstore_canary \/ clash e.

(** ** The machine *)

(** From [e0] to [e], between two points of one frame. *)
Record esince (e0 e : EVM) : Prop := {
  es_db : moves (evm_db e0) (evm_db e);
  es_depth : evm_depth e = evm_depth e0;
  es_readOnly : evm_readOnly e = evm_readOnly e0 }.

Lemma esince_refl e : esince e e.
Proof. split; [apply moves_refl|done|done]. Qed.
Lemma esince_trans e1 e2 e3 : esince e1 e2 -> esince e2 e3 -> esince e1 e3.
Proof.
  intros [D1 P1 R1] [D2 P2 R2]. split; [by eapply moves_trans|congruence|congruence].
Qed.

Definition wpe {A} (m : M EVM A) (e : EVM) (P : A -> EVM -> Prop) : Prop :=
  match m e with
  | (Ok a, e') => P a e'
  | (Panic w, e') => panic_ok w e'
  | (Err _, _) | (Blocked, _) => False
  end.

Definition eat (e0 e : EVM) : Prop := evm_ok e /\ esince e0 e.

Lemma eat_trans e0 e e' : eat e0 e -> eat e e' -> eat e0 e'.
Proof. intros [_ H1] [H2 H3]. split; [done|by eapply esince_trans]. Qed.

Lemma wpe_bind {A B} (m : M EVM A) (f : A -> M EVM B) e P :
  wpe m e (fun a e' => wpe (f a) e' P) -> wpe (bindM m f) e P.
Proof. unfold wpe, bindM. by destruct (m e) as [[a|x|w|] e']. Qed.
Lemma wpe_ret {A} (a : A) e (P : A -> EVM -> Prop) : P a e -> wpe (ret a) e P.
Proof. done. Qed.
Lemma wpe_gets {A} (f : EVM -> A) e (P : A -> EVM -> Prop) : P (f e) e -> wpe (gets f) e P.
Proof. done. Qed.
Lemma wpe_mono {A} (m : M EVM A) e (P P' : A -> EVM -> Prop) :
  wpe m e P -> (forall a e', P a e' -> P' a e') -> wpe m e P'.
Proof. unfold wpe. destruct (m e) as [[a|x|w|] e']; eauto. Qed.
Lemma wpe_when b (m : M EVM unit) e (P : unit -> EVM -> Prop) :
  (b = true -> wpe m e P) -> (b = false -> P tt e) -> wpe (when b m) e P.
Proof. destruct b; [by intros H _; apply H|by intros _ H; apply H]. Qed.

Lemma eat_set_db e0 e d : eat e0 e -> moves (evm_db e) d -> eat e0 (set_db d e).
Proof.
  intros [[D J R T] [ED ER EDp]] M. split; split; cbn; try done.
  - eapply kept_ok; [exact D|apply M].
  - by eapply moves_trans.
Qed.

(** A method that is not about snapshots. *)
Lemma wpe_db {A} (c : method A) e0 e (P : A -> EVM -> Prop) : eat e0 e -> plain c = true -> args_ok c -> allowed c ->
  (forall a e', result_ok c a -> eat e0 e' -> P a e') -> wpe (db c) e P.
Proof.
  intros He Hp Ha Hal HP. unfold wpe, db, on_db. destruct (call c (evm_db e)) as [o d] eqn:E.
  pose proof He as [[(gl & Hd) _ _ _] _]. pose proof (db_plain _ c _ gl _ _ Hd Hp Ha E) as Hl. destruct o as [a|x|w|]; try done; [|by left].
  apply HP; [apply Hl|]. apply eat_set_db; [done|]. split.
  - by eapply plain_kept.
  - destruct ro eqn:Ero; [eapply (Q_quiet mode); [by eexists|by apply Hal|exact E]|eapply (Q_write mode); [done|by eexists|done|done|exact E]].
Qed.

(** ** Frames *)

Record view := mkView { v_stk : list Z; v_mem : Memory; v_gas : Z; v_temp : Z; v_pc : Z }.
Definition view_of (s : scope) : view :=
  mkView (sc_stack s) (sc_memory s) (Gas (sc_contract s)) (evm_callGasTemp (sc_evm s)) (sc_pc s).

Definition with_stk (st : list Z) (v : view) : view := mkView st (v_mem v) (v_gas v) (v_temp v) (v_pc v).
Definition with_mem (m : Memory) (v : view) : view := mkView (v_stk v) m (v_gas v) (v_temp v) (v_pc v).
Definition with_gas (g : Z) (v : view) : view := mkView (v_stk v) (v_mem v) g (v_temp v) (v_pc v).
Definition with_temp (t : Z) (v : view) : view := mkView (v_stk v) (v_mem v) (v_gas v) t (v_pc v).
Definition with_pc (p : Z) (v : view) : view := mkView (v_stk v) (v_mem v) (v_gas v) (v_temp v) p.

(** What a frame is started with and keeps. *)
Record contract_ok (c : Contract) : Prop := {
  co_Code : Z.of_nat (length (Code c)) < 2 ^ 63;
  co_Input : slice_ok (Input c);
  co_value : exists x, c_value c = Some x /\ in_word x;
  co_hash : Code c = [] \/ CodeHash c = 0 \/ CodeHash c = Keccak256Hash (Code c);
  co_analysis : forall bits, c_analysis c = Some bits -> codeBitmap (Code c) = Ok bits }.

(** The fields of a contract that no instruction changes. *)
Record same_contract (c0 c : Contract) : Prop := {
  sm_Code : Code c = Code c0; sm_hash : CodeHash c = CodeHash c0; sm_Input : Input c = Input c0;
  sm_value : c_value c = c_value c0; sm_self : c_self c = c_self c0; sm_caller : CallerAddress c = CallerAddress c0 }.

Record at_ (s0 : scope) (v : view) (s : scope) : Prop := {
  at_evm : eat (sc_evm s0) (sc_evm s);
  at_contract : contract_ok (sc_contract s);
  at_same : same_contract (sc_contract s0) (sc_contract s);
  at_words : Forall in_word (v_stk v);
  at_view : view_of s = v }.

Lemma at_temp s0 v s : at_ s0 v s -> 0 <= v_temp v.
Proof. intros [[He _] _ _ _ <-]. apply He. Qed.

Definition wp {A} (E : scope -> Prop) (m : M scope A) (s : scope) (P : A -> scope -> Prop) : Prop :=
  match m s with
  | (Ok a, s') => P a s'
  | (Err _, s') => E s'
  | (Panic w, s') => panic_ok w (sc_evm s')
  | (Blocked, _) => False
  end.

Section rules.
Context (E : scope -> Prop).

Lemma wp_bind {A B} (m : M scope A) (f : A -> M scope B) s P :
  wp E m s (fun a s' => wp E (f a) s' P) -> wp E (bindM m f) s P.
Proof. unfold wp, bindM. by destruct (m s) as [[a|x|w|] s']. Qed.
Lemma wp_ret {A} (a : A) s (P : A -> scope -> Prop) : P a s -> wp E (ret a) s P.
Proof. done. Qed.
Lemma wp_throw {A} e s (P : A -> scope -> Prop) : E s -> wp E (throw e) s P.
Proof. done. Qed.
Lemma wp_getS s (P : scope -> scope -> Prop) : P s s -> wp E getS s P.
Proof. done. Qed.
Lemma wp_gets {A} (f : scope -> A) s (P : A -> scope -> Prop) : P (f s) s -> wp E (gets f) s P.
Proof. done. Qed.
Lemma wp_modS f s (P : unit -> scope -> Prop) : P tt (f s) -> wp E (modS f) s P.
Proof. done. Qed.
Lemma wp_lift {A} (a : A) o s (P : A -> scope -> Prop) : o = Ok a -> P a s -> wp E (lift_out o) s P.
Proof. by intros ->. Qed.
Lemma wp_when b (m : M scope unit) s (P : unit -> scope -> Prop) :
  (b = true -> wp E m s P) -> (b = false -> P tt s) -> wp E (when b m) s P.
Proof. destruct b; [by intros H _; apply H|by intros _ H; apply H]. Qed.
Lemma wp_mono {A} (m : M scope A) s (P P' : A -> scope -> Prop) :
  wp E m s P -> (forall a s', P a s' -> P' a s') -> wp E m s P'.
Proof. unfold wp. destruct (m s) as [[a|x|w|] s']; eauto. Qed.

Context (s0 : scope).

Lemma wp_pop x st v s (P : Z -> scope -> Prop) : at_ s0 v s -> v_stk v = x :: st ->
  (in_word x -> forall s', at_ s0 (with_stk st v) s' -> P x s') -> wp E pop s P.
Proof.
  intros [He Hc Hm Hw Hv] Hst HP. subst v. cbn in Hst. unfold wp, pop, gets, bindM, lift_out. rewrite Hst. cbn.
  cbn [view_of v_stk] in Hw. rewrite Hst in Hw. apply Forall_cons in Hw as [Hx Hrest].
  apply HP; [done|]. split; try done.
Qed.

Lemma wp_push x v s (P : unit -> scope -> Prop) : at_ s0 v s -> in_word x ->
  (forall s', at_ s0 (with_stk (x :: v_stk v) v) s' -> P tt s') -> wp E (push x) s P.
Proof.
  intros [He Hc Hm Hw Hv] Hx HP. unfold wp, push, modS. apply HP. subst v. split; try done. cbn. by constructor.
Qed.

Lemma wp_back n x v s (P : Z -> scope -> Prop) : at_ s0 v s -> v_stk v !! n = Some x ->
  (in_word x -> P x s) -> wp E (back n) s P.
Proof.
  intros [He Hc Hm Hw Hv] Hst HP. subst v. cbn in Hst, Hw. unfold wp, back, gets, bindM, lift_out, stack_Back. rewrite Hst.
  apply HP. by eapply Forall_lookup_1 in Hst.
Qed.

Lemma wp_peek x st v s (P : Z -> scope -> Prop) : at_ s0 v s -> v_stk v = x :: st ->
  (in_word x -> P x s) -> wp E peek s P.
Proof. intros Ha Hst. apply (wp_back 0 x v); [done|]. by rewrite Hst. Qed.

Lemma wp_poke y x st v s (P : unit -> scope -> Prop) : at_ s0 v s -> v_stk v = x :: st -> in_word y ->
  (forall s', at_ s0 (with_stk (y :: st) v) s' -> P tt s') -> wp E (poke y) s P.
Proof.
  intros Ha Hst Hy HP. unfold poke. apply wp_bind. eapply (wp_pop x st v); [done|done|]. intros _ s1 H1.
  apply (wp_push y _ _ _ H1 Hy). intros s2 H2. by apply HP.
Qed.

Lemma at_set_db v s d : at_ s0 v s -> moves (evm_db (sc_evm s)) d -> at_ s0 v (set_evm (set_db d (sc_evm s)) s).
Proof. intros [He Hc Hm Hw Hv] HM. split; try done. by apply eat_set_db. Qed.

Lemma wp_sdb {A} (c : method A) v s (P : A -> scope -> Prop) : at_ s0 v s -> plain c = true -> args_ok c -> allowed c ->
  (forall a s', result_ok c a -> at_ s0 v s' -> P a s') -> wp E (sdb c) s P.
Proof.
  intros Hat Hp Ha Hal HP. pose proof Hat as [He Hc Hm Hw Hv].
  pose proof (wpe_db c (sc_evm s) (sc_evm s) (fun a e' => result_ok c a /\ eat (sc_evm s) e' /\ e' = set_db (evm_db e') (sc_evm s))) as Hwp.
  unfold wp, sdb, on_evm, db, on_db, wpe in *. destruct (call c (evm_db (sc_evm s))) as [o d] eqn:Ec.
  pose proof He as [[(gl & Hd) _ _ _] _]. pose proof (db_plain _ c _ gl _ _ Hd Hp Ha Ec) as Hl.
  destruct o as [a|x|w|]; try done; [|by left].
  apply HP; [apply Hl|]. apply at_set_db; [done|]. split; [by eapply plain_kept|].
  destruct ro eqn:Ero; [eapply (Q_quiet mode); [by eexists|by apply Hal|exact Ec]|eapply (Q_write mode); [done|by eexists|done|done|exact Ec]].
Qed.

(** Reading a field of the contract that stays. *)
Lemma at_self v s : at_ s0 v s -> c_self (sc_contract s) = c_self (sc_contract s0).
Proof. intros H. apply (sm_self _ _ (at_same _ _ _ H)). Qed.

Lemma wp_self v s (P : address -> scope -> Prop) : at_ s0 v s -> P (c_self (sc_contract s0)) s -> wp E self s P.
Proof. intros Ha HP. unfold self. apply wp_gets. by rewrite (at_self _ _ Ha). Qed.

Lemma wp_memory v s (P : Memory -> scope -> Prop) : at_ s0 v s -> P (v_mem v) s -> wp E (gets sc_memory) s P.
Proof. intros [_ _ _ _ <-] HP. by apply wp_gets. Qed.

Lemma wp_stack v s (P : list Z -> scope -> Prop) : at_ s0 v s -> P (v_stk v) s -> wp E (gets sc_stack) s P.
Proof. intros [_ _ _ _ <-] HP. by apply wp_gets. Qed.

Lemma wp_set_memory m v s (P : unit -> scope -> Prop) : at_ s0 v s ->
  (forall s', at_ s0 (with_mem m v) s' -> P tt s') -> wp E (modS (set_memory m)) s P.
Proof. intros [He Hc Hm Hw Hv] HP. apply wp_modS, HP. subst v. by split. Qed.

Lemma wp_set_stack st v s (P : unit -> scope -> Prop) : at_ s0 v s -> Forall in_word st ->
  (forall s', at_ s0 (with_stk st v) s' -> P tt s') -> wp E (modS (set_stack st)) s P.
Proof. intros [He Hc Hm Hw Hv] Hst HP. apply wp_modS, HP. subst v. by split. Qed.

Lemma wp_set_pc p v s (P : unit -> scope -> Prop) : at_ s0 v s ->
  (forall s', at_ s0 (with_pc p v) s' -> P tt s') -> wp E (modS (set_pc p)) s P.
Proof. intros [He Hc Hm Hw Hv] HP. apply wp_modS, HP. subst v. by split. Qed.

Lemma wp_bump_pc d v s (P : unit -> scope -> Prop) : at_ s0 v s ->
  (forall s', at_ s0 (with_pc (u64 (v_pc v + d)) v) s' -> P tt s') -> wp E (modS (fun s => set_pc (u64 (sc_pc s + d)) s)) s P.
Proof. intros [He Hc Hm Hw Hv] HP. apply wp_modS, HP. subst v. by split. Qed.

(** A change of the contract's gas. *)
Lemma contract_ok_gas g c : contract_ok c -> contract_ok (set_Gas g c).
Proof. by intros [? ? ? ? ?]. Qed.
Lemma same_contract_gas g c0 c : same_contract c0 c -> same_contract c0 (set_Gas g c).
Proof. by intros [? ? ? ? ? ?]. Qed.

Lemma at_set_gas g v s : at_ s0 v s -> at_ s0 (with_gas g v) (set_contract (set_Gas g (sc_contract s)) s).
Proof.
  intros [He Hc Hm Hw Hv]. subst v. split; try done; [by apply contract_ok_gas|by apply same_contract_gas].
Qed.

Lemma wp_use_gas g v s (P : bool -> scope -> Prop) : at_ s0 v s -> 0 <= v_gas v < gas_limit -> 0 <= g ->
  (v_gas v < g -> P false s) ->
  (g <= v_gas v -> forall s', at_ s0 (with_gas (v_gas v - g) v) s' -> P true s') -> wp E (use_gas g) s P.
Proof.
  intros Hat Hg Hg0 Hf Ht. pose proof (at_view _ _ _ Hat) as Hv. unfold wp, use_gas, gets, bindM, UseGas.
  assert (Gas (sc_contract s) = v_gas v) as Hgas by (by rewrite <- Hv). rewrite Hgas.
  destruct (Z.ltb_spec (v_gas v) g) as [Hlt|Hge]; [by apply Hf|].
  cbn. apply Ht; [done|]. unfold gas_limit in Hg. unfold u64. rewrite Z.mod_small by lia. by apply at_set_gas.
Qed.

Lemma wp_set_temp t v s (P : unit -> scope -> Prop) : at_ s0 v s -> 0 <= t ->
  (forall s', at_ s0 (with_temp t v) s' -> P tt s') ->
  wp E (modS (fun s => set_evm (set_callGasTemp t (sc_evm s)) s)) s P.
Proof.
  intros [He Hc Hm Hw Hv] Ht HP. apply wp_modS, HP. subst v. split; try done.
  destruct He as [[D J R T] [ED EP ER]]. by split.
Qed.

Lemma wp_temp v s (P : Z -> scope -> Prop) : at_ s0 v s -> P (v_temp v) s -> wp E (gets (fun s => evm_callGasTemp (sc_evm s))) s P.
Proof. intros [_ _ _ _ <-] HP. by apply wp_gets. Qed.
End rules.
End frame.
