(* ===== verification/VMGasFacts.v ===== *)
(** What the gas functions charge.

    Memory is charged by the closed form of its fee, no sum wraps around, and a call
    is charged at least the gas it passes on and the stipend it gives away. *)
From stdpp Require Import prelude gmap list strings.
From Stdlib Require Import ZArith Lia.
From S2P Require Import Prelude Params VarBytes RLP Crypto StateData VMWord VMWordFacts VMAnalysis VMState VMGas VMLaws VMFrame.
Local Open Scope Z_scope.

(** ** The memory fee *)

Lemma memory_fee_mono a b : 0 <= a <= b -> memory_fee a <= memory_fee b.
Proof.
  intros H. unfold memory_fee. cbv zeta. pose proof (Z.div_le_mono a b 32 ltac:(lia) ltac:(lia)).
  pose proof (Z.div_pos a 32 ltac:(lia) ltac:(lia)). pose proof (Z.div_le_mono (a / 32 * (a / 32)) (b / 32 * (b / 32)) 512 ltac:(lia) ltac:(nia)).
  lia.
Qed.

Lemma memory_fee_range a : 0 <= a <= max_memory -> 0 <= memory_fee a < 2 ^ 56.
Proof.
  intros H. split.
  - pose proof (memory_fee_mono 0 a ltac:(lia)). done.
  - pose proof (memory_fee_mono a max_memory ltac:(lia)) as Hm.
    assert (memory_fee max_memory < 2 ^ 56) as Hc by (by vm_compute). lia.
Qed.

(** Sizes as the interpreter passes them: whole words. *)
Definition size_ok (m : Z) : Prop := 0 <= m < 2 ^ 64 /\ m mod 32 = 0.

Lemma toWordSize_words m : size_ok m -> toWordSize m = m / 32.
Proof.
  intros [H Hm]. rewrite toWordSize_correct by done. pose proof (Z.div_mod m 32 ltac:(lia)) as Hd. rewrite Hm in Hd.
  symmetry. apply Z.div_unique with 31; lia.
Qed.

(** [mem] is [m] with the fee for [msz] bytes noted. *)
Record paid (m : Memory) (msz : Z) (mem : Memory) : Prop := {
  pd_store : mem_store mem = mem_store m;
  pd_fee : mem_lastGasCost mem = memory_fee (Z.max (mem_Len m) msz);
  pd_max : msz <= max_memory }.

Lemma paid_zero m : mem_ok m -> paid m 0 m.
Proof.
  intros [Hw Hmax Hp]. split; [done| |by vm_compute]. rewrite Z.max_l; [done|]. unfold mem_Len. lia.
Qed.

(** Growing a paid memory gives a well-formed one. *)
Lemma paid_Resize m msz mem : mem_ok m -> size_ok msz -> paid m msz mem -> mem_ok (mem_Resize msz mem).
Proof.
  intros [Hw Hmax Hp] [Hs Hs32] [Es Ef Em]. assert (mem_Len mem = mem_Len m) as El by (unfold mem_Len; by rewrite Es).
  split; rewrite ?mem_Len_Resize, El; [destruct (Z.max_spec msz (mem_Len m)) as [[_ ->]|[_ ->]]; done|lia|].
  rewrite Z.max_comm, <- Ef. unfold mem_Resize. by destruct (mem_Len mem <? msz).
Qed.

#[export] Hint Resolve paid_zero : core.

(** One step of a computation whose current frame is described by an [at_] in the
    context; side conditions that are not solved remain. *)
Ltac wnorm := cbn [with_stk with_mem with_gas with_temp with_pc v_stk v_mem v_gas v_temp v_pc] in *.
Ltac wnext H := let s := fresh "s" in let Hat := fresh "Hat" in intros s Hat; try clear H; wnorm.
Ltac wstep :=
  lazymatch goal with
  | |- wp _ (bindM _ _) _ _ => apply wp_bind
  | |- wp _ (ret _) _ _ => apply wp_ret
  | |- wp _ (throw _) _ _ => apply wp_throw
  | |- wp _ (when _ _) _ _ => apply wp_when; let Hb := fresh "Hb" in intros Hb
  | H : at_ _ _ _ ?s |- wp _ pop ?s _ =>
      eapply wp_pop; [exact H|reflexivity|]; let Hw := fresh "Hw" in intros Hw; wnext H
  | H : at_ _ _ _ ?s |- wp _ (push _) ?s _ => eapply wp_push; [exact H| |wnext H]
  | H : at_ _ _ _ ?s |- wp _ peek ?s _ => eapply wp_peek; [exact H|reflexivity|]; let Hw := fresh "Hw" in intros Hw
  | H : at_ _ _ _ ?s |- wp _ (back _) ?s _ => eapply wp_back; [exact H|reflexivity|]; let Hw := fresh "Hw" in intros Hw
  | H : at_ _ _ _ ?s |- wp _ (poke _) ?s _ => eapply wp_poke; [exact H|reflexivity| |wnext H]
  | H : at_ _ _ _ ?s |- wp _ (sdb _) ?s _ =>
      eapply wp_sdb; [eassumption|exact H|reflexivity|cbn [args_ok]; try exact I|try (intros ?; first [reflexivity|congruence])|
        let a := fresh "a" in let s := fresh "s" in let Hr := fresh "Hr" in let Hat := fresh "Hat" in
        intros a s Hr Hat; try clear H; cbn [result_ok] in Hr]
  | H : at_ _ _ _ ?s |- wp _ self ?s _ => eapply wp_self; [exact H|]
  | H : at_ _ _ _ ?s |- wp _ (gets sc_memory) ?s _ => eapply wp_memory; [exact H|]; wnorm
  | H : at_ _ _ _ ?s |- wp _ (gets sc_stack) ?s _ => eapply wp_stack; [exact H|]; wnorm
  | H : at_ _ _ _ ?s |- wp _ (gets (fun x => evm_callGasTemp (sc_evm x))) ?s _ => eapply wp_temp; [exact H|]; wnorm
  | |- wp _ (gets _) _ _ => apply wp_gets
  | |- wp _ getS _ _ => apply wp_getS
  | H : at_ _ _ _ ?s |- wp _ (modS (set_memory _)) ?s _ => eapply wp_set_memory; [exact H|]; wnext H
  | H : at_ _ _ _ ?s |- wp _ (modS (set_stack _)) ?s _ => eapply wp_set_stack; [exact H| |wnext H]
  | H : at_ _ _ _ ?s |- wp _ (modS (set_pc _)) ?s _ => eapply wp_set_pc; [exact H|]; wnext H
  | H : at_ _ _ _ ?s |- wp _ (modS (fun x => set_pc _ x)) ?s _ => eapply wp_bump_pc; [exact H|]; wnext H
  | H : at_ _ _ _ ?s |- wp _ (modS (fun x => set_evm (set_callGasTemp _ _) x)) ?s _ => eapply wp_set_temp; [exact H| |wnext H]
  end.

Section gas.
Context {S : Type} {database : Database S} {crypto : Crypto} {laws : DatabaseLaws S}.
Context (ro : bool) (Q : S -> S -> Prop) (mode : mode_ok ro Q).
Local Abbreviation scope := (scope S).
Local Abbreviation at_ := (at_ Q).

(** A frame that ends with an error keeps the machine in order and gains no gas. *)
Definition fails (s0 : scope) (g : Z) (s : scope) : Prop := exists v, at_ s0 v s /\ 0 <= v_gas v <= g.

Lemma wp_checked g0 s0 r v s (P : Z -> scope -> Prop) : at_ s0 v s -> 0 <= v_gas v <= g0 ->
  (r.2 = false -> P r.1 s) -> wp (fails s0 g0) (checked r) s P.
Proof.
  intros Hat Hg HP. unfold checked. destruct r as [x [|]]; cbn [fst snd] in *; [|by apply wp_ret, HP].
  apply wp_throw. by exists v.
Qed.

Lemma wp_memoryGasCost g0 s0 msz v s (P : Z -> scope -> Prop) : at_ s0 v s -> mem_ok (v_mem v) -> size_ok msz -> 0 <= v_gas v <= g0 ->
  (forall fee mem s', at_ s0 (with_mem mem v) s' -> paid (v_mem v) msz mem -> 0 <= fee < 2 ^ 56 -> P fee s') ->
  wp (fails s0 g0) (memoryGasCost msz) s P.
Proof.
  intros Hat Hm Hs Hg HP. unfold memoryGasCost. destruct (Z.eqb_spec msz 0) as [->|Hne].
  { apply wp_ret. apply (HP 0 (v_mem v)); [by destruct v|auto|lia]. }
  destruct (Z.ltb_spec 0x1FFFFFFFE0 msz) as [Hgt|Hle]; [apply wp_throw; by exists v|].
  rewrite toWordSize_words by done. cbv zeta. pose proof Hs as [Hr Hm32]. pose proof (Z.div_mod msz 32 ltac:(lia)) as Hd. rewrite Hm32 in Hd.
  pose proof (Z.div_pos msz 32 ltac:(lia) ltac:(lia)) as Hpos. destruct Hm as [Mw Mmax Mp].
  unfold u64. rewrite !(Z.mod_small (msz / 32 * 32)) by lia. apply wp_bind. eapply wp_memory; [exact Hat|].
  assert (0 <= mem_Len (v_mem v)) as Hlen by (unfold mem_Len; lia).
  destruct (Z.ltb_spec (mem_Len (v_mem v)) (msz / 32 * 32)) as [Hlt|Hge].
  - assert (msz / 32 * (msz / 32) < 2 ^ 64) as Hsq by nia.
    rewrite !(Z.mod_small (msz / 32 * (msz / 32))), !(Z.mod_small (msz / 32 * 3)) by nia.
    change (msz / 32 * 3 + msz / 32 * (msz / 32) / 512) with (memory_fee msz).
    pose proof (memory_fee_range msz ltac:(unfold max_memory; lia)) as Hf.
    pose proof (memory_fee_mono (mem_Len (v_mem v)) msz ltac:(lia)) as Hmono.
    pose proof (memory_fee_range (mem_Len (v_mem v)) ltac:(lia)) as Hf'.
    rewrite !(Z.mod_small (memory_fee msz)) by lia. rewrite Mp. rewrite !Z.mod_small by lia.
    apply wp_bind. eapply wp_set_memory; [exact Hat|]. intros s' Hat'. apply wp_ret.
    apply (HP _ (set_mem_lastGasCost (memory_fee msz) (v_mem v))); [done| |lia].
    split; [done|cbn; f_equal; lia|unfold max_memory; lia].
  - apply wp_ret. apply (HP 0 (v_mem v)); [by destruct v| |lia]. split; [done|rewrite Z.max_l by lia; done|unfold max_memory; lia].
Qed.

(** [g] charges at least [least] of the stack and the passed gas, and less than
    [top]; [w]: only in a machine that may write; [sz]: memory is charged; [n] items
    of the stack are looked at. *)
Definition gas_spec (w sz : bool) (n : nat) (least : list Z -> Z -> Z) (top : Z) (g : Z -> M scope Z) : Prop :=
  forall g0 s0 s v msz, at_ s0 v s -> mem_ok (v_mem v) -> 0 <= v_gas v < gas_limit -> v_gas v <= g0 -> size_ok msz ->
  (sz = false -> msz = 0) -> (n <= length (v_stk v))%nat -> (w = true -> ro = false) ->
  wp (fails s0 g0) (g msz) s (fun cost s' => exists mem t, at_ s0 (with_temp t (with_mem mem v)) s' /\
    paid (v_mem v) msz mem /\ 0 <= cost < top /\ least (v_stk v) t <= cost).

Lemma gas_spec_weaken w sz n least top w' n' least' top' g :
  gas_spec w sz n least top g -> (w = true -> w' = true) -> (n <= n')%nat -> top <= top' ->
  (forall st t, least' st t <= least st t) -> gas_spec w' sz n' least' top' g.
Proof.
  intros Hs Hw Hn Ht Hl g0 s0 s v msz H1 H2 H3 H4 H5 H6 H7 H8.
  eapply wp_mono; [apply (Hs g0 s0 s v msz); auto; lia|]. intros cost s' (mem & t & Hat & Hp & Hc & Hle).
  exists mem, t. split; [done|]. split; [done|]. split; [lia|]. specialize (Hl (v_stk v) t). lia.
Qed.

Definition at_least (c : Z) : list Z -> Z -> Z := fun _ _ => c.

Lemma view_eta v : with_temp (v_temp v) (with_mem (v_mem v) v) = v.
Proof. by destruct v. Qed.

(** A frame whose view is unchanged has been charged [cost]. *)
Lemma plain_charge s0 v s msz cost least top : at_ s0 v s -> mem_ok (v_mem v) -> msz = 0 -> 0 <= cost < top -> least (v_temp v) <= cost ->
  exists mem t, at_ s0 (with_temp t (with_mem mem v)) s /\ paid (v_mem v) msz mem /\ 0 <= cost < top /\ least t <= cost.
Proof. intros Hat Hm -> Hc Hl. exists (v_mem v), (v_temp v). rewrite view_eta. auto. Qed.

Lemma memory_charge s0 v t s mem msz cost least top : at_ s0 (with_temp t (with_mem mem v)) s -> paid (v_mem v) msz mem ->
  0 <= cost < top -> least t <= cost ->
  exists mem t, at_ s0 (with_temp t (with_mem mem v)) s /\ paid (v_mem v) msz mem /\ 0 <= cost < top /\ least t <= cost.
Proof. intros. exists mem, t. auto. Qed.

Lemma with_mem_temp mem v : with_mem mem v = with_temp (v_temp v) (with_mem mem v).
Proof. by destruct v. Qed.

Lemma wp_memoryWordGas g0 s0 price pos size msz v s (P : Z -> scope -> Prop) :
  at_ s0 v s -> mem_ok (v_mem v) -> size_ok msz -> 0 <= v_gas v <= g0 -> v_stk v !! pos = Some size -> 0 <= price < 2 ^ 32 ->
  (forall cost mem s', at_ s0 (with_mem mem v) s' -> paid (v_mem v) msz mem -> 0 <= cost < 2 ^ 64 -> P cost s') ->
  wp (fails s0 g0) (memoryWordGas pos price msz) s P.
Proof.
  intros Hat Hm Hs Hg Hst Hpr HP. unfold memoryWordGas. apply wp_bind. eapply wp_memoryGasCost; [exact Hat|done|done|done|].
  intros fee mem s1 Hat1 Hpaid Hfee. apply wp_bind. eapply wp_back; [exact Hat1|exact Hst|]. intros Hw.
  apply wp_bind. eapply wp_checked; [exact Hat1|done|]. cbn [bigUint64 fst snd]. intros Hov1. apply negb_false_iff, IsUint64_true in Hov1.
  rewrite word_uint64_small by done. apply wp_bind. rewrite toWordSize_correct by done.
  assert (0 <= (size + 31) / 32 < 2 ^ 64) as Hws by (split; [apply Z.div_pos; lia|apply Z.div_lt_upper_bound; lia]).
  eapply wp_checked; [exact Hat1|done|]. intros Hov2.
  destruct (SafeMul ((size + 31) / 32) price) as [wg ov] eqn:Em. cbn [fst snd] in *. subst ov.
  apply SafeMul_ok in Em as [-> Hlt]; [|lia|lia]. eapply wp_checked; [exact Hat1|done|]. intros Hov3.
  destruct (SafeAdd fee _) as [c ov] eqn:Ea. cbn [fst snd] in *. subst ov. apply SafeAdd_ok in Ea as [-> Hlt']; [|lia|nia].
  apply (HP _ mem s1 Hat1 Hpaid). nia.
Qed.

Lemma memoryWordGas_spec price pos : 0 <= price < 2 ^ 32 ->
  gas_spec false true (pos + 1) (at_least 0) (2 ^ 64) (memoryWordGas pos price).
Proof.
  intros Hpr g0 s0 s v msz Hat Hm Hg Hg0 Hs _ Hn _. destruct (lookup_lt_is_Some_2 (v_stk v) pos ltac:(lia)) as [size Hsize].
  eapply wp_memoryWordGas; [exact Hat|done|done|lia|exact Hsize|done|]. intros cost mem s' Hat' Hp Hc.
  eapply memory_charge; [rewrite with_mem_temp in Hat'; exact Hat'|done|done|]. unfold at_least. lia.
Qed.

Lemma pureMemoryGascost_spec n : gas_spec false true n (at_least 0) (2 ^ 64) pureMemoryGascost.
Proof.
  intros g0 s0 s v msz Hat Hm Hg Hg0 Hs _ Hn _. unfold pureMemoryGascost. eapply wp_memoryGasCost; [exact Hat|done|done|lia|].
  intros fee mem s' Hat' Hp Hf. eapply memory_charge; [rewrite with_mem_temp in Hat'; exact Hat'|done|lia|]. unfold at_least. lia.
Qed.

Lemma makeGasLog_spec n : 0 <= n <= 4 -> gas_spec false true 2 (at_least 375) (2 ^ 64) (makeGasLog n).
Proof.
  intros Hn4 g0 s0 s v msz Hat Hm Hg Hg0 Hs _ Hn _. unfold makeGasLog. destruct (lookup_lt_is_Some_2 (v_stk v) 1 ltac:(lia)) as [size Hsize].
  apply wp_bind. eapply wp_back; [exact Hat|exact Hsize|]. intros Hw. apply wp_bind. eapply wp_checked; [exact Hat|lia|].
  cbn [bigUint64 fst snd]. intros Hov1. apply negb_false_iff, IsUint64_true in Hov1. rewrite word_uint64_small by done.
  apply wp_bind. eapply wp_memoryGasCost; [exact Hat|done|done|lia|]. intros fee mem s1 Hat1 Hp Hf.
  assert (0 <= v_gas (with_mem mem v) <= g0) as Hg1 by (cbn; lia).
  apply wp_bind. eapply wp_checked; [exact Hat1|done|]. intros Hov2. destruct (SafeAdd fee 375) as [c1 ov] eqn:E1. cbn [fst snd] in *. subst ov.
  apply SafeAdd_ok in E1 as [-> H1]; [|lia|lia].
  apply wp_bind. eapply wp_checked; [exact Hat1|done|]. intros Hov3. destruct (SafeAdd _ (n * 375)) as [c2 ov] eqn:E2. cbn [fst snd] in *. subst ov.
  apply SafeAdd_ok in E2 as [-> H2]; [|lia|lia].
  apply wp_bind. eapply wp_checked; [exact Hat1|done|]. intros Hov4. destruct (SafeMul size 8) as [c3 ov] eqn:E3. cbn [fst snd] in *. subst ov.
  apply SafeMul_ok in E3 as [-> H3]; [|lia|lia].
  eapply wp_checked; [exact Hat1|done|]. intros Hov5. destruct (SafeAdd _ (size * 8)) as [c4 ov] eqn:E4. cbn [fst snd] in *. subst ov.
  apply SafeAdd_ok in E4 as [-> H4]; [|lia|lia].
  eapply memory_charge; [rewrite with_mem_temp in Hat1; exact Hat1|done|lia|]. unfold at_least. lia.
Qed.

Lemma gasExp_spec price : 0 <= price < 2 ^ 16 -> gas_spec false false 2 (at_least 10) (2 ^ 64) (gasExp price).
Proof.
  intros Hpr g0 s0 s v msz Hat Hm Hg Hg0 Hs Hz Hn _. unfold gasExp. destruct (lookup_lt_is_Some_2 (v_stk v) 1 ltac:(lia)) as [e He].
  apply wp_bind. eapply wp_back; [exact Hat|exact He|]. intros Hw. cbv zeta.
  assert (0 <= BitLen e <= 256) as Hb.
  { unfold BitLen. destruct (Z.eqb_spec e 0); [lia|]. destruct Hw as [Hw1 Hw2]. rewrite Z.abs_eq by lia.
    pose proof (Z.log2_nonneg e). pose proof (proj1 (Z.log2_lt_pow2 e 256 ltac:(lia)) Hw2). lia. }
  assert (0 <= (BitLen e + 7) / 8 <= 32) as Hl by (split; [apply Z.div_pos; lia|apply Z.lt_succ_r, Z.div_lt_upper_bound; lia]).
  unfold u64. rewrite Z.mod_small by nia. eapply wp_checked; [exact Hat|lia|]. intros Hov.
  destruct (SafeAdd _ 10) as [c ov] eqn:E. cbn [fst snd] in *. subst ov. apply SafeAdd_ok in E as [-> Hlt]; [|nia|lia].
  eapply plain_charge; [exact Hat|done|auto|nia|unfold at_least; nia].
Qed.

(** ** Storage and self-destruction *)

Context (env : Env) (Henv : env_ok env).

Lemma IsRFDUpdate_Ok n : exists b, IsRFDUpdate (chainConfig env) n = Ok b.
Proof.
  destruct (eo_ChainID env Henv) as (id & Hid & _). unfold IsRFDUpdate, chainIs. rewrite Hid. cbn.
  destruct (id =? MetisMainnetChainID); cbn; [by eexists|]. destruct (id =? MetisSepoliaChainID); cbn; by eexists.
Qed.

Lemma wp_isOvmRefund E s0 v s (P : bool -> scope -> Prop) : at_ s0 v s -> (forall b, P b s) -> wp E (isOvmRefund env) s P.
Proof.
  intros Hat HP. unfold isOvmRefund. destruct (UsingOVM env); [|by apply wp_ret]. apply wp_bind.
  destruct (IsRFDUpdate_Ok (Some (BlockNumber (context env)))) as [b Hb]. apply (wp_lift _ b); [done|].
  apply wp_bind. eapply wp_self; [exact Hat|]. by apply wp_ret.
Qed.

(** Walking through a gas function without memory, and ending it. *)
Ltac gcase :=
  lazymatch goal with
  | H : at_ _ _ ?s |- wp _ (isOvmRefund _) ?s _ => eapply wp_isOvmRefund; [exact H|]; let b := fresh "ovm" in intros b
  | |- wp _ (if ?b then _ else _) _ _ => destruct b eqn:?
  | |- wp _ (let '(_, _) := ?x in _) _ _ => destruct x eqn:?
  | |- wp _ (gopanic _) _ _ => right; left; reflexivity
  end.
Ltac gwalk := repeat (cbv beta zeta; first [progress wstep | gcase]).
Ltac gend :=
  repeat match goal with |- context [if ?b then _ else _] => destruct b end;
  first [by cbn|eapply plain_charge; [eassumption|eassumption|auto|unfold u64; rewrite ?Z.mod_small by lia; lia
                              |unfold at_least, u64; rewrite ?Z.mod_small by lia; lia]
        |eexists; split; [eassumption|wnorm; lia]].

Lemma gasSStore_spec : gas_spec true false 2 (at_least 200) (2 ^ 64) (gasSStore env).
Proof.
  intros g0 s0 s [stk mem g t pc] msz Hat Hm Hg Hg0 Hs Hz Hn Hw. wnorm.
  destruct stk as [|x [|y stk]]; cbn [length] in Hn; try lia. specialize (Hw eq_refl). unfold gasSStore. gwalk; gend.
Qed.

Lemma gasSStoreEIP2200_spec : gas_spec true false 2 (at_least 800) (2 ^ 64) (gasSStoreEIP2200 env).
Proof.
  intros g0 s0 s [stk mem g t pc] msz Hat Hm Hg Hg0 Hs Hz Hn Hw. wnorm.
  destruct stk as [|x [|y stk]]; cbn [length] in Hn; try lia. specialize (Hw eq_refl). unfold gasSStoreEIP2200. gwalk; gend.
Qed.

Lemma makeGasSStoreFunc_spec refund : 0 <= refund -> gas_spec true false 2 (at_least 100) (2 ^ 64) (makeGasSStoreFunc env refund).
Proof.
  intros Href g0 s0 s [stk mem g t pc] msz Hat Hm Hg Hg0 Hs Hz Hn Hw. wnorm.
  destruct stk as [|x [|y stk]]; cbn [length] in Hn; try lia. specialize (Hw eq_refl). unfold makeGasSStoreFunc. gwalk; gend.
Qed.

Lemma gasSLoadEIP2929_spec : gas_spec false false 1 (at_least 100) (2 ^ 64) gasSLoadEIP2929.
Proof.
  intros g0 s0 s [stk mem g t pc] msz Hat Hm Hg Hg0 Hs Hz Hn Hw. wnorm.
  destruct stk as [|x stk]; cbn [length] in Hn; try lia. unfold gasSLoadEIP2929. gwalk; gend.
Qed.

Lemma gasEip2929AccountCheck_spec : gas_spec false false 1 (at_least 0) (2 ^ 64) gasEip2929AccountCheck.
Proof.
  intros g0 s0 s [stk mem g t pc] msz Hat Hm Hg Hg0 Hs Hz Hn Hw. wnorm.
  destruct stk as [|x stk]; cbn [length] in Hn; try lia. unfold gasEip2929AccountCheck. gwalk; gend.
Qed.

Lemma gasSelfdestruct_spec : gas_spec true false 1 (at_least 0) (2 ^ 64) (gasSelfdestruct env).
Proof.
  intros g0 s0 s [stk mem g t pc] msz Hat Hm Hg Hg0 Hs Hz Hn Hw. wnorm.
  destruct stk as [|x stk]; cbn [length] in Hn; try lia. specialize (Hw eq_refl). unfold gasSelfdestruct. gwalk; gend.
Qed.

Lemma makeSelfdestructGasFn_spec refunds : gas_spec true false 1 (at_least 0) (2 ^ 64) (makeSelfdestructGasFn refunds).
Proof.
  intros g0 s0 s [stk mem g t pc] msz Hat Hm Hg Hg0 Hs Hz Hn Hw. wnorm.
  destruct stk as [|x stk]; cbn [length] in Hn; try lia. specialize (Hw eq_refl). unfold makeSelfdestructGasFn, selfdestructGas. gwalk; gend.
Qed.

Lemma makeSelfdestructGasFnOptimism_spec refunds : gas_spec true false 1 (at_least 0) (2 ^ 64) (makeSelfdestructGasFnOptimism refunds).
Proof.
  intros g0 s0 s [stk mem g t pc] msz Hat Hm Hg Hg0 Hs Hz Hn Hw. wnorm.
  destruct stk as [|x stk]; cbn [length] in Hn; try lia. specialize (Hw eq_refl). unfold makeSelfdestructGasFnOptimism, selfdestructGas. gwalk; gend.
Qed.

(** A constant charge. *)
Lemma constant_spec n c : 0 <= c < 2 ^ 64 -> gas_spec false false n (at_least c) (2 ^ 64) (fun _ => ret c).
Proof. intros Hc g0 s0 s v msz Hat Hm Hg Hg0 Hs Hz Hn Hw. wstep. eapply plain_charge; [exact Hat|done|auto|lia|unfold at_least; lia]. Qed.

Lemma gasExtCodeCopyEIP2929_spec : gas_spec false true 4 (at_least 0) (2 ^ 64) gasExtCodeCopyEIP2929.
Proof.
  intros g0 s0 s [stk mem g t pc] msz Hat Hm Hg Hg0 Hs Hz Hn Hw. wnorm.
  destruct stk as [|x1 [|x2 [|x3 [|x4 stk]]]]; cbn [length] in Hn; try lia. unfold gasExtCodeCopyEIP2929. wstep.
  eapply wp_memoryWordGas; [exact Hat|done|done|wnorm; lia|reflexivity|lia|]. intros cost mem' s1 Hat1 Hp Hc. clear Hat. wnorm. gwalk.
  - exists mem', t. split; [exact Hat|]. split; [exact Hp|]. unfold at_least. lia.
  - eexists. split; [exact Hat0|wnorm; lia].
  - exists mem', t. split; [exact Hat0|]. split; [exact Hp|]. unfold at_least. subst.
    match goal with H : SafeAdd _ _ = _ |- _ => apply SafeAdd_ok in H as [-> ?]; lia end.
Qed.

Lemma gasExtCodeCopyEIP2929Optimism_spec : gas_spec false true 4 (at_least 0) (2 ^ 64) gasExtCodeCopyEIP2929Optimism.
Proof.
  intros g0 s0 s [stk mem g t pc] msz Hat Hm Hg Hg0 Hs Hz Hn Hw. wnorm.
  destruct stk as [|x1 [|x2 [|x3 [|x4 stk]]]]; cbn [length] in Hn; try lia. unfold gasExtCodeCopyEIP2929Optimism. wstep.
  eapply wp_memoryWordGas; [exact Hat|done|done|wnorm; lia|reflexivity|lia|]. intros cost mem' s1 Hat1 Hp Hc. clear Hat. wnorm. gwalk.
  - eexists. split; [exact Hat1|wnorm; lia].
  - exists mem', t. split; [exact Hat1|]. split; [exact Hp|]. unfold at_least. subst.
    match goal with H : SafeAdd _ _ = _ |- _ => apply SafeAdd_ok in H as [-> ?]; lia end.
Qed.

(** ** Calls *)

Lemma callGas_bound avail base cost t : 0 <= cost -> callGas true avail base cost = inr t -> 0 <= t <= 63 * 2 ^ 58.
Proof.
  intros Hc. unfold callGas. cbv zeta. unfold u64. set (a := (avail - base) mod 2 ^ 64).
  assert (0 <= a < 2 ^ 64) as Ha by (apply Z.mod_pos_bound; lia).
  pose proof (Z.div_mod a 64 ltac:(lia)) as Hd. pose proof (Z.mod_pos_bound a 64 ltac:(lia)) as Hm.
  pose proof (Z.div_pos a 64 ltac:(lia) ltac:(lia)). rewrite (Z.mod_small (a - a / 64)) by lia.
  destruct (IsUint64 cost) eqn:Eu; cbn [negb orb]; [apply IsUint64_true in Eu; rewrite word_uint64_small by done|intros [= <-]; lia].
  destruct (Z.ltb_spec (a - a / 64) cost); intros [= <-]; lia.
Qed.

Lemma callGas_range b avail base cost t : callGas b avail base cost = inr t -> 0 <= t < 2 ^ 64.
Proof.
  unfold callGas. cbv zeta. destruct b.
  - destruct (negb (IsUint64 cost) || _); [intros [= <-]; apply u64_in|].
    destruct (IsUint64 cost); [intros [= <-]; apply big_uint64_range|discriminate].
  - destruct (IsUint64 cost); [intros [= <-]; apply big_uint64_range|discriminate].
Qed.

(** Below this a cold charge can be added. *)
Definition call_top : Z := if r_IsEIP150 (chainRules env) then 2 ^ 64 - 2 ^ 57 else 2 ^ 64.

Lemma wp_passCallGas g0 s0 base v s x st (P : Z -> scope -> Prop) : at_ s0 v s -> v_stk v = x :: st -> 0 <= v_gas v <= g0 -> 0 <= base < 2 ^ 57 ->
  (forall t s', at_ s0 (with_temp t v) s' -> 0 <= t -> base + t < call_top -> P (base + t) s') ->
  wp (fails s0 g0) (passCallGas env base) s P.
Proof.
  intros Hat Hst Hg Hb HP. unfold passCallGas. apply wp_bind, wp_gets, wp_bind.
  eapply wp_back; [exact Hat|by rewrite Hst|]. intros Hw.
  destruct (callGas _ _ base x) as [err|t] eqn:Ec.
  - apply wp_bind. eapply wp_set_temp; [exact Hat|lia|]. intros s1 Hat1. apply wp_throw. eexists. split; [exact Hat1|wnorm; lia].
  - pose proof (callGas_range _ _ _ _ _ Ec) as Hr. apply wp_bind. eapply wp_set_temp; [exact Hat|lia|]. intros s1 Hat1.
    eapply wp_checked; [exact Hat1|wnorm; lia|]. intros Hov. destruct (SafeAdd base t) as [c ov] eqn:E. cbn [fst snd] in *. subst ov.
    apply SafeAdd_ok in E as [-> Hlt]; [|lia|lia]. apply (HP t s1 Hat1); [lia|]. unfold call_top.
    destruct (r_IsEIP150 (chainRules env)) eqn:E150; [|lia]. apply callGas_bound in Ec; [lia|]. unfold in_word in Hw. lia.
Qed.

(** What a call is charged at least: the gas passed on and, with a value, the
    transfer. *)
Definition call_least (st : list Z) (t : Z) : Z := t + match st !! 2%nat with Some v => if v =? 0 then 0 else 9000 | None => 0 end.
Definition pass_least (st : list Z) (t : Z) : Z := t.

Lemma gasCall_spec : gas_spec false true 7 call_least call_top (gasCall env).
Proof.
  intros g0 s0 s [stk mem g t pc] msz Hat Hm Hg Hg0 Hs Hz Hn Hw. wnorm.
  destruct stk as [|x1 [|x2 [|x3 stk]]]; cbn [length] in Hn; try lia. unfold gasCall. wstep. wstep. cbv zeta. wstep. wstep. wstep.
  assert (Hrest : forall b s1, at_ s0 (mkView (x1 :: x2 :: x3 :: stk) mem g t pc) s1 ->
    wp (fails s0 g0) (memoryGas ← memoryGasCost msz;
      gas ← checked (SafeAdd ((if b : bool then 25000 else 0) + (if negb (x3 =? 0) then 9000 else 0)) memoryGas); passCallGas env gas) s1
      (fun cost s' => exists mem0 t0, at_ s0 (with_temp t0 (with_mem mem0 (mkView (x1 :: x2 :: x3 :: stk) mem g t pc))) s' /\
         paid mem msz mem0 /\ 0 <= cost < call_top /\ call_least (x1 :: x2 :: x3 :: stk) t0 <= cost)).
  { intros b s1 Hat1. wstep. eapply wp_memoryGasCost; [exact Hat1|done|done|wnorm; lia|]. intros fee mem' s2 Hat2 Hp Hf. wstep.
    set (base := (if b : bool then _ else _) + _). assert (0 <= base <= 34000) as Hbase by (unfold base; destruct b, (x3 =? 0); cbn; lia).
    eapply wp_checked; [exact Hat2|wnorm; lia|]. intros Hov. destruct (SafeAdd base fee) as [c ov] eqn:E. cbn [fst snd] in *. subst ov.
    apply SafeAdd_ok in E as [-> Hlt]; [|lia|lia].
    eapply wp_passCallGas; [exact Hat2|reflexivity|wnorm; lia|lia|]. intros t' s3 Hat3 Ht' Htop. exists mem', t'.
    split; [exact Hat3|]. split; [exact Hp|]. split; [lia|]. unfold call_least. cbn [lookup list_lookup]. unfold base.
    destruct b, (x3 =? 0); cbn [negb]; lia. }
  destruct (r_IsEIP158 (chainRules env)).
  - destruct (negb (x3 =? 0)) eqn:Ex; [|wstep; exact (Hrest false _ Hat)]. wstep. exact (Hrest _ _ Hat0).
  - wstep. wstep. wstep. exact (Hrest _ _ Hat0).
Qed.

Lemma gasCallCode_spec : gas_spec false true 7 call_least call_top (gasCallCode env).
Proof.
  intros g0 s0 s [stk mem g t pc] msz Hat Hm Hg Hg0 Hs Hz Hn Hw. wnorm.
  destruct stk as [|x1 [|x2 [|x3 stk]]]; cbn [length] in Hn; try lia. unfold gasCallCode. wstep.
  eapply wp_memoryGasCost; [exact Hat|done|done|wnorm; lia|]. intros fee mem' s2 Hat2 Hp Hf. wnorm. wstep. wstep. wstep.
  set (base := if negb (x3 =? 0) then _ else _). assert (0 <= base <= 9000) as Hbase by (unfold base; destruct (x3 =? 0); cbn; lia).
  eapply wp_checked; [exact Hat2|wnorm; lia|]. intros Hov. destruct (SafeAdd base fee) as [c ov] eqn:E. cbn [fst snd] in *. subst ov.
  apply SafeAdd_ok in E as [-> Hlt]; [|lia|lia].
  eapply wp_passCallGas; [exact Hat2|reflexivity|wnorm; lia|lia|]. intros t' s3 Hat3 Ht' Htop. exists mem', t'.
  split; [exact Hat3|]. split; [exact Hp|]. split; [lia|]. unfold call_least. cbn [lookup list_lookup]. unfold base.
  destruct (x3 =? 0); cbn [negb]; lia.
Qed.

Lemma gasDelegateCall_spec : gas_spec false true 6 pass_least call_top (gasDelegateCall env).
Proof.
  intros g0 s0 s [stk mem g t pc] msz Hat Hm Hg Hg0 Hs Hz Hn Hw. wnorm. destruct stk as [|x1 stk]; cbn [length] in Hn; try lia.
  unfold gasDelegateCall. wstep. eapply wp_memoryGasCost; [exact Hat|done|done|wnorm; lia|]. intros fee mem' s2 Hat2 Hp Hf. wnorm.
  eapply wp_passCallGas; [exact Hat2|reflexivity|wnorm; lia|lia|]. intros t' s3 Hat3 Ht' Htop. exists mem', t'.
  split; [exact Hat3|]. split; [exact Hp|]. unfold pass_least. lia.
Qed.

Lemma gasStaticCall_spec : gas_spec false true 6 pass_least call_top (gasStaticCall env).
Proof. exact gasDelegateCall_spec. Qed.

Lemma wp_restore_gas E s0 g v s (P : unit -> scope -> Prop) : at_ s0 v s ->
  (forall s', at_ s0 (with_gas (u64 (v_gas v + g)) v) s' -> P tt s') ->
  wp E (modS (fun s => set_contract (set_Gas (u64 (Gas (sc_contract s) + g)) (sc_contract s)) s)) s P.
Proof.
  intros Hat HP. apply wp_modS, HP. pose proof (at_view _ _ _ _ Hat) as Hv. rewrite <- Hv at 1. cbn [view_of v_gas].
  by apply at_set_gas.
Qed.

(** The cold charge on top of a call. *)
Lemma chargeCold_spec w n least g : r_IsEIP150 (chainRules env) = true -> gas_spec w true n least call_top g ->
  gas_spec w true n least (2 ^ 64) (chargeCold 2500 g).
Proof.
  intros E150 Hspec g0 s0 s v msz Hat Hm Hg Hg0 Hs Hz Hn Hw. unfold chargeCold. apply wp_bind.
  eapply wp_use_gas; [exact Hat|done|lia|intros Hlt; cbn [negb]; apply wp_throw; exists v; split; [done|lia]|].
  intros Hge s1 Hat1. cbn [negb]. apply wp_bind. unfold gas_limit in *.
  eapply wp_mono; [apply (Hspec g0 s0 s1 (with_gas (v_gas v - 2500) v) msz); cbn [with_gas v_gas v_mem v_stk]; auto; unfold gas_limit; lia|].
  intros cost s2 (mem & t & Hat2 & Hp & Hc & Hl). cbn [with_gas v_gas v_mem v_stk] in Hp, Hl. unfold call_top in Hc. rewrite E150 in Hc.
  apply wp_bind. eapply wp_restore_gas; [exact Hat2|]. intros s3 Hat3. apply wp_ret. exists mem, t.
  cbn [with_temp with_mem with_gas v_gas] in Hat3. unfold u64 in *. rewrite Z.mod_small in Hat3 by lia.
  replace (v_gas v - 2500 + 2500) with (v_gas v) in Hat3 by lia. split; [by destruct v|]. split; [done|].
  rewrite Z.mod_small by lia. lia.
Qed.

Lemma makeCallVariant_spec least n g : (2 <= n)%nat -> r_IsEIP150 (chainRules env) = true -> gas_spec false true n least call_top g ->
  gas_spec false true n least (2 ^ 64) (makeCallVariantGasCallEIP2929 g).
Proof.
  intros Hn2 E150 Hspec g0 s0 s v msz Hat Hm Hg Hg0 Hs Hz Hn Hw. unfold makeCallVariantGasCallEIP2929.
  destruct (lookup_lt_is_Some_2 (v_stk v) 1 ltac:(lia)) as [x Hx]. apply wp_bind. eapply wp_back; [exact Hat|exact Hx|]. intros Hwx. cbv zeta.
  wstep. wstep. destruct a.
  - eapply wp_mono; [apply (Hspec g0 s0 _ v msz); auto|]. intros cost s' (mem & t & H1 & H2 & H3 & H4). exists mem, t.
    unfold call_top in H3. rewrite E150 in H3. split; [done|]. split; [done|]. lia.
  - wstep. wstep. apply (chargeCold_spec false n least g E150 Hspec g0 s0 _ v msz); auto.
Qed.
End gas.
