(* ===== verification/VMPrecompileFacts.v ===== *)
(** Precompiled contracts return: whatever the input, a contract that has paid the
    gas (below the limit the machine is started with) does not panic and gives back
    at most so many bytes.  The exponentiation is exact. *)
From stdpp Require Import prelude gmap list strings.
From Stdlib Require Import ZArith Zpow_facts Lia.
From S2P Require Import Prelude Params VarBytes RLP Crypto StateData VMWord VMWordFacts VMAnalysis VMState VMPrecompiles VMLaws VMFrame.
Local Open Scope Z_scope.

Lemma getData_ok data start size : Z.of_nat (length data) < 2 ^ 62 -> 0 <= start -> 0 <= size < 2 ^ 64 - 2 ^ 62 ->
  exists d, getData data start size = Ok d /\ Z.of_nat (length d) <= Z.max size (Z.of_nat (length data)) /\
    (size < 2 ^ 63 -> Z.of_nat (length d) = size).
Proof.
  intros Hd Hs Hz. unfold getData. cbv zeta. set (n := Z.of_nat (length data)) in *. assert (0 <= n) by (unfold n; lia).
  set (s := if n <? start then n else start). assert (0 <= s <= n) as Hsn by (unfold s; destruct (Z.ltb_spec n start); lia).
  assert (u64 (s + size) = s + size) as Eu by (apply u64_small; unfold in_u64; lia). rewrite Eu.
  set (e := if n <? s + size then n else s + size). assert (s <= e <= n /\ e <= s + size) as He by (unfold e; destruct (Z.ltb_spec n (s + size)); lia).
  destruct (subslice data s e) as [d| | |] eqn:E; try (rewrite subslice_Ok in E by (unfold n in *; lia); discriminate E).
  apply length_subslice in E. cbn. eexists. split; [done|]. unfold RightPadBytes.
  destruct (Z_lt_dec size (2 ^ 63)) as [Hlt|Hge].
  - rewrite word_i64_small by lia. destruct (Z.leb_spec size (Z.of_nat (length d))); [lia|].
    rewrite length_app, length_replicate. lia.
  - assert (i64 size < 0) as Hneg.
    { unfold i64, u64. rewrite Z.mod_small by lia. destruct (Z.ltb_spec size (2 ^ 63)); lia. }
    destruct (Z.leb_spec (i64 size) (Z.of_nat (length d))); lia.
Qed.

Lemma getData_small data start size : Z.of_nat (length data) < 2 ^ 62 -> 0 <= start -> 0 <= size <= 32 ->
  exists d, getData data start size = Ok d /\ 0 <= be_value d < 2 ^ 256.
Proof.
  intros Hd Hs Hz. destruct (getData_ok data start size Hd Hs ltac:(lia)) as (d & E & _ & Hl). exists d. split; [done|].
  specialize (Hl ltac:(lia)). pose proof (be_value_range d) as Hr. split; [lia|]. eapply Z.lt_le_trans; [apply Hr|].
  change (2 ^ 256) with (256 ^ 32). apply Z.pow_le_mono_r; lia.
Qed.

(** ** The exponentiation *)

Lemma modpow_correct base e m : 0 < m -> modpow base e m = base ^ Zpos e mod m.
Proof.
  intros Hm. induction e as [e IH|e IH|]; cbn [modpow]; [| |by rewrite Z.pow_1_r].
  - rewrite IH, Pos2Z.inj_xI. set (a := base ^ Z.pos e).
    assert (base ^ (2 * Z.pos e + 1) = a * a * base) as ->.
    { unfold a. rewrite Z.pow_add_r, Z.pow_1_r by lia. rewrite (Z.mul_comm 2), Z.pow_mul_r, Z.pow_2_r by lia. done. }
    rewrite <- Zmult_mod_idemp_l, <- Zmult_mod. apply Zmult_mod_idemp_l.
  - rewrite IH, Pos2Z.inj_xO, (Z.mul_comm 2), Z.pow_mul_r, Z.pow_2_r by lia. symmetry. apply Zmult_mod.
Qed.

Lemma big_Exp_correct base exp m : 0 < m -> 0 <= exp -> big_Exp base exp m = base ^ exp mod m.
Proof.
  intros Hm He. unfold big_Exp. destruct exp as [|e|e]; [done|by apply modpow_correct|lia].
Qed.

Lemma length_LeftPadBytes b l : Z.of_nat (length (LeftPadBytes b l)) = Z.max l (Z.of_nat (length b)).
Proof. unfold LeftPadBytes. destruct (Z.leb_spec l (Z.of_nat (length b))); rewrite ?length_app, ?length_replicate; lia. Qed.

Lemma BitLen_64 z : 0 <= z -> (64 <? BitLen z) = false -> z < 2 ^ 64.
Proof.
  intros Hz Hb. apply Z.ltb_ge in Hb. pose proof (word_BitLen_bound z 65 Hz ltac:(lia)) as H. change (65 - 1) with 64 in H. apply H. lia.
Qed.

(** What a price below the limit says about the sizes it was computed from. *)
Lemma modexp_price_2565 x adj : 0 < x -> 0 <= adj -> (x + 7) / 8 * ((x + 7) / 8) * Z.max adj 1 / 3 < gas_limit ->
  x < 2 ^ 40 /\ adj < 2 ^ 64.
Proof.
  intros Hx Ha Hg. unfold gas_limit in Hg. set (y := (x + 7) / 8) in *.
  assert (1 <= y) as Hy by (unfold y; apply Z.div_le_lower_bound; lia).
  pose proof (Z.div_mod (x + 7) 8 ltac:(lia)) as Hd. pose proof (Z.mod_pos_bound (x + 7) 8 ltac:(lia)). fold y in Hd.
  assert (y * y * Z.max adj 1 < 3 * 2 ^ 62) as Hlt.
  { destruct (Z_lt_dec (y * y * Z.max adj 1) (3 * 2 ^ 62)) as [|Hn]; [done|]. exfalso.
    pose proof (Z.div_le_mono (3 * 2 ^ 62) (y * y * Z.max adj 1) 3 ltac:(lia) ltac:(lia)) as Hm.
    change (3 * 2 ^ 62 / 3) with (2 ^ 62) in Hm. lia. }
  assert (y < 2 ^ 36) by nia. split; [lia|nia].
Qed.

Lemma modexpMultComplexity_pos x : 0 < x -> 1 <= modexpMultComplexity x /\ (x < 2 ^ 40 \/ 2 ^ 70 <= modexpMultComplexity x).
Proof.
  intros Hx. unfold modexpMultComplexity. destruct (Z.leb_spec x 64) as [H1|H1]; [split; [nia|left; lia]|].
  destruct (Z.leb_spec x 1024) as [H2|H2].
  - pose proof (Z.div_pos (x * x) 4 ltac:(nia) ltac:(lia)). split; [lia|left; lia].
  - pose proof (Z.div_pos (x * x) 16 ltac:(nia) ltac:(lia)). split; [lia|].
    destruct (Z_lt_dec x (2 ^ 40)); [by left|right].
    pose proof (Z.div_le_lower_bound (x * x) 16 (2 ^ 70) ltac:(lia) ltac:(nia)). lia.
Qed.

Lemma modexp_price_198 x adj : 0 < x -> 0 <= adj -> modexpMultComplexity x * Z.max adj 1 / 20 < gas_limit ->
  x < 2 ^ 40 /\ adj < 20 * 2 ^ 62 + 20.
Proof.
  intros Hx Ha Hg. unfold gas_limit in Hg. destruct (modexpMultComplexity_pos x Hx) as [Hp Hor]. set (c := modexpMultComplexity x) in *.
  assert (c * Z.max adj 1 < 20 * 2 ^ 62) as Hlt.
  { destruct (Z_lt_dec (c * Z.max adj 1) (20 * 2 ^ 62)) as [|Hn]; [done|]. exfalso.
    pose proof (Z.div_le_mono (20 * 2 ^ 62) (c * Z.max adj 1) 20 ltac:(lia) ltac:(lia)) as Hm.
    change (20 * 2 ^ 62 / 20) with (2 ^ 62) in Hm. lia. }
  split; [destruct Hor; [done|nia]|nia].
Qed.

(** A price computed in unbounded integers and cut off at 64 bits. *)
Lemma capped_price z low : 0 <= z -> 0 <= low <= 200 ->
  let g := if 64 <? BitLen z then MaxUint64 else if big_uint64 z <? low then low else big_uint64 z in
  0 <= g < 2 ^ 64 /\ (g < gas_limit -> z < gas_limit).
Proof.
  intros Hz Hl. cbv zeta. destruct (64 <? BitLen z) eqn:E; [unfold MaxUint64, gas_limit; split; lia|].
  pose proof (BitLen_64 z Hz E). rewrite word_uint64_small by lia. unfold gas_limit.
  destruct (Z.ltb_spec z low); split; lia.
Qed.

Definition head_int (input : bytes) (start : Z) : Z :=
  match getData input start 32 with Ok d => be_value d | _ => 0 end.

Lemma bytes_int_32 input start : Z.of_nat (length input) < 2 ^ 62 -> 0 <= start ->
  bytes_int (getData input start 32) = Ok (head_int input start) /\ 0 <= head_int input start < 2 ^ 256.
Proof.
  intros Hi Hs. unfold head_int, bytes_int. destruct (getData_small input start 32 Hi Hs ltac:(lia)) as (d & -> & Hr). by split.
Qed.

(** The price of an exponentiation, and what the input says when it is affordable. *)
Lemma modexp_RequiredGas_ok b input : Z.of_nat (length input) < 2 ^ 62 ->
  exists g, modexp_RequiredGas b input = Ok g /\ 0 <= g < 2 ^ 64 /\
    (g < gas_limit -> (head_int input 0 = 0 /\ head_int input 64 = 0) \/
       (head_int input 0 < 2 ^ 40 /\ head_int input 64 < 2 ^ 40 /\ head_int input 32 < 2 ^ 64 - 2 ^ 62)).
Proof.
  intros Hi. unfold modexp_RequiredGas.
  destruct (bytes_int_32 input 0 Hi ltac:(lia)) as [-> R0]. destruct (bytes_int_32 input 32 Hi ltac:(lia)) as [-> R1].
  destruct (bytes_int_32 input 64 Hi ltac:(lia)) as [-> R2]. cbn [mbind outcome_bind].
  set (bl := head_int input 0) in *. set (el := head_int input 32) in *. set (ml := head_int input 64) in *. clearbody bl el ml.
  set (input' := drop 96 input). assert (Z.of_nat (length input') < 2 ^ 62) as Hi' by (unfold input'; rewrite length_drop; lia).
  pose proof (big_uint64_range bl) as Rb.
  assert (exists h, (if Z.of_nat (length input') <=? bl then Ok 0 else if 32 <? el then bytes_int (getData input' (big_uint64 bl) 32)
    else bytes_int (getData input' (big_uint64 bl) (big_uint64 el))) = Ok h /\ 0 <= h) as (h & -> & Hh).
  { destruct (_ <=? bl); [by exists 0|]. destruct (Z.ltb_spec 32 el).
    - destruct (getData_small input' (big_uint64 bl) 32 Hi' ltac:(unfold in_u64 in *; lia) ltac:(lia)) as (d & -> & Hr). eexists. split; [done|lia].
    - rewrite (word_uint64_small el) by (unfold in_u64; lia).
      destruct (getData_small input' (big_uint64 bl) el Hi' ltac:(unfold in_u64 in *; lia) ltac:(lia)) as (d & -> & Hr). eexists. split; [done|lia]. }
  cbn [mbind outcome_bind]. cbv zeta. set (msb := if 0 <? BitLen h then BitLen h - 1 else 0).
  assert (0 <= msb) by (unfold msb; destruct (Z.ltb_spec 0 (BitLen h)); lia).
  set (adj := (if 32 <? el then 8 * (el - 32) else 0) + msb).
  assert (0 <= adj) as Hadj by (unfold adj; destruct (Z.ltb_spec 32 el); lia).
  assert (el < 2 ^ 64 - 2 ^ 62 \/ 20 * 2 ^ 62 + 20 <= adj) as Hel by (unfold adj; destruct (Z.ltb_spec 32 el); lia).
  assert ((bl = 0 /\ ml = 0) \/ 0 < Z.max ml bl) as Hx by lia. clearbody adj. clear R0 R1 R2 Rb Hh.
  destruct b.
  - set (z := _ * _ * Z.max adj 1 / 3).
    assert (0 <= z) as Hz by (unfold z; apply Z.div_pos; [|lia]; pose proof (Z.div_pos (Z.max ml bl + 7) 8); nia).
    destruct (capped_price z 200 Hz ltac:(lia)) as [Hr Hg]. eexists. split; [reflexivity|]. split; [exact Hr|].
    intros Hlt. destruct Hx as [Hx|Hx]; [by left|right]. destruct (modexp_price_2565 _ adj Hx Hadj (Hg Hlt)). lia.
  - set (z := _ * Z.max adj 1 / 20).
    assert (0 <= z) as Hz.
    { unfold z. apply Z.div_pos; [|lia]. apply Z.mul_nonneg_nonneg; [|lia]. destruct Hx as [[-> ->]|Hx]; [done|].
      pose proof (modexpMultComplexity_pos _ Hx). lia. }
    destruct (capped_price z 0 Hz ltac:(lia)) as [Hr Hg]. pose proof (big_uint64_range z).
    assert ((big_uint64 z <? 0) = false) as E0 by (apply Z.ltb_ge; lia). rewrite E0 in Hr, Hg.
    eexists. split; [reflexivity|]. split; [exact Hr|].
    intros Hlt. destruct Hx as [Hx|Hx]; [by left|right]. destruct (modexp_price_198 _ adj Hx Hadj (Hg Hlt)). lia.
Qed.

(** ** What a run gives back *)

Definition run_ok (o : outcome slice) : Prop :=
  match o with Ok r => slice_ok r | Err _ => True | Panic _ | Blocked => False end.

Lemma run_ok_Some b : Z.of_nat (length b) < 2 ^ 62 -> run_ok (Ok (Some b)).
Proof. done. Qed.

Lemma be_value_max_modulus d m : 0 < m -> 0 <= be_value d -> m = be_value d -> forall r, 0 <= r < m -> (length (big_bytes r) <= length d)%nat.
Proof. intros Hm _ -> r Hr. apply length_big_bytes. pose proof (be_value_range d). lia. Qed.


Section run.
Context {crypto : Crypto} {natives : Natives}.

Lemma modexp_Run_ok b input g : Z.of_nat (length input) < 2 ^ 62 -> modexp_RequiredGas b input = Ok g -> g < gas_limit ->
  run_ok (modexp_Run input).
Proof.
  intros Hi Hg Hlt. destruct (modexp_RequiredGas_ok b input Hi) as (g' & Hg' & _ & Hh). rewrite Hg in Hg'. injection Hg' as <-.
  specialize (Hh Hlt). unfold modexp_Run.
  destruct (bytes_int_32 input 0 Hi ltac:(lia)) as [-> R0]. destruct (bytes_int_32 input 32 Hi ltac:(lia)) as [-> R1].
  destruct (bytes_int_32 input 64 Hi ltac:(lia)) as [-> R2]. cbn [mbind outcome_bind].
  destruct Hh as [[-> ->]|(H0 & H2 & H1)]; [by apply Z.lt_trans with 1|].
  rewrite !word_uint64_small by lia.
  set (bl := head_int input 0) in *. set (el := head_int input 32) in *. set (ml := head_int input 64) in *. clearbody bl el ml.
  destruct (_ && _); [by apply Z.lt_trans with 1|].
  set (input' := drop 96 input). assert (Z.of_nat (length input') < 2 ^ 62) as Hi' by (unfold input'; rewrite length_drop; lia).
  unfold bytes_int.
  destruct (getData_ok input' 0 bl Hi' ltac:(lia) ltac:(lia)) as (d0 & -> & _).
  destruct (getData_ok input' bl el Hi' ltac:(lia) ltac:(lia)) as (d1 & -> & _).
  destruct (getData_ok input' (u64 (bl + el)) ml Hi') as (d2 & -> & _ & Hl2); [unfold u64; apply Z.mod_pos_bound; lia|lia|].
  specialize (Hl2 ltac:(lia)). cbn [fmap outcome_fmap mbind outcome_bind]. rewrite word_i64_small by lia.
  destruct (BitLen (be_value d2) =? 0) eqn:Eb.
  - apply run_ok_Some. rewrite length_LeftPadBytes. cbn [length]. lia.
  - assert (0 < be_value d2) as Hm.
    { pose proof (be_value_range d2). destruct (Z.eq_dec (be_value d2) 0) as [E|]; [rewrite E in Eb; done|lia]. }
    apply run_ok_Some. rewrite length_LeftPadBytes.
    rewrite big_Exp_correct by (auto using be_value_nonneg).
    pose proof (be_value_max_modulus d2 _ Hm ltac:(lia) eq_refl (be_value d0 ^ be_value d1 mod be_value d2) ltac:(apply Z.mod_pos_bound; lia)). lia.
Qed.

Lemma length_RightPadBytes b l : Z.of_nat (length (RightPadBytes b l)) = Z.max l (Z.of_nat (length b)).
Proof. unfold RightPadBytes. destruct (Z.leb_spec l (Z.of_nat (length b))); rewrite ?length_app, ?length_replicate; lia. Qed.

Lemma ecrecover_Run_ok input : run_ok (ecrecover_Run input).
Proof.
  unfold ecrecover_Run. cbv zeta. pose proof (length_RightPadBytes input 128) as Hl. set (i := RightPadBytes input 128) in *. clearbody i.
  destruct (_ || _); [by apply Z.lt_trans with 1|].
  set (sig := _ ++ [_]). assert (length sig = 65%nat) as Hsig.
  { unfold sig. rewrite length_app, length_take, length_drop. cbn [length]. lia. }
  unfold Ecrecover. pose proof (RecoverPubkey_returns (take 32 i) sig) as Hr.
  destruct (RecoverPubkey (take 32 i) sig) as [p| | |] eqn:E; [|by apply Z.lt_trans with 1|done|done].
  apply RecoverPubkey_length in E; [|done]. rewrite subslice_Ok by lia. cbn [mbind outcome_bind].
  apply run_ok_Some. rewrite length_LeftPadBytes, length_drop, keccak256_length. lia.
Qed.

(** A computation that reads the input only through [getData] of few bytes. *)
Lemma run_ok_getData input start size (f : bytes -> outcome slice) : Z.of_nat (length input) < 2 ^ 62 -> 0 <= start -> 0 <= size <= 64 ->
  (forall d, run_ok (f d)) -> run_ok (d ← getData input start size; f d)%stdpp.
Proof. intros Hi Hs Hz Hf. destruct (getData_ok input start size Hi Hs ltac:(lia)) as (d & -> & _). apply Hf. Qed.

Lemma run_ok_sum {A} (x : goerror + A) (f : A -> outcome slice) : (forall a, run_ok (f a)) -> run_ok (a ← lift_sum x; f a)%stdpp.
Proof. intros Hf. by destruct x as [e|a]; [|apply Hf]. Qed.

Lemma runBn256Add_ok input : Z.of_nat (length input) < 2 ^ 62 -> run_ok (runBn256Add input).
Proof.
  intros Hi. unfold runBn256Add. apply run_ok_getData; [done|lia|lia|intros d]. apply run_ok_sum. intros x.
  apply run_ok_getData; [done|lia|lia|intros d']. apply run_ok_sum. intros y. apply run_ok_Some. rewrite G1_Marshal_length. lia.
Qed.

Lemma runBn256ScalarMul_ok input : Z.of_nat (length input) < 2 ^ 62 -> run_ok (runBn256ScalarMul input).
Proof.
  intros Hi. unfold runBn256ScalarMul. apply run_ok_getData; [done|lia|lia|intros d]. apply run_ok_sum. intros x.
  unfold bytes_int. destruct (getData_ok input 64 32 Hi ltac:(lia) ltac:(lia)) as (d' & -> & _). apply run_ok_Some. rewrite G1_Marshal_length. lia.
Qed.

Lemma pairing_points_returns n : forall input, returned (pairing_points n input).
Proof.
  induction n as [|n IH]; intros input; [done|]. cbn [pairing_points]. unfold newCurvePoint, newTwistPoint.
  destruct (G1_Unmarshal _) as [|c]; [done|]. cbn [lift_sum mbind outcome_bind].
  destruct (G2_Unmarshal _) as [|t]; [done|]. cbn [lift_sum mbind outcome_bind].
  specialize (IH (drop 192 input)). by destruct (pairing_points n _) as [[cs ts]| | |].
Qed.

Lemma runBn256Pairing_ok input : run_ok (runBn256Pairing input).
Proof.
  unfold runBn256Pairing. destruct (_ <? _)%nat; [done|].
  pose proof (pairing_points_returns (length input / 192) input) as Hr. destruct (pairing_points _ input) as [[cs ts]| | |]; try done.
  apply run_ok_Some. destruct (bn256_PairingCheck cs ts); unfold true32Byte, false32Byte; rewrite length_hash_bytes; lia.
Qed.

Lemma blake2F_Run_ok input : run_ok (blake2F_Run input).
Proof.
  unfold blake2F_Run. destruct (negb _); [done|]. cbv zeta. destruct (_ && _); [done|]. apply run_ok_Some.
  rewrite length_words_bytes, blake2b_F_length. unfold le_words. rewrite length_fmap, length_seq. lia.
Qed.

(** Every price is a 64-bit number, and a contract whose price is below the limit
    gives a result or an error. *)
Lemma precompile_ok p input : slice_ok input ->
  exists g, RequiredGas p (slice_bytes input) = Ok g /\ 0 <= g < 2 ^ 64 /\ (g < gas_limit -> run_ok (precompile_Run p input)).
Proof.
  intros Hi. assert (Z.of_nat (length (slice_bytes input)) < 2 ^ 62) as Hl by exact Hi.
  assert (Hw : forall a b, 0 <= perWordGas a b (slice_bytes input) < 2 ^ 64) by (intros; unfold perWordGas, u64; apply Z.mod_pos_bound; lia).
  assert (Hp : forall a b, 0 <= pairingGas a b (slice_bytes input) < 2 ^ 64) by (intros; unfold pairingGas, u64; apply Z.mod_pos_bound; lia).
  destruct p as [| | | |eip| | | | | | |]; cbn [RequiredGas precompile_Run].
  all: try (eexists; split; [done|]; split; [first [lia|apply Hw|apply Hp]|]; intros _;
            eauto using ecrecover_Run_ok, runBn256Add_ok, runBn256ScalarMul_ok, runBn256Pairing_ok).
  - apply run_ok_Some. rewrite sha256_length. lia.
  - apply run_ok_Some. rewrite length_LeftPadBytes, ripemd160_length. lia.
  - destruct (modexp_RequiredGas_ok eip _ Hl) as (g & Hg & Hr & _). exists g. split; [done|]. split; [done|].
    intros Hlt. by eapply modexp_Run_ok.
  - eexists. split; [done|]. split; [|intros _; apply blake2F_Run_ok]. destruct (negb _); [lia|].
    pose proof (be_value_range (take 4 (slice_bytes input))) as Hr. split; [lia|]. eapply Z.lt_le_trans; [apply Hr|].
    transitivity (256 ^ 4); [|lia]. apply Z.pow_le_mono_r; [lia|]. rewrite length_take. lia.
Qed.

Lemma RunPrecompiledContract_ok p input c : slice_ok input -> 0 <= Gas c < gas_limit ->
  exists r err c', RunPrecompiledContract p input c = Ok (r, err, c') /\ slice_ok r /\ 0 <= Gas c' <= Gas c.
Proof.
  intros Hi Hc. unfold RunPrecompiledContract, UseGas. destruct (precompile_ok p input Hi) as (g & -> & Hg & Hr). cbn [mbind outcome_bind].
  assert (slice_ok None) by (by apply Z.lt_trans with 1).
  destruct (Z.ltb_spec (Gas c) g) as [Hlt|Hge]; [eexists _, _, _; split; [done|]; split; [done|lia]|].
  specialize (Hr ltac:(lia)). assert (u64 (Gas c - g) = Gas c - g) as Eu by (apply u64_small; unfold in_u64, gas_limit in *; lia). rewrite Eu.
  destruct (precompile_Run p input) as [r|e| |]; try done; eexists _, _, _; (split; [done|]; split; [done|cbn; lia]).
Qed.
End run.
