(* ===== verification/VMCallFacts.v ===== *)
(** Calls and creations keep what the machine promises.

    Given an interpreter that keeps the promise ([runner_ok]), so do the four kinds of
    calls and the creation of contracts: they return, give back no more gas than they
    were given, and an error leaves the database equivalent to what it was before. *)
From stdpp Require Import prelude gmap list strings.
From Stdlib Require Import ZArith Lia.
From S2P Require Import Prelude Params VarBytes RLP Crypto StateData VMWord VMWordFacts VMAnalysis VMState VMPrecompiles VMCall VMLaws VMFrame VMPrecompileFacts.
Local Open Scope Z_scope.

(** References to a running contract carry its value. *)
Definition ref_ok (r : ContractRef) : Prop :=
  match r with AccountRef _ => True | ContractOf _ _ v => exists x, v = Some x /\ in_word x end.

Lemma slice_ok_None : slice_ok None.
Proof. by apply Z.lt_trans with 1. Qed.
#[export] Hint Resolve slice_ok_None : core.

Section calls.
Context {crypto : Crypto} {natives : Natives} {S : Type} {database : Database S} {laws : DatabaseLaws S}.
Context (ro : bool) (Q : S -> S -> Prop) (mode : mode_ok ro Q).
Local Abbreviation EVM := (EVM S).
Local Abbreviation eat := (eat Q).
Local Abbreviation runner := (Contract -> slice -> bool -> M EVM (slice * option goerror * Contract)) (only parsing).

Definition run_post (e : EVM) (c : Contract) (r : slice * option goerror * Contract) (e' : EVM) : Prop :=
  eat e e' /\ slice_ok r.1.1 /\ 0 <= Gas r.2 <= Gas c.

(** What the machine promises of a run with gas below [n]. *)
Definition runner_ok (n : Z) (Run : runner) : Prop :=
  forall c input readOnly e, 0 <= Gas c < n -> Gas c < gas_limit -> contract_ok c -> slice_ok input -> evm_ok e ->
    (ro = true -> readOnly || evm_readOnly e = true) -> wpe (Run c input readOnly) e (run_post e c).

(** What a call promises: no gas is gained, an error leaves the database as it was,
    and only a revert, or a call that did not start, leaves gas. *)
Definition call_post (e : EVM) (gas : Z) (r : slice * Z * option goerror) (e' : EVM) : Prop :=
  eat e e' /\ slice_ok r.1.1 /\ 0 <= r.1.2 <= gas /\
  forall x, r.2 = Some x -> db_equiv (evm_db e') (evm_db e) /\
    (r.1.2 = 0 \/ x = errExecutionReverted \/ x = ErrDepth \/ x = ErrInsufficientBalance).

(** ** Rules *)

Lemma eat_refl e : evm_ok e -> eat e e.
Proof. intros H. split; [done|]. by eapply esince_refl. Qed.

Lemma eat_step e0 e e' : eat e0 e -> eat e e' -> eat e0 e'.
Proof. by apply (eat_trans ro Q). Qed.

(** A method that only looks leaves an equivalent database. *)
Lemma wpe_read {A} (c : method A) e0 e (P : A -> EVM -> Prop) : eat e0 e -> reading c = true ->
  (forall a e', result_ok c a -> eat e0 e' -> db_equiv (evm_db e') (evm_db e) -> call c (evm_db e) = (Ok a, evm_db e') -> P a e') ->
  wpe (db c) e P.
Proof.
  intros He Hr HP. assert (plain c = true /\ args_ok c /\ quiet c = true) as (Hp & Ha & Hq) by (by destruct c).
  pose proof He as [[(gl & Hd) _ _ _] _]. unfold wpe, db, on_db. destruct (call c (evm_db e)) as [o d] eqn:E.
  pose proof (db_plain _ c _ gl _ _ Hd Hp Ha E) as Hl. destruct o as [a|x|w|]; try done; [|by left].
  apply HP; [apply Hl| |by eapply db_read|done]. eapply eat_set_db; [done|done|]. split; [by eapply plain_kept|].
  eapply (Q_quiet ro); [done|by eexists|done|exact E].
Qed.

(** The hash and the code of an account belong together. *)
Lemma wpe_code a e0 e (f : hash -> slice -> M EVM (slice * Z * option goerror)) P : eat e0 e ->
  (forall h code e', eat e0 e' -> slice_ok code ->
     slice_bytes code = [] \/ h = 0 \/ h = Keccak256Hash (slice_bytes code) -> wpe (f h code) e' P) ->
  wpe (h ← db (GetCodeHash a); code ← db (GetCode a); f h code) e P.
Proof.
  intros He HP. apply wpe_bind. apply (wpe_read _ e0); [done|done|]. intros h e1 Hh He1 _ E1.
  apply wpe_bind. apply (wpe_read _ e0); [done|done|]. intros code e2 Hc He2 _ E2. apply HP; [done|done|].
  pose proof He as [[(gl & Hd) _ _ _] _]. by eapply db_code.
Qed.

Lemma wpe_fresh_jumpdests caller e0 e (P : unit -> EVM -> Prop) : eat e0 e ->
  (forall e', eat e0 e' -> P tt e') -> wpe (fresh_jumpdests caller) e P.
Proof.
  intros He HP. destruct caller; [|by apply HP]. unfold wpe, fresh_jumpdests, modS. apply HP.
  destruct He as [[D J R T] [ED EP ER]]. split; split; try done.
Qed.

(** A snapshot, and what undoing it leads back to. *)
Lemma wpe_Snapshot e0 e (P : Z -> EVM -> Prop) : eat e0 e ->
  (forall id e', eat e0 e' -> evm_ok e' -> call Snapshot (evm_db e) = (Ok id, evm_db e') ->
     evm_depth e' = evm_depth e -> evm_readOnly e' = evm_readOnly e -> P id e') ->
  wpe (db Snapshot) e P.
Proof.
  intros He HP. pose proof He as [[(gl & Hd) _ _ _] _]. destruct (db_Snapshot _ gl Hd) as (id & d & E & _).
  assert (eat e0 (set_db d e)) as He'.
  { eapply eat_set_db; [done|done|]. split; [|eapply (Q_snapshot ro); [done|by eexists|exact E]].
    intros gl' H. destruct (db_Snapshot _ gl' H) as (id' & d' & E' & Hop). rewrite E in E'. injection E' as <- <-. by eexists. }
  unfold wpe, db, on_db. rewrite E. apply HP; [done|apply He'|done..].
Qed.

Lemma wpe_Revert id e0 e e1 e2 (P : unit -> EVM -> Prop) : eat e0 e -> call Snapshot (evm_db e) = (Ok id, evm_db e1) ->
  evm_depth e1 = evm_depth e -> evm_readOnly e1 = evm_readOnly e -> eat e1 e2 ->
  (forall e3, eat e0 e3 -> db_equiv (evm_db e3) (evm_db e) -> P tt e3) -> wpe (db (RevertToSnapshot id)) e2 P.
Proof.
  intros He Hs Hd1 Hr1 [H2 [[K _] Hd2 Hr2]] HP. destruct He as [Hok Hsince].
  destruct (snapshot_block _ _ _ _ (ev_db _ Hok) Hs K) as (s3 & E & K3 & Heq). unfold wpe, db, on_db. rewrite E.
  apply HP; [|done]. split.
  - destruct H2 as [D J R T]. split; [|done|done|done]. by eapply kept_ok; [apply Hok|].
  - eapply esince_trans; [done|exact Hsince|]. split; [|cbn; congruence|cbn; congruence].
    split; [done|]. by eapply (Q_equiv ro).
Qed.

(** ** Calls *)

Context (env : Env) (Henv : env_ok env) (Hro : ro = true -> r_IsByzantium (chainRules env) = true).
Context (n : Z) (Run : runner) (HRun : runner_ok n Run).

Lemma run_spec c input readOnly e : 0 <= Gas c < n -> Gas c < gas_limit -> contract_ok c -> slice_ok input -> evm_ok e ->
  (ro = true -> readOnly || evm_readOnly e = true) -> wpe (run env Run c input readOnly) e (run_post e c).
Proof.
  intros Hg Hl Hc Hi He Hw. unfold run. destruct (CodeAddr c ≫= precompiles (chainRules env)) as [p|]; [|by apply HRun].
  destruct (RunPrecompiledContract_ok p input c Hi ltac:(lia)) as (r & err & c' & E & Hr & Hg'). unfold wpe, lift_out. rewrite E.
  split; [by apply eat_refl|]. by split.
Qed.

(** The contract a call runs. *)
Lemma contract_ok_call caller self x gas addr h code : in_word x -> slice_ok code ->
  slice_bytes code = [] \/ h = 0 \/ h = Keccak256Hash (slice_bytes code) ->
  contract_ok (SetCallCode (Some addr) h code (NewContract caller self (Some x) gas)).
Proof.
  intros Hx Hc Hh. split; cbn; [unfold slice_ok, slice_len in Hc; lia|done|by exists x|done|done].
Qed.

(** Running after a snapshot and settling. *)
Lemma wpe_run_settle e0 e e1 e2 id c input readOnly gas : evm_ok e0 -> eat e0 e -> db_equiv (evm_db e) (evm_db e0) ->
  call Snapshot (evm_db e) = (Ok id, evm_db e1) -> evm_depth e1 = evm_depth e -> evm_readOnly e1 = evm_readOnly e ->
  eat e0 e1 -> eat e1 e2 -> 0 <= gas < n -> gas < gas_limit -> Gas c = gas -> contract_ok c -> slice_ok input ->
  (ro = true -> readOnly || evm_readOnly e0 = true) ->
  wpe (r ← run env Run c input readOnly; settle id r) e2 (call_post e0 gas).
Proof.
  intros Hok He Hq Hs Hd1 Hr1 He1 He2 Hg Hgl Hgc Hc Hi Hw. subst gas. apply wpe_bind. eapply wpe_mono; [apply run_spec; try done|].
  - apply He2.
  - intros E. rewrite (es_readOnly _ _ _ (proj2 He2)), Hr1, (es_readOnly _ _ _ (proj2 He)). by apply Hw.
  - intros [[r err] c'] e3 (He3 & Hrs & Hg'). cbn [fst snd] in *. unfold settle. destruct err as [x|].
    + apply wpe_bind. eapply (wpe_Revert id e0 e e1); [done|done|done|done|by eapply eat_step|]. intros e4 He4 Hq4.
      apply wpe_ret. split; [done|]. cbn [fst snd]. split; [done|].
      split; [destruct (decide _); lia|]. intros y [= <-]. split; [by eapply db_equiv_trans|].
      destruct (decide (x = errExecutionReverted)); [right; by left|by left].
    + apply wpe_ret. split; [eapply eat_step; [exact He1|by eapply eat_step]|]. by split.
Qed.

Lemma call_early e gas err : evm_ok e -> 0 <= gas ->
  (forall x, err = Some x -> x = ErrDepth \/ x = ErrInsufficientBalance) -> forall e', eat e e' -> db_equiv (evm_db e') (evm_db e) ->
  call_post e gas (None, gas, err) e'.
Proof.
  intros Hok Hg Hx e' He Hq. split; [done|]. split; [done|]. cbn [fst snd]. split; [lia|]. intros x E. split; [done|]. right. right. by apply Hx.
Qed.

(** What the four kinds of calls begin with. *)
Lemma wpe_call_guards gas e (m : M EVM (slice * Z * option goerror)) : evm_ok e -> 0 <= gas -> wpe m e (call_post e gas) ->
  wpe (depth ← gets evm_depth; if NoRecursion (vmConfig env) && (0 <? depth) then ret (None, gas, None) else
       if CallCreateDepth <? depth then ret (None, gas, Some ErrDepth) else m) e (call_post e gas).
Proof.
  intros Hok Hg Hm. apply wpe_bind, wpe_gets. pose proof (eat_refl e Hok). pose proof (db_equiv_refl (evm_db e)).
  destruct (_ && _); [apply wpe_ret; by apply call_early|]. destruct (_ <? _); [|done].
  apply wpe_ret. apply call_early; try done. intros x [= <-]. by left.
Qed.

Lemma wpe_CanTransfer who value gas e (m : M EVM (slice * Z * option goerror)) : evm_ok e -> 0 <= gas ->
  (forall e', eat e e' -> db_equiv (evm_db e') (evm_db e) -> wpe m e' (call_post e gas)) ->
  wpe (ok ← CanTransfer who value; if negb ok then ret (None, gas, Some ErrInsufficientBalance) else m) e (call_post e gas).
Proof.
  intros Hok Hg Hm. apply wpe_bind. unfold CanTransfer. apply wpe_bind. apply (wpe_read _ e); [by apply eat_refl|done|].
  intros b e1 Hb He1 Hq1 _. apply wpe_ret. destruct (value <=? b); [by apply Hm|].
  apply wpe_ret. apply call_early; try done. intros x [= <-]. by right.
Qed.

Lemma wpe_Transfer from to value e0 e (P : unit -> EVM -> Prop) : eat e0 e -> in_word value -> (ro = true -> value = 0) ->
  (forall e', eat e0 e' -> P tt e') -> wpe (Transfer from to value) e P.
Proof.
  intros He Hv H0 HP. assert (ro = true -> (value =? 0) = true) as Hq by (intros E; apply Z.eqb_eq, H0, E).
  unfold Transfer. apply wpe_bind. apply (wpe_db ro Q mode _ e0); [done|done|done|exact Hq|]. intros _ e1 _ He1.
  apply (wpe_db ro Q mode _ e0); [done|done|done|exact Hq|]. intros [] e2 _ He2. by apply HP.
Qed.

(** An account is created when it does not exist. *)
Lemma wpe_create_missing addr b e0 e e1 (P : unit -> EVM -> Prop) : eat e0 e -> eat e0 e1 ->
  call (Exist addr) (evm_db e) = (Ok b, evm_db e1) -> (forall e', eat e0 e' -> P tt e') ->
  wpe (when (negb b) (db (CreateAccount addr))) e1 P.
Proof.
  intros He He1 E1 HP. apply wpe_when; intros Hb; [|by apply HP]. destruct b; [done|].
  pose proof He as [Hok [[_ Hq] _ _]]. pose proof He1 as [[(gl & Hd) J Rd T] [[K _] Hdep Hro1]].
  unfold wpe, db, on_db. destruct (call (CreateAccount addr) (evm_db e1)) as [o d] eqn:E2.
  pose proof (db_plain _ (CreateAccount addr) _ gl _ _ Hd eq_refl I E2) as Hl. destruct o as [[]|x|w|]; try done; [|by left].
  apply HP. split; split; try done.
  - exists gl. apply Hl.
  - split; [eapply kept_trans; [exact K|]; by eapply (plain_kept (CreateAccount addr))|].
    eapply (Q_trans ro); [done|exact Hq|]. eapply (Q_create ro); [done|apply Hok|exact E1|exact E2].
Qed.

Lemma Call_spec caller addr input gas value e : evm_ok e -> slice_ok input -> 0 <= gas < n -> gas < gas_limit -> in_word value ->
  (ro = true -> value = 0 /\ evm_readOnly e = true) -> wpe (Call env Run caller addr input gas value) e (call_post e gas).
Proof.
  intros Hok Hi Hg Hgl Hv Hw. unfold Call. apply wpe_call_guards; [done|lia|]. apply wpe_CanTransfer; [done|lia|]. intros e1 He1 Hq1.
  apply wpe_bind. apply (wpe_Snapshot e); [done|]. intros id e2 He2 Hok2 Hs Hd2 Hr2.
  apply wpe_bind. apply (wpe_read _ e2); [by apply eat_refl|done|]. intros b e3 _ He3 _ E3.
  destruct (negb b && _ && _ && _) eqn:Eearly.
  { apply wpe_ret. split; [by eapply eat_step|]. split; [done|]. by split; [cbn; lia|]. }
  apply wpe_bind. apply (wpe_create_missing addr b e2 e2 e3); [by apply eat_refl|done|done|]. intros e4 He4.
  apply wpe_bind. apply (wpe_Transfer _ _ _ e2); [done|done|intros E; by apply Hw|]. intros e5 He5.
  apply wpe_bind. apply (wpe_fresh_jumpdests _ e2); [done|]. intros e6 He6.
  apply (wpe_code _ e2); [done|]. intros h code e7 He7 Hc Hh.
  eapply (wpe_run_settle e e1 e2); try done; [by apply contract_ok_call|]. intros E. by rewrite (proj2 (Hw E)).
Qed.

Lemma CallCode_spec caller addr input gas value e : evm_ok e -> slice_ok input -> 0 <= gas < n -> gas < gas_limit -> in_word value ->
  (ro = true -> evm_readOnly e = true) -> wpe (CallCode env Run caller addr input gas value) e (call_post e gas).
Proof.
  intros Hok Hi Hg Hgl Hv Hw. unfold CallCode. apply wpe_call_guards; [done|lia|]. apply wpe_CanTransfer; [done|lia|]. intros e1 He1 Hq1.
  apply wpe_bind. apply (wpe_Snapshot e); [done|]. intros id e2 He2 Hok2 Hs Hd2 Hr2.
  apply wpe_bind. apply (wpe_fresh_jumpdests _ e2); [by apply eat_refl|]. intros e3 He3.
  apply (wpe_code _ e2); [done|]. intros h code e4 He4 Hc Hh.
  eapply (wpe_run_settle e e1 e2); try done. by apply contract_ok_call.
Qed.

Lemma DelegateCall_spec self who v addr input gas e : evm_ok e -> slice_ok input -> 0 <= gas < n -> gas < gas_limit ->
  ref_ok (ContractOf self who v) -> (ro = true -> evm_readOnly e = true) ->
  wpe (DelegateCall env Run (ContractOf self who v) addr input gas) e (call_post e gas).
Proof.
  intros Hok Hi Hg Hgl (x & -> & Hx) Hw. unfold DelegateCall. apply wpe_call_guards; [done|lia|].
  apply wpe_bind. apply (wpe_Snapshot e); [by apply eat_refl|]. intros id e2 He2 Hok2 Hs Hd2 Hr2.
  apply wpe_bind. apply (wpe_fresh_jumpdests _ e2); [by apply eat_refl|]. intros e3 He3.
  apply wpe_bind. cbn [AsDelegate NewContract c_caller lift_out]. unfold wpe at 1, lift_out.
  apply (wpe_code _ e2); [done|]. intros h code e4 He4 Hc Hh.
  eapply (wpe_run_settle e e e2); try done; [by apply eat_refl|apply db_equiv_refl|].
  split; cbn; [unfold slice_ok, slice_len in Hc; lia|done|by exists x|done|done].
Qed.

Lemma StaticCall_spec caller addr input gas e : evm_ok e -> slice_ok input -> 0 <= gas < n -> gas < gas_limit ->
  wpe (StaticCall env Run caller addr input gas) e (call_post e gas).
Proof.
  intros Hok Hi Hg Hgl. unfold StaticCall. apply wpe_call_guards; [done|lia|].
  apply wpe_bind. apply (wpe_Snapshot e); [by apply eat_refl|]. intros id e2 He2 Hok2 Hs Hd2 Hr2.
  apply wpe_bind. apply (wpe_fresh_jumpdests _ e2); [by apply eat_refl|]. intros e3 He3.
  apply (wpe_code _ e2); [done|]. intros h code e4 He4 Hc Hh.
  apply wpe_bind. apply (wpe_db ro Q mode _ e2); [done|done|cbn; unfold in_word; lia|done|]. intros _ e5 _ He5.
  eapply (wpe_run_settle e e e2); try done; [by apply eat_refl|apply db_equiv_refl|].
  apply contract_ok_call; [unfold in_word; lia|done|done].
Qed.

(** ** Creations *)

Context (Hwrite : ro = false).

Definition create_post (e : EVM) (gas : Z) (r : slice * address * Z * option goerror) (e' : EVM) : Prop :=
  eat e e' /\ slice_ok r.1.1.1 /\ 0 <= r.1.2 <= gas.

Lemma wpe_write {A} (c : method A) e0 e (P : A -> EVM -> Prop) : eat e0 e -> plain c = true -> args_ok c ->
  (forall a e', result_ok c a -> eat e0 e' -> P a e') -> wpe (db c) e P.
Proof. intros He Hp Ha. apply (wpe_db ro Q mode c e0); [done|done|done|]. intros E. congruence. Qed.

Lemma create_address_spec caller gas value address e : evm_ok e -> 0 <= gas ->
  wpe (create_address env caller gas value address) e
    (fun x e' => eat e e' /\ match x with inl r => slice_ok r.1.1.1 /\ 0 <= r.1.2 <= gas | inr _ => True end).
Proof.
  intros Hok Hg. unfold create_address. apply wpe_bind, wpe_gets. pose proof (eat_refl e Hok) as He0.
  destruct (_ <? _); [apply wpe_ret; split; [done|]; split; [done|cbn; lia]|].
  apply wpe_bind. unfold CanTransfer. apply wpe_bind. apply (wpe_write _ e); [done|done|done|]. intros b e1 _ He1. apply wpe_ret.
  destruct (negb _); [apply wpe_ret; split; [done|]; split; [done|cbn; lia]|]. destruct (UsingOVM env); [|by apply wpe_ret].
  apply wpe_bind. unfold AddressWhitelisted. apply wpe_bind. apply (wpe_write _ e); [done|done|done|]. intros owner e2 _ He2.
  assert (Hrest : forall w e3, eat e e3 -> wpe (if negb w then
      let solerr := ("deployer address not whitelisted: " +:+ Address_Hex (ref_Address caller))%string in
      match EncodeSolidityError env solerr with
      | inl _ => ret (inl (None, 0, gas, Some (ErrNew solerr)))
      | inr r => ret (inl (Some r, 0, gas, Some errExecutionReverted))
      end
    else chainID ← deref "nil ChainID" (ChainID (chainConfig env));
      let sysAddr := SystemAddressFor (envSystemAddressDeployer env) chainID (ref_Address caller) in
      if sysAddr =? ZeroSystemAddress then ret (inr address) else
      nonce ← db (GetNonce (ref_Address caller));
      ret (inr (if nonce =? 0 then sysAddr else address))) e3
    (fun x e' => eat e e' /\ match x with inl r => slice_ok r.1.1.1 /\ 0 <= r.1.2 <= gas | inr _ => True end)).
  { intros [|] e3 He3; cbn [negb]; cbv zeta.
    - destruct (eo_ChainID env Henv) as (cid & -> & _). apply wpe_bind, wpe_ret. destruct (_ =? _); [by apply wpe_ret|].
      apply wpe_bind. apply (wpe_write _ e); [done|done|done|]. intros nonce e4 _ He4. by apply wpe_ret.
    - destruct (EncodeSolidityError env _) as [err|r] eqn:Ee; apply wpe_ret; (split; [done|]); (split; [|cbn; lia]); [done|].
      by eapply eo_encode. }
  destruct (owner =? 0); [apply wpe_ret; by apply Hrest|]. cbv zeta.
  apply wpe_bind. apply (wpe_write _ e); [done|done|done|]. intros w e3 _ He3. apply wpe_ret. by apply Hrest.
Qed.

Lemma create_finish_spec e0 e e1 e2 id address gas r : eat e0 e -> call Snapshot (evm_db e) = (Ok id, evm_db e1) ->
  evm_depth e1 = evm_depth e -> evm_readOnly e1 = evm_readOnly e -> eat e0 e1 -> eat e1 e2 ->
  slice_ok r.1.1 -> 0 <= Gas r.2 <= gas -> gas < gas_limit -> wpe (create_finish env id address r) e2 (create_post e0 gas).
Proof.
  intros He Hs Hd1 Hr1 He1 He2 Hr Hg Hl. destruct r as [[r err] c]. cbn [fst snd] in *. unfold create_finish. cbv zeta.
  set (big := r_IsEIP158 _ && _). apply wpe_bind.
  assert (Hend : forall err' c' e3, eat e1 e3 -> 0 <= Gas c' <= gas ->
    wpe (gas0 ← (if big || match err' with None => false | Some x => r_IsHomestead (chainRules env) || bool_decide (x <> ErrCodeStoreOutOfGas) end
      then db (RevertToSnapshot id) ;; ret (if decide (err' = Some errExecutionReverted) then Gas c' else 0) else ret (Gas c'));
      ret (r, address, gas0, match err' with None => if big then Some errMaxCodeSizeExceeded else None | Some x => Some x end)) e3 (create_post e0 gas)).
  { intros err' c' e3 He3 Hg3. apply wpe_bind. destruct (big || _).
    - apply wpe_bind. eapply (wpe_Revert id e0 e e1); [done|done|done|done|done|]. intros e4 He4 _. apply wpe_ret, wpe_ret.
      split; [done|]. split; [done|]. cbn [fst snd]. destruct (decide _); lia.
    - apply wpe_ret, wpe_ret. split; [by eapply eat_step|]. by split. }
  destruct err as [x|]; [apply wpe_ret; by apply (Hend (Some x))|]. destruct big eqn:Ebig; [apply wpe_ret; by apply (Hend None)|].
  unfold UseGas. destruct (Z.ltb_spec (Gas c) (u64 (slice_len r * CreateDataGas))) as [Hlt|Hge]; [apply wpe_ret; by apply (Hend (Some _))|].
  apply wpe_bind. apply (wpe_write _ e1); [done|done|done|]. intros _ e3 _ He3. apply wpe_ret. apply (Hend None); [done|].
  cbn [Gas set_Gas]. pose proof (u64_in (slice_len r * CreateDataGas)) as Hu. unfold in_u64, gas_limit in *.
  assert (u64 (Gas c - u64 (slice_len r * CreateDataGas)) = Gas c - u64 (slice_len r * CreateDataGas)) as -> by (apply u64_small; unfold in_u64; lia).
  lia.
Qed.

Lemma create_spec caller ch gas value address e : evm_ok e -> slice_ok (ch_code ch) ->
  ch_hash ch = 0 \/ ch_hash ch = Keccak256Hash (slice_bytes (ch_code ch)) -> 0 <= gas < n -> gas < gas_limit -> in_word value ->
  wpe (create env Run caller ch gas value address) e (create_post e gas).
Proof.
  intros Hok Hc Hh Hg Hl Hv. unfold create. apply wpe_bind. eapply wpe_mono; [apply create_address_spec; [done|lia]|].
  intros [r|addr] e1 [He1 Hr]; [by apply wpe_ret|]. clear Hr.
  apply wpe_bind. apply (wpe_write _ e); [done|done|done|]. intros nonce e2 Hn He2.
  apply wpe_bind. apply (wpe_write _ e); [done|done|apply u64_in|]. intros _ e3 _ He3.
  apply wpe_bind. assert (Hwhen : wpe (when (r_IsBerlin (chainRules env)) (db (AddAddressToAccessList addr))) e3 (fun _ e' => eat e e')).
  { apply wpe_when; intros _; [|done]. by apply (wpe_write _ e). }
  eapply wpe_mono; [exact Hwhen|]. intros [] e4 He4. clear Hwhen.
  apply wpe_bind. apply (wpe_write _ e); [done|done|done|]. intros h e5 _ He5.
  apply wpe_bind. apply (wpe_write _ e); [done|done|done|]. intros nonce' e6 _ He6.
  destruct (_ || _); [apply wpe_ret; split; [done|]; split; [done|cbn; lia]|].
  apply wpe_bind. apply (wpe_Snapshot e); [done|]. intros id e7 He7 Hok7 Hs Hd7 Hr7. pose proof (eat_refl e7 Hok7) as He77.
  apply wpe_bind. apply (wpe_write _ e7); [done|done|done|]. intros _ e8 _ He8.
  apply wpe_bind. assert (Hwhen : wpe (when (r_IsEIP158 (chainRules env)) (db (SetNonce addr 1))) e8 (fun _ e' => eat e7 e')).
  { apply wpe_when; intros _; [|done]. by apply (wpe_write _ e7). }
  eapply wpe_mono; [exact Hwhen|]. intros [] e9 He9. clear Hwhen.
  apply wpe_bind. apply (wpe_Transfer _ _ _ e7); [done|done|congruence|]. intros e10 He10.
  apply wpe_bind. apply (wpe_fresh_jumpdests _ e7); [done|]. intros e11 He11. apply wpe_bind, wpe_gets.
  destruct (_ && _); [apply wpe_ret; split; [by eapply eat_step|]; split; [done|cbn; lia]|].
  apply wpe_bind. eapply wpe_mono; [apply run_spec; cbn [Gas SetCallCode NewContract]; try done|].
  - apply contract_ok_call; [done|done|tauto].
  - apply He11.
  - congruence.
  - intros r e12 (He12 & Hr & Hg12). eapply (create_finish_spec e e6 e7); try done. by eapply eat_step.
Qed.

Lemma Create_spec caller code gas value e : evm_ok e -> slice_ok code -> 0 <= gas < n -> gas < gas_limit -> in_word value ->
  wpe (Create env Run caller code gas value) e (create_post e gas).
Proof.
  intros Hok Hc Hg Hl Hv. unfold Create. apply wpe_bind. apply (wpe_write _ e); [by apply eat_refl|done|done|]. intros nonce e1 _ He1.
  eapply wpe_mono; [apply create_spec; try done; [apply He1|by left]|]. intros r e2 (He2 & H). split; [by eapply eat_step|done].
Qed.

Lemma Create2_spec caller code gas value salt e : evm_ok e -> slice_ok code -> 0 <= gas < n -> gas < gas_limit -> in_word value ->
  wpe (Create2 env Run caller code gas value salt) e (create_post e gas).
Proof. intros Hok Hc Hg Hl Hv. unfold Create2. cbv zeta. apply create_spec; try done. by right. Qed.
End calls.
