(* ===== verification/VMOpsFacts.v ===== *)
(** What the instructions keep.

    [exec_spec] is the promise of an instruction: from a frame in order, with the
    stack items it needs and the memory it asked for, it returns or fails; the frame
    stays in order, the stack changes by a fixed number of words, and the gas grows by
    no more than what was set aside for a call. *)
From stdpp Require Import prelude gmap list strings.
From Stdlib Require Import ZArith Lia.
From S2P Require Import Prelude Params VarBytes RLP Crypto StateData VMWord VMWordFacts VMAnalysis VMState VMPrecompiles VMGas VMCall VMOps VMLaws VMFrame VMGasFacts VMPrecompileFacts VMCallFacts.
Local Open Scope Z_scope.

(** The memory an operation asked for is there. *)
Definition memory_fits (f : option (list Z -> outcome (Z * bool))) (v : view) : Prop :=
  match f with None => True | Some f => exists sz, f (v_stk v) = Ok (sz, false) /\ sz <= mem_Len (v_mem v) end.

(** The instructions that run code. *)
Definition calls (op : Z) : bool := (op =? 0xf0) || (op =? 0xf1) || (op =? 0xf2) || (op =? 0xf4) || (op =? 0xf5) || (op =? 0xfa).

Lemma be_value_word b : (length b <= 32)%nat -> in_word (be_value b).
Proof.
  intros Hl. pose proof (be_value_range b) as Hr. split; [lia|]. eapply Z.lt_le_trans; [apply Hr|].
  change (2 ^ 256) with (256 ^ 32). apply Z.pow_le_mono_r; lia.
Qed.

Lemma addr_word_word a : in_word (addr_word a).
Proof. unfold addr_word. apply be_value_word. unfold addr_bytes. rewrite length_reverse, length_put_le. lia. Qed.

Lemma hash_word h : in_word (be_value (hash_bytes h)).
Proof. apply be_value_word. by rewrite length_hash_bytes. Qed.

Lemma small_word z : 0 <= z < 2 ^ 64 -> in_word z.
Proof. unfold in_word. lia. Qed.

Lemma of_bool_word b : in_word (of_bool b).
Proof. destruct b; done. Qed.

Create HintDb word.
#[export] Hint Resolve U256_word be_value_word addr_word_word hash_word small_word of_bool_word : word.
#[export] Hint Extern 1 (in_word 0) => (unfold in_word; lia) : word.
#[export] Hint Extern 1 (in_word 1) => (unfold in_word; lia) : word.

Section ops.
Context {crypto : Crypto} {natives : Natives} {S : Type} {database : Database S} {laws : DatabaseLaws S}.
Context (ro : bool) (Q : S -> S -> Prop) (mode : mode_ok ro Q) (env : Env) (Henv : env_ok env).
Local Abbreviation scope := (scope S).
Local Abbreviation at_ := (at_ Q).
Local Abbreviation runner := (Contract -> slice -> bool -> M (EVM S) (slice * option goerror * Contract)) (only parsing).

(** Where the instruction [op] starts: [w] for those that write, [bk] the gas set
    aside. *)
Record exec_pre (op : Z) (w : bool) (pops : nat) (f : option (list Z -> outcome (Z * bool))) (bk : Z) (n : Z) (Run : runner)
    (v : view) (s : scope) : Prop := {
  ep_run : runner_ok ro Q n Run;
  ep_at : at_ s v s;
  ep_mem : mem_ok (v_mem v);
  ep_stack : (pops <= length (v_stk v))%nat;
  ep_fits : memory_fits f v;
  ep_gas : 0 <= v_gas v;
  ep_back : 0 <= bk;
  ep_limit : v_gas v + bk < gas_limit;
  ep_n : calls op = true -> v_gas v + bk < n;
  ep_pc : 0 <= v_pc v < 2 ^ 64;
  ep_write : w = true -> ro = false;
  ep_op : GetOp (v_pc v) (sc_contract s) = op;
  ep_call : op = 0xf1 -> ro = true -> v_stk v !! 2%nat = Some 0;
  ep_readOnly : ro = true -> evm_readOnly (sc_evm s) = true }.

Definition exec_post (v : view) (s : scope) (delta bk : Z) (r : slice) (s' : scope) : Prop :=
  slice_ok r /\ exists v', at_ s v' s' /\ mem_ok (v_mem v') /\ 0 <= v_gas v' <= v_gas v + bk /\
    Z.of_nat (length (v_stk v')) = Z.of_nat (length (v_stk v)) + delta /\ 0 <= v_pc v' < 2 ^ 64.

Definition exec_spec (op : Z) (w : bool) (pops : nat) (delta : Z) (f : option (list Z -> outcome (Z * bool)))
    (bk : list Z -> Z -> Z) (x : runner -> M scope slice) : Prop :=
  forall n Run v s, exec_pre op w pops f (bk (v_stk v) (v_temp v)) n Run v s ->
    wp (fails Q s (v_gas v + bk (v_stk v) (v_temp v))) (x Run) s (exec_post v s delta (bk (v_stk v) (v_temp v))).

(** Starting on an instruction: the frame, and the items it needs. *)
Ltac ostart H :=
  let n := fresh "n" in let Run := fresh "Run" in let s := fresh "s" in
  intros n Run [stk mem g t pc] s [Hrun Hat Hmem Hstk Hfits Hgas Hbk Hlim Hn Hpc Hwr Hop Hcall Hro]; unfold at_least in *; wnorm.
(** Taking the items off a stack known to have them. *)
Ltac item := match goal with Hstk : (_ <= length ?st)%nat |- _ =>
  let x := fresh "x" in destruct st as [|x ?]; cbn [length] in Hstk; [lia|]; apply le_S_n in Hstk end.
Ltac oend := split; [auto|]; eexists; split; [eassumption|]; wnorm;
  split; [done|]; split; [lia|]; split; [cbn [length]; lia|first [done|apply u64_in|apply big_uint64_range]].
Ltac osteps := unfold done_nil; repeat (cbv beta zeta; wstep).

(** ** Words in, words out *)

Lemma binary_spec op f : (forall x y, in_word x -> in_word y -> in_word (f x y)) ->
  exec_spec op false 2 (-1) None (at_least 0) (fun _ => binary f).
Proof. intros Hf. ostart tt. do 2 item. unfold binary. osteps; [by apply Hf|]. oend. Qed.

Lemma unary_spec op f : (forall x, in_word x -> in_word (f x)) -> exec_spec op false 1 0 None (at_least 0) (fun _ => unary f).
Proof. intros Hf. ostart tt. item. unfold unary. osteps; [by apply Hf|]. oend. Qed.

(** Two operands popped and the result pushed. *)
Lemma binary_push_spec op f : (forall x y, in_word x -> in_word y -> in_word (f x y)) ->
  exec_spec op false 2 (-1) None (at_least 0) (fun _ => x ← pop; y ← pop; push (f x y) ;; done_nil).
Proof. intros Hf. ostart tt. do 2 item. osteps; [by apply Hf|]. oend. Qed.

Lemma ternary_push_spec op f : (forall x y z, in_word x -> in_word y -> in_word z -> in_word (f x y z)) ->
  exec_spec op false 3 (-2) None (at_least 0) (fun _ => x ← pop; y ← pop; z ← pop; push (f x y z) ;; done_nil).
Proof. intros Hf. ostart tt. do 3 item. osteps; [by apply Hf|]. oend. Qed.

Lemma land_word x y : in_word x -> in_word y -> in_word (Z.land x y).
Proof.
  intros Hx Hy. rewrite <- (U256_small x Hx). unfold U256. rewrite <- Z.land_assoc, (Z.land_comm _ y), Z.land_assoc. apply U256_word.
Qed.
Lemma lor_word x y : in_word x -> in_word y -> in_word (Z.lor x y).
Proof.
  intros Hx Hy. rewrite <- (U256_small x Hx), <- (U256_small y Hy). unfold U256. rewrite <- Z.land_lor_distr_l. apply U256_word.
Qed.
Lemma lxor_word x y : in_word x -> in_word y -> in_word (Z.lxor x y).
Proof.
  intros Hx Hy. assert (Z.lxor x y = Z.land (Z.lxor x y) tt256m1) as ->; [|apply U256_word].
  rewrite <- (U256_small x Hx), <- (U256_small y Hy). unfold U256. apply Z.bits_inj'. intros k Hk.
  rewrite !Z.land_spec, !Z.lxor_spec, !Z.land_spec. by destruct (Z.testbit tt256m1 k); rewrite ?andb_true_r, ?andb_false_r.
Qed.
Lemma math_Byte_word x th : in_word x -> in_word th -> in_word (if th <? 32 then math_Byte x 32 (big_int64 th) else 0).
Proof.
  intros Hx [Hth _]. destruct (Z.ltb_spec th 32); [|auto with word]. rewrite big_int64_small by lia.
  rewrite math_Byte_correct by (unfold in_word in Hx; lia). destruct (_ <? _); [|auto with word].
  apply small_word. pose proof (Z.mod_pos_bound (x / 256 ^ (31 - th)) 256 ltac:(lia)). lia.
Qed.
Lemma if_word (b : bool) x y : in_word x -> in_word y -> in_word (if b then x else y).
Proof. by destruct b. Qed.
Hint Resolve land_word lor_word lxor_word math_Byte_word if_word : word.

Lemma sdiv_word x y : in_word (sdiv x y).
Proof. unfold sdiv. auto with word. Qed.
Lemma smod_word x y : in_word (smod x y).
Proof. unfold smod. auto with word. Qed.
Lemma Exp_word x e : in_word e -> in_word (Exp x e).
Proof. intros [He _]. rewrite Exp_correct by done. apply Z.mod_pos_bound. lia. Qed.
Hint Resolve sdiv_word smod_word Exp_word : word.

Lemma opSignExtend_spec op : exec_spec op false 2 (-1) None (at_least 0) (fun _ => opSignExtend).
Proof.
  ostart tt. do 2 item. unfold opSignExtend, done_nil. wstep. wstep. wstep. wstep.
  - osteps; [apply U256_word|]. oend.
  - osteps. oend.
Qed.

Lemma opPop_spec op : exec_spec op false 1 (-1) None (at_least 0) (fun _ => opPop).
Proof. ostart tt. item. unfold opPop. osteps. oend. Qed.

Lemma nothing_spec op : exec_spec op false 0 0 None (at_least 0) (fun _ => done_nil).
Proof. ostart tt. osteps. oend. Qed.

(** ** Values of the environment *)

Lemma pushed_word_spec op x : in_word x -> exec_spec op false 0 1 None (at_least 0) (fun _ => pushed (ret x)).
Proof. intros Hx. ostart tt. unfold pushed. osteps; [done|]. oend. Qed.

(** What a frame in order says of the machine's registers. *)
Lemma at_gas s0 v s : at_ s0 v s -> Gas (sc_contract s) = v_gas v.
Proof. by intros [_ _ _ _ <-]. Qed.
Lemma at_pc s0 v s : at_ s0 v s -> sc_pc s = v_pc v.
Proof. by intros [_ _ _ _ <-]. Qed.
Lemma at_memory s0 v s : at_ s0 v s -> sc_memory s = v_mem v.
Proof. by intros [_ _ _ _ <-]. Qed.
Lemma at_Input s0 v s : at_ s0 v s -> Z.of_nat (length (slice_bytes (Input (sc_contract s)))) < 2 ^ 62.
Proof. intros H. apply (co_Input _ (at_contract _ _ _ _ H)). Qed.
Lemma at_Code s0 v s : at_ s0 v s -> Z.of_nat (length (Code (sc_contract s))) < 2 ^ 63.
Proof. intros H. apply (co_Code _ (at_contract _ _ _ _ H)). Qed.
Lemma at_returnData s0 v s : at_ s0 v s -> Z.of_nat (length (slice_bytes (evm_returnData (sc_evm s)))) < 2 ^ 62.
Proof. intros H. apply (ev_returnData _ (proj1 (at_evm _ _ _ _ H))). Qed.
Lemma at_value s0 v s : at_ s0 v s -> exists x, c_value (sc_contract s) = Some x /\ in_word x.
Proof. intros H. apply (co_value _ (at_contract _ _ _ _ H)). Qed.

(** A value read off the frame and pushed. *)
Lemma pushed_gets_spec op (f : scope -> Z) :
  (forall s0 v s, at_ s0 v s -> mem_ok (v_mem v) -> 0 <= v_gas v < gas_limit -> 0 <= v_pc v < 2 ^ 64 -> in_word (f s)) ->
  exec_spec op false 0 1 None (at_least 0) (fun _ => pushed (gets f)).
Proof. intros Hf. ostart tt. unfold pushed. osteps; [eapply Hf; [eassumption|done|wnorm; lia|done]|]. oend. Qed.

Lemma i64_word z : 0 <= z < 2 ^ 63 -> in_word (i64 z).
Proof. intros H. rewrite word_i64_small by lia. apply small_word. lia. Qed.
Lemma u64_word z : in_word (u64 z).
Proof. apply small_word, u64_in. Qed.
Hint Resolve i64_word u64_word : word.

Lemma opAddress_spec op : exec_spec op false 0 1 None (at_least 0) (fun _ => opAddress).
Proof. ostart tt. unfold opAddress, pushed. osteps; [auto with word|]. oend. Qed.

Lemma opCaller_spec op : exec_spec op false 0 1 None (at_least 0) (fun _ => opCaller).
Proof. apply pushed_gets_spec. auto with word. Qed.

Lemma opCallDataSize_spec op : exec_spec op false 0 1 None (at_least 0) (fun _ => opCallDataSize).
Proof. apply pushed_gets_spec. intros s0 v s Hat _ _ _. apply i64_word. pose proof (at_Input _ _ _ Hat). unfold slice_len. lia. Qed.

Lemma opReturnDataSize_spec op : exec_spec op false 0 1 None (at_least 0) (fun _ => opReturnDataSize).
Proof. apply pushed_gets_spec. auto with word. Qed.

Lemma opCodeSize_spec op : exec_spec op false 0 1 None (at_least 0) (fun _ => opCodeSize).
Proof. apply pushed_gets_spec. intros s0 v s Hat _ _ _. apply i64_word. pose proof (at_Code _ _ _ Hat). lia. Qed.

Lemma opPc_spec op : exec_spec op false 0 1 None (at_least 0) (fun _ => opPc).
Proof. apply pushed_gets_spec. intros s0 v s Hat _ _ Hpc. rewrite (at_pc _ _ _ Hat). by apply small_word. Qed.

Lemma opMsize_spec op : exec_spec op false 0 1 None (at_least 0) (fun _ => opMsize).
Proof.
  apply pushed_gets_spec. intros s0 v s Hat Hm _ _. rewrite (at_memory _ _ _ Hat). apply i64_word.
  pose proof (mo_max _ Hm). unfold max_memory, mem_Len in *. lia.
Qed.

Lemma opGas_spec op : exec_spec op false 0 1 None (at_least 0) (fun _ => opGas).
Proof. apply pushed_gets_spec. intros s0 v s Hat _ Hg _. rewrite (at_gas _ _ _ Hat). apply small_word. unfold gas_limit in Hg. lia. Qed.

Lemma opCallValue_spec op : exec_spec op false 0 1 None (at_least 0) (fun _ => opCallValue).
Proof.
  ostart tt. unfold opCallValue, pushed. wstep. wstep. wstep. destruct (at_value _ _ _ Hat) as (x & -> & Hx). cbn [deref]. osteps; [done|]. oend.
Qed.

Lemma opChainID_spec op : exec_spec op false 0 1 None (at_least 0) (fun _ => opChainID env).
Proof. unfold opChainID. destruct (eo_ChainID env Henv) as (x & -> & Hx). by apply pushed_word_spec. Qed.

Lemma opL1BlockNumber_spec op : exec_spec op false 0 1 None (at_least 0) (fun _ => opL1BlockNumber env).
Proof. ostart tt. unfold opL1BlockNumber, pushed. destruct (eo_L1 env Henv) as [x ->]. cbn [deref]. osteps; [auto with word|]. oend. Qed.

Lemma opBlockhash_spec op : exec_spec op false 1 0 None (at_least 0) (fun _ => opBlockhash env).
Proof. ostart tt. item. unfold opBlockhash. osteps; [auto with word|]. oend. Qed.

Lemma opCallDataLoad_spec op : exec_spec op false 1 0 None (at_least 0) (fun _ => opCallDataLoad).
Proof.
  ostart tt. item. unfold opCallDataLoad, done_nil. wstep. wstep. wstep. wstep. wstep.
  destruct (getDataBig_ok (slice_bytes (Input (sc_contract s0))) x 32) as (d & Ed & Hd);
    [pose proof (at_Input _ _ _ Hat0); lia|unfold in_word in *; lia|lia|].
  apply (wp_lift _ d); [done|]. osteps; [apply be_value_word; lia|]. oend.
Qed.

(** Reads of the database. *)
Lemma opBalance_spec op : exec_spec op false 1 0 None (at_least 0) (fun _ => opBalance).
Proof. ostart tt. item. unfold opBalance. osteps; [done|]. oend. Qed.

Lemma opSelfBalance_spec op : exec_spec op false 0 1 None (at_least 0) (fun _ => opSelfBalance).
Proof. ostart tt. unfold opSelfBalance, pushed. osteps; [done|]. oend. Qed.

Lemma opExtCodeSize_spec op : exec_spec op false 1 0 None (at_least 0) (fun _ => opExtCodeSize).
Proof. ostart tt. item. unfold opExtCodeSize. osteps; [auto with word|]. oend. Qed.

Lemma opExtCodeHash_spec op : exec_spec op false 1 0 None (at_least 0) (fun _ => opExtCodeHash).
Proof.
  ostart tt. item. unfold opExtCodeHash, done_nil. wstep. wstep. cbv zeta. wstep. wstep. wstep. destruct a; osteps; [auto with word|oend|auto with word|oend].
Qed.

Lemma opSload_spec op : exec_spec op false 1 0 None (at_least 0) (fun _ => opSload).
Proof. ostart tt. item. unfold opSload. osteps; [auto with word|]. oend. Qed.

(** ** Memory *)

Lemma mem_ok_bound m : mem_ok m -> 0 <= mem_Len m < 2 ^ 62.
Proof. intros H. pose proof (mo_max _ H). unfold max_memory, mem_Len in *. lia. Qed.

Lemma fits_region i j v o l : memory_fits (Some (memoryRegion i j)) v -> v_stk v !! i = Some o -> v_stk v !! j = Some l ->
  in_word o -> in_word l -> fits o l (mem_Len (v_mem v)).
Proof.
  intros (sz & E & Hle) Hi Hj [Ho _] [Hl _]. unfold memoryRegion, stack_Back in E. rewrite Hi, Hj in E. cbn in E. injection E as E.
  apply calcMemSize64_ok in E as [[-> _]|(_ & -> & _)]; [by left|by right|done|done].
Qed.

Lemma fits_fixed i c v o : memory_fits (Some (memoryFixed i c)) v -> v_stk v !! i = Some o -> in_word o -> 0 < c < 2 ^ 64 ->
  o + c <= mem_Len (v_mem v).
Proof.
  intros (sz & E & Hle) Hi [Ho _] Hc. unfold memoryFixed, stack_Back in E. rewrite Hi in E. cbn in E. injection E as E.
  apply calcMemSize64WithUint_ok in E as [[-> _]|(_ & -> & _)]; lia.
Qed.

Lemma fits_regions a b c d v o1 l1 o2 l2 : memory_fits (Some (memoryCallRegions a b c d)) v ->
  v_stk v !! a = Some o1 -> v_stk v !! b = Some l1 -> v_stk v !! c = Some o2 -> v_stk v !! d = Some l2 ->
  in_word o1 -> in_word l1 -> in_word o2 -> in_word l2 -> fits o1 l1 (mem_Len (v_mem v)) /\ fits o2 l2 (mem_Len (v_mem v)).
Proof.
  intros (sz & E & Hle) Ha Hb Hc Hd [Ho1 _] [Hl1 _] [Ho2 _] [Hl2 _]. unfold memoryCallRegions, memoryRegion, stack_Back in E.
  rewrite Ha, Hb, Hc, Hd in E. cbn in E. destruct (calcMemSize64 o1 l1) as [x [|]] eqn:E1; [done|].
  destruct (calcMemSize64 o2 l2) as [y [|]] eqn:E2; [done|]. injection E as <-.
  apply calcMemSize64_ok in E1; [|done|done]. apply calcMemSize64_ok in E2; [|done|done]. unfold fits.
  destruct (Z.ltb_spec y x); lia.
Qed.

Lemma wp_mem_read E s0 v s off l (P : slice -> scope -> Prop) : at_ s0 v s -> mem_ok (v_mem v) -> in_word off -> in_word l ->
  fits off l (mem_Len (v_mem v)) -> (forall r, slice_ok r -> slice_len r = l -> P r s) -> wp E (mem_read off l) s P.
Proof.
  intros Hat Hm [Ho _] [Hl _] Hf HP. pose proof (mem_ok_bound _ Hm) as Hb. unfold mem_read. apply wp_bind.
  eapply wp_memory; [exact Hat|]. unfold wp, lift_out. rewrite (mem_GetPtr_ok (v_mem v) ltac:(lia) off l Ho Hl Hf).
  destruct (Z.eqb_spec l 0) as [->|Hne]; [by apply HP|].
  assert (slice_len (Some (take (Z.to_nat l) (drop (Z.to_nat off) (mem_store (v_mem v))))) = l) as El.
  { unfold slice_len. cbn [slice_bytes default from_option]. unfold id. rewrite length_take, length_drop. unfold mem_Len in *. destruct Hf; lia. }
  apply HP; [|done]. unfold slice_ok. rewrite El. destruct Hf; lia.
Qed.

Lemma wp_mem_copy E s0 v s off l (P : slice -> scope -> Prop) : at_ s0 v s -> mem_ok (v_mem v) -> in_word off -> in_word l ->
  fits off l (mem_Len (v_mem v)) -> (forall r, slice_ok r -> slice_len r = l -> P r s) -> wp E (mem_copy off l) s P.
Proof.
  intros Hat Hm Ho Hl Hf HP. pose proof (wp_mem_read E s0 v s off l P Hat Hm Ho Hl Hf HP) as Hw. pose proof (mem_ok_bound _ Hm).
  unfold mem_read, mem_copy, wp, bindM, gets, lift_out in *. rewrite (at_memory _ _ _ Hat) in *.
  rewrite mem_GetCopy_ok; [done|lia|apply Ho|apply Hl|done].
Qed.

Lemma wp_mem_write E s0 v s off l d (P : unit -> scope -> Prop) : at_ s0 v s -> mem_ok (v_mem v) -> in_word off -> in_word l ->
  fits off l (mem_Len (v_mem v)) -> (forall m s', at_ s0 (with_mem m v) s' -> mem_ok m -> P tt s') -> wp E (mem_write off l d) s P.
Proof.
  intros Hat Hm [Ho _] [Hl _] Hf HP. pose proof (mem_ok_bound _ Hm) as Hb. unfold mem_write. apply wp_bind.
  eapply wp_memory; [exact Hat|]. destruct (mem_Set_ok (v_mem v) ltac:(lia) off l d Ho Hl Hf) as (m & Em & Hlen & Hgas).
  apply wp_bind. apply (wp_lift _ m); [done|]. eapply wp_set_memory; [exact Hat|]. intros s' Hat'. apply (HP m); [done|].
  destruct Hm as [H1 H2 H3]. split; rewrite ?Hlen, ?Hgas; done.
Qed.

Lemma opSha3_spec op : exec_spec op false 2 (-1) (Some memorySha3) (at_least 0) (fun _ => opSha3 env).
Proof.
  ostart tt. do 2 item. unfold opSha3, done_nil. wstep. wstep. wstep. wstep. wstep.
  eapply wp_mem_read; [eassumption|done|done|done|by eapply (fits_region _ _ _ _ _ Hfits)|]. intros r Hr _. cbv zeta.
  assert (in_word (be_value (keccak256 (slice_bytes r)))) by (apply be_value_word; rewrite keccak256_length; lia).
  wstep. wstep; [wstep|]; osteps; try done; oend.
Qed.

Lemma fits_length off l m : mem_ok m -> in_word off -> in_word l -> fits off l (mem_Len m) -> 0 <= l < 2 ^ 63.
Proof. intros Hm [Ho _] [Hl _] [->|Hf]; [lia|]. pose proof (mem_ok_bound m Hm). lia. Qed.

(** The copies: three operands and the source of the data. *)
Lemma wp_copy_data E s0 v s data memOffset dataOffset l (P : slice -> scope -> Prop) : at_ s0 v s -> mem_ok (v_mem v) ->
  in_word memOffset -> in_word dataOffset -> in_word l -> fits memOffset l (mem_Len (v_mem v)) -> Z.of_nat (length data) < 2 ^ 63 ->
  (forall m s', at_ s0 (with_mem m v) s' -> mem_ok m -> P None s') ->
  wp E (d ← lift_out (getDataBig data dataOffset l); mem_write memOffset l d ;; done_nil) s P.
Proof.
  intros Hat Hm Ho Hd Hl Hf Hlen HP. pose proof (fits_length _ _ _ Hm Ho Hl Hf) as Hl'.
  destruct (getDataBig_ok data dataOffset l Hlen ltac:(apply Hd) Hl') as (d & Ed & _). apply wp_bind. apply (wp_lift _ d); [done|].
  apply wp_bind. eapply wp_mem_write; [exact Hat|done|done|done|done|]. intros m s' Hat' Hm'. apply wp_ret. by apply (HP m).
Qed.

Lemma opCallDataCopy_spec op : exec_spec op false 3 (-3) (Some memoryCallDataCopy) (at_least 0) (fun _ => opCallDataCopy).
Proof.
  ostart tt. do 3 item. unfold opCallDataCopy. do 7 wstep. wstep.
  eapply wp_copy_data; [eassumption|done|done|done|done|by eapply (fits_region _ _ _ _ _ Hfits)|pose proof (at_Input _ _ _ Hat0); lia|].
  intros m s' Hat' Hm'. wnorm. oend.
Qed.

Lemma opCodeCopy_spec op : exec_spec op false 3 (-3) (Some memoryCodeCopy) (at_least 0) (fun _ => opCodeCopy).
Proof.
  ostart tt. do 3 item. unfold opCodeCopy. do 7 wstep. wstep.
  eapply wp_copy_data; [eassumption|done|done|done|done|by eapply (fits_region _ _ _ _ _ Hfits)|by eapply at_Code|].
  intros m s' Hat' Hm'. wnorm. oend.
Qed.

Lemma opExtCodeCopy_spec op : exec_spec op false 4 (-4) (Some memoryExtCodeCopy) (at_least 0) (fun _ => opExtCodeCopy).
Proof.
  ostart tt. do 4 item. unfold opExtCodeCopy. do 9 wstep. wstep. unfold slice_ok, slice_len in Hr.
  eapply wp_copy_data; [eassumption|done|done|done|done|by eapply (fits_region _ _ _ _ _ Hfits)|lia|].
  intros m s' Hat' Hm'. wnorm. oend.
Qed.

Lemma opReturnDataCopy_spec op : exec_spec op false 3 (-3) (Some memoryReturnDataCopy) (at_least 0) (fun _ => opReturnDataCopy).
Proof.
  ostart tt. do 3 item. unfold opReturnDataCopy, done_nil. do 6 wstep. cbv zeta. wstep. wstep. cbv beta.
  match goal with H : at_ _ _ ?s' |- context [evm_returnData (sc_evm ?s')] => pose proof (at_returnData _ _ _ H) as Hret;
    set (data := slice_bytes (evm_returnData (sc_evm s'))) in * end.
  destruct (negb (IsUint64 (x0 + x1)) || _) eqn:Eb; [wstep; eexists; split; [eassumption|wnorm; lia]|].
  apply orb_false_iff in Eb as [Eu El]. apply negb_false_iff, IsUint64_true in Eu. rewrite (word_uint64_small (x0 + x1)) in El by done.
  apply Z.ltb_ge in El. unfold in_word in *. rewrite !word_uint64_small by lia. wstep. eapply wp_lift; [apply subslice_Ok; lia|].
  wstep. eapply wp_mem_write; [eassumption|done|done|done|by eapply (fits_region _ _ _ _ _ Hfits)|]. intros m s' Hat' Hm'. wstep. wnorm. oend.
Qed.

Lemma opMload_spec op : exec_spec op false 1 0 (Some memoryMLoad) (at_least 0) (fun _ => opMload).
Proof.
  ostart tt. item. unfold opMload, done_nil. wstep. wstep. wstep.
  eapply wp_mem_read; [eassumption|done|done|by unfold in_word|right; eapply (fits_fixed _ _ _ _ Hfits); [done|done|lia]|].
  intros r Hr Hl. osteps; [apply be_value_word; unfold slice_len in Hl; lia|]. oend.
Qed.

Lemma mem_ok_store m b : mem_ok m -> length b = length (mem_store m) -> mem_ok (set_mem_store b m).
Proof. intros [H1 H2 H3] Hb. split; unfold mem_Len in *; cbn [mem_store set_mem_store mem_lastGasCost]; rewrite Hb; done. Qed.

Lemma opMstore_spec op : exec_spec op false 2 (-2) (Some memoryMStore) (at_least 0) (fun _ => opMstore).
Proof.
  ostart tt. do 2 item. unfold opMstore, done_nil. do 5 wstep. wstep.
  assert (x + 32 <= mem_Len mem) as Hf by (eapply (fits_fixed _ _ _ _ Hfits); [done|done|lia]). pose proof (mem_ok_bound _ Hmem).
  wstep. eapply wp_lift; [apply mem_Set32_ok; [lia|apply Hw|done|done]|]. osteps.
  assert (mem_ok (set_mem_store (splice (mem_store mem) x (hash_bytes x0)) mem)).
  { apply mem_ok_store; [done|]. apply length_splice; [apply Hw|]. rewrite length_hash_bytes. unfold mem_Len in Hf. lia. }
  oend.
Qed.

Lemma opMstore8_spec op : exec_spec op false 2 (-2) (Some memoryMStore8) (at_least 0) (fun _ => opMstore8).
Proof.
  ostart tt. do 2 item. unfold opMstore8, done_nil. do 5 wstep. wstep. cbv zeta.
  assert (x + 1 <= mem_Len mem) as Hf by (eapply (fits_fixed _ _ _ _ Hfits); [done|done|lia]). pose proof (mem_ok_bound _ Hmem).
  destruct Hw as [Hx _]. rewrite (big_int64_small x) by lia. rewrite (proj2 (Z.leb_le 0 x)), (proj2 (Z.ltb_lt x _)) by lia. cbn [andb]. osteps.
  match goal with Hm : at_ _ (with_mem (set_mem_store ?b mem) _) _ |- _ =>
    assert (mem_ok (set_mem_store b mem)) by (apply mem_ok_store; [done|by rewrite length_insert]) end.
  oend.
Qed.

(** ** Storage and flow *)

Lemma wf_BigToHash x : wf_hash (BigToHash x).
Proof.
  unfold BigToHash, BytesToHash. pose proof (be_value_word (drop (length (big_bytes x) - 32) (big_bytes x))) as H.
  rewrite length_drop in H. apply H. lia.
Qed.

Lemma opSstore_spec op : exec_spec op true 2 (-2) None (at_least 0) (fun _ => opSstore).
Proof. ostart tt. do 2 item. specialize (Hwr eq_refl). unfold opSstore. osteps; [by split; apply wf_BigToHash|]. oend. Qed.

Lemma wp_segment (code : bytes) E s0 v s pos bits (P : bool -> scope -> Prop) : at_ s0 v s -> Z.of_nat (length code) < 2 ^ 63 ->
  codeBitmap code = Ok bits -> 0 <= pos < Z.of_nat (length code) -> (forall b s', at_ s0 v s' -> P b s') -> wp E (lift_out (codeSegment pos bits)) s P.
Proof.
  intros Hat Hl Hb Hp HP. destruct (codeBitmap_segments code Hl) as (bits' & Hb' & Hs). rewrite Hb in Hb'. injection Hb' as <-.
  eapply wp_lift; [by apply Hs|]. by apply HP.
Qed.

Lemma wp_validJumpdest E s0 v s dest (P : bool -> scope -> Prop) : at_ s0 v s -> in_word dest ->
  (forall b s', at_ s0 v s' -> P b s') -> wp E (validJumpdest dest) s P.
Proof.
  intros Hat [Hd _] HP. unfold validJumpdest. wstep. wstep. cbv zeta.
  destruct ((63 <=? BitLen dest) || _) eqn:Eb; [wstep; by apply HP|]. apply orb_false_iff in Eb as [_ Eb]. apply Z.leb_gt in Eb.
  pose proof (big_uint64_range dest) as Hr. pose proof (at_Code _ _ _ Hat) as Hcl. set (c := sc_contract s) in *.
  destruct (negb _); [wstep; by apply HP|].
  destruct (codeBitmap_segments (Code c) Hcl) as (bits & Hbits & _). pose proof Hat as [He Hc Hs Hw Hv].
  destruct (negb (CodeHash c =? 0)) eqn:Eh.
  - wstep. wstep. apply negb_true_iff, Z.eqb_neq in Eh. destruct (evm_jumpdests (sc_evm s) !! CodeHash c) as [b|] eqn:Ej.
    + destruct (ev_jumpdests _ (proj1 He) _ _ Ej) as (code & Hk & Hl & Hb). destruct (decide (code = Code c)) as [->|Hne]; [eapply (wp_segment (Code c)); [done|done|done|lia|done]|].
      unfold wp, lift_out, codeSegment. destruct (b !! _); [by apply HP|]. right. right. exists (Code c), code, b.
      assert (CodeHash c = Keccak256Hash (Code c)) as Hh.
      { destruct (co_hash _ Hc) as [H|[H|H]]; fold c in H; [rewrite H in Eb; cbn in Eb; lia|done|done]. }
      rewrite Hh in Ej, Hk. by split; [congruence|].
    + wstep. eapply wp_lift; [exact Hbits|]. wstep. apply wp_modS. eapply (wp_segment (Code c) _ s0 v); [|done|done|lia|done].
      split; try done. destruct He as [[D J R T] [HS1 HS2 HS3]]. split; [|by split]. split; try done.
      intros h b. cbn. destruct (decide (h = CodeHash c)) as [->|Hne]; [|rewrite lookup_insert_ne by done; apply J].
      rewrite lookup_insert_eq. intros [= <-]. exists (Code c). split; [|done].
      destruct (co_hash _ Hc) as [H|[H|H]]; fold c in H; [rewrite H in Eb; cbn in Eb; lia|done|done].
  - destruct (c_analysis c) as [b|] eqn:Ea; [eapply (wp_segment (Code c)); [done|done|by apply (co_analysis _ Hc)|lia|done]|].
    wstep. eapply wp_lift; [exact Hbits|]. wstep. apply wp_modS. eapply (wp_segment (Code c) _ s0 v); [|done|done|lia|done].
    destruct Hc as [C1 C2 C3 C4 C5]. destruct Hs as [S1 S2 S3 S4 S5 S6]. split; try done.
    split; try done. cbn. intros b' [= <-]. done.
Qed.

Lemma opJump_spec op : exec_spec op false 1 (-1) None (at_least 0) (fun _ => opJump).
Proof.
  ostart tt. item. unfold opJump, done_nil. wstep. wstep. wstep. eapply wp_validJumpdest; [eassumption|done|]. intros b s' Hat'. clear Hat0.
  destruct b; cbn [negb]; osteps; [oend|]. eexists. split; [eassumption|wnorm; lia].
Qed.

Lemma opJumpi_spec op : exec_spec op false 2 (-2) None (at_least 0) (fun _ => opJumpi).
Proof.
  ostart tt. do 2 item. unfold opJumpi, done_nil. do 4 wstep. destruct (negb (x0 =? 0)); [|osteps; oend].
  wstep. eapply wp_validJumpdest; [eassumption|done|]. intros b s' Hat'.
  destruct b; cbn [negb]; osteps; [oend|]. eexists. split; [eassumption|wnorm; lia].
Qed.

Lemma b2z_word b : in_word (b2z b).
Proof. apply small_word. pose proof (b2z_range b). lia. Qed.
Hint Resolve b2z_word : word.

Lemma opPush0_spec op : exec_spec op false 0 1 None (at_least 0) (fun _ => opPush0).
Proof. ostart tt. unfold opPush0. osteps; [auto with word|]. oend. Qed.

Lemma opPush1_spec op : exec_spec op false 0 1 None (at_least 0) (fun _ => opPush1).
Proof. ostart tt. unfold opPush1. osteps; [auto with word|]. oend. Qed.

(** An instruction that is not [STOP] was fetched from inside the code. *)
Lemma fetched pc c op : GetOp pc c = op -> op <> 0 -> 0 <= pc -> pc < Z.of_nat (length (Code c)).
Proof. intros <-. unfold GetOp, GetByte. destruct (Z.ltb_spec pc (Z.of_nat (length (Code c)))); [done|]. congruence. Qed.

Lemma makePush_spec op n : op <> 0 -> 1 <= n <= 32 -> exec_spec op false 0 1 None (at_least 0) (fun _ => makePush n n).
Proof.
  intros Hne Hn0. ostart tt. unfold makePush, done_nil. wstep. wstep. cbv zeta. rewrite (at_pc _ _ _ Hat). wnorm.
  pose proof (fetched _ _ _ Hop Hne ltac:(lia)) as Hf. pose proof (at_Code _ _ _ Hat) as Hl. set (code := Code (sc_contract s)) in *.
  assert (u64 (pc + 1) = pc + 1) as -> by (apply u64_small; unfold in_u64; lia). rewrite word_i64_small by lia.
  set (lo := if pc + 1 <? _ then _ else _). set (hi := if lo + n <? _ then _ else _).
  assert (0 <= lo <= hi /\ hi <= Z.of_nat (length code) /\ hi <= lo + n) as Hb.
  { unfold hi, lo. repeat match goal with |- context [?a <? ?b] => destruct (Z.ltb_spec a b) end; lia. }
  wstep. destruct (subslice code lo hi) as [d| | |] eqn:Es; try (rewrite subslice_Ok in Es by lia; discriminate Es).
  apply length_subslice in Es. eapply wp_lift; [done|]. osteps; [|oend].
  apply be_value_word. pose proof (length_RightPadBytes d n). lia.
Qed.

Lemma makeDup_spec op n : 1 <= n -> exec_spec op false (Z.to_nat n) 1 None (at_least 0) (fun _ => makeDup (Z.to_nat n)).
Proof.
  intros Hn0. ostart tt. unfold makeDup, done_nil, stack_dup, stack_Back. wstep. wstep. wstep.
  destruct (lookup_lt_is_Some_2 stk (Z.to_nat n - 1) ltac:(lia)) as [x Hx]. pose proof (at_words _ _ _ _ Hat) as Hws. wnorm.
  apply (wp_lift _ (x :: stk)); [by rewrite Hx|]. osteps; [|oend].
  constructor; [by eapply Forall_lookup_1 in Hx|done].
Qed.

Lemma makeSwap_spec op n : 1 <= n -> exec_spec op false (Z.to_nat (n + 1)) 0 None (at_least 0) (fun _ => makeSwap (Z.to_nat n)).
Proof.
  intros Hn0. ostart tt. unfold makeSwap, done_nil, stack_swap, stack_Back. wstep. wstep. wstep.
  replace (Z.to_nat n + 1 - 1)%nat with (Z.to_nat n) by lia.
  destruct (lookup_lt_is_Some_2 stk (Z.to_nat n) ltac:(lia)) as [x Hx]. destruct (lookup_lt_is_Some_2 stk 0 ltac:(lia)) as [y Hy].
  pose proof (at_words _ _ _ _ Hat) as Hws. wnorm. eapply wp_lift; [rewrite Hx, Hy; reflexivity|]. osteps.
  - apply Forall_insert; [apply Forall_insert; [done|]|]; by eapply Forall_lookup_1.
  - split; [auto|]. eexists; split; [eassumption|]; wnorm. split; [done|]. split; [lia|]. split; [rewrite !length_insert; lia|done].
Qed.

Lemma wp_pop_topics E s0 k : forall v s (P : list hash -> scope -> Prop), at_ s0 v s -> (k <= length (v_stk v))%nat ->
  (forall ts s', at_ s0 (with_stk (drop k (v_stk v)) v) s' -> P ts s') -> wp E (pop_topics k) s P.
Proof.
  induction k as [|k IH]; intros [stk mem g t pc] s P Hat Hk HP; cbn [pop_topics]; [by wstep; apply HP|]. wnorm.
  destruct stk as [|x stk]; [cbn in Hk; lia|]. wstep. wstep. wstep. eapply IH; [eassumption|cbn in *; lia|].
  intros ts s' Hat'. wstep. by apply HP.
Qed.

Lemma makeLog_spec op k : exec_spec op true (k + 2) (- Z.of_nat (k + 2)) (Some memoryLog) (at_least 0) (fun _ => makeLog env k).
Proof.
  ostart tt. specialize (Hwr eq_refl). destruct stk as [|x [|x0 stk]]; cbn [length] in Hstk; try lia. unfold makeLog, done_nil. do 5 wstep.
  eapply wp_pop_topics; [eassumption|wnorm; lia|]. intros ts s' Hat'. wstep.
  eapply wp_mem_copy; [eassumption|done|done|done|by eapply (fits_region _ _ _ _ _ Hfits)|]. intros r Hr _.
  osteps. split; [auto|]. eexists; split; [eassumption|]; wnorm. split; [done|]. split; [lia|]. split; [rewrite length_drop; cbn [length]; lia|done].
Qed.

(** ** Ends *)

Lemma opReturn_spec op : exec_spec op false 2 (-2) (Some memoryReturn) (at_least 0) (fun _ => opReturn).
Proof.
  ostart tt. do 2 item. unfold opReturn. do 4 wstep.
  eapply wp_mem_read; [eassumption|done|done|done|by eapply (fits_region _ _ _ _ _ Hfits)|]. intros r Hr _. oend.
Qed.

Lemma IsSDUpdate_Ok num : exists b, IsSDUpdate (chainConfig env) num = Ok b.
Proof.
  destruct (eo_ChainID env Henv) as (id & Hid & _). unfold IsSDUpdate, chainIs. rewrite Hid. cbn.
  by destruct (id =? MetisMainnetChainID); eexists.
Qed.

Lemma opSuicide_spec op : exec_spec op true 1 (-1) None (at_least 0) (fun _ => opSuicide env).
Proof.
  ostart tt. specialize (Hwr eq_refl). item. unfold opSuicide, done_nil. do 11 wstep. destruct (UsingOVM env); [|osteps; oend].
  wstep. destruct (IsSDUpdate_Ok (Some (BlockNumber (context env)))) as [b Hb]. eapply wp_lift; [exact Hb|]. osteps; oend.
Qed.

(** ** Calls and creations *)

Context (Hbyz : ro = true -> r_IsByzantium (chainRules env) = true).

(** What a call may give back: the gas passed on, with the stipend of a transfer. *)
Definition call_back (st : list Z) (t : Z) : Z := t + match st !! 2%nat with Some v => if v =? 0 then 0 else 2300 | None => 0 end.

Lemma wp_on_evm {A} E s0 v s (m : M (EVM S) A) (R : A -> Prop) (P : A -> scope -> Prop) : at_ s0 v s ->
  wpe m (sc_evm s) (fun a e => eat Q (sc_evm s) e /\ R a) ->
  (forall a t s', at_ s0 (with_temp t v) s' -> R a -> P a s') -> wp E (on_evm m) s P.
Proof.
  intros Hat Hm HP. unfold wpe, wp, on_evm in *. destruct (m (sc_evm s)) as [[a|x|w|] e]; try done.
  destruct Hm as [He Hr]. apply (HP a (evm_callGasTemp e)); [|done]. destruct Hat as [H1 H2 H3 H4 H5]. subst v. split; try done.
  by eapply (eat_trans ro Q).
Qed.

Lemma wp_give_gas E s0 v s gas (P : unit -> scope -> Prop) : at_ s0 v s -> 0 <= v_gas v + gas < gas_limit ->
  (forall s', at_ s0 (with_gas (v_gas v + gas) v) s' -> P tt s') -> wp E (give_gas gas) s P.
Proof.
  intros Hat Hg HP. unfold give_gas. eapply wp_restore_gas; [exact Hat|]. intros s' Hat'. apply HP.
  assert (u64 (v_gas v + gas) = v_gas v + gas) as Eu by (apply u64_small; unfold in_u64, gas_limit in *; lia). by rewrite Eu in Hat'.
Qed.

Lemma at_ref_ok s0 v s : at_ s0 v s -> ref_ok (contract_ref (sc_contract s)).
Proof. intros H. by apply (at_value _ _ _ H). Qed.

(** The end of the four calls. *)
Lemma wp_called E s0 v0 v s off l gas r : at_ s0 v s -> mem_ok (v_mem v) -> in_word off -> in_word l -> fits off l (mem_Len (v_mem v)) ->
  slice_ok r.1.1 -> 0 <= r.1.2 <= gas -> 0 <= v_gas v0 -> v_gas v = v_gas v0 -> v_gas v0 + gas < gas_limit -> v_pc v = v_pc v0 -> 0 <= v_pc v0 < 2 ^ 64 ->
  forall delta, Z.of_nat (length (v_stk v)) + 1 = Z.of_nat (length (v_stk v0)) + delta ->
  wp E (called off l r) s (exec_post v0 s0 delta gas).
Proof.
  intros Hat Hm Ho Hl Hf Hr Hg Hg0 Eg Hlim Epc Hpc delta Hd. destruct r as [[r g] err]. cbn [fst snd] in *. unfold called. wstep.
  wstep; [destruct err; auto with word|].
  assert (Hend : forall m s2, at_ s0 (with_mem m (with_stk ((match err with None => 1 | Some _ => 0 end) :: v_stk v) v)) s2 -> mem_ok m ->
    wp E (give_gas g ;; ret r) s2 (exec_post v0 s0 delta gas)).
  { intros m s2 Hat1 Hm1. wstep. eapply wp_give_gas; [exact Hat1|wnorm; lia|]. intros s3 Hat2. wstep. split; [done|].
    eexists. split; [exact Hat2|]. wnorm. split; [done|]. split; [lia|]. split; [cbn [length]; lia|by rewrite Epc]. }
  wstep. wstep.
  - eapply wp_mem_write; [eassumption|done|done|done|done|]. intros m s2 Hat1 Hm1. by eapply (Hend m).
  - eapply (Hend (v_mem v)); [by destruct v|done].
Qed.

Lemma opCall_spec : exec_spec 0xf1 false 7 (-6) (Some memoryCall) call_back (opCall env).
Proof.
  ostart tt. specialize (Hn eq_refl). do 7 item. unfold call_back in *. cbn [lookup list_lookup] in *. pose proof (at_temp _ _ _ _ Hat) as Ht. wnorm.
  unfold opCall. do 4 wstep. do 12 wstep. cbv zeta. rewrite U256_small by done.
  destruct (fits_regions _ _ _ _ _ _ _ _ _ Hfits eq_refl eq_refl eq_refl eq_refl ltac:(done) ltac:(done) ltac:(done) ltac:(done)) as [Hf1 Hf2]. wnorm.
  set (gas := if negb (x1 =? 0) then _ else _). unfold gas_limit in *.
  assert (gas = t + (if x1 =? 0 then 0 else 2300)) as Egas.
  { unfold gas. destruct (x1 =? 0); cbn [negb]; [lia|]. apply u64_small. unfold in_u64. lia. }
  rewrite <- Egas in *. clearbody gas.
  wstep. eapply wp_mem_read; [eassumption|done|done|done|done|]. intros args Hargs _. wstep. wstep. wstep.
  eapply (wp_on_evm _ _ _ _ _ (fun r => slice_ok r.1.1 /\ 0 <= r.1.2 <= gas)); [eassumption| |].
  - match goal with H : at_ _ _ ?s' |- wpe _ (sc_evm ?s') _ => pose proof H as [[He Hs] _ _ _ _] end.
    eapply wpe_mono; [eapply Call_spec; try done; [lia|unfold gas_limit; lia|]|by intros r e (He' & Hr1 & Hr2 & _)].
    intros Ero. split; [by injection (Hcall eq_refl Ero)|]. rewrite (es_readOnly _ _ _ Hs). by apply Hro.
  - intros r t' s' Hat' [Hr1 Hr2]. eapply wp_called; try done; wnorm; unfold gas_limit; try lia. cbn [length]. lia.
Qed.

Lemma opCallCode_spec : exec_spec 0xf2 false 7 (-6) (Some memoryCall) call_back (opCallCode env).
Proof.
  ostart tt. specialize (Hn eq_refl). do 7 item. unfold call_back in *. cbn [lookup list_lookup] in *. pose proof (at_temp _ _ _ _ Hat) as Ht. wnorm.
  unfold opCallCode. do 4 wstep. do 12 wstep. cbv zeta. rewrite U256_small by done.
  destruct (fits_regions _ _ _ _ _ _ _ _ _ Hfits eq_refl eq_refl eq_refl eq_refl ltac:(done) ltac:(done) ltac:(done) ltac:(done)) as [Hf1 Hf2]. wnorm.
  set (gas := if negb (x1 =? 0) then _ else _). unfold gas_limit in *.
  assert (gas = t + (if x1 =? 0 then 0 else 2300)) as Egas.
  { unfold gas. destruct (x1 =? 0); cbn [negb]; [lia|]. apply u64_small. unfold in_u64. lia. }
  rewrite <- Egas in *. clearbody gas.
  wstep. eapply wp_mem_read; [eassumption|done|done|done|done|]. intros args Hargs _. wstep. wstep. wstep.
  eapply (wp_on_evm _ _ _ _ _ (fun r => slice_ok r.1.1 /\ 0 <= r.1.2 <= gas)); [eassumption| |].
  - match goal with H : at_ _ _ ?s' |- wpe _ (sc_evm ?s') _ => pose proof H as [[He Hs] _ _ _ _] end.
    eapply wpe_mono; [eapply CallCode_spec; try done; [lia|unfold gas_limit; lia|]|by intros r e (He' & Hr1 & Hr2 & _)].
    intros Ero. rewrite (es_readOnly _ _ _ Hs). by apply Hro.
  - intros r t' s' Hat' [Hr1 Hr2]. eapply wp_called; try done; wnorm; unfold gas_limit; try lia. cbn [length]. lia.
Qed.

Lemma opDelegateCall_spec : exec_spec 0xf4 false 6 (-5) (Some memoryDelegateCall) pass_least (opDelegateCall env).
Proof.
  ostart tt. specialize (Hn eq_refl). do 6 item. unfold pass_least in *. pose proof (at_temp _ _ _ _ Hat) as Ht. wnorm.
  unfold opDelegateCall. do 4 wstep. do 10 wstep.
  destruct (fits_regions _ _ _ _ _ _ _ _ _ Hfits eq_refl eq_refl eq_refl eq_refl ltac:(done) ltac:(done) ltac:(done) ltac:(done)) as [Hf1 Hf2]. wnorm.
  unfold gas_limit in *.
  wstep. eapply wp_mem_read; [eassumption|done|done|done|done|]. intros args Hargs _. wstep. wstep. wstep.
  eapply (wp_on_evm _ _ _ _ _ (fun r => slice_ok r.1.1 /\ 0 <= r.1.2 <= t)); [eassumption| |].
  - match goal with H : at_ _ _ ?s' |- wpe _ (sc_evm ?s') _ => pose proof (at_ref_ok _ _ _ H); pose proof H as [[He Hs] _ _ _ _] end.
    eapply wpe_mono; [eapply DelegateCall_spec; try done; [lia|unfold gas_limit; lia|]|by intros r e (He' & Hr1 & Hr2 & _)].
    intros Ero. rewrite (es_readOnly _ _ _ Hs). by apply Hro.
  - intros r t' s' Hat' [Hr1 Hr2]. eapply wp_called; try done; wnorm; unfold gas_limit; try lia. cbn [length]. lia.
Qed.

Lemma opStaticCall_spec : exec_spec 0xfa false 6 (-5) (Some memoryStaticCall) pass_least (opStaticCall env).
Proof.
  ostart tt. specialize (Hn eq_refl). do 6 item. unfold pass_least in *. pose proof (at_temp _ _ _ _ Hat) as Ht. wnorm.
  unfold opStaticCall. do 4 wstep. do 10 wstep.
  destruct (fits_regions _ _ _ _ _ _ _ _ _ Hfits eq_refl eq_refl eq_refl eq_refl ltac:(done) ltac:(done) ltac:(done) ltac:(done)) as [Hf1 Hf2]. wnorm.
  unfold gas_limit in *.
  wstep. eapply wp_mem_read; [eassumption|done|done|done|done|]. intros args Hargs _. wstep. wstep. wstep.
  eapply (wp_on_evm _ _ _ _ _ (fun r => slice_ok r.1.1 /\ 0 <= r.1.2 <= t)); [eassumption| |].
  - match goal with H : at_ _ _ ?s' |- wpe _ (sc_evm ?s') _ => pose proof H as [[He Hs] _ _ _ _] end.
    eapply wpe_mono; [eapply StaticCall_spec; try done; [lia|unfold gas_limit; lia]|by intros r e (He' & Hr1 & Hr2 & _)].
  - intros r t' s' Hat' [Hr1 Hr2]. eapply wp_called; try done; wnorm; unfold gas_limit; try lia. cbn [length]. lia.
Qed.

(** The end of the two creations. *)
Lemma wp_created E s0 v0 v s (ok : bool) r delta : at_ s0 v s -> mem_ok (v_mem v) -> slice_ok r.1.1.1 -> 0 <= v_gas v -> 0 <= r.1.2 ->
  v_gas v + r.1.2 <= v_gas v0 -> v_gas v0 < gas_limit -> v_pc v = v_pc v0 -> 0 <= v_pc v0 < 2 ^ 64 ->
  Z.of_nat (length (v_stk v)) + 1 = Z.of_nat (length (v_stk v0)) + delta ->
  wp E (created ok r) s (exec_post v0 s0 delta 0).
Proof.
  intros Hat Hm Hr Hg Hg1 Hg2 Hlim Epc Hpc Hd. destruct r as [[[r a] g] err]. cbn [fst snd] in *. unfold created. wstep.
  wstep; [destruct ok; auto with word|]. wstep. eapply wp_give_gas; [eassumption|wnorm; lia|]. intros s2 Hat2. wstep.
  split; [by destruct (decide _)|]. eexists. split; [exact Hat2|]. wnorm. split; [done|]. split; [lia|]. split; [cbn [length]; lia|by rewrite Epc].
Qed.

Lemma all_but_64th_range g : 0 <= g < gas_limit -> 0 <= u64 (g - g / 64) <= g.
Proof.
  intros Hg. unfold gas_limit in Hg. pose proof (Z.div_le_upper_bound g 64 g ltac:(lia) ltac:(lia)). pose proof (Z.div_pos g 64 ltac:(lia) ltac:(lia)).
  assert (u64 (g - g / 64) = g - g / 64) as -> by (apply u64_small; unfold in_u64; lia). lia.
Qed.

Lemma opCreate_spec : exec_spec 0xf0 true 3 (-2) (Some memoryCreate) (at_least 0) (opCreate env).
Proof.
  ostart tt. specialize (Hwr eq_refl). specialize (Hn eq_refl). do 3 item. unfold opCreate. do 7 wstep.
  eapply wp_mem_copy; [eassumption|done|done|done|by eapply (fits_region _ _ _ _ _ Hfits)|]. intros input Hi _. wstep. wstep. cbv zeta.
  rewrite (at_gas _ _ _ Hat0). wnorm. set (gas := if r_IsEIP150 _ then _ else _).
  assert (0 <= gas <= g) as Hgr by (unfold gas; destruct (r_IsEIP150 _); [apply all_but_64th_range|]; lia). clearbody gas.
  match goal with |- context [contract_ref ?c] => set (ref := contract_ref c) end.
  wstep. eapply wp_use_gas; [eassumption|wnorm; lia|lia|intros; wnorm; lia|]. intros _ sg Hat1. wnorm. wstep.
  eapply (wp_on_evm _ _ _ _ _ (fun r => slice_ok r.1.1.1 /\ 0 <= r.1.2 <= gas)); [eassumption| |].
  - pose proof Hat1 as [[He Hs] _ _ _ _]. eapply wpe_mono; [eapply Create_spec; try done; [lia|unfold gas_limit in *; lia]|done].
  - intros r t' s' Hat' [Hr1 Hr2]. eapply wp_created; try done; wnorm; try lia. cbn [length]. lia.
Qed.

Lemma opCreate2_spec : exec_spec 0xf5 true 4 (-3) (Some memoryCreate2) (at_least 0) (opCreate2 env).
Proof.
  ostart tt. specialize (Hwr eq_refl). specialize (Hn eq_refl). do 4 item. unfold opCreate2. do 9 wstep.
  eapply wp_mem_copy; [eassumption|done|done|done|by eapply (fits_region _ _ _ _ _ Hfits)|]. intros input Hi _. wstep. wstep. cbv zeta.
  rewrite (at_gas _ _ _ Hat). wnorm. pose proof (all_but_64th_range g ltac:(lia)) as Hgr. set (gas := u64 _) in *. clearbody gas.
  match goal with |- context [contract_ref ?c] => set (ref := contract_ref c) end.
  wstep. eapply wp_use_gas; [eassumption|wnorm; lia|lia|intros; wnorm; lia|]. intros _ sg Hat1. wnorm. wstep.
  eapply (wp_on_evm _ _ _ _ _ (fun r => slice_ok r.1.1.1 /\ 0 <= r.1.2 <= gas)); [eassumption| |].
  - pose proof Hat1 as [[He Hs] _ _ _ _]. eapply wpe_mono; [eapply Create2_spec; try done; [lia|unfold gas_limit in *; lia]|done].
  - intros r t' s' Hat' [Hr1 Hr2]. eapply wp_created; try done; wnorm; try lia. cbn [length]. lia.
Qed.
End ops.
