(* ===== verification/VMTableFacts.v ===== *)
(** Every instruction table is in order.

    [op_ok]: what an entry executes keeps the promise of the instructions with the
    stack bounds, memory size and write flag of the entry, and its price exceeds what
    a call may give back unless the entry ends the frame.  All tables the interpreter
    chooses from consist of such entries. *)
From stdpp Require Import prelude gmap list strings.
From Stdlib Require Import ZArith Lia.
From S2P Require Import Prelude Params VarBytes RLP Crypto StateData VMWord VMWordFacts VMAnalysis VMState VMPrecompiles VMGas VMCall VMOps VMTable VMLaws VMFrame VMGasFacts VMPrecompileFacts VMCallFacts VMOpsFacts.
Local Open Scope Z_scope.

Section table.
Context {crypto : Crypto} {natives : Natives} {S : Type} {database : Database S} {laws : DatabaseLaws S}.
Context (ro : bool) (Q : S -> S -> Prop) (mode : mode_ok ro Q) (env : Env) (Henv : env_ok env).
Context (Hbyz : ro = true -> r_IsByzantium (chainRules env) = true).
Local Abbreviation scope := (scope S).
Local Abbreviation operation := (operation (S:=S)).
Local Abbreviation JumpTable := (gmap Z operation).

(** With its operands on the stack, an entry can tell the memory it needs. *)
Definition memory_total (pops : Z) (f : option (list Z -> outcome (Z * bool))) : Prop :=
  match f with
  | None => True
  | Some f => forall st, Forall in_word st -> pops <= Z.of_nat (length st) -> exists sz b, f st = Ok (sz, b) /\ 0 <= sz < 2 ^ 64
  end.

Lemma calcMemSize64WithUint_range off l : 0 <= (calcMemSize64WithUint off l).1 < 2 ^ 64.
Proof.
  unfold calcMemSize64WithUint. destruct (l =? 0); [done|]. destruct (negb _); [done|]. cbv zeta. cbn [fst]. apply u64_in.
Qed.
Lemma calcMemSize64_range off l : 0 <= (calcMemSize64 off l).1 < 2 ^ 64.
Proof. unfold calcMemSize64. destruct (negb _); [done|]. apply calcMemSize64WithUint_range. Qed.

Lemma memoryRegion_total pops i j : Z.of_nat i < pops -> Z.of_nat j < pops -> memory_total pops (Some (memoryRegion i j)).
Proof.
  intros Hi Hj st Hst Hl. destruct (lookup_lt_is_Some_2 st i ltac:(lia)) as [o Ho]. destruct (lookup_lt_is_Some_2 st j ltac:(lia)) as [l Hl'].
  unfold memoryRegion, stack_Back. rewrite Ho, Hl'. cbn. pose proof (calcMemSize64_range o l). destruct (calcMemSize64 o l) as [sz b]. by exists sz, b.
Qed.
Lemma memoryFixed_total pops i c : Z.of_nat i < pops -> memory_total pops (Some (memoryFixed i c)).
Proof.
  intros Hi st Hst Hl. destruct (lookup_lt_is_Some_2 st i ltac:(lia)) as [o Ho]. unfold memoryFixed, stack_Back. rewrite Ho. cbn.
  pose proof (calcMemSize64WithUint_range o c). destruct (calcMemSize64WithUint o c) as [sz b]. by exists sz, b.
Qed.
Lemma memoryCallRegions_total pops a b c d : Z.of_nat a < pops -> Z.of_nat b < pops -> Z.of_nat c < pops -> Z.of_nat d < pops ->
  memory_total pops (Some (memoryCallRegions a b c d)).
Proof.
  intros Ha Hb Hc Hd st Hst Hl. destruct (memoryRegion_total pops a b Ha Hb st Hst Hl) as (x & o & Ex & Hx).
  destruct (memoryRegion_total pops c d Hc Hd st Hst Hl) as (y & o' & Ey & Hy). unfold memoryCallRegions. rewrite Ex, Ey. cbn.
  destruct o; [by exists 0, true|]. destruct o'; [by exists 0, true|]. eexists _, false. split; [done|]. by destruct (y <? x).
Qed.
Hint Resolve memoryRegion_total memoryFixed_total memoryCallRegions_total : core.

(** What repricing an entry keeps. *)
Record trait := mkTrait { tr_writes : bool; tr_pops : Z; tr_sized : bool; tr_ends : bool; tr_back : list Z -> Z -> Z }.
Definition trait_of (o : operation) (bk : list Z -> Z -> Z) : trait :=
  mkTrait (writes o) (op_minStack o) (match memorySize o with Some _ => true | None => false end) (halts o || reverts o) bk.

(** The entries that later tables reprice, and those that run code. *)
Definition traits (op : Z) : option trait :=
  if op =? EXP then Some (mkTrait false 2 false false (at_least 0))
  else if op =? SSTORE then Some (mkTrait true 2 false false (at_least 0))
  else if (op =? BALANCE) || (op =? EXTCODESIZE) || (op =? EXTCODEHASH) || (op =? SLOAD) then Some (mkTrait false 1 false false (at_least 0))
  else if op =? EXTCODECOPY then Some (mkTrait false 4 true false (at_least 0))
  else if (op =? CALL) || (op =? CALLCODE) then Some (mkTrait false 7 true false call_back)
  else if (op =? DELEGATECALL) || (op =? STATICCALL) then Some (mkTrait false 6 true false pass_least)
  else if op =? CREATE then Some (mkTrait true 3 true false (at_least 0))
  else if op =? CREATE2 then Some (mkTrait true 4 true false (at_least 0))
  else if op =? SELFDESTRUCT then Some (mkTrait true 1 false true (at_least 0))
  else None.

(** Pushes, duplications, exchanges and logs are never repriced. *)
Lemma traits_stack op : 0x5f <= op <= 0xa4 -> traits op = None.
Proof. intros Hop. unfold traits. repeat match goal with |- context [op =? ?x] => rewrite (proj2 (Z.eqb_neq op x)) by lia end. done. Qed.

Lemma calls_traits op : calls op = true -> exists T, traits op = Some T /\ tr_ends T = false.
Proof.
  unfold calls. rewrite !orb_true_iff, !Z.eqb_eq. intros [[[[[->| ->]| ->]| ->]| ->]| ->]; eexists; by vm_compute.
Qed.

(** A dynamic price covers what is given back; [strict]: with something left over. *)
Definition charge_ok (T : trait) (strict : bool) (g : option (Z -> M scope Z)) : Prop :=
  match g with
  | None => tr_sized T = false /\ strict = false /\ forall st t, tr_back T st t <= 0
  | Some g => exists least, gas_spec ro Q (tr_writes T) (tr_sized T) (Z.to_nat (tr_pops T)) least (2 ^ 64) g /\
      forall st t, tr_back T st t + (if strict then 1 else 0) <= least st t
  end.

Definition price_ok (T : trait) (c : Z) (g : option (Z -> M scope Z)) : Prop :=
  0 <= c < 2 ^ 32 /\ exists strict, charge_ok T strict g /\ (tr_ends T = true \/ 1 <= c \/ strict = true).

Definition op_ok (op : Z) (o : operation) : Prop := exists bk,
  0 <= op_minStack o /\ (forall st t, 0 <= t -> 0 <= bk st t) /\
  exec_spec ro Q op (writes o) (Z.to_nat (op_minStack o)) (1024 - op_maxStack o) (memorySize o) bk (execute o) /\
  price_ok (trait_of o bk) (constantGas o) (dynamicGas o) /\
  memory_total (op_minStack o) (memorySize o) /\
  forall T, traits op = Some T -> trait_of o bk = T.

Definition jt_ok (jt : JumpTable) : Prop := forall op o, jt !! op = Some o -> op_ok op o.

(** ** Building tables *)

Lemma jt_ok_insert op o jt : jt_ok jt -> op_ok op o -> jt_ok (<[op := o]> jt).
Proof. intros Hjt Ho op' o'. destruct (decide (op = op')) as [<-|Hne]; [rewrite lookup_insert_eq|rewrite lookup_insert_ne by done; apply Hjt]. by intros [= <-]. Qed.

Lemma jt_ok_alter op f jt : jt_ok jt -> (forall o, op_ok op o -> op_ok op (f o)) -> jt_ok (alter f op jt).
Proof.
  intros Hjt Hf op' o'. destruct (decide (op = op')) as [<-|Hne]; [|rewrite lookup_alter_ne by done; apply Hjt].
  rewrite lookup_alter_eq. destruct (jt !! op) as [o|] eqn:E; [|done]. intros [= <-]. by apply Hf, Hjt.
Qed.

Lemma alter_alter (f g : operation -> operation) op (jt : JumpTable) : alter f op (alter g op jt) = alter (f ∘ g) op jt.
Proof.
  apply map_eq. intros i. destruct (decide (op = i)) as [<-|Hne]; [|by rewrite !lookup_alter_ne].
  rewrite !lookup_alter_eq. by destruct (jt !! op).
Qed.

Lemma jt_ok_list l : Forall (fun p => op_ok p.1 p.2) l -> jt_ok (list_to_map l).
Proof.
  intros Hl op o Ho. apply elem_of_list_to_map_2 in Ho. rewrite Forall_forall in Hl. by apply (Hl (op, o)).
Qed.

Lemma jt_ok_costing op c jt : jt_ok jt -> 1 <= c < 2 ^ 32 -> jt_ok (set_constantGas op c jt).
Proof.
  intros Hjt Hc. apply jt_ok_alter; [done|]. intros o (bk & H1 & H2 & H3 & (_ & strict & H4 & _) & Hm & H5). exists bk.
  split; [done|]. split; [done|]. split; [done|]. split; [|by split]. split; [cbn; lia|]. exists strict. split; [done|]. right. left. cbn. lia.
Qed.

Lemma jt_ok_charging op g jt T strict : jt_ok jt -> traits op = Some T -> charge_ok T strict (Some g) -> tr_ends T = true \/ strict = true ->
  jt_ok (set_dynamicGas op g jt).
Proof.
  intros Hjt HT Hg Hs. apply jt_ok_alter; [done|]. intros o (bk & H1 & H2 & H3 & (H4 & _) & Hm & H5). exists bk.
  split; [done|]. split; [done|]. split; [done|]. split; [|by split]. split; [done|]. exists strict. specialize (H5 T HT).
  change (trait_of (charging g o) bk) with (trait_of o bk). rewrite H5. tauto.
Qed.

Lemma jt_ok_repricing op c g jt T strict : jt_ok jt -> traits op = Some T -> 0 <= c < 2 ^ 32 -> charge_ok T strict (Some g) ->
  tr_ends T = true \/ 1 <= c \/ strict = true -> jt_ok (set_dynamicGas op g (set_constantGas op c jt)).
Proof.
  intros Hjt HT Hc Hg Hs. unfold set_dynamicGas, set_constantGas. rewrite alter_alter.
  apply jt_ok_alter; [done|]. intros o (bk & H1 & H2 & H3 & _ & Hm & H5). exists bk.
  split; [done|]. split; [done|]. split; [done|]. split; [|by split]. split; [done|]. exists strict. specialize (H5 T HT).
  change (trait_of ((charging g ∘ costing c) o) bk) with (trait_of o bk). rewrite H5. auto.
Qed.

(** ** Entries *)

(** An entry of fixed price that is never repriced, or has the traits of one that is. *)
Lemma op_ok_instr op x c pops pushes : exec_spec ro Q op false (Z.to_nat pops) (pushes - pops) None (at_least 0) x -> 0 <= pops ->
  1 <= c < 2 ^ 32 -> (forall T, traits op = Some T -> mkTrait false pops false false (at_least 0) = T) -> op_ok op (instr x c pops pushes).
Proof.
  intros Hx Hp Hc HT. exists (at_least 0). split; [done|]. split; [done|]. split.
  { cbn [op_maxStack instr execute writes memorySize op_minStack]. unfold maxStack, minStack. by replace (1024 - (1024 + pops - pushes)) with (pushes - pops) by lia. }
  split; [|by split]. split; [cbn; lia|]. exists false. split; [done|]. right. left. cbn. lia.
Qed.

(** Any other entry. *)
Lemma op_ok_entry op o bk strict : exec_spec ro Q op (writes o) (Z.to_nat (op_minStack o)) (1024 - op_maxStack o) (memorySize o) bk (execute o) ->
  0 <= op_minStack o -> (forall st t, 0 <= t -> 0 <= bk st t) -> 0 <= constantGas o < 2 ^ 32 ->
  charge_ok (trait_of o bk) strict (dynamicGas o) -> halts o || reverts o = true \/ 1 <= constantGas o \/ strict = true ->
  memory_total (op_minStack o) (memorySize o) -> (forall T, traits op = Some T -> trait_of o bk = T) -> op_ok op o.
Proof. intros H1 H2 H3 H4 H5 H6 H7 H8. exists bk. split; [done|]. split; [done|]. split; [done|]. split; [|by split]. split; [done|]. exists strict. auto. Qed.

Lemma charge_ok_spec T (strict : bool) n least g : gas_spec ro Q false (tr_sized T) n least (2 ^ 64) g -> (n <= Z.to_nat (tr_pops T))%nat ->
  (forall st t, tr_back T st t + (if strict then 1 else 0) <= least st t) -> charge_ok T strict (Some g).
Proof. intros Hg Hn Hl. unfold charge_ok. exists least. split; [|done]. by eapply gas_spec_weaken; [exact Hg|done|done|done|]. Qed.

Lemma charge_ok_writing T (strict : bool) n least g : tr_writes T = true -> gas_spec ro Q true (tr_sized T) n least (2 ^ 64) g -> (n <= Z.to_nat (tr_pops T))%nat ->
  (forall st t, tr_back T st t + (if strict then 1 else 0) <= least st t) -> charge_ok T strict (Some g).
Proof. intros Hw Hg Hn Hl. unfold charge_ok. exists least. split; [|done]. by eapply gas_spec_weaken; [exact Hg|done|done|done|]. Qed.

Lemma call_back_least st t : call_back st t + 0 <= call_least st t.
Proof. unfold call_back, call_least. destruct (st !! 2%nat) as [v|]; [destruct (v =? 0)|]; lia. Qed.
Lemma call_back_nonneg st t : 0 <= t -> 0 <= call_back st t.
Proof. unfold call_back. destruct (st !! 2%nat) as [v|]; [destruct (v =? 0)|]; lia. Qed.

Hint Resolve U256_word be_value_word addr_word_word hash_word small_word of_bool_word land_word lor_word lxor_word math_Byte_word if_word
  sdiv_word smod_word Exp_word u64_word : word.
Ltac simple_op := apply op_ok_instr; [|lia|lia|let T := fresh in intros T; vm_compute; first [discriminate|by intros [= <-]]].

Ltac no_traits := let T := fresh in intros T; vm_compute; first [discriminate|by intros [= <-]].
(** An entry that gives nothing back, priced by a gas function. *)
Ltac entry strict := apply (op_ok_entry _ _ (at_least 0) strict); [|by vm_compute|done|split; by vm_compute| |first [by left|right; left; by vm_compute|by right; right]|first [exact I|apply memoryRegion_total; by vm_compute|apply memoryFixed_total; by vm_compute|apply memoryCallRegions_total; by vm_compute]|try no_traits].
Ltac priced n tac := eapply (charge_ok_spec _ _ n); [tac|vm_compute; lia|intros st t; cbn; unfold at_least; lia].

Lemma frontier_arithmetic_ok : Forall (fun p => op_ok p.1 p.2) (frontier_arithmetic (S:=S)).
Proof.
  unfold frontier_arithmetic. repeat apply Forall_cons_2; cbn [fst snd]; try (simple_op; first
    [apply binary_spec; auto 8 with word|apply unary_spec; auto with word|apply binary_push_spec; auto 8 with word|apply ternary_push_spec; auto 8 with word
    |apply opSignExtend_spec]); [| |constructor].
  - entry false; [apply nothing_spec|done].
  - entry true; [apply binary_push_spec; auto 8 with word|]. priced 2%nat ltac:(by apply gasExp_spec).
Qed.

(** Simple entries whose instruction has its own lemma. *)
Ltac op lem := simple_op; apply lem; try exact mode; try exact Henv.
Ltac binop := op binary_spec; auto 8 with word.
Ltac unop := op unary_spec; auto 8 with word.
Ltac pushop := op binary_push_spec; auto 8 with word.
Ltac constop := op pushed_word_spec; auto with word.

Lemma frontier_bits_ok : Forall (fun p => op_ok p.1 p.2) (frontier_bits (S:=S) env).
Proof.
  unfold frontier_bits. repeat apply Forall_cons_2; cbn [fst snd]; [pushop|binop|binop|unop|binop| |op opAddress_spec|op opBalance_spec|constop|op opCaller_spec
    |op opCallValue_spec|op opCallDataLoad_spec|op opCallDataSize_spec| |op opCodeSize_spec| |op pushed_word_spec; apply Henv|op opExtCodeSize_spec|constructor].
  - entry false; [by apply opSha3_spec|]. priced 2%nat ltac:(by apply (memoryWordGas_spec ro Q 6 1)).
  - entry false; [by apply opCallDataCopy_spec|]. priced 3%nat ltac:(by apply (memoryWordGas_spec ro Q 3 2)).
  - entry false; [by apply opCodeCopy_spec|]. priced 3%nat ltac:(by apply (memoryWordGas_spec ro Q 3 2)).
Qed.

Lemma frontier_environment_ok : Forall (fun p => op_ok p.1 p.2) (frontier_environment (S:=S) env).
Proof.
  unfold frontier_environment. repeat apply Forall_cons_2; cbn [fst snd]; [|op opBlockhash_spec|constop|constop|constop|constop|constop|op opPop_spec
    | | | |op opSload_spec| | | |op opPc_spec|op opMsize_spec|op opGas_spec|op nothing_spec|constructor].
  - entry false; [by apply opExtCodeCopy_spec|]. priced 4%nat ltac:(by apply (memoryWordGas_spec ro Q 3 3)).
  - entry false; [by apply opMload_spec|]. priced 1%nat ltac:(apply pureMemoryGascost_spec).
  - entry false; [by apply opMstore_spec|]. priced 2%nat ltac:(apply pureMemoryGascost_spec).
  - entry false; [by apply opMstore8_spec|]. priced 2%nat ltac:(apply pureMemoryGascost_spec).
  - entry true; [by apply opSstore_spec|]. eapply (charge_ok_writing _ _ 2); [done|by apply gasSStore_spec|vm_compute; lia|done].
  - entry false; [by apply opJump_spec|done].
  - entry false; [by apply opJumpi_spec|done].
Qed.

Lemma makePush_entry n : 1 <= n <= 32 -> op_ok (PUSH1 + n - 1) (instr (fun _ => makePush n n) GasFastestStep 0 1).
Proof.
  intros Hn. apply op_ok_instr; [apply makePush_spec; lia|lia|lia|]. intros T. by rewrite traits_stack by lia.
Qed.

Lemma frontier_push_ok : Forall (fun p => op_ok p.1 p.2) (frontier_push_low (S:=S) ++ frontier_push_high).
Proof.
  unfold frontier_push_low, frontier_push_high. rewrite <- app_comm_cons. constructor; [op opPush1_spec|].
  rewrite <- fmap_app. apply Forall_fmap, Forall_forall. intros n Hn. cbn. apply makePush_entry.
  rewrite elem_of_app, !elem_of_seqZ in Hn. lia.
Qed.

Lemma frontier_dup_ok : Forall (fun p => op_ok p.1 p.2) (frontier_dup (S:=S)).
Proof.
  unfold frontier_dup. apply Forall_fmap, Forall_forall. intros n Hn. apply elem_of_seqZ in Hn. cbn.
  apply op_ok_instr; [replace (n + 1 - n) with 1 by lia; apply makeDup_spec; lia|lia|lia|]. intros T. by rewrite traits_stack by lia.
Qed.

Lemma frontier_swap_ok : Forall (fun p => op_ok p.1 p.2) (frontier_swap (S:=S)).
Proof.
  unfold frontier_swap. apply Forall_fmap, Forall_forall. intros n Hn. apply elem_of_seqZ in Hn. cbn.
  apply op_ok_instr; [replace (n + 1 - (n + 1)) with 0 by lia; apply makeSwap_spec; lia|lia|lia|]. intros T. by rewrite traits_stack by lia.
Qed.

(** The price of a call covers the gas it passes on. *)
Lemma charge_ok_call T n g : tr_sized T = true -> tr_pops T = 7 -> tr_back T = call_back ->
  gas_spec ro Q false true n call_least (2 ^ 64) g -> (n <= 7)%nat -> charge_ok T false (Some g).
Proof.
  intros Hs Hp Hb Hg Hn. eapply (charge_ok_spec _ _ n); [by rewrite Hs; exact Hg|by rewrite Hp|]. rewrite Hb. apply call_back_least.
Qed.
Lemma charge_ok_pass T n g : tr_sized T = true -> tr_pops T = 6 -> tr_back T = pass_least ->
  gas_spec ro Q false true n pass_least (2 ^ 64) g -> (n <= 6)%nat -> charge_ok T false (Some g).
Proof.
  intros Hs Hp Hb Hg Hn. eapply (charge_ok_spec _ _ n); [by rewrite Hs; exact Hg|by rewrite Hp|]. rewrite Hb. intros st t. unfold pass_least. lia.
Qed.

Lemma call_top_le least n g : gas_spec ro Q false true n least (call_top env) g -> gas_spec ro Q false true n least (2 ^ 64) g.
Proof.
  intros Hg. eapply gas_spec_weaken; [exact Hg|done|done| |done]. unfold call_top. destruct (r_IsEIP150 _); lia.
Qed.

Lemma makeLog_entry op k : (forall T, traits op = Some T -> False) -> (k <= 4)%nat ->
  op_ok op (writing (sized memoryLog (charging (makeGasLog (Z.of_nat k)) (instr (fun _ => makeLog env k) 0 (Z.of_nat k + 2) 0)))).
Proof.
  intros HT Hk. apply (op_ok_entry _ _ (at_least 0) true).
  - cbn [op_maxStack op_minStack writing sized charging instr execute writes memorySize]. unfold maxStack, minStack.
    replace (1024 - (1024 + (Z.of_nat k + 2) - 0)) with (- Z.of_nat (k + 2)) by lia.
    replace (Z.to_nat (Z.of_nat k + 2)) with (k + 2)%nat by lia. by apply makeLog_spec.
  - cbn. unfold minStack. lia.
  - done.
  - cbn. lia.
  - eapply (charge_ok_spec _ _ 2); [apply makeGasLog_spec; lia|cbn; unfold minStack; lia|]. intros st t. cbn. unfold at_least. lia.
  - by right; right.
  - apply memoryRegion_total; cbn; unfold minStack; lia.
  - intros T H. by destruct (HT T).
Qed.

(** A call is covered by its price. *)
Ltac call_entry spec := apply (op_ok_entry _ _ call_back false);
  [by apply spec|by vm_compute|apply call_back_nonneg|split; by vm_compute| |right; left; by vm_compute|first [exact I|apply memoryRegion_total; by vm_compute|apply memoryFixed_total; by vm_compute|apply memoryCallRegions_total; by vm_compute]|try no_traits].
Ltac pass_entry spec := apply (op_ok_entry _ _ pass_least false);
  [by apply spec|by vm_compute|done|split; by vm_compute| |right; left; by vm_compute|first [exact I|apply memoryRegion_total; by vm_compute|apply memoryFixed_total; by vm_compute|apply memoryCallRegions_total; by vm_compute]|try no_traits].

Lemma frontier_ends_ok : Forall (fun p => op_ok p.1 p.2) (frontier_ends (S:=S) env).
Proof.
  unfold frontier_ends. repeat apply Forall_cons_2; cbn [fst snd];
    [apply (makeLog_entry LOG0 0); [done|lia]|apply (makeLog_entry LOG1 1); [done|lia]|apply (makeLog_entry LOG2 2); [done|lia]
    |apply (makeLog_entry LOG3 3); [done|lia]|apply (makeLog_entry LOG4 4); [done|lia]| | | | | |op opL1BlockNumber_spec|constructor].
  - entry false; [by apply opCreate_spec|]. priced 3%nat ltac:(apply pureMemoryGascost_spec).
  - call_entry opCall_spec. eapply (charge_ok_call _ 7); [done|done|done|by apply call_top_le, gasCall_spec|lia].
  - call_entry opCallCode_spec. eapply (charge_ok_call _ 7); [done|done|done|by apply call_top_le, gasCallCode_spec|lia].
  - entry false; [by apply opReturn_spec|]. priced 2%nat ltac:(apply pureMemoryGascost_spec).
  - entry false; [by apply opSuicide_spec|]. eapply (charge_ok_writing _ _ 1); [done|by apply gasSelfdestruct_spec|vm_compute; lia|done].
Qed.

Lemma newFrontier_ok : jt_ok (newFrontierInstructionSet env).
Proof.
  apply jt_ok_list. repeat (apply Forall_app; split);
    auto using frontier_arithmetic_ok, frontier_bits_ok, frontier_environment_ok, frontier_dup_ok, frontier_swap_ok, frontier_ends_ok.
  - exact (proj1 (proj1 (Forall_app _ _ _) frontier_push_ok)).
  - exact (proj2 (proj1 (Forall_app _ _ _) frontier_push_ok)).
Qed.

(** ** Later forks *)

Lemma newHomestead_ok : jt_ok (newHomesteadInstructionSet env).
Proof.
  apply jt_ok_insert; [apply newFrontier_ok|]. pass_entry opDelegateCall_spec.
  eapply (charge_ok_pass _ 6); [done|done|done|by apply call_top_le, gasDelegateCall_spec|lia].
Qed.

Lemma newTangerineWhistle_ok : jt_ok (newTangerineWhistleInstructionSet env).
Proof. unfold newTangerineWhistleInstructionSet. repeat (apply jt_ok_costing; [|lia]). apply newHomestead_ok. Qed.

Lemma newSpuriousDragon_ok : jt_ok (newSpuriousDragonInstructionSet env).
Proof.
  eapply (jt_ok_charging _ _ _ _ true); [apply newTangerineWhistle_ok|done| |by right]. priced 2%nat ltac:(by apply gasExp_spec).
Qed.

Lemma newByzantium_ok : jt_ok (newByzantiumInstructionSet env).
Proof.
  unfold newByzantiumInstructionSet. repeat apply jt_ok_insert; [apply newSpuriousDragon_ok| | | |].
  - pass_entry opStaticCall_spec. eapply (charge_ok_pass _ 6); [done|done|done|by apply call_top_le, gasStaticCall_spec|lia].
  - op opReturnDataSize_spec.
  - entry false; [by apply opReturnDataCopy_spec|]. priced 3%nat ltac:(by apply (memoryWordGas_spec ro Q 3 2)).
  - entry false; [by apply opReturn_spec|]. priced 2%nat ltac:(apply pureMemoryGascost_spec).
Qed.

Lemma newConstantinople_ok : jt_ok (newConstantinopleInstructionSet env).
Proof.
  unfold newConstantinopleInstructionSet. apply jt_ok_insert; [apply jt_ok_insert; [apply jt_ok_insert; [apply jt_ok_insert;
    [apply jt_ok_insert; [apply newByzantium_ok|binop]|binop]|pushop]|op opExtCodeHash_spec]|].
  entry false; [by apply opCreate2_spec|]. priced 3%nat ltac:(by apply (memoryWordGas_spec ro Q 6 2)).
Qed.

Lemma enable1344_ok jt : jt_ok jt -> jt_ok (enable1344 env jt).
Proof. intros H. apply jt_ok_insert; [done|]. op opChainID_spec. Qed.
Lemma enable1884_ok jt : jt_ok jt -> jt_ok (enable1884 jt).
Proof. intros H. apply jt_ok_insert; [|op opSelfBalance_spec]. by repeat (apply jt_ok_costing; [|lia]). Qed.
Lemma enable2200_ok jt : jt_ok jt -> jt_ok (enable2200 env jt).
Proof.
  intros H. eapply (jt_ok_charging _ _ _ _ true); [done|done| |by right]. eapply (charge_ok_writing _ _ 2); [done|by apply gasSStoreEIP2200_spec|vm_compute; lia|done].
Qed.
Lemma enable3855_ok jt : jt_ok jt -> jt_ok (enable3855 jt).
Proof. intros H. apply jt_ok_insert; [done|]. op opPush0_spec. Qed.
Lemma EnableEIP_ok eip jt jt' : jt_ok jt -> EnableEIP env eip jt = inr jt' -> jt_ok jt'.
Proof.
  intros H. unfold EnableEIP. destruct (eip =? 2200); [intros [= <-]; by apply enable2200_ok|].
  destruct (eip =? 1884); [intros [= <-]; by apply enable1884_ok|]. destruct (eip =? 1344); [intros [= <-]; by apply enable1344_ok|done].
Qed.

Lemma newIstanbul_ok : jt_ok (newIstanbulInstructionSet env).
Proof. apply enable2200_ok, enable1884_ok, enable1344_ok, newConstantinople_ok. Qed.

Context (E150 : r_IsEIP150 (chainRules env) = true).

(** Repricing one entry: the new price is the goal that is left. *)
Ltac reprice strict := eapply (jt_ok_repricing _ _ _ _ _ strict); [|reflexivity|lia| |first [by right; left|by right; right|by left]].

Lemma enable3529_ok jt : jt_ok jt -> jt_ok (enable3529 env jt).
Proof.
  intros H. eapply (jt_ok_charging _ _ _ _ false); [eapply (jt_ok_charging _ _ _ _ true); [done|reflexivity| |by right]|reflexivity| |by left].
  - eapply (charge_ok_writing _ _ 2); [done|by apply makeGasSStoreFunc_spec|vm_compute; lia|done].
  - eapply (charge_ok_writing _ _ 1); [done|by apply makeSelfdestructGasFn_spec|vm_compute; lia|done].
Qed.

Ltac call_price spec := eapply (charge_ok_call _ 7); [done|done|done| |lia]; apply (makeCallVariant_spec ro Q mode env); [lia|done|by apply spec].
Ltac pass_price spec := eapply (charge_ok_pass _ 6); [done|done|done| |lia]; apply (makeCallVariant_spec ro Q mode env); [lia|done|by apply spec].

Lemma enable2929_ok jt : jt_ok jt -> jt_ok (enable2929 env jt).
Proof.
  intros H. unfold enable2929. reprice false. reprice false. reprice false. reprice false. reprice false. reprice false.
  reprice false. reprice false. reprice false. reprice true.
  - eapply (jt_ok_charging _ _ _ _ true); [done|reflexivity| |by right].
    eapply (charge_ok_writing _ _ 2); [done|by apply makeGasSStoreFunc_spec|vm_compute; lia|done].
  - priced 1%nat ltac:(by apply gasSLoadEIP2929_spec).
  - priced 4%nat ltac:(by apply gasExtCodeCopyEIP2929_spec).
  - priced 1%nat ltac:(by apply gasEip2929AccountCheck_spec).
  - priced 1%nat ltac:(by apply gasEip2929AccountCheck_spec).
  - priced 1%nat ltac:(by apply gasEip2929AccountCheck_spec).
  - call_price gasCall_spec.
  - call_price gasCallCode_spec.
  - pass_price gasStaticCall_spec.
  - pass_price gasDelegateCall_spec.
  - eapply (charge_ok_writing _ _ 1); [done|by apply makeSelfdestructGasFn_spec|vm_compute; lia|done].
Qed.

Ltac cold_call_price spec := eapply (charge_ok_call _ 7); [done|done|done| |lia]; apply (chargeCold_spec ro Q env); [done|by apply spec].
Ltac cold_pass_price spec := eapply (charge_ok_pass _ 6); [done|done|done| |lia]; apply (chargeCold_spec ro Q env); [done|by apply spec].

Lemma enableMinimal2929_ok jt : jt_ok jt -> jt_ok (enableMinimal2929 env jt).
Proof.
  intros H. unfold enableMinimal2929. reprice false. reprice false. reprice false. reprice false. reprice false. reprice false.
  reprice false. reprice false. reprice false. reprice true.
  - done.
  - priced 1%nat ltac:(by apply constant_spec).
  - priced 4%nat ltac:(by apply gasExtCodeCopyEIP2929Optimism_spec).
  - priced 1%nat ltac:(by apply constant_spec).
  - priced 1%nat ltac:(by apply constant_spec).
  - priced 1%nat ltac:(by apply constant_spec).
  - cold_call_price gasCall_spec.
  - cold_call_price gasCallCode_spec.
  - cold_pass_price gasStaticCall_spec.
  - cold_pass_price gasDelegateCall_spec.
  - eapply (charge_ok_writing _ _ 1); [done|by apply makeSelfdestructGasFnOptimism_spec|vm_compute; lia|done].
Qed.
End table.

Section choice.
Context {crypto : Crypto} {natives : Natives} {S : Type} {database : Database S} {laws : DatabaseLaws S}.
Context (ro : bool) (Q : S -> S -> Prop) (mode : mode_ok ro Q) (env : Env) (Henv : env_ok env).
Context (Hbyz : ro = true -> r_IsByzantium (chainRules env) = true).

Lemma fork_instructionSet_ok : jt_ok ro Q (fork_instructionSet (S:=S) env).
Proof.
  assert (Hist : jt_ok ro Q (newIstanbulInstructionSet (S:=S) env)) by (by apply newIstanbul_ok).
  assert (Hber : r_IsEIP150 (chainRules env) = true -> jt_ok ro Q (newBerlinInstructionSet (S:=S) env)).
  { intros E. apply enable3529_ok; [done|done|]. by apply enable2929_ok. }
  pose proof (eo_150 env Henv) as H150. unfold fork_instructionSet. cbv zeta.
  destruct (r_IsShanghai _) eqn:E1; [apply enable3855_ok, Hber, H150; by rewrite orb_true_r|].
  destruct (r_IsBerlin _) eqn:E2; [by apply Hber, H150|].
  destruct (r_IsIstanbul _) eqn:E3; [destruct (UsingOVM env); [apply enableMinimal2929_ok; auto|done]|].
  destruct (r_IsConstantinople _); [by apply newConstantinople_ok|]. destruct (r_IsByzantium _) eqn:E5; [apply newByzantium_ok; auto|].
  destruct (r_IsEIP158 _); [by apply newSpuriousDragon_ok|]. destruct (r_IsEIP150 _); [by apply newTangerineWhistle_ok|].
  destruct (r_IsHomestead _); [by apply newHomestead_ok|by apply newFrontier_ok].
Qed.

Lemma enable_extra_ok n : forall i arr k jt jt', jt_ok ro Q jt -> enable_extra (S:=S) env n i arr k jt = Ok jt' -> jt_ok ro Q jt'.
Proof.
  induction n as [|n IH]; intros i arr k jt jt' Hjt; cbn [enable_extra]; [by intros [= <-]|].
  destruct (EnableEIP env (nth i arr 0) jt) as [err|jt1] eqn:E; [destruct (_ <? _)%nat; [done|by apply IH]|].
  apply IH. by eapply EnableEIP_ok.
Qed.

Lemma instructionSet_ok jt : instructionSet (S:=S) env = Ok jt -> jt_ok ro Q jt.
Proof. unfold instructionSet. apply enable_extra_ok, fork_instructionSet_ok. Qed.
End choice.
