(* ===== verification/VMRunFacts.v ===== *)
(** The interpreter keeps its promise.

    A round from a frame in order ends the frame, fails, or leaves a frame in order
    with less gas; so the loop returns when its fuel exceeds the gas, and a run
    satisfies [runner_ok], the hypothesis under which the calls were treated. *)
From stdpp Require Import prelude gmap list strings.
From Stdlib Require Import ZArith Lia.
From S2P Require Import Prelude Params VarBytes RLP Crypto StateData VMWord VMWordFacts VMAnalysis VMState VMPrecompiles VMGas VMCall VMOps VMTable VMRun VMLaws VMFrame VMGasFacts VMPrecompileFacts VMCallFacts VMOpsFacts VMTableFacts.
Local Open Scope Z_scope.

Section run.
Context {crypto : Crypto} {natives : Natives} {S : Type} {database : Database S} {laws : DatabaseLaws S}.
Context (ro : bool) (Q : S -> S -> Prop) (mode : mode_ok ro Q) (env : Env) (Henv : env_ok env).
Context (Hbyz : ro = true -> r_IsByzantium (chainRules env) = true).
Context (jt : gmap Z (operation (S:=S))) (Hjt : jt_ok ro Q jt).
Local Abbreviation scope := (scope S).
Local Abbreviation at_ := (at_ Q).
Local Abbreviation runner := (Contract -> slice -> bool -> M (EVM S) (slice * option goerror * Contract)) (only parsing).

Record frame_ok (v : view) (s : scope) : Prop := {
  fo_at : at_ s v s;
  fo_mem : mem_ok (v_mem v);
  fo_stack : Z.of_nat (length (v_stk v)) <= 1024;
  fo_gas : 0 <= v_gas v < gas_limit;
  fo_pc : 0 <= v_pc v < 2 ^ 64;
  fo_readOnly : ro = true -> evm_readOnly (sc_evm s) = true }.

(** ** Frames one after the other *)

Lemma at_restart s0 v s : at_ s0 v s -> at_ s v s.
Proof.
  intros [[He Hs] Hc Hm Hw Hv]. split; try done. split; [done|by eapply esince_refl].
Qed.

Lemma at_trans s0 v1 s1 v2 s2 : at_ s0 v1 s1 -> at_ s1 v2 s2 -> at_ s0 v2 s2.
Proof.
  intros [He _ Hm _ _] [He' Hc' Hm' Hw' Hv']. split; try done; [by eapply (eat_trans ro Q)|].
  destruct Hm, Hm'. split; congruence.
Qed.

Lemma at_readOnly s0 v s : at_ s0 v s -> evm_readOnly (sc_evm s) = evm_readOnly (sc_evm s0).
Proof. intros [[_ He] _ _ _ _]. apply He. Qed.

Lemma at_set_returnData s0 v s d : at_ s0 v s -> slice_ok d -> at_ s0 v (set_evm (set_returnData d (sc_evm s)) s).
Proof.
  intros [[[D J R T] [S1 S2 S3]] Hc Hm Hw Hv] Hd. by split.
Qed.

Lemma at_set_abort s0 v s n : at_ s0 v s -> at_ s0 v (set_evm (set_abort n (sc_evm s)) s).
Proof. intros [[[D J R T] [S1 S2 S3]] Hc Hm Hw Hv]. by split. Qed.

Lemma wp_attempt {A} E E' (m : M scope A) s (P : A -> scope -> Prop) :
  wp E' m s P -> wp E (attempt m) s (fun r s' => match r with inr a => P a s' | inl _ => E' s' end).
Proof. unfold wp, attempt. by destruct (m s) as [[a|e|w|] s']. Qed.

(** ** The parts of a round *)

(** What the write protection lets pass. *)
Lemma wp_write_protected E v s op o (P : bool -> scope -> Prop) : frame_ok v s -> op_ok ro Q op o -> op_minStack o <= Z.of_nat (length (v_stk v)) ->
  P true s -> ((writes o = true -> ro = false) -> (op = CALL -> ro = true -> v_stk v !! 2%nat = Some 0) -> P false s) ->
  wp E (write_protected env op o) s P.
Proof.
  intros [Hat Hm Hst Hg Hpc Hro] (bk & _ & _ & _ & _ & _ & HT) Hmin Ht Hf. unfold write_protected. wstep. wstep.
  assert (Hcall : op = CALL -> exists x, v_stk v !! 2%nat = Some x).
  { intros ->. specialize (HT _ eq_refl). unfold trait_of in HT. injection HT as _ Hp _ _ _. apply lookup_lt_is_Some_2. lia. }
  destruct (evm_readOnly (sc_evm s) && r_IsByzantium (chainRules env)) eqn:Eb.
  - destruct (writes o) eqn:Ew; [by wstep|]. destruct (Z.eqb_spec op CALL) as [->|Hne]; [|wstep; by apply Hf].
    destruct (Hcall eq_refl) as [x Hx]. wstep. eapply wp_back; [exact Hat|exact Hx|]. intros _. wstep.
    destruct (Z.eqb_spec x 0) as [->|Hx0]; cbn [negb]; [|done]. by apply Hf.
  - wstep. assert (ro = false) as Hro'; [|apply Hf; congruence]. destruct ro; [|done].
    rewrite (Hro eq_refl), (Hbyz eq_refl) in Eb. done.
Qed.

(** The memory size asked for, in whole words. *)
Definition asked (o : operation (S:=S)) (st : list Z) (msz : Z) : Prop :=
  size_ok msz /\ match memorySize o with None => msz = 0 | Some f => exists sz, f st = Ok (sz, false) /\ sz <= msz end.

Lemma wp_required_memory v s o g0 (P : Z -> scope -> Prop) : forall s0, at_ s0 v s -> memory_total (op_minStack o) (memorySize o) ->
  op_minStack o <= Z.of_nat (length (v_stk v)) -> 0 <= v_gas v <= g0 ->
  (forall msz, asked o (v_stk v) msz -> P msz s) -> wp (fails Q s0 g0) (required_memory o) s P.
Proof.
  intros s0 Hat Hmt Hmin Hg HP. unfold required_memory, asked in *. destruct (memorySize o) as [f|]; [|wstep; by apply HP].
  wstep. eapply wp_stack; [exact Hat|]. destruct (Hmt (v_stk v) (at_words _ _ _ _ Hat) Hmin) as (sz & b & E & Hsz).
  wstep. eapply wp_lift; [exact E|]. destruct b; [wstep; by exists v|].
  destruct (SafeMul (toWordSize sz) 32) as [m [|]] eqn:Em; [wstep; by exists v|]. apply word_rounding in Em as (Hm1 & Hm2 & Hm3); [|done].
  wstep. apply HP. split; [|exists sz; split; [done|lia]]. split; [lia|]. rewrite Hm2, Z.mul_comm. apply Z.mod_mul. lia.
Qed.

(** Paying the dynamic price. *)
Lemma wp_charge_dynamic o bk msz v s s0 g0 (P : unit -> scope -> Prop) : at_ s0 v s -> mem_ok (v_mem v) -> 0 <= v_gas v < gas_limit -> v_gas v <= g0 ->
  price_ok ro Q (trait_of o bk) (constantGas o) (dynamicGas o) -> asked o (v_stk v) msz -> 0 <= op_minStack o <= Z.of_nat (length (v_stk v)) ->
  (writes o = true -> ro = false) -> 
  (forall mem t g s', at_ s0 (with_temp t (with_mem mem (with_gas g v))) s' -> paid (v_mem v) msz mem -> 0 <= g ->
     g + bk (v_stk v) t <= v_gas v -> (halts o || reverts o = true \/ 1 <= constantGas o \/ g + bk (v_stk v) t < v_gas v) -> P tt s') ->
  wp (fails Q s0 g0) (charge_dynamic o msz) s P.
Proof.
  intros Hat Hm Hg Hg0 (Hc & strict & Hch & Hst) [Hms Hask] Hmin Hw HP. unfold charge_dynamic. destruct (dynamicGas o) as [g|].
  - destruct Hch as (least & Hspec & Hle). wstep. eapply wp_mono.
    { eapply wp_attempt. apply (Hspec g0 s0 s v msz); [exact Hat|done|done|done|done| |cbn; lia|done].
      cbn. destruct (memorySize o); [done|]. intros _. exact Hask. }
    intros [err|cost] s1 H1; [wstep; exact H1|]. destruct H1 as (mem & t & Hat1 & Hp & Hcost & Hl). wstep. cbn [tr_back trait_of] in Hle.
    specialize (Hle (v_stk v) t). eapply wp_use_gas; [exact Hat1|wnorm; lia|lia|intros _; cbn [negb]; wstep; eexists; split; [exact Hat1|wnorm; lia]|].
    intros Hge s2 Hat2. cbn [negb]. wstep. wnorm. apply (HP mem t (v_gas v - cost) s2); [by destruct v|done|lia|destruct strict; lia|].
    destruct Hst as [H|[H|H]]; [by left|right; by left|]. subst strict. right. right. lia.
  - destruct Hch as (Hsz & -> & Hbk). cbn in Hsz. destruct (memorySize o); [done|]. subst msz. wstep.
    specialize (Hbk (v_stk v) (v_temp v)). cbn in Hbk.
    apply (HP (v_mem v) (v_temp v) (v_gas v) s); [by destruct v|by apply paid_zero|lia|lia|].
    destruct Hst as [H|[H|H]]; [by left|right; by left|done].
Qed.

(** Growing the memory that was paid for. *)
Lemma wp_resize E s0 v m msz s (P : unit -> scope -> Prop) : at_ s0 v s -> mem_ok m -> size_ok msz -> paid m msz (v_mem v) ->
  (forall mem s', at_ s0 (with_mem mem v) s' -> mem_ok mem -> msz <= mem_Len mem -> P tt s') ->
  wp E (when (0 <? msz) (modS (fun s => set_memory (mem_Resize msz (sc_memory s)) s))) s P.
Proof.
  intros Hat Hm Hs Hp HP. pose proof (paid_Resize m msz (v_mem v) Hm Hs Hp) as Hok. pose proof (mem_Len_Resize msz (v_mem v)) as Hl.
  wstep.
  - apply wp_modS. apply (HP (mem_Resize msz (v_mem v))); [|done|lia]. destruct Hat as [H1 H2 H3 H4 <-]. by split.
  - apply Z.ltb_ge in Hb. destruct Hs as [Hs _]. assert (msz = 0) as -> by lia. apply (HP (v_mem v)); [by destruct v| |unfold mem_Len; lia].
    assert (mem_Resize 0 (v_mem v) = v_mem v) as <-; [|done]. unfold mem_Resize. destruct (Z.ltb_spec (mem_Len (v_mem v)) 0); [unfold mem_Len in *; lia|done].
Qed.

(** Executing an entry in a frame that has paid for it. *)
Lemma wp_execute op o bk n Run s0 v s : at_ s0 v s ->
  exec_spec ro Q op (writes o) (Z.to_nat (op_minStack o)) (1024 - op_maxStack o) (memorySize o) bk (execute o) ->
  exec_pre ro Q op (writes o) (Z.to_nat (op_minStack o)) (memorySize o) (bk (v_stk v) (v_temp v)) n Run v s ->
  forall E, wp E (attempt (execute o Run)) s (fun r s' => match r with
    | inl _ => fails Q s0 (v_gas v + bk (v_stk v) (v_temp v)) s'
    | inr r => slice_ok r /\ exists v', at_ s0 v' s' /\ mem_ok (v_mem v') /\ 0 <= v_gas v' <= v_gas v + bk (v_stk v) (v_temp v) /\
        Z.of_nat (length (v_stk v')) = Z.of_nat (length (v_stk v)) + (1024 - op_maxStack o) /\ 0 <= v_pc v' < 2 ^ 64
    end).
Proof.
  intros Hat Hex Hpre E. eapply wp_mono; [eapply wp_attempt; apply (Hex n Run v s Hpre)|]. intros [err|r] s'.
  - intros (v' & Hat' & Hg). exists v'. split; [by eapply at_trans|done].
  - intros (Hr & v' & Hat' & Hrest). split; [done|]. exists v'. split; [by eapply at_trans|done].
Qed.

Definition step_post (v : view) (s : scope) (r : option (slice * option goerror)) (s' : scope) : Prop :=
  exists v', at_ s v' s' /\ 0 <= v_gas v' <= v_gas v /\
  match r with
  | Some (out, err) => slice_ok out /\ (err = None \/ err = Some errExecutionReverted)
  | None => mem_ok (v_mem v') /\ Z.of_nat (length (v_stk v')) <= 1024 /\ 0 <= v_pc v' < 2 ^ 64 /\ v_gas v' < v_gas v
  end.

(** What follows the execution of an entry. *)
Lemma wp_round_end (o : operation (S:=S)) v s v' s' r : at_ s v' s' -> slice_ok r -> mem_ok (v_mem v') -> 0 <= v_gas v' <= v_gas v ->
  Z.of_nat (length (v_stk v')) <= 1024 -> 0 <= v_pc v' < 2 ^ 64 -> halts o || reverts o = true \/ v_gas v' < v_gas v ->
  wp (fails Q s (v_gas v))
    (when (returns o) (modS (fun s => set_evm (set_returnData r (sc_evm s)) s)) ;;
     if reverts o then ret (Some (r, Some errExecutionReverted)) else if halts o then ret (Some (r, None))
     else when (negb (jumps o)) (modS (fun s => set_pc (u64 (sc_pc s + 1)) s)) ;; ret None) s' (step_post v s).
Proof.
  intros Hat Hr Hm Hg Hl Hpc Hlt. wstep.
  assert (Hend : forall s5, at_ s v' s5 -> wp (fails Q s (v_gas v)) (if reverts o then ret (Some (r, Some errExecutionReverted))
    else if halts o then ret (Some (r, None))
    else when (negb (jumps o)) (modS (fun s => set_pc (u64 (sc_pc s + 1)) s)) ;; ret None) s5 (step_post v s)).
  { intros s5 Hat5. destruct (reverts o) eqn:Er; [wstep; exists v'; auto|]. destruct (halts o) eqn:Eh; [wstep; exists v'; auto|].
    destruct Hlt as [?|Hlt]; [done|]. wstep. wstep; [wstep|]; wstep; eexists; (split; [eassumption|]); wnorm;
      (split; [lia|]); (split; [done|]); (split; [lia|]); (split; [|done]); [apply u64_in|done]. }
  wstep; [apply wp_modS|]; apply Hend; [by apply at_set_returnData|done].
Qed.

Lemma step_spec n Run v s : frame_ok v s -> runner_ok ro Q n Run -> v_gas v <= n ->
  wp (fails Q s (v_gas v)) (step env jt Run) s (step_post v s).
Proof.
  intros Hfr Hrun Hn. pose proof Hfr as [Hat Hm Hst Hg Hpc Hro]. unfold step. wstep. wstep. cbv zeta.
  set (op := GetOp (sc_pc s) (sc_contract s)). assert (Hf : fails Q s (v_gas v) s) by (exists v; split; [done|lia]).
  destruct (jt !! op) as [o|] eqn:Eo; [|by wstep]. pose proof (Hjt _ _ Eo) as Hop. pose proof Hop as (bk & Hmin0 & Hbk0 & Hexec & Hprice & Hmt & HT).
  destruct (negb (valid o)); [by wstep|].
  assert (length (sc_stack s) = length (v_stk v)) as -> by (by rewrite <- (at_view _ _ _ _ Hat)).
  destruct (Z.ltb_spec (Z.of_nat (length (v_stk v))) (op_minStack o)) as [|Hmin]; [by wstep|].
  destruct (Z.ltb_spec (op_maxStack o) (Z.of_nat (length (v_stk v)))) as [|Hmax]; [by wstep|].
  wstep. apply (wp_write_protected _ v s op o); [done|done|done|by wstep|]. intros Hw Hcall.
  pose proof Hprice as (Hc & _). wstep. eapply wp_use_gas; [exact Hat|done|lia|intros _; cbn [negb]; by wstep|].
  intros Hge s1 Hat1. cbn [negb]. wstep. eapply wp_required_memory; [exact Hat1|done|done|wnorm; lia|]. intros msz Hask. wnorm.
  wstep. eapply wp_charge_dynamic; [exact Hat1|done|wnorm; lia|wnorm; lia|exact Hprice|exact Hask|wnorm; lia|exact Hw|].
  intros mem t g s2 Hat2 Hp Hg2 Hback Hstrict. wnorm. wstep.
  eapply wp_resize; [exact Hat2|exact Hm|apply Hask|exact Hp|]. intros mem' s3 Hat3 Hm3 Hl3. wnorm.
  wstep. pose proof (at_temp _ _ _ _ Hat3) as Ht. wnorm. set (v3 := with_mem mem' _) in *.
  eapply wp_mono; [eapply (wp_execute op o bk n Run s v3 s3 Hat3 Hexec)|].
  - split; unfold v3; wnorm; try done; [by eapply at_restart|lia| |by apply Hbk0|lia| | | ].
    + unfold memory_fits. destruct Hask as [_ Hask]. destruct (memorySize o); [|done]. destruct Hask as (sz & Esz & Hsz). exists sz. wnorm. split; [done|lia].
    + intros Hcalls. destruct (calls_traits _ Hcalls) as (T & ET & Hend). specialize (HT T ET). subst T. cbn in Hend. rewrite Hend in Hstrict.
      destruct Hstrict as [H|[H|H]]; [done|lia|lia].
    + unfold op, GetOp, GetByte. rewrite (sm_Code _ _ (at_same _ _ _ _ Hat3)), (at_pc _ _ _ _ Hat). done.
    + intros E. rewrite (at_readOnly _ _ _ Hat3). by apply Hro.
  - intros [err|r] s4 H4; cbv beta iota.
    + destruct H4 as (v4 & Hat4 & Hg4). wstep. wstep; [apply wp_modS|]; wstep; exists v4; (split; [|unfold v3 in Hg4; wnorm; lia]); [by apply at_set_returnData|done].
    + destruct H4 as (Hr & v4 & Hat4 & Hm4 & Hg4 & Hl4 & Hpc4). unfold v3 in *. wnorm. eapply wp_round_end; [exact Hat4|done|done|lia|lia|done|].
      destruct Hstrict as [H|[H|H]]; [by left|right; lia|right; lia].
Qed.

(** ** Frames and the loop *)

Definition loop_spec (n : Z) (l : M scope (slice * option goerror)) : Prop :=
  forall v s, frame_ok v s -> v_gas v < n ->
  wp (fails Q s (v_gas v)) l s (fun r s' => slice_ok r.1 /\ exists v', at_ s v' s' /\ 0 <= v_gas v' <= v_gas v).

Lemma frame_start c input b e : 0 <= Gas c < gas_limit -> contract_ok c -> slice_ok input -> evm_ok e ->
  (ro = true -> b || evm_readOnly e = true) ->
  let s := mkScope (set_returnData None (set_readOnly (b && negb (evm_readOnly e) || evm_readOnly e) (set_depth (evm_depth e + 1) e)))
             (set_Input input c) NewMemory [] 0 in frame_ok (view_of s) s.
Proof.
  intros Hg [C1 C2 C3 C4 C5] Hi [D J R T] Hro s. split; cbn; try done.
  - split; try done. split; [by split|]. split; cbn; try done. apply (moves_refl ro Q mode).
  - intros E. specialize (Hro E). by destruct b, (evm_readOnly e).
Qed.

Lemma run_frame_spec n l : loop_spec n l -> runner_ok ro Q n (run_frame l).
Proof.
  intros Hl c input b e Hg Hlim Hc Hi He Hro. pose proof (frame_start c input b e ltac:(lia) Hc Hi He Hro) as Hfr. cbv zeta in Hfr.
  unfold wpe, run_frame. cbv zeta. set (e1 := set_returnData None _) in *. set (s1 := mkScope e1 _ _ _ _) in *.
  assert (Hleave : forall e2, eat Q e1 e2 -> eat Q e (set_readOnly (if b && negb (evm_readOnly e) then false else evm_readOnly e2) (set_depth (evm_depth e2 - 1) e2))).
  { intros e2 [[D J R T] [S1 S2 S3]]. split; [by split|]. split; [done|cbn in *; lia|]. cbn in S3 |- *. rewrite S3. by destruct b, (evm_readOnly e). }
  destruct (length (Code c) =? 0)%nat.
  { split; [|split; [done|cbn; lia]]. apply Hleave. exact (at_evm _ _ _ _ (fo_at _ _ Hfr)). }
  specialize (Hl _ _ Hfr ltac:(cbn; lia)). unfold wp in Hl. destruct (l s1) as [[[r err]|x|w|] s2]; [| | |done].
  - destruct Hl as (Hr & v' & Hat & Hg'). split; [apply Hleave; exact (at_evm _ _ _ _ Hat)|]. split; [done|]. cbn. rewrite (at_gas _ _ _ _ Hat). exact Hg'.
  - destruct Hl as (v' & Hat & Hg'). split; [apply Hleave; exact (at_evm _ _ _ _ Hat)|]. split; [done|]. cbn. rewrite (at_gas _ _ _ _ Hat). exact Hg'.
  - destruct Hl as [H|[H|H]]; [by left|right; by left|right; by right].
Qed.

Lemma loop_returns fuel : loop_spec (Z.of_nat fuel) (loop env jt fuel).
Proof.
  induction fuel as [|f IH]; intros v s Hfr Hlt; pose proof Hfr as [Hat Hm Hst Hg Hpc Hro]; [lia|]. cbn [loop]. wstep.
  assert (Hpoll : forall P : bool -> scope -> Prop, (forall b s', frame_ok v s' -> at_ s v s' -> P b s') -> wp (fails Q s (v_gas v)) poll_abort s P).
  { intros P HP. unfold poll_abort. wstep. wstep. destruct (evm_abort (sc_evm s)) as [[|k]|]; [wstep; by apply HP| |wstep; by apply HP].
    wstep. apply wp_modS. wstep. pose proof (at_set_abort _ _ _ (Some k) Hat) as Hat'. apply HP; [|done].
    split; try done. by eapply at_restart. }
  apply Hpoll. intros b s1 Hfr1 Hat1. destruct b; [wstep; split; [done|]; exists v; split; [done|lia]|].
  wstep. pose proof (step_spec (Z.of_nat f) (run_frame (loop env jt f)) v s1 Hfr1 (run_frame_spec _ _ IH) ltac:(lia)) as Hstep.
  unfold wp in Hstep |- *. destruct (step env jt (run_frame (loop env jt f)) s1) as [[r|x|w|] s2]; [| |done|done].
  - destruct Hstep as (v2 & Hat2 & Hg2 & Hr). destruct r as [[out err]|].
    + split; [apply Hr|]. exists v2. split; [by eapply at_trans|done].
    + destruct Hr as (Hm2 & Hl2 & Hpc2 & Hlt2).
      assert (Hfr2 : frame_ok v2 s2). { split; try done; [by eapply at_restart|lia|]. intros E. rewrite (at_readOnly _ _ _ Hat2). by apply Hfr1. }
      specialize (IH v2 s2 Hfr2 ltac:(lia)). unfold wp in IH. pose proof (at_trans _ _ _ _ _ Hat1 Hat2) as H02.
      destruct (loop env jt f s2) as [[r|x|w|] s3]; try done.
      * destruct IH as (Hr & v3 & Hat3 & Hg3). split; [done|]. exists v3. split; [by eapply at_trans|lia].
      * destruct IH as (v3 & Hat3 & Hg3). exists v3. split; [by eapply at_trans|lia].
  - destruct Hstep as (v2 & Hat2 & Hg2). exists v2. split; [by eapply at_trans|done].
Qed.

Lemma Run_ok fuel : runner_ok ro Q (Z.of_nat fuel) (Run env jt fuel).
Proof. apply run_frame_spec, loop_returns. Qed.
End run.
