(* ===== verification/VMStateLaws.v ===== *)
(** The state database keeps the contract with the virtual machine.

    [typed]: what the database reads is in range: nonces of 64 bits, storage words of
    32 bytes, code of bounded length under its hash.  With it, [StateDB] in the mode of
    the rollup, where balances are storage words, is an instance of [DatabaseLaws].
    The store behind it is assumed to be content-addressed ([StoreLaws]). *)
From stdpp Require Import prelude gmap list sorting strings.
From Stdlib Require Import ZArith Lia.
From S2P Require Import Prelude Params VarBytes RLP RLPStream RLPDecode RLPTyped Crypto AccessList StateData State StateFacts VMWord VMWordFacts VMAnalysis VMState VMDatabase VMLaws.
Local Open Scope Z_scope.

(** Code is stored under its hash, and the empty root opens an empty trie. *)
Class StoreLaws (T D : Type) {backend : Backend T D} {crypto : Crypto} := {
  code_stored : forall d ah h c, ContractCode d ah h = inr c -> Z.of_nat (length c) < 2 ^ 62 /\ (c = [] \/ Keccak256Hash c = h);
  empty_root : forall d ah, exists t, OpenStorageTrie d ah emptyRoot = inr t /\ forall k, TryGet t k = inr [] }.

Section laws.
Context {T D : Type} {backend : Backend T D} {crypto : Crypto} {store : StoreLaws T D}.
Local Abbreviation stateObject := (stateObject T).
Local Abbreviation StateDB := (StateDB T D).
Implicit Types (a : address) (k : hash) (o obj : stateObject) (s : StateDB).

Definition code_ok (h : hash) (c : bytes) : Prop := Z.of_nat (length c) < 2 ^ 62 /\ (c = [] \/ Keccak256Hash c = h).

Record obj_typed (d : D) (o : stateObject) : Prop := {
  ot_nonce : in_u64 (acc_Nonce (so_data o));
  ot_current : forall k v, current d o k = Ok v -> wf_hash v;
  ot_committed : forall k v, committed d o k = Ok v -> wf_hash v;
  ot_code : forall c, codeOf d o = Some c -> code_ok (BytesToHash (acc_CodeHash (so_data o))) c }.

Record typed (s : StateDB) : Prop := {
  ty_objects : forall a o, lookupObj s a = Some o -> obj_typed (sdb_db s) o;
  ty_refund : in_u64 (sdb_refund s) }.

Lemma obj_typed_equiv d o1 o2 : obj_equiv d o1 o2 -> obj_typed d o1 -> obj_typed d o2.
Proof.
  intros [E1 E2 E3 E4 E5 E6 E7 E8] [H1 H2 H3 H4]. split.
  - by rewrite <- E2.
  - intros k v. rewrite <- E6. apply H2.
  - intros k v. rewrite <- E7. apply H3.
  - intros c. rewrite <- E8, <- E2. apply H4.
Qed.

Lemma typed_equiv s1 s2 : state_equiv s1 s2 -> typed s1 -> typed s2.
Proof.
  intros He [Ht Hr]. split.
  - intros a o Ho. pose proof (se_objects _ _ He a) as H. rewrite Ho in H. inversion H as [o1 o2 Hoe E1|]; subst.
    eapply obj_typed_equiv; [exact Hoe|]. rewrite <- (se_db _ _ He). by apply (Ht a).
  - destruct He as [E _ _]. unfold rest in E. assert (sdb_refund s1 = sdb_refund s2) as <- by congruence. done.
Qed.

Lemma typed_setStateObject o s : typed s -> obj_typed (sdb_db s) o -> typed (setStateObject o s).
Proof.
  intros [Ht Hr] Ho. split; [|done]. intros a o'. rewrite lookup_setStateObject. case_decide; [by intros [= <-]|]. apply Ht.
Qed.

(** *** Values in range *)

Lemma wf_BytesToHash_any b : wf_hash (BytesToHash b).
Proof.
  unfold BytesToHash. pose proof (be_value_range (drop (length b - 32) b)) as Hr. rewrite length_drop in Hr. unfold wf_hash.
  split; [lia|]. eapply Z.lt_le_trans; [apply Hr|]. change (2 ^ 256) with (256 ^ 32). apply Z.pow_le_mono_r; lia.
Qed.

Lemma wf_hash_0 : wf_hash 0.
Proof. unfold wf_hash. lia. Qed.

Lemma slotOf_wf (t : T) k : wf_hash (slotOf t k).
Proof.
  unfold slotOf. destruct (TryGet t (hash_bytes k)) as [e|enc]; [apply wf_hash_0|]. unfold leafValue. destruct enc; [apply wf_hash_0|].
  destruct (Split _) as [[[? ?] ?]| | |]; cbn; first [apply wf_BytesToHash_any|apply wf_hash_0].
Qed.

(** A new object reads zero everywhere. *)
Lemma trieOf_new d a : exists t, trieOf d (set_nonce 0 (newObject (T:=T) a emptyAccount)) = Ok t /\ forall k, slotOf t k = 0.
Proof.
  unfold trieOf. cbn. destruct (empty_root d (addrHash a)) as (t & -> & Ht). exists t. split; [done|]. intros k. unfold slotOf. by rewrite Ht.
Qed.

Lemma committed_new d a v k : committed d (set_balance v (set_nonce 0 (newObject (T:=T) a emptyAccount))) k = Ok 0.
Proof.
  destruct (trieOf_new d a) as (t & E & Ht). unfold committed.
  change (trieOf d (set_balance v (set_nonce 0 (newObject a emptyAccount)))) with (trieOf d (set_nonce 0 (newObject (T:=T) a emptyAccount))).
  rewrite E. cbn. rewrite Ht. by rewrite !lookup_empty.
Qed.
Lemma current_new d a v k : current d (set_balance v (set_nonce 0 (newObject (T:=T) a emptyAccount))) k = Ok 0.
Proof. rewrite <- (committed_new d a v k). unfold current. cbn [so_fake so_dirty set_balance set_nonce set_so_data newObject]. by rewrite lookup_empty. Qed.

Lemma codeOf_new d a v : codeOf d (set_balance v (set_nonce 0 (newObject (T:=T) a emptyAccount))) = None.
Proof. unfold codeOf. cbn. by rewrite bool_decide_true. Qed.

Lemma obj_typed_new d a v : obj_typed d (set_balance v (set_nonce 0 (newObject a emptyAccount))).
Proof.
  split; [cbn; unfold in_u64; lia| | |].
  - intros k x. rewrite current_new. intros [= <-]. apply wf_hash_0.
  - intros k x. rewrite committed_new. intros [= <-]. apply wf_hash_0.
  - intros c. by rewrite codeOf_new.
Qed.

Lemma obj_typed_balance d v o : obj_typed d o -> obj_typed d (set_balance v o).
Proof. by intros [? ? ? ?]. Qed.
Lemma obj_typed_suicided d b o : obj_typed d o -> obj_typed d (set_so_suicided b o).
Proof. by intros [? ? ? ?]. Qed.
Lemma obj_typed_nonce d v o : in_u64 v -> obj_typed d o -> obj_typed d (set_nonce v o).
Proof. intros Hv [? ? ? ?]. by split. Qed.
Lemma obj_typed_state d k v o : wf_hash v -> obj_typed d o -> obj_typed d (set_state k v o).
Proof.
  intros Hv [H1 H2 H3 H4]. split; [done| |done|done]. intros k' v'. pose proof (H2 k' v') as H. unfold current in *. cbn.
  destruct (so_fake o); [done|]. destruct (decide (k' = k)) as [->|Hne]; [rewrite lookup_insert_eq; by intros [= <-]|].
  by rewrite lookup_insert_ne.
Qed.
Lemma Keccak256Hash_bytes b : Keccak256Hash b = BytesToHash (keccak256 b).
Proof. unfold Keccak256Hash, BytesToHash. by rewrite keccak256_length, drop_0. Qed.

Lemma obj_typed_code d c o : slice_ok c -> obj_typed d o -> obj_typed d (set_code (hash_bytes (Keccak256Hash (slice_bytes c))) c o).
Proof.
  intros Hc [H1 H2 H3 H4].
  assert (hash_bytes (Keccak256Hash (slice_bytes c)) = keccak256 (slice_bytes c)) as E.
  { rewrite Keccak256Hash_bytes. by rewrite hash_bytes_BytesToHash by apply keccak256_length. }
  rewrite E. split; [done|done|done|]. intros c'. unfold codeOf. cbn [so_code so_data set_code set_so_dirtyCode set_so_data set_so_code acc_CodeHash set_acc_CodeHash].
  destruct c as [c|].
  - intros [= <-]. split; [exact Hc|]. right. apply Keccak256Hash_bytes.
  - by rewrite bool_decide_true.
Qed.

(** ** Operations that keep the types *)

(** The reasons for which an operation may panic. *)
Definition state_panics (w : string) : Prop := w = "nil storage trie" \/ w = "Refund counter below zero".

Definition safe {A} (P : StateDB -> Prop) (m : M StateDB A) (R : A -> StateDB -> Prop) : Prop :=
  forall s, sane s -> typed s -> P s ->
  match m s with
  | (Ok x, s') => R x s' /\ sane s' /\ typed s' /\ sdb_db s' = sdb_db s
  | (Panic w, _) => state_panics w
  | (Err _, _) | (Blocked, _) => False
  end.

Definition anyS : StateDB -> Prop := fun _ => True.
Definition any {A} : A -> StateDB -> Prop := fun _ _ => True.

Lemma safe_ret {A} P (x : A) (R : A -> StateDB -> Prop) : (forall s, P s -> R x s) -> safe P (ret x) R.
Proof. intros H s Hs Ht HP. split; [by apply H|done]. Qed.

Lemma safe_bind {A B} P (m : M StateDB A) (f : A -> M StateDB B) Q R :
  safe P m Q -> (forall x, safe (Q x) (f x) R) -> safe P (bindM m f) R.
Proof.
  intros Hm Hf s Hs Ht HP. specialize (Hm s Hs Ht HP). unfold bindM. destruct (m s) as [[x|e|w|] s1]; try done.
  destruct Hm as (HQ & Hs1 & Ht1 & Hd1). specialize (Hf x s1 Hs1 Ht1 HQ). destruct (f x s1) as [[y|e|w|] s2]; try done.
  rewrite <- Hd1. exact Hf.
Qed.

Lemma safe_conseq {A} (P P' : StateDB -> Prop) (m : M StateDB A) (R R' : A -> StateDB -> Prop) :
  safe P' m R' -> (forall s, P s -> P' s) -> (forall x s, R' x s -> R x s) -> safe P m R.
Proof.
  intros H HP HR s Hs Ht Hp. specialize (H s Hs Ht (HP s Hp)). destruct (m s) as [[x|e|w|] s']; try done. destruct H. by split; [apply HR|].
Qed.

Lemma safe_any {A} P (m : M StateDB A) R : safe anyS m R -> safe P m any.
Proof. intros H. by eapply safe_conseq. Qed.

Lemma safe_getS {A} P (f : StateDB -> M StateDB A) R :
  (forall s0, safe (fun s => P s /\ s = s0) (f s0) R) -> safe P (bindM getS f) R.
Proof. intros H s Hs Ht HP. by apply (H s s). Qed.

Lemma safe_when P b m (R : unit -> StateDB -> Prop) :
  (b = true -> safe P m R) -> (forall s, P s -> R tt s) -> safe P (when b m) R.
Proof. destruct b; cbn; intros H1 H2; [by apply H1|]. by apply safe_ret. Qed.

(** A change of fields that are not typed. *)
Lemma safe_fields P f (R : unit -> StateDB -> Prop) :
  (forall s, lookupObj (f s) = lookupObj s /\ sdb_db (f s) = sdb_db s) ->
  (forall s, sane s -> typed s -> P s -> wf_al (sdb_accessList (f s)) /\ in_u64 (sdb_logSize (f s)) /\ in_u64 (sdb_refund (f s)) /\ R tt (f s)) ->
  safe P (modS f) R.
Proof.
  intros Hf H s Hs Ht HP. destruct (Hf s) as [E1 E2]. destruct (H s Hs Ht HP) as (H1 & H2 & H3 & H4). unfold modS. split; [done|]. split.
  - destruct Hs as [_ _ Ho]. split; [done|done|]. by rewrite E1.
  - split; [|done]. split; [|done]. intros a o. rewrite E1, E2. apply Ht.
Qed.

Lemma safe_journal P e (R : unit -> StateDB -> Prop) :
  (forall s j, P s -> R tt (set_sdb_journal j s)) -> safe P (journal_append e) R.
Proof. intros H. apply safe_fields; [done|]. intros s [Ha Hl _] [_ Hr] HP. split; [done|]. split; [done|]. split; [done|by apply H]. Qed.

(** Storing an object. *)
Lemma safe_store P o (R : unit -> StateDB -> Prop) : storable o ->
  (forall s, P s -> obj_typed (sdb_db s) o /\ R tt (setStateObject o s)) -> safe P (modS (setStateObject o)) R.
Proof.
  intros Hst H s Hs Ht HP. destruct (H s HP) as [Ho HR]. unfold modS. split; [done|]. split; [by apply sane_setStateObject|].
  split; [by apply typed_setStateObject|done].
Qed.

(** The live object of [a], in range. *)
Definition found (a : address) (o : stateObject) (s : StateDB) : Prop :=
  holds o s /\ storable o /\ so_address o = a /\ obj_typed (sdb_db s) o.

Lemma safe_getDeletedStateObject a : safe anyS (getDeletedStateObject a) (fun x s => lookupObj s a = x).
Proof.
  intros s Hs Ht _. destruct (getDeletedStateObject_spec a s) as (s' & -> & He & _ & _ & _ & Hl). split; [done|].
  split; [by eapply sane_equiv; [symmetry|]|]. split; [by eapply typed_equiv; [symmetry|]|by apply se_db].
Qed.

Lemma safe_getStateObject a : safe anyS (getStateObject a)
  (fun x s => x = live (lookupObj s a) /\ match x with Some o => found a o s | None => True end).
Proof.
  intros s Hs Ht _. destruct (getStateObject_spec a s) as (s' & -> & He & _ & _ & _ & Hl).
  assert (Hs' : sane s') by (by eapply sane_equiv; [symmetry|]). assert (Ht' : typed s') by (by eapply typed_equiv; [symmetry|]).
  split; [|split; [done|]; split; [done|by apply se_db]]. rewrite Hl. split; [done|].
  destruct (lookupObj s a) as [o|] eqn:E; [|done]. cbn. destruct (so_deleted o) eqn:Ed; [done|].
  destruct (sane_object _ Hs a o E) as (Ha & Hf & Hc). split; [split; [by rewrite Ha|done]|]. split; [done|]. split; [done|by apply (ty_objects _ Ht' a)].
Qed.

Lemma safe_createObject a : safe anyS (createObject a) (fun x s => found a x.1 s).
Proof.
  unfold createObject. eapply safe_bind; [apply safe_getDeletedStateObject|]. intros prev. cbv zeta.
  eapply (safe_bind _ _ _ any); [by apply safe_journal|]. intros []. eapply (safe_bind _ _ _ (fun _ s => found a (set_nonce 0 (newObject a emptyAccount)) s)).
  - assert (Hn : forall d, obj_typed d (set_nonce 0 (newObject (T:=T) a emptyAccount))) by (intros d; apply (obj_typed_new d a 0)).
    apply safe_store; [apply storable_new|]. intros s _. split; [done|]. split; [split; [|done]|].
    + by rewrite lookup_setStateObject, decide_True.
    + split; [apply storable_new|]. by split; [|apply Hn].
  - intros []. by apply safe_ret.
Qed.

Lemma safe_GetOrNewStateObject a : safe anyS (GetOrNewStateObject a) (found a).
Proof.
  unfold GetOrNewStateObject. eapply safe_bind; [apply safe_getStateObject|]. intros [o|].
  - apply safe_ret. by intros s [_ H].
  - eapply safe_bind; [eapply safe_conseq; [apply safe_createObject|done|intros x s H; exact H]|]. intros [n p]. by apply safe_ret.
Qed.

(** ** Reads *)

Lemma trieOf_cases d o : (exists t, trieOf d o = Ok t) \/ trieOf d o = Panic "nil storage trie".
Proof.
  unfold trieOf. destruct (so_trie o); [by left; eexists|]. destruct (OpenStorageTrie d _ _); [|by left; eexists].
  destruct (OpenStorageTrie d _ _); [by right|by left; eexists].
Qed.
Lemma committed_cases d o k : (exists v, committed d o k = Ok v) \/ committed d o k = Panic "nil storage trie".
Proof.
  unfold committed. destruct (so_fake o); [by left; eexists|]. destruct (so_pending o !! k); [by left; eexists|].
  destruct (so_origin o !! k); [by left; eexists|]. destruct (trieOf_cases d o) as [[t ->]| ->]; [by left; eexists|by right].
Qed.
Lemma current_cases d o k : (exists v, current d o k = Ok v) \/ current d o k = Panic "nil storage trie".
Proof.
  unfold current. destruct (so_fake o); [by left; eexists|]. destruct (so_dirty o !! k); [by left; eexists|]. apply committed_cases.
Qed.

(** A computation that leads to an equivalent state, or panics. *)
Definition looks_at {A} (m : M StateDB A) (s : StateDB) (R : A -> Prop) : Prop :=
  match m s with
  | (Ok x, s') => R x /\ state_equiv s' s
  | (Panic w, _) => state_panics w
  | (Err _, _) | (Blocked, _) => False
  end.
Definition looks {A} (m : M StateDB A) (R : StateDB -> A -> Prop) : Prop :=
  forall s, sane s -> typed s -> looks_at m s (R s).

Lemma looks_at_bind {A B} (m : M StateDB A) (f : A -> M StateDB B) s Q R :
  looks_at m s Q -> (forall x s1, Q x -> state_equiv s1 s -> looks_at (f x) s1 R) -> looks_at (bindM m f) s R.
Proof.
  unfold looks_at, bindM. intros Hm Hf. destruct (m s) as [[x|e|w|] s1]; try done. destruct Hm as [HQ He]. specialize (Hf x s1 HQ He).
  destruct (f x s1) as [[y|e|w|] s2]; try done. destruct Hf as [HR He2]. split; [done|by transitivity s1].
Qed.

Lemma looks_result {A} P (m : M StateDB A) R (Res : A -> Prop) :
  looks m R -> (forall s x, sane s -> typed s -> R s x -> Res x) -> safe P m (fun x _ => Res x).
Proof.
  intros H HR s Hs Ht _. specialize (H s Hs Ht). unfold looks_at in H. destruct (m s) as [[x|e|w|] s']; try done. destruct H as [HRx He].
  split; [by eapply HR|]. split; [by eapply sane_equiv; [symmetry|]|]. split; [by eapply typed_equiv; [symmetry|]|by apply se_db].
Qed.

Lemma looks_safe {A} P (m : M StateDB A) R : looks m R -> safe P m any.
Proof. intros H. by eapply (looks_result P m R (fun _ => True)). Qed.

Definition liveObj (s : StateDB) (a : address) : option stateObject := live (lookupObj s a).

Lemma liveObj_found s a o : sane s -> typed s -> liveObj s a = Some o -> found a o s.
Proof.
  unfold liveObj. intros Hs Ht H. destruct (lookupObj s a) as [o'|] eqn:E; [|done]. cbn in H. destruct (so_deleted o') eqn:Ed; [done|].
  injection H as ->. destruct (sane_object _ Hs a o E) as (Ha & Hf & Hc). split; [split; [by rewrite Ha|done]|]. split; [done|].
  split; [done|by apply (ty_objects _ Ht a)].
Qed.

Lemma looks_object {A} a (f : option stateObject -> M StateDB A) (R : D -> option stateObject -> A -> Prop) :
  (forall s, sane s -> typed s -> looks_at (f (liveObj s a)) s (R (sdb_db s) (liveObj s a))) ->
  looks (obj ← getStateObject a; f obj) (fun s => R (sdb_db s) (liveObj s a)).
Proof.
  intros H s Hs Ht. destruct (getStateObject_spec a s) as (s' & E & He & _ & _ & _ & Hl). unfold looks_at, bindM. rewrite E.
  assert (Hs' : sane s') by (by eapply sane_equiv; [symmetry|]). assert (Ht' : typed s') by (by eapply typed_equiv; [symmetry|]).
  specialize (H s' Hs' Ht'). unfold liveObj in H. rewrite Hl, (se_db _ _ He) in H. unfold looks_at in H. unfold liveObj.
  destruct (f (live (lookupObj s a)) s') as [[x|e|w|] s2]; try done. destruct H as [H1 H2]. split; [done|by transitivity s'].
Qed.

Lemma looks_look {A} a (f : option stateObject -> A) :
  looks (obj ← getStateObject a; ret (f obj)) (fun s v => v = f (liveObj s a)).
Proof. apply (looks_object a _ (fun _ x v => v = f x)). intros s _ _. by split. Qed.

(** Reading through the object and keeping what was cached. *)
Lemma looks_cached {A} (m : D -> outcome (A * stateObject)) (R : A -> Prop) o s : found (so_address o) o s ->
  match m (sdb_db s) with
  | Ok (v, o') => R v /\ obj_equiv (sdb_db s) o o'
  | Panic w => state_panics w
  | Err _ | Blocked => False
  end -> looks_at (s ← getS; '(v, o') ← lift_out (m (sdb_db s)); modS (setStateObject o') ;; ret v) s R.
Proof.
  intros ([Hl _] & _) H. unfold looks_at, bindM, getS, lift_out. destruct (m (sdb_db s)) as [[v o']|e|w|]; try done. destruct H as [HR He]. split; [done|].
  apply equiv_setStateObject_same. rewrite <- (oe_address _ _ _ He), Hl. by constructor.
Qed.

(** What an account holds at a slot. *)
Definition slot_at (s : StateDB) (a : address) (k : hash) : outcome hash :=
  match liveObj s a with None => Ok 0 | Some o => current (sdb_db s) o k end.
Definition committed_at (s : StateDB) (a : address) (k : hash) : outcome hash :=
  match liveObj s a with None => Ok 0 | Some o => committed (sdb_db s) o k end.
Definition code_at (s : StateDB) (a : address) : option bytes :=
  match liveObj s a with None => None | Some o => codeOf (sdb_db s) o end.

Lemma looks_GetState a k : looks (State.GetState a k) (fun s v => slot_at s a k = Ok v).
Proof.
  apply (looks_object a _ (fun d x v => match x with None => Ok 0 | Some o => current d o k end = Ok v)). intros s Hs Ht.
  destruct (liveObj s a) as [o|] eqn:E; [|by split]. destruct (liveObj_found s a o Hs Ht E) as (Hh & Hst & <- & Hty).
  apply (looks_cached (fun d => so_GetState d k o) _ o); [done|]. pose proof (so_GetState_spec (sdb_db s) k o) as H.
  destruct (so_GetState (sdb_db s) k o) as [[v o']|e|w|]; [done| | |]; destruct (current_cases (sdb_db s) o k) as [[? Hc]|Hc]; rewrite Hc in H; try done.
  injection H as <-. by left.
Qed.

Lemma looks_GetCommittedState a k : looks (State.GetCommittedState a k) (fun s v => committed_at s a k = Ok v).
Proof.
  apply (looks_object a _ (fun d x v => match x with None => Ok 0 | Some o => committed d o k end = Ok v)). intros s Hs Ht.
  destruct (liveObj s a) as [o|] eqn:E; [|by split]. destruct (liveObj_found s a o Hs Ht E) as (Hh & Hst & <- & Hty).
  apply (looks_cached (fun d => so_GetCommittedState d k o) _ o); [done|]. pose proof (so_GetCommittedState_spec (sdb_db s) k o) as H.
  destruct (so_GetCommittedState (sdb_db s) k o) as [[v o']|e|w|]; [done| | |]; destruct (committed_cases (sdb_db s) o k) as [[? Hc]|Hc]; rewrite Hc in H; try done.
  injection H as <-. by left.
Qed.

Lemma looks_GetCode a : looks (State.GetCode a) (fun s v => code_at s a = v).
Proof.
  apply (looks_object a _ (fun d x v => match x with None => None | Some o => codeOf d o end = v)). intros s Hs Ht.
  destruct (liveObj s a) as [o|] eqn:E; [|by split]. destruct (liveObj_found s a o Hs Ht E) as ((Hl & _) & Hst & <- & Hty).
  unfold looks_at, bindM, getS.
  cbv beta iota. destruct (so_Code (sdb_db s) o) as [c2 o2] eqn:Ec2. apply so_Code_spec in Ec2 as [E3 E4]. split; [by rewrite <- E3|].
  apply equiv_setStateObject_same. rewrite <- (oe_address _ _ _ E4), Hl. by constructor.
Qed.

Lemma looks_GetCodeSize a : looks (State.GetCodeSize a) (fun _ _ => True).
Proof.
  apply (looks_object a _ (fun _ _ _ => True)). intros s Hs Ht. destruct (liveObj s a) as [o|]; [|by split].
  destruct (so_code o); [by split|]. unfold looks_at, bindM, getS. destruct (ContractCodeSize _ _ _); split; try done. apply equiv_setError.
Qed.

Lemma looks_gets {A} (f : StateDB -> A) : looks (gets f) (fun s v => v = f s).
Proof. by intros s _ _. Qed.

Lemma looks_SlotInAccessList a k : looks (State.SlotInAccessList a k) (fun _ _ => True).
Proof.
  intros s Hs _. unfold looks_at, State.SlotInAccessList, bindM, getS, lift_out, Contains. destruct (al_addresses (sdb_accessList s) !! a) as [i|] eqn:E; [|done].
  destruct (Z.eqb_spec i (-1)); [done|]. destruct (slots_at_Ok _ a i (sane_access _ Hs) E) as (m & -> & _); done.
Qed.

(** ** Changes *)

Lemma safe_on_new {A} a (f : stateObject -> M StateDB A) :
  (forall o, safe (found a o) (f o) any) -> safe anyS (o ← GetOrNewStateObject a; f o) any.
Proof. intros H. eapply safe_bind; [apply safe_GetOrNewStateObject|done]. Qed.

(** A journal entry, then the changed object. *)
Lemma safe_change a o e (f : stateObject -> stateObject) :
  (storable o -> storable (f o)) -> (forall d, obj_typed d o -> obj_typed d (f o)) ->
  safe (found a o) (journal_append e ;; modS (setStateObject (f o))) any.
Proof.
  intros Hst Hty s Hs Ht Hf. eapply (safe_bind (found a o) _ _ (fun _ => found a o)); [by apply safe_journal| |done..]. intros [] s1 Hs1 Ht1 (H1 & H2 & H3 & H4).
  eapply (safe_store (fun s => s = s1)); [by apply Hst| |done..]. intros ? ->. split; [by apply Hty|done].
Qed.

Lemma safe_SetNonce a n : in_u64 n -> safe anyS (State.SetNonce a n) any.
Proof. intros Hn. apply safe_on_new. intros o. apply (safe_change a o _ (set_nonce n)); [done|]. intros d. by apply obj_typed_nonce. Qed.

Lemma safe_SetCode a c : slice_ok c -> safe anyS (State.SetCode a c) any.
Proof.
  intros Hc. apply safe_on_new. intros o s Hs Ht (H1 & H2 & H3 & H4). unfold so_SetCode. rewrite bind_getS.
  destruct (so_Code (sdb_db s) o) as [pc o'] eqn:E. apply so_Code_spec in E as [_ Ho].
  assert (Hst : storable (set_code (hash_bytes (Keccak256Hash (default [] c))) c o')).
  { destruct (storable_equiv _ _ _ Ho H2) as [Hfk Hlen]. split; [done|]. apply length_hash_bytes. }
  eapply (safe_bind (fun s1 => sdb_db s1 = sdb_db s) _ _ (fun _ s1 => sdb_db s1 = sdb_db s)); [by apply safe_journal| |done..].
  intros []. apply safe_store; [done|]. intros s1 Hd. split; [|done]. rewrite Hd. apply obj_typed_code; [done|]. by eapply obj_typed_equiv.
Qed.

Lemma safe_SetState a k v : wf_hash v -> safe anyS (State.SetState a k v) any.
Proof.
  intros Hv. apply safe_on_new. intros o s Hs Ht (H1 & H2 & H3 & H4). unfold so_SetState. rewrite (proj1 H2), bind_getS.
  pose proof (so_GetState_spec (sdb_db s) k o) as Hg. unfold bindM at 1, lift_out.
  destruct (so_GetState (sdb_db s) k o) as [[prev o']|e|w|]; [|destruct (current_cases (sdb_db s) o k) as [[? Hc]|Hc]; rewrite Hc in Hg; try done..].
  2: { injection Hg as <-. by left. }
  destruct Hg as [_ He]. assert (Hst : storable o') by by eapply storable_equiv. assert (Hty : obj_typed (sdb_db s) o') by by eapply obj_typed_equiv.
  eapply (safe_bind (fun s1 => s1 = s) _ _ (fun _ s1 => sdb_db s1 = sdb_db s)); [|intros []|done..].
  - apply safe_store; [done|]. by intros ? ->.
  - destruct (prev =? v); [by apply safe_ret|].
    eapply (safe_bind _ _ _ (fun _ s1 => sdb_db s1 = sdb_db s)); [by apply safe_journal|]. intros []. apply safe_store; [done|].
    intros s1 ->. split; [by apply obj_typed_state|done].
Qed.

Lemma wf_BigToHash' x : wf_hash (BigToHash x).
Proof. apply wf_BytesToHash_any. Qed.

Lemma safe_ovm_balance a f : safe anyS (change_ovm_balance a f) any.
Proof.
  unfold change_ovm_balance. cbv zeta. eapply (safe_bind _ _ _ any); [eapply looks_safe, looks_GetState|]. intros v. apply (safe_any _ _ any), safe_SetState, wf_BigToHash'.
Qed.

Lemma safe_CreateAccount a : safe anyS (State.CreateAccount a) any.
Proof.
  unfold State.CreateAccount, createObject. intros s Hs Ht _. destruct (getDeletedStateObject_spec a s) as (s' & E & He & _ & _ & _ & Hl).
  assert (Hs' : sane s') by (by eapply sane_equiv; [symmetry|]). assert (Ht' : typed s') by (by eapply typed_equiv; [symmetry|]).
  unfold bindM, journal_append, modS, ret. rewrite E. set (n := set_nonce 0 (newObject (T:=T) a emptyAccount)).
  assert (Hn : forall d v, obj_typed d (set_balance v n)) by (intros; apply obj_typed_new).
  assert (Hst : storable n) by apply storable_new. assert (Hn0 : forall d, obj_typed d n) by (intros d; apply (obj_typed_new d a 0)).
  assert (Hb : forall s1, sane s1 -> typed s1 -> sane (setStateObject n s1) /\ typed (setStateObject n s1)).
  { intros s1 ? ?. split; [by apply sane_setStateObject|by apply typed_setStateObject]. }
  assert (Hj : forall j, sane (set_sdb_journal j s') /\ typed (set_sdb_journal j s')).
  { intros j. split; [by eapply sane_equiv; [symmetry; apply equiv_journal|]|by destruct Ht']. }
  destruct (lookupObj s a) as [p|].
  - cbv iota beta. split; [done|]. destruct (Hj (j_append (resetObjectChange p) (sdb_journal s'))) as [J1 J2]. destruct (Hb _ J1 J2) as [B1 B2].
    split; [by apply sane_setStateObject|]. split; [by apply typed_setStateObject|]. apply (se_db _ _ He).
  - cbv iota beta. split; [done|]. destruct (Hj (j_append (createObjectChange a) (sdb_journal s'))) as [J1 J2]. destruct (Hb _ J1 J2) as [B1 B2].
    split; [done|]. split; [done|]. apply (se_db _ _ He).
Qed.

Lemma safe_Suicide a : safe anyS (State.Suicide a) any.
Proof.
  unfold State.Suicide. eapply safe_bind; [apply safe_getStateObject|]. intros [o|]; [|by apply safe_ret].
  eapply safe_bind; [|intros []; eapply (safe_bind _ _ _ any); [|intros []; by apply safe_ret]].
  - apply (safe_journal _ _ (fun _ => found a o)). intros s j [_ H]. exact H.
  - intros s Hs Ht (H1 & H2 & H3 & H4). eapply (safe_store (fun s1 => s1 = s)); [done| |done..]. intros ? ->. split; [|done].
    by apply obj_typed_balance, obj_typed_suicided.
Qed.

Lemma safe_AddLog l : safe anyS (State.AddLog l) any.
Proof.
  unfold State.AddLog. apply safe_getS. intros s0. eapply (safe_bind _ _ _ any); [by apply safe_journal|]. intros []. apply safe_fields; [done|].
  intros s [? ? ?] [? ?] _. split; [done|]. split; [apply u64_in|done].
Qed.

Lemma safe_AddPreimage h b : safe anyS (State.AddPreimage h b) any.
Proof.
  unfold State.AddPreimage. apply safe_getS. intros s0. destruct (sdb_preimages s0 !! h); [by apply safe_ret|].
  eapply (safe_bind _ _ _ any); [by apply safe_journal|]. intros []. apply safe_fields; [done|]. by intros s [? ? ?] [? ?] _.
Qed.

Lemma safe_AddRefund g : safe anyS (State.AddRefund g) any.
Proof.
  unfold State.AddRefund. apply safe_getS. intros s0. eapply (safe_bind _ _ _ any); [by apply safe_journal|]. intros [].
  apply safe_fields; [done|]. intros s [? ? ?] [? ?] _. split; [done|]. split; [done|]. split; [apply u64_in|done].
Qed.

Lemma safe_SubRefund g : 0 <= g -> safe anyS (State.SubRefund g) any.
Proof.
  intros Hg s Hs Ht _. unfold State.SubRefund. rewrite bind_getS. destruct (Z.ltb_spec (sdb_refund s) g) as [Hlt|Hge].
  - unfold bindM, journal_append, modS. by right.
  - eapply (safe_bind anyS _ _ any); [by apply safe_journal| |done..]. intros []. apply safe_fields; [done|]. intros s1 [? ? ?] [? ?] _.
    split; [done|]. split; [done|]. split; [|done]. pose proof (ty_refund _ Ht) as Hr. unfold in_u64 in *. cbn. lia.
Qed.

Lemma safe_AddAddressToAccessList a : safe anyS (State.AddAddressToAccessList a) any.
Proof.
  unfold State.AddAddressToAccessList. apply safe_getS. intros s0. pose proof (AddAddress_wf a (sdb_accessList s0)) as Hw.
  destruct (AddAddress a (sdb_accessList s0)) as [change al]. cbn in Hw. eapply (safe_bind _ _ _ any).
  - apply safe_fields; [done|]. intros s [? ? ?] [? ?] [_ ->]. split; [by apply Hw|done].
  - intros []. apply safe_when; [|done]. intros _. by apply safe_journal.
Qed.

Lemma safe_AddSlotToAccessList a k : safe anyS (State.AddSlotToAccessList a k) any.
Proof.
  intros s Hs Ht _. unfold State.AddSlotToAccessList. rewrite bind_getS. destruct (AddSlot_spec a k _ (sane_access _ Hs)) as (b1 & b2 & al & E & Hw & _).
  unfold bindM at 1, lift_out. rewrite E. eapply (safe_bind anyS _ _ any); [| |done..].
  - apply safe_fields; [done|]. by intros s1 [? ? ?] [? ?] _.
  - intros []. eapply (safe_bind _ _ _ any); [|intros []]; apply safe_when; try done; intros _; by apply safe_journal.
Qed.

Lemma safe_each {A} (l : list A) (f : A -> M StateDB unit) : (forall x, safe anyS (f x) any) -> safe anyS (each l f) any.
Proof. intros H. induction l as [|x l IH]; cbn; [by apply safe_ret|]. eapply safe_bind; [apply H|]. by intros []. Qed.

Lemma safe_PrepareAccessList sender dst pre l : safe anyS (State.PrepareAccessList sender dst pre l) any.
Proof.
  unfold State.PrepareAccessList. eapply safe_bind; [apply safe_AddAddressToAccessList|]. intros [].
  eapply (safe_bind _ _ _ any); [destruct dst; [apply safe_AddAddressToAccessList|by apply safe_ret]|]. intros [].
  eapply safe_bind; [apply safe_each, safe_AddAddressToAccessList|]. intros []. apply safe_each. intros [b keys].
  eapply safe_bind; [apply safe_AddAddressToAccessList|]. intros []. apply safe_each, safe_AddSlotToAccessList.
Qed.

(** ** The contract *)

Lemma slot_at_range s a k v : sane s -> typed s -> slot_at s a k = Ok v -> wf_hash v.
Proof.
  intros Hs Ht. unfold slot_at. destruct (liveObj s a) as [o|] eqn:E; [|intros [= <-]; apply wf_hash_0].
  destruct (liveObj_found s a o Hs Ht E) as (_ & _ & _ & Hty). apply (ot_current _ _ Hty).
Qed.
Lemma committed_at_range s a k v : sane s -> typed s -> committed_at s a k = Ok v -> wf_hash v.
Proof.
  intros Hs Ht. unfold committed_at. destruct (liveObj s a) as [o|] eqn:E; [|intros [= <-]; apply wf_hash_0].
  destruct (liveObj_found s a o Hs Ht E) as (_ & _ & _ & Hty). apply (ot_committed _ _ Hty).
Qed.
Lemma code_at_range s a c : sane s -> typed s -> code_at s a = c -> slice_ok c.
Proof.
  intros Hs Ht. unfold code_at. destruct (liveObj s a) as [o|] eqn:E; [|by intros <-].
  destruct (liveObj_found s a o Hs Ht E) as (_ & _ & _ & Hty). intros <-. destruct (codeOf (sdb_db s) o) as [c|] eqn:Ec.
  - apply (ot_code _ _ Hty c Ec).
  - done.
Qed.

Lemma state_safe {A} (c : method A) : plain c = true -> args_ok c -> safe anyS (state_call true c) (fun x _ => result_ok c x).
Proof.
  destruct c; intros Hp Ha; try discriminate Hp; cbn [args_ok] in Ha; cbn [state_call result_ok].
  - apply safe_CreateAccount.
  - apply safe_ovm_balance.
  - apply safe_ovm_balance.
  - eapply looks_result; [apply looks_GetState|]. intros s x. apply slot_at_range.
  - eapply looks_result; [apply looks_look|]. intros s x Hs Ht ->. destruct (liveObj s a) as [o|] eqn:E; [|unfold in_u64; lia].
    destruct (liveObj_found s a o Hs Ht E) as (_ & _ & _ & Hty). apply (ot_nonce _ _ Hty).
  - by apply safe_SetNonce.
  - eapply looks_result; [apply looks_look|]. intros s x Hs Ht ->. destruct (liveObj s a); [apply wf_BytesToHash_any|apply wf_hash_0].
  - eapply looks_result; [apply looks_GetCode|]. intros s x. apply code_at_range.
  - by apply safe_SetCode.
  - eapply looks_safe, looks_GetCodeSize.
  - apply safe_AddRefund.
  - by apply safe_SubRefund.
  - eapply looks_result; [apply looks_gets|]. intros s x _ Ht ->. apply Ht.
  - eapply looks_result; [apply looks_GetCommittedState|]. intros s x. apply committed_at_range.
  - eapply looks_result; [apply looks_GetState|]. intros s x. apply slot_at_range.
  - apply safe_SetState. tauto.
  - apply safe_Suicide.
  - eapply looks_safe, looks_look.
  - eapply looks_safe, looks_look.
  - eapply looks_safe, looks_look.
  - apply safe_PrepareAccessList.
  - eapply looks_safe, looks_gets.
  - eapply looks_safe, looks_SlotInAccessList.
  - apply safe_AddAddressToAccessList.
  - apply safe_AddSlotToAccessList.
  - apply safe_AddLog.
  - apply safe_AddPreimage.
Qed.

Lemma undo_gets {A} (f : StateDB -> A) : undo (fun _ => True) (gets f) (fun _ _ => True).
Proof. intros s Hs _. split; [done|]. by apply stepped_equiv. Qed.
Lemma undo_SlotInAccessList a k : undo (fun _ => True) (State.SlotInAccessList a k) (fun _ _ => True).
Proof.
  intros s Hs _. unfold State.SlotInAccessList, bindM, getS, lift_out. destruct (Contains _ _ _); try done. split; [done|]. by apply stepped_equiv.
Qed.

Lemma state_undo {A} (c : method A) : plain c = true -> undo (fun _ => True) (state_call true c) (fun _ _ => True).
Proof.
  destruct c; intros Hp; try discriminate Hp; cbn [state_call];
    first [apply undo_CreateAccount | apply undo_SubBalance | apply undo_AddBalance | apply undo_GetBalance | apply undo_look
      | apply undo_SetNonce | apply undo_GetCode | apply undo_SetCode | apply undo_GetCodeSize | apply undo_AddRefund | apply undo_SubRefund
      | apply undo_gets | apply undo_GetCommittedState | apply undo_GetState | apply undo_SetState | apply undo_Suicide
      | apply undo_PrepareAccessList | apply undo_SlotInAccessList | apply undo_AddAddressToAccessList | apply undo_AddSlotToAccessList
      | apply undo_AddLog | apply undo_AddPreimage ].
Qed.

Lemma state_looks {A} (c : method A) : reading c = true -> exists R, looks (state_call true c) R.
Proof.
  destruct c; intros Hp; try discriminate Hp; eexists; cbn [state_call];
    first [apply looks_GetState | apply looks_look | apply looks_GetCode | apply looks_GetCodeSize | apply looks_gets
      | apply looks_GetCommittedState | apply looks_SlotInAccessList].
Qed.

(** A state with its open snapshots, all of them in range. *)
Definition opened (s : StateDB) (gl : list (Z * StateDB)) : Prop := exists g3,
  tracked s g3 /\ gl = (fun x => (x.1.1, x.2)) <$> g3 /\ typed s /\ Forall (fun x => typed x.2) g3.

Lemma opened_sane s gl : opened s gl -> sane s /\ typed s.
Proof. intros (g3 & [H _ _ _] & _ & Ht & _). done. Qed.

Lemma opened_plain {A} (c : method A) s gl (o : outcome A) s' : opened s gl -> plain c = true -> args_ok c -> state_call true c s = (o, s') ->
  match o with
  | Ok a => opened s' gl /\ result_ok c a
  | Panic w => state_panics w
  | Err _ | Blocked => False
  end.
Proof.
  intros (g3 & Htr & -> & Ht & Hg) Hp Ha E. pose proof (state_safe c Hp Ha s (tr_sane _ _ Htr) Ht I) as H1.
  pose proof (state_undo c Hp s (tr_sane _ _ Htr) I) as H2. rewrite E in H1, H2. destruct o as [x|e|w|]; try done.
  destruct H1 as (Hr & _ & Ht' & _), H2 as [_ Hst]. split; [|done]. exists g3. split; [by eapply tracked_stepped|done].
Qed.

Lemma opened_Snapshot s gl : opened s gl -> exists id s', State.Snapshot s = (Ok id, s') /\ opened s' (gl ++ [(id, s)]).
Proof.
  intros (g3 & Htr & -> & Ht & Hg). destruct (tracked_Snapshot s g3 Htr) as (s' & E & Htr' & _). exists (sdb_nextRevisionId s), s'.
  split; [done|]. eexists. split; [exact Htr'|]. split; [by rewrite fmap_app|]. unfold State.Snapshot in E. cbn in E. injection E as <-.
  split; [by destruct Ht|]. apply Forall_app. split; [done|]. by constructor.
Qed.

Lemma opened_Revert s gl id sv rest : opened s (gl ++ (id, sv) :: rest) ->
  exists s', State.RevertToSnapshot id s = (Ok tt, s') /\ opened s' gl /\ state_equiv s' sv.
Proof.
  intros (g3 & Htr & E & Ht & Hg). symmetry in E. apply fmap_app_inv in E as (g1 & g2 & -> & E2 & ->).
  symmetry in E2. apply fmap_cons_inv in E2 as ([[i n] sv'] & g4 & [= -> ->] & -> & ->). apply Forall_app in Hg as [Hg1 Hg2].
  inversion Hg2 as [|? ? Hsv _]; subst. destruct (tracked_Revert s g1 g4 i n sv' Htr) as (s' & Er & He & Htr' & _).
  exists s'. split; [done|]. split; [|done]. exists g1. split; [done|]. split; [done|]. split; [|done]. by eapply typed_equiv; [symmetry|].
Qed.

Lemma opened_code a s gl h s1 code s2 : opened s gl -> State.GetCodeHash a s = (Ok h, s1) -> State.GetCode a s1 = (Ok code, s2) ->
  slice_bytes code = [] \/ h = 0 \/ h = Keccak256Hash (slice_bytes code).
Proof.
  intros Hop E1 E2. destruct (opened_sane _ _ Hop) as [Hs Ht].
  pose proof (looks_look a (fun x => match x with Some o => BytesToHash (acc_CodeHash (so_data o)) | None => 0 end) s Hs Ht) as H1.
  unfold looks_at in H1. unfold State.GetCodeHash in E1. rewrite E1 in H1. destruct H1 as [Eh He].
  assert (Hs1 : sane s1) by (by eapply sane_equiv; [symmetry|]). assert (Ht1 : typed s1) by (by eapply typed_equiv; [symmetry|]).
  pose proof (looks_GetCode a s1 Hs1 Ht1) as H2. unfold looks_at in H2. rewrite E2 in H2. destruct H2 as [Ec _].
  pose proof (live_equiv _ _ _ (se_objects _ _ He a)) as Hl. unfold code_at, liveObj in Ec. unfold liveObj in Eh.
  destruct (live (lookupObj s1 a)) as [o|] eqn:E; [|left; by rewrite <- Ec].
  destruct (liveObj_found s1 a o Hs1 Ht1 E) as (_ & _ & _ & Hty). inversion Hl as [? o' Ho E3 E4|]; subst. rewrite <- E4.
  destruct (codeOf (sdb_db s1) o) as [c|] eqn:Ecode; [|by left]. destruct (ot_code _ _ Hty c Ecode) as [_ [-> |Hk]]; [by left|].
  right; right. cbn [slice_bytes default]. by rewrite <- (oe_data _ _ _ Ho).
Qed.

#[global] Instance state_laws : DatabaseLaws StateDB (database := state_database true).
Proof.
  refine {| db_open := opened; db_equiv := state_equiv; db_panics := state_panics |}.
  - intros A c. apply opened_plain.
  - apply opened_Snapshot.
  - apply opened_Revert.
  - intros A c s gl x s' Hop Hr E. destruct (opened_sane _ _ Hop) as [Hs Ht]. destruct (state_looks c Hr) as [R HR]. specialize (HR s Hs Ht).
    unfold looks_at in HR. change (state_call true c s = (Ok x, s')) in E. rewrite E in HR. apply HR.
  - reflexivity.
  - intros s1 s2 s3. apply transitivity.
  - apply opened_code.
  - intros s gl g s' _ [= _ <-]. reflexivity.
Defined.
End laws.
