(* ===== verification/VMStateMode.v ===== *)
(** What the machine leaves alone in the state database.

    [same_world]: two states with the same nonces, codes, storage and suicided marks
    of every account, the same logs and the same refund counter.  The methods that a
    static call may use keep it: they only read, warm up the access list, record
    preimages, or bring an empty account into existence.

    [tx_kept]: whatever code runs, the database stays at the same transaction of the same
    block, the logs of other transactions stay, and the logs of this one are numbered in
    the order in which they were emitted and not reverted. *)
From stdpp Require Import prelude gmap list strings.
From Stdlib Require Import ZArith Lia.
From S2P Require Import Prelude Params VarBytes RLP RLPStream RLPDecode RLPTyped Crypto AccessList StateData State StateFacts VMWord VMWordFacts VMAnalysis VMState VMDatabase VMLaws VMFrame VMStateLaws.
Local Open Scope Z_scope.

Section mode.
Context {T D : Type} {backend : Backend T D} {crypto : Crypto} {store : StoreLaws T D}.
Local Abbreviation stateObject := (stateObject T).
Local Abbreviation StateDB := (StateDB T D).
Implicit Types (a : address) (k : hash) (s : StateDB).

Definition nonce_at s a : Z := match liveObj s a with None => 0 | Some o => acc_Nonce (so_data o) end.
Definition suicided_at s a : bool := match liveObj s a with None => false | Some o => so_suicided o end.

Record same_account (s1 s2 : StateDB) (a : address) : Prop := {
  sa_nonce : nonce_at s1 a = nonce_at s2 a;
  sa_code : code_at s1 a = code_at s2 a;
  sa_slot : forall k, slot_at s1 a k = slot_at s2 a k;
  sa_committed : forall k, committed_at s1 a k = committed_at s2 a k;
  sa_suicided : suicided_at s1 a = suicided_at s2 a }.

Record same_world (s1 s2 : StateDB) : Prop := {
  sw_accounts : forall a, same_account s1 s2 a;
  sw_logs : forall h, logsOf s1 h = logsOf s2 h;
  sw_refund : sdb_refund s1 = sdb_refund s2 }.

Lemma same_account_trans s1 s2 s3 a : same_account s1 s2 a -> same_account s2 s3 a -> same_account s1 s3 a.
Proof.
  intros [A1 A2 A3 A4 A5] [B1 B2 B3 B4 B5]. split; [congruence|congruence| | |congruence]; intros k; [rewrite A3|rewrite A4]; done.
Qed.

Lemma same_world_trans s1 s2 s3 : same_world s1 s2 -> same_world s2 s3 -> same_world s1 s3.
Proof.
  intros [A1 A2 A3] [B1 B2 B3]. split; [|intros h; by rewrite A2|congruence]. intros a. by eapply same_account_trans.
Qed.

(** Accounts that are looked up alike. *)
Lemma same_account_objects s1 s2 a :
  sdb_db s1 = sdb_db s2 -> option_Forall2 (obj_equiv (sdb_db s2)) (lookupObj s1 a) (lookupObj s2 a) -> same_account s1 s2 a.
Proof.
  intros Hd H. apply live_equiv in H. change (option_Forall2 (obj_equiv (sdb_db s2)) (liveObj s1 a) (liveObj s2 a)) in H.
  split; unfold nonce_at, code_at, slot_at, committed_at, suicided_at; inversion H as [o1 o2 [E1 E2 E3 E4 E5 E6 E7 E8]|]; try done; rewrite ?Hd; congruence.
Qed.

Lemma same_world_fields s1 s2 : sdb_db s1 = sdb_db s2 -> lookupObj s1 = lookupObj s2 -> logsOf s1 = logsOf s2 ->
  sdb_refund s1 = sdb_refund s2 -> same_world s1 s2.
Proof.
  intros Hd Hl Hlog Hr. split; [|by rewrite Hlog|done]. intros a. apply same_account_objects; [done|]. rewrite Hl. reflexivity.
Qed.

Lemma same_world_equiv s1 s2 : state_equiv s1 s2 -> same_world s1 s2.
Proof.
  intros [H1 H2 H3]. unfold rest in H1. split; [|done|congruence]. intros a. apply same_account_objects; [congruence|done].
Qed.

(** An empty account where there was none. *)
Lemma same_world_new s a v : liveObj s a = None ->
  same_world s (setStateObject (set_balance v (set_nonce 0 (newObject a emptyAccount))) s).
Proof.
  intros Hn. set (n := set_balance v _).
  assert (Hl : liveObj (setStateObject n s) a = Some n) by (unfold liveObj; rewrite lookup_setStateObject, decide_True by done; done).
  split; [|done|done]. intros b. destruct (decide (b = a)) as [-> |Hne].
  - split; unfold nonce_at, code_at, slot_at, committed_at, suicided_at; rewrite Hn, Hl; try done.
    + symmetry. apply codeOf_new.
    + intros k. symmetry. apply current_new.
    + intros k. symmetry. apply committed_new.
  - apply same_account_objects; [done|]. rewrite lookup_setStateObject, decide_False by done. reflexivity.
Qed.

Lemma liveObj_journal s j a : liveObj (set_sdb_journal j s) a = liveObj s a.
Proof. done. Qed.

Lemma same_world_createObject s a x s' : liveObj s a = None -> createObject a s = (Ok x, s') ->
  same_world s s' /\ liveObj s' a = Some x.1 /\ x.1 = set_nonce 0 (newObject a emptyAccount) /\ sdb_db s' = sdb_db s.
Proof.
  intros Hn. unfold createObject. destruct (getDeletedStateObject_spec a s) as (s1 & E & He & _ & _ & _ & Hl). unfold bindM, journal_append, modS, ret.
  rewrite E. intros [= <- <-]. set (s2 := set_sdb_journal _ s1).
  assert (Hn2 : liveObj s2 a = None) by (unfold s2; rewrite liveObj_journal; unfold liveObj; rewrite Hl; exact Hn).
  split; [|split; [|split; [done|]]].
  - eapply same_world_trans; [|apply (same_world_new s2 a 0 Hn2)]. apply same_world_equiv. symmetry. by etransitivity; [apply equiv_journal|].
  - cbn [fst]. unfold liveObj. rewrite lookup_setStateObject, decide_True by done. done.
  - by apply (se_db _ _ He).
Qed.

Lemma same_world_CreateAccount s a s' : liveObj s a = None -> State.CreateAccount a s = (Ok tt, s') -> same_world s s'.
Proof.
  intros Hn. unfold State.CreateAccount, createObject. destruct (getDeletedStateObject_spec a s) as (s1 & E & He & _ & _ & _ & Hl).
  unfold bindM, journal_append, modS, ret. rewrite E. set (s2 := set_sdb_journal _ s1).
  assert (Hn2 : liveObj s2 a = None) by (unfold s2; rewrite liveObj_journal; unfold liveObj; rewrite Hl; exact Hn).
  assert (H2 : same_world s s2) by (apply same_world_equiv; symmetry; by etransitivity; [apply equiv_journal|]).
  destruct (lookupObj s a) as [p|]; intros [= <-]; (eapply same_world_trans; [exact H2|]).
  - rewrite setStateObject_twice by done. by apply same_world_new.
  - by apply (same_world_new s2 a 0).
Qed.

Lemma BigToHash_word v : wf_hash v -> BigToHash v = v.
Proof.
  intros Hv. unfold BigToHash, BytesToHash. pose proof (length_big_bytes v 32) as Hl. unfold wf_hash in Hv.
  rewrite Z.abs_eq in Hl by lia. specialize (Hl ltac:(change (256 ^ Z.of_nat 32) with (2 ^ 256); lia)).
  replace (length (big_bytes v) - 32)%nat with 0%nat by lia. rewrite drop_0, be_value_big_bytes. lia.
Qed.

(** Writing what is there. *)
Lemma same_world_so_SetState k v o s s' : found (so_address o) o s -> current (sdb_db s) o k = Ok v ->
  so_SetState k v o s = (Ok tt, s') -> state_equiv s' s.
Proof.
  intros ((Hl & _) & (Hf & _) & _) Hc. unfold so_SetState. rewrite Hf, bind_getS. pose proof (so_GetState_spec (sdb_db s) k o) as Hg.
  unfold bindM, lift_out, modS, ret. destruct (so_GetState (sdb_db s) k o) as [[prev o']|e|w|]; try done. destruct Hg as [Hp He].
  assert (prev = v) as -> by congruence. rewrite Z.eqb_refl. intros [= <-]. apply equiv_setStateObject_same.
  rewrite <- (oe_address _ _ _ He), Hl. by constructor.
Qed.

Lemma same_world_SetState a k v s s' : sane s -> typed s -> slot_at s a k = Ok v ->
  State.SetState a k v s = (Ok tt, s') -> same_world s s'.
Proof.
  intros Hs Ht Hv. unfold State.SetState, GetOrNewStateObject.
  destruct (getStateObject_spec a s) as (s1 & E & He & _ & _ & _ & Hl). unfold bindM at 1 2. rewrite E.
  assert (Hs1 : sane s1) by (by eapply sane_equiv; [symmetry|]). assert (Ht1 : typed s1) by (by eapply typed_equiv; [symmetry|]).
  assert (Hw : same_world s s1) by (apply same_world_equiv; by symmetry). unfold slot_at in Hv. fold (liveObj s a).
  assert (Hl1 : liveObj s1 a = liveObj s a) by (unfold liveObj; by rewrite Hl).
  destruct (liveObj s a) as [o|] eqn:Eo.
  - pose proof (liveObj_found s1 a o Hs1 Ht1 Hl1) as Hf. intros H. eapply same_world_trans; [exact Hw|]. apply same_world_equiv. symmetry.
    pose proof Hf as (_ & _ & Ha & _). rewrite <- Ha in Hf. eapply same_world_so_SetState; [exact Hf| |exact H]. by rewrite (se_db _ _ He).
  - injection Hv as <-. unfold bindM at 1. destruct (createObject a s1) as [[[n prev]|e|w|] s2] eqn:Ec; try done. cbn [ret].
    destruct (same_world_createObject s1 a (n, prev) s2 Hl1 Ec) as (Hw2 & Hn & En & Hd). cbn [fst] in Hn, En. intros H.
    pose proof (safe_createObject a s1 Hs1 Ht1 I) as Hsafe. rewrite Ec in Hsafe. destruct Hsafe as (Hf & _). cbn [fst] in Hf.
    eapply same_world_trans; [exact Hw|]. eapply same_world_trans; [exact Hw2|]. apply same_world_equiv. symmetry.
    pose proof Hf as (_ & _ & Ha & _). rewrite <- Ha in Hf. eapply same_world_so_SetState; [exact Hf| |exact H]. rewrite En.
    apply (current_new _ a 0).
Qed.

Lemma same_world_ovm_balance a (f : Z -> Z) s s' : sane s -> typed s -> (forall v, f v = v) ->
  change_ovm_balance a f s = (Ok tt, s') -> same_world s s'.
Proof.
  intros Hs Ht Hf. unfold change_ovm_balance. cbv zeta. unfold bindM at 1. pose proof (looks_GetState OvmEthAddress (GetOVMBalanceKey a) s Hs Ht) as Hg.
  unfold looks_at in Hg. destruct (State.GetState OvmEthAddress (GetOVMBalanceKey a) s) as [[v|e|w|] s1]; try done. destruct Hg as [Hv He].
  pose proof (slot_at_range _ _ _ _ Hs Ht Hv) as Hr. rewrite Hf, BigToHash_word by done. intros H. pose proof (same_world_equiv _ _ He) as Hw.
  eapply same_world_trans; [apply same_world_equiv; symmetry; exact He|]. eapply same_world_SetState; [..|exact H].
  - by eapply sane_equiv; [symmetry|].
  - by eapply typed_equiv; [symmetry|].
  - by rewrite (sa_slot _ _ _ (sw_accounts _ _ Hw OvmEthAddress)).
Qed.

Lemma same_world_AddAddress a s s' : State.AddAddressToAccessList a s = (Ok tt, s') -> same_world s s'.
Proof.
  unfold State.AddAddressToAccessList, bindM, getS, modS. destruct (AddAddress _ _) as [[] al]; cbn; intros [= <-]; by apply same_world_fields.
Qed.
Lemma same_world_AddSlot a k s s' : State.AddSlotToAccessList a k s = (Ok tt, s') -> same_world s s'.
Proof.
  unfold State.AddSlotToAccessList, bindM, getS, modS, lift_out. destruct (AddSlot _ _ _) as [[[[] []] al]|e|w|]; cbn; intros [= <-];
    by apply same_world_fields.
Qed.
Lemma same_world_AddPreimage h b s s' : State.AddPreimage h b s = (Ok tt, s') -> same_world s s'.
Proof.
  unfold State.AddPreimage, bindM, getS, modS. destruct (_ !! _); cbn; intros [= <-]; by apply same_world_fields.
Qed.

Lemma same_world_quiet {A} (c : method A) s x s' : sane s -> typed s -> quiet c = true -> state_call true c s = (Ok x, s') -> same_world s s'.
Proof.
  intros Hs Ht Hq E. assert (reading c = true -> same_world s s') as Hr.
  { intros Hr. destruct (state_looks c Hr) as [R HR]. specialize (HR s Hs Ht). unfold looks_at in HR. rewrite E in HR.
    apply same_world_equiv. symmetry. apply HR. }
  destruct c; try discriminate Hq; try (apply Hr; exact Hq); cbn [state_call] in E; clear Hr; cbn in Hq; try apply Z.eqb_eq in Hq as ->; destruct x.
  - eapply same_world_ovm_balance; [done..| |exact E]. intros v; cbn beta; lia.
  - eapply same_world_ovm_balance; [done..| |exact E]. intros v; cbn beta; lia.
  - by eapply same_world_AddAddress.
  - by eapply same_world_AddSlot.
  - by eapply same_world_AddPreimage.
Qed.

(** The mode of a static call. *)
Lemma static_mode : mode_ok (database := state_database true) true same_world.
Proof.
  split.
  - intros s. apply same_world_equiv. reflexivity.
  - apply same_world_trans.
  - intros s s' H. apply same_world_equiv. by symmetry.
  - done.
  - intros A c s x s' [gl Hop] Hq E. destruct (opened_sane _ _ Hop) as [Hs Ht]. by eapply same_world_quiet.
  - intros s id s' _ E. change (State.Snapshot s = (Ok id, s')) in E. unfold State.Snapshot, bindM, gets, modS, ret in E. injection E as <- <-.
    by apply same_world_fields.
  - intros a s s1 s2 [gl Hop] E1 E2. destruct (opened_sane _ _ Hop) as [Hs Ht].
    pose proof (looks_look a (fun x => match x with Some _ => true | None => false end) s Hs Ht) as H1. unfold looks_at in H1.
    change (State.Exist a s = (Ok false, s1)) in E1. unfold State.Exist in E1. rewrite E1 in H1. destruct H1 as [Ee He].
    pose proof (live_equiv _ _ _ (se_objects _ _ He a)) as Hl. unfold liveObj in Ee.
    eapply same_world_trans; [apply same_world_equiv; symmetry; exact He|]. eapply same_world_CreateAccount; [|exact E2].
    unfold liveObj. destruct (live (lookupObj s a)); [done|]. by inversion Hl.
Qed.

(** The mode of a machine that may write. *)
Lemma writing_mode {S} {database : Database S} {laws : DatabaseLaws S} : mode_ok (S := S) false (fun _ _ => True).
Proof. by split. Qed.
End mode.

(** ** What is kept of the transaction *)

Section tx.
Context {T D : Type} {backend : Backend T D} {crypto : Crypto} {store : StoreLaws T D}.
Local Abbreviation stateObject := (stateObject T).
Local Abbreviation StateDB := (StateDB T D).
Implicit Types (s : StateDB).

Definition tx_frame s := (sdb_thash s, sdb_bhash s, sdb_txIndex s, sdb_logs s, sdb_logSize s).

(** The logs of the transaction, counted from [base]. *)
Record logged (base : Z) (s : StateDB) : Prop := {
  lg_size : sdb_logSize s = u64 (base + Z.of_nat (length (logsOf s (sdb_thash s))));
  lg_log : forall i log, logsOf s (sdb_thash s) !! i = Some log ->
    log_TxHash log = sdb_thash s /\ log_TxIndex log = u64 (sdb_txIndex s) /\ log_BlockHash log = sdb_bhash s /\ log_Index log = u64 (base + Z.of_nat i) }.

Record tx_kept (s s' : StateDB) : Prop := {
  tk_thash : sdb_thash s' = sdb_thash s;
  tk_bhash : sdb_bhash s' = sdb_bhash s;
  tk_txIndex : sdb_txIndex s' = sdb_txIndex s;
  tk_others : forall h, h <> sdb_thash s -> logsOf s' h = logsOf s h;
  tk_logged : forall base, logged base s -> logged base s' }.

Lemma tx_kept_trans s1 s2 s3 : tx_kept s1 s2 -> tx_kept s2 s3 -> tx_kept s1 s3.
Proof.
  intros [A1 A2 A3 A4 A5] [B1 B2 B3 B4 B5]. split; [congruence..| |by eauto]. intros h Hh. rewrite B4, A4; congruence.
Qed.

(** Nothing that this is about has changed. *)
Lemma tx_kept_same s s' : sdb_thash s' = sdb_thash s -> sdb_bhash s' = sdb_bhash s -> sdb_txIndex s' = sdb_txIndex s ->
  (forall h, logsOf s' h = logsOf s h) -> sdb_logSize s' = sdb_logSize s -> tx_kept s s'.
Proof.
  intros H1 H2 H3 H4 H5. split; [done..| |]; [by intros h _|]. intros base [Hs Hl]. split; rewrite ?H1, ?H2, ?H3, ?H4, ?H5; done.
Qed.
Lemma tx_kept_frame s s' : tx_frame s' = tx_frame s -> tx_kept s s'.
Proof. unfold tx_frame. intros [= H1 H2 H3 H4 H5]. apply tx_kept_same; try done. intros h. unfold logsOf. by rewrite H4. Qed.
Lemma tx_kept_equiv s s' : state_equiv s' s -> tx_kept s s'.
Proof. intros [H1 H2 _]. unfold rest in H1. apply tx_kept_same; [congruence..|done|congruence]. Qed.

(** ** Operations that do not log *)

Definition silent {A} (m : M StateDB A) : Prop := forall s, tx_frame (snd (m s)) = tx_frame s.

Lemma silent_ret {A} (x : A) : silent (ret x).
Proof. done. Qed.
Lemma silent_bind {A B} (m : M StateDB A) (f : A -> M StateDB B) : silent m -> (forall x, silent (f x)) -> silent (bindM m f).
Proof. intros Hm Hf s. unfold bindM. specialize (Hm s). destruct (m s) as [[x|e|w|] s1]; try done. cbn in Hm. by rewrite Hf. Qed.
Lemma silent_modS f : (forall s, tx_frame (f s) = tx_frame s) -> silent (modS f).
Proof. intros H s. apply H. Qed.
Lemma silent_getS : silent getS.
Proof. done. Qed.
Lemma silent_gets {A} (f : StateDB -> A) : silent (gets f).
Proof. done. Qed.
Lemma silent_lift {A} (o : outcome A) : silent (lift_out o).
Proof. by destruct o. Qed.
Lemma silent_panic {A} w : silent (gopanic (A := A) w).
Proof. done. Qed.
Lemma silent_when b (m : M StateDB unit) : silent m -> silent (when b m).
Proof. by destruct b. Qed.
Lemma silent_each {A} (l : list A) (f : A -> M StateDB unit) : (forall x, silent (f x)) -> silent (each l f).
Proof. intros Hf. induction l as [|x l IH]; [done|]. cbn [each]. by apply silent_bind. Qed.
Lemma silent_setError err : silent (modS (setError err)).
Proof. apply silent_modS. intros s. unfold setError. by destruct (sdb_dbErr s). Qed.
Lemma silent_getDeletedStateObject a : silent (getDeletedStateObject a).
Proof.
  intros s. unfold getDeletedStateObject. destruct (sdb_objects s !! a); [done|]. destruct (loadAccount _ _) as [[e|] [d|]]; try done. cbn. unfold setError. by destruct (sdb_dbErr s).
Qed.
End tx.

Create HintDb silent.
#[export] Hint Resolve silent_ret silent_getS silent_gets silent_lift silent_panic silent_setError silent_getDeletedStateObject : silent.

(** Walk through the body of an operation. *)
Ltac quietly :=
  repeat first
    [ progress (intros; cbv zeta)
    | solve [eauto 1 with silent]
    | apply silent_bind | apply silent_when | apply silent_each
    | (apply silent_modS; intros; reflexivity)
    | match goal with |- silent (match ?x with _ => _ end) => destruct x end
    | match goal with |- silent (let '(_, _) := ?x in _) => destruct x end ].

Section silent.
Context {T D : Type} {backend : Backend T D} {crypto : Crypto} {store : StoreLaws T D}.
Local Abbreviation StateDB := (StateDB T D).

Lemma silent_getStateObject a : silent (getStateObject (T:=T) (D:=D) a).
Proof. unfold getStateObject. quietly. Qed.
#[local] Hint Resolve silent_getStateObject : silent.
Lemma silent_createObject a : silent (createObject (T:=T) (D:=D) a).
Proof. unfold createObject, journal_append. quietly. Qed.
#[local] Hint Resolve silent_createObject : silent.
Lemma silent_GetOrNew a : silent (GetOrNewStateObject (T:=T) (D:=D) a).
Proof. unfold GetOrNewStateObject. quietly. Qed.
#[local] Hint Resolve silent_GetOrNew : silent.
Lemma silent_GetState a k : silent (State.GetState (T:=T) (D:=D) a k).
Proof. unfold State.GetState. quietly. Qed.
#[local] Hint Resolve silent_GetState : silent.
Lemma silent_SetState a k v : silent (State.SetState (T:=T) (D:=D) a k v).
Proof. unfold State.SetState, so_SetState, journal_append. quietly. Qed.
#[local] Hint Resolve silent_SetState : silent.
Lemma silent_ovm_balance a f : silent (change_ovm_balance (T:=T) (D:=D) a f).
Proof. unfold change_ovm_balance. quietly. Qed.
#[local] Hint Resolve silent_ovm_balance : silent.
Lemma silent_AddAddress a : silent (State.AddAddressToAccessList (T:=T) (D:=D) a).
Proof. unfold State.AddAddressToAccessList, journal_append. quietly. Qed.
Lemma silent_AddSlot a k : silent (State.AddSlotToAccessList (T:=T) (D:=D) a k).
Proof. unfold State.AddSlotToAccessList, journal_append. quietly. Qed.
#[local] Hint Resolve silent_AddAddress silent_AddSlot : silent.

Definition logs_nothing {A} (c : method A) : bool := match c with AddLog _ => false | _ => plain c end.

Lemma silent_method {A} (c : method A) : logs_nothing c = true -> silent (state_call (T:=T) (D:=D) true c).
Proof.
  intros Hc. destruct c; try discriminate Hc; cbn [state_call];
    unfold State.CreateAccount, State.SubBalance, State.AddBalance, State.GetBalance, State.GetNonce, State.SetNonce, so_SetNonce, State.GetCodeHash, State.GetCode, State.SetCode, so_SetCode,
      State.GetCodeSize, State.AddRefund, State.SubRefund, State.GetRefund, State.GetCommittedState, State.Suicide, State.HasSuicided, State.Exist, State.Empty,
      State.PrepareAccessList, State.AddressInAccessList, State.SlotInAccessList, State.AddPreimage, journal_append; quietly.
Qed.

Lemma tx_kept_AddLog (log : Log) s s' : State.AddLog (T:=T) (D:=D) log s = (Ok tt, s') -> tx_kept s s'.
Proof.
  unfold State.AddLog, journal_append, bindM, getS, modS. cbn. intros [= <-]. set (l := mkLog _ _ _ _ _ _ _ _ _).
  assert (Hlogs : forall h, logsOf (set_sdb_logSize (u64 (sdb_logSize s + 1)) (set_sdb_logs (<[sdb_thash s := default [] (sdb_logs s !! sdb_thash s) ++ [l]]> (sdb_logs s))
      (set_sdb_journal (j_append (addLogChange (sdb_thash s)) (sdb_journal s)) s))) h = if decide (h = sdb_thash s) then logsOf s h ++ [l] else logsOf s h).
  { intros h. unfold logsOf. cbn. destruct (decide (h = sdb_thash s)) as [->|Hne]; [by rewrite lookup_insert_eq|by rewrite lookup_insert_ne]. }
  split; [done..| |].
  - intros h Hh. rewrite Hlogs. by rewrite decide_False.
  - intros base [Hs Hl]. split; cbn [sdb_thash sdb_txIndex sdb_bhash sdb_logSize set_sdb_logSize set_sdb_logs set_sdb_journal]; rewrite Hlogs, decide_True by done.
    + rewrite Hs, length_app, Nat2Z.inj_add. cbn [length]. unfold u64. rewrite Zplus_mod_idemp_l. f_equal. lia.
    + intros i log' Hi. apply lookup_app_Some in Hi as [Hi|[Hi1 Hi2]]; [by apply Hl|]. apply list_lookup_singleton_Some in Hi2 as [Hi2 <-].
      unfold l. cbn. split; [done|]. split; [done|]. split; [done|]. rewrite Hs. do 2 f_equal. lia.
Qed.

Lemma tx_kept_plain {A} (c : method A) s x s' : plain c = true -> state_call (T:=T) (D:=D) true c s = (Ok x, s') -> tx_kept s s'.
Proof.
  intros Hp E. destruct (logs_nothing c) eqn:El.
  - apply tx_kept_frame. pose proof (silent_method c El s) as H. by rewrite E in H.
  - destruct c; cbn in Hp, El; try congruence. destruct x. by apply (tx_kept_AddLog log).
Qed.

(** The mode of a machine that runs for a transaction. *)
Lemma transaction_mode : mode_ok (database := state_database (T:=T) (D:=D) true) false tx_kept.
Proof.
  split.
  - intros s. by apply tx_kept_frame.
  - apply tx_kept_trans.
  - intros s s'. apply tx_kept_equiv.
  - intros _ A c s x s' _ Hp _ E. by eapply tx_kept_plain.
  - intros A c s x s' _ Hq E. eapply tx_kept_plain; [|exact E]. by destruct c.
  - intros s id s' _ E. change (State.Snapshot s = (Ok id, s')) in E. unfold State.Snapshot, bindM, gets, modS, ret in E. injection E as <- <-. by apply tx_kept_frame.
  - intros a s s1 s2 _ E1 E2. eapply tx_kept_trans; [eapply (tx_kept_plain (Exist a)); [done|exact E1]|]. by eapply (tx_kept_plain (CreateAccount a)).
Qed.
End silent.
