(* ===== verification/VMFuel.v ===== *)
(** What holds of every entry of every instruction table, and with it that fuel does not
    matter.

    A table is the frontier table with entries inserted and prices changed by later
    forks; a property of entries that prices do not matter for holds of all tables
    when it holds of the entries written down in the source.

    One such property: [below m1 m2] says that [m1] runs out of fuel or does what [m2]
    does.  Instructions keep it, so by induction on the fuel the loop does: a run that
    does not exhaust its fuel is the run of every larger fuel. *)
From stdpp Require Import prelude gmap list strings.
From Stdlib Require Import ZArith Lia.
From S2P Require Import Prelude Params VarBytes RLP Crypto StateData VMWord VMAnalysis VMState VMPrecompiles VMGas VMCall VMOps VMTable VMRun.
Local Open Scope Z_scope.

Section entries.
Context {crypto : Crypto} {natives : Natives} {S : Type} {database : Database S} (env : Env).
Local Abbreviation operation := (operation (S:=S)).
Context (P : Z -> operation -> Prop).
Context (Hcost : forall op o gas, P op o -> P op (costing gas o)) (Hcharge : forall op o g, P op o -> P op (charging g o)).

Definition all_entries (jt : gmap Z operation) : Prop := forall op o, jt !! op = Some o -> P op o.
Definition listed (l : list (Z * operation)) : Prop := Forall (fun x => P x.1 x.2) l.

Lemma all_insert op o jt : P op o -> all_entries jt -> all_entries (<[op := o]> jt).
Proof. intros Ho Hj op' o'. rewrite lookup_insert_Some. intros [[<- <-]|[_ H]]; [done|by apply Hj]. Qed.
Lemma all_cost op gas jt : all_entries jt -> all_entries (set_constantGas op gas jt).
Proof.
  intros Hj op' o'. unfold set_constantGas. rewrite lookup_alter_Some. intros [(<- & o & H & ->)|[_ H]]; [by apply Hcost, Hj|by apply Hj].
Qed.
Lemma all_charge op g jt : all_entries jt -> all_entries (set_dynamicGas op g jt).
Proof.
  intros Hj op' o'. unfold set_dynamicGas. rewrite lookup_alter_Some. intros [(<- & o & H & ->)|[_ H]]; [by apply Hcharge, Hj|by apply Hj].
Qed.

(** The entries of the frontier table and the ones that later forks insert. *)
Context (Harith : listed frontier_arithmetic) (Hbits : listed (frontier_bits env)) (Henvironment : listed (frontier_environment env)).
Context (Hpush : forall n, 1 <= n <= 32 -> P (PUSH1 + n - 1) (instr (fun _ => makePush n n) GasFastestStep 0 1)).
Context (Hdup : forall n, 1 <= n <= 16 -> P (DUP1 + n - 1) (instr (fun _ => makeDup (Z.to_nat n)) GasFastestStep n (n + 1))).
Context (Hswap : forall n, 1 <= n <= 16 -> P (SWAP1 + n - 1) (instr (fun _ => makeSwap (Z.to_nat n)) GasFastestStep (n + 1) (n + 1))).
Context (Hends : listed (frontier_ends env)).
Definition inserted_entries : list (Z * operation) := [
  (PUSH1, instr (fun _ => opPush1) GasFastestStep 0 1);
  (PUSH0, instr (fun _ => opPush0) GasQuickStep 0 1);
  (SHL, instr (fun _ => opSHL) GasFastestStep 2 1);
  (SHR, instr (fun _ => opSHR) GasFastestStep 2 1);
  (SAR, instr (fun _ => opSAR) GasFastestStep 2 1);
  (SELFBALANCE, instr (fun _ => opSelfBalance) GasFastStep 0 1);
  (CHAINID, instr (fun _ => opChainID env) GasQuickStep 0 1);
  (EXTCODEHASH, instr (fun _ => opExtCodeHash) ExtcodeHashGasConstantinople 1 1);
  (RETURNDATASIZE, instr (fun _ => opReturnDataSize) GasQuickStep 0 1);
  (RETURNDATACOPY, sized memoryReturnDataCopy (charging gasReturnDataCopy (instr (fun _ => opReturnDataCopy) GasFastestStep 3 0)));
  (REVERT, returning (reverting (sized memoryRevert (charging pureMemoryGascost (instr (fun _ => opRevert) 0 2 0)))));
  (DELEGATECALL, returning (sized memoryDelegateCall (charging (gasDelegateCall env) (instr (opDelegateCall env) CallGasFrontier 6 1))));
  (STATICCALL, returning (sized memoryStaticCall (charging (gasStaticCall env) (instr (opStaticCall env) CallGasEIP150 6 1))));
  (CREATE2, returning (writing (sized memoryCreate2 (charging gasCreate2 (instr (opCreate2 env) Create2Gas 4 1))))) ].
Context (Hinserted : listed inserted_entries).

Lemma inserted_one op o : (op, o) ∈ inserted_entries -> P op o.
Proof. intros H. unfold listed in Hinserted. rewrite Forall_forall in Hinserted. exact (Hinserted _ H). Qed.

Lemma all_frontier : all_entries (newFrontierInstructionSet env).
Proof.
  intros op o H. unfold newFrontierInstructionSet in H. apply elem_of_list_to_map_2 in H. revert H.
  assert (Hseq : forall (f : Z -> Z * operation) a n, (forall x, a <= x < a + n -> P (f x).1 (f x).2) -> listed (f <$> seqZ a n)).
  { intros f a n Hf. apply Forall_fmap, Forall_forall. intros x Hx. apply elem_of_seqZ in Hx. apply Hf. lia. }
  assert (listed (frontier_arithmetic ++ frontier_bits env ++ frontier_environment env ++
    frontier_push_low ++ frontier_push_high ++ frontier_dup ++ frontier_swap ++ frontier_ends env)) as HF.
  { unfold listed. rewrite !Forall_app. split_and!; try done.
    - constructor; [apply inserted_one; unfold inserted_entries; set_solver|]. apply Hseq. intros x Hx. apply Hpush. lia.
    - apply Hseq. intros x Hx. apply Hpush. lia.
    - apply Hseq. intros x Hx. apply Hdup. lia.
    - apply Hseq. intros x Hx. apply Hswap. lia. }
  intros H. unfold listed in HF. rewrite Forall_forall in HF. exact (HF _ H).
Qed.

Ltac entries := repeat lazymatch goal with
  | |- all_entries (set_constantGas _ _ _) => apply all_cost
  | |- all_entries (set_dynamicGas _ _ _) => apply all_charge
  | |- all_entries (<[_ := _]> _) => apply all_insert; [apply inserted_one; unfold inserted_entries; repeat first [apply list_elem_of_here | apply list_elem_of_further]|]
  end.

Lemma all_early : all_entries (newHomesteadInstructionSet env) /\ all_entries (newTangerineWhistleInstructionSet env) /\
  all_entries (newSpuriousDragonInstructionSet env) /\ all_entries (newByzantiumInstructionSet env) /\ all_entries (newConstantinopleInstructionSet env).
Proof.
  unfold newConstantinopleInstructionSet, newByzantiumInstructionSet, newSpuriousDragonInstructionSet, newTangerineWhistleInstructionSet, newHomesteadInstructionSet.
  split_and!; entries; apply all_frontier.
Qed.

Lemma all_EnableEIP eip jt jt' : all_entries jt -> EnableEIP env eip jt = inr jt' -> all_entries jt'.
Proof.
  intros H. unfold EnableEIP, enable2200, enable1884, enable1344.
  destruct (eip =? 2200); [intros [= <-]; by entries|]. destruct (eip =? 1884); [intros [= <-]; by entries|].
  destruct (eip =? 1344); [intros [= <-]; by entries|done].
Qed.

Lemma all_fork : all_entries (fork_instructionSet env).
Proof.
  destruct all_early as (H1 & H2 & H3 & H4 & H5).
  assert (Hist : all_entries (newIstanbulInstructionSet env)) by (unfold newIstanbulInstructionSet, enable2200, enable1884, enable1344; by entries).
  assert (Hber : all_entries (newBerlinInstructionSet env)) by (unfold newBerlinInstructionSet, enable3529, enable2929; by entries).
  unfold fork_instructionSet. cbv zeta.
  destruct (r_IsShanghai _); [unfold newShanghaiInstructionSet, enable3855; by entries|].
  destruct (r_IsBerlin _); [done|]. destruct (r_IsIstanbul _); [destruct (UsingOVM env); [unfold enableMinimal2929; by entries|done]|].
  destruct (r_IsConstantinople _); [done|]. destruct (r_IsByzantium _); [done|].
  destruct (r_IsEIP158 _); [done|]. destruct (r_IsEIP150 _); [done|]. destruct (r_IsHomestead _); [done|apply all_frontier].
Qed.

Lemma all_extra n : forall i arr k jt jt', all_entries jt -> enable_extra env n i arr k jt = Ok jt' -> all_entries jt'.
Proof.
  induction n as [|n IH]; intros i arr k jt jt' Hjt; cbn [enable_extra]; [by intros [= <-]|].
  destruct (EnableEIP env (nth i arr 0) jt) as [err|jt1] eqn:E; [destruct (_ <? _)%nat; [done|by apply IH]|].
  apply IH. by eapply all_EnableEIP.
Qed.

Lemma instructionSet_entries jt : instructionSet env = Ok jt -> all_entries jt.
Proof. apply all_extra, all_fork. Qed.
End entries.

(** ** Fuel *)

Definition below {S A} (m1 m2 : M S A) : Prop := forall s, fst (m1 s) = Blocked \/ m1 s = m2 s.

Lemma below_refl {S A} (m : M S A) : below m m.
Proof. by right. Qed.
Lemma below_bind {S A B} (m1 m2 : M S A) (f1 f2 : A -> M S B) :
  below m1 m2 -> (forall a, below (f1 a) (f2 a)) -> below (bindM m1 f1) (bindM m2 f2).
Proof.
  intros Hm Hf s. unfold bindM. destruct (Hm s) as [E| <-].
  - left. destruct (m1 s) as [[]]; try done.
  - destruct (m1 s) as [[a|e|w|] s']; [apply Hf|by right..].
Qed.
Lemma below_attempt {S A} (m1 m2 : M S A) : below m1 m2 -> below (attempt m1) (attempt m2).
Proof.
  intros Hm s. unfold attempt. destruct (Hm s) as [E| <-]; [|by right]. left. by destruct (m1 s) as [[] ?].
Qed.
Lemma below_if {S A} (b : bool) (m1 m2 n1 n2 : M S A) : below m1 m2 -> below n1 n2 -> below (if b then m1 else n1) (if b then m2 else n2).
Proof. by destruct b. Qed.
Lemma below_option {S A B} (x : option A) (m1 m2 : M S B) (f1 f2 : A -> M S B) : (forall a, below (f1 a) (f2 a)) -> below m1 m2 ->
  below (match x with Some a => f1 a | None => m1 end) (match x with Some a => f2 a | None => m2 end).
Proof. destruct x; auto. Qed.
Lemma below_sum {S A B C} (x : A + B) (f1 f2 : A -> M S C) (g1 g2 : B -> M S C) : (forall a, below (f1 a) (f2 a)) -> (forall b, below (g1 b) (g2 b)) ->
  below (match x with inl a => f1 a | inr b => g1 b end) (match x with inl a => f2 a | inr b => g2 b end).
Proof. destruct x; auto. Qed.

Create HintDb below discriminated.
#[export] Hint Resolve below_attempt : below.
Ltac below_tac := repeat first
  [ lazymatch goal with |- below ?m ?m => apply below_refl end | progress cbv zeta | apply below_bind; [|intros ?] | apply below_if | apply below_option; [intros ?|] | apply below_sum; intros ?
  | solve [auto with below] ].

Section fuel.
Context {crypto : Crypto} {natives : Natives} {S : Type} {database : Database S} (env : Env).
Local Abbreviation scope := (scope S).
Local Abbreviation EVM := (EVM S).
Local Abbreviation runner := (Contract -> slice -> bool -> M EVM (slice * option goerror * Contract)) (only parsing).

Definition below_run (R1 R2 : runner) : Prop := forall c input b, below (R1 c input b) (R2 c input b).

Lemma below_on_evm {A} (m1 m2 : M EVM A) : below m1 m2 -> below (on_evm (S:=S) m1) (on_evm m2).
Proof.
  intros Hm s. unfold on_evm. destruct (Hm (sc_evm s)) as [E|E]; [|right; by rewrite E]. left. by destruct (m1 (sc_evm s)).
Qed.

Section runners.
Context (R1 R2 : runner) (HR : below_run R1 R2).

Lemma below_run_contract c input b : below (run env R1 c input b) (run env R2 c input b).
Proof. unfold run. apply below_option; [intros ?; apply below_refl|apply HR]. Qed.
#[local] Hint Resolve below_run_contract : below.

Lemma below_Call caller addr input gas value : below (Call env R1 caller addr input gas value) (Call env R2 caller addr input gas value).
Proof. unfold Call. below_tac. Qed.
Lemma below_CallCode caller addr input gas value : below (CallCode env R1 caller addr input gas value) (CallCode env R2 caller addr input gas value).
Proof. unfold CallCode. below_tac. Qed.
Lemma below_DelegateCall caller addr input gas : below (DelegateCall env R1 caller addr input gas) (DelegateCall env R2 caller addr input gas).
Proof. unfold DelegateCall. below_tac. Qed.
Lemma below_StaticCall caller addr input gas : below (StaticCall env R1 caller addr input gas) (StaticCall env R2 caller addr input gas).
Proof. unfold StaticCall. below_tac. Qed.
Lemma below_create caller ch gas value address : below (create env R1 caller ch gas value address) (create env R2 caller ch gas value address).
Proof. unfold create. below_tac. Qed.
#[local] Hint Resolve below_Call below_CallCode below_DelegateCall below_StaticCall below_create below_on_evm : below.
Lemma below_Create caller code gas value : below (Create env R1 caller code gas value) (Create env R2 caller code gas value).
Proof. unfold Create. below_tac. Qed.
Lemma below_Create2 caller code gas value salt : below (Create2 env R1 caller code gas value salt) (Create2 env R2 caller code gas value salt).
Proof. unfold Create2. below_tac. Qed.
#[local] Hint Resolve below_Create below_Create2 : below.

Lemma below_opCall : below (opCall env R1) (opCall env R2).
Proof. unfold opCall. below_tac. Qed.
Lemma below_opCallCode : below (opCallCode env R1) (opCallCode env R2).
Proof. unfold opCallCode. below_tac. Qed.
Lemma below_opDelegateCall : below (opDelegateCall env R1) (opDelegateCall env R2).
Proof. unfold opDelegateCall. below_tac. Qed.
Lemma below_opStaticCall : below (opStaticCall env R1) (opStaticCall env R2).
Proof. unfold opStaticCall. below_tac. Qed.
Lemma below_opCreate : below (opCreate env R1) (opCreate env R2).
Proof. unfold opCreate. below_tac. Qed.
Lemma below_opCreate2 : below (opCreate2 env R1) (opCreate2 env R2).
Proof. unfold opCreate2. below_tac. Qed.
End runners.

(** ** Tables *)

Definition grows (o : operation (S:=S)) : Prop := forall R1 R2, below_run R1 R2 -> below (execute o R1) (execute o R2).

Ltac grow := intros ? ? ?; cbn [execute snd instr charging costing sized halting jumping writing reverting returning];
  lazymatch goal with
  | |- below ?m ?m => apply below_refl
  | |- below (opCall _ _) _ => by apply below_opCall
  | |- below (opCallCode _ _) _ => by apply below_opCallCode
  | |- below (opDelegateCall _ _) _ => by apply below_opDelegateCall
  | |- below (opStaticCall _ _) _ => by apply below_opStaticCall
  | |- below (opCreate _ _) _ => by apply below_opCreate
  | |- below (opCreate2 _ _) _ => by apply below_opCreate2
  end.

Lemma instructionSet_grows jt : instructionSet env = Ok jt -> all_entries (fun _ => grows) jt.
Proof.
  apply instructionSet_entries; try done; try (intros n _; grow); unfold listed; by repeat (constructor; [grow|]).
Qed.

(** ** The loop *)

Context (jt : gmap Z (operation (S:=S))) (Hjt : all_entries (fun _ => grows) jt).

Lemma below_step R1 R2 : below_run R1 R2 -> below (step env jt R1) (step env jt R2).
Proof.
  intros HR. unfold step. apply below_bind; [apply below_refl|]. intros s. cbv zeta.
  destruct (jt !! _) as [o|] eqn:E; [|apply below_refl]. below_tac. apply below_attempt. by eapply Hjt.
Qed.

Lemma below_run_frame (l1 l2 : M scope (slice * option goerror)) : below l1 l2 -> below_run (run_frame l1) (run_frame l2).
Proof.
  intros Hl c input b e. unfold run_frame. cbv zeta. destruct (length (Code c) =? 0)%nat; [by right|].
  set (s := mkScope _ _ _ _ _). destruct (Hl s) as [E|E]; [|right; by rewrite E]. left. by destruct (l1 s) as [[] ?].
Qed.

Lemma below_loop f1 : forall f2, (f1 <= f2)%nat -> below (loop env jt f1) (loop env jt f2).
Proof.
  induction f1 as [|f1 IH]; intros f2 Hf.
  - destruct f2; cbn [loop]; (apply below_bind; [apply below_refl|]); intros []; [apply below_refl|by left|apply below_refl|by left].
  - destruct f2 as [|f2]; [lia|]. cbn [loop]. apply below_bind; [apply below_refl|]. intros aborted. apply below_if; [apply below_refl|].
    apply below_bind; [apply below_step, below_run_frame, IH; lia|]. intros r. apply below_option; [intros; apply below_refl|apply IH; lia].
Qed.

Lemma below_Run f1 f2 : (f1 <= f2)%nat -> below_run (Run env jt f1) (Run env jt f2).
Proof. intros Hf. by apply below_run_frame, below_loop. Qed.
End fuel.

(** A computation that does not run out of fuel. *)
Lemma below_eq {S A} (m1 m2 : M S A) s : below m1 m2 -> fst (m1 s) <> Blocked -> m1 s = m2 s.
Proof. intros H Hb. by destruct (H s). Qed.
