(* ===== verification/VMArith.v ===== *)
(** The stack instructions compute what they are defined to compute.

    [effect] is the reference: arithmetic modulo 2^256, with two's complement for the
    signed instructions, comparisons, bitwise operations, shifts, and the instructions
    that reorder the stack.  Under every instruction table of the machine an entry for
    one of these opcodes does to the stack what [effect] says, and nothing else. *)
From stdpp Require Import prelude gmap list strings.
From Stdlib Require Import ZArith Lia.
From S2P Require Import Prelude Params VarBytes RLP Crypto StateData VMWord VMWordFacts VMAnalysis VMState VMPrecompiles VMGas VMCall VMOps VMTable VMRun VMFuel.
Local Open Scope Z_scope.

(** ** The reference *)

Definition modulus : Z := 2 ^ 256.
Definition signed (x : Z) : Z := (x + 2 ^ 255) mod 2 ^ 256 - 2 ^ 255.

Definition unary_result (op x : Z) : Z :=
  if op =? NOT then modulus - 1 - x else if x =? 0 then 1 else 0.

(** [x] is the top of the stack. *)
Definition binary_result (op x y : Z) : Z :=
  if op =? ADD then (x + y) mod modulus
  else if op =? MUL then (x * y) mod modulus
  else if op =? SUB then (x - y) mod modulus
  else if op =? DIV then if y =? 0 then 0 else x / y
  else if op =? SDIV then if y =? 0 then 0 else Z.quot (signed x) (signed y) mod modulus
  else if op =? MOD then if y =? 0 then 0 else x mod y
  else if op =? SMOD then if y =? 0 then 0 else Z.rem (signed x) (signed y) mod modulus
  else if op =? EXP then x ^ y mod modulus
  else if op =? SIGNEXTEND then
    if x <? 31 then let n := 8 * (x + 1) in ((y + 2 ^ (n - 1)) mod 2 ^ n - 2 ^ (n - 1)) mod modulus else y
  else if op =? LT then if x <? y then 1 else 0
  else if op =? GT then if y <? x then 1 else 0
  else if op =? SLT then if signed x <? signed y then 1 else 0
  else if op =? SGT then if signed y <? signed x then 1 else 0
  else if op =? EQ then if x =? y then 1 else 0
  else if op =? AND then Z.land x y
  else if op =? OR then Z.lor x y
  else if op =? XOR then Z.lxor x y
  else if op =? BYTE then if x <? 32 then (y / 256 ^ (31 - x)) mod 256 else 0
  else if op =? SHL then if x <? 256 then (y * 2 ^ x) mod modulus else 0
  else if op =? SHR then if x <? 256 then y / 2 ^ x else 0
  else (if x <? 256 then signed y / 2 ^ x else signed y / 2 ^ 256) mod modulus.

Definition ternary_result (op x y z : Z) : Z :=
  if z =? 0 then 0 else if op =? ADDMOD then (x + y) mod z else (x * y) mod z.

Definition arity (op : Z) : nat :=
  if (op =? ISZERO) || (op =? NOT) then 1
  else if (op =? ADDMOD) || (op =? MULMOD) then 3
  else if (ADD <=? op) && (op <=? SIGNEXTEND) || (LT <=? op) && (op <=? SAR) then 2
  else 0.

Definition effect (op : Z) (st : list Z) : option (list Z) :=
  if (DUP1 <=? op) && (op <? SWAP1) then (fun x => x :: st) <$> st !! Z.to_nat (op - DUP1)
  else if (SWAP1 <=? op) && (op <? LOG0) then
    let n := Z.to_nat (op - SWAP1 + 1) in
    match st !! 0%nat, st !! n with Some a, Some b => Some (<[n := a]> (<[0%nat := b]> st)) | _, _ => None end
  else if op =? POP then tail <$> (head st ≫= fun _ => Some st)
  else match arity op, st with
       | 1%nat, x :: rest => Some (unary_result op x :: rest)
       | 2%nat, x :: y :: rest => Some (binary_result op x y :: rest)
       | 3%nat, x :: y :: z :: rest => Some (ternary_result op x y z :: rest)
       | _, _ => None
       end.

(** ** Words *)

Lemma U256_modulus x : U256 x = x mod modulus.
Proof. apply U256_mod. Qed.

Lemma S256_signed x : in_word x -> S256 x = signed x.
Proof.
  intros Hx. unfold in_word in Hx. unfold S256, signed, tt255, tt256. destruct (Z.ltb_spec x (2 ^ 255)).
  - rewrite Z.mod_small by lia. lia.
  - replace (x + 2 ^ 255) with (x - 2 ^ 255 + 1 * 2 ^ 256) by lia. rewrite Z.mod_add by lia. rewrite Z.mod_small by lia. lia.
Qed.

Lemma signed_zero y : in_word y -> (signed y = 0 <-> y = 0).
Proof.
  intros Hy. rewrite <- S256_signed by done. unfold in_word in Hy. unfold S256, tt255, tt256. destruct (Z.ltb_spec y (2 ^ 255)); lia.
Qed.

Lemma sdiv_correct x y : in_word x -> in_word y -> sdiv (S256 x) (S256 y) = if y =? 0 then 0 else Z.quot (signed x) (signed y) mod modulus.
Proof.
  intros Hx Hy. rewrite !S256_signed by done. pose proof (signed_zero y Hy) as Hz. unfold sdiv. set (a := signed x). set (b := signed y) in *.
  destruct (Z.eqb_spec y 0) as [->|Hy0]; [rewrite (proj2 Hz eq_refl); done|]. assert (b <> 0) as Hb by tauto. clear Hz.
  rewrite (proj2 (Z.eqb_neq b 0) Hb). cbn [orb]. destruct (Z.eqb_spec a 0) as [Ea|Ha]; [rewrite Ea; by rewrite Z.quot_0_l|].
  rewrite Z.quot_div by done. set (q := Z.abs a / Z.abs b). destruct (Z.sgn_spec a) as [[_ Ea]|[[? _]|[_ Ea]]]; [|lia|];
    destruct (Z.sgn_spec b) as [[_ Eb]|[[? _]|[_ Eb]]]; try lia; rewrite Ea, Eb;
    match goal with |- context [negb ?b] => let v := eval vm_compute in (negb b) in change (negb b) with v end; cbv iota;
    rewrite U256_modulus; apply (f_equal (fun z => z mod modulus)); lia.
Qed.

Lemma smod_correct x y : in_word x -> in_word y -> smod (S256 x) (S256 y) = if y =? 0 then 0 else Z.rem (signed x) (signed y) mod modulus.
Proof.
  intros Hx Hy. rewrite !S256_signed by done. pose proof (signed_zero y Hy) as Hz. unfold smod. set (a := signed x). set (b := signed y) in *.
  destruct (Z.eqb_spec y 0) as [->|Hy0]; [rewrite (proj2 Hz eq_refl); done|]. assert (b <> 0) as Hb by tauto.
  rewrite (proj2 (Z.eqb_neq b 0) Hb), Z.rem_mod by done.
  destruct (Z.ltb_spec a 0) as [Ha|Ha]; rewrite U256_modulus; f_equal.
  - rewrite Z.sgn_neg by done. lia.
  - destruct (Z.eq_dec a 0) as [->|]; [rewrite Z.mod_0_l by lia; lia|]. rewrite Z.sgn_pos by lia. lia.
Qed.

Lemma opExp_correct x y : in_word x -> in_word y ->
  (if y <? 1 then 1 else if x =? 0 then 0 else if y =? 1 then x else Exp x y) = x ^ y mod modulus.
Proof.
  intros Hx Hy. unfold in_word in Hx, Hy. unfold modulus. destruct (Z.ltb_spec y 1).
  - replace y with 0 by lia. rewrite Z.pow_0_r. symmetry. apply Z.mod_small. lia.
  - destruct (Z.eqb_spec x 0) as [->|]; [rewrite Z.pow_0_l by lia; done|]. destruct (Z.eqb_spec y 1) as [->|].
    + rewrite Z.pow_1_r. symmetry. by apply Z.mod_small.
    + apply Exp_correct. lia.
Qed.

Lemma slt_correct x y : in_word x -> in_word y ->
  (if (tt255 <=? x) && (y <? tt255) then 1 else if (x <? tt255) && (tt255 <=? y) then 0 else of_bool (x <? y)) = if signed x <? signed y then 1 else 0.
Proof.
  intros Hx Hy. rewrite <- !S256_signed by done. unfold in_word in Hx, Hy. unfold S256, of_bool, tt255, tt256.
  destruct (Z.leb_spec (2 ^ 255) x), (Z.ltb_spec y (2 ^ 255)), (Z.ltb_spec x (2 ^ 255)), (Z.leb_spec (2 ^ 255) y), (Z.ltb_spec x y); cbn [andb]; try lia;
    match goal with |- context [?a <? ?b] => destruct (Z.ltb_spec a b) end; lia.
Qed.

Lemma sgt_correct x y : in_word x -> in_word y ->
  (if (tt255 <=? x) && (y <? tt255) then 0 else if (x <? tt255) && (tt255 <=? y) then 1 else of_bool (y <? x)) = if signed y <? signed x then 1 else 0.
Proof.
  intros Hx Hy. rewrite <- !S256_signed by done. unfold in_word in Hx, Hy. unfold S256, of_bool, tt255, tt256.
  destruct (Z.leb_spec (2 ^ 255) x), (Z.ltb_spec y (2 ^ 255)), (Z.ltb_spec x (2 ^ 255)), (Z.leb_spec (2 ^ 255) y), (Z.ltb_spec y x); cbn [andb]; try lia;
    match goal with |- context [?a <? ?b] => destruct (Z.ltb_spec a b) end; lia.
Qed.

Lemma opByte_correct th val : in_word th -> in_word val ->
  (if th <? 32 then math_Byte val 32 (big_int64 th) else 0) = if th <? 32 then (val / 256 ^ (31 - th)) mod 256 else 0.
Proof.
  intros Ht Hv. unfold in_word in *. destruct (Z.ltb_spec th 32); [|done]. rewrite big_int64_small by lia. rewrite math_Byte_correct by lia.
  by rewrite (proj2 (Z.ltb_lt th 32)).
Qed.

Lemma lnot_word x : in_word x -> U256 (Z.lnot x) = modulus - 1 - x.
Proof.
  intros Hx. unfold in_word in Hx. rewrite U256_modulus. unfold modulus, Z.lnot, Z.pred.
  replace (- x + -1) with (2 ^ 256 - 1 - x + (-1) * 2 ^ 256) by lia. rewrite Z.mod_add by lia. apply Z.mod_small. lia.
Qed.

Lemma low_bits num k : 0 <= k -> 0 <= num ->
  (num + 2 ^ k) mod 2 ^ (k + 1) - 2 ^ k = if Z.testbit num k then num mod 2 ^ k - 2 ^ k else num mod 2 ^ k.
Proof.
  intros Hk Hn. rewrite Z.testbit_eqb by lia. rewrite Z.pow_add_r, Z.pow_1_r by lia.
  pose proof (Z.pow_pos_nonneg 2 k ltac:(lia) Hk) as Hp. set (p := 2 ^ k) in *.
  pose proof (Z.div_mod num p ltac:(lia)) as Hd. pose proof (Z.mod_pos_bound num p ltac:(lia)) as Hm. set (r := num mod p) in *.
  pose proof (Z.div_mod (num / p) 2 ltac:(lia)) as Hd2. pose proof (Z.mod_pos_bound (num / p) 2 ltac:(lia)) as Hm2. set (q := num / p) in *.
  destruct (Z.eqb_spec (q mod 2) 1) as [E|E].
  - rewrite E in Hd2. replace (num + p) with (r + (q / 2 + 1) * (p * 2)) by nia.
    rewrite Z.mod_add by lia. rewrite Z.mod_small by lia. lia.
  - assert (q mod 2 = 0) as E0 by lia. rewrite E0 in Hd2. replace (num + p) with (r + p + (q / 2) * (p * 2)) by nia.
    rewrite Z.mod_add by lia. rewrite Z.mod_small by lia. lia.
Qed.

Lemma signExtend_correct back num : in_word num -> 0 <= back < 31 ->
  signExtend back num = ((num + 2 ^ (8 * (back + 1) - 1)) mod 2 ^ (8 * (back + 1)) - 2 ^ (8 * (back + 1) - 1)) mod modulus.
Proof.
  intros Hn Hb. unfold in_word in Hn. unfold signExtend. rewrite word_uint64_small by lia. rewrite u64_small by (unfold in_u64; lia).
  replace (8 * (back + 1) - 1) with (back * 8 + 7) by lia. replace (8 * (back + 1)) with (back * 8 + 7 + 1) by lia. set (k := back * 8 + 7).
  assert (0 <= k) as Hk by lia. rewrite low_bits by lia. rewrite U256_modulus. cbv zeta.
  rewrite Z.shiftl_1_l. replace (2 ^ k - 1) with (Z.ones k) by (rewrite Z.ones_equiv; lia). destruct (Z.testbit num k).
  - apply (f_equal (fun z => z mod modulus)).
    rewrite <- (Z.lnot_involutive num) at 1. rewrite <- Z.lnot_land, Z.land_ones by lia. unfold Z.lnot.
    replace (Z.pred (- num)) with (- 1 - num) by lia. pose proof (Z.pow_pos_nonneg 2 k ltac:(lia) Hk) as Hp.
    rewrite Zminus_mod. pose proof (Z.mod_pos_bound num (2 ^ k) ltac:(lia)) as Hm.
    assert ((-1) mod 2 ^ k = 2 ^ k - 1) as ->.
    { replace (-1) with (2 ^ k - 1 + (-1) * 2 ^ k) by lia. rewrite Z.mod_add by lia. apply Z.mod_small. lia. }
    rewrite Z.mod_small by lia. lia.
  - by rewrite Z.land_ones by lia.
Qed.

Lemma SHL_correct shift value : in_word shift -> in_word value ->
  (if 256 <=? U256 shift then 0 else U256 (Z.shiftl (U256 value) (big_uint64 (U256 shift)))) = if shift <? 256 then (value * 2 ^ shift) mod modulus else 0.
Proof.
  intros Hs Hv. rewrite !(U256_small shift), !(U256_small value) by done. unfold in_word in *. destruct (Z.leb_spec 256 shift), (Z.ltb_spec shift 256); try lia.
  rewrite word_uint64_small, Z.shiftl_mul_pow2 by lia. apply U256_modulus.
Qed.
Lemma SHR_correct shift value : in_word shift -> in_word value ->
  (if 256 <=? U256 shift then 0 else U256 (Z.shiftr (U256 value) (big_uint64 (U256 shift)))) = if shift <? 256 then value / 2 ^ shift else 0.
Proof.
  intros Hs Hv. rewrite !(U256_small shift), !(U256_small value) by done. unfold in_word in *. destruct (Z.leb_spec 256 shift), (Z.ltb_spec shift 256); try lia.
  rewrite word_uint64_small, Z.shiftr_div_pow2 by lia. apply U256_small. unfold in_word.
  pose proof (Z.pow_pos_nonneg 2 shift ltac:(lia) ltac:(lia)). split; [apply Z.div_pos; lia|]. apply Z.div_lt_upper_bound; nia.
Qed.
Lemma SAR_correct shift value : in_word shift -> in_word value ->
  (if 256 <=? U256 shift then U256 (if 0 <=? S256 value then 0 else -1) else U256 (Z.shiftr (S256 value) (big_uint64 (U256 shift)))) =
  (if shift <? 256 then signed value / 2 ^ shift else signed value / 2 ^ 256) mod modulus.
Proof.
  intros Hs Hv. rewrite !U256_modulus. pose proof (S256_range value Hv) as Hr. rewrite <- S256_signed by done.
  rewrite (Z.mod_small shift) by exact Hs. unfold in_word in *. destruct (Z.leb_spec 256 shift), (Z.ltb_spec shift 256); try lia.
  - apply (f_equal (fun z => z mod modulus)). destruct (Z.leb_spec 0 (S256 value)).
    + symmetry. apply Z.div_small. lia.
    + apply (Z.div_unique _ _ _ (S256 value + 2 ^ 256)); lia.
  - rewrite word_uint64_small, Z.shiftr_div_pow2 by lia. done.
Qed.

(** ** Results are words *)

Lemma mod_word z : in_word (z mod modulus).
Proof. apply (Z.mod_pos_bound z modulus). done. Qed.
Lemma bit_word (b : bool) : in_word (if b then 1 else 0).
Proof. unfold in_word. destruct b; lia. Qed.
Lemma logic_word x y : in_word x -> in_word y -> in_word (Z.land x y) /\ in_word (Z.lor x y) /\ in_word (Z.lxor x y).
Proof.
  intros Hx Hy. assert (H : forall z, Z.land z (Z.ones 256) = z -> in_word z).
  { intros z E. rewrite <- E, Z.land_ones by lia. apply mod_word. }
  assert (Hm : forall z, in_word z -> Z.land z (Z.ones 256) = z) by (intros z Hz; rewrite Z.land_ones by lia; by apply Z.mod_small).
  split; [|split]; apply H.
  - by rewrite <- Z.land_assoc, (Hm y).
  - by rewrite Z.land_lor_distr_l, (Hm x), (Hm y).
  - apply Z.bits_inj'. intros n Hn. rewrite <- (Hm x Hx), <- (Hm y Hy) at 2. rewrite !Z.land_spec, !Z.lxor_spec, !Z.land_spec.
    by destruct (Z.testbit x n), (Z.testbit y n), (Z.testbit (Z.ones 256) n).
Qed.
Lemma smaller_word z y : 0 <= z <= y -> in_word y -> in_word z.
Proof. unfold in_word. lia. Qed.

Lemma quotient_range x y : 0 <= x -> 0 <= y -> 0 <= x / y <= x /\ 0 <= x mod y <= x.
Proof.
  intros Hx Hy. destruct (Z.eq_dec y 0) as [->|Hne]; [rewrite Z.div_0_r, Z.mod_0_r; lia|].
  split; split; [apply Z.div_pos; lia|apply Z.div_le_upper_bound; nia|apply Z.mod_pos_bound; lia|apply Z.mod_le; lia].
Qed.

Lemma binary_result_word op x y : in_word x -> in_word y -> in_word (binary_result op x y).
Proof.
  intros Hx Hy. destruct (logic_word x y Hx Hy) as (H1 & H2 & H3). assert (H0 : in_word 0) by (unfold in_word; lia). unfold binary_result.
  repeat (match goal with |- context [if ?b then _ else _] => lazymatch b with _ =? _ => destruct b end end; try apply mod_word; try apply bit_word; try done).
  all: try (match goal with |- in_word (if ?b then _ else _) => destruct b eqn:? end; try apply mod_word; try apply bit_word; try done).
  all: pose proof (Z.pow_nonneg 2 x ltac:(lia)); unfold in_word in Hx, Hy.
  - eapply smaller_word; [apply quotient_range; [apply Hx|apply Hy]|done].
  - eapply smaller_word; [apply quotient_range; [apply Hx|apply Hy]|done].
  - pose proof (Z.mod_pos_bound (y / 256 ^ (31 - x)) 256 ltac:(lia)). unfold in_word. lia.
  - eapply smaller_word; [apply quotient_range; [apply Hy|done]|done].
Qed.

Lemma unary_result_word op x : in_word x -> in_word (unary_result op x).
Proof. intros Hx. unfold unary_result. destruct (_ =? _); [unfold in_word, modulus in *; lia|apply bit_word]. Qed.
Lemma ternary_result_word op x y z : in_word x -> in_word y -> in_word z -> in_word (ternary_result op x y z).
Proof.
  intros Hx Hy Hz. unfold ternary_result. unfold in_word in Hz. destruct (Z.eqb_spec z 0); [unfold in_word; lia|].
  pose proof (Z.mod_pos_bound (x + y) z ltac:(lia)). pose proof (Z.mod_pos_bound (x * y) z ltac:(lia)). unfold in_word. destruct (_ =? _); lia.
Qed.

Lemma effect_words op st st' : effect op st = Some st' -> Forall in_word st -> Forall in_word st'.
Proof.
  unfold effect. intros E H. destruct (_ && _).
  { destruct (st !! _) as [x|] eqn:Ex; [|done]. injection E as <-. constructor; [|done]. by eapply Forall_lookup_1. }
  destruct (_ && _).
  { destruct (st !! 0%nat) as [a|] eqn:Ea; [|done]. destruct (st !! Z.to_nat _) as [b|] eqn:Eb; [|done]. injection E as <-.
    apply Forall_insert; [apply Forall_insert; [done|]|]; by eapply Forall_lookup_1. }
  destruct (op =? POP); [destruct st; [done|]; injection E as <-; by inversion H|].
  destruct (arity op) as [|[|[|[|]]]]; try done; destruct st as [|x st]; try done; inversion H as [|? ? Hx H1]; subst.
  - injection E as <-. constructor; [by apply unary_result_word|done].
  - destruct st as [|y st]; [done|]. inversion H1 as [|? ? Hy H2]; subst. injection E as <-. constructor; [by apply binary_result_word|done].
  - destruct st as [|y [|z st]]; try done. inversion H1 as [|? ? Hy H2]; subst. inversion H2 as [|? ? Hz H3]; subst. injection E as <-.
    constructor; [by apply ternary_result_word|done].
Qed.

(** ** Entries *)

Section entries.
Context {crypto : Crypto} {natives : Natives} {S : Type} {database : Database S} (env : Env).
Local Abbreviation scope := (scope S).
Local Abbreviation operation := (operation (S:=S)).

(** What an entry for a stack instruction must do: change the stack as [effect] says,
    take no memory, and let the loop go on. *)
Record computes (op : Z) (o : operation) : Prop := {
  cp_execute : forall Run (s : scope) st', effect op (sc_stack s) = Some st' -> Forall in_word (sc_stack s) ->
    execute o Run s = (Ok None, set_stack st' s);
  cp_entry : forall st st', effect op st = Some st' ->
    memorySize o = None /\ halts o = false /\ jumps o = false /\ writes o = false /\ valid o = true /\ reverts o = false /\ returns o = false /\
    op_minStack o <= Z.of_nat (length st) /\ (Z.of_nat (length st') <= StackLimit -> Z.of_nat (length st) <= op_maxStack o) }.

Lemma run_binary f x y rest (s : scope) : sc_stack s = x :: y :: rest -> binary f s = (Ok None, set_stack (f x y :: rest) s).
Proof. destruct s as [e c m st pc]. cbn. by intros ->. Qed.
Lemma run_unary f x rest (s : scope) : sc_stack s = x :: rest -> unary f s = (Ok None, set_stack (f x :: rest) s).
Proof. destruct s as [e c m st pc]. cbn. by intros ->. Qed.
Lemma run_pops2 f x y rest (s : scope) : sc_stack s = x :: y :: rest ->
  (x ← pop; y ← pop; push (f x y) ;; done_nil) s = (Ok None, set_stack (f x y :: rest) s).
Proof. destruct s as [e c m st pc]. cbn. by intros ->. Qed.
Lemma run_pops3 f x y z rest (s : scope) : sc_stack s = x :: y :: z :: rest ->
  (x ← pop; y ← pop; z ← pop; push (f x y z) ;; done_nil) s = (Ok None, set_stack (f x y z :: rest) s).
Proof. destruct s as [e c m st pc]. cbn. by intros ->. Qed.

(** Entries for opcodes that are no stack instructions. *)
Lemma computes_other op o : (forall st, effect op st = None) -> computes op o.
Proof. intros H. split; intros; congruence. Qed.
Lemma computes_alter op o f : (forall o : operation, execute (f o) = execute o /\ memorySize (f o) = memorySize o /\ halts (f o) = halts o /\ jumps (f o) = jumps o /\
  writes (f o) = writes o /\ valid (f o) = valid o /\ reverts (f o) = reverts o /\ returns (f o) = returns o /\ op_minStack (f o) = op_minStack o /\
  op_maxStack (f o) = op_maxStack o) -> computes op o -> computes op (f o).
Proof.
  intros Hf [H1 H2]. destruct (Hf o) as (E0 & E1 & E2 & E3 & E4 & E5 & E6 & E7 & E8 & E9). split; [intros; rewrite E0; by apply H1|].
  intros st st' E. rewrite E1, E2, E3, E4, E5, E6, E7, E8, E9. by apply H2.
Qed.

Lemma computes_1 op (m : M scope slice) gas :
  (forall st, effect op st = match st with x :: rest => Some (unary_result op x :: rest) | _ => None end) ->
  (forall x rest s, sc_stack s = x :: rest -> in_word x -> m s = (Ok None, set_stack (unary_result op x :: rest) s)) ->
  computes op (instr (fun _ => m) gas 1 1).
Proof.
  intros He Hm. split.
  - intros Run s st'. rewrite He. destruct (sc_stack s) as [|x rest] eqn:E; [done|]. intros [= <-] H. inversion H; subst. by apply Hm.
  - intros st st'. rewrite He. destruct st as [|x rest]; [done|]. intros [= <-]. cbn. unfold minStack, maxStack. split_and!; try done; lia.
Qed.
Lemma computes_2 op (m : M scope slice) gas :
  (forall st, effect op st = match st with x :: y :: rest => Some (binary_result op x y :: rest) | _ => None end) ->
  (forall x y rest s, sc_stack s = x :: y :: rest -> in_word x -> in_word y -> m s = (Ok None, set_stack (binary_result op x y :: rest) s)) ->
  computes op (instr (fun _ => m) gas 2 1).
Proof.
  intros He Hm. split.
  - intros Run s st'. rewrite He. destruct (sc_stack s) as [|x [|y rest]] eqn:E; try done. intros [= <-] H. inversion H as [|? ? Hx H1]; subst.
    inversion H1; subst. by apply Hm.
  - intros st st'. rewrite He. destruct st as [|x [|y rest]]; try done. intros [= <-]. cbn. unfold minStack, maxStack. split_and!; try done; lia.
Qed.
Lemma computes_3 op (m : M scope slice) gas :
  (forall st, effect op st = match st with x :: y :: z :: rest => Some (ternary_result op x y z :: rest) | _ => None end) ->
  (forall x y z rest s, sc_stack s = x :: y :: z :: rest -> in_word x -> in_word y -> in_word z ->
     m s = (Ok None, set_stack (ternary_result op x y z :: rest) s)) ->
  computes op (instr (fun _ => m) gas 3 1).
Proof.
  intros He Hm. split.
  - intros Run s st'. rewrite He. destruct (sc_stack s) as [|x [|y [|z rest]]] eqn:E; try done. intros [= <-] H. inversion H as [|? ? Hx H1]; subst.
    inversion H1 as [|? ? Hy H2]; subst. inversion H2; subst. by apply Hm.
  - intros st st'. rewrite He. destruct st as [|x [|y [|z rest]]]; try done. intros [= <-]. cbn. unfold minStack, maxStack. split_and!; try done; lia.
Qed.

Lemma run_signExtend x y rest (s : scope) : sc_stack s = x :: y :: rest -> in_word x -> in_word y ->
  opSignExtend s = (Ok None, set_stack (binary_result SIGNEXTEND x y :: rest) s).
Proof.
  intros Hs Hx Hy. unfold binary_result. cbn [Z.eqb Pos.eqb]. destruct s as [e c m st pc]. cbn in Hs. subst st. unfold in_word in Hx.
  unfold opSignExtend, pop, push, bindM, gets, lift_out, modS, ret, when, done_nil. cbn [sc_stack stack_pop set_stack].
  destruct (Z.ltb_spec x 31); [|done]. cbv zeta. rewrite <- signExtend_correct by (done || lia). done.
Qed.

Lemma computes_dup n : 1 <= n <= 16 -> computes (DUP1 + n - 1) (instr (fun _ => makeDup (Z.to_nat n)) GasFastestStep n (n + 1)).
Proof.
  intros Hn. assert (He : forall st, effect (DUP1 + n - 1) st = (fun x => x :: st) <$> st !! Z.to_nat (n - 1)).
  { intros st. unfold effect. rewrite (proj2 (Z.leb_le _ _)), (proj2 (Z.ltb_lt _ _)) by lia. cbn [andb]. do 2 f_equal. lia. }
  assert (Hi : (Z.to_nat n - 1)%nat = Z.to_nat (n - 1)) by lia. split.
  - intros Run s st'. rewrite He. destruct (sc_stack s !! _) as [x|] eqn:E; [|done]. intros [= <-] _. cbn [execute instr].
    unfold makeDup, bindM, gets, lift_out, modS, ret, stack_dup, stack_Back. rewrite Hi, E. done.
  - intros st st'. rewrite He. destruct (st !! _) as [x|] eqn:E; [|done]. intros [= <-]. apply lookup_lt_Some in E. cbn. unfold minStack, maxStack.
    split_and!; try done; lia.
Qed.
Lemma computes_swap n : 1 <= n <= 16 -> computes (SWAP1 + n - 1) (instr (fun _ => makeSwap (Z.to_nat n)) GasFastestStep (n + 1) (n + 1)).
Proof.
  intros Hn. assert (He : forall st, effect (SWAP1 + n - 1) st =
    match st !! 0%nat, st !! Z.to_nat n with Some a, Some b => Some (<[Z.to_nat n := a]> (<[0%nat := b]> st)) | _, _ => None end).
  { intros st. unfold effect. rewrite (proj2 (Z.leb_le DUP1 _)), (proj2 (Z.ltb_ge _ SWAP1)) by lia. cbn [andb].
    rewrite (proj2 (Z.leb_le _ _)), (proj2 (Z.ltb_lt _ _)) by lia. cbn [andb]. cbv zeta. by replace (SWAP1 + n - 1 - SWAP1 + 1) with n by lia. }
  assert (Hi : (Z.to_nat n + 1 - 1)%nat = Z.to_nat n) by lia. split.
  - intros Run s st'. rewrite He. destruct (sc_stack s !! 0%nat) as [a|] eqn:Ea; [|done]. destruct (sc_stack s !! Z.to_nat n) as [b|] eqn:Eb; [|done].
    intros [= <-] _. cbn [execute instr]. unfold makeSwap, bindM, gets, lift_out, modS, ret, stack_swap, stack_Back. rewrite Hi, Eb. cbn [mbind outcome_bind].
    rewrite Ea. cbn [mbind outcome_bind]. done.
  - intros st st'. rewrite He. destruct (st !! 0%nat) as [a|] eqn:Ea; [|done]. destruct (st !! Z.to_nat n) as [b|] eqn:Eb; [|done]. intros [= <-].
    apply lookup_lt_Some in Eb. cbn. rewrite !length_insert. unfold minStack, maxStack. split_and!; try done; lia.
Qed.
Lemma computes_pop gas : computes POP (instr (fun _ => opPop) gas 1 0).
Proof.
  split.
  - intros Run s st'. change (effect POP (sc_stack s)) with (tail <$> (head (sc_stack s) ≫= fun _ => Some (sc_stack s))).
    destruct s as [e c m [|x st] pc]; cbn; [done|]. by intros [= <-].
  - intros st st'. change (effect POP st) with (tail <$> (head st ≫= fun _ => Some st)). destruct st as [|x st]; cbn; [done|]. intros [= <-].
    unfold minStack, maxStack. split_and!; try done; lia.
Qed.

(** ** Tables *)

Lemma same_top (v w : Z) rest (s : scope) : v = w -> (Ok (A := slice) None, set_stack (v :: rest) s) = (Ok None, set_stack (w :: rest) s).
Proof. by intros ->. Qed.
Ltac result tac := etransitivity; [tac|]; unfold unary_result, binary_result, ternary_result; cbn [Z.eqb Pos.eqb]; apply same_top.
Ltac by_binary f := apply computes_2; [done|]; intros x y rest s Hs Hx Hy; result ltac:(exact (run_binary f x y rest s Hs)).
Ltac by_pops2 f := apply computes_2; [done|]; intros x y rest s Hs Hx Hy; result ltac:(exact (run_pops2 f x y rest s Hs)).
Ltac other := apply computes_other; intros ?; reflexivity.

Lemma computes_arithmetic : Forall (fun x => computes x.1 x.2) (frontier_arithmetic (S:=S)).
Proof.
  unfold frontier_arithmetic. repeat apply Forall_cons_2; cbn [fst snd]; [..|by constructor].
  - other.
  - by_binary (fun x y => U256 (x + y)). apply U256_modulus.
  - by_pops2 (fun x y => U256 (x * y)). apply U256_modulus.
  - by_binary (fun x y => U256 (x - y)). apply U256_modulus.
  - by_binary (fun x y => if negb (y =? 0) then U256 (x / y) else 0). destruct (Z.eqb_spec y 0); [done|]. cbn [negb]. apply U256_small.
    eapply smaller_word; [|exact Hx]. unfold in_word in *. apply quotient_range; lia.
  - by_pops2 (fun x y => sdiv (S256 x) (S256 y)). by apply sdiv_correct.
  - by_pops2 (fun x y => if y =? 0 then 0 else U256 (x mod y)). destruct (Z.eqb_spec y 0); [done|]. apply U256_small.
    eapply smaller_word; [|exact Hx]. unfold in_word in *. apply quotient_range; lia.
  - by_pops2 (fun x y => smod (S256 x) (S256 y)). by apply smod_correct.
  - apply computes_3; [done|]. intros x y z rest s Hs Hx Hy Hz.
    result ltac:(exact (run_pops3 (fun x y z => if 0 <? z then U256 ((x + y) mod z) else 0) x y z rest s Hs)). unfold in_word in Hz.
    destruct (Z.ltb_spec 0 z), (Z.eqb_spec z 0); try lia. apply U256_small. pose proof (Z.mod_pos_bound (x + y) z ltac:(lia)). unfold in_word. lia.
  - apply computes_3; [done|]. intros x y z rest s Hs Hx Hy Hz.
    result ltac:(exact (run_pops3 (fun x y z => if 0 <? z then U256 ((x * y) mod z) else 0) x y z rest s Hs)). unfold in_word in Hz.
    destruct (Z.ltb_spec 0 z), (Z.eqb_spec z 0); try lia. apply U256_small. pose proof (Z.mod_pos_bound (x * y) z ltac:(lia)). unfold in_word. lia.
  - apply (computes_alter _ _ (charging _)); [by intros o|].
    by_pops2 (fun x y => if y <? 1 then 1 else if x =? 0 then 0 else if y =? 1 then x else Exp x y). by apply opExp_correct.
  - apply computes_2; [done|]. intros x y rest s Hs Hx Hy. by apply run_signExtend.
  - by_binary (fun x y => of_bool (x <? y)). done.
  - by_binary (fun x y => of_bool (y <? x)). done.
  - by_binary (fun x y => if (tt255 <=? x) && (y <? tt255) then 1 else if (x <? tt255) && (tt255 <=? y) then 0 else of_bool (x <? y)). by apply slt_correct.
  - by_binary (fun x y => if (tt255 <=? x) && (y <? tt255) then 0 else if (x <? tt255) && (tt255 <=? y) then 1 else of_bool (y <? x)). by apply sgt_correct.
  - by_binary (fun x y => of_bool (x =? y)). done.
  - apply computes_1; [done|]. intros x rest s Hs Hx. result ltac:(exact (run_unary (fun x => of_bool (negb (0 <? x))) x rest s Hs)).
    unfold of_bool. unfold in_word in Hx. destruct (Z.ltb_spec 0 x), (Z.eqb_spec x 0); try lia; done.
Qed.

Lemma computes_bits : Forall (fun x => computes x.1 x.2) (frontier_bits (S:=S) env).
Proof.
  unfold frontier_bits. repeat apply Forall_cons_2; cbn [fst snd]; [..|by constructor].
  - by_pops2 Z.land. done.
  - by_binary Z.lxor. done.
  - by_binary Z.lor. done.
  - apply computes_1; [done|]. intros x rest s Hs Hx. result ltac:(exact (run_unary (fun x => U256 (Z.lnot x)) x rest s Hs)). by apply lnot_word.
  - by_binary (fun th val => if th <? 32 then math_Byte val 32 (big_int64 th) else 0). by apply opByte_correct.
  - other.
  - other.
  - other.
  - other.
  - other.
  - other.
  - other.
  - other.
  - other.
  - other.
  - other.
  - other.
  - other.
Qed.

Lemma computes_environment : Forall (fun x => computes x.1 x.2) (frontier_environment (S:=S) env).
Proof.
  unfold frontier_environment. repeat apply Forall_cons_2; cbn [fst snd]; [..|by constructor]; try other. apply computes_pop.
Qed.
Lemma computes_ends : Forall (fun x => computes x.1 x.2) (frontier_ends (S:=S) env).
Proof. unfold frontier_ends. repeat apply Forall_cons_2; cbn [fst snd]; [..|by constructor]; other. Qed.

Lemma effect_push n st : 1 <= n <= 32 -> effect (PUSH1 + n - 1) st = None.
Proof.
  intros Hn. unfold effect, arity. rewrite (proj2 (Z.leb_gt DUP1 _)), (proj2 (Z.leb_gt SWAP1 _)), (proj2 (Z.eqb_neq _ POP)) by lia. cbn [andb].
  rewrite (proj2 (Z.eqb_neq _ ISZERO)), (proj2 (Z.eqb_neq _ NOT)), (proj2 (Z.eqb_neq _ ADDMOD)), (proj2 (Z.eqb_neq _ MULMOD)) by lia.
  rewrite (proj2 (Z.leb_gt _ SIGNEXTEND)), (proj2 (Z.leb_gt _ SAR)), !andb_false_r by lia. by destruct st as [|? [|? [|]]].
Qed.

Lemma computes_inserted : Forall (fun x => computes x.1 x.2) (inserted_entries (S:=S) env).
Proof.
  unfold inserted_entries. repeat apply Forall_cons_2; cbn [fst snd]; [..|by constructor].
  - other.
  - other.
  - by_binary (fun shift value => if 256 <=? U256 shift then 0 else U256 (Z.shiftl (U256 value) (big_uint64 (U256 shift)))). by apply SHL_correct.
  - by_binary (fun shift value => if 256 <=? U256 shift then 0 else U256 (Z.shiftr (U256 value) (big_uint64 (U256 shift)))). by apply SHR_correct.
  - by_pops2 (fun shift value => if 256 <=? U256 shift then U256 (if 0 <=? S256 value then 0 else -1)
      else U256 (Z.shiftr (S256 value) (big_uint64 (U256 shift)))). by apply SAR_correct.
  - other.
  - other.
  - other.
  - other.
  - other.
  - other.
  - other.
  - other.
  - other.
Qed.

Lemma instructionSet_computes jt : instructionSet env = Ok jt -> all_entries computes jt.
Proof.
  apply instructionSet_entries.
  - intros op o gas. by apply (computes_alter op o (costing gas)).
  - intros op o g. by apply (computes_alter op o (charging g)).
  - apply computes_arithmetic.
  - apply computes_bits.
  - apply computes_environment.
  - intros n Hn. apply computes_other. intros st. by apply effect_push.
  - apply computes_dup.
  - apply computes_swap.
  - apply computes_ends.
  - apply computes_inserted.
Qed.
End entries.

Lemma effect_CALL op st st' : effect op st = Some st' -> (op =? CALL) = false.
Proof. intros E. apply Z.eqb_neq. intros ->. change (effect CALL st) with (@None (list Z)) in E. done. Qed.

(** A round that executes a stack instruction. *)
Lemma step_computes {crypto : Crypto} {natives : Natives} {S} {database : Database S} (env : Env) jt Run (s : scope S) op o st' :
  computes op o -> jt !! op = Some o -> effect op (sc_stack s) = Some st' -> Forall in_word (sc_stack s) ->
  op = GetOp (sc_pc s) (sc_contract s) -> dynamicGas o = None -> Z.of_nat (length st') <= StackLimit ->
  0 <= constantGas o <= Gas (sc_contract s) -> in_u64 (Gas (sc_contract s)) ->
  step env jt Run s =
    (Ok None, mkScope (sc_evm s) (set_Gas (Gas (sc_contract s) - constantGas o) (sc_contract s)) (sc_memory s) st' (u64 (sc_pc s + 1))).
Proof.
  intros [Hex Hen] Hjt He Hw -> Hd Hl Hg Hu. destruct (Hen _ _ He) as (E1 & E2 & E3 & E4 & E5 & E6 & E7 & Hmin & Hmax).
  pose proof (effect_CALL _ _ _ He) as Hc. unfold step. unfold bindM at 1. unfold getS at 1. cbv zeta. rewrite Hjt, E5. cbn [negb].
  rewrite (proj2 (Z.ltb_ge _ _) Hmin), (proj2 (Z.ltb_ge _ _) (Hmax Hl)).
  assert (Hp : write_protected env (GetOp (sc_pc s) (sc_contract s)) o s = (Ok false, s)).
  { unfold write_protected, bindM, gets. rewrite E4, Hc. by destruct (_ && _). }
  unfold bindM at 1. rewrite Hp. set (s1 := set_contract (set_Gas (Gas (sc_contract s) - constantGas o) (sc_contract s)) s).
  assert (Hu1 : use_gas (constantGas o) s = (Ok true, s1)).
  { unfold use_gas, bindM, gets, modS, ret, UseGas. rewrite (proj2 (Z.ltb_ge _ _)) by lia. rewrite ?u64_small by (unfold in_u64 in *; lia). done. }
  unfold bindM at 1. rewrite Hu1. cbn [negb]. unfold required_memory, charge_dynamic. rewrite E1, Hd, E2, E3, E6, E7. cbn [when negb].
  assert (Hx : execute o Run s1 = (Ok None, set_stack st' s1)) by (apply Hex; [exact He|exact Hw]).
  unfold bindM, ret, attempt, modS. cbn [Z.ltb Z.compare when ret]. unfold ret. rewrite Hx. done.
Qed.

(** C14: The stack instructions compute what they should.  Under every instruction table that a configuration can give, the entry of an arithmetic, comparison, bitwise, shift, dup, swap or pop instruction changes the stack exactly as the reference says - arithmetic modulo 2^256, two's complement for the signed ones - with all items again below 2^256, and touches nothing else; and a round of the interpreter at such an instruction takes its price, moves the program counter by one and goes on. *)
Theorem stack_instructions_correct {crypto : Crypto} {natives : Natives} {S} {database : Database S} (env : Env) jt Run (s : scope S) op o st' :
  instructionSet env = Ok jt -> jt !! op = Some o -> effect op (sc_stack s) = Some st' -> Forall in_word (sc_stack s) ->
  execute o Run s = (Ok None, set_stack st' s) /\ Forall in_word st' /\
  (op = GetOp (sc_pc s) (sc_contract s) -> dynamicGas o = None -> Z.of_nat (length st') <= StackLimit ->
   0 <= constantGas o <= Gas (sc_contract s) -> in_u64 (Gas (sc_contract s)) ->
   step env jt Run s =
     (Ok None, mkScope (sc_evm s) (set_Gas (Gas (sc_contract s) - constantGas o) (sc_contract s)) (sc_memory s) st' (u64 (sc_pc s + 1)))).
Proof.
  intros Hjt Ho He Hw. pose proof (instructionSet_computes env jt Hjt op o Ho) as Hc. split; [by apply Hc|]. split; [by eapply effect_words|].
  intros Hop Hd Hl Hg Hu. by eapply step_computes.
Qed.
