(* ===== verification/VMJump.v ===== *)
(** Jumps go to jump destinations only.

    The machine marks the bytes that are arguments of push instructions in a bit vector
    ([codeBitmap]), caches it in the contract or, for deployed code, in a map by code
    hash, and tests a bit on each jump.  The result is the one of a plain walk over the
    code ([push_data]). *)
From stdpp Require Import prelude gmap list strings.
From Stdlib Require Import ZArith Lia.
From S2P Require Import Prelude Params VarBytes RLP Crypto StateData VMWord VMWordFacts VMAnalysis VMState VMPrecompiles VMGas VMCall VMOps VMLaws VMFrame.
Local Open Scope Z_scope.

(** A position inside the code that holds JUMPDEST and is no argument of a push. *)
Definition jump_target (code : bytes) (dest : Z) : bool :=
  (dest <? Z.of_nat (length code)) && (b2z (nth (Z.to_nat dest) code Byte.x00) =? JUMPDEST) &&
  negb (nth (Z.to_nat dest) (push_data 0 code) false).

Section jump.
Context {crypto : Crypto} {S : Type}.
Local Abbreviation scope := (scope S).

(** The cached analyses belong to the codes they are cached for. *)
Record analysed (s : scope) : Prop := {
  an_jumpdests : jumpdests_ok (evm_jumpdests (sc_evm s));
  an_analysis : forall bits, c_analysis (sc_contract s) = Some bits -> codeBitmap (Code (sc_contract s)) = Ok bits;
  an_hash : CodeHash (sc_contract s) = 0 \/ CodeHash (sc_contract s) = Keccak256Hash (Code (sc_contract s)) }.

(** No other code has the hash of this one. *)
Definition collision_free (code : bytes) : Prop := forall code', Keccak256Hash code' = Keccak256Hash code -> code' = code.

(** What a jump may change besides: the caches. *)
Definition same_but_caches (s s' : scope) : Prop :=
  evm_db (sc_evm s') = evm_db (sc_evm s) /\ sc_stack s' = sc_stack s /\ sc_memory s' = sc_memory s /\ sc_pc s' = sc_pc s /\
  Gas (sc_contract s') = Gas (sc_contract s) /\ Code (sc_contract s') = Code (sc_contract s).

Lemma segment_result (code : bytes) dest bits (s : scope) : Z.of_nat (length code) < 2 ^ 62 -> codeBitmap code = Ok bits ->
  0 <= dest < Z.of_nat (length code) -> (b2z (nth (Z.to_nat dest) code Byte.x00) =? JUMPDEST) = true ->
  lift_out (codeSegment dest bits) s = (Ok (jump_target code dest), s).
Proof.
  intros Hl Hb Hd Hj. destruct (codeBitmap_segments code ltac:(lia)) as (bits' & Hb' & Hseg). rewrite Hb in Hb'. injection Hb' as <-.
  unfold lift_out. rewrite Hseg by lia. unfold jump_target. rewrite (proj2 (Z.ltb_lt _ _)) by lia. by rewrite Hj.
Qed.

Lemma validJumpdest_correct dest (s : scope) : analysed s -> collision_free (Code (sc_contract s)) ->
  Z.of_nat (length (Code (sc_contract s))) < 2 ^ 62 -> 0 <= dest ->
  exists s', validJumpdest dest s = (Ok (jump_target (Code (sc_contract s)) dest), s') /\ analysed s' /\ same_but_caches s s'.
Proof.
  intros Han Hcf Hl Hd. pose proof Han as [Hj Ha Hh]. unfold validJumpdest, bindM, gets. set (c := sc_contract s) in *. cbv zeta.
  assert (Hself : analysed s /\ same_but_caches s s) by done.
  destruct (Z.leb_spec 63 (BitLen dest)) as [Hbig|Hsmall].
  { exists s. cbn [orb]. split; [|done]. unfold ret. do 2 f_equal. unfold jump_target. symmetry. apply andb_false_intro1, andb_false_intro1, Z.ltb_ge.
    assert (~ dest < 2 ^ 62) as Hn; [|lia]. intros Hlt. unfold BitLen in Hbig. destruct (Z.eqb_spec dest 0); [lia|]. rewrite Z.abs_eq in Hbig by lia.
    pose proof (proj1 (Z.log2_lt_pow2 dest 62 ltac:(lia)) Hlt). lia. }
  assert (Hr : dest < 2 ^ 62) by (replace 62 with (63 - 1) by lia; apply word_BitLen_bound; lia).
  rewrite word_uint64_small by lia. cbn [orb].
  destruct (Z.leb_spec (Z.of_nat (length (Code c))) dest) as [Hout|Hin].
  { exists s. split; [|done]. unfold ret. do 2 f_equal. unfold jump_target. by rewrite (proj2 (Z.ltb_ge _ _)). }
  destruct (b2z (nth (Z.to_nat dest) (Code c) Byte.x00) =? JUMPDEST) eqn:Ej; cbn [negb].
  2: { exists s. split; [|done]. unfold ret. do 2 f_equal. unfold jump_target. by rewrite (proj2 (Z.ltb_lt _ _) Hin), Ej. }
  destruct (codeBitmap_segments (Code c) ltac:(lia)) as (bits & Hb & _).
  destruct (Z.eqb_spec (CodeHash c) 0) as [E0|E0]; cbn [negb].
  - destruct (c_analysis c) as [bits'|] eqn:Ea.
    + exists s. split; [|done]. apply segment_result; [done|by apply Ha|lia|done].
    + eexists. unfold lift_out at 1. rewrite Hb. unfold modS. split; [apply segment_result; [done|done|lia|done]|]. split; [|done].
      split; [done| |done]. cbn. by intros ? [= <-].
  - assert (Hk : CodeHash c = Keccak256Hash (Code c)) by (by destruct Hh). destruct (evm_jumpdests (sc_evm s) !! CodeHash c) as [bits'|] eqn:Em.
    + exists s. split; [|done]. destruct (Hj _ _ Em) as (code & Hc & _ & Hb'). rewrite Hk in Hc. apply Hcf in Hc as ->.
      apply segment_result; [done|done|lia|done].
    + eexists. unfold lift_out at 1. rewrite Hb. unfold modS. split; [apply segment_result; [done|done|lia|done]|]. split; [|done].
      split; [|done|done]. intros h b. cbn. destruct (decide (h = CodeHash c)) as [->|Hne]; [|rewrite lookup_insert_ne by done; apply Hj].
      rewrite lookup_insert_eq. intros [= <-]. exists (Code c). split; [done|]. split; [lia|done].
Qed.

End jump.

(** ** Example *)

(** PUSH1 0x5b; JUMPDEST: position 2 is a destination, position 1 is not. *)
Definition jump_code : bytes := z2b <$> [0x60; 0x5b; 0x5b].

Definition jump_crypto : Crypto.
Proof.
  refine {| keccak256 := fun b => if bool_decide (b = jump_code) then replicate 32 Byte.x01 else replicate 32 Byte.x00;
            RecoverPubkey := fun _ sig => Ok (Byte.x04 :: take 64 sig);
            secp256k1_Sign := fun h _ => Ok (h ++ h ++ [Byte.x00]);
            elliptic_Unmarshal := fun b => Some (be_value (take 32 (drop 1 b)), be_value (drop 33 b)) |}.
  - intros b. by case_bool_decide.
  - done.
Defined.

Definition jump_scope (dest : Z) : scope unit :=
  mkScope (mkEVM tt 0 false None 0 ∅ None)
    (SetCallCode (Some 500) (Keccak256Hash (crypto := jump_crypto) jump_code) (Some jump_code) (NewContract (AccountRef 1) 500 (Some 0) 100)) NewMemory [dest] 0.

