(* ===== verification/VMTheorems.v ===== *)
(** What holds of the virtual machine as a whole.

    The interpreter with the instruction table of its configuration, over any database
    that keeps the contract of VMLaws: a round keeps the types, a request to the machine
    returns within its gas, and an error undoes what was done.  Over the state database
    of the rollup, a static call changes nothing of what an account holds. *)
From stdpp Require Import prelude gmap list strings.
From Stdlib Require Import ZArith Lia.
From S2P Require Import Prelude Params VarBytes RLP RLPStream RLPDecode RLPTyped Crypto AccessList StateData State StateFacts VMWord VMWordFacts VMAnalysis VMState VMPrecompiles VMGas VMCall VMOps VMTable VMRun VMDatabase VMLaws VMFrame VMGasFacts VMPrecompileFacts VMCallFacts VMOpsFacts VMTableFacts VMRunFacts VMStateLaws VMStateMode VMFuel VMArith.
Local Open Scope Z_scope.

Section machine.
Context {crypto : Crypto} {natives : Natives} {S : Type} {database : Database S} {laws : DatabaseLaws S}.
Local Abbreviation EVM := (EVM S).
Local Abbreviation scope := (scope S).
Local Abbreviation free := (fun _ _ : S => True).

(** ** Frames in order *)

Record frame_typed (s : scope) : Prop := {
  ft_evm : evm_ok (sc_evm s);
  ft_contract : contract_ok (sc_contract s);
  ft_words : Forall in_word (sc_stack s);
  ft_stack : Z.of_nat (length (sc_stack s)) <= StackLimit;
  ft_mem : mem_ok (sc_memory s);
  ft_gas : 0 <= Gas (sc_contract s) < gas_limit;
  ft_pc : 0 <= sc_pc s < 2 ^ 64 }.

Lemma frame_typed_ok s : frame_typed s -> frame_ok false free (view_of s) s.
Proof.
  intros [He Hc Hw Hs Hm Hg Hp]. split; try done. split; try done. split; [done|]. eapply esince_refl, writing_mode.
Qed.

Lemma frame_typed_at s0 v s : at_ free s0 v s -> mem_ok (v_mem v) -> Z.of_nat (length (v_stk v)) <= 1024 ->
  0 <= v_gas v < gas_limit -> 0 <= v_pc v < 2 ^ 64 -> frame_typed s.
Proof. intros [[He _] Hc _ Hw <-] Hm Hs Hg Hp. by split. Qed.

(** What a frame that has ended leaves. *)
Definition frame_left (s s' : scope) : Prop :=
  evm_ok (sc_evm s') /\ evm_depth (sc_evm s') = evm_depth (sc_evm s) /\ evm_readOnly (sc_evm s') = evm_readOnly (sc_evm s) /\
  0 <= Gas (sc_contract s') <= Gas (sc_contract s).

Lemma frame_left_at s v s' : at_ free s v s' -> 0 <= v_gas v <= Gas (sc_contract s) -> frame_left s s'.
Proof. intros [[He [_ Hd Hr]] _ _ _ <-] Hg. by split. Qed.

Context (env : Env) (jt : gmap Z (operation (S:=S))) (Henv : env_ok env) (Hjt : instructionSet env = Ok jt).

Lemma machine_keeps Q fuel : mode_ok false Q -> runner_ok false Q (Z.of_nat fuel) (Run env jt fuel).
Proof.
  intros mode. apply (Run_ok false Q mode env ltac:(done) jt). apply (instructionSet_ok _ _ mode env Henv); [done|exact Hjt].
Qed.

Lemma machine_runs fuel : runner_ok false free (Z.of_nat fuel) (Run env jt fuel).
Proof. apply machine_keeps, writing_mode. Qed.

(** C11: A round of the interpreter is type safe.  From a frame in order - at most 1024 stack words, each below 2^256, memory of whole words within its bound and paid for, gas below the limit - a round under any instruction table of the configuration ends the frame, fails with an error, or leaves a frame in order with strictly less gas; it panics only for the reasons the database has, the sstore check, or two codes with one hash. *)
Theorem step_type_safe fuel s : frame_typed s -> Gas (sc_contract s) <= Z.of_nat fuel ->
  match step env jt (Run env jt fuel) s with
  | (Ok None, s') => frame_typed s' /\ Gas (sc_contract s') < Gas (sc_contract s) /\ same_contract (sc_contract s) (sc_contract s')
  | (Ok (Some (out, err)), s') => slice_ok out /\ (err = None \/ err = Some errExecutionReverted) /\ frame_left s s'
  | (Err _, s') => frame_left s s'
  | (Panic w, s') => panic_ok w (sc_evm s')
  | (Blocked, _) => False
  end.
Proof.
  intros Hs Hf. assert (Htab : jt_ok false free jt) by (apply (instructionSet_ok _ _ writing_mode env Henv); [done|exact Hjt]).
  pose proof (step_spec false free writing_mode env ltac:(done) jt Htab (Z.of_nat fuel) (Run env jt fuel) (view_of s) s (frame_typed_ok s Hs) (machine_runs fuel) Hf) as H.
  unfold wp in H. destruct (step env jt (Run env jt fuel) s) as [[[[out err]|]|e|w|] s']; [| | |done|done].
  - destruct H as (v & Hat & Hg & Ho & He). split; [done|]. split; [done|]. by eapply frame_left_at.
  - destruct H as (v & Hat & Hg & Hm & Hl & Hp & Hlt). destruct (ft_gas _ Hs) as [_ Hlim]. cbn [view_of v_gas] in *.
    split; [eapply frame_typed_at; try done; lia|]. split; [by destruct Hat as [_ _ _ _ <-]|apply Hat].
  - destruct H as (v & Hat & Hg). by eapply frame_left_at.
Qed.

(** ** Requests *)

(** The six ways into the machine. *)
Inductive request :=
| ReqCall (caller : ContractRef) (addr : address) (input : slice) (gas value : Z)
| ReqCallCode (caller : ContractRef) (addr : address) (input : slice) (gas value : Z)
| ReqDelegateCall (self who : address) (v : option Z) (addr : address) (input : slice) (gas : Z)
| ReqStaticCall (caller : ContractRef) (addr : address) (input : slice) (gas : Z)
| ReqCreate (caller : ContractRef) (code : slice) (gas value : Z)
| ReqCreate2 (caller : ContractRef) (code : slice) (gas value salt : Z).

Definition no_address (r : slice * address * Z * option goerror) : slice * Z * option goerror := let '(out, _, gas, err) := r in (out, gas, err).

Definition serve (fuel : nat) (r : request) : M EVM (slice * Z * option goerror) :=
  let Run := Run env jt fuel in
  match r with
  | ReqCall caller addr input gas value => Call env Run caller addr input gas value
  | ReqCallCode caller addr input gas value => CallCode env Run caller addr input gas value
  | ReqDelegateCall self who v addr input gas => DelegateCall env Run (ContractOf self who v) addr input gas
  | ReqStaticCall caller addr input gas => StaticCall env Run caller addr input gas
  | ReqCreate caller code gas value => x ← Create env Run caller code gas value; ret (no_address x)
  | ReqCreate2 caller code gas value salt => x ← Create2 env Run caller code gas value salt; ret (no_address x)
  end.

Definition req_gas (r : request) : Z :=
  match r with
  | ReqCall _ _ _ gas _ | ReqCallCode _ _ _ gas _ | ReqDelegateCall _ _ _ _ _ gas | ReqStaticCall _ _ _ gas
  | ReqCreate _ _ gas _ | ReqCreate2 _ _ gas _ _ => gas
  end.

Definition req_ok (r : request) : Prop :=
  match r with
  | ReqCall _ _ input _ value | ReqCallCode _ _ input _ value | ReqCreate _ input _ value | ReqCreate2 _ input _ value _ => slice_ok input /\ in_word value
  | ReqDelegateCall self who v _ input _ => slice_ok input /\ ref_ok (ContractOf self who v)
  | ReqStaticCall _ _ input _ => slice_ok input
  end /\ 0 <= req_gas r < gas_limit.

Definition is_call (r : request) : bool := match r with ReqCreate _ _ _ _ | ReqCreate2 _ _ _ _ _ => false | _ => true end.

(** What a served request leaves: the machine in order, no more gas than was given,
    and after a failed call the database as it was. *)
Definition served (r : request) (e : EVM) (x : slice * Z * option goerror) (e' : EVM) : Prop :=
  eat free e e' /\ slice_ok x.1.1 /\ 0 <= x.1.2 <= req_gas r /\
  (is_call r = true -> forall err, x.2 = Some err -> db_equiv (evm_db e') (evm_db e) /\
     (x.1.2 = 0 \/ err = errExecutionReverted \/ err = ErrDepth \/ err = ErrInsufficientBalance)).

Lemma served_call r e (m : M EVM (slice * Z * option goerror)) : wpe m e (call_post free e (req_gas r)) -> wpe m e (served r e).
Proof. intros Hm. eapply wpe_mono; [exact Hm|]. intros x e' (H1 & H2 & H3 & H4). split; [done|]. split; [done|]. split; [done|]. by intros _. Qed.

Lemma served_create r e (m : M EVM (slice * address * Z * option goerror)) : is_call r = false -> wpe m e (create_post free e (req_gas r)) ->
  wpe (x ← m; ret (no_address x)) e (served r e).
Proof.
  intros Hn Hm. apply wpe_bind. eapply wpe_mono; [exact Hm|]. intros [[[o a] l] err] e' (H1 & H2 & H3). apply wpe_ret.
  split; [done|]. split; [done|]. split; [done|]. by rewrite Hn.
Qed.

Lemma serve_spec fuel r e : evm_ok e -> req_ok r -> req_gas r < Z.of_nat fuel -> wpe (serve fuel r) e (served r e).
Proof.
  intros He [Hr Hg] Hf. pose proof (machine_runs fuel) as HRun.
  assert (0 <= req_gas r < Z.of_nat fuel /\ req_gas r < gas_limit) as [Hn Hl] by lia.
  destruct r; cbn [req_gas] in Hn, Hl; cbn [serve]; first [apply served_create; [done|] | apply served_call].
  - destruct Hr. by apply (Call_spec false free writing_mode env _ _ HRun).
  - destruct Hr. by apply (CallCode_spec false free writing_mode env _ _ HRun).
  - destruct Hr. by apply (DelegateCall_spec false free writing_mode env _ _ HRun).
  - by apply (StaticCall_spec false free writing_mode env _ _ HRun).
  - destruct Hr. by apply (Create_spec false free writing_mode env Henv _ _ HRun).
  - destruct Hr. by apply (Create2_spec false free writing_mode env Henv _ _ HRun).
Qed.

Lemma below_serve f1 f2 r : (f1 <= f2)%nat -> below (serve f1 r) (serve f2 r).
Proof.
  intros Hf. pose proof (below_Run env jt (instructionSet_grows env jt Hjt) f1 f2 Hf) as HR. unfold serve. cbv zeta. destruct r.
  - by apply below_Call.
  - by apply below_CallCode.
  - by apply below_DelegateCall.
  - by apply below_StaticCall.
  - apply below_bind; [by apply below_Create|]. intros x. apply below_refl.
  - apply below_bind; [by apply below_Create2|]. intros x. apply below_refl.
Qed.

(** C12: The machine always returns.  Whatever code the accounts hold, each of the six requests - call, callcode, delegatecall, staticcall, create, create2 - with gas below 2^62 ends with a result or an error value, never diverging, and leaves the machine in order at the same depth and write protection; a Go panic can only be one the database has, the sstore check, or two codes with one hash.  Fuel beyond the gas is enough, and every larger fuel gives the same run. *)
Theorem machine_returns fuel r e : evm_ok e -> req_ok r -> req_gas r < Z.of_nat fuel ->
  match serve fuel r e with
  | (Ok _, e') => evm_ok e' /\ evm_depth e' = evm_depth e /\ evm_readOnly e' = evm_readOnly e
  | (Panic w, e') => panic_ok w e'
  | (Err _, _) | (Blocked, _) => False
  end /\ forall more, (fuel <= more)%nat -> serve more r e = serve fuel r e.
Proof.
  intros He Hr Hf. pose proof (serve_spec fuel r e He Hr Hf) as H. unfold wpe in H. split.
  - destruct (serve fuel r e) as [[x|err|w|] e']; try done. destruct H as ([H1 [_ H2 H3]] & _). done.
  - intros more Hm. symmetry. apply below_eq; [by apply below_serve|]. by destruct (serve fuel r e) as [[x|err|w|] e'].
Qed.

(** Gas is never gained.  The gas a request gives back is between zero and the gas it was given, so no sequence of calls, refunds of stipends or nested creations produces gas or makes the 64-bit counter wrap. *)
Theorem gas_never_gained fuel r e out left_gas err e' : evm_ok e -> req_ok r -> req_gas r < Z.of_nat fuel ->
  serve fuel r e = (Ok (out, left_gas, err), e') -> 0 <= left_gas <= req_gas r.
Proof.
  intros He Hr Hf E. pose proof (serve_spec fuel r e He Hr Hf) as H. unfold wpe in H. rewrite E in H. apply H.
Qed.

(** C13: A failed call undoes everything.  When a call, callcode, delegatecall or staticcall returns an error, the database is equivalent to the one before the call, whatever the called code and the code it called had written; and the gas is gone, unless the code reverted or the call was refused for its depth or its balance. *)
Theorem failed_call_undone fuel r e out left_gas err e' : evm_ok e -> req_ok r -> req_gas r < Z.of_nat fuel -> is_call r = true ->
  serve fuel r e = (Ok (out, left_gas, Some err), e') ->
  db_equiv (evm_db e') (evm_db e) /\
  (left_gas = 0 \/ err = errExecutionReverted \/ err = ErrDepth \/ err = ErrInsufficientBalance).
Proof.
  intros He Hr Hf Hc E. pose proof (serve_spec fuel r e He Hr Hf) as H. unfold wpe in H. rewrite E in H. destruct H as (_ & _ & _ & H).
  by apply (H Hc err).
Qed.
End machine.

(** ** A machine over the state database *)

Section rollup.
Context {T D : Type} {backend : Backend T D} {crypto : Crypto} {natives : Natives} {store : StoreLaws T D}.
Local Abbreviation StateDB := (StateDB T D).

(** What [accounts_ok] asks of a trie, and nonces in range. *)
Definition accounts_typed (t : T) : Prop :=
  forall a d, snd (loadAccount t a) = Some d -> length (acc_CodeHash d) = 32%nat /\ in_u64 (acc_Nonce d).

Lemma opened_New root (db : D) s : New root db = inr s -> accounts_typed (sdb_trie s) -> opened s [].
Proof.
  intros H Hok. unfold New in H. destruct (OpenTrie db root) as [|t]; [done|]. injection H as <-. cbn in Hok.
  assert (Hobj : forall a (o : stateObject T), lookupObj (mkStateDB db t ∅ ∅ ∅ None 0 0 0 0 ∅ 0 ∅ newAccessList newJournal [] 0) a = Some o ->
    exists d, o = newObject a d /\ length (acc_CodeHash d) = 32%nat /\ in_u64 (acc_Nonce d)).
  { intros a o Ho. unfold lookupObj in Ho. cbn in Ho. rewrite lookup_empty in Ho.
    destruct (snd (loadAccount t a)) as [d|] eqn:E; [|done]. injection Ho as <-. exists d. by split; [|apply (Hok a)]. }
  exists []. split; [|split; [done|split; [|done]]].
  - constructor; [|done|constructor|constructor]. constructor; [apply wf_new|done|]. intros a o Ho.
    destruct (Hobj a o Ho) as (d & -> & Hc & _). split; [done|]. split; [done|]. cbn. by destruct (acc_Root d =? 0).
  - split; [|unfold in_u64; cbn; lia]. intros a o Ho. destruct (Hobj a o Ho) as (d & -> & _ & Hn). cbn [sdb_db]. split.
    + cbn. by destruct (acc_Root d =? 0).
    + intros k v. unfold current, committed. cbn [newObject so_fake so_dirty so_pending so_origin]. rewrite !lookup_empty.
      destruct (trieOf db _); [|done..]. intros [= <-]. apply slotOf_wf.
    + intros k v. unfold committed. cbn [newObject so_fake so_pending so_origin]. rewrite !lookup_empty.
      destruct (trieOf db _); [|done..]. intros [= <-]. apply slotOf_wf.
    + intros c. unfold codeOf. cbn [newObject so_code]. case_bool_decide; [done|]. destruct (ContractCode _ _ _) eqn:E; [done|].
      intros [= <-]. by apply code_stored in E.
Qed.

Lemma opened_each (l : list (method unit)) : Forall (fun c => plain c = true /\ args_ok c) l ->
  forall s gl s', opened s gl -> each l (fun c => state_call true c) s = (Ok tt, s') -> opened s' gl.
Proof.
  induction 1 as [|c l [Hp Ha] _ IH]; intros s gl s' Hop; cbn [each]; [by intros [= <-]|]. unfold bindM.
  destruct (state_call true c s) as [[x|e|w|] s1] eqn:E; try done. apply IH. by apply (opened_plain c s gl (Ok x) s1 Hop Hp Ha E).
Qed.

#[local] Instance rollup_database : Database StateDB := state_database true.

(** A machine just made is in order. *)
Lemma evm_ok_new s n : opened s [] -> evm_ok (mkEVM s 0 false None 0 ∅ n).
Proof. intros H. split; [by eexists|done|done|done]. Qed.

(** C19: A static call changes nothing.  Over the state database of the rollup, from Byzantium on, whatever code a static call runs and whatever that code calls in turn, afterwards every account has the nonce, code, storage and suicided mark it had, and the logs and the refund counter are the same. *)
Theorem static_call_changes_nothing (env : Env) jt fuel caller addr input gas (e : EVM StateDB) x e' :
  env_ok env -> r_IsByzantium (chainRules env) = true -> instructionSet env = Ok jt -> evm_ok e -> slice_ok input ->
  0 <= gas < gas_limit -> gas < Z.of_nat fuel ->
  StaticCall env (Run env jt fuel) caller addr input gas e = (Ok x, e') -> same_world (evm_db e) (evm_db e').
Proof.
  unfold rollup_database in *. intros Henv Hbyz Hjt He Hi [Hg Hl] Hf E.
  assert (Htab : jt_ok true same_world jt) by (apply (instructionSet_ok true same_world static_mode env Henv); done).
  pose proof (Run_ok true same_world static_mode env ltac:(done) jt Htab fuel) as HRun.
  pose proof (StaticCall_spec true same_world static_mode env _ _ HRun caller addr input gas e He Hi (conj Hg Hf) Hl) as H.
  unfold wpe in H. rewrite E in H. destruct H as ([_ [[_ H] _ _]] & _). exact H.
Qed.
End rollup.

(** ** Examples *)

Definition sample_natives : Natives (crypto := sample_crypto).
Proof.
  refine (Build_Natives sample_crypto _ (fun b => replicate 32 Byte.x00) _ (fun b => replicate 20 Byte.x00) _ unit unit (fun _ => inr tt) (fun _ => inr tt)
    (fun _ => replicate 64 Byte.x00) _ (fun _ _ => tt) (fun _ _ => tt) (fun _ _ => true) (fun h _ _ _ _ => h) _); try done.
  intros m s p Hs [= <-]. cbn [length]. rewrite length_take. lia.
Defined.

#[local] Existing Instance sample_crypto.
#[local] Existing Instance sample_natives.

#[local] Instance list_store : StoreLaws listTrie unit.
Proof.
  split.
  - intros d ah h c [= <-]. split; [cbn; lia|by left].
  - intros d ah. exists []. done.
Defined.

#[local] Instance sample_database : Database (StateDB listTrie unit) := state_database true.
#[local] Instance sample_laws : DatabaseLaws (StateDB listTrie unit) := state_laws.

Definition sample_env : Env :=
  mkEnv true (0, 0) (fun _ => inr []) (mkContext (fun _ => 0) 1 1 2 30000000 100 1000 0 (Some 5)) zero_config (mkVMConfig false false []).

Lemma sample_env_ok : env_ok sample_env.
Proof.
  split; cbn; try done.
  - exists 1088. split; [done|]. unfold in_word. lia.
  - by intros e b [= <-].
Defined.

(** Stores 9 at slot 1, then returns 5 * 7. *)
Definition sample_code : bytes := z2b <$> [0x60; 9; 0x60; 1; 0x55; 0x60; 5; 0x60; 7; 0x02; 0x60; 0; 0x52; 0x60; 32; 0x60; 0; 0xf3].
(** Stores 9 at slot 1, then meets an invalid instruction. *)
Definition failing_code : bytes := z2b <$> [0x60; 9; 0x60; 1; 0x55; 0xfe].
(** Reads slot 1 and returns it. *)
Definition reading_code : bytes := z2b <$> [0x60; 1; 0x54; 0x60; 0; 0x52; 0x60; 32; 0x60; 0; 0xf3].

Definition sample_setup : list (method unit) :=
  [CreateAccount 500; SetCode 500 (Some sample_code); CreateAccount 501; SetCode 501 (Some failing_code);
   CreateAccount 502; SetCode 502 (Some reading_code); SetState 502 1 77; AddBalance 1 100].
Definition sample_world : StateDB listTrie unit := snd (each sample_setup (fun c => state_call true c) sample_state).
Definition sample_evm : EVM (StateDB listTrie unit) := mkEVM sample_world 0 false None 0 ∅ None.
Definition sample_jt := fork_instructionSet (S := StateDB listTrie unit) sample_env.

Lemma sample_table : instructionSet sample_env = Ok sample_jt.
Proof. reflexivity. Defined.

Lemma sample_evm_ok : evm_ok sample_evm.
Proof.
  apply (evm_ok_new (backend := listBackend)). eapply (opened_each sample_setup).
  - repeat constructor; unfold slice_ok, wf_hash, in_word; try (vm_compute; reflexivity); lia.
  - apply (opened_New emptyRoot tt); [reflexivity|]. intros a d Hd. discriminate Hd.
  - vm_compute. reflexivity.
Defined.

Definition sample_contract : Contract := SetCallCode (Some 500) (Keccak256Hash sample_code) (Some sample_code) (NewContract (AccountRef 1) 500 (Some 0) 100000).
Definition sample_scope : scope (StateDB listTrie unit) := mkScope sample_evm sample_contract NewMemory [] 0.

Lemma sample_scope_typed : frame_typed sample_scope.
Proof.
  split; cbn [sample_scope sc_evm sc_contract sc_stack sc_memory sc_pc].
  - apply sample_evm_ok.
  - split; [vm_compute; done|done|exists 0; split; [done|unfold in_word; lia]|by right; right|done].
  - by constructor.
  - done.
  - by split.
  - done.
  - lia.
Defined.

Lemma step_type_safe_witness :
  frame_typed sample_scope /\
  match step sample_env sample_jt (Run sample_env sample_jt (Z.to_nat 100000)) sample_scope with
  | (Ok None, s') => frame_typed s' /\ Gas (sc_contract s') < 100000
  | _ => False
  end.
Proof.
  split; [apply sample_scope_typed|].
  pose proof (step_type_safe sample_env sample_jt sample_env_ok sample_table (Z.to_nat 100000) sample_scope sample_scope_typed ltac:(rewrite Z2Nat.id; [done|lia])) as H.
  destruct (step sample_env sample_jt _ sample_scope) as [[[[o er]|]|e|w|] s'] eqn:E.
  - exfalso. apply (f_equal fst) in E. vm_compute in E. discriminate E.
  - split; apply H.
  - exfalso. apply (f_equal fst) in E. vm_compute in E. discriminate E.
  - exfalso. apply (f_equal fst) in E. vm_compute in E. discriminate E.
  - done.
Defined.

Definition sample_fuel : nat := Z.to_nat 60000.
Definition sample_request (addr : address) : request := ReqCall (AccountRef 1) addr None 50000 3.

Lemma sample_request_ok addr : req_ok (sample_request addr) /\ req_gas (sample_request addr) < Z.of_nat sample_fuel.
Proof. split; [split; [split; [done|unfold in_word; lia]|done]|]. unfold sample_fuel. rewrite Z2Nat.id; [done|lia]. Defined.

(** The output, the gas and the error of a run. *)
Definition run_result (addr : address) := fst (serve sample_env sample_jt sample_fuel (sample_request addr) sample_evm).

Lemma machine_returns_witness :
  run_result 500 = Ok (Some (hash_bytes 35), 29968, None) /\
  forall more, (sample_fuel <= more)%nat ->
    serve sample_env sample_jt more (sample_request 500) sample_evm = serve sample_env sample_jt sample_fuel (sample_request 500) sample_evm.
Proof.
  split; [vm_compute; reflexivity|].
  apply (machine_returns sample_env sample_jt sample_env_ok sample_table sample_fuel (sample_request 500) sample_evm sample_evm_ok); apply sample_request_ok.
Defined.

Lemma gas_never_gained_witness :
  run_result 500 = Ok (Some (hash_bytes 35), 29968, None) /\ 0 <= 29968 <= req_gas (sample_request 500).
Proof.
  assert (E : run_result 500 = Ok (Some (hash_bytes 35), 29968, None)) by (vm_compute; reflexivity). split; [exact E|].
  unfold run_result in E. destruct (serve sample_env sample_jt sample_fuel (sample_request 500) sample_evm) as [o e'] eqn:Es. cbn [fst] in E. subst o.
  eapply (gas_never_gained sample_env sample_jt sample_env_ok sample_table sample_fuel (sample_request 500) sample_evm); [apply sample_evm_ok|apply sample_request_ok..|exact Es].
Defined.

Lemma failed_call_undone_witness :
  run_result 501 = Ok (None, 0, Some (ErrNew "invalid opcode")) /\
  exists e', serve sample_env sample_jt sample_fuel (sample_request 501) sample_evm = (Ok (None, 0, Some (ErrNew "invalid opcode")), e') /\
    state_equiv (evm_db e') sample_world.
Proof.
  assert (E : run_result 501 = Ok (None, 0, Some (ErrNew "invalid opcode"))) by (vm_compute; reflexivity). split; [exact E|].
  unfold run_result in E. destruct (serve sample_env sample_jt sample_fuel (sample_request 501) sample_evm) as [o e'] eqn:Es. cbn [fst] in E. subst o.
  exists e'. split; [done|].
  exact (proj1 (failed_call_undone sample_env sample_jt sample_env_ok sample_table sample_fuel (sample_request 501) sample_evm None 0 (ErrNew "invalid opcode") e'
    sample_evm_ok (proj1 (sample_request_ok 501)) (proj2 (sample_request_ok 501)) eq_refl Es)).
Defined.

(** The reading contract answers under write protection; the storing one is stopped. *)
Definition static_result (addr : address) :=
  StaticCall sample_env (Run sample_env sample_jt sample_fuel) (AccountRef 1) addr None 50000 sample_evm.

Lemma static_call_changes_nothing_witness :
  fst (static_result 502) = Ok (Some (hash_bytes 77), 47882, None) /\ fst (static_result 500) = Ok (None, 0, Some errWriteProtection) /\
  same_world (evm_db sample_evm) (evm_db (snd (static_result 502))).
Proof.
  split; [vm_compute; reflexivity|]. split; [vm_compute; reflexivity|].
  assert (E : exists x, static_result 502 = (Ok x, snd (static_result 502))).
  { destruct (static_result 502) as [o e'] eqn:Es. apply (f_equal fst) in Es. vm_compute in Es. subst o. by eexists. }
  destruct E as [x E]. unfold static_result in E at 1.
  assert (Hf : 50000 < Z.of_nat sample_fuel) by (unfold sample_fuel; rewrite Z2Nat.id; [done|lia]).
  exact (static_call_changes_nothing sample_env sample_jt sample_fuel (AccountRef 1) 502 None 50000 sample_evm x _
    sample_env_ok eq_refl sample_table sample_evm_ok slice_ok_None ltac:(split; [lia|reflexivity]) Hf E).
Defined.

(** A frame at SDIV with -7 and 2 on the stack. *)
Definition sdiv_scope : scope (StateDB listTrie unit) :=
  mkScope sample_evm (SetCallCode (Some 500) 0 (Some [z2b SDIV]) (NewContract (AccountRef 1) 500 (Some 0) 100)) NewMemory [2 ^ 256 - 7; 2] 0.

Lemma stack_instructions_correct_witness :
  effect SDIV (sc_stack sdiv_scope) = Some [2 ^ 256 - 3] /\
  exists c, step sample_env sample_jt (Run sample_env sample_jt 0) sdiv_scope = (Ok None, mkScope sample_evm c NewMemory [2 ^ 256 - 3] 1) /\ Gas c = 95.
Proof.
  assert (E : effect SDIV (sc_stack sdiv_scope) = Some [2 ^ 256 - 3]) by (vm_compute; reflexivity). split; [exact E|].
  assert (Hf : (fun o => (constantGas o, bool_decide (dynamicGas o = None))) <$> sample_jt !! SDIV = Some (5, true)) by (vm_compute; reflexivity).
  destruct (sample_jt !! SDIV) as [o|] eqn:Eo; [|discriminate Hf]. injection Hf as Hc Hd. apply bool_decide_eq_true in Hd.
  assert (Hw : Forall in_word (sc_stack sdiv_scope)) by (repeat constructor; vm_compute; done).
  pose proof (proj2 (proj2 (stack_instructions_correct sample_env sample_jt (Run sample_env sample_jt 0) sdiv_scope SDIV o _ sample_table Eo E Hw))
    eq_refl Hd ltac:(cbn; lia) ltac:(rewrite Hc; cbn; lia) ltac:(unfold in_u64; cbn; lia)) as H.
  rewrite H, Hc. eexists. split; [reflexivity|]. reflexivity.
Defined.
