(* ===== verification/SeqSet.v ===== *)
(** Sequencer set checks on imported blocks (core/seq_set.go).

    The state is the package variable [epochCache]; the contract storage is read
    through [GetState] of the block's state database, an argument here. *)
From stdpp Require Import prelude list strings.
From Stdlib Require Import ZArith Lia.
From S2P Require Import Prelude Params VarBytes TxMeta RLP Crypto Transaction.
Local Open Scope Z_scope.

Definition seqsetRecommitMethod : string := "2c91c679".
Definition seqsetRecommitDataLen : Z := 4 + 32 + 32 + 32 + 32 + 32.

Record Epoch := mkEpoch { Number : Z; EpochSigner : address; StartBlock : Z; EndBlock : Z }.

#[export] Instance Epoch_eq_decision : EqDecision Epoch.
Proof. solve_decision. Defined.

Definition ErrNoSeqSetAddress := ErrVar "ErrNoSeqSetAddress" "seqset contract not set".
Definition ErrIncorrectSequencer := ErrVar "ErrIncorrectSequencer" "incorrect sequencer".

(** [data[lo:hi]] *)
Definition sub (data : bytes) (lo hi : nat) : bytes := take (hi - lo) (drop lo data).

Definition DecodeReCommitData (data : bytes) : bool * address * Z * Z :=
  if Z.of_nat (length data) <? seqsetRecommitDataLen then (false, 0, 0, 0)
  else
    let method := EncodeToString (sub data 0 4) in
    let startBlock := be_value (sub data (2 * 32 + 4) (3 * 32 + 4)) in
    let endBlock := be_value (sub data (3 * 32 + 4) (4 * 32 + 4)) in
    let signer := BytesToAddress (sub data (4 * 32 + 16) (4 * 32 + 36)) in
    if bool_decide (method = seqsetRecommitMethod) then (true, signer, startBlock, endBlock)
    else (false, 0, 0, 0).

Section SeqSet.
Context {crypto : Crypto}.

(** The signer of the sequencer signature in the metadata.  A nil [S] or [V]
    beside a non-zero [R] is a nil dereference. *)
Definition RecoverSeqAddress (tx : Transaction) : outcome address :=
  (if QueueOrigin (meta tx) =? QueueOriginL1ToL2 then Err (ErrNew "enqueue seq sign is null")
   else match GetSeqSign tx with
   | None => Err (ErrNew "seq sign is null")
   | Some sg =>
       match sR sg, sS sg, sV sg with
       | Some r, Some s, Some v =>
           rb ← FillBytes r 32; sb ← FillBytes s 32;
           h ← fst (Hash tx);
           signer ← SigToPub (hash_bytes h) (rb ++ sb ++ [z2b (u8 v)]);
           PubkeyToAddress signer
       | _, _, _ => Panic "nil pointer dereference"
       end
   end)%stdpp.

(** ** The epoch cache *)

Definition cache_same (e e' : Epoch) : bool :=
  (EpochSigner e =? EpochSigner e') && (StartBlock e =? StartBlock e') && (EndBlock e =? EndBlock e').

Definition updateEpochCache (currentEpochId : Z) (epoch : Epoch) (prependBeginning : bool)
    (epochCache : list Epoch) : list Epoch :=
  let c :=
    if prependBeginning then
      match epochCache with
      | e0 :: rest =>
          if Number e0 =? currentEpochId
          then if negb (cache_same e0 epoch) then epoch :: rest else epochCache
          else epoch :: epochCache
      | [] => [epoch]
      end
    else epochCache ++ [epoch] in
  if 10 <? Z.of_nat (length c) then take 10 c else c.

(** Storage slots of the sequencer set contract. *)
Definition numberSlot (epochId : Z) : Z :=
  Keccak256Hash (LeftPadBytes (big_bytes epochId) 32 ++ LeftPadBytes (big_bytes 103) 32).

Definition readEpoch (GetState : hash -> hash) (epochId : Z) : Epoch :=
  let slot i := GetState (BigToHash (numberSlot epochId + i)) in
  {| Number := slot 0; EpochSigner := BytesToAddress (hash_bytes (slot 1));
     StartBlock := slot 2; EndBlock := slot 3 |}.

(** The current epoch and, for an empty cache, up to ten before it. *)
Fixpoint previousIds (n : nat) (i currentEpochId : Z) : list Z :=
  match n with
  | O => []
  | S n =>
      let epochId := currentEpochId - i in
      if epochId <? 0 then [] else epochId :: previousIds n (i + 1) currentEpochId
  end.

Definition epochIds (currentEpochId : Z) (epochCache : list Epoch) : list Z :=
  currentEpochId :: match epochCache with [] => previousIds 10 1 currentEpochId | _ => [] end.

Definition reloadCache (GetState : hash -> hash) (currentEpochId : Z) (epochCache : list Epoch)
    : list Epoch :=
  let prependBeginning := match epochCache with [] => false | _ => true end in
  fold_left (fun c id => updateEpochCache currentEpochId (readEpoch GetState id) prependBeginning c)
    (epochIds currentEpochId epochCache) epochCache.

(** A block holding one recommit call is checked against the new sequencer. *)
Inductive single_check := SDone (o : outcome unit) | SContinue.

Definition single_tx_check (seqsetAddr : address) (txs : list Transaction) : single_check :=
  match txs with
  | [currentTx] =>
      if QueueOrigin (meta currentTx) =? QueueOriginL1ToL2 then SDone (Ok tt)
      else match Recipient (data currentTx) with
      | Some to =>
          if to =? seqsetAddr then
            let '(isRecommit, newSequencer, _, _) := DecodeReCommitData (Payload (data currentTx)) in
            match RecoverSeqAddress currentTx with
            | Ok recoverSigner =>
                if isRecommit : bool
                then SDone (if negb (newSequencer =? recoverSigner) then Err ErrIncorrectSequencer else Ok tt)
                else SContinue
            | Err e => SDone (Err e)
            | Panic w => SDone (Panic w)
            | Blocked => SDone Blocked
            end
          else SContinue
      | None => SContinue
      end
  | _ => SContinue
  end.

Definition currentEpochIdOf (GetState : address -> hash -> hash) (seqsetAddr : address) : Z :=
  GetState seqsetAddr (BytesToHash (big_bytes 104)).

Definition processSeqSetBlock (cfg : ChainConfig) (GetState : address -> hash -> hash)
    (txs : list Transaction) (parentNumber : Z) : M (list Epoch) unit :=
  enabled ← lift_out (IsSeqSetPeerEnabled cfg (Some (1 + parentNumber)));
  if negb enabled then ret tt
  else
    seqsetAddr ← lift_out (MetisSeqSetContract cfg);
    if seqsetAddr =? 0 then throw ErrNoSeqSetAddress
    else
      match single_tx_check seqsetAddr txs with
      | SDone o => lift_out o
      | SContinue =>
          let currentEpochId := currentEpochIdOf GetState seqsetAddr in
          modS (reloadCache (GetState seqsetAddr) currentEpochId) ;;
          match txs with
          | [] => gopanic "index out of range"
          | currentTx :: _ =>
              recoverSigner ← lift_out (RecoverSeqAddress currentTx);
              cache ← gets (fun c : list Epoch => c);
              if existsb (fun e => EpochSigner e =? recoverSigner) cache
              then ret tt else throw ErrIncorrectSequencer
          end
      end.
End SeqSet.

(** ** Facts *)

(** Call data of [RecommitEpoch(old, new, start, end, signer)]. *)
Definition recommit_data (oldEpochId newEpochId startBlock endBlock : Z) (newSigner : address) : bytes :=
  [Byte.x2c; Byte.x91; Byte.xc6; Byte.x79] ++ hash_bytes oldEpochId ++ hash_bytes newEpochId ++
  hash_bytes startBlock ++ hash_bytes endBlock ++ hash_bytes newSigner.

Lemma be_value_hash_bytes h : wf_hash h -> be_value (hash_bytes h) = h.
Proof.
  intros Hh. unfold be_value, hash_bytes. rewrite reverse_involutive, get_put_le.
  apply Z.mod_small. exact Hh.
Qed.

Lemma be_value_drop12_hash a : wf_address a -> be_value (drop 12 (hash_bytes a)) = a.
Proof.
  intros Ha. unfold wf_address in Ha.
  assert (E : hash_bytes a = replicate 12 Byte.x00 ++ addr_bytes a).
  { apply be_value_inj; [by rewrite length_app, length_hash_bytes, length_addr_bytes|].
    rewrite be_value_zeros, be_value_addr_bytes, be_value_hash_bytes by (unfold wf_hash, wf_address; lia). done. }
  rewrite E. change 12%nat with (length (replicate 12 Byte.x00)) at 1.
  rewrite drop_app_length. by apply be_value_addr_bytes.
Qed.

Lemma sub_skip a b lo hi : (length a <= lo)%nat ->
  sub (a ++ b) lo hi = sub b (lo - length a) (hi - length a).
Proof.
  intros H. unfold sub. rewrite drop_app_ge by done. f_equal. lia.
Qed.

Lemma sub_here a b : sub (a ++ b) 0 (length a) = a.
Proof. unfold sub. by rewrite Nat.sub_0_r, drop_0, take_app_length. Qed.

(** the call data of a recommit, with anything appended, decodes to its new
    sequencer and its block range; data that is too short or calls another method
    decodes to nothing. *)
Theorem DecodeReCommitData_correct (o n st en : Z) (a : address) (rest : bytes) :
  wf_hash st -> wf_hash en -> wf_address a ->
  DecodeReCommitData (recommit_data o n st en a ++ rest) = (true, a, st, en) /\
  (forall data, (length data < 164)%nat \/ take 4 data <> [Byte.x2c; Byte.x91; Byte.xc6; Byte.x79] ->
     DecodeReCommitData data = (false, 0, 0, 0)).
Proof.
  intros Hst Hen Ha. split.
  - unfold DecodeReCommitData, seqsetRecommitDataLen.
    assert (Hl : length (recommit_data o n st en a) = 164%nat).
    { unfold recommit_data. by rewrite !length_app, !length_hash_bytes. }
    rewrite length_app, Hl. destruct (Z.ltb_spec (Z.of_nat (164 + length rest)) (4 + 32 + 32 + 32 + 32 + 32)); [lia|].
    unfold recommit_data. rewrite <- !app_assoc.
    change (sub ([Byte.x2c; Byte.x91; Byte.xc6; Byte.x79] ++ ?x) 0 4) with
      (sub ([Byte.x2c; Byte.x91; Byte.xc6; Byte.x79] ++ x) 0 (length [Byte.x2c; Byte.x91; Byte.xc6; Byte.x79])).
    rewrite sub_here. cbv zeta. rewrite bool_decide_eq_true_2 by (vm_compute; reflexivity).
    assert (Hp : forall r lo hi, (4 <= lo)%nat ->
      sub ([Byte.x2c; Byte.x91; Byte.xc6; Byte.x79] ++ r) lo hi = sub r (lo - 4) (hi - 4))
      by (intros; by apply sub_skip).
    assert (Hf : forall h r lo hi, (32 <= lo)%nat -> sub (hash_bytes h ++ r) lo hi = sub r (lo - 32) (hi - 32)).
    { intros h r lo hi Hlo. rewrite sub_skip; by rewrite length_hash_bytes. }
    assert (Hs : forall h r, sub (hash_bytes h ++ r) 0 32 = hash_bytes h).
    { intros h r. rewrite <- (length_hash_bytes h) at 1. apply sub_here. }
    rewrite !Hp by lia. rewrite !(Hf o), !(Hf n) by lia. cbn [Nat.sub Nat.mul Nat.add].
    rewrite Hs, !(Hf st) by lia. cbn [Nat.sub]. rewrite Hs, (Hf en) by lia. cbn [Nat.sub].
    rewrite !be_value_hash_bytes by done. do 3 f_equal.
    unfold sub. rewrite drop_app_le by (by rewrite length_hash_bytes; lia).
    rewrite take_app_le by (rewrite length_drop, length_hash_bytes; lia).
    rewrite take_ge by (rewrite length_drop, length_hash_bytes; lia).
    unfold BytesToAddress. rewrite length_drop, length_hash_bytes. cbn [Nat.sub]. rewrite drop_0.
    by rewrite be_value_drop12_hash.
  - intros data Hd. unfold DecodeReCommitData.
    destruct (Z.ltb_spec (Z.of_nat (length data)) seqsetRecommitDataLen) as [|Hl]; [done|].
    destruct Hd as [Hd|Hd]; [unfold seqsetRecommitDataLen in Hl; lia|].
    cbv zeta. rewrite bool_decide_eq_false_2; [done|]. intros E. apply Hd.
    unfold sub in E. cbn [Nat.sub] in E. rewrite drop_0 in E.
    apply (f_equal String.list_ascii_of_string) in E. unfold EncodeToString in E.
    rewrite String.list_ascii_of_string_of_list_ascii in E. apply hex_chars_inj. rewrite E. vm_compute. reflexivity.
Qed.

Lemma DecodeReCommitData_correct_witness :
  DecodeReCommitData (recommit_data 1 2 100 200 0xABCD ++ [Byte.x07]) = (true, 0xABCD, 100, 200).
Proof.
  apply (DecodeReCommitData_correct 1 2 100 200 0xABCD [Byte.x07]); unfold wf_hash, wf_address; lia.
Defined.

Section CacheFacts.
Context {crypto : Crypto}.

Lemma cap_take {A} (l : list A) : (if 10 <? Z.of_nat (length l) then take 10 l else l) = take 10 l.
Proof. destruct (Z.ltb_spec 10 (Z.of_nat (length l))); [done|]. by rewrite take_ge by lia. Qed.

Lemma updateEpochCache_length cur e p c : (length (updateEpochCache cur e p c) <= 10)%nat.
Proof. unfold updateEpochCache. cbv zeta. rewrite cap_take, length_take. lia. Qed.

Lemma updateEpochCache_elem cur e p c x :
  x ∈ updateEpochCache cur e p c -> x = e \/ x ∈ c.
Proof.
  unfold updateEpochCache. cbv zeta. rewrite cap_take. intros Hx%subseteq_take. revert Hx. destruct p.
  - destruct c as [|e0 rest]; [intros H%list_elem_of_singleton; by left|].
    destruct (_ =? _); [destruct (negb _)|]; rewrite !elem_of_cons; tauto.
  - rewrite elem_of_app, list_elem_of_singleton. tauto.
Qed.

(** Prepending keeps the current epoch at the head. *)
Lemma updateEpochCache_head cur e c :
  exists e0 rest, updateEpochCache cur e true c = e0 :: rest /\ cache_same e0 e = true.
Proof.
  assert (Hr : cache_same e e = true) by (unfold cache_same; by rewrite !Z.eqb_refl).
  unfold updateEpochCache. cbv zeta. rewrite cap_take. destruct c as [|e0 rest]; [by eexists _, _|].
  destruct (Number e0 =? cur); [|by eexists _, _].
  destruct (cache_same e0 e) eqn:E; by eexists _, _.
Qed.

Lemma take_take_app {A} n (a b : list A) : take n (take n a ++ b) = take n (a ++ b).
Proof.
  destruct (Nat.le_gt_cases (length a) n); [by rewrite (take_ge a)|].
  rewrite !take_app_le by (rewrite ?length_take; lia). rewrite take_take. f_equal. lia.
Qed.

(** Loading an empty cache appends the current epoch and its predecessors. *)
Lemma reload_empty g cur id ids c :
  fold_left (fun c id => updateEpochCache cur (readEpoch g id) false c) (id :: ids) c =
    take 10 (c ++ (readEpoch g <$> id :: ids)).
Proof.
  revert id c. induction ids as [|j ids IH]; intros id c.
  - cbn [fold_left]. unfold updateEpochCache. cbv zeta. by rewrite cap_take.
  - cbn [fold_left]. cbn [fold_left] in IH. rewrite IH.
    unfold updateEpochCache. cbv zeta. rewrite cap_take, take_take_app, <- app_assoc. done.
Qed.

Lemma previousIds_range n i cur id :
  0 <= i -> id ∈ previousIds n i cur -> 0 <= id <= cur - i.
Proof.
  revert i. induction n as [|n IH]; intros i Hi; cbn; [by intros ?%elem_of_nil|].
  destruct (Z.ltb_spec (cur - i) 0); [by intros ?%elem_of_nil|].
  intros [->|Hid]%elem_of_cons; [lia|]. apply IH in Hid; lia.
Qed.

Lemma reloadCache_spec g cur c :
  (length (reloadCache g cur c) <= 10)%nat /\
  (exists e0 rest, reloadCache g cur c = e0 :: rest /\ cache_same e0 (readEpoch g cur) = true) /\
  (forall x, x ∈ reloadCache g cur c ->
     x ∈ c \/ exists id, id <= cur /\ x = readEpoch g id).
Proof.
  assert (Hr : forall e, cache_same e e = true) by (intros; unfold cache_same; by rewrite !Z.eqb_refl).
  unfold reloadCache, epochIds. cbv zeta. destruct c as [|e0 rest].
  - rewrite reload_empty. cbn [app fmap list_fmap]. split; [rewrite length_take; lia|].
    split; [by eexists _, _|]. intros x Hx%subseteq_take. right.
    apply elem_of_cons in Hx as [->|Hx]; [exists cur; by split; [lia|]|].
    apply list_elem_of_fmap in Hx as (id & -> & Hid). apply previousIds_range in Hid; [|lia].
    exists id. split; [lia|done].
  - cbn [fold_left]. split; [apply updateEpochCache_length|].
    split; [apply updateEpochCache_head|].
    intros x [->|Hx]%updateEpochCache_elem; [right; exists cur; by split; [lia|]|by left].
Qed.

(** The cache after importing a sequence of blocks, each given by the contract
    storage it reads and the current epoch in it; newest first. *)
Inductive cache_after : list ((hash -> hash) * Z) -> list Epoch -> Prop :=
  | ca_start : cache_after [] []
  | ca_block hist c g cur :
      cache_after hist c -> cache_after ((g, cur) :: hist) (reloadCache g cur c).

(** the epoch cache, over any sequence of imported blocks, never exceeds ten
    epochs, holds only epochs the contract storage held at some imported block
    (under an id up to the epoch then current), and its first entry is the current
    epoch of the newest block. *)
Theorem epochCache_history (hist : list ((hash -> hash) * Z)) (c : list Epoch) :
  cache_after hist c ->
  (length c <= 10)%nat /\
  (forall e, e ∈ c -> exists g cur id, (g, cur) ∈ hist /\ id <= cur /\ e = readEpoch g id) /\
  match hist with
  | [] => c = []
  | (g, cur) :: _ => exists e0 rest, c = e0 :: rest /\ cache_same e0 (readEpoch g cur) = true
  end.
Proof.
  induction 1 as [|hist c g cur Hc (IHl & IHe & _)].
  - split; [cbn; lia|]. split; [by intros e ?%elem_of_nil|done].
  - destruct (reloadCache_spec g cur c) as (Hl & Hh & He). split; [done|]. split; [|done].
    intros e [Hin|(id & Hid & ->)]%He.
    + destruct (IHe e Hin) as (g' & cur' & id & ? & ? & ->). exists g', cur', id.
      split; [by apply elem_of_cons; right|done].
    + exists g, cur, id. split; [apply elem_of_cons; by left|done].
Qed.

(** A block that is neither a lone deposit nor a lone recommit. *)
Definition ordinary_block (seqsetAddr : address) (txs : list Transaction) : Prop :=
  single_tx_check seqsetAddr txs = SContinue.

End CacheFacts.

Lemma epochCache_history_witness :
  let c := reloadCache (crypto:=sample_crypto) (fun h => h mod 7) 3 [] in
  length c = 4%nat /\ (length c <= 10)%nat.
Proof.
  split; [vm_compute; reflexivity|].
  apply (epochCache_history (crypto:=sample_crypto) [(fun h => h mod 7, 3)]).
  apply ca_block, ca_start.
Defined.

Definition signed_tx : Transaction :=
  SetSeqSign {| sR := Some 11; sS := Some 12; sV := Some 0 |} sample_tx.
Definition mainnet_config : ChainConfig :=
  mkConfig (Some 1088) (Some 0) None false (Some 0) (Some 0) (Some 0) (Some 0) (Some 0) (Some 0)
    (Some 0) (Some 0) (Some 3380000) None None.

