(* ===== verification/Fees.v ===== *)
(** Rollup fees (rollup/fees/rollup_fee.go) and the cached gas price oracle
    (eth/gasprice/rollup_gasprice.go).

    A finite [big.Float] is a pair of mantissa and binary exponent with its
    precision; [float64] values are such pairs too.  Rounding is to nearest, ties
    to even, the mode of the zero [big.Float] and of the hardware. *)
From stdpp Require Import prelude list strings.
From Stdlib Require Import ZArith Lia.
From S2P Require Import Prelude VarBytes TxMeta RLP RLPStream RLPStreamFacts RLPDecode Crypto Transaction.
Local Open Scope Z_scope.

(** ** Floating point *)

Record dyadic := mkDyadic { mant : Z; dexp : Z }.
Record bigFloat := mkFloat { fval : dyadic; fprec : Z }.

(** [|m| / 2^s] rounded to nearest, ties to even, with the sign of [m]. *)
Definition rne (m s : Z) : Z :=
  let a := Z.abs m in
  let q := a / 2 ^ s in
  let r := a mod 2 ^ s in
  let up := if 2 ^ s <? 2 * r then true
            else if 2 * r <? 2 ^ s then false else Z.odd q in
  Z.sgn m * (if up then q + 1 else q).

(** A value rounded to a multiple of [2^q]. *)
Definition round_at (x : dyadic) (q : Z) : dyadic :=
  if q <=? dexp x then x else mkDyadic (rne (mant x) (q - dexp x)) q.

(** Rounding to [p] bits. *)
Definition round_prec (p : Z) (x : dyadic) : dyadic :=
  round_at x (dexp x + BitLen (mant x) - p).

(** [Float64]: 53 bits, fewer below the normal range; values beyond the largest
    [float64] are left as they are. *)
Definition to_float64 (x : dyadic) : dyadic :=
  round_at x (Z.max (dexp x + BitLen (mant x) - 53) (-1074)).

(** [math.Ceil] of a [float64], as an integer. *)
Definition dyadic_ceil (x : dyadic) : Z :=
  if 0 <=? dexp x then mant x * 2 ^ dexp x else - ((- mant x) / 2 ^ (- dexp x)).

Definition float_SetInt (z : Z) : bigFloat := mkFloat (mkDyadic z 0) (Z.max (BitLen z) 64).

(** [Quo] for a non-zero divisor: the quotient computed with enough bits and a
    sticky bit, then rounded to the larger precision. *)
Definition float_Quo (x y : bigFloat) : bigFloat :=
  let p := Z.max (fprec x) (fprec y) in
  let mx := mant (fval x) in
  let my := mant (fval y) in
  let k := Z.max 0 (BitLen my - BitLen mx + p + 2) in
  let num := Z.abs mx * 2 ^ k in
  let q := num / Z.abs my in
  let sticky := if num mod Z.abs my =? 0 then 0 else 1 in
  let m := Z.sgn mx * Z.sgn my * (2 * q + sticky) in
  mkFloat (round_prec p (mkDyadic m (dexp (fval x) - dexp (fval y) - k - 1))) p.

Definition mulDyadic (x y : dyadic) : dyadic := mkDyadic (mant x * mant y) (dexp x + dexp y).

Section Fees.
(** The platform's conversion of a [float64] outside the range of [uint64]. *)
Variable uint64_out_of_range : Z -> Z.

Definition float_to_uint64 (ceiled : Z) : Z :=
  if (0 <=? ceiled) && (ceiled <? 2 ^ 64) then ceiled else uint64_out_of_range ceiled.

(** [mulByFloat]: the integer is cut to 64 bits first, the product rounded to 64
    bits and then to [float64]. *)
Definition mulByFloat (num : Z) (float : bigFloat) : Z :=
  let n := mkDyadic (big_uint64 num) 0 in
  let product := round_prec 64 (mulDyadic n (fval float)) in
  let pfloat := to_float64 product in
  float_to_uint64 (dyadic_ceil pfloat).

(** [big10 ** decimals] *)
Definition ScaleDecimals (scalar decimals : Z) : bigFloat :=
  float_Quo (float_SetInt scalar) (float_SetInt (10 ^ decimals)).

(** ** L1 gas *)

Definition TxDataZeroGas : Z := 4.
Definition TxDataNonZeroGasEIP2028 : Z := 16.

Definition zeroesAndOnes (data : bytes) : Z * Z :=
  fold_left (fun '(zeroes, ones) byt =>
    if b2z byt =? 0 then (u64 (zeroes + 1), ones) else (zeroes, u64 (ones + 1))) data (0, 0).

Definition CalculateL1GasUsed (data : bytes) (overhead : Z) : Z :=
  let '(zeroes, ones) := zeroesAndOnes data in
  let zeroesGas := u64 (zeroes * TxDataZeroGas) in
  let onesGas := u64 (u64 (ones + 68) * TxDataNonZeroGasEIP2028) in
  u64 (zeroesGas + onesGas) + overhead.

Definition EstimateGasOverhead : Z := 3 * TxDataZeroGas + 4 * TxDataNonZeroGasEIP2028.

Definition CalculateL1Fee (data : bytes) (overhead l1GasPrice : Z) (scalar : bigFloat) : Z :=
  let l1GasUsed := CalculateL1GasUsed data overhead in
  mulByFloat (l1GasUsed * l1GasPrice) scalar.

(** ** Transactions and messages *)

Definition errTransactionSigned := ErrVar "errTransactionSigned" "transaction is signed".

Definition rlpEncode (tx : Transaction) : outcome bytes :=
  (b ← encoded (tx_item tx);
   if negb (dR (data tx) =? 0) || negb (dV (data tx) =? 0) || negb (dS (data tx) =? 0)
   then Err errTransactionSigned
   else Ok (take (length b - 3) b))%stdpp.

Definition asTransaction (msg : Message) : Transaction :=
  match m_to msg with
  | None => NewContractCreation (m_nonce msg) (Some (m_amount msg)) (m_gasLimit msg)
              (Some (m_gasPrice msg)) (m_data msg)
  | Some to => NewTransaction (m_nonce msg) to (Some (m_amount msg)) (m_gasLimit msg)
              (Some (m_gasPrice msg)) (m_data msg)
  end.

Definition copyTransaction (tx : Transaction) : Transaction :=
  let d := data tx in
  match Recipient d with
  | None => NewContractCreation (AccountNonce d) (Some (Amount d)) (GasLimit d) (Some (Price d)) (Payload d)
  | Some to => NewTransaction (AccountNonce d) to (Some (Amount d)) (GasLimit d) (Some (Price d)) (Payload d)
  end.

(** Storage slots of the gas price oracle contract (rollup/rcfg/config.go). *)
Definition L2GasPriceOracleOwnerSlot : hash := 0.
Definition L2GasPriceSlot : hash := 1.
Definition L1GasPriceSlot : hash := 2.
Definition OverheadSlot : hash := 3.
Definition ScalarSlot : hash := 4.
Definition DecimalsSlot : hash := 5.
Definition L2GasPriceOracleAddress : address := 0x420000000000000000000000000000000000000F.

Definition StateDB : Type := address -> hash -> hash.

Definition readGPOStorageSlots (addr : address) (state : StateDB) : Z * Z * bigFloat :=
  let scaled := ScaleDecimals (state addr ScalarSlot) (state addr DecimalsSlot) in
  (state addr L1GasPriceSlot, state addr OverheadSlot, scaled).

Definition CalculateL1MsgFee (msg : Message) (state : StateDB) (gpo : option address) : outcome Z :=
  (raw ← rlpEncode (asTransaction msg);
   let gpo := default L2GasPriceOracleAddress gpo in
   let '(l1GasPrice, overhead, scalar) := readGPOStorageSlots gpo state in
   Ok (CalculateL1Fee raw overhead l1GasPrice scalar))%stdpp.

Definition CalculateTotalMsgFee (msg : Message) (state : StateDB) (gasUsed : Z)
    (gpo : option address) : outcome Z :=
  let gpo := default L2GasPriceOracleAddress gpo in
  (l1Fee ← CalculateL1MsgFee msg state (Some gpo);
   Ok (l1Fee + m_gasPrice msg * gasUsed))%stdpp.

(** [new(big.Float).SetFloat64(1.05)]: the nearest [float64], 53 bits. *)
Definition float_1_05 : bigFloat := mkFloat (mkDyadic 4728779608739021 (-52)) 53.

(** [big.Int.Div] panics on a zero divisor and is Euclidean. *)
Definition big_Div (x y : Z) : outcome Z :=
  if y =? 0 then Panic "division by zero"
  else Ok (Z.sgn y * (x / Z.abs y)).

Definition CalculateL1MsgFeeInL2 (msg : Message) (state : StateDB) (gpo : option address)
    (isEstimate : bool) : outcome Z :=
  (raw ← rlpEncode (asTransaction msg);
   let gpo := default L2GasPriceOracleAddress gpo in
   let '(l1GasPrice, overhead, scalar) := readGPOStorageSlots gpo state in
   let l1Fee := CalculateL1Fee raw overhead l1GasPrice scalar in
   let extra := if isEstimate then mulByFloat (EstimateGasOverhead * l1GasPrice) scalar else 0 in
   q ← (if negb (m_gasPrice msg =? 0) then big_Div (l1Fee + extra) (m_gasPrice msg)
        else big_Div (l1Fee + extra) (state L2GasPriceOracleAddress L2GasPriceSlot));
   let l1FeeInL2 := big_uint64 q in
   Ok (if isEstimate then big_uint64 (mulByFloat l1FeeInL2 float_1_05) else l1FeeInL2))%stdpp.

Definition DeriveL1GasInfo (msg : Message) (state : StateDB) : outcome (Z * Z * Z * bigFloat) :=
  (raw ← rlpEncode (asTransaction msg);
   let '(l1GasPrice, overhead, scalar) := readGPOStorageSlots L2GasPriceOracleAddress state in
   let l1GasUsed := CalculateL1GasUsed raw overhead in
   let l1Fee := CalculateL1Fee raw overhead l1GasPrice scalar in
   Ok (l1Fee, l1GasPrice, l1GasUsed, scalar))%stdpp.

(** ** The cached oracle *)

Record RollupOracle := mkOracle {
  l1GasPrice : Z; l2GasPrice : Z; overhead : Z; scalar : bigFloat }.

Definition NewRollupOracle : RollupOracle := mkOracle 0 0 0 (mkFloat (mkDyadic 0 0) 0).
Definition SetL1GasPrice (v : Z) (g : RollupOracle) := mkOracle v (l2GasPrice g) (overhead g) (scalar g).
Definition SetL2GasPrice (v : Z) (g : RollupOracle) := mkOracle (l1GasPrice g) v (overhead g) (scalar g).
Definition SetOverhead (v : Z) (g : RollupOracle) := mkOracle (l1GasPrice g) (l2GasPrice g) v (scalar g).
Definition SetScalar (sc decimals : Z) (g : RollupOracle) :=
  mkOracle (l1GasPrice g) (l2GasPrice g) (overhead g) (ScaleDecimals sc decimals).

Definition CalculateTotalFee (tx : Transaction) (gpo : RollupOracle) : outcome Z :=
  (raw ← rlpEncode (copyTransaction tx);
   let l1Fee := CalculateL1Fee raw (overhead gpo) (l1GasPrice gpo) (scalar gpo) in
   Ok (l1Fee + Price (data tx) * GasLimit (data tx)))%stdpp.

(** ** Acceptable gas prices *)

Definition ErrGasPriceTooLow := ErrVar "ErrGasPriceTooLow" "gas price too low".
Definition ErrGasPriceTooHigh := ErrVar "ErrGasPriceTooHigh" "gas price too high".
Definition errMissingInput := ErrVar "errMissingInput" "missing input".

Record PaysEnoughOpts := {
  UserGasPrice : option Z; ExpectedGasPrice : option Z;
  ThresholdUp : option bigFloat; ThresholdDown : option bigFloat }.

Definition PaysEnough (opts : PaysEnoughOpts) : option goerror :=
  match UserGasPrice opts, ExpectedGasPrice opts with
  | None, _ => Some (ErrWith errMissingInput "no user fee")
  | _, None => Some (ErrWith errMissingInput "no expected fee")
  | Some user, Some expected =>
      let fee := match ThresholdDown opts with
                 | Some f => mulByFloat expected f
                 | None => expected
                 end in
      if user <? fee then Some ErrGasPriceTooLow
      else match ThresholdUp opts with
           | Some f => if mulByFloat expected f <? user - expected then Some ErrGasPriceTooHigh else None
           | None => None
           end
  end.
End Fees.

(** ** Facts *)

Section FeeFacts.
Variable oob : Z -> Z.

(** *** L1 gas *)

Definition zero_byte (b : Byte.byte) : bool := b2z b =? 0.
Definition count_zeroes (data : bytes) : Z := Z.of_nat (length (filter (fun b => zero_byte b = true) data)).
Definition count_ones (data : bytes) : Z := Z.of_nat (length (filter (fun b => zero_byte b = false) data)).

Lemma counts_cons b data :
  count_zeroes (b :: data) = count_zeroes data + (if zero_byte b then 1 else 0) /\
  count_ones (b :: data) = count_ones data + (if zero_byte b then 0 else 1).
Proof.
  unfold count_zeroes, count_ones. rewrite !filter_cons. destruct (zero_byte b);
    repeat case_decide; try done; cbn [length]; lia.
Qed.

Lemma counts_length data : count_zeroes data + count_ones data = Z.of_nat (length data).
Proof.
  induction data as [|b data IH]; [done|]. destruct (counts_cons b data) as [-> ->].
  cbn [length]. destruct (zero_byte b); lia.
Qed.

Lemma zeroesAndOnes_from data : forall z o,
  0 <= z -> 0 <= o -> z + o + Z.of_nat (length data) < 2 ^ 64 ->
  fold_left (fun '(zeroes, ones) byt =>
    if b2z byt =? 0 then (u64 (zeroes + 1), ones) else (zeroes, u64 (ones + 1))) data (z, o) =
  (z + count_zeroes data, o + count_ones data).
Proof.
  induction data as [|b data IH]; intros z o Hz Ho Hl; [by rewrite !Z.add_0_r|].
  cbn [fold_left length] in *. destruct (counts_cons b data) as [-> ->]. unfold zero_byte.
  destruct (b2z b =? 0); rewrite u64_small by (unfold in_u64; lia);
    rewrite IH by lia; f_equal; lia.
Qed.

Lemma CalculateL1GasUsed_eq data ov :
  Z.of_nat (length data) < 2 ^ 58 ->
  CalculateL1GasUsed data ov = 4 * count_zeroes data + 16 * (count_ones data + 68) + ov.
Proof.
  intros Hl. pose proof (counts_length data) as Hc. unfold CalculateL1GasUsed, zeroesAndOnes.
  assert (0 <= count_zeroes data) by (unfold count_zeroes; lia).
  assert (0 <= count_ones data) by (unfold count_ones; lia).
  rewrite zeroesAndOnes_from by lia. rewrite !Z.add_0_l.
  unfold TxDataZeroGas, TxDataNonZeroGasEIP2028.
  rewrite (u64_small (count_ones data + 68)) by (unfold in_u64; lia).
  rewrite (u64_small (count_zeroes data * 4)) by (unfold in_u64; lia).
  rewrite (u64_small ((count_ones data + 68) * 16)) by (unfold in_u64; lia).
  rewrite u64_small by (unfold in_u64; lia). lia.
Qed.

Lemma counts_app d1 d2 :
  count_zeroes (d1 ++ d2) = count_zeroes d1 + count_zeroes d2 /\
  count_ones (d1 ++ d2) = count_ones d1 + count_ones d2.
Proof. unfold count_zeroes, count_ones. rewrite !filter_app, !length_app. lia. Qed.

(** the L1 gas of a batch entry, for any data a slice can hold: 4 per zero
    byte, 16 per non-zero byte and per byte of the signature allowance, plus the
    overhead, without wrap-around; so it lies between 4 and 16 per byte plus the
    fixed part, and appending data never lowers it. *)
Theorem L1GasUsed_correct (data more : bytes) (ov : Z) :
  Z.of_nat (length (data ++ more)) < 2 ^ 58 ->
  CalculateL1GasUsed data ov = 4 * count_zeroes data + 16 * (count_ones data + 68) + ov /\
  4 * Z.of_nat (length data) + 1088 + ov <= CalculateL1GasUsed data ov
    <= 16 * Z.of_nat (length data) + 1088 + ov /\
  CalculateL1GasUsed data ov + 4 * Z.of_nat (length more) <= CalculateL1GasUsed (data ++ more) ov.
Proof.
  intros Hl. pose proof (counts_length data). pose proof (counts_length more).
  pose proof (counts_app data more) as [Hz Ho].
  assert (0 <= count_zeroes data /\ 0 <= count_ones data /\ 0 <= count_zeroes more /\ 0 <= count_ones more)
    by (unfold count_zeroes, count_ones; lia).
  rewrite length_app in Hl.
  rewrite !CalculateL1GasUsed_eq by (rewrite ?length_app; lia). rewrite Hz, Ho. lia.
Qed.

Lemma L1GasUsed_correct_witness :
  Z.of_nat (length ([Byte.x00; Byte.x01] ++ [Byte.x02])) < 2 ^ 58 /\
  CalculateL1GasUsed [Byte.x00; Byte.x01] 2100 = 4 * 1 + 16 * (1 + 68) + 2100.
Proof.
  assert (H : Z.of_nat (length ([Byte.x00; Byte.x01] ++ [Byte.x02])) < 2 ^ 58) by (cbn; lia).
  split; [exact H|]. exact (proj1 (L1GasUsed_correct [Byte.x00; Byte.x01] [Byte.x02] 2100 H)).
Defined.

(** *** The charged bytes *)

(** The data of a transaction with its signature removed. *)
Definition unsigned (d : txdata) : txdata :=
  mkTxdata (AccountNonce d) (Price d) (GasLimit d) (Recipient d) (Amount d) (Payload d) 0 0 0.

Lemma copyTransaction_data tx : data (copyTransaction tx) = unsigned (data tx).
Proof. unfold copyTransaction. by destruct (data tx) as [? ? ? [] ? ? ? ? ?]. Qed.
Lemma copyTransaction_meta tx :
  meta (copyTransaction tx) = NewTransactionMeta None 0 None QueueOriginSequencer None None None /\
  l2tx (copyTransaction tx) = 0.
Proof. unfold copyTransaction. by destruct (data tx) as [? ? ? [] ? ? ? ? ?]. Qed.

Definition x80s (n : nat) : bytes := replicate n Byte.x80.

Lemma puthead_length_le n sm lg : in_u64 n -> (1 <= length (puthead sm lg n) <= 9)%nat.
Proof.
  intros Hn. pose proof (length_puthead sm lg n Hn) as H. unfold headsize in H.
  rewrite intsize_putint in H by done. pose proof (putint_length n Hn).
  destruct (n <? 56); lia.
Qed.

(** The encodings of data with a zero signature and of empty metadata. *)
Definition unsigned_enc (d : txdata) : bytes :=
  puthead 0xC0 0xF7 (Z.of_nat (length (rlp_encs (six_items d)) + 3)) ++ rlp_encs (six_items d) ++ x80s 3.

Lemma unsigned_item d : wf_txdata d ->
  txdata_item (unsigned d) = Ok (Lst (six_items d ++ [Str []; Str []; Str []])) /\
  rlp_enc (Lst (six_items d ++ [Str []; Str []; Str []])) = unsigned_enc d.
Proof.
  intros [Hn Hg Hp Ha Ht Hv Hr Hs]. split.
  - by rewrite txdata_item_wf by (constructor; cbn; done).
  - by rewrite rlp_enc_Lst, rlp_encs_app, length_app.
Qed.

(** which bytes the L1 fee is charged for.  The encoder writes data and
    metadata, so the three bytes cut at the end are not the zero signature, as
    the comment has it, but the last three fields of the empty metadata: what is
    charged is a list header, the encoded data with its three signature bytes,
    and five bytes of metadata. *)
Theorem rlpEncode_charged_bytes (tx : Transaction) :
  wf_txdata (data tx) -> Z.of_nat (length (rlp_encs (six_items (data tx)))) < 2 ^ 32 ->
  encoded (txdata_item (data (copyTransaction tx))) = Ok (unsigned_enc (data tx)) /\
  rlpEncode (copyTransaction tx) =
    Ok (puthead 0xC0 0xF7 (Z.of_nat (length (unsigned_enc (data tx)) + 8)) ++
        unsigned_enc (data tx) ++ Byte.xc7 :: x80s 4).
Proof.
  intros Hw Hl. destruct (unsigned_item (data tx) Hw) as [Hi He].
  destruct (copyTransaction_meta tx) as [Hm Hl2].
  set (d := Lst (six_items (data tx) ++ [Str []; Str []; Str []])) in *.
  set (m := Lst [Str []; Str []; Str []; Str []; Str []; Str []; Str []]).
  assert (Ht : tx_item (copyTransaction tx) = Ok (Lst [d; m])).
  { unfold tx_item. rewrite Hl2, copyTransaction_data, Hi, Hm. done. }
  assert (Hs : (length (unsigned_enc (data tx)) <= length (rlp_encs (six_items (data tx))) + 12)%nat).
  { unfold unsigned_enc. rewrite !length_app. cbn [length x80s replicate].
    pose proof (puthead_length_le (Z.of_nat (length (rlp_encs (six_items (data tx))) + 3)) 0xC0 0xF7
      ltac:(unfold in_u64; lia)). lia. }
  assert (Hp : rlp_encs [d; m] = unsigned_enc (data tx) ++ Byte.xc7 :: x80s 7).
  { rewrite rlp_encs_cons, He. done. }
  assert (Hf : rlp_enc (Lst [d; m]) = puthead 0xC0 0xF7 (Z.of_nat (length (unsigned_enc (data tx)) + 8)) ++
    (unsigned_enc (data tx) ++ Byte.xc7 :: x80s 4) ++ x80s 3).
  { rewrite rlp_enc_Lst, Hp, length_app, <- app_assoc. done. }
  pose proof (puthead_length_le (Z.of_nat (length (unsigned_enc (data tx)) + 8)) 0xC0 0xF7
    ltac:(unfold in_u64; lia)) as Hh.
  split.
  - rewrite copyTransaction_data, Hi. unfold encoded. cbn [mbind outcome_bind].
    rewrite EncodeToBytes_rlp_enc by (unfold fits; rewrite He; lia). by rewrite He.
  - unfold rlpEncode, encoded. rewrite Ht. cbn [mbind outcome_bind].
    rewrite EncodeToBytes_rlp_enc.
    2:{ unfold fits. rewrite Hf, !length_app. cbn [length x80s replicate]. lia. }
    rewrite copyTransaction_data. cbn [unsigned dR dV dS Z.eqb negb orb]. f_equal.
    rewrite Hf, app_assoc. apply take_app_length'. rewrite (length_app _ (x80s 3)). cbn [length x80s replicate]. lia.
Qed.

Lemma rlpEncode_charged_bytes_witness :
  wf_txdata (data sample_tx) /\
  rlpEncode (copyTransaction sample_tx) =
    Ok (puthead 0xC0 0xF7 (Z.of_nat (length (unsigned_enc (data sample_tx)) + 8)) ++
        unsigned_enc (data sample_tx) ++ Byte.xc7 :: x80s 4).
Proof.
  split; [apply sample_tx_wf|].
  apply (rlpEncode_charged_bytes sample_tx); [apply sample_tx_wf|vm_compute; reflexivity].
Defined.

(** *** Scaling by a float *)

(** The product fits the 53 bits of a [float64], so no rounding happens. *)
Record exact_product (n : Z) (f : bigFloat) : Prop := {
  ep_n : in_u64 n;
  ep_bits : BitLen (n * mant (fval f)) <= 53;
  ep_exp : -1074 <= dexp (fval f);
  ep_range : in_u64 (dyadic_ceil (mkDyadic (n * mant (fval f)) (dexp (fval f)))) }.

Lemma round_at_exact x q : q <= dexp x -> round_at x q = x.
Proof. intros H. unfold round_at. by destruct (Z.leb_spec q (dexp x)); [|lia]. Qed.

Lemma mulByFloat_exact n f : exact_product n f ->
  mulByFloat oob n f = dyadic_ceil (mkDyadic (n * mant (fval f)) (dexp (fval f))).
Proof.
  intros [Hn Hb He [Hr1 Hr2]]. unfold mulByFloat. cbv zeta.
  assert (Hu : big_uint64 n = n) by (unfold big_uint64, in_u64 in *; rewrite Z.abs_eq by lia; by apply u64_small).
  rewrite Hu. unfold mulDyadic. cbn [mant dexp]. rewrite Z.add_0_l.
  unfold round_prec. rewrite round_at_exact by (cbn [dexp mant]; lia).
  unfold to_float64. rewrite round_at_exact by (cbn [dexp mant]; lia).
  unfold float_to_uint64.
  destruct (Z.leb_spec 0 (dyadic_ceil (mkDyadic (n * mant (fval f)) (dexp (fval f))))); [|lia].
  destruct (Z.ltb_spec (dyadic_ceil (mkDyadic (n * mant (fval f)) (dexp (fval f)))) (2 ^ 64)); [done|lia].
Qed.

(** [dyadic_ceil] is the least integer not below the value: for a negative
    exponent [-k], [2^k * (c - 1) < m <= 2^k * c]. *)
Lemma dyadic_ceil_spec m k : 0 < k ->
  2 ^ k * (dyadic_ceil (mkDyadic m (- k)) - 1) < m <= 2 ^ k * dyadic_ceil (mkDyadic m (- k)).
Proof.
  intros Hk. unfold dyadic_ceil. cbn [mant dexp]. destruct (Z.leb_spec 0 (- k)); [lia|].
  rewrite Z.opp_involutive. pose proof (Z.pow_pos_nonneg 2 k ltac:(lia) ltac:(lia)).
  pose proof (Z.div_mod (- m) (2 ^ k) ltac:(lia)). pose proof (Z.mod_pos_bound (- m) (2 ^ k) ltac:(lia)). nia.
Qed.

(** The bounds a user's price is held to. *)
Definition down_bound (expected : Z) (f : option bigFloat) : Z :=
  match f with
  | Some f => dyadic_ceil (mkDyadic (expected * mant (fval f)) (dexp (fval f)))
  | None => expected
  end.

(** a gas price is accepted exactly when it is at least the expected price
    scaled down and exceeds the expected price by at most that price scaled up
    (no upper bound without an upper threshold); too low and too high are told
    apart, and a missing input is its own error.  The thresholds are ones whose
    products with the expected price a [float64] represents exactly. *)
Theorem PaysEnough_correct (user expected : Z) (up down : option bigFloat) :
  (forall f, up = Some f \/ down = Some f -> exact_product expected f) ->
  let r := PaysEnough oob {| UserGasPrice := Some user; ExpectedGasPrice := Some expected;
                             ThresholdUp := up; ThresholdDown := down |} in
  let high := match up with Some _ => expected + down_bound expected up | None => user end in
  (r = None <-> down_bound expected down <= user <= high) /\
  (r = Some ErrGasPriceTooLow <-> user < down_bound expected down) /\
  (r = Some ErrGasPriceTooHigh <-> down_bound expected down <= user /\ high < user).
Proof.
  intros Hx. cbv zeta. unfold PaysEnough. cbn [UserGasPrice ExpectedGasPrice ThresholdUp ThresholdDown].
  assert (Hd : match down with Some f => mulByFloat oob expected f | None => expected end =
    down_bound expected down).
  { destruct down as [f|]; [|done]. apply mulByFloat_exact, Hx. by right. }
  rewrite Hd. destruct (Z.ltb_spec user (down_bound expected down)) as [Hlt|Hge].
  - repeat split; intros; try discriminate; try lia; done.
  - destruct up as [f|].
    + rewrite (mulByFloat_exact expected f) by (apply Hx; by left). cbn [down_bound].
      destruct (Z.ltb_spec (dyadic_ceil (mkDyadic (expected * mant (fval f)) (dexp (fval f)))) (user - expected));
        repeat split; intros; try discriminate; try lia; done.
    + repeat split; intros; try discriminate; try lia; done.
Qed.

(** what scaling by a float does outside its exact range.  The multiplier 1
    does not preserve a fee: a fee needing more than 53 bits can come out lower
    than it was, although the result is documented to be rounded upwards, and a
    fee of [2^64] or more is scaled as its low 64 bits only. *)
Theorem mulByFloat_not_upwards :
  let one := float_SetInt 1 in
  mulByFloat oob (2 ^ 60 + 1) one = 2 ^ 60 /\
  (forall n f, 0 <= n -> mulByFloat oob n f = mulByFloat oob (n mod 2 ^ 64) f) /\
  CalculateL1Fee oob [] 0 (2 ^ 64) one = 0.
Proof.
  cbv zeta. split; [vm_compute; reflexivity|]. split; [|vm_compute; reflexivity].
  intros n f Hn. unfold mulByFloat, big_uint64, u64.
  rewrite (Z.abs_eq n), (Z.abs_eq (n mod _)), Z.mod_mod by (try apply Z.mod_pos_bound; lia). done.
Qed.
End FeeFacts.

Definition half : bigFloat := mkFloat (mkDyadic 1 (-1)) 53.
Definition three : bigFloat := mkFloat (mkDyadic 3 0) 53.

Lemma PaysEnough_correct_witness :
  PaysEnough (fun _ => 0) {| UserGasPrice := Some 3; ExpectedGasPrice := Some 5;
    ThresholdUp := Some three; ThresholdDown := Some half |} = None /\
  (PaysEnough (fun _ => 0) {| UserGasPrice := Some 3; ExpectedGasPrice := Some 5;
    ThresholdUp := Some three; ThresholdDown := Some half |} = None <->
   down_bound 5 (Some half) <= 3 <= 5 + down_bound 5 (Some three)).
Proof.
  split; [vm_compute; reflexivity|].
  apply (PaysEnough_correct (fun _ => 0) 3 5 (Some three) (Some half)).
  intros f [Hf|Hf]; injection Hf as <-; split; vm_compute; (reflexivity || (split; congruence) || congruence).
Defined.
