(* ===== verification/Transition.v ===== *)
(** Applying a message to the state (core/state_transition.go, core/gaspool.go).

    A transition buys gas for the sender, pays the intrinsic gas and the L1 fee, runs a
    call or a creation in the virtual machine, refunds what is left and pays the
    coinbase.  An error of the source is thrown: what has been done by then stays
    done, and the caller goes back to a snapshot.  Tracing and logging are left out. *)
From stdpp Require Import prelude gmap list strings.
From Stdlib Require Import ZArith Lia.
From S2P Require Import Prelude Params VarBytes TxMeta RLP RLPStream RLPStreamFacts RLPDecode Crypto Transaction Fees StateData VMWord VMAnalysis VMState VMPrecompiles VMCall.
Local Open Scope Z_scope.

(** ** core/gaspool.go *)

Definition ErrGasLimitReached := ErrVar "ErrGasLimitReached" "gas limit reached".

Definition gp_AddGas (amount gp : Z) : outcome Z :=
  if MaxUint64 - amount <? gp then Panic "gas pool pushed above uint64" else Ok (gp + amount).
Definition gp_SubGas (amount gp : Z) : goerror + Z :=
  if gp <? amount then inl ErrGasLimitReached else inr (gp - amount).

(** ** core/state_transition.go *)

Definition TxGas : Z := 21000.
Definition TxGasContractCreation : Z := 53000.
Definition TxDataNonZeroGasFrontier : Z := 68.
Definition Sha256PerWordGas : Z := 12.

Definition errInsufficientBalanceForGas := ErrVar "errInsufficientBalanceForGas" "insufficient balance to pay for gas".
Definition ErrNonceTooHigh := ErrVar "ErrNonceTooHigh" "nonce too high".
Definition ErrNonceTooLow := ErrVar "ErrNonceTooLow" "nonce too low".

Definition nonzero_bytes (data : bytes) : Z := Z.of_nat (length (filter (fun b => b2z b <> 0) data)).

Definition IntrinsicGas (data : bytes) (contractCreation isHomestead isEIP2028 : bool) : goerror + Z :=
  let gas := if contractCreation && isHomestead then TxGasContractCreation else TxGas in
  if (length data =? 0)%nat then inr gas
  else
    let nz := nonzero_bytes data in
    let nonZeroGas := if isEIP2028 then TxDataNonZeroGasEIP2028 else TxDataNonZeroGasFrontier in
    if (MaxUint64 - gas) / nonZeroGas <? nz then inl ErrOutOfGas
    else
      let gas := u64 (gas + u64 (nz * nonZeroGas)) in
      let z := u64 (Z.of_nat (length data) - nz) in
      if (MaxUint64 - gas) / TxDataZeroGas <? z then inl ErrOutOfGas
      else inr (u64 (gas + u64 (z * TxDataZeroGas))).

Section transition.
Context {crypto : Crypto} {natives : Natives} {S : Type} {database : Database S}.
(** [uint64_out_of_range] is the platform's conversion that the fee functions use. *)
Context (uint64_out_of_range : Z -> Z) (env : Env) (rcfg_ChainID : Z) (msg : Message) (accessList : list (address * list hash)).
Local Abbreviation EVM := (EVM S).
Local Abbreviation runner := (Contract -> slice -> bool -> M EVM (slice * option goerror * Contract)) (only parsing).
Context (Run : runner).

Local Abbreviation blockNumber := (Some (BlockNumber (context env))) (only parsing).
Local Abbreviation isSequencer := (m_queueOrigin msg =? QueueOriginSequencer) (only parsing).

(** The slots of the gas price oracle that [readGPOStorageSlots] reads. *)
Definition read_gpo : M EVM Fees.StateDB :=
  l1GasPrice ← db (GetState L2GasPriceOracleAddress L1GasPriceSlot);
  overhead ← db (GetState L2GasPriceOracleAddress OverheadSlot);
  scalar ← db (GetState L2GasPriceOracleAddress ScalarSlot);
  decimals ← db (GetState L2GasPriceOracleAddress DecimalsSlot);
  ret (fun _ k => if k =? L1GasPriceSlot then l1GasPrice else if k =? OverheadSlot then overhead
                  else if k =? ScalarSlot then scalar else if k =? DecimalsSlot then decimals else 0).

(** What the fee functions read of the oracle, which they do once the message is
    encoded. *)
Definition read_oracle : M EVM Fees.StateDB :=
  if match rlpEncode (asTransaction msg) with Ok _ => false | _ => true end then ret (fun _ _ => 0) else
  slots ← read_gpo;
  l2GasPrice ← (if m_gasPrice msg =? 0 then db (GetState L2GasPriceOracleAddress L2GasPriceSlot) else ret 0);
  ret (fun a k => if k =? L2GasPriceSlot then l2GasPrice else slots a k).

(** A result whose error is ignored. *)
Definition ignoring {A B} (default : B) (f : A -> B) (o : outcome A) : M EVM B :=
  match o with
  | Ok a => ret (f a)
  | Err _ => ret default
  | Panic w => gopanic w
  | Blocked => blocked
  end.

(** [NewStateTransition]: the L1 fee in units of gas, and in wei; the second is nil
    when it cannot be computed. *)
Definition NewStateTransition : M EVM (Z * option Z) :=
  if UsingOVM env then
    l1FeeInL2 ← (if isSequencer then
                   state ← read_oracle;
                   ignoring 0 id (CalculateL1MsgFeeInL2 uint64_out_of_range msg state None (negb (m_checkNonce msg)))
                 else ret 0);
    l1Fee ← (if negb (m_gasPrice msg =? 0) then
               state ← read_oracle;
               ignoring None Some (CalculateL1MsgFee uint64_out_of_range msg state None)
             else ret (Some 0));
    ret (l1FeeInL2, l1Fee)
  else ret (0, Some 0).

Context (l1FeeInL2 : Z) (l1Fee : option Z).

Record StateTransition := mkST { st_evm : EVM; st_gp : Z; st_gas : Z; st_initialGas : Z }.
Definition set_st_evm (v : EVM) (st : StateTransition) := mkST v (st_gp st) (st_gas st) (st_initialGas st).
Definition set_st_gp (v : Z) (st : StateTransition) := mkST (st_evm st) v (st_gas st) (st_initialGas st).
Definition set_st_gas (v : Z) (st : StateTransition) := mkST (st_evm st) (st_gp st) v (st_initialGas st).
Definition set_st_initialGas (v : Z) (st : StateTransition) := mkST (st_evm st) (st_gp st) (st_gas st) v.

Definition on_st {A} (m : M EVM A) : M StateTransition A := fun st => let '(o, e) := m (st_evm st) in (o, set_st_evm e st).
Definition state {A} (c : method A) : M StateTransition A := on_st (db c).

Definition to_ : address := default 0 (m_to msg).

(** [useGas]: the error, if there is one. *)
Definition useGas (amount : Z) : M StateTransition (option goerror) :=
  gas ← gets st_gas;
  if gas <? amount then ret (Some ErrOutOfGas) else modS (set_st_gas (gas - amount)) ;; ret None.
Definition useGas_ (amount : Z) : M StateTransition unit :=
  err ← useGas amount; match err with Some e => throw e | None => ret tt end.

Definition buyGas : M StateTransition unit :=
  let shanghai := IsShanghai (chainConfig env) blockNumber in
  let mgval := m_gasLimit msg * m_gasPrice msg in
  mgval ← (if UsingOVM env && shanghai && isSequencer then fee ← deref "nil l1Fee" l1Fee; ret (mgval + fee) else ret mgval);
  balance ← state (GetBalance (m_from msg));
  mgval ← (if balance <? mgval then
             if shanghai then throw errInsufficientBalanceForGas
             else if UsingOVM env then state (GetBalance (m_from msg))
             else throw errInsufficientBalanceForGas
           else ret mgval);
  gp ← gets st_gp;
  match gp_SubGas (m_gasLimit msg) gp with
  | inl err => throw err
  | inr gp =>
      modS (set_st_gp gp) ;;
      modS (fun st => set_st_gas (u64 (st_gas st + m_gasLimit msg)) st) ;;
      modS (set_st_initialGas (m_gasLimit msg)) ;;
      state (SubBalance (m_from msg) mgval)
  end.

Definition preCheck : M StateTransition unit :=
  if m_checkNonce msg then
    if UsingOVM env && (m_queueOrigin msg =? QueueOriginL1ToL2) then buyGas
    else
      nonce ← state (GetNonce (m_from msg));
      if nonce <? m_nonce msg then throw ErrNonceTooHigh
      else if m_nonce msg <? nonce then throw ErrNonceTooLow
      else buyGas
  else buyGas.

(** [SetNonce(msg.From(), GetNonce(msg.From())+1)] *)
Definition bumpNonce : M StateTransition unit :=
  nonce ← state (GetNonce (m_from msg)); state (SetNonce (m_from msg) (u64 (nonce + 1))).

(** The creation or the call of the message. *)
Definition enter_vm : M StateTransition (slice * option goerror) :=
  let sender := AccountRef (m_from msg) in
  match m_to msg with
  | None =>
      gas ← gets st_gas;
      '(r, _, gas, err) ← on_st (Create env Run sender (Some (m_data msg)) gas (m_amount msg));
      modS (set_st_gas gas) ;; ret (r, err)
  | Some _ =>
      bumpNonce ;;
      gas ← gets st_gas;
      '(r, gas, err) ← on_st (Call env Run sender to_ (Some (m_data msg)) gas (m_amount msg));
      modS (set_st_gas gas) ;; ret (r, err)
  end.

Definition gasUsed (st : StateTransition) : Z := u64 (st_initialGas st - st_gas st).

Definition refundGas : M StateTransition unit :=
  used ← gets gasUsed;
  let refund := used / 2 in
  counter ← state GetRefund;
  refund ← (if counter <? refund then state GetRefund else ret refund);
  modS (fun st => set_st_gas (u64 (st_gas st + refund)) st) ;;
  gas ← gets st_gas;
  state (AddBalance (m_from msg) (gas * m_gasPrice msg)) ;;
  gp ← gets st_gp;
  gp ← lift_out (gp_AddGas gas gp);
  modS (set_st_gp gp).

(** The part before Shanghai: the L1 fee is taken as gas before the machine runs. *)
Definition enter_with_l1_gas (number : Z) : M StateTransition (slice * option goerror) :=
  vmerr ← useGas l1FeeInL2;
  match vmerr with
  | Some err => bumpNonce ;; ret (None, Some err)
  | None =>
      if (0 <? m_amount msg) && negb (m_checkNonce msg) && (m_from msg =? 0) then
        vmerr ← useGas Sha256PerWordGas; ret (None, vmerr)
      else
        when ((rcfg_ChainID =? 1088) && ((number =? 3247675) || (number =? 3247681))) (useGas 100000 ;; ret tt) ;;
        enter_vm
  end.

(** What the coinbase gets. *)
Definition payCoinbase : M StateTransition unit :=
  used ← gets gasUsed;
  let l2Fee := used * m_gasPrice msg in
  if negb (IsShanghai (chainConfig env) blockNumber) then state (AddBalance (Coinbase (context env)) l2Fee)
  else if UsingOVM env then fee ← deref "nil l1Fee" l1Fee; state (AddBalance (Coinbase (context env)) (fee + l2Fee))
  else state (AddBalance (Coinbase (context env)) l2Fee).

Definition TransitionDbWithBlockNumber (number : Z) : M StateTransition (slice * Z * bool) :=
  preCheck ;;
  let config := chainConfig env in
  let contractCreation := match m_to msg with None => true | Some _ => false end in
  gas ← (match IntrinsicGas (m_data msg) contractCreation (IsHomestead config blockNumber) (IsIstanbul config blockNumber) with
         | inl err => throw err
         | inr gas => ret gas
         end);
  useGas_ gas ;;
  refused ← (if m_checkNonce msg && (0 <? m_amount msg)
             then ok ← on_st (CanTransfer (m_from msg) (m_amount msg)); ret (negb ok) else ret false);
  if refused : bool then throw ErrInsufficientBalance else
  when (r_IsBerlin (chainRules env)) (state (PrepareAccessList (m_from msg) (m_to msg) (ActivePrecompiles (chainRules env)) accessList)) ;;
  '(r, vmerr) ← (if negb (IsShanghai config blockNumber) then enter_with_l1_gas number else enter_vm);
  if bool_decide (vmerr = Some ErrInsufficientBalance) then throw ErrInsufficientBalance else
  refundGas ;;
  payCoinbase ;;
  used ← gets gasUsed;
  ret (r, used, match vmerr with None => false | Some _ => true end).
End transition.

Arguments StateTransition : clear implicits.

(** [ApplyMessageWithBlockNumber] *)
Definition ApplyMessageWithBlockNumber {crypto : Crypto} {natives : Natives} {S} {database : Database S} (uint64_out_of_range : Z -> Z) (env : Env) (rcfg_ChainID : Z)
    (msg : Message) (accessList : list (address * list hash)) Run (number : Z) : M (EVM S * Z) (slice * Z * bool) := fun '(e, gp) =>
  match NewStateTransition uint64_out_of_range env msg e with
  | (Ok (l1FeeInL2, l1Fee), e) =>
      let '(o, st) := TransitionDbWithBlockNumber env rcfg_ChainID msg accessList Run l1FeeInL2 l1Fee number (mkST e gp 0 0) in
      (o, (st_evm st, st_gp st))
  | (Err err, e) => (Err err, (e, gp))
  | (Panic w, e) => (Panic w, (e, gp))
  | (Blocked, e) => (Blocked, (e, gp))
  end.
