(* ===== verification/TransitionFacts.v ===== *)
(** What holds of the transition of the state by a message.

    Over any database that keeps the contract of VMLaws: a message that is applied takes
    from the gas pool of its block exactly the gas it used, never more than its limit and
    at least half of its intrinsic gas; a message that is refused before it has bought
    gas leaves the pool and the state as they were. *)
From stdpp Require Import prelude gmap list strings.
From Stdlib Require Import ZArith Lia.
From S2P Require Import Prelude Params VarBytes TxMeta RLP RLPStream RLPStreamFacts RLPDecode RLPTyped Crypto AccessList Transaction Fees StateData State StateFacts VMWord VMWordFacts VMAnalysis VMState VMPrecompiles VMCall VMOps VMTable VMRun VMDatabase VMLaws VMFrame VMPrecompileFacts VMCallFacts VMTableFacts VMRunFacts VMStateLaws VMStateMode VMFuel VMTheorems Transition.
Local Open Scope Z_scope.

(** ** The gas pool and the intrinsic gas *)

Definition byte_price (isEIP2028 : bool) (b : Byte.byte) : Z :=
  if b2z b =? 0 then TxDataZeroGas else if isEIP2028 then TxDataNonZeroGasEIP2028 else TxDataNonZeroGasFrontier.
Definition data_price (isEIP2028 : bool) (data : bytes) : Z := foldr (fun b g => byte_price isEIP2028 b + g) 0 data.
Definition base_price (contractCreation isHomestead : bool) : Z := if contractCreation && isHomestead then TxGasContractCreation else TxGas.

Lemma nonzero_bytes_bound data : 0 <= nonzero_bytes data <= Z.of_nat (length data).
Proof. unfold nonzero_bytes. pose proof (length_filter (fun b => b2z b <> 0) data). lia. Qed.

Lemma nonzero_bytes_cons b data : nonzero_bytes (b :: data) = (if b2z b =? 0 then 0 else 1) + nonzero_bytes data.
Proof.
  unfold nonzero_bytes. rewrite filter_cons. destruct (Z.eqb_spec (b2z b) 0) as [H|H]; [rewrite decide_False by tauto; lia|].
  rewrite decide_True by done. cbn [length]. lia.
Qed.

Lemma data_price_split isEIP2028 data : let nz := nonzero_bytes data in
  data_price isEIP2028 data = nz * (if isEIP2028 then TxDataNonZeroGasEIP2028 else TxDataNonZeroGasFrontier) + (Z.of_nat (length data) - nz) * TxDataZeroGas.
Proof.
  cbv zeta. induction data as [|b data IH]; [done|]. rewrite nonzero_bytes_cons. cbn [data_price foldr length]. unfold data_price in IH. rewrite IH.
  unfold byte_price, TxDataZeroGas, TxDataNonZeroGasEIP2028, TxDataNonZeroGasFrontier. destruct (b2z b =? 0), isEIP2028; lia.
Qed.

(** [IntrinsicGas] is the price of the kind of transaction and of each of its bytes,
    and an error exactly when that does not fit 64 bits. *)
Lemma IntrinsicGas_sum data c h i : Z.of_nat (length data) < 2 ^ 63 ->
  let total := base_price c h + data_price i data in
  IntrinsicGas data c h i = if total <=? MaxUint64 then inr total else inl ErrOutOfGas.
Proof.
  intros Hl. cbv zeta. unfold IntrinsicGas. fold (base_price c h). assert (Hb : 0 < base_price c h < 2 ^ 20) by (by destruct c, h).
  destruct data as [|b data]; [cbn [length Nat.eqb data_price foldr]; rewrite Z.add_0_r; destruct (Z.leb_spec (base_price c h) MaxUint64); [done|unfold MaxUint64 in *; lia]|].
  set (l := b :: data) in *. cbn [length Nat.eqb]. replace ((length l =? 0)%nat) with false by done. pose proof (nonzero_bytes_bound l) as Hn. rewrite data_price_split.
  set (price := if i then _ else _). assert (Hp : price = 16 \/ price = 68) by (unfold price; destruct i; tauto). clearbody l price. clear b data.
  set (g := base_price c h) in *. clearbody g. set (nz := nonzero_bytes l) in *. clearbody nz. unfold MaxUint64, TxDataZeroGas in *. set (n := Z.of_nat (length l)) in *. clearbody n.
  destruct (Z.ltb_spec ((2 ^ 64 - 1 - g) / price) nz) as [H1|H1].
  - destruct (Z.leb_spec (g + (nz * price + (n - nz) * 4)) (2 ^ 64 - 1)); [|done]. exfalso. destruct Hp as [-> | ->]; Z.to_euclidean_division_equations; lia.
  - assert (g + nz * price <= 2 ^ 64 - 1) as H2 by (destruct Hp as [-> | ->]; Z.to_euclidean_division_equations; lia). assert (0 <= nz * price) by (destruct Hp as [-> | ->]; lia).
    rewrite (u64_small (nz * price)), (u64_small (g + nz * price)), (u64_small (n - nz)) by (unfold in_u64; lia).
    destruct (Z.ltb_spec ((2 ^ 64 - 1 - (g + nz * price)) / 4) (n - nz)); destruct (Z.leb_spec (g + (nz * price + (n - nz) * 4)) (2 ^ 64 - 1)); [exfalso; Z.to_euclidean_division_equations; lia|done| |exfalso; Z.to_euclidean_division_equations; lia].
    rewrite !u64_small by (unfold in_u64; try rewrite u64_small by (unfold in_u64; lia); lia). f_equal. lia.
Qed.

(** ** Running a transition symbolically *)

Section transitions.
Context {crypto : Crypto} {natives : Natives} {S : Type} {database : Database S} {laws : DatabaseLaws S}.
Local Abbreviation EVM := (EVM S).
Local Abbreviation ST := (StateTransition S).
Context (Q : S -> S -> Prop) (mode : mode_ok false Q).
Local Abbreviation runner := (Contract -> slice -> bool -> M EVM (slice * option goerror * Contract)) (only parsing).

Context (env : Env) (rcfg_ChainID : Z) (msg : Message) (accessList : list (address * list hash)).
Context (Run : runner) (l1FeeInL2 : Z) (l1Fee : option Z) (n : Z).

(** What a caller sees to: the machine is configured, and the message fits. *)
Record message_ok : Prop := {
  mk_env : env_ok env;
  mk_run : runner_ok false Q n Run;
  mk_gas : 0 <= m_gasLimit msg < gas_limit;
  mk_fuel : m_gasLimit msg < n;
  mk_data : slice_ok (Some (m_data msg));
  mk_amount : in_word (m_amount msg) }.
Context (Hmsg : message_ok).

Definition transition_panics (w : string) (e : EVM) : Prop := panic_ok w e \/ (l1Fee = None /\ w = "nil l1Fee").

(** [R] is what holds when an error is returned. *)
Definition wpt {A} (R : goerror -> ST -> Prop) (m : M ST A) (st : ST) (P : A -> ST -> Prop) : Prop :=
  match m st with
  | (Ok a, st') => P a st'
  | (Err err, st') => R err st'
  | (Panic w, st') => transition_panics w (st_evm st')
  | (Blocked, _) => False
  end.

Section rules.
Context (R : goerror -> ST -> Prop).
Lemma wpt_bind {A B} (m : M ST A) (f : A -> M ST B) st P : wpt R m st (fun a st' => wpt R (f a) st' P) -> wpt R (bindM m f) st P.
Proof. unfold wpt, bindM. by destruct (m st) as [[a|x|w|] st']. Qed.
Lemma wpt_ret {A} (a : A) st (P : A -> ST -> Prop) : P a st -> wpt R (ret a) st P.
Proof. done. Qed.
Lemma wpt_gets {A} (f : ST -> A) st (P : A -> ST -> Prop) : P (f st) st -> wpt R (gets f) st P.
Proof. done. Qed.
Lemma wpt_modS f st (P : unit -> ST -> Prop) : P tt (f st) -> wpt R (modS f) st P.
Proof. done. Qed.
Lemma wpt_throw {A} err st (P : A -> ST -> Prop) : R err st -> wpt R (throw err) st P.
Proof. done. Qed.
Lemma wpt_mono {A} (m : M ST A) st (P P' : A -> ST -> Prop) : wpt R m st P -> (forall a st', P a st' -> P' a st') -> wpt R m st P'.
Proof. unfold wpt. destruct (m st) as [[a|x|w|] st']; eauto. Qed.
Lemma wpt_err {A} (R' : goerror -> ST -> Prop) (m : M ST A) st P : wpt R' m st P -> (forall err st', R' err st' -> R err st') -> wpt R m st P.
Proof. unfold wpt. destruct (m st) as [[a|x|w|] st']; eauto. Qed.
Lemma wpt_on_st {A} (m : M EVM A) st (P : A -> ST -> Prop) : wpe m (st_evm st) (fun a e' => P a (set_st_evm e' st)) -> wpt R (on_st m) st P.
Proof. unfold wpt, wpe, on_st. destruct (m (st_evm st)) as [[a|x|w|] e']; try done. intros H. by left. Qed.
Lemma wpt_deref_fee st (P : Z -> ST -> Prop) : (forall fee, l1Fee = Some fee -> P fee st) -> wpt R (deref "nil l1Fee" l1Fee) st P.
Proof. destruct l1Fee as [fee|] eqn:E; intros H; [by apply H|]. by right. Qed.

Lemma wpt_state {A} (c : method A) e0 st (P : A -> ST -> Prop) : eat Q e0 (st_evm st) -> plain c = true -> args_ok c ->
  (forall a e', result_ok c a -> eat Q e0 e' -> P a (set_st_evm e' st)) -> wpt R (state c) st P.
Proof. intros He Hp Ha HP. apply wpt_on_st. by apply (wpe_write false Q mode eq_refl c e0). Qed.

(** A method that only looks. *)
Lemma wpt_look {A} (c : method A) e0 st (P : A -> ST -> Prop) : eat Q e0 (st_evm st) -> db_equiv (evm_db (st_evm st)) (evm_db e0) -> reading c = true ->
  (forall a e', result_ok c a -> eat Q e0 e' -> db_equiv (evm_db e') (evm_db e0) -> P a (set_st_evm e' st)) -> wpt R (state c) st P.
Proof.
  intros He Hq Hr HP. apply wpt_on_st. apply (wpe_read false Q mode c e0); [done|done|]. intros a e' Ha He' Hq' _.
  apply HP; [done|done|]. by eapply db_equiv_trans.
Qed.
End rules.

(** ** The parts of a transition *)

Context (st0 : ST) (Hok : evm_ok (st_evm st0)) (Hgp : in_u64 (st_gp st0)) (Hgas0 : st_gas st0 = 0).
Local Abbreviation e0 := (st_evm st0).

(** Refused before gas was bought: nothing has changed. *)
Definition untouched (st : ST) : Prop :=
  eat Q e0 (st_evm st) /\ db_equiv (evm_db (st_evm st)) (evm_db e0) /\ st_gp st = st_gp st0.

(** Gas was bought, and [g] of it is left. *)
Record bought (g : Z) (st : ST) : Prop := {
  bo_evm : eat Q e0 (st_evm st);
  bo_gp : st_gp st = st_gp st0 - m_gasLimit msg;
  bo_low : m_gasLimit msg <= st_gp st0;
  bo_gas : st_gas st = g;
  bo_range : 0 <= g <= m_gasLimit msg;
  bo_initial : st_initialGas st = m_gasLimit msg }.

Definition refusal (err : goerror) (st : ST) : Prop :=
  (err ∈ [ErrNonceTooHigh; ErrNonceTooLow; errInsufficientBalanceForGas; ErrGasLimitReached] /\ untouched st) \/
  (err ∈ [ErrOutOfGas; ErrInsufficientBalance] /\ exists g, bought g st).

Lemma bought_evm g st e : bought g st -> eat Q e0 e -> bought g (set_st_evm e st).
Proof. intros [H1 H2 H3 H4 H5 H6] He. by split. Qed.

Lemma bought_gas g g' st : bought g st -> 0 <= g' <= m_gasLimit msg -> bought g' (set_st_gas g' st).
Proof. intros [H1 H2 H3 H4 H5 H6] Hg. by split. Qed.

Lemma refused_early err st : err ∈ [ErrNonceTooHigh; ErrNonceTooLow; errInsufficientBalanceForGas; ErrGasLimitReached] -> untouched st -> refusal err st.
Proof. intros He Hu. left. by split. Qed.

Lemma refused_late err g st : err ∈ [ErrOutOfGas; ErrInsufficientBalance] -> bought g st -> refusal err st.
Proof. intros He Hb. right. split; [done|by exists g]. Qed.

Lemma buyGas_spec st : untouched st -> st_gas st = 0 -> wpt refusal (buyGas env msg l1Fee) st (fun _ => bought (m_gasLimit msg)).
Proof.
  intros Hu Hg0. unfold buyGas. cbv zeta. apply wpt_bind.
  assert (Hm : forall mgval, wpt refusal (balance ← state (GetBalance (m_from msg));
     mgval ← (if balance <? mgval then if IsShanghai (chainConfig env) (Some (BlockNumber (context env))) then throw errInsufficientBalanceForGas
             else if UsingOVM env then state (GetBalance (m_from msg)) else throw errInsufficientBalanceForGas else ret mgval);
     gp ← gets st_gp;
     match gp_SubGas (m_gasLimit msg) gp with
     | inl err => throw err
     | inr gp => modS (set_st_gp gp) ;; modS (fun st => set_st_gas (u64 (st_gas st + m_gasLimit msg)) st) ;;
         modS (set_st_initialGas (m_gasLimit msg)) ;; state (SubBalance (m_from msg) mgval)
     end) st (fun _ => bought (m_gasLimit msg))).
  { intros mgval. destruct Hu as (He & Hq & Hp). apply wpt_bind. apply (wpt_look _ _ e0); [done|done|done|]. intros balance e1 _ He1 Hq1. apply wpt_bind.
    assert (Hpay : forall v e2, eat Q e0 e2 -> db_equiv (evm_db e2) (evm_db e0) -> wpt refusal (gp ← gets st_gp;
       match gp_SubGas (m_gasLimit msg) gp with
       | inl err => throw err
       | inr gp => modS (set_st_gp gp) ;; modS (fun st => set_st_gas (u64 (st_gas st + m_gasLimit msg)) st) ;;
           modS (set_st_initialGas (m_gasLimit msg)) ;; state (SubBalance (m_from msg) v)
       end) (set_st_evm e2 st) (fun _ => bought (m_gasLimit msg))).
    { intros v e2 He2 Hq2. apply wpt_bind, wpt_gets. cbn [st_gp set_st_evm]. unfold gp_SubGas. rewrite Hp.
      destruct (Z.ltb_spec (st_gp st0) (m_gasLimit msg)) as [Hlt|Hge]; [apply wpt_throw, refused_early; [set_solver|by split]|].
      do 3 apply wpt_bind, wpt_modS. destruct (mk_gas Hmsg) as [Hl1 Hl2]. unfold gas_limit in Hl2.
      apply (wpt_state _ _ e0); [done|done|done|]. intros _ e3 _ He3. split; cbn; try done.
      rewrite Hg0. rewrite Z.add_0_l. apply u64_small. unfold in_u64. lia. }
    destruct (balance <? mgval); [|by apply Hpay]. destruct (IsShanghai _ _); [by apply wpt_throw, refused_early; [set_solver|]|].
    destruct (UsingOVM env); [|by apply wpt_throw, refused_early; [set_solver|]].
    apply (wpt_look _ _ e0); [done|done|done|]. intros v e2 _ He2 Hq2. by apply (Hpay v e2). }
  destruct (_ && _ && _); [|apply wpt_ret, Hm]. apply wpt_bind, wpt_deref_fee. intros fee _. apply wpt_ret, Hm.
Qed.

Lemma preCheck_spec : wpt refusal (preCheck env msg l1Fee) st0 (fun _ => bought (m_gasLimit msg)).
Proof.
  assert (Hu : untouched st0) by (split; [by apply (eat_refl false Q mode)|]; split; [apply db_equiv_refl|done]).
  unfold preCheck. destruct (m_checkNonce msg); [|by apply buyGas_spec]. destruct (_ && _); [by apply buyGas_spec|].
  apply wpt_bind. destruct Hu as (He & Hq & Hp). apply (wpt_look _ _ e0); [done|done|done|]. intros nonce e1 _ He1 Hq1.
  assert (Hu1 : untouched (set_st_evm e1 st0)) by done.
  destruct (nonce <? _); [apply wpt_throw, refused_early; [set_solver|done]|]. destruct (_ <? nonce); [apply wpt_throw, refused_early; [set_solver|done]|].
  by apply buyGas_spec.
Qed.

Lemma useGas_spec amount g st : 0 <= amount -> bought g st ->
  wpt refusal (useGas amount) st (fun err st' => (err = None /\ amount <= g /\ bought (g - amount) st') \/ (err = Some ErrOutOfGas /\ bought g st')).
Proof.
  intros Ha Hb. unfold useGas. apply wpt_bind, wpt_gets. rewrite (bo_gas _ _ Hb). destruct (Z.ltb_spec g amount); [apply wpt_ret; by right|].
  apply wpt_bind, wpt_modS, wpt_ret. left. split; [done|]. split; [done|]. pose proof (bo_range _ _ Hb). apply (bought_gas g); [done|lia].
Qed.

(** Gas left over at most [g]. *)
Definition left_within (g : Z) (st : ST) : Prop := exists g', 0 <= g' <= g /\ bought g' st.

Lemma left_within_mono g g' st : left_within g st -> g <= g' -> left_within g' st.
Proof. intros (x & Hx & Hb) Hg. exists x. split; [lia|done]. Qed.

Lemma left_within_bought g st : bought g st -> left_within g st.
Proof. intros Hb. exists g. split; [|done]. pose proof (bo_range _ _ Hb). lia. Qed.

Lemma bumpNonce_spec g st : bought g st -> wpt refusal (bumpNonce msg) st (fun _ => bought g).
Proof.
  intros Hb. unfold bumpNonce. apply wpt_bind. apply (wpt_state _ _ e0); [apply Hb|done|done|]. intros nonce e1 _ He1.
  apply (wpt_state _ _ e0); [done|done|apply u64_in|]. intros _ e2 _ He2. by apply bought_evm; [apply bought_evm|].
Qed.

(** The machine gives back gas. *)
Lemma returned_spec {A} (x : A) g g' st e' : bought g st -> eat Q (st_evm st) e' -> 0 <= g' <= g ->
  wpt refusal (modS (set_st_gas g') ;; ret x) (set_st_evm e' st) (fun _ => left_within g).
Proof.
  intros Hb He Hg. apply wpt_bind, wpt_modS, wpt_ret. exists g'. split; [done|]. pose proof (bo_range _ _ Hb).
  apply (bought_gas g); [|lia]. apply bought_evm; [done|]. eapply (eat_step false Q mode); [apply Hb|done].
Qed.

Lemma enter_vm_spec g st : bought g st -> wpt refusal (enter_vm env msg Run) st (fun _ => left_within g).
Proof.
  intros Hb. destruct (mk_gas Hmsg) as [Hl1 Hl2]. pose proof (mk_fuel Hmsg) as Hf. pose proof (bo_range _ _ Hb) as Hg.
  assert (0 <= g < n /\ g < gas_limit) as [Hgn Hgl] by lia. unfold enter_vm. cbv zeta. destruct (m_to msg) as [to|].
  - apply wpt_bind. eapply wpt_mono; [by apply (bumpNonce_spec g)|]. intros [] st1 Hb1. apply wpt_bind, wpt_gets. rewrite (bo_gas _ _ Hb1).
    apply wpt_bind, wpt_on_st. eapply wpe_mono; [apply (Call_spec false Q mode env n Run (mk_run Hmsg)); try apply Hmsg; [apply Hb1|done..]|].
    intros [[r g'] err] e' (He & _ & Hr & _). by apply returned_spec.
  - apply wpt_bind, wpt_gets. rewrite (bo_gas _ _ Hb).
    apply wpt_bind, wpt_on_st. eapply wpe_mono; [apply (Create_spec false Q mode env (mk_env Hmsg) n Run (mk_run Hmsg)); try apply Hmsg; [done|apply Hb|done..]|].
    intros [[[r a] g'] err] e' (He & _ & Hr). by apply returned_spec.
Qed.

Lemma enter_with_l1_gas_spec number g st : 0 <= l1FeeInL2 -> bought g st ->
  wpt refusal (enter_with_l1_gas env rcfg_ChainID msg Run l1FeeInL2 number) st (fun _ => left_within g).
Proof.
  intros Hfee Hb. unfold enter_with_l1_gas. apply wpt_bind. eapply wpt_mono; [by apply (useGas_spec l1FeeInL2 g)|].
  intros err st1 [(-> & Hle & Hb1)|(-> & Hb1)].
  - destruct (_ && _ && _).
    + apply wpt_bind. eapply wpt_mono; [by apply (useGas_spec _ (g - l1FeeInL2))|]. intros err st2 H2. apply wpt_ret.
      destruct H2 as [(_ & _ & H2)|(_ & H2)]; apply left_within_bought in H2; (eapply left_within_mono; [exact H2|unfold Sha256PerWordGas; lia]).
    + apply wpt_bind. assert (Hw : wpt refusal (when ((rcfg_ChainID =? 1088) && ((number =? 3247675) || (number =? 3247681))) (useGas 100000 ;; ret tt)) st1
          (fun _ st2 => exists g2, 0 <= g2 <= g /\ bought g2 st2)).
      { pose proof (bo_range _ _ Hb1). destruct (_ && _); [|exists (g - l1FeeInL2); split; [lia|done]]. unfold when. apply wpt_bind.
        eapply wpt_mono; [by apply (useGas_spec 100000 (g - l1FeeInL2))|]. intros err st2 H2. apply wpt_ret.
        destruct H2 as [(_ & Hl & H2)|(_ & H2)]; (eexists; split; [|exact H2]; lia). }
      eapply wpt_mono; [exact Hw|]. intros [] st2 (g2 & Hg2 & Hb2). eapply wpt_mono; [by apply (enter_vm_spec g2)|]. intros r st3 H3. eapply left_within_mono; [exact H3|lia].
  - apply wpt_bind. eapply wpt_mono; [by apply (bumpNonce_spec g)|]. intros [] st2 Hb2. apply wpt_ret. by apply left_within_bought.
Qed.

(** What a transition that is applied leaves, [used] gas being paid for. *)
Record applied (used : Z) (st : ST) : Prop := {
  ap_evm : eat Q e0 (st_evm st);
  ap_gp : st_gp st = st_gp st0 - used;
  ap_low : used <= st_gp st0;
  ap_used : gasUsed st = used }.

Lemma gasUsed_bought g st : bought g st -> gasUsed st = m_gasLimit msg - g.
Proof.
  intros Hb. unfold gasUsed. rewrite (bo_initial _ _ Hb), (bo_gas _ _ Hb). destruct (bo_range _ _ Hb), (mk_gas Hmsg). unfold gas_limit in *.
  apply u64_small. unfold in_u64. lia.
Qed.

(** Reading the refund counter changes nothing, and reading it again gives the same. *)
Lemma wpt_GetRefund st (P : Z -> ST -> Prop) : eat Q e0 (st_evm st) ->
  (forall counter, in_u64 counter -> state GetRefund st = (Ok counter, st) -> P counter st) -> wpt refusal (state GetRefund) st P.
Proof.
  intros [[(gl & Hd) _ _ _] _] HP. unfold wpt. destruct (state GetRefund st) as [o st'] eqn:E. unfold state, on_st, db, on_db in E.
  destruct (call GetRefund (evm_db (st_evm st))) as [o' d] eqn:Ec. injection E as <- <-.
  pose proof (db_plain _ GetRefund _ gl _ _ Hd eq_refl I Ec) as Hl. destruct o' as [c|x|w|]; [|done|by left; left|done].
  pose proof (db_refund _ gl _ _ Hd Ec) as ->. assert (Hst : set_st_evm (set_db (evm_db (st_evm st)) (st_evm st)) st = st) by (destruct st as [[] ? ? ?]; done).
  rewrite Hst. apply HP; [apply Hl|]. by rewrite Hst.
Qed.

Lemma refundGas_spec g st : bought g st ->
  wpt refusal (refundGas msg) st (fun _ st' => exists used, applied used st' /\ m_gasLimit msg - g <= 2 * used /\ used <= m_gasLimit msg - g).
Proof.
  intros Hb. unfold refundGas. apply wpt_bind, wpt_gets. cbv zeta. rewrite (gasUsed_bought g st Hb). pose proof (bo_range _ _ Hb) as Hg.
  set (half := (m_gasLimit msg - g) / 2). assert (Hh : 0 <= half /\ 2 * half <= m_gasLimit msg - g) by (unfold half; Z.to_euclidean_division_equations; lia).
  clearbody half. apply wpt_bind. apply wpt_GetRefund; [apply Hb|]. intros counter Hc Hagain. apply wpt_bind.
  assert (Hrest : forall r e2, 0 <= r <= half -> eat Q e0 e2 -> wpt refusal
    (modS (fun st => set_st_gas (u64 (st_gas st + r)) st) ;; gas ← gets st_gas; state (AddBalance (m_from msg) (gas * m_gasPrice msg)) ;;
     gp ← gets st_gp; gp ← lift_out (gp_AddGas gas gp); modS (set_st_gp gp)) (set_st_evm e2 st)
    (fun _ st' => exists used, applied used st' /\ m_gasLimit msg - g <= 2 * used /\ used <= m_gasLimit msg - g)).
  { intros r e2 Hr He2. destruct (mk_gas Hmsg) as [_ Hlim]. unfold gas_limit in Hlim. apply wpt_bind, wpt_modS. apply wpt_bind, wpt_gets.
    cbn [st_gas set_st_gas set_st_evm]. rewrite (bo_gas _ _ Hb), (u64_small (g + r)) by (unfold in_u64; lia).
    apply wpt_bind. apply (wpt_state _ _ e0); [done|done|done|]. intros _ e3 _ He3. apply wpt_bind, wpt_gets. apply wpt_bind.
    cbn [st_gp set_st_gas set_st_evm]. rewrite (bo_gp _ _ Hb). pose proof (bo_low _ _ Hb). unfold in_u64 in Hgp. unfold gp_AddGas, MaxUint64.
    destruct (Z.ltb_spec (2 ^ 64 - 1 - (g + r)) (st_gp st0 - m_gasLimit msg)); [lia|]. apply wpt_ret, wpt_modS.
    exists (m_gasLimit msg - (g + r)). split; [|lia]. split; cbn [st_evm st_gp set_st_gp set_st_evm set_st_gas]; [done|lia|lia|].
    unfold gasUsed. cbn [st_initialGas st_gas set_st_gp set_st_evm set_st_gas]. rewrite (bo_initial _ _ Hb). apply u64_small. unfold in_u64. lia. }
  assert (Hsame : st = set_st_evm (st_evm st) st) by (by destruct st). rewrite Hsame. unfold in_u64 in Hc.
  destruct (Z.ltb_spec counter half) as [Hlt|Hge]; [|apply wpt_ret; apply Hrest; [lia|apply Hb]].
  unfold wpt. rewrite <- Hsame, Hagain. rewrite Hsame. apply Hrest; [lia|apply Hb].
Qed.

Lemma payCoinbase_spec used st : applied used st -> wpt refusal (payCoinbase env msg l1Fee) st (fun _ => applied used).
Proof.
  intros [He Hp Hlo Hu]. unfold payCoinbase. apply wpt_bind, wpt_gets. cbv zeta.
  assert (Hadd : forall v, wpt refusal (state (AddBalance (Coinbase (context env)) v)) st (fun _ => applied used)).
  { intros v. apply (wpt_state _ _ e0); [done|done|done|]. intros _ e1 _ He1. by split. }
  destruct (negb _); [apply Hadd|]. destruct (UsingOVM env); [|apply Hadd]. apply wpt_bind, wpt_deref_fee. intros fee _. apply Hadd.
Qed.

Definition intrinsic : goerror + Z :=
  IntrinsicGas (m_data msg) (match m_to msg with None => true | Some _ => false end)
    (IsHomestead (chainConfig env) (Some (BlockNumber (context env)))) (IsIstanbul (chainConfig env) (Some (BlockNumber (context env)))).

Lemma intrinsic_pos g : intrinsic = inr g -> 21000 <= g.
Proof.
  unfold intrinsic. set (c := match m_to msg with None => true | _ => false end). pose proof (mk_data Hmsg) as Hd. unfold slice_ok, slice_len, slice_bytes in Hd. cbn in Hd.
  rewrite IntrinsicGas_sum by lia. set (i := IsIstanbul _ _). set (h := IsHomestead _ _). assert (0 <= data_price i (m_data msg)) as Hp.
  { induction (m_data msg) as [|b l IH]; [done|]. cbn [data_price foldr]. assert (0 <= byte_price i b) by (unfold byte_price; destruct (_ =? _), i; done).
    unfold data_price in IH. cbn [length] in Hd. specialize (IH ltac:(lia)). lia. }
  assert (21000 <= base_price c h) by (by destruct c, h). destruct (_ <=? _); [|done]. intros [= <-]. lia.
Qed.

Lemma transition_spec number : 0 <= l1FeeInL2 ->
  wpt refusal (TransitionDbWithBlockNumber env rcfg_ChainID msg accessList Run l1FeeInL2 l1Fee number) st0
    (fun r st => exists least, intrinsic = inr least /\ applied r.1.2 st /\ least <= 2 * r.1.2 /\ r.1.2 <= m_gasLimit msg).
Proof.
  intros Hfee. unfold TransitionDbWithBlockNumber. apply wpt_bind. eapply wpt_mono; [apply preCheck_spec|]. intros [] st1 Hb1. cbv zeta.
  apply wpt_bind. fold intrinsic. destruct intrinsic as [err|least] eqn:Ei.
  { apply wpt_throw. eapply refused_late; [|exact Hb1]. unfold intrinsic in Ei. pose proof (mk_data Hmsg) as Hd. unfold slice_ok, slice_len in Hd. cbn in Hd.
    rewrite IntrinsicGas_sum in Ei by lia. destruct (_ <=? _); [done|]. injection Ei as <-. set_solver. }
  pose proof (intrinsic_pos _ Ei) as Hleast. apply wpt_ret. apply wpt_bind. unfold useGas_. apply wpt_bind.
  eapply wpt_mono; [apply (useGas_spec least (m_gasLimit msg)); [lia|done]|]. intros err st2 [(-> & Hle & Hb2)|(-> & Hb2)]; [|apply wpt_throw; eapply refused_late; [set_solver|exact Hb2]].
  apply wpt_ret. set (g := m_gasLimit msg - least) in *. apply wpt_bind.
  assert (Hbal : wpt refusal (if m_checkNonce msg && (0 <? m_amount msg) then ok ← on_st (CanTransfer (m_from msg) (m_amount msg)); ret (negb ok) else ret false) st2 (fun _ => bought g)).
  { destruct (_ && _); [|by apply wpt_ret]. apply wpt_bind, wpt_on_st. unfold CanTransfer. apply wpe_bind.
    apply (wpe_write false Q mode eq_refl _ e0); [apply Hb2|done|done|]. intros b e1 _ He1. apply wpe_ret, wpt_ret. by apply bought_evm. }
  eapply wpt_mono; [exact Hbal|]. intros [] st3 Hb3; [apply wpt_throw; eapply refused_late; [set_solver|exact Hb3]|]. clear Hbal.
  apply wpt_bind. assert (Hlist : wpt refusal (when (r_IsBerlin (chainRules env)) (state (PrepareAccessList (m_from msg) (m_to msg) (ActivePrecompiles (chainRules env)) accessList))) st3 (fun _ => bought g)).
  { destruct (r_IsBerlin _); [|done]. apply (wpt_state _ _ e0); [apply Hb3|done|done|]. intros _ e1 _ He1. by apply bought_evm. }
  eapply wpt_mono; [exact Hlist|]. intros [] st4 Hb4. clear Hlist. apply wpt_bind.
  assert (Hvm : wpt refusal (if negb (IsShanghai (chainConfig env) (Some (BlockNumber (context env)))) then enter_with_l1_gas env rcfg_ChainID msg Run l1FeeInL2 number else enter_vm env msg Run) st4 (fun _ => left_within g)).
  { destruct (negb _); [by apply enter_with_l1_gas_spec|by apply enter_vm_spec]. }
  eapply wpt_mono; [exact Hvm|]. intros [r vmerr] st5 (g' & Hg' & Hb5). clear Hvm. case_bool_decide; [apply wpt_throw; eapply refused_late; [set_solver|exact Hb5]|].
  apply wpt_bind. eapply wpt_mono; [by apply (refundGas_spec g')|]. intros [] st6 (used & Hap & Hlo & Hhi).
  apply wpt_bind. eapply wpt_mono; [by apply (payCoinbase_spec used)|]. intros [] st7 Hap7. apply wpt_bind, wpt_gets, wpt_ret. rewrite (ap_used _ _ Hap7). cbn [fst snd].
  exists least. split; [done|]. split; [done|]. lia.
Qed.
End transitions.

(** ** Applying a message *)

Section messages.
Context {crypto : Crypto} {natives : Natives} {S : Type} {database : Database S} {laws : DatabaseLaws S}.
Local Abbreviation EVM := (EVM S).
Context (Q : S -> S -> Prop) (mode : mode_ok false Q).
Context (oob : Z -> Z) (env : Env) (rcfg_ChainID : Z) (msg : Message) (accessList : list (address * list hash)).

Lemma asTransaction_encodes : 0 <= m_amount msg -> 0 <= m_gasPrice msg -> exists raw, rlpEncode (asTransaction msg) = Ok raw.
Proof.
  intros Ha Hp. unfold rlpEncode, asTransaction, encoded, tx_item, txdata_item, big_out. apply Z.ltb_ge in Ha, Hp.
  destruct (m_to msg); cbn; rewrite Ha, Hp; cbn; by eexists.
Qed.

(** The message has a price of its own, or the oracle has one. *)
Definition unpriced : Prop := UsingOVM env = true /\ m_queueOrigin msg = QueueOriginSequencer /\ m_gasPrice msg = 0.

Lemma CalculateL1MsgFeeInL2_cases state estimate : 0 <= m_amount msg -> 0 <= m_gasPrice msg ->
  (exists v, CalculateL1MsgFeeInL2 oob msg state None estimate = Ok v /\ 0 <= v) \/
  (m_gasPrice msg = 0 /\ CalculateL1MsgFeeInL2 oob msg state None estimate = Panic "division by zero").
Proof.
  intros Ha Hp. destruct (asTransaction_encodes Ha Hp) as [raw E]. unfold CalculateL1MsgFeeInL2. rewrite E.
  unfold mbind, outcome_bind. destruct (readGPOStorageSlots _ state) as [[p o] sc]. cbv zeta.
  assert (Hu : forall q, 0 <= (if estimate then big_uint64 (mulByFloat oob (big_uint64 q) float_1_05) else big_uint64 q)).
  { intros q. unfold big_uint64. destruct estimate; apply u64_in. }
  unfold big_Div. destruct (Z.eqb_spec (m_gasPrice msg) 0) as [H0|H0]; cbn [negb].
  - destruct (_ =? 0); [by right|]. left. eexists. split; [done|apply Hu].
  - destruct (Z.eqb_spec (m_gasPrice msg) 0); [done|]. left. eexists. split; [done|apply Hu].
Qed.

(** Reading a slot of the oracle. *)
Lemma wpe_slot e0 e1 k (P : hash -> EVM -> Prop) : eat Q e0 e1 /\ db_equiv (evm_db e1) (evm_db e0) ->
  (forall v e2, eat Q e0 e2 /\ db_equiv (evm_db e2) (evm_db e0) -> P v e2) -> wpe (db (GetState L2GasPriceOracleAddress k)) e1 P.
Proof.
  intros [He1 Hq1] HP. apply (wpe_read false Q mode _ e0); [done|done|]. intros v e2 _ He2 Hq2 _. apply HP. split; [done|by eapply db_equiv_trans].
Qed.

Lemma read_gpo_spec e0 e : eat Q e0 e -> db_equiv (evm_db e) (evm_db e0) ->
  wpe read_gpo e (fun _ e' => eat Q e0 e' /\ db_equiv (evm_db e') (evm_db e0)).
Proof.
  intros He Hq. unfold read_gpo. do 4 (apply wpe_bind; apply (wpe_slot e0); [by eauto|]; clear He Hq; intros ? ? [He Hq]). by apply wpe_ret.
Qed.

Lemma read_oracle_spec e0 e : eat Q e0 e -> db_equiv (evm_db e) (evm_db e0) ->
  wpe (read_oracle msg) e (fun _ e' => eat Q e0 e' /\ db_equiv (evm_db e') (evm_db e0)).
Proof.
  intros He Hq. unfold read_oracle. destruct (match rlpEncode _ with Ok _ => false | _ => true end); [by apply wpe_ret|].
  apply wpe_bind. eapply wpe_mono; [by apply (read_gpo_spec e0)|]. intros slots e1 [He1 Hq1]. apply wpe_bind.
  destruct (_ =? 0); [apply (wpe_slot e0); [done|]; intros price e2 H2; by apply wpe_ret|]. by apply wpe_ret, wpe_ret.
Qed.

(** The fees are computed from what the oracle has stored, and nothing changes. *)
Lemma NewStateTransition_spec e : evm_ok e -> 0 <= m_amount msg -> 0 <= m_gasPrice msg ->
  match NewStateTransition oob env msg e with
  | (Ok (l1FeeInL2, l1Fee), e') => 0 <= l1FeeInL2 /\ l1Fee <> None /\ eat Q e e' /\ db_equiv (evm_db e') (evm_db e)
  | (Panic w, e') => panic_ok w e' \/ (unpriced /\ w = "division by zero")
  | _ => False
  end.
Proof.
  intros Hok Ha Hp. pose proof (eat_refl false Q mode e Hok) as He. pose proof (db_equiv_refl (evm_db e)) as Hq. unfold NewStateTransition.
  destruct (UsingOVM env) eqn:Eovm; [|done].
  assert (Hsecond : forall x e1, 0 <= x -> eat Q e e1 -> db_equiv (evm_db e1) (evm_db e) ->
    wpe (l1Fee ← (if negb (m_gasPrice msg =? 0) then state ← read_oracle msg; ignoring None Some (CalculateL1MsgFee oob msg state None) else ret (Some 0));
         ret (x, l1Fee)) e1 (fun r e' => 0 <= r.1 /\ r.2 <> None /\ eat Q e e' /\ db_equiv (evm_db e') (evm_db e))).
  { intros x e1 Hx He1 Hq1. apply wpe_bind. destruct (negb _); [|by apply wpe_ret, wpe_ret]. apply wpe_bind.
    eapply wpe_mono; [by apply (read_oracle_spec e)|]. intros state e2 [He2 Hq2]. destruct (asTransaction_encodes Ha Hp) as [raw E].
    unfold CalculateL1MsgFee. rewrite E. unfold mbind, outcome_bind. destruct (readGPOStorageSlots _ state) as [[p o] sc]. by apply wpe_ret, wpe_ret. }
  assert (Hconv : forall x e1, 0 <= x -> eat Q e e1 -> db_equiv (evm_db e1) (evm_db e) ->
    match (l1Fee ← (if negb (m_gasPrice msg =? 0) then state ← read_oracle msg; ignoring None Some (CalculateL1MsgFee oob msg state None) else ret (Some 0));
         ret (x, l1Fee)) e1 with
    | (Ok (l1FeeInL2, l1Fee), e') => 0 <= l1FeeInL2 /\ l1Fee <> None /\ eat Q e e' /\ db_equiv (evm_db e') (evm_db e)
    | (Panic w, e') => panic_ok w e' \/ (unpriced /\ w = "division by zero")
    | _ => False
    end).
  { intros x e1 Hx He1 Hq1. pose proof (Hsecond x e1 Hx He1 Hq1) as H. unfold wpe in H. destruct (bindM _ _ e1) as [[[a b]|y|w|] e']; try done. by left. }
  unfold bindM at 1. destruct (Z.eqb_spec (m_queueOrigin msg) QueueOriginSequencer) as [Hs|Hs]; [|by apply Hconv].
  unfold bindM at 1. pose proof (read_oracle_spec e e He Hq) as Hr. unfold wpe in Hr. destruct (read_oracle msg e) as [[state|y|w|] e1]; try done; [|by left].
  destruct Hr as [He1 Hq1]. destruct (CalculateL1MsgFeeInL2_cases state (negb (m_checkNonce msg)) Ha Hp) as [(v & -> & Hv)|(H0 & ->)]; cbn [ignoring].
  - by apply (Hconv (id v)).
  - right. by split.
Qed.

Context (jt : gmap Z (operation (S:=S))) (fuel : nat).

(** A machine that is configured, and a message that fits it. *)
Record message_fits : Prop := {
  mf_env : env_ok env;
  mf_table : instructionSet env = Ok jt;
  mf_gas : 0 <= m_gasLimit msg < gas_limit;
  mf_fuel : m_gasLimit msg < Z.of_nat fuel;
  mf_data : slice_ok (Some (m_data msg));
  mf_amount : in_word (m_amount msg);
  mf_price : 0 <= m_gasPrice msg }.

Definition early_refusals : list goerror := [ErrNonceTooHigh; ErrNonceTooLow; errInsufficientBalanceForGas; ErrGasLimitReached].
Definition late_refusals : list goerror := [ErrOutOfGas; ErrInsufficientBalance].

Lemma apply_spec number e gp : message_fits -> evm_ok e -> in_u64 gp ->
  match ApplyMessageWithBlockNumber oob env rcfg_ChainID msg accessList (Run env jt fuel) number (e, gp) with
  | (Ok (_, used, _), (e', gp')) =>
      eat Q e e' /\ gp' = gp - used /\ used <= gp /\ used <= m_gasLimit msg /\ exists least, intrinsic env msg = inr least /\ 21000 <= least <= 2 * used
  | (Err err, (e', gp')) =>
      evm_ok e' /\ ((err ∈ early_refusals /\ gp' = gp /\ db_equiv (evm_db e') (evm_db e)) \/ (err ∈ late_refusals /\ gp' = gp - m_gasLimit msg))
  | (Panic w, (e', _)) => panic_ok w e' \/ (unpriced /\ w = "division by zero")
  | (Blocked, _) => False
  end.
Proof.
  intros [Henv Hjt Hgas Hfuel Hdata Ham Hpr] He Hgp. unfold in_word in Ham. unfold ApplyMessageWithBlockNumber.
  pose proof (NewStateTransition_spec e He ltac:(lia) Hpr) as HN. destruct (NewStateTransition oob env msg e) as [[[f l1Fee]|y|w|] e1]; try done.
  destruct HN as (Hf & Hfee & He1 & Hq1). assert (Hm : message_ok Q env msg (Run env jt fuel) (Z.of_nat fuel)).
  { split; try done. by apply machine_keeps. }
  pose proof (transition_spec Q mode env rcfg_ChainID msg accessList (Run env jt fuel) f l1Fee (Z.of_nat fuel) Hm (mkST e1 gp 0 0) (proj1 He1) Hgp eq_refl number Hf) as H.
  unfold wpt in H. destruct (TransitionDbWithBlockNumber _ _ _ _ _ _ _ _ _) as [[[[out used] failed]|err|w|] st]; [| | |done].
  - destruct H as (least & Hi & Hap & Hlo & Hhi). cbn [fst snd] in *. split; [eapply (eat_step false Q mode); [exact He1|apply Hap]|]. split; [apply Hap|]. split; [apply (ap_low _ _ _ _ Hap)|]. split; [done|].
    exists least. split; [done|]. split; [|done]. by eapply intrinsic_pos.
  - destruct H as [(Hin & He2 & Hq2 & Hp2)|(Hin & g & Hb)].
    + split; [apply He2|]. left. split; [done|]. split; [done|]. by eapply db_equiv_trans.
    + split; [apply Hb|]. right. split; [done|apply Hb].
  - destruct H as [H|[H _]]; [by left|done].
Qed.

End messages.

Section message_theorems.
Context {crypto : Crypto} {natives : Natives} {S : Type} {database : Database S} {laws : DatabaseLaws S}.
Context (oob : Z -> Z) (env : Env) (rcfg_ChainID : Z) (msg : Message) (accessList : list (address * list hash)).
Context (jt : gmap Z (operation (S:=S))) (fuel : nat).


(** C9: A message that is refused for its nonce, for the price of its gas or because the block has no gas left changes neither the gas pool nor the state; the only other errors, intrinsic gas beyond the limit and a transfer beyond the balance, come after the gas limit was taken from the pool. *)
Theorem message_refused number e gp err e' gp' : message_fits env msg jt fuel -> evm_ok e -> in_u64 gp ->
  ApplyMessageWithBlockNumber oob env rcfg_ChainID msg accessList (Run env jt fuel) number (e, gp) = (Err err, (e', gp')) ->
  evm_ok e' /\ ((err ∈ early_refusals /\ gp' = gp /\ db_equiv (evm_db e') (evm_db e)) \/ (err ∈ late_refusals /\ gp' = gp - m_gasLimit msg)).
Proof.
  intros Hm He Hg E. pose proof (apply_spec (fun _ _ => True) writing_mode oob env rcfg_ChainID msg accessList jt fuel number e gp Hm He Hg) as H. by rewrite E in H.
Qed.
End message_theorems.

(** ** Examples *)

#[local] Existing Instance sample_crypto.
#[local] Existing Instance sample_natives.
#[local] Existing Instance list_store.
#[local] Existing Instance sample_database.
#[local] Existing Instance sample_laws.

(** A deposit from layer 1 that calls the storing contract, and a message with a
    nonce from the future. *)
Definition deposit : Message := mkMessage (Some 500) 1 0 3 100000 0 [] true 0 None QueueOriginL1ToL2.
Definition early_message : Message := mkMessage (Some 500) 1 7 3 100000 1 [] true 0 None QueueOriginSequencer.
Definition message_result (msg : Message) :=
  ApplyMessageWithBlockNumber id sample_env 1088 msg [] (Run sample_env sample_jt (Z.to_nat 100001)) 9 (sample_evm, 30000000).
Definition message_outcome (msg : Message) := let '(o, (_, gp)) := message_result msg in (o, gp).

Lemma sample_fits msg : m_gasLimit msg = 100000 -> m_data msg = [] -> m_amount msg = 3 -> 0 <= m_gasPrice msg ->
  message_fits sample_env msg sample_jt (Z.to_nat 100001).
Proof.
  intros Hg Hd Ha Hp. split; rewrite ?Hg, ?Hd, ?Ha.
  - apply sample_env_ok.
  - apply sample_table.
  - done.
  - rewrite Z2Nat.id; lia.
  - done.
  - unfold in_word. lia.
  - done.
Defined.


Lemma message_refused_witness :
  message_outcome early_message = (Err ErrNonceTooHigh, 30000000) /\
  state_equiv (evm_db (fst (snd (message_result early_message)))) sample_world.
Proof.
  assert (E : message_outcome early_message = (Err ErrNonceTooHigh, 30000000)) by (vm_compute; reflexivity). split; [exact E|].
  unfold message_outcome in E. destruct (message_result early_message) as [o [e' gp']] eqn:Er. injection E as -> ->. unfold message_result in Er.
  destruct (message_refused id sample_env 1088 early_message [] sample_jt (Z.to_nat 100001) 9 sample_evm 30000000 _ _ _
    (sample_fits early_message eq_refl eq_refl eq_refl ltac:(done)) sample_evm_ok ltac:(unfold in_u64; lia) Er) as [_ [(_ & _ & H)|(H & _)]]; [exact H|].
  exfalso. clear Er. by apply (bool_decide_eq_true_2 (ErrNonceTooHigh ∈ late_refusals)) in H.
Defined.
