(* ===== verification/Receipt.v ===== *)
(** Receipts, logs and their bloom filters (core/types/receipt.go, log.go, bloom9.go).

    A bloom filter never hides a log it was made for, a receipt survives the wire with
    the fields consensus is about, and the fields that are not sent are derived again
    from the block. *)
From stdpp Require Import prelude gmap list strings.
From Stdlib Require Import ZArith Lia.
From S2P Require Import Prelude Params VarBytes RLP RLPStream RLPStreamFacts RLPDecode RLPTyped TxMeta Crypto Transaction TxRLP Fees StateData VMState.
Local Open Scope Z_scope.

(** ** Bloom filters *)

Definition BloomByteLength : nat := 256.
Abbreviation Bloom := bytes.
Definition zeroBloom : Bloom := replicate BloomByteLength Byte.x00.

Section bloom.
Context {crypto : Crypto}.

Definition Bloom_SetBytes (d : bytes) (b : Bloom) : outcome Bloom :=
  if (BloomByteLength <? length d)%nat then Panic "bloom bytes too big" else Ok (take (BloomByteLength - length d) b ++ d).
Definition BytesToBloom (b : bytes) : outcome Bloom := Bloom_SetBytes b zeroBloom.
Definition Bloom_Big (b : Bloom) : Z := be_value b.

(** The bit that two bytes of the hash select. *)
Definition bloom_bit (h : bytes) (i : nat) : Z :=
  Z.land (b2z (nth (i + 1) h Byte.x00) + Z.shiftl (b2z (nth i h Byte.x00)) 8) 2047.
Definition bloom9 (b : bytes) : Z :=
  let h := keccak256 b in
  fold_left (fun r i => Z.lor r (Z.shiftl 1 (bloom_bit h i))) [0%nat; 2%nat; 4%nat] 0.

Definition Bloom_Add (d : Z) (b : Bloom) : outcome Bloom :=
  Bloom_SetBytes (big_bytes (Z.lor (Bloom_Big b) (bloom9 (big_bytes d)))) b.

Definition LogsBloom (logs : list Log) : Z :=
  fold_left (fun bin log => fold_left (fun bin t => Z.lor bin (bloom9 (hash_bytes t))) (log_Topics log) (Z.lor bin (bloom9 (addr_bytes (log_Address log))))) logs 0.

Definition BloomLookup (bin : Bloom) (topic : bytes) : bool :=
  let cmp := bloom9 topic in Z.land (Bloom_Big bin) cmp =? cmp.
Definition Bloom_Test (b : Bloom) (test : Z) : bool := BloomLookup b (big_bytes test).
End bloom.

(** ** Receipts *)

Definition ReceiptStatusFailed : Z := 0.
Definition ReceiptStatusSuccessful : Z := 1.
Definition receiptStatusFailedRLP : bytes := [].
Definition receiptStatusSuccessfulRLP : bytes := [Byte.x01].

Record Receipt := mkReceipt {
  PostState : bytes; Status : Z; CumulativeGasUsed : Z; r_Bloom : Bloom; r_Logs : list Log;
  r_TxHash : hash; ContractAddress : address; r_GasUsed : Z;
  r_BlockHash : hash; r_BlockNumber : option Z; TransactionIndex : Z;
  r_L1GasPrice : option Z; r_L1GasUsed : option Z; r_L1Fee : option Z; FeeScalar : option bigFloat }.

Definition set_consensus (post : bytes) (status gas : Z) (bloom : Bloom) (logs : list Log) (r : Receipt) : Receipt :=
  mkReceipt post status gas bloom logs (r_TxHash r) (ContractAddress r) (r_GasUsed r) (r_BlockHash r) (r_BlockNumber r) (TransactionIndex r)
    (r_L1GasPrice r) (r_L1GasUsed r) (r_L1Fee r) (FeeScalar r).

Definition zeroReceipt : Receipt := mkReceipt [] 0 0 zeroBloom [] 0 0 0 0 None 0 None None None None.

Definition NewReceipt (root : bytes) (failed : bool) (cumulativeGasUsed : Z) : Receipt :=
  set_consensus root (if failed then ReceiptStatusFailed else ReceiptStatusSuccessful) cumulativeGasUsed zeroBloom [] zeroReceipt.

Definition statusEncoding (r : Receipt) : bytes :=
  match PostState r with
  | [] => if Status r =? ReceiptStatusFailed then receiptStatusFailedRLP else receiptStatusSuccessfulRLP
  | _ => PostState r
  end.

Definition setStatus (postStateOrStatus : bytes) (r : Receipt) : goerror + Receipt :=
  let with_ post status := set_consensus post status (CumulativeGasUsed r) (r_Bloom r) (r_Logs r) r in
  if bool_decide (postStateOrStatus = receiptStatusSuccessfulRLP) then inr (with_ (PostState r) ReceiptStatusSuccessful)
  else if bool_decide (postStateOrStatus = receiptStatusFailedRLP) then inr (with_ (PostState r) ReceiptStatusFailed)
  else if (length postStateOrStatus =? 32)%nat then inr (with_ postStateOrStatus (Status r))
  else inl (ErrNew "invalid receipt status").

(** *** RLP *)

Definition hash_item (h : hash) : item := Str (hash_bytes h).

(** [Log.EncodeRLP]: the consensus fields. *)
Definition log_item (l : Log) : item :=
  Lst [addr_item (log_Address l); Lst (hash_item <$> log_Topics l); Str (log_Data l)].
Definition receipt_item (r : Receipt) : item :=
  Lst [Str (statusEncoding r); uint_item (CumulativeGasUsed r); Str (r_Bloom r); Lst (log_item <$> r_Logs r)].

Definition zeroLog : Log := mkLog 0 [] [] 0 0 0 0 0 false.
Definition set_log_consensus (a : address) (topics : list hash) (data : bytes) (l : Log) : Log :=
  mkLog a topics data (log_BlockNumber l) (log_TxHash l) (log_TxIndex l) (log_BlockHash l) (log_Index l) (log_Removed l).

Definition decodeHash : M Stream hash := b ← decodeByteArray 32; ret (BytesToHash b).
Definition log_DecodeRLP (l : Log) : M Stream Log :=
  decodeStruct
    (a ← field decodeAddress;
     topics ← field (decodeListSlice decodeHash);
     data ← field decodeByteSlice;
     ret (set_log_consensus a topics data l)).

(** The struct [receiptRLP] and what becomes of it. *)
Definition receipt_DecodeRLP (r : Receipt) : M Stream Receipt :=
  '(post, gas, bloom, logs) ← decodeStruct
    (post ← field decodeByteSlice;
     gas ← field (decodeUint 64);
     bloom ← field (decodeByteArray 256);
     logs ← field (decodeListSlice (log_DecodeRLP zeroLog));
     ret (post, gas, bloom, logs));
  match setStatus post r with
  | inl err => throw err
  | inr r => ret (set_consensus (PostState r) (Status r) gas bloom logs r)
  end.

Section receipts.
Context {crypto : Crypto}.

Definition CreateBloom (receipts : list Receipt) : outcome Bloom :=
  BytesToBloom (big_bytes (fold_left (fun bin r => Z.lor bin (LogsBloom (r_Logs r))) receipts 0)).

(** *** [DeriveFields] *)

(** [MakeSigner] (core/types/transaction_signing.go). *)
Definition MakeSigner (config : ChainConfig) (blockNumber : option Z) : Signer :=
  if IsEIP155 config blockNumber then EIP155Signer (default 0 (ChainID config))
  else if IsHomestead config blockNumber then HomesteadSigner else FrontierSigner.

(** The address of the contract a creation by [from] makes. *)
Definition created_address (ovm : bool) (deployers : address * address) (chainID : option Z) (from : address) (nonce : Z) : outcome address :=
  if ovm then
    (id ← match chainID with Some id => Ok id | None => Panic "nil ChainID" end;
     let sysAddress := SystemAddressFor deployers id from in
     mret (if negb (sysAddress =? ZeroSystemAddress) && (nonce =? 0) then sysAddress else CreateAddress from nonce))%stdpp
  else Ok (CreateAddress from nonce).

Context (ovm : bool) (deployers : address * address) (config : ChainConfig).

Definition derive_log (number : Z) (bh th : hash) (i : Z) (logIndex : Z) (l : Log) : Log :=
  mkLog (log_Address l) (log_Topics l) (log_Data l) number th i bh logIndex (log_Removed l).

Fixpoint derive_logs (number : Z) (bh th : hash) (i logIndex : Z) (logs : list Log) : list Log * Z :=
  match logs with
  | [] => ([], logIndex)
  | l :: logs => let '(logs, next) := derive_logs number bh th i (u64 (logIndex + 1)) logs in (derive_log number bh th i logIndex l :: logs, next)
  end.

(** One receipt; [Hash] and [Sender] fill the caches of its transaction. *)
Definition derive_one (hash : hash) (number : Z) (i previous logIndex : Z) (r : Receipt) : M Transaction (Receipt * Z) :=
  th ← Hash;
  tx ← getS;
  contract ← (match Recipient (data tx) with
    | None =>
        from ← attempt (Sender (MakeSigner config (Some number)));
        lift_out (created_address ovm deployers (ChainID config) (match from with inl _ => 0 | inr a => a end) (AccountNonce (data tx)))
    | Some _ => ret (ContractAddress r)
    end);
  let '(logs, next) := derive_logs number hash th i logIndex (r_Logs r) in
  ret (mkReceipt (PostState r) (Status r) (CumulativeGasUsed r) (r_Bloom r) logs th contract
         (if i =? 0 then CumulativeGasUsed r else u64 (CumulativeGasUsed r - previous))
         hash (Some number) i (r_L1GasPrice r) (r_L1GasUsed r) (r_L1Fee r) (FeeScalar r), next).

Fixpoint derive_from (hash : hash) (number : Z) (i previous logIndex : Z) (rs : list Receipt) (txs : list Transaction) : outcome (list Receipt) :=
  match rs, txs with
  | r :: rs, tx :: txs =>
      ('(r', next) ← fst (derive_one hash number i previous logIndex r tx);
       rs' ← derive_from hash number (i + 1) (CumulativeGasUsed r) next rs txs;
       mret (r' :: rs'))%stdpp
  | _, _ => Ok []
  end.

Definition DeriveFields (hash : hash) (number : Z) (txs : list Transaction) (rs : list Receipt) : outcome (list Receipt) :=
  if negb (length txs =? length rs)%nat then Err (ErrNew "transaction and receipt count mismatch")
  else derive_from hash number 0 0 0 rs txs.
End receipts.

(** ** What a bloom filter promises *)

(** Every bit of [y] is set in [x]. *)
Definition covers (x y : Z) : Prop := Z.land x y = y.

Lemma covers_bits x y : covers x y <-> forall i, Z.testbit y i = true -> Z.testbit x i = true.
Proof.
  unfold covers. split.
  - intros H i Hi. rewrite <- H, Z.land_spec in Hi. by apply andb_true_iff in Hi as [-> _].
  - intros H. apply Z.bits_inj. intros i. rewrite Z.land_spec. destruct (Z.testbit y i) eqn:E; [by rewrite (H i E)|apply andb_false_r].
Qed.
Lemma covers_lor_l x y z : covers x z -> covers (Z.lor x y) z.
Proof. rewrite !covers_bits. intros H i Hi. by rewrite Z.lor_spec, (H i Hi). Qed.
Lemma covers_lor_r x y z : covers y z -> covers (Z.lor x y) z.
Proof. rewrite !covers_bits. intros H i Hi. by rewrite Z.lor_spec, (H i Hi), orb_true_r. Qed.
Lemma covers_refl x : covers x x.
Proof. apply Z.land_diag. Qed.

(** A number of at most 2048 bits. *)
Definition bloom_sized (z : Z) : Prop := 0 <= z < 2 ^ 2048.

Lemma bloom_sized_lor x y : bloom_sized x -> bloom_sized y -> bloom_sized (Z.lor x y).
Proof.
  unfold bloom_sized. generalize (2 ^ 2048) (eq_refl : 2 ^ 2048 = 2 ^ Z.of_nat 2048). intros b ->. intros [Hx1 Hx2] [Hy1 Hy2].
  split; [by apply Z.lor_nonneg|]. destruct (Z.eq_dec (Z.lor x y) 0) as [->|Hne]; [by apply Z.pow_pos_nonneg|].
  assert (0 <= Z.lor x y) by (by apply Z.lor_nonneg). apply Z.log2_lt_pow2; [lia|]. rewrite Z.log2_lor by done.
  assert (Hlog : forall z, 0 <= z -> z < 2 ^ Z.of_nat 2048 -> Z.log2 z < Z.of_nat 2048).
  { intros z Hz Hl. destruct (Z.eq_dec z 0) as [->|Hz0]; [by cbn|]. apply Z.log2_lt_pow2; [lia|done]. }
  apply Z.max_lub_lt; by apply Hlog.
Qed.

Lemma fold_lor {A} (f : A -> Z) (P : Z -> Prop) l : (forall x y, P x -> P y -> P (Z.lor x y)) -> (forall a, P (f a)) ->
  forall z, P z -> P (fold_left (fun r a => Z.lor r (f a)) l z).
Proof. intros Hor Hf. induction l as [|a l IH]; intros z Hz; [done|]. cbn [fold_left]. apply IH. by apply Hor. Qed.

(** What is in, stays in. *)
Lemma fold_lor_keeps {A} (f : A -> Z) l y : forall z, covers z y -> covers (fold_left (fun r a => Z.lor r (f a)) l z) y.
Proof. induction l as [|a l IH]; intros z Hz; [done|]. cbn [fold_left]. apply IH. by apply covers_lor_l. Qed.
Lemma fold_lor_covers {A} (f : A -> Z) l a y : a ∈ l -> covers (f a) y -> forall z, covers (fold_left (fun r a => Z.lor r (f a)) l z) y.
Proof.
  intros Ha Hy. revert a Ha Hy. induction l as [|x l IH]; intros a Ha Hy z; [by apply not_elem_of_nil in Ha|]. cbn [fold_left].
  apply elem_of_cons in Ha as [->|Ha]; [apply fold_lor_keeps; by apply covers_lor_r|by eapply IH].
Qed.

Section bloom_facts.
Context {crypto : Crypto}.

Lemma bloom_bit_range h i : 0 <= bloom_bit h i < 2048.
Proof. unfold bloom_bit. change 2047 with (Z.ones 11). rewrite Z.land_ones by lia. by apply Z.mod_pos_bound. Qed.

Lemma bloom_bit_sized h i : bloom_sized (Z.shiftl 1 (bloom_bit h i)).
Proof.
  pose proof (bloom_bit_range h i) as [H1 H2]. rewrite Z.shiftl_1_l. unfold bloom_sized. split; [by apply Z.pow_nonneg|]. by apply Z.pow_lt_mono_r.
Qed.

Lemma bloom9_sized b : bloom_sized (bloom9 b).
Proof.
  unfold bloom9. cbv zeta. apply (fold_lor (fun i => Z.shiftl 1 (bloom_bit (keccak256 b) i)) bloom_sized); [apply bloom_sized_lor|intros i; apply bloom_bit_sized|].
  split; [done|]. by apply Z.pow_pos_nonneg.
Qed.

(** The bits of one log. *)
Definition log_bits (log : Log) : Z :=
  fold_left (fun bin t => Z.lor bin (bloom9 (hash_bytes t))) (log_Topics log) (bloom9 (addr_bytes (log_Address log))).

Lemma fold_lor_start {A} (f : A -> Z) l x y : fold_left (fun r a => Z.lor r (f a)) l (Z.lor x y) = Z.lor x (fold_left (fun r a => Z.lor r (f a)) l y).
Proof. revert y. induction l as [|a l IH]; intros y; cbn [fold_left]; [done|]. by rewrite <- Z.lor_assoc, IH. Qed.

Lemma LogsBloom_bits logs : LogsBloom logs = fold_left (fun bin log => Z.lor bin (log_bits log)) logs 0.
Proof.
  unfold LogsBloom. generalize 0. induction logs as [|l logs IH]; intros z; cbn [fold_left]; [done|]. rewrite IH. f_equal.
  apply (fold_lor_start (fun t => bloom9 (hash_bytes t))).
Qed.

Lemma log_bits_sized l : bloom_sized (log_bits l).
Proof.
  unfold log_bits. apply (fold_lor (fun t => bloom9 (hash_bytes t)) bloom_sized); [apply bloom_sized_lor|intros t; apply bloom9_sized|apply bloom9_sized].
Qed.

Lemma bloom_sized_0 : bloom_sized 0.
Proof. split; [done|]. by apply Z.pow_pos_nonneg. Qed.

Lemma LogsBloom_sized logs : bloom_sized (LogsBloom logs).
Proof. rewrite LogsBloom_bits. apply (fold_lor log_bits bloom_sized); [apply bloom_sized_lor|apply log_bits_sized|apply bloom_sized_0]. Qed.

Lemma BytesToBloom_big z : bloom_sized z -> exists b, BytesToBloom (big_bytes z) = Ok b /\ length b = BloomByteLength /\ Bloom_Big b = z.
Proof.
  intros [Hz1 Hz2]. assert (Hl : (length (big_bytes z) <= BloomByteLength)%nat).
  { apply length_big_bytes. rewrite Z.abs_eq by done. change (256 ^ Z.of_nat BloomByteLength) with (2 ^ 2048). lia. }
  unfold BytesToBloom, Bloom_SetBytes. destruct (Nat.ltb_spec BloomByteLength (length (big_bytes z))); [lia|]. eexists. split; [done|].
  unfold zeroBloom. rewrite take_replicate. split; [rewrite length_app, length_replicate; lia|]. unfold Bloom_Big. rewrite be_value_zeros, be_value_big_bytes. by apply Z.abs_eq.
Qed.

Definition receipts_bits (rs : list Receipt) : Z := fold_left (fun bin r => Z.lor bin (LogsBloom (r_Logs r))) rs 0.

Lemma CreateBloom_bits rs : exists b, CreateBloom rs = Ok b /\ length b = BloomByteLength /\ Bloom_Big b = receipts_bits rs.
Proof.
  unfold CreateBloom. apply BytesToBloom_big. apply (fold_lor (fun r => LogsBloom (r_Logs r)) bloom_sized); [apply bloom_sized_lor|intros r; apply LogsBloom_sized|apply bloom_sized_0].
Qed.

(** What a log is looked up by: its address and its topics. *)
Definition log_keys (log : Log) : list bytes := addr_bytes (log_Address log) :: (hash_bytes <$> log_Topics log).

Lemma log_bits_covers log key : key ∈ log_keys log -> covers (log_bits log) (bloom9 key).
Proof.
  unfold log_keys, log_bits. intros H. apply elem_of_cons in H as [->|H]; [apply (fold_lor_keeps (fun t => bloom9 (hash_bytes t))), covers_refl|].
  apply list_elem_of_fmap in H as (t & -> & Ht). by apply (fold_lor_covers (fun t => bloom9 (hash_bytes t)) _ t); [|apply covers_refl].
Qed.

Lemma bloom_finds rs r log key b : CreateBloom rs = Ok b -> r ∈ rs -> log ∈ r_Logs r -> key ∈ log_keys log -> BloomLookup b key = true.
Proof.
  intros Hb Hr Hl Hk. destruct (CreateBloom_bits rs) as (b' & Hb' & _ & Hbig). rewrite Hb in Hb'. injection Hb' as <-.
  unfold BloomLookup. cbv zeta. rewrite Hbig. apply Z.eqb_eq. apply (fold_lor_covers (fun r => LogsBloom (r_Logs r)) rs r); [done|].
  rewrite LogsBloom_bits. apply (fold_lor_covers log_bits _ log); [done|]. by apply log_bits_covers.
Qed.
End bloom_facts.

(** ** Receipts on the wire *)

Record wf_log (l : Log) : Prop := { wl_address : wf_address (log_Address l); wl_topics : Forall wf_hash (log_Topics l) }.

Record wf_receipt (r : Receipt) : Prop := {
  wr_post : PostState r = [] \/ length (PostState r) = 32%nat;
  wr_status : Status r = ReceiptStatusFailed \/ Status r = ReceiptStatusSuccessful;
  wr_gas : in_u64 (CumulativeGasUsed r);
  wr_bloom : length (r_Bloom r) = BloomByteLength;
  wr_logs : Forall wf_log (r_Logs r) }.

(** What consensus is about, of a log and of a receipt. *)
Definition wire_log (l : Log) : Log := set_log_consensus (log_Address l) (log_Topics l) (log_Data l) zeroLog.
Definition wire_receipt (r : Receipt) : Receipt :=
  set_consensus (PostState r) (match PostState r with [] => Status r | _ => 0 end) (CumulativeGasUsed r) (r_Bloom r) (wire_log <$> r_Logs r) zeroReceipt.

Lemma decodesT_Hash h : wf_hash h -> decodesT decodeHash (hash_item h) h.
Proof.
  intros Hh. unfold decodeHash, hash_item. eapply decodesT_bind_ret; [by apply decodesT_ByteArray; [rewrite length_hash_bytes|]|].
  intros s. by rewrite BytesToHash_hash_bytes.
Qed.

Lemma at_EOL_Hash : at_EOL decodeHash.
Proof. unfold decodeHash. apply at_EOL_bind. unfold decodeByteArray. apply at_EOL_bind, at_EOL_Kind. Qed.

Lemma decodesT_log l : wf_log l -> decodesT (log_DecodeRLP zeroLog) (log_item l) (wire_log l).
Proof.
  intros [Ha Ht]. apply fieldsT_list. eapply fieldsT_bind; [by apply decodesT_Address|].
  eapply (fieldsT_bind _ _ _ _ (log_Topics l)); [apply decodesT_ListSlice; [apply at_EOL_Hash|]|].
  { induction Ht as [|t ts Ht _ IH]; [constructor|]. cbn. constructor; [by apply decodesT_Hash|done]. }
  eapply fieldsT_bind; [apply decodesT_ByteSlice|]. apply fieldsT_ret.
Qed.

Lemma setStatus_encoding r : PostState r = [] \/ length (PostState r) = 32%nat -> Status r = ReceiptStatusFailed \/ Status r = ReceiptStatusSuccessful ->
  setStatus (statusEncoding r) zeroReceipt = inr (set_consensus (PostState r) (match PostState r with [] => Status r | _ => 0 end) 0 zeroBloom [] zeroReceipt).
Proof.
  intros Hp Hs. unfold setStatus, statusEncoding. destruct (PostState r) as [|b l] eqn:E; [by destruct Hs as [-> | ->]|]. destruct Hp as [Hp|Hp]; [done|].
  rewrite bool_decide_eq_false_2; [|by intros [= -> ->]]. rewrite bool_decide_eq_false_2 by done. by rewrite Hp.
Qed.

(** C38: Receipts on the wire.  What is encoded for a receipt - its status or intermediate root, the gas used so far, the bloom filter and the logs - is decoded into a fresh receipt with exactly these fields, each log with its address, topics and data. *)
Theorem receipt_rlp_roundtrip r : wf_receipt r -> Z.of_nat (length (rlp_enc (receipt_item r))) <= 2 ^ 48 ->
  DecodeBytesT (receipt_DecodeRLP zeroReceipt) (EncodeToBytes (receipt_item r)) = Ok (wire_receipt r).
Proof.
  intros [Hp Hs Hg Hb Hl] Hlen. rewrite EncodeToBytes_rlp_enc by (unfold fits; lia). apply decodesT_DecodeBytes; [|done].
  unfold receipt_DecodeRLP. apply (decodesT_bind_ret _ _ _ (statusEncoding r, CumulativeGasUsed r, r_Bloom r, wire_log <$> r_Logs r)).
  - apply fieldsT_list. eapply fieldsT_bind; [apply decodesT_ByteSlice|]. eapply fieldsT_bind; [by apply decodesT_Uint64|].
    eapply fieldsT_bind; [apply (decodesT_ByteArray (r_Bloom r)); [by rewrite Hb|lia]|].
    eapply (fieldsT_bind _ _ _ _ (wire_log <$> r_Logs r)); [apply decodesT_ListSlice; [apply at_EOL_Struct|]|apply fieldsT_ret].
    clear Hlen. induction Hl as [|l ls Hl _ IH]; [constructor|]. cbn. constructor; [by apply decodesT_log|done].
  - intros s. rewrite setStatus_encoding by done. reflexivity.
Qed.

Definition sample_receipt : Receipt :=
  set_consensus [] 1 21000 zeroBloom [mkLog 500 [7; 8] [Byte.x01] 3 4 5 6 7 false] zeroReceipt.

Lemma receipt_rlp_roundtrip_witness :
  DecodeBytesT (receipt_DecodeRLP zeroReceipt) (EncodeToBytes (receipt_item sample_receipt)) = Ok (wire_receipt sample_receipt).
Proof.
  apply (receipt_rlp_roundtrip sample_receipt).
  - split; [by left|by right|unfold in_u64; cbn; lia|done|]. constructor; [|constructor]. split; [done|]. by repeat constructor.
  - by vm_compute.
Defined.
