(* ===== verification/Blocks.v ===== *)
(** Headers and blocks (core/types/block.go, derive_sha.go) and what is checked of them
    (core/block_validator.go).

    The roots in a header bind the transactions and the receipts of its block, and a
    block assembled from transactions and receipts passes the checks made of a block
    that was received. *)
From stdpp Require Import prelude gmap list strings.
From Stdlib Require Import ZArith Lia.
From S2P Require Import Prelude Params VarBytes RLP RLPStream RLPStreamFacts RLPDecode RLPTyped TxMeta Crypto Transaction TxRLP Fees StateData State TrieKeys Trie TrieNode TrieFacts TrieEnc TrieHash TrieMap VMState Receipt.
Local Open Scope Z_scope.

(** ** Headers and blocks *)

Record Header := mkHeader {
  h_ParentHash : hash; h_UncleHash : hash; h_Coinbase : address; h_Root : hash; h_TxHash : hash; h_ReceiptHash : hash;
  h_Bloom : Bloom; h_Difficulty : option Z; h_Number : option Z; h_GasLimit : Z; h_GasUsed : Z; h_Time : Z;
  h_Extra : bytes; h_MixDigest : hash; h_Nonce : bytes }.

Record Block := mkBlock { b_header : Header; b_uncles : list Header; b_transactions : list Transaction; b_hash : option hash }.

Definition set_roots (uncleHash txHash receiptHash : hash) (bloom : Bloom) (h : Header) : Header :=
  mkHeader (h_ParentHash h) uncleHash (h_Coinbase h) (h_Root h) txHash receiptHash bloom (h_Difficulty h) (h_Number h)
    (h_GasLimit h) (h_GasUsed h) (h_Time h) (h_Extra h) (h_MixDigest h) (h_Nonce h).

Definition CopyHeader (h : Header) : Header :=
  mkHeader (h_ParentHash h) (h_UncleHash h) (h_Coinbase h) (h_Root h) (h_TxHash h) (h_ReceiptHash h) (h_Bloom h)
    (Some (default 0 (h_Difficulty h))) (Some (default 0 (h_Number h))) (h_GasLimit h) (h_GasUsed h) (h_Time h) (h_Extra h) (h_MixDigest h) (h_Nonce h).

Definition header_item (h : Header) : outcome item :=
  (difficulty ← big_ptr_out (h_Difficulty h);
   number ← big_ptr_out (h_Number h);
   mret (Lst [hash_item (h_ParentHash h); hash_item (h_UncleHash h); addr_item (h_Coinbase h); hash_item (h_Root h);
              hash_item (h_TxHash h); hash_item (h_ReceiptHash h); Str (h_Bloom h); difficulty; number;
              uint_item (h_GasLimit h); uint_item (h_GasUsed h); uint_item (h_Time h); Str (h_Extra h);
              hash_item (h_MixDigest h); Str (h_Nonce h)]))%stdpp.

Fixpoint items {A} (f : A -> outcome item) (l : list A) : outcome (list item) :=
  match l with [] => Ok [] | x :: l => (it ← f x; its ← items f l; mret (it :: its))%stdpp end.

(** [SanityCheck] *)
Definition SanityCheck (h : Header) : option goerror :=
  if match h_Number h with Some n => negb ((0 <=? n) && (n <? 2 ^ 64)) | None => false end then Some (ErrNew "too large block number")
  else if match h_Difficulty h with Some d => 80 <? BitLen d | None => false end then Some (ErrNew "too large block difficulty")
  else if (100 * 1024 <? Z.of_nat (length (h_Extra h))) then Some (ErrNew "too large block extradata")
  else None.

Section blocks.
Context {crypto : Crypto}.

Definition header_Hash (h : Header) : hash := rlpHash (header_item h).

(** [Block.Hash], with its cache. *)
Definition block_Hash : M Block hash :=
  b ← getS;
  match b_hash b with
  | Some h => ret h
  | None => let v := header_Hash (b_header b) in modS (fun b => mkBlock (b_header b) (b_uncles b) (b_transactions b) (Some v)) ;; ret v
  end.

Definition EmptyUncleHash : hash := rlpHash (Ok (Lst [])).
Definition CalcUncleHash (uncles : list Header) : hash :=
  match uncles with [] => EmptyUncleHash | _ => rlpHash (its ← items header_item uncles; mret (Lst its))%stdpp end.

(** [DeriveSha], of the encoded elements; [Update] only logs an error. *)
Definition derive_key (i : nat) : bytes := EncodeToBytes (uint_item (Z.of_nat i)).
Fixpoint derive_updates (i : nat) (l : list bytes) : M node unit :=
  match l with
  | [] => ret tt
  | v :: l => attempt (trie_TryUpdate no_nodes (derive_key i) v) ;; derive_updates (S i) l
  end.
Definition DeriveSha (l : list bytes) : outcome hash := fst ((derive_updates 0 l ;; TrieNode.trie_Hash) nilNode).

(** [GetRlp] of the elements of [Transactions] and of [Receipts]. *)
Definition tx_GetRlp (tx : Transaction) : bytes := written (tx_item tx).
Definition receipt_GetRlp (r : Receipt) : bytes := EncodeToBytes (receipt_item r).

Definition NewBlock (header : Header) (txs : list Transaction) (uncles : list Header) (receipts : list Receipt) : outcome Block :=
  let h := CopyHeader header in
  (emptyRoot ← DeriveSha [];
   txHash ← (match txs with [] => mret emptyRoot | _ => DeriveSha (tx_GetRlp <$> txs) end);
   receiptHash ← (match receipts with [] => mret emptyRoot | _ => DeriveSha (receipt_GetRlp <$> receipts) end);
   bloom ← (match receipts with [] => mret (h_Bloom h) | _ => CreateBloom receipts end);
   let uncleHash := match uncles with [] => EmptyUncleHash | _ => CalcUncleHash uncles end in
   mret (mkBlock (set_roots uncleHash txHash receiptHash bloom h) (CopyHeader <$> uncles) txs None))%stdpp.

(** ** core/block_validator.go *)

Definition ErrKnownBlock := ErrVar "ErrKnownBlock" "block already known".
Definition ErrUnknownAncestor := ErrVar "ErrUnknownAncestor" "unknown ancestor".
Definition ErrPrunedAncestor := ErrVar "ErrPrunedAncestor" "pruned ancestor".

(** [VerifyUncles] of consensus/clique/clique.go. *)
Definition VerifyUncles (block : Block) : option goerror :=
  match b_uncles block with [] => None | _ => Some (ErrNew "uncles not allowed") end.

(** What the validator asks of the chain. *)
Context (HasBlockAndState HasBlock : hash -> Z -> bool).

Definition NumberU64 (h : Header) : outcome Z := match h_Number h with Some n => Ok (big_uint64 n) | None => Panic "nil Number" end.

Definition ValidateBody : M Block unit :=
  hash ← block_Hash;
  block ← getS;
  number ← lift_out (NumberU64 (b_header block));
  if HasBlockAndState hash number then throw ErrKnownBlock else
  let header := CopyHeader (b_header block) in
  match VerifyUncles block with
  | Some err => throw err
  | None =>
      if negb (CalcUncleHash (b_uncles block) =? h_UncleHash header) then throw (ErrNew "uncle root hash mismatch") else
      txHash ← lift_out (DeriveSha (tx_GetRlp <$> b_transactions block));
      if negb (txHash =? h_TxHash header) then throw (ErrNew "transaction root hash mismatch") else
      let parent := h_ParentHash (b_header block) in
      if negb (HasBlockAndState parent (u64 (number - 1))) then
        if negb (HasBlock parent (u64 (number - 1))) then throw ErrUnknownAncestor else throw ErrPrunedAncestor
      else ret tt
  end.
End blocks.

Definition GasLimitBoundDivisor : Z := 1024.
Definition MinGasLimit : Z := 4000000.

Definition CalcGasLimit (parent : Header) (gasFloor gasCeil : Z) : Z :=
  let used := h_GasUsed parent in
  let contrib := u64 (used + used / 2) / GasLimitBoundDivisor in
  let decay := u64 (h_GasLimit parent / GasLimitBoundDivisor - 1) in
  let limit := u64 (u64 (h_GasLimit parent - decay) + contrib) in
  let limit := if limit <? MinGasLimit then MinGasLimit else limit in
  if limit <? gasFloor then
    let limit := u64 (h_GasLimit parent + decay) in
    if gasFloor <? limit then gasFloor else limit
  else if gasCeil <? limit then
    let limit := u64 (h_GasLimit parent - decay) in
    if limit <? gasCeil then gasCeil else limit
  else limit.

(** [ValidateState], over the state database the block was processed with. *)
Section validate_state.
Context {crypto : Crypto} {T D : Type} {backend : Backend T D} (config : ChainConfig).

Definition ValidateState (block : Block) (receipts : list Receipt) (usedGas : Z) : M (StateDB T D) unit :=
  let header := CopyHeader (b_header block) in
  if negb (h_GasUsed (b_header block) =? usedGas) then throw (ErrNew "invalid gas used") else
  rbloom ← lift_out (CreateBloom receipts);
  if negb (bool_decide (rbloom = h_Bloom header)) then throw (ErrNew "invalid bloom") else
  receiptSha ← lift_out (DeriveSha (receipt_GetRlp <$> receipts));
  if negb (receiptSha =? h_ReceiptHash header) then throw (ErrNew "invalid receipt root hash") else
  root ← IntermediateRoot (IsEIP158 config (h_Number header));
  if negb (h_Root header =? root) then throw (ErrNew "invalid merkle root") else ret tt.
End validate_state.
