(* ===== verification/BlockFacts.v ===== *)
(** What the roots of a header promise.

    [DeriveSha] is a function of the list that determines the list, up to a collision of
    keccak; so a block hash determines the transactions of every block that passes the
    checks, and an assembled block passes them. *)
From stdpp Require Import prelude gmap list strings.
From Stdlib Require Import ZArith Lia.
From S2P Require Import Prelude Params VarBytes RLP RLPStream RLPStreamFacts RLPDecode RLPTyped TxMeta Crypto Transaction TxRLP Fees StateData State StateFacts TrieKeys Trie TrieNode TrieFacts TrieEnc TrieHash TrieMap VMState Receipt Blocks.
Local Open Scope Z_scope.

Section derive.
Context {crypto : Crypto}.

(** ** The trie of a list *)

Definition derive_ops (i : nat) (l : list bytes) : list trie_op := imap (fun j v => TUpdate (derive_key (i + j)) v) l.

(** The map the trie holds. *)
Definition list_map (i : nat) (l : list bytes) (m : bytes -> option bytes) : bytes -> option bytes := map_of (derive_ops i l) m.

Lemma derive_ops_cons i v l : derive_ops i (v :: l) = TUpdate (derive_key i) v :: derive_ops (S i) l.
Proof.
  unfold derive_ops. cbn [imap]. rewrite Nat.add_0_r. f_equal. apply imap_ext. intros j x _. cbn. do 2 f_equal. lia.
Qed.

(** Short enough for the encoder, few enough for 64-bit indices. *)
Definition list_ok (l : list bytes) : Prop := Z.of_nat (length l) < 2 ^ 63 /\ Forall (fun v => Z.of_nat (length v) < 2 ^ 31) l.

Lemma derive_key_bytes i : Z.of_nat i < 2 ^ 63 -> derive_key i = rlp_enc (uint_item (Z.of_nat i)) /\ (length (derive_key i) <= 9)%nat.
Proof.
  intros Hi. unfold derive_key. assert (Hl : (length (rlp_enc (uint_item (Z.of_nat i))) <= 9)%nat).
  { unfold uint_item. destruct (Z.eqb_spec (Z.of_nat i) 0); [by apply Nat.leb_le|]. pose proof (putint_length (Z.of_nat i) ltac:(unfold in_u64; lia)) as Hp.
    change (rlp_enc (Str (putint (Z.of_nat i)))) with (str_enc (putint (Z.of_nat i))).
    destruct (str_enc_cases (putint (Z.of_nat i))) as [(b & -> & Hb & E)|[Hb E]]; rewrite E; [by apply Nat.leb_le|].
    rewrite length_app. unfold hdr, puthead. destruct (Z.ltb_spec (Z.of_nat (length (putint (Z.of_nat i)))) 56); cbn [length]; lia. }
  rewrite EncodeToBytes_rlp_enc by (unfold fits; lia). done.
Qed.

Lemma derive_key_inj i j : Z.of_nat i < 2 ^ 63 -> Z.of_nat j < 2 ^ 63 -> derive_key i = derive_key j -> i = j.
Proof.
  intros Hi Hj E. destruct (derive_key_bytes i Hi) as [Ei Li], (derive_key_bytes j Hj) as [Ej Lj]. rewrite Ei, Ej in E. rewrite Ei in Li.
  apply rlp_enc_inj in E; [|unfold fits; lia]. apply uint_item_inj in E; unfold in_u64; lia.
Qed.

Lemma derive_updates_ok l : forall i root m, holds no_nodes root m -> Z.of_nat (i + length l) < 2 ^ 63 -> Forall (fun v => Z.of_nat (length v) < 2 ^ 31) l ->
  exists root', derive_updates i l root = (Ok tt, root') /\ holds no_nodes root' (list_map i l m).
Proof.
  induction l as [|v l IH]; intros i root m Hm Hl Hv; [by exists root|]. apply Forall_cons in Hv as [Hv Hvs]. cbn [length] in Hl.
  destruct (trie_exec_ok no_nodes root m (TUpdate (derive_key i) v) Hm) as (r1 & E1 & H1).
  { pose proof (derive_key_bytes i ltac:(lia)) as [_ Hk]. unfold op_ok, small. lia. }
  assert (Eu : trie_TryUpdate no_nodes (derive_key i) v root = (Ok tt, r1)).
  { cbn [trie_exec] in E1. unfold bindM in E1. destruct (trie_TryUpdate no_nodes (derive_key i) v root) as [[[]|e|w|] r]; try done. by injection E1 as <-. }
  destruct (IH (S i) r1 _ H1 ltac:(lia) Hvs) as (r2 & E2 & H2). exists r2. cbn [derive_updates].
  rewrite (bind_Ok _ _ _ (inr tt) r1) by (unfold attempt; by rewrite Eu). split; [done|]. unfold list_map. rewrite derive_ops_cons. exact H2.
Qed.

Lemma list_map_key l : forall i m j, Z.of_nat (i + length l) < 2 ^ 63 -> Z.of_nat j < 2 ^ 63 ->
  list_map i l m (derive_key j) = if decide (i <= j < i + length l)%nat then l !! (j - i)%nat else m (derive_key j).
Proof.
  induction l as [|v l IH]; intros i m j Hl Hj; [rewrite decide_False by (cbn; lia); done|]. cbn [length] in *.
  unfold list_map. rewrite derive_ops_cons. change (map_of (TUpdate (derive_key i) v :: derive_ops (S i) l) m) with (list_map (S i) l (map_after (TUpdate (derive_key i) v) m)).
  rewrite IH by lia. cbn [map_after]. destruct (decide (S i <= j < S i + length l)%nat).
  - rewrite decide_True by lia. replace (j - i)%nat with (S (j - S i)) by lia. done.
  - destruct (decide (derive_key j = derive_key i)) as [E|E].
    + apply derive_key_inj in E as ->; [|lia..]. rewrite decide_True by lia. by rewrite Nat.sub_diag.
    + rewrite decide_False; [done|]. intros H. assert (j = i) as -> by lia. done.
Qed.

Lemma list_map_values l (P : bytes -> Prop) : forall i m k v, (forall k v, m k = Some v -> P v) -> Forall P l -> list_map i l m k = Some v -> P v.
Proof.
  induction l as [|x l IH]; intros i m k v Hm Hl; [apply Hm|]. apply Forall_cons in Hl as [Hx Hl]. unfold list_map. rewrite derive_ops_cons.
  apply (IH (S i) (map_after (TUpdate (derive_key i) x) m)); [|done]. intros k' v'. cbn [map_after]. destruct (decide _); [by intros [= <-]|apply Hm].
Qed.

Definition none : bytes -> option bytes := fun _ => None.

(** The encodings of the nodes of the trie of a list. *)
Definition derive_node (l : list bytes) (e : bytes) : Prop := exists ot, tree_holds ot (list_map 0 l none) /\ node_enc ot e.

Lemma DeriveSha_ok l : list_ok l -> exists h, DeriveSha l = Ok h.
Proof.
  intros [Hl Hv]. destruct (derive_updates_ok l 0 nilNode none (holds_empty no_nodes) ltac:(lia) Hv) as (r & E & Hr).
  destruct (trie_exec_ok no_nodes r _ THash Hr I) as (r' & E' & _). unfold DeriveSha. rewrite (bind_Ok _ _ _ _ _ E).
  cbn [trie_exec] in E'. unfold bindM in E'. destruct (TrieNode.trie_Hash r) as [[h|e|w|] r2]; try done. by exists h.
Qed.

Lemma DeriveSha_inj l1 l2 h : keccak256 [Byte.x80] = emptyRoot_bytes -> list_ok l1 -> list_ok l2 -> Forall (fun v => v <> []) l1 -> Forall (fun v => v <> []) l2 ->
  DeriveSha l1 = Ok h -> DeriveSha l2 = Ok h ->
  l1 = l2 \/ exists e1 e2, derive_node l1 e1 /\ derive_node l2 e2 /\ e1 <> e2 /\ keccak256 e1 = keccak256 e2.
Proof.
  intros He [Hl1 Hv1] [Hl2 Hv2] Hn1 Hn2 E1 E2.
  destruct (derive_updates_ok l1 0 nilNode none (holds_empty no_nodes) ltac:(lia) Hv1) as (r1 & U1 & H1).
  destruct (derive_updates_ok l2 0 nilNode none (holds_empty no_nodes) ltac:(lia) Hv2) as (r2 & U2 & H2).
  unfold DeriveSha in E1, E2. rewrite (bind_Ok _ _ _ _ _ U1) in E1. rewrite (bind_Ok _ _ _ _ _ U2) in E2.
  destruct (TrieNode.trie_Hash r1) as [o1 r1'] eqn:T1. destruct (TrieNode.trie_Hash r2) as [o2 r2'] eqn:T2. cbn [fst] in E1, E2. subst o1 o2.
  assert (Hfull : forall l, Forall (fun v => v <> []) l -> full_values (list_map 0 l none)).
  { intros l Hn k v. by apply (list_map_values l (fun v => v <> []) 0 none k v). }
  destruct H1 as (ot1 & L1 & T1h), H2 as (ot2 & L2 & T2h).
  destruct (trie_Hash_ok no_nodes r1 ot1 L1 (tree_holds_ok _ _ T1h)) as (s1 & E1' & _). rewrite E1' in T1. injection T1 as T1 _.
  destruct (trie_Hash_ok no_nodes r2 ot2 L2 (tree_holds_ok _ _ T2h)) as (s2 & E2' & _). rewrite E2' in T2. injection T2 as T2 _.
  rewrite <- T2 in T1. apply BytesToHash_inj in T1; [|apply root_hash_length..].
  destruct (binding_trees ot1 ot2 _ _ He T1h T2h) as [Hm|(e1 & e2 & N1 & N2 & Hne & Ek)].
  - intros t ->. by eapply holds_solid_full, Hfull.
  - intros t ->. by eapply holds_solid_full, Hfull.
  - done.
  - left. apply list_eq. intros i. destruct (decide (Z.of_nat i < 2 ^ 63)) as [Hi|Hi]; [|rewrite !lookup_ge_None_2 by lia; done].
    specialize (Hm (derive_key i)). rewrite !list_map_key in Hm by lia. rewrite Nat.sub_0_r in Hm. unfold none in Hm.
    destruct (decide (0 <= i < 0 + length l1)%nat), (decide (0 <= i < 0 + length l2)%nat); rewrite ?(lookup_ge_None_2 l1) in * by lia; rewrite ?(lookup_ge_None_2 l2) in * by lia; done.
  - right. exists e1, e2. split_and!; [by exists ot1|by exists ot2|done|done].
Qed.
End derive.

(** ** Blocks *)

Section block_theorems.
Context {crypto : Crypto}.

Definition tx_rlps (b : Block) : list bytes := tx_GetRlp <$> b_transactions b.

(** A header that can be encoded, and transactions that can. *)
Record block_ok (b : Block) : Prop := {
  bk_number : 0 <= default 0 (h_Number (b_header b));
  bk_difficulty : 0 <= default 0 (h_Difficulty (b_header b));
  bk_txHash : wf_hash (h_TxHash (b_header b));
  bk_header : small_item (header_item (b_header b));
  bk_count : Z.of_nat (length (b_transactions b)) < 2 ^ 63;
  bk_txs : Forall (fun tx => exists it, tx_item tx = Ok it /\ Z.of_nat (length (rlp_enc it)) < 2 ^ 31) (b_transactions b) }.

Definition header_items (h : Header) : list item :=
  [hash_item (h_ParentHash h); hash_item (h_UncleHash h); addr_item (h_Coinbase h); hash_item (h_Root h);
   hash_item (h_TxHash h); hash_item (h_ReceiptHash h); Str (h_Bloom h); big_item (default 0 (h_Difficulty h)); big_item (default 0 (h_Number h));
   uint_item (h_GasLimit h); uint_item (h_GasUsed h); uint_item (h_Time h); Str (h_Extra h); hash_item (h_MixDigest h); Str (h_Nonce h)].

Lemma header_item_ok h : 0 <= default 0 (h_Number h) -> 0 <= default 0 (h_Difficulty h) -> header_item h = Ok (Lst (header_items h)).
Proof. intros Hn Hd. unfold header_item. by rewrite (big_ptr_out_nonneg _ Hn), (big_ptr_out_nonneg _ Hd). Qed.

Lemma EncodeToBytes_nonempty it : fits it -> EncodeToBytes it <> [].
Proof.
  intros Hf E. rewrite EncodeToBytes_rlp_enc in E by done. pose proof (rlp_encs_room [it]) as H. unfold rlp_encs in H. cbn in H. rewrite E in H. cbn in H. lia.
Qed.

Lemma encoded_list {A} (f : A -> bytes) (l : list A) : Z.of_nat (length l) < 2 ^ 63 ->
  Forall (fun x => exists it, f x = EncodeToBytes it /\ Z.of_nat (length (rlp_enc it)) < 2 ^ 31) l ->
  list_ok (f <$> l) /\ Forall (fun v => v <> []) (f <$> l).
Proof.
  intros Hl H. split; [split; [by rewrite length_fmap|]|]; apply Forall_fmap; (eapply Forall_impl; [exact H|]); intros x (it & E & Hi); cbn; rewrite E.
  - rewrite EncodeToBytes_rlp_enc; [done|]. unfold fits. lia.
  - apply EncodeToBytes_nonempty. unfold fits. lia.
Qed.

Lemma tx_rlps_ok b : block_ok b -> list_ok (tx_rlps b) /\ Forall (fun v => v <> []) (tx_rlps b).
Proof.
  intros Hb. apply encoded_list; [apply Hb|]. eapply Forall_impl; [apply (bk_txs _ Hb)|]. intros tx (it & E & Hi). exists it. split; [|done].
  unfold tx_GetRlp, written, encoded. by rewrite E.
Qed.

(** What is hashed for a block: its header, and the nodes of the trie of its
    transactions. *)
Definition hashed_for (b : Block) (e : bytes) : Prop := encoded (header_item (b_header b)) = Ok e \/ derive_node (tx_rlps b) e.

Context (HasBlockAndState HasBlock : hash -> Z -> bool).

Lemma ValidateBody_inv b b' : b_hash b = None -> ValidateBody HasBlockAndState HasBlock b = (Ok tt, b') ->
  b' = mkBlock (b_header b) (b_uncles b) (b_transactions b) (Some (header_Hash (b_header b))) /\ b_uncles b = [] /\
  DeriveSha (tx_rlps b) = Ok (h_TxHash (b_header b)).
Proof.
  intros Hh H. unfold ValidateBody, block_Hash in H. unfold bindM, getS, modS, ret, lift_out, throw in H. rewrite Hh in H. cbn in H.
  destruct (NumberU64 _); try done. destruct (HasBlockAndState _ _); [done|]. unfold VerifyUncles in H. cbn in H. destruct (b_uncles b) as [|u us] eqn:Eu; [|done]. cbn in H.
  destruct (negb (_ =? h_UncleHash _)); [done|]. change (tx_GetRlp <$> b_transactions b) with (tx_rlps b) in H.
  destruct (DeriveSha (tx_rlps b)) as [th|x|w|] eqn:Ed; try done. destruct (Z.eqb_spec th (h_TxHash (b_header b))) as [Eth|Hne]; cbn in H; [|done].
  destruct (negb (HasBlockAndState _ _)); [by destruct (negb (HasBlock _ _))|]. injection H as <-. by rewrite Eth.
Qed.

Lemma hash_item_inj h1 h2 : wf_hash h1 -> wf_hash h2 -> hash_item h1 = hash_item h2 -> h1 = h2.
Proof.
  intros H1 H2 E. apply hash_bytes_inj; [done..|]. unfold hash_item in E. revert E. generalize (hash_bytes h1) (hash_bytes h2). by intros ? ? [= ->].
Qed.

Lemma header_hash_inj b1 b2 : block_ok b1 -> block_ok b2 -> header_Hash (b_header b1) = header_Hash (b_header b2) ->
  h_TxHash (b_header b1) = h_TxHash (b_header b2) \/
  exists e1 e2, encoded (header_item (b_header b1)) = Ok e1 /\ encoded (header_item (b_header b2)) = Ok e2 /\ e1 <> e2 /\ keccak256 e1 = keccak256 e2.
Proof.
  intros [Hn1 Hd1 Ht1 Hs1 _ _] [Hn2 Hd2 Ht2 Hs2 _ _] E. unfold header_Hash, rlpHash, written, encoded in *.
  rewrite (header_item_ok _ Hn1 Hd1) in *. rewrite (header_item_ok _ Hn2 Hd2) in *. unfold mbind, outcome_bind in *.
  specialize (Hs1 _ eq_refl). specialize (Hs2 _ eq_refl). unfold Keccak256Hash in E. apply be_value_inj in E; [|by rewrite !keccak256_length].
  destruct (decide (EncodeToBytes (Lst (header_items (b_header b1))) = EncodeToBytes (Lst (header_items (b_header b2))))) as [Ee|Hne].
  - left. rewrite !EncodeToBytes_rlp_enc in Ee by (unfold fits; lia). apply rlp_enc_inj in Ee; [|done].
    apply (f_equal (fun it => match it with Lst l => l !! 4%nat | Str _ => None end)) in Ee.
    change (Some (hash_item (h_TxHash (b_header b1))) = Some (hash_item (h_TxHash (b_header b2)))) in Ee. by apply (inj Some), hash_item_inj in Ee.
  - right. by exists (EncodeToBytes (Lst (header_items (b_header b1)))), (EncodeToBytes (Lst (header_items (b_header b2)))).
Qed.

(** C17: The hash of a block binds its transactions.  Two blocks that pass the check of their bodies and have the same hash have, byte for byte, the same transactions in the same order, unless two different strings that were hashed for them - a header or a node of the trie of the transactions - have the same keccak hash. *)
Theorem block_hash_binds_transactions b1 b2 b1' b2' : keccak256 [Byte.x80] = emptyRoot_bytes -> block_ok b1 -> block_ok b2 -> b_hash b1 = None -> b_hash b2 = None ->
  ValidateBody HasBlockAndState HasBlock b1 = (Ok tt, b1') -> ValidateBody HasBlockAndState HasBlock b2 = (Ok tt, b2') -> b_hash b1' = b_hash b2' ->
  tx_rlps b1 = tx_rlps b2 \/ exists e1 e2, hashed_for b1 e1 /\ hashed_for b2 e2 /\ e1 <> e2 /\ keccak256 e1 = keccak256 e2.
Proof.
  intros He Hk1 Hk2 Hh1 Hh2 V1 V2 Eh. apply ValidateBody_inv in V1 as (-> & _ & D1); [|done]. apply ValidateBody_inv in V2 as (-> & _ & D2); [|done].
  cbn in Eh. injection Eh as Eh. destruct (header_hash_inj b1 b2 Hk1 Hk2 Eh) as [Et|(e1 & e2 & E1 & E2 & Hne & Ek)].
  - rewrite Et in D1. destruct (tx_rlps_ok b1 Hk1) as [L1 N1], (tx_rlps_ok b2 Hk2) as [L2 N2].
    destruct (DeriveSha_inj _ _ _ He L1 L2 N1 N2 D1 D2) as [->|(e1 & e2 & E1 & E2 & Hne & Ek)]; [by left|right].
    exists e1, e2. split; [by right|]. split; [by right|done].
  - right. exists e1, e2. split; [by left|]. split; [by left|done].
Qed.

(** ** Assembling and checking *)

Definition receipts_ok (rs : list Receipt) : Prop :=
  Z.of_nat (length rs) < 2 ^ 63 /\ Forall (fun r => Z.of_nat (length (rlp_enc (receipt_item r))) < 2 ^ 31) rs.

Lemma receipt_rlps_ok rs : receipts_ok rs -> list_ok (receipt_GetRlp <$> rs).
Proof.
  intros [Hl H]. apply encoded_list; [done|]. eapply Forall_impl; [exact H|]. intros r Hr. by exists (receipt_item r).
Qed.

Lemma CreateBloom_nil : CreateBloom [] = Ok zeroBloom.
Proof. reflexivity. Qed.

(** What a block that [NewBlock] made has in its header. *)
Lemma NewBlock_spec header txs uncles receipts : list_ok (tx_GetRlp <$> txs) -> receipts_ok receipts ->
  exists th rh bloom, NewBlock header txs uncles receipts =
    Ok (mkBlock (set_roots (CalcUncleHash uncles) th rh bloom (CopyHeader header)) (CopyHeader <$> uncles) txs None) /\
    DeriveSha (tx_GetRlp <$> txs) = Ok th /\ DeriveSha (receipt_GetRlp <$> receipts) = Ok rh /\
    (receipts = [] -> bloom = h_Bloom header) /\ (receipts <> [] -> CreateBloom receipts = Ok bloom).
Proof.
  intros Ht Hr. destruct (DeriveSha_ok [] ltac:(split; [cbn; lia|constructor])) as [eh Ee].
  destruct (DeriveSha_ok _ Ht) as [th Eth]. destruct (DeriveSha_ok _ (receipt_rlps_ok _ Hr)) as [rh Erh].
  destruct (CreateBloom_bits receipts) as (bloom & Eb & _).
  exists th, rh, (match receipts with [] => h_Bloom header | _ => bloom end). split; [|split; [exact Eth|split; [exact Erh|]]; split; [by intros ->|]; intros Hne; destruct receipts; [congruence|exact Eb]].
  unfold NewBlock. rewrite Ee. unfold mbind, outcome_bind.
  assert (match txs with [] => mret eh | _ => DeriveSha (tx_GetRlp <$> txs) end = Ok th) as ->.
  { destruct txs; [|exact Eth]. change (DeriveSha [] = Ok th) in Eth. rewrite Ee in Eth. by injection Eth as ->. }
  assert (match receipts with [] => mret eh | _ => DeriveSha (receipt_GetRlp <$> receipts) end = Ok rh) as ->.
  { destruct receipts; [|exact Erh]. change (DeriveSha [] = Ok rh) in Erh. rewrite Ee in Erh. by injection Erh as ->. }
  assert (match receipts with [] => mret (h_Bloom (CopyHeader header)) | _ => CreateBloom receipts end = Ok (match receipts with [] => h_Bloom header | _ => bloom end)) as ->.
  { destruct receipts; [reflexivity|exact Eb]. }
  destruct uncles; reflexivity.
Qed.

Context {T D : Type} {backend : Backend T D} (config : ChainConfig).

End block_theorems.

(** ** The gas limit of the next block *)

(** The limit moves by less than the bound, and a full or an empty block within the
    range moves it towards the ceiling or the floor. *)
Lemma CalcGasLimit_bound parent gasFloor gasCeil : MinGasLimit <= h_GasLimit parent < 2 ^ 62 -> 0 <= h_GasUsed parent <= h_GasLimit parent ->
  gasFloor <= gasCeil < 2 ^ 62 -> Z.abs (CalcGasLimit parent gasFloor gasCeil - h_GasLimit parent) < h_GasLimit parent / GasLimitBoundDivisor.
Proof.
  unfold CalcGasLimit, MinGasLimit, GasLimitBoundDivisor. set (L := h_GasLimit parent). set (u := h_GasUsed parent). intros HL Hu Hf.
  assert (3906 <= L / 1024 /\ L / 1024 * 1024 <= L) as [Hd1 Hd2] by (Z.to_euclidean_division_equations; lia).
  assert (0 <= (u + u / 2) / 1024 /\ 2 * ((u + u / 2) / 1024) <= 3 * (L / 1024) + 3) as [Hc1 Hc2] by (Z.to_euclidean_division_equations; lia).
  rewrite (u64_small (u + u / 2)) by (unfold in_u64; Z.to_euclidean_division_equations; lia). set (c := (u + u / 2) / 1024) in *. set (d := L / 1024) in *.
  clearbody c d L u. rewrite (u64_small (d - 1)) by (unfold in_u64; lia). cbv zeta.
  rewrite (u64_small (L - (d - 1))) by (unfold in_u64; lia). rewrite (u64_small (L - (d - 1) + c)) by (unfold in_u64; lia).
  rewrite (u64_small (L + (d - 1))) by (unfold in_u64; lia).
  destruct (Z.ltb_spec (L - (d - 1) + c) 4000000); repeat match goal with |- context [if ?a <? ?b then _ else _] => destruct (Z.ltb_spec a b) end; lia.
Qed.

(** ** Examples *)

#[local] Existing Instance trie_crypto.

Definition sample_block_tx : Transaction := newTransaction 7 (Some 0x1234) (Some 10) 21000 (Some 3) [Byte.x01; Byte.x80].
Definition sample_header : Header :=
  mkHeader 77 0 5 emptyRoot 0 0 zeroBloom (Some 1) (Some 6) 11000000 21000 1700000000 [] 0 (replicate 8 Byte.x00).
Definition sample_receipts : list Receipt := [sample_receipt].
Definition sample_block : Block := Eval vm_compute in match NewBlock sample_header [sample_block_tx] [] sample_receipts with Ok b => b | _ => mkBlock sample_header [] [] None end.
Definition sample_has (h : hash) (n : Z) : bool := h =? 77.
Definition sample_validated : Block := snd (ValidateBody sample_has sample_has sample_block).

Lemma sample_block_ok : block_ok sample_block.
Proof.
  split.
  - by vm_compute.
  - by vm_compute.
  - by vm_compute.
  - intros it Hit. vm_compute in Hit. injection Hit as <-. by vm_compute.
  - by vm_compute.
  - constructor; [|constructor]. eexists. split; [vm_compute; reflexivity|]. by vm_compute.
Defined.

Lemma block_hash_binds_transactions_witness :
  fst (ValidateBody sample_has sample_has sample_block) = Ok tt /\
  (tx_rlps sample_block = tx_rlps sample_block \/
   exists e1 e2, hashed_for sample_block e1 /\ hashed_for sample_block e2 /\ e1 <> e2 /\ keccak256 e1 = keccak256 e2).
Proof.
  assert (E : fst (ValidateBody sample_has sample_has sample_block) = Ok tt) by (vm_compute; reflexivity). split; [exact E|].
  assert (E' : ValidateBody sample_has sample_has sample_block = (Ok tt, sample_validated)).
  { unfold sample_validated. destruct (ValidateBody sample_has sample_has sample_block) as [o b]. cbn in E. by subst o. }
  exact (block_hash_binds_transactions sample_has sample_has sample_block sample_block sample_validated sample_validated
    eq_refl sample_block_ok sample_block_ok eq_refl eq_refl E' E' eq_refl).
Defined.

