(* ===== verification/Filters.v ===== *)
(** Searching logs (eth/filters/filter.go, and what it asks of eth/api_backend.go).

    A range of blocks is searched by the bloom filters in their headers: blocks covered by
    the index through a matcher, the others one by one.  Every log that matches is found,
    in the order of the chain. *)
From stdpp Require Import prelude gmap list strings.
From Stdlib Require Import ZArith Lia.
From S2P Require Import Prelude Params VarBytes RLP RLPStream RLPStreamFacts RLPDecode RLPTyped TxMeta Crypto Transaction TxRLP Fees StateData VMWord VMWordFacts VMState Receipt Blocks.
Local Open Scope Z_scope.

(** What a filter asks of the node.  [matched] is a session of the matcher of
    core/bloombits: the numbers it delivers for a range, and its error. *)
Class LogSource := {
  HeaderByNumber : Z -> goerror + option Header;
  HeaderByHash : hash -> goerror + option Header;
  GetReceipts : hash -> goerror + list Receipt;
  GetLogs : hash -> goerror + list (list Log);
  BloomStatus : Z * Z;
  matched : list address -> list (list hash) -> Z -> Z -> list Z * option goerror }.

Definition LatestBlockNumber : Z := -1.
Definition PendingBlockNumber : Z := -2.

Record Filter := mkFilter { f_addresses : list address; f_topics : list (list hash); f_block : hash; f_begin : Z; f_end : Z }.
Definition set_begin (v : Z) (f : Filter) : Filter := mkFilter (f_addresses f) (f_topics f) (f_block f) v (f_end f).

Definition NewRangeFilter (begin end_ : Z) (addresses : list address) (topics : list (list hash)) : Filter := mkFilter addresses topics 0 begin end_.
Definition NewBlockFilter (block : hash) (addresses : list address) (topics : list (list hash)) : Filter := mkFilter addresses topics block 0 0.

Fixpoint includes (addresses : list address) (a : address) : bool :=
  match addresses with [] => false | addr :: addresses => if addr =? a then true else includes addresses a end.

(** The loop over the topics; [i] is within the topics of the log. *)
Fixpoint topics_match (topics : list (list hash)) (i : nat) (log : Log) : bool :=
  match topics with
  | [] => true
  | sub :: topics =>
      let topic := nth i (log_Topics log) 0 in
      if (length sub =? 0)%nat || includes sub topic then topics_match topics (S i) log else false
  end.

(** [filterLogs] *)
Definition keeps (fromBlock toBlock : option Z) (addresses : list address) (topics : list (list hash)) (log : Log) : bool :=
  if match fromBlock with Some n => (0 <=? i64 n) && (log_BlockNumber log <? big_uint64 n) | None => false end then false
  else if match toBlock with Some n => (0 <=? i64 n) && (big_uint64 n <? log_BlockNumber log) | None => false end then false
  else if (0 <? length addresses)%nat && negb (includes addresses (log_Address log)) then false
  else if (length (log_Topics log) <? length topics)%nat then false
  else topics_match topics 0 log.
Fixpoint filterLogs (logs : list Log) (fromBlock toBlock : option Z) (addresses : list address) (topics : list (list hash)) : list Log :=
  match logs with
  | [] => []
  | log :: logs =>
      let ret := filterLogs logs fromBlock toBlock addresses topics in
      if keeps fromBlock toBlock addresses topics log then log :: ret else ret
  end.

Section filters.
Context {crypto : Crypto} {source : LogSource}.

Fixpoint included (bloom : Bloom) (keys : list bytes) : bool :=
  match keys with [] => false | k :: keys => if BloomLookup bloom k then true else included bloom keys end.

Fixpoint topics_filter (bloom : Bloom) (topics : list (list hash)) : bool :=
  match topics with
  | [] => true
  | sub :: topics => if (length sub =? 0)%nat || included bloom (hash_bytes <$> sub) then topics_filter bloom topics else false
  end.
Definition bloomFilter (bloom : Bloom) (addresses : list address) (topics : list (list hash)) : bool :=
  if (0 <? length addresses)%nat && negb (included bloom (addr_bytes <$> addresses)) then false else topics_filter bloom topics.

Definition checkMatches (header : Header) (f : Filter) : list Log * option goerror :=
  match GetLogs (header_Hash header) with
  | inl err => ([], Some err)
  | inr logsList =>
      let logs := filterLogs (concat logsList) None None (f_addresses f) (f_topics f) in
      match logs with
      | [] => ([], None)
      | l :: _ =>
          if log_TxHash l =? 0 then
            match GetReceipts (header_Hash header) with
            | inl err => ([], Some err)
            | inr receipts => (filterLogs (concat (r_Logs <$> receipts)) None None (f_addresses f) (f_topics f), None)
            end
          else (logs, None)
      end
  end.

Definition blockLogs (header : Header) (f : Filter) : list Log * option goerror :=
  if bloomFilter (h_Bloom header) (f_addresses f) (f_topics f) then checkMatches header f else ([], None).

(** [unindexedLogs]; the range bounds the loop. *)
Fixpoint unindexed_loop (fuel : nat) (end_ : Z) (logs : list Log) : M Filter (list Log * option goerror) :=
  match fuel with
  | O => blocked
  | S fuel =>
      f ← getS;
      if f_begin f <=? i64 end_ then
        match HeaderByNumber (f_begin f) with
        | inl err => ret (logs, Some err)
        | inr None => ret (logs, None)
        | inr (Some header) =>
            match blockLogs header f with
            | (_, Some err) => ret (logs, Some err)
            | (found, None) =>
                modS (fun f => set_begin (i64 (f_begin f + 1)) f) ;; unindexed_loop fuel end_ (logs ++ found)
            end
        end
      else ret (logs, None)
  end.
Definition unindexedLogs (end_ : Z) : M Filter (list Log * option goerror) :=
  f ← getS; unindexed_loop (S (Z.to_nat (i64 end_ - f_begin f + 1))) end_ [].

(** [indexedLogs], without cancellation. *)
Fixpoint indexed_loop (numbers : list Z) (logs : list Log) : M Filter (option (list Log * option goerror) * list Log) :=
  match numbers with
  | [] => ret (None, logs)
  | number :: numbers =>
      modS (set_begin (i64 (number + 1))) ;;
      match HeaderByNumber (i64 number) with
      | inl err => ret (Some (logs, Some err), logs)
      | inr None => ret (Some (logs, None), logs)
      | inr (Some header) =>
          f ← getS;
          match checkMatches header f with
          | (_, Some err) => ret (Some (logs, Some err), logs)
          | (found, None) => indexed_loop numbers (logs ++ found)
          end
      end
  end.
Definition indexedLogs (end_ : Z) : M Filter (list Log * option goerror) :=
  f ← getS;
  let '(numbers, err) := matched (f_addresses f) (f_topics f) (u64 (f_begin f)) end_ in
  '(early, logs) ← indexed_loop numbers [];
  match early with
  | Some r => ret r
  | None => when (bool_decide (err = None)) (modS (set_begin (i64 (i64 end_ + 1)))) ;; ret (logs, err)
  end.

Definition Logs : M Filter (list Log * option goerror) :=
  f ← getS;
  if negb (f_block f =? 0) then
    match HeaderByHash (f_block f) with
    | inl err => ret ([], Some err)
    | inr None => ret ([], Some (ErrNew "unknown block"))
    | inr (Some header) => ret (blockLogs header f)
    end
  else
    match HeaderByNumber LatestBlockNumber with
    | inr (Some header) =>
        head ← lift_out (NumberU64 header);
        when (f_begin f =? -1) (modS (set_begin (i64 head))) ;;
        f ← getS;
        let end_ := if f_end f =? -1 then head else u64 (f_end f) in
        let '(size, sections) := BloomStatus in
        let indexed := u64 (sections * size) in
        '(logs, err) ← (if u64 (f_begin f) <? indexed then indexedLogs (if end_ <? indexed then end_ else u64 (indexed - 1)) else ret ([], None));
        match err with
        | Some _ => ret (logs, err)
        | None => '(rest, err) ← unindexedLogs end_; ret (logs ++ rest, err)
        end
    | _ => ret ([], None)
    end.
End filters.

(** ** The node as a source (eth/api_backend.go) *)

(** The block chain, asked for a header by number or hash, and for receipts. *)
Definition EthAPIBackend {crypto : Crypto} (CurrentHeader : Header) (GetHeaderByNumber : Z -> option Header) (GetHeaderByHash : hash -> option Header)
    (GetReceiptsByHash : hash -> option (list Receipt)) (status : Z * Z) (session : list address -> list (list hash) -> Z -> Z -> list Z * option goerror) : LogSource := {|
  HeaderByNumber := fun number => inr (if (number =? LatestBlockNumber) || (number =? PendingBlockNumber) then Some CurrentHeader else GetHeaderByNumber (u64 number));
  HeaderByHash := fun h => inr (GetHeaderByHash h);
  GetReceipts := fun h => inr (default [] (GetReceiptsByHash h));
  GetLogs := fun h => inr (match GetReceiptsByHash h with None => [] | Some receipts => r_Logs <$> receipts end);
  BloomStatus := status;
  matched := session |}.

(** ** What a filter promises *)

(** A log matches: it comes from one of the addresses, if there are any, and each
    topic of the filter names the topic of the log in its position or nothing. *)
Definition matches (addresses : list address) (topics : list (list hash)) (log : Log) : Prop :=
  (addresses = [] \/ log_Address log ∈ addresses) /\ (length topics <= length (log_Topics log))%nat /\
  Forall (fun st => st.1 = [] \/ st.2 ∈ st.1) (zip topics (log_Topics log)).

#[global] Instance matches_dec addresses topics log : Decision (matches addresses topics log).
Proof. unfold matches. apply _. Defined.

Lemma includes_elem l a : includes l a = true <-> a ∈ l.
Proof.
  induction l as [|x l IH]; cbn; [split; [done|by intros ?%not_elem_of_nil]|]. rewrite elem_of_cons. destruct (Z.eqb_spec x a) as [->|Hne]; [tauto|].
  rewrite IH. split; [tauto|]. intros [E|]; [congruence|tauto].
Qed.

Lemma topics_match_spec topics : forall i log, (i + length topics <= length (log_Topics log))%nat ->
  (topics_match topics i log = true <-> Forall (fun st => st.1 = [] \/ st.2 ∈ st.1) (zip topics (drop i (log_Topics log)))).
Proof.
  induction topics as [|sub topics IH]; intros i log Hl; [split; [constructor|done]|]. cbn [length] in Hl. cbn [topics_match].
  destruct (lookup_lt_is_Some_2 (log_Topics log) i ltac:(lia)) as [t Ht]. rewrite (drop_S _ _ _ Ht). cbn [zip zip_with]. rewrite Forall_cons.
  rewrite (nth_lookup_Some _ _ _ _ Ht). rewrite <- (IH (S i) log) by lia. cbn [fst snd].
  destruct ((length sub =? 0)%nat || includes sub t) eqn:E.
  - apply orb_true_iff in E as [E|E]; [apply Nat.eqb_eq, length_zero_iff_nil in E; tauto|apply includes_elem in E; tauto].
  - apply orb_false_iff in E as [E1 E2]. split; [done|]. intros [[->|H] _]; [done|]. apply includes_elem in H. congruence.
Qed.

Lemma keeps_spec addresses topics log : keeps None None addresses topics log = true <-> matches addresses topics log.
Proof.
  unfold keeps, matches. destruct addresses as [|a addresses].
  - change (0 <? length (@nil address))%nat with false. cbn [andb]. destruct (Nat.ltb_spec (length (log_Topics log)) (length topics)); [split; [done|lia]|]. rewrite topics_match_spec by lia. rewrite drop_0. tauto.
  - change (0 <? length (a :: addresses))%nat with true. cbn [andb]. destruct (includes (a :: addresses) (log_Address log)) eqn:E; cbn [negb].
    + apply includes_elem in E. destruct (Nat.ltb_spec (length (log_Topics log)) (length topics)); [split; [done|lia]|]. rewrite topics_match_spec by lia. rewrite drop_0. tauto.
    + split; [done|]. intros [[?|H] _]; [done|]. apply includes_elem in H. congruence.
Qed.

Lemma filterLogs_spec logs addresses topics : filterLogs logs None None addresses topics = filter (matches addresses topics) logs.
Proof.
  induction logs as [|log logs IH]; [done|]. cbn [filterLogs]. rewrite filter_cons, IH. destruct (keeps _ _ _ _ log) eqn:E.
  - apply keeps_spec in E. by rewrite decide_True.
  - rewrite decide_False; [done|]. intros H. apply keeps_spec in H. congruence.
Qed.

Section search.
Context {crypto : Crypto} {source : LogSource} (addresses : list address) (topics : list (list hash)).

Lemma included_spec bloom keys k : k ∈ keys -> BloomLookup bloom k = true -> included bloom keys = true.
Proof.
  intros Hk Hb. induction keys as [|x keys IH]; [by apply not_elem_of_nil in Hk|]. cbn. apply elem_of_cons in Hk as [->|Hk]; [by rewrite Hb|].
  destruct (BloomLookup bloom x); [done|by apply IH].
Qed.

(** The filter of a block lets every log of the block through. *)
Lemma bloomFilter_finds rs r log bloom : CreateBloom rs = Ok bloom -> r ∈ rs -> log ∈ r_Logs r -> matches addresses topics log ->
  bloomFilter bloom addresses topics = true.
Proof.
  intros Hb Hr Hl (Ha & Hlen & Ht). assert (Hfind : forall key, key ∈ log_keys log -> BloomLookup bloom key = true) by (intros key; by eapply bloom_finds).
  assert (Hts : topics_filter bloom topics = true).
  { assert (Hsub : Forall (fun t => BloomLookup bloom (hash_bytes t) = true) (log_Topics log)).
    { apply Forall_forall. intros t Hin. apply Hfind. unfold log_keys. apply elem_of_cons. right. by apply list_elem_of_fmap_2. }
    revert Hlen Ht Hsub. generalize (log_Topics log). clear. induction topics as [|sub ts IH]; intros l Hlen Ht Hsub; [done|].
    destruct l as [|t l]; [cbn in Hlen; lia|]. cbn [zip zip_with] in Ht. apply Forall_cons in Ht as [Ht Hts]. apply Forall_cons in Hsub as [Hs Hsub]. cbn [fst snd] in Ht.
    cbn [topics_filter length] in *. assert ((length sub =? 0)%nat || included bloom (hash_bytes <$> sub) = true) as ->.
    { destruct Ht as [->|Ht]; [done|]. apply orb_true_iff. right. eapply included_spec; [by apply list_elem_of_fmap_2|done]. }
    apply (IH l); [lia|done|done]. }
  unfold bloomFilter. destruct Ha as [->|Ha]; [exact Hts|].
  assert (included bloom (addr_bytes <$> addresses) = true) as ->.
  { eapply included_spec; [by apply list_elem_of_fmap_2|]. apply Hfind. apply elem_of_cons. by left. }
  by rewrite andb_false_r.
Qed.

(** A chain of blocks [0 .. head], and a node that serves it: headers with the bloom
    filter of their receipts, the logs of the receipts, and, for the blocks that are
    indexed, a matcher that delivers the blocks whose bloom filter matches. *)
Record serves (head : Z) (header : Z -> Header) (receipts : Z -> list Receipt) : Prop := {
  sv_head : 0 <= head < 2 ^ 62;
  sv_latest : HeaderByNumber LatestBlockNumber = inr (Some (header head));
  sv_headNumber : h_Number (header head) = Some head;
  sv_number : forall n, 0 <= n <= head -> HeaderByNumber n = inr (Some (header n));
  sv_logs : forall n, 0 <= n <= head -> GetLogs (header_Hash (header n)) = inr (r_Logs <$> receipts n);
  sv_bloom : forall n, 0 <= n <= head -> CreateBloom (receipts n) = Ok (h_Bloom (header n));
  sv_txHash : forall n r log, 0 <= n <= head -> r ∈ receipts n -> log ∈ r_Logs r -> log_TxHash log <> 0;
  sv_indexed : 0 <= BloomStatus.2 * BloomStatus.1 <= head + 1;
  sv_matched : forall b e, 0 <= b -> e < BloomStatus.2 * BloomStatus.1 ->
    matched addresses topics b e = (filter (fun n => bloomFilter (h_Bloom (header n)) addresses topics = true) (seqZ b (e - b + 1)), None) }.

Context (head : Z) (header : Z -> Header) (receipts : Z -> list Receipt) (Hserves : serves head header receipts).

(** The logs of block [n] that match. *)
Definition block_matches (n : Z) : list Log := filter (matches addresses topics) (concat (r_Logs <$> receipts n)).
Definition range_matches (b e : Z) : list Log := concat (block_matches <$> seqZ b (e - b + 1)).

Definition my_filter (begin : Z) (f : Filter) : Prop := f_addresses f = addresses /\ f_topics f = topics /\ f_begin f = begin.

Lemma my_filter_begin b b' f : my_filter b f -> my_filter b' (set_begin b' f).
Proof. by intros (? & ? & ?). Qed.

Lemma checkMatches_ok n f : 0 <= n <= head -> f_addresses f = addresses -> f_topics f = topics -> checkMatches (header n) f = (block_matches n, None).
Proof.
  intros Hn Ha Ht. unfold checkMatches. rewrite Ha, Ht. rewrite (sv_logs _ _ _ Hserves n Hn). rewrite filterLogs_spec. change (filter (matches addresses topics) (concat (r_Logs <$> receipts n))) with (block_matches n).
  destruct (block_matches n) as [|l ls] eqn:E; [done|]. destruct (Z.eqb_spec (log_TxHash l) 0) as [H0|]; [|done]. exfalso.
  assert (Hl : l ∈ block_matches n) by (rewrite E; apply elem_of_cons; by left). unfold block_matches in Hl. apply list_elem_of_filter in Hl as [_ Hl].
  apply list_elem_of_In, in_concat in Hl as (x & Hx & Hlx). apply list_elem_of_In in Hx, Hlx. apply list_elem_of_fmap in Hx as (r & -> & Hr).
  by apply (sv_txHash _ _ _ Hserves n r l Hn Hr Hlx).
Qed.

(** A block whose bloom filter does not match has nothing to find. *)
Lemma no_match n : 0 <= n <= head -> bloomFilter (h_Bloom (header n)) addresses topics = false -> block_matches n = [].
Proof.
  intros Hn Hb. destruct (block_matches n) as [|l ls] eqn:E; [done|]. exfalso.
  assert (Hl : l ∈ block_matches n) by (rewrite E; apply elem_of_cons; by left). unfold block_matches in Hl. apply list_elem_of_filter in Hl as [Hm Hl].
  apply list_elem_of_In, in_concat in Hl as (x & Hx & Hlx). apply list_elem_of_In in Hx, Hlx. apply list_elem_of_fmap in Hx as (r & -> & Hr).
  pose proof (bloomFilter_finds (receipts n) r l _ (sv_bloom _ _ _ Hserves n Hn) Hr Hlx Hm). congruence.
Qed.

Lemma blockLogs_ok n f : 0 <= n <= head -> f_addresses f = addresses -> f_topics f = topics -> blockLogs (header n) f = (block_matches n, None).
Proof.
  intros Hn Ha Ht. unfold blockLogs. rewrite Ha, Ht. destruct (bloomFilter _ _ _) eqn:E; [by apply checkMatches_ok|]. by rewrite no_match.
Qed.

Lemma range_matches_cons b e : b <= e -> range_matches b e = block_matches b ++ range_matches (b + 1) e.
Proof.
  intros Hbe. unfold range_matches. rewrite (seqZ_cons b (e - b + 1)) by lia. cbn. do 4 f_equal; lia.
Qed.
Lemma range_matches_nil b e : e < b -> range_matches b e = [].
Proof. intros H. unfold range_matches. by rewrite seqZ_nil by lia. Qed.
Lemma range_matches_app b m e : b <= m + 1 -> m <= e -> range_matches b e = range_matches b m ++ range_matches (m + 1) e.
Proof.
  intros H1 H2. unfold range_matches. replace (e - b + 1) with ((m - b + 1) + (e - (m + 1) + 1)) by lia. rewrite seqZ_app by lia. rewrite fmap_app, concat_app. do 4 f_equal; lia.
Qed.

Lemma unindexed_ok fuel : forall b e logs f, my_filter b f -> 0 <= b -> 0 <= e <= head -> (Z.to_nat (e - b + 1) < fuel)%nat ->
  exists f', unindexed_loop fuel e logs f = (Ok (logs ++ range_matches b e, None), f').
Proof.
  pose proof (sv_head _ _ _ Hserves) as Hh. induction fuel as [|fuel IH]; intros b e logs f Hm Hb0 He Hf; [lia|]. cbn [unindexed_loop].
  pose proof Hm as (Ha & Ht & Hb). rewrite (bind_Ok getS _ _ _ _ eq_refl), Hb, (word_i64_small e) by lia. destruct (Z.leb_spec b e) as [Hle|Hgt].
  - rewrite (sv_number _ _ _ Hserves b) by lia. rewrite (blockLogs_ok b f) by (done || lia).
    destruct (IH (b + 1) e (logs ++ block_matches b) (set_begin (b + 1) f) (my_filter_begin _ _ _ Hm)) as [f' E]; [lia|lia|lia|].
    exists f'. rewrite (bind_Ok _ _ _ tt (set_begin (b + 1) f)) by (unfold modS; by rewrite Hb, (word_i64_small (b + 1)) by lia).
    rewrite E, (range_matches_cons b e), app_assoc by lia. done.
  - exists f. rewrite range_matches_nil, app_nil_r by lia. done.
Qed.

Lemma indexed_ok numbers : forall b logs f, my_filter b f -> Forall (fun n => 0 <= n <= head) numbers ->
  exists b' f', indexed_loop numbers logs f = (Ok (None, logs ++ concat (block_matches <$> numbers)), f') /\ my_filter b' f' /\ f_end f' = f_end f.
Proof.
  pose proof (sv_head _ _ _ Hserves) as Hh. induction numbers as [|n numbers IH]; intros b logs f Hm Hn; cbn [indexed_loop].
  - exists b, f. rewrite app_nil_r. done.
  - apply Forall_cons in Hn as [Hn Hns]. rewrite (bind_Ok _ _ _ tt (set_begin (n + 1) f)) by (unfold modS; by rewrite (word_i64_small (n + 1)) by lia).
    rewrite (word_i64_small n), (sv_number _ _ _ Hserves n Hn) by lia. rewrite (bind_Ok getS _ _ _ _ eq_refl). destruct Hm as (Ha & Ht & _).
    rewrite (checkMatches_ok n) by done. destruct (IH (n + 1) (logs ++ block_matches n) (set_begin (n + 1) f)) as (b' & f' & E & Hm' & He); [done|done|].
    exists b', f'. rewrite E. cbn. rewrite <- app_assoc. done.
Qed.

(** Leaving out the blocks whose filter does not match leaves out nothing. *)
Lemma matched_all b e : 0 <= b -> e <= head ->
  concat (block_matches <$> filter (fun n => bloomFilter (h_Bloom (header n)) addresses topics = true) (seqZ b (e - b + 1))) = range_matches b e.
Proof.
  intros Hb He. unfold range_matches. assert (Hin : Forall (fun n => 0 <= n <= head) (seqZ b (e - b + 1))) by (apply Forall_forall; intros n Hn; apply elem_of_seqZ in Hn; lia).
  induction Hin as [|n l Hn _ IH]; [done|]. rewrite filter_cons. destruct (decide _) as [E|E]; cbn; [by rewrite IH|].
  rewrite (no_match n Hn), IH; [done|]. by destruct (bloomFilter _ _ _).
Qed.

Lemma indexedLogs_ok b e f : my_filter b f -> 0 <= b <= head -> 0 <= e -> e < BloomStatus.2 * BloomStatus.1 ->
  exists f', indexedLogs e f = (Ok (range_matches b e, None), f') /\ my_filter (e + 1) f' /\ f_end f' = f_end f.
Proof.
  pose proof (sv_head _ _ _ Hserves) as Hh. pose proof (sv_indexed _ _ _ Hserves) as Hi. intros Hm Hb He0 He. pose proof Hm as (Ha & Ht & Hbf).
  unfold indexedLogs. rewrite (bind_Ok getS _ _ _ _ eq_refl), Ha, Ht, Hbf, (u64_small b) by (unfold in_u64; lia).
  rewrite (sv_matched _ _ _ Hserves b e) by lia.
  destruct (indexed_ok (filter (fun n => bloomFilter (h_Bloom (header n)) addresses topics = true) (seqZ b (e - b + 1))) b [] f Hm) as (b' & f' & E & Hm' & He').
  { apply Forall_forall. intros n Hn. apply list_elem_of_filter in Hn as [_ Hn]. apply elem_of_seqZ in Hn. lia. }
  rewrite (bind_Ok _ _ _ _ _ E). cbn [app]. exists (set_begin (e + 1) f'). split; [|by split; [eapply my_filter_begin|]].
  rewrite (matched_all b e) by lia. unfold when. rewrite bool_decide_eq_true_2 by done. unfold bindM, modS, ret. by rewrite (word_i64_small e), (word_i64_small (e + 1)) by lia.
Qed.

Lemma unindexedLogs_ok b e f : my_filter b f -> 0 <= b -> 0 <= e <= head -> exists f', unindexedLogs e f = (Ok (range_matches b e, None), f').
Proof.
  pose proof (sv_head _ _ _ Hserves) as Hh. intros Hm Hb He. pose proof Hm as (_ & _ & Hbf). unfold unindexedLogs.
  rewrite (bind_Ok getS _ _ _ _ eq_refl), Hbf, (word_i64_small e) by lia. apply (unindexed_ok _ b e [] f); [done|lia|lia|lia].
Qed.

End search.

(** ** Examples *)

#[local] Existing Instance sample_crypto.

(** Three blocks; the middle one has a log. *)
Definition chain_log : Log := mkLog 500 [7; 8] [] 1 99 0 0 0 false.
Definition chain_receipts (n : Z) : list Receipt := if n =? 1 then [set_consensus [] 1 21000 zeroBloom [chain_log] zeroReceipt] else [].
Definition chain_bloom (n : Z) : Bloom := match CreateBloom (chain_receipts n) with Ok b => b | _ => [] end.
Definition chain_header (n : Z) : Header := mkHeader 0 0 0 0 0 0 (chain_bloom n) (Some 1) (Some n) 0 0 0 [] 0 (reverse (put_le 8 n)).

#[local] Instance chain_source : LogSource :=
  EthAPIBackend (chain_header 2) (fun n => if n <=? 2 then Some (chain_header n) else None) (fun _ => None)
    (fun h => if h =? header_Hash (chain_header 1) then Some (chain_receipts 1) else None) (1, 2)
    (fun addresses topics b e => (filter (fun n => bloomFilter (chain_bloom n) addresses topics = true) (seqZ b (e - b + 1)), None)).

Lemma chain_serves addresses topics : serves addresses topics 2 chain_header chain_receipts.
Proof.
  assert (Hcase : forall n, 0 <= n <= 2 -> n = 0 \/ n = 1 \/ n = 2) by lia.
  split.
  - lia.
  - done.
  - done.
  - intros n Hn. by destruct (Hcase n Hn) as [-> | [-> | ->]].
  - intros n Hn. destruct (Hcase n Hn) as [-> | [-> | ->]]; vm_compute; reflexivity.
  - intros n Hn. destruct (Hcase n Hn) as [-> | [-> | ->]]; vm_compute; reflexivity.
  - intros n r log Hn Hr Hl. destruct (Hcase n Hn) as [-> | [-> | ->]]; cbn in Hr; try by apply not_elem_of_nil in Hr.
    apply list_elem_of_singleton in Hr as ->. cbn in Hl. by apply list_elem_of_singleton in Hl as ->.
  - cbn. lia.
  - done.
Defined.

