(* ===== verification/ProcessorFacts.v ===== *)
(** What holds of processing the transactions of a block.

    Over the state database, for any transactions and any code: the gas used by the
    receipts adds up to the gas used by the block, which stays within its limit; each
    receipt names its transaction, and the logs of the block are numbered through. *)
From stdpp Require Import prelude gmap list strings.
From Stdlib Require Import ZArith Lia.
From S2P Require Import Prelude Params VarBytes TxMeta RLP RLPStream RLPStreamFacts RLPDecode RLPTyped Crypto AccessList Transaction TxRLP Fees StateData State StateFacts VMWord VMWordFacts VMAnalysis VMState VMPrecompiles VMCall VMOps VMTable VMRun VMDatabase VMLaws VMFrame VMPrecompileFacts VMCallFacts VMTableFacts VMRunFacts VMStateLaws VMStateMode VMFuel VMTheorems Transition TransitionFacts Receipt Blocks Processor.
Local Open Scope Z_scope.

(** ** Between transactions *)

Section between.
Context {T D : Type} {backend : Backend T D} {crypto : Crypto} {store : StoreLaws T D}.
Local Abbreviation stateObject := (stateObject T).
Local Abbreviation StateDB := (StateDB T D).
Implicit Types (s : StateDB) (o : stateObject).

Lemma obj_typed_deleted d o : obj_typed d o -> obj_typed d (set_so_deleted true o).
Proof. intros [H1 H2 H3 H4]. by split. Qed.

Lemma committed_finalise d o k : committed d (so_finalise o) k = current d o k.
Proof.
  unfold current, committed, so_finalise. cbn. destruct (so_fake o); [done|]. rewrite lookup_union.
  destruct (so_dirty o !! k), (so_pending o !! k); done.
Qed.

Lemma obj_typed_finalise d o : obj_typed d o -> obj_typed d (so_finalise o).
Proof.
  intros [H1 H2 H3 H4]. split; [done| | |done]; intros k v; [|by rewrite committed_finalise; apply H2].
  intros E. apply (H2 k v). rewrite <- committed_finalise, <- E. unfold current, committed, so_finalise. cbn.
  by destruct (so_fake o); [|rewrite lookup_empty].
Qed.

Lemma typed_finalise_one d a s : typed s -> typed (finalise_one d a s).
Proof.
  intros [Ho Hr]. unfold finalise_one. destruct (sdb_objects s !! a) as [o|] eqn:E; [|done]. split; [|done].
  intros b o' Hb. unfold lookupObj in Hb. cbn in Hb |- *. destruct (decide (b = a)) as [->|Hne].
  - rewrite lookup_insert_eq in Hb. injection Hb as <-. assert (obj_typed (sdb_db s) o) by (apply (Ho a); unfold lookupObj; by rewrite E).
    destruct (_ || _); [by apply obj_typed_deleted|by apply obj_typed_finalise].
  - rewrite lookup_insert_ne in Hb by done. by apply (Ho b).
Qed.

(** A state without snapshots. *)
Lemma opened_nil s : sane s -> typed s -> sdb_revisions s = [] -> opened s [].
Proof. intros Hs Ht Hr. exists []. split; [|done]. constructor; [done|by rewrite Hr|constructor|constructor]. Qed.

Lemma opened_Finalise d s gl : opened s gl -> opened (snd (Finalise d s)) [].
Proof.
  intros H. destruct (opened_sane _ _ H) as [Hs Ht]. cbn. set (l := elements _). set (s1 := foldr _ _ _).
  assert (H1 : sane s1 /\ typed s1) by (subst s1; induction l as [|a l [IH1 IH2]]; [done|]; split; [by apply sane_finalise_one|by apply typed_finalise_one]).
  clearbody s1. destruct H1 as [[Ha Hl Ho] [Hob Hre]]. unfold clearJournalAndRefund.
  apply opened_nil; [by destruct (j_entries _)| |by destruct (j_entries _)]. by destruct (j_entries _); split.
Qed.

Lemma silent_Finalise d : silent (T:=T) (D:=D) (Finalise d).
Proof.
  intros s. cbn. set (l := elements _). assert (H1 : tx_frame (foldr (finalise_one d) s l) = tx_frame s).
  { induction l as [|a l IH]; [done|]. cbn. rewrite <- IH. unfold finalise_one. by destruct (sdb_objects _ !! a). }
  rewrite <- H1. unfold clearJournalAndRefund. by destruct (j_entries _).
Qed.

Lemma opened_Prepare th bh i s : opened s [] -> opened (snd (Prepare th bh i s)) [].
Proof.
  intros H. destruct (opened_sane _ _ H) as [[Ha Hl Ho] [Hob Hre]]. destruct H as (g3 & [_ Hr _ _] & E & _). destruct g3; [|done].
  apply opened_nil; [|by split|done]. constructor; [apply wf_new|done|done].
Qed.

Lemma IntermediateRoot_returns d s : match fst (IntermediateRoot d s) with Ok _ | Panic _ => True | _ => False end.
Proof.
  unfold IntermediateRoot. rewrite (bind_Ok (Finalise d) _ _ tt (snd (Finalise d s)) eq_refl), (bind_Ok getS _ _ _ _ eq_refl).
  assert (H : forall l s, match fst (each l flush_one s) with Ok _ | Panic _ => True | _ => False end).
  { clear s. intros l. induction l as [|a l IH]; intros s; [done|]. cbn [each]. unfold bindM at 1. unfold flush_one at 1.
    rewrite (bind_Ok getS _ _ _ _ eq_refl). destruct (sdb_objects s !! a) as [o|]; [|done]. unfold deref. rewrite (bind_Ok (ret o) _ _ o s eq_refl).
    destruct (so_deleted o); [apply IH|]. unfold updateRoot, updateTrie. destruct (getTrie _ _) as [[t o']|e|w|] eqn:E; try done.
    - unfold mbind, outcome_bind, mret, outcome_ret. destruct (foldr _ _ _) as [tr o1]. set (o2 := set_so_data _ _). rewrite (bind_Ok (lift_out (Ok o2)) _ _ o2 s eq_refl).
      rewrite (bind_Ok (modS (setStateObject o2)) _ _ tt _ eq_refl). unfold updateStateObject. destruct (_ <? 0); [done|]. apply IH.
    - unfold getTrie in E. by repeat case_match.
    - unfold getTrie in E. by repeat case_match. }
  unfold bindM. specialize (H (elements (sdb_pending (snd (Finalise d s)))) (snd (Finalise d s))).
  by destruct (each _ _ _) as [[[]|e|w|] s1].
Qed.
End between.

(** ** Transactions as messages *)

Section asmessage.
Context {crypto : Crypto}.

Definition tx_hash (tx : Transaction) : hash := rlpHash (txdata_item (data tx)).

Lemma Hash_coherent tx : coherent tx -> match fst (Hash tx) with Ok h => h | _ => 0 end = tx_hash tx.
Proof.
  intros H. unfold Hash. rewrite (bind_Ok getS _ _ _ _ eq_refl). destruct (t_hash tx) as [h|] eqn:E; [|done]. by apply H.
Qed.

Lemma recoverPlain_returns h R S V hs : recoverPlain h R S V hs <> Blocked.
Proof.
  unfold recoverPlain. destruct (8 <? _); [done|]. cbv zeta. destruct (negb _); [done|]. unfold sig_field.
  destruct ((32 <? length (big_bytes R))%nat); [done|]. destruct ((32 <? length (big_bytes S))%nat); [done|]. unfold mbind, outcome_bind, Ecrecover.
  set (m := hash_bytes h). set (b := _ ++ _). pose proof (RecoverPubkey_returns m b) as H. destruct (RecoverPubkey m b) as [pub|e|w|]; try done. by repeat case_match.
Qed.

Lemma Signer_Sender_returns s tx : Signer_Sender s tx <> Blocked.
Proof. destruct s; cbn; try apply recoverPlain_returns. by repeat case_match; try apply recoverPlain_returns. Qed.

(** The message of a transaction carries its data. *)
Lemma AsMessage_runs s tx : coherent tx ->
  let '(o, tx') := AsMessage true s tx in
  data tx' = data tx /\ coherent tx' /\
  match o with
  | Ok msg => m_gasLimit msg = Transaction.GasLimit (data tx) /\ m_data msg = Payload (data tx) /\ m_amount msg = Amount (data tx) /\ m_gasPrice msg = Price (data tx) /\
      m_l1BlockNumber msg = TxMeta.L1BlockNumber (meta tx)
  | Blocked => False
  | _ => True
  end.
Proof.
  intros Hc. unfold AsMessage. set (tx1 := with_meta (meta_fill (meta tx)) tx).
  assert (Hc1 : coherent tx1) by (by apply coherent_meta). erewrite bind_Ok by reflexivity. erewrite bind_Ok by reflexivity. fold tx1. cbv zeta.
  change (L1MessageSender (meta tx1)) with (Some (default 0 (L1MessageSender (meta tx)))). cbv iota.
  destruct (_ =? _); [by rewrite (bind_Ok (ret _) _ _ _ tx1 eq_refl)|].
  destruct (Sender_run s tx1 Hc1) as (H1 & H2 & H3 & H4). pose proof (Signer_Sender_returns s tx1) as Hb. unfold bindM. destruct (Sender s tx1) as [[a|e|w|] tx2]; cbn in *; done.
Qed.
End asmessage.

(** ** One transaction *)

Section process.
Context {T D : Type} {backend : Backend T D} {crypto : Crypto} {natives : Natives} {store : StoreLaws T D}.
Context (deployers : address * address) (rcfgChainID : Z) (enc : string -> goerror + bytes) (oob : Z -> Z).
Context (config : ChainConfig) (getHeader : hash -> Z -> option Header) (author : Header -> address).
Local Abbreviation StateDB := (StateDB T D).
Local Abbreviation PState := (PState (T:=T) (D:=D)).

(** A node of the rollup. *)
Definition rollup_node : Node := mkNode true deployers rcfgChainID enc oob config getHeader author.
#[local] Instance rollup_db : Database StateDB := state_database true.

(** The configuration at block [n]. *)
Record chain_ok (n : Z) : Prop := {
  co_ChainID : exists id, ChainID config = Some id /\ in_word id;
  co_150 : IsBerlin config (Some n) || IsShanghai config (Some n) || IsIstanbul config (Some n) = true -> IsEIP150 config (Some n) = true;
  co_byzantium : IsByzantium config (Some n) = true;
  co_158 : IsEIP158 config (Some n) = true;
  co_encode : forall e b, enc e = inr b -> slice_ok (Some b) }.

(** A transaction that the sync service may put in a block. *)
Record tx_fits (tx : Transaction) : Prop := {
  tf_coherent : coherent tx;
  tf_gas : 0 <= Transaction.GasLimit (data tx) < gas_limit;
  tf_payload : slice_ok (Some (Payload (data tx)));
  tf_amount : in_word (Amount (data tx));
  tf_price : in_word (Price (data tx));
  tf_l1 : is_Some (TxMeta.L1BlockNumber (meta tx)) }.

Lemma instructionSet_returns env : instructionSet (S := StateDB) env <> Blocked.
Proof.
  unfold instructionSet. set (l := ExtraEips (vmConfig env)). assert (H : forall n i arr k (jt : gmap Z (operation (S := StateDB))), enable_extra env n i arr k jt <> Blocked).
  { induction n as [|n IH]; intros i arr k jt; [done|]. cbn [enable_extra]. destruct (EnableEIP _ _ _); [|apply IH]. destruct (_ <? _)%nat; [done|apply IH]. }
  apply H.
Qed.

(** [m] returns, and what it returns satisfies [P]. *)
Definition wpp {A} (m : M PState A) (p : PState) (P : A -> PState -> Prop) : Prop :=
  match m p with (Ok a, p') => P a p' | (Blocked, _) => False | _ => True end.

Lemma wpp_bind {A B} (m : M PState A) (f : A -> M PState B) p P : wpp m p (fun a p' => wpp (f a) p' P) -> wpp (bindM m f) p P.
Proof. unfold wpp, bindM. by destruct (m p) as [[a|e|w|] p']. Qed.
Lemma wpp_mono {A} (m : M PState A) p (P P' : A -> PState -> Prop) : wpp m p P -> (forall a p', P a p' -> P' a p') -> wpp m p P'.
Proof. unfold wpp. destruct (m p) as [[a|e|w|] p']; auto. Qed.
Lemma wpp_ret {A} (a : A) p (P : A -> PState -> Prop) : P a p -> wpp (ret a) p P.
Proof. done. Qed.
Lemma wpp_lift {A} (o : outcome A) p (P : A -> PState -> Prop) : o <> Blocked -> (forall a, o = Ok a -> P a p) -> wpp (lift_out o) p P.
Proof. destruct o; cbn; auto. Qed.

(** From one step of a transaction to another. *)
Definition in_tx (s s' : StateDB) : Prop := (exists gl, opened s' gl) /\ tx_kept s s'.

Lemma new_evm_ok (s : StateDB) gl : opened s gl -> evm_ok (laws := state_laws) (new_evm s).
Proof. intros H. split; [by eexists|done|done|done]. Qed.

Lemma in_tx_eat (s : StateDB) (e : EVM StateDB) : eat (laws := state_laws) tx_kept (new_evm s) e -> in_tx s (evm_db e).
Proof. intros [He [[_ Hq] _ _]]. split; [apply He|apply Hq]. Qed.

Lemma derive_l1_spec msg p gl : opened (p_db p) gl -> 0 <= m_amount msg -> 0 <= m_gasPrice msg ->
  wpp (derive_l1 rollup_node msg) p (fun _ p' => in_tx (p_db p) (p_db p') /\ p_gp p' = p_gp p /\ p_usedGas p' = p_usedGas p).
Proof.
  intros Hop Ha Hp. unfold wpp, derive_l1. destruct (asTransaction_encodes msg Ha Hp) as [raw Er]. rewrite Er.
  pose proof (new_evm_ok (p_db p) gl Hop) as He.
  pose proof (read_gpo_spec tx_kept transaction_mode (new_evm (p_db p)) (new_evm (p_db p)) (eat_refl false tx_kept transaction_mode _ He) (db_equiv_refl _)) as H.
  unfold wpe in H. change (node_database rollup_node) with rollup_db. unfold rollup_db. destruct (read_gpo (new_evm (p_db p))) as [[slots|e|w|] e']; [|done|done|done].
  unfold DeriveL1GasInfo. rewrite Er. unfold mbind, outcome_bind. destruct (readGPOStorageSlots _ slots) as [[pr ov] sc].
  split; [by apply in_tx_eat, H|done].
Qed.

Context (cfg : Config).

Lemma apply_message_spec context msg number p gl : let env := process_env rollup_node context cfg in
  env_ok env -> 0 <= m_gasLimit msg < gas_limit -> slice_ok (Some (m_data msg)) -> in_word (m_amount msg) -> 0 <= m_gasPrice msg ->
  opened (p_db p) gl -> in_u64 (p_gp p) ->
  wpp (apply_message rollup_node env msg number) p (fun '(_, used, _) p' => in_tx (p_db p) (p_db p') /\ p_gp p' = p_gp p - used /\ p_usedGas p' = p_usedGas p /\
    21000 <= 2 * used /\ used <= p_gp p /\ used <= m_gasLimit msg).
Proof.
  intros env Henv Hg Hd Ha Hp Hop Hgp. unfold wpp, apply_message. change (node_database rollup_node) with rollup_db. unfold rollup_db.
  destruct (instructionSet env) as [jt|e|w|] eqn:Ejt; [|done|done|by apply instructionSet_returns in Ejt].
  set (fuel := Datatypes.S _).
  assert (Hfit : message_fits env msg jt fuel) by (split; try done; unfold fuel; lia).
  pose proof (apply_spec tx_kept transaction_mode oob env rcfgChainID msg [] jt fuel number (new_evm (p_db p)) (p_gp p) Hfit (new_evm_ok _ gl Hop) Hgp) as H.
  change (n_uint64_out_of_range rollup_node) with oob. change (n_rcfgChainID rollup_node) with rcfgChainID.
  destruct (ApplyMessageWithBlockNumber _ _ _ _ _ _ _ _) as [[[[out used] failed]|err|w|] [e' gp']]; try done.
  destruct H as (He & Egp & Hlo & Hu & least & _ & Hl). cbn. split; [by apply in_tx_eat|]. split; [done|]. split; [done|]. lia.
Qed.

Lemma created_address_returns ovm d id from nonce : created_address ovm d id from nonce <> Blocked.
Proof. unfold created_address. by destruct ovm, id. Qed.

(** The receipt of a transaction, as the state database is when it is made. *)
Record receipt_made (tx : Transaction) (n : Z) (used0 : Z) (s : StateDB) (r : Receipt) : Prop := {
  rm_TxHash : r_TxHash r = tx_hash tx;
  rm_BlockHash : r_BlockHash r = sdb_bhash s;
  rm_BlockNumber : r_BlockNumber r = Some n;
  rm_TransactionIndex : TransactionIndex r = sdb_txIndex s;
  rm_Logs : r_Logs r = logsOf s (tx_hash tx);
  rm_Bloom : CreateBloom [r] = Ok (r_Bloom r);
  rm_cumulative : CumulativeGasUsed r = used0 + r_GasUsed r;
  rm_GasUsed : 21000 <= 2 * r_GasUsed r /\ r_GasUsed r <= Transaction.GasLimit (data tx) }.

Lemma in_tx_trans s1 s2 s3 : in_tx s1 s2 -> in_tx s2 s3 -> in_tx s1 s3.
Proof. intros [_ H1] [H2 H3]. split; [done|by eapply tx_kept_trans]. Qed.

Lemma ApplyTransaction_spec author' header tx n p gl : h_Number header = Some n -> chain_ok n -> tx_fits tx -> opened (p_db p) gl ->
  0 <= p_gp p -> 0 <= p_usedGas p -> p_gp p + p_usedGas p < 2 ^ 64 ->
  wpp (ApplyTransaction rollup_node author' header cfg tx) p (fun r p' =>
    opened (p_db p') [] /\ tx_kept (p_db p) (p_db p') /\ receipt_made tx n (p_usedGas p) (p_db p') r /\
    0 <= p_gp p' /\ p_gp p' = p_gp p - r_GasUsed r /\ p_usedGas p' = p_usedGas p + r_GasUsed r).
Proof.
  intros En [Hid H150 Hbyz H158 Henc] [Hc Hgas Hpay Ham Hpr Hl1] Hop Hgp Hus Hsum. unfold ApplyTransaction. rewrite En.
  apply wpp_bind, wpp_ret. change (n_config rollup_node) with config. change (n_UsingOVM rollup_node) with true.
  pose proof (AsMessage_runs (MakeSigner config (Some n)) tx Hc) as Hm. destruct (AsMessage true _ tx) as [o tx']. destruct Hm as (Hdata & Hc' & Hm).
  apply wpp_bind, wpp_lift; [by destruct o|]. intros msg ->. destruct Hm as (Eg & Ed & Ea & Epr & Eb).
  unfold NewEVMContext. rewrite En. cbn [mbind outcome_bind n_UsingOVM rollup_node]. set (ctx := mkContext _ _ _ _ _ _ _ _ _).
  apply wpp_bind, wpp_ret. set (env := process_env rollup_node ctx cfg).
  assert (Henv : env_ok env).
  { split; cbn; [done|by rewrite Eb|by rewrite Epr|done|done|done]. }
  apply wpp_bind. eapply wpp_mono; [apply (derive_l1_spec msg p gl Hop); rewrite ?Ea, ?Epr; [apply Ham|apply Hpr]|].
  intros [[[l1Fee l1GasPrice] l1GasUsed] scalar] p1 (Hin1 & Egp1 & Eus1). destruct (Hin1) as [[gl1 Hop1] _].
  apply wpp_bind. eapply wpp_mono.
  { apply (apply_message_spec ctx msg _ p1 gl1); [done|by rewrite Eg|by rewrite Ed|by rewrite Ea|rewrite Epr; apply Hpr|done|unfold in_u64; lia]. }
  intros [[out used] failed] p2 (Hin2 & Egp2 & Eus2 & Hlo & Hpool & Hhi). rewrite Eg in Hhi. destruct (in_tx_trans _ _ _ Hin1 Hin2) as [[gl2 Hop2] Hk2].
  rewrite Hbyz. apply wpp_bind. apply wpp_bind. unfold wpp at 1, on_p at 1.
  pose proof (opened_Finalise true _ _ Hop2) as Hop3. pose proof (silent_Finalise true (p_db p2)) as Hsil. destruct (Finalise true (p_db p2)) as [o3 s3] eqn:E3.
  assert (o3 = Ok tt) as -> by (unfold Finalise, modS in E3; by injection E3 as <- _). cbn [snd] in Hop3, Hsil.
  apply wpp_ret. apply wpp_bind. change (wpp (modS ?f) ?p ?P) with (P tt (f p)). cbv beta. apply wpp_bind. change (wpp (gets ?f) ?p ?P) with (P (f p) p). cbv beta.
  cbn [p_db p_gp p_usedGas]. rewrite (Hash_coherent tx' Hc'). replace (tx_hash tx') with (tx_hash tx) by (unfold tx_hash; by rewrite Hdata).
  assert (Eused : u64 (p_usedGas p2 + used) = p_usedGas p + used) by (rewrite Eus2, Eus1; apply u64_small; unfold in_u64; lia). rewrite Eused.
  apply wpp_bind. eapply (wpp_mono _ _ (fun _ p' => p' = mkP s3 (p_gp p2) (p_usedGas p + used))).
  { destruct (m_to msg); [done|]. apply wpp_lift; [apply created_address_returns|done]. }
  intros contract p4 ->. apply wpp_bind. unfold wpp at 1, on_p, State.GetLogs, gets. cbn [p_db p_gp p_usedGas].
  set (r0 := set_consensus _ _ _ _ _ _). apply wpp_bind. destruct (CreateBloom_bits [r0]) as (bloom & Ebloom & _ & _). rewrite Ebloom.
  apply wpp_ret. apply wpp_bind. unfold wpp, gets, ret. cbn [p_db p_gp p_usedGas r_GasUsed].
  split; [done|]. split; [eapply tx_kept_trans; [exact Hk2|by apply tx_kept_frame]|]. split; [|lia].
  split; cbn; [done..| |lia|lia]. rewrite <- Ebloom. done.
Qed.

(** ** The transactions of a block *)

Definition gas_sum (rs : list Receipt) : Z := foldr (fun r g => r_GasUsed r + g) 0 rs.
Definition block_logs (rs : list Receipt) : list Log := concat (r_Logs <$> rs).

(** The receipts of transactions that start at index [i], with [used] gas and [base]
    logs before them. *)
Record receipt_of (n : Z) (bh : hash) (i used base : Z) (tx : Transaction) (r : Receipt) : Prop := {
  ro_TxHash : r_TxHash r = tx_hash tx;
  ro_BlockHash : r_BlockHash r = bh;
  ro_BlockNumber : r_BlockNumber r = Some n;
  ro_TransactionIndex : TransactionIndex r = i;
  ro_Bloom : CreateBloom [r] = Ok (r_Bloom r);
  ro_cumulative : CumulativeGasUsed r = used + r_GasUsed r;
  ro_GasUsed : 21000 <= 2 * r_GasUsed r /\ r_GasUsed r <= Transaction.GasLimit (data tx);
  ro_logs : forall j log, r_Logs r !! j = Some log ->
    log_TxHash log = tx_hash tx /\ log_TxIndex log = u64 i /\ log_BlockHash log = bh /\ log_Index log = u64 (base + Z.of_nat j) }.

Inductive receipts_of (n : Z) (bh : hash) : Z -> Z -> Z -> list Transaction -> list Receipt -> Prop :=
| ros_nil i used base : receipts_of n bh i used base [] []
| ros_cons i used base tx txs r rs : receipt_of n bh i used base tx r ->
    receipts_of n bh (i + 1) (used + r_GasUsed r) (base + Z.of_nat (length (r_Logs r))) txs rs ->
    receipts_of n bh i used base (tx :: txs) (r :: rs).

(** Between two transactions: the gas is accounted for, and the transactions to come have
    no logs. *)
Record between_txs (total base : Z) (txs : list Transaction) (p : PState) : Prop := {
  bt_open : opened (p_db p) [];
  bt_gp : 0 <= p_gp p;
  bt_used : 0 <= p_usedGas p;
  bt_total : p_gp p + p_usedGas p = total;
  bt_logSize : sdb_logSize (p_db p) = u64 base;
  bt_fresh : forall tx, tx ∈ txs -> logsOf (p_db p) (tx_hash tx) = [] }.

Lemma apply_all_spec header n bh total : h_Number header = Some n -> chain_ok n -> total < 2 ^ 64 -> forall txs i base p,
  Forall tx_fits txs -> NoDup (tx_hash <$> txs) -> between_txs total base txs p ->
  wpp (apply_all rollup_node header cfg bh i txs) p (fun rs p' =>
    receipts_of n bh i (p_usedGas p) base txs rs /\ p_usedGas p' = p_usedGas p + gas_sum rs /\ between_txs total (base + Z.of_nat (length (block_logs rs))) [] p').
Proof.
  intros En Hchain Htot. induction txs as [|tx txs IH]; intros i base p Hfit Hnd [Hop Hgp Hus Hsum Hls Hfr].
  { apply wpp_ret. split; [constructor|]. cbn. split; [lia|]. rewrite Z.add_0_r. by split. }
  inversion Hfit as [|? ? Htx Hfit']; subst. cbn [fmap list_fmap] in Hnd. apply NoDup_cons in Hnd as [Hnotin Hnd].
  cbn [apply_all]. rewrite (Hash_coherent tx (tf_coherent tx Htx)). apply wpp_bind.
  unfold wpp at 1, on_p. pose proof (opened_Prepare (tx_hash tx) bh i _ Hop) as Hop1. destruct (Prepare (tx_hash tx) bh i (p_db p)) as [o1 s1] eqn:E1.
  unfold Prepare, modS in E1. injection E1 as <- E1. cbn [snd] in Hop1. apply wpp_bind.
  eapply wpp_mono; [by apply (ApplyTransaction_spec None header tx n _ []); cbn [p_db p_gp p_usedGas]; try done; lia|].
  cbn [p_db p_gp p_usedGas]. intros r p2 (Hop2 & [K1 K2 K3 K4 K5] & [R1 R2 R3 R4 R5 R6 R7 R8] & Hgp2 & Egp2 & Eus2).
  assert (F : sdb_thash s1 = tx_hash tx /\ sdb_bhash s1 = bh /\ sdb_txIndex s1 = i /\ sdb_logs s1 = sdb_logs (p_db p) /\ sdb_logSize s1 = sdb_logSize (p_db p)) by (by rewrite <- E1).
  destruct F as (F1 & F2 & F3 & F4 & F5). clear E1. rewrite F1 in *. rewrite F2 in *. rewrite F3 in *.
  assert (Hl0 : forall h, logsOf s1 h = logsOf (p_db p) h) by (intros h; unfold logsOf; by rewrite F4).
  assert (Hlog : logged base (p_db p2)).
  { apply K5. split; rewrite F1, Hl0, Hfr by left; [cbn [length]; rewrite F5, Hls; f_equal; lia|done]. }
  destruct Hlog as [L1 L2]. rewrite K1, <- R5 in L1. rewrite K1, K2, K3, <- R5 in L2.
  assert (Hbt : between_txs (p_gp p + p_usedGas p) (base + Z.of_nat (length (r_Logs r))) txs p2).
  { split; try done; [lia|lia|]. intros tx' Hin. assert (tx_hash tx' <> tx_hash tx) as Hne.
    { intros E. apply Hnotin. rewrite <- E. by apply list_elem_of_fmap_2. }
    rewrite K4 by done. rewrite Hl0. apply Hfr. by right. }
  apply wpp_bind. eapply wpp_mono; [by apply (IH (i + 1) _ p2 Hfit' Hnd Hbt)|]. intros rs p3 (Hrs & Eus3 & Hbt3). apply wpp_ret.
  split; [|split; [cbn [gas_sum foldr]; unfold gas_sum in Eus3; lia|]].
  - constructor; [|by rewrite <- Eus2]. split; try done; congruence.
  - unfold block_logs in *. cbn [fmap list_fmap concat]. rewrite length_app, Nat2Z.inj_add, Z.add_assoc. exact Hbt3.
Qed.

(** *** By position *)

Lemma receipts_of_length n bh i used base txs rs : receipts_of n bh i used base txs rs -> length rs = length txs.
Proof. induction 1; cbn; congruence. Qed.

Lemma receipts_of_lookup n bh i used base txs rs : receipts_of n bh i used base txs rs -> forall k tx r,
  txs !! k = Some tx -> rs !! k = Some r ->
  receipt_of n bh (i + Z.of_nat k) (used + gas_sum (take k rs)) (base + Z.of_nat (length (block_logs (take k rs)))) tx r.
Proof.
  induction 1 as [|i used base tx txs r rs Hr _ IH]; intros k tx' r'; [done|]. destruct k as [|k]; cbn [lookup list_lookup].
  - intros [= <-] [= <-]. cbn. by rewrite !Z.add_0_r.
  - intros H1 H2. specialize (IH k tx' r' H1 H2). cbn [take gas_sum foldr block_logs fmap list_fmap concat]. fold (gas_sum (take k rs)). unfold block_logs in *.
    rewrite length_app, Nat2Z.inj_add, !Z.add_assoc, Nat2Z.inj_succ. by replace (i + Z.succ (Z.of_nat k)) with (i + 1 + Z.of_nat k) by lia.
Qed.

Lemma receipts_of_logs n bh i used base txs rs : receipts_of n bh i used base txs rs -> forall j log,
  block_logs rs !! j = Some log -> log_Index log = u64 (base + Z.of_nat j) /\ log_BlockHash log = bh.
Proof.
  induction 1 as [|i used base tx txs r rs Hr _ IH]; intros j log; [done|]. unfold block_logs in *. cbn [fmap list_fmap concat]. rewrite lookup_app_Some.
  intros [Hj|[Hle Hj]]; [by destruct (ro_logs _ _ _ _ _ _ _ Hr j log Hj) as (_ & _ & ? & ?)|]. apply IH in Hj. by replace (base + Z.of_nat j) with (base + Z.of_nat (length (r_Logs r)) + Z.of_nat (j - length (r_Logs r))) by lia.
Qed.

(** What the receipts, logs and gas of a block must be. *)
Record accounted (block : Block) (n : Z) (bh : hash) (receipts : list Receipt) (logs : list Log) (usedGas : Z) : Prop := {
  ac_length : length receipts = length (b_transactions block);
  ac_receipt : forall k tx r, b_transactions block !! k = Some tx -> receipts !! k = Some r ->
    receipt_of n bh (Z.of_nat k) (gas_sum (take k receipts)) (Z.of_nat (length (block_logs (take k receipts)))) tx r;
  ac_used : usedGas = gas_sum receipts;
  ac_limit : usedGas <= h_GasLimit (b_header block);
  ac_logs : logs = block_logs receipts;
  ac_numbered : forall j log, logs !! j = Some log -> log_Index log = u64 (Z.of_nat j) /\ log_BlockHash log = bh }.

(** A state database that no transaction has run on. *)
Record unused (s : StateDB) : Prop := { un_open : opened s []; un_logs : sdb_logs s = ∅; un_logSize : sdb_logSize s = 0 }.

End process.

(** ** Hashes of ancestors *)

Section ancestors.
Context (node : Node) (chain : Z -> Header) (top : Z) (Htop : 0 <= top < 2 ^ 62).
(** A chain of headers up to [top], found by hash and number; no block has the number
    before zero. *)
Context (Hnumber : forall k, 0 <= k <= top -> h_Number (chain k) = Some k).
Context (Hparent : forall k, 0 < k <= top -> n_GetHeader node (h_ParentHash (chain k)) (k - 1) = Some (chain (k - 1))).
Context (Hnone : forall h, n_GetHeader node h (u64 (-1)) = None).

Lemma NumberU64_chain k : 0 <= k <= top -> NumberU64 (chain k) = Ok k.
Proof. intros Hk. unfold NumberU64, big_uint64. rewrite Hnumber by lia. rewrite Z.abs_eq by lia. rewrite u64_small by (unfold in_u64; lia). done. Qed.

(** The search for the hash of block [n] ends, with the hash that the block after it
    names, or with zero when there is no such block. *)
Lemma getHash_chain n : 0 <= n < 2 ^ 63 -> forall fuel k, (S (Z.to_nat k) < fuel)%nat -> 0 <= k <= top ->
  getHash_loop node fuel n (Some (chain k)) = Ok (if n <? k then h_ParentHash (chain (n + 1)) else 0).
Proof.
  intros Hn. induction fuel as [|fuel IH]; intros k Hf Hk; [lia|]. cbn [getHash_loop]. rewrite NumberU64_chain by done. cbn [mbind outcome_bind].
  destruct (Z.eq_dec k 0) as [->|Hk0].
  - rewrite Hnone. destruct (Z.eqb_spec n (u64 (0 - 1))) as [E|_]; [vm_compute in E; subst n; lia|]. destruct (Z.ltb_spec n 0); [lia|]. destruct fuel as [|fuel]; [lia|done].
  - rewrite (u64_small (k - 1)) by (unfold in_u64; lia). destruct (Z.eqb_spec n (k - 1)) as [->|Hne].
    + destruct (Z.ltb_spec (k - 1) k); [|lia]. cbn. by replace (k - 1 + 1) with k by lia.
    + rewrite Hparent by lia. rewrite IH by lia. destruct (Z.ltb_spec n (k - 1)), (Z.ltb_spec n k); try done; lia.
Qed.

Lemma GetHashFn_chain n : 0 <= n < 2 ^ 63 -> GetHashFn node (chain top) n = Ok (if n <? top then h_ParentHash (chain (n + 1)) else 0).
Proof.
  intros Hn. unfold GetHashFn. rewrite NumberU64_chain by lia. cbn [mbind outcome_bind]. destruct (Z.eq_dec top 0) as [E|Hk0].
  - rewrite E. destruct (Z.eqb_spec n (u64 (0 - 1))) as [E'|_]; [vm_compute in E'; subst n; lia|]. rewrite Hnone. destruct (Z.ltb_spec n 0); [lia|done].
  - rewrite (u64_small (top - 1)) by (unfold in_u64; lia). destruct (Z.eqb_spec n (top - 1)) as [->|Hne].
    + destruct (Z.ltb_spec (top - 1) top); [|lia]. cbn. by replace (top - 1 + 1) with top by lia.
    + rewrite Hparent by lia. rewrite getHash_chain by lia. destruct (Z.ltb_spec n (top - 1)), (Z.ltb_spec n top); try done; lia.
Qed.
End ancestors.

(** ** Examples *)

#[local] Existing Instance sample_crypto.
#[local] Existing Instance sample_natives.
#[local] Existing Instance list_store.

(** Emits two logs without topics or data. *)
Definition logging_code : bytes := z2b <$> [0x60; 0; 0x60; 0; 0xa0; 0x60; 0; 0x60; 0; 0xa0; 0].
Definition logging_setup : list (method unit) := [CreateAccount 500; SetCode 500 (Some logging_code)].
Definition logging_world : StateDB listTrie unit := Eval vm_compute in snd (each logging_setup (fun c => state_call true c) sample_state).
Definition deposit_tx (nonce : Z) : Transaction :=
  SetTransactionMeta (Some (NewTransactionMeta (Some 5) 1000 (Some 1) QueueOriginL1ToL2 (Some nonce) (Some nonce) None))
    (newTransaction nonce (Some 500) (Some 0) 100000 (Some 0) []).
Definition deposit_block : Block :=
  mkBlock (mkHeader 77 0 5 0 0 0 zeroBloom (Some 1) (Some 100) 11000000 0 1700000000 [] 0 (replicate 8 Byte.x00)) [] [deposit_tx 0; deposit_tx 1] (Some 1234).
Local Abbreviation deposit_run := (fst (Process (rollup_node (0, 0) 1088 (fun _ => inr []) id zero_config (fun _ _ => None) h_Coinbase)
  deposit_block (mkVMConfig false false []) logging_world)).

(** The cumulative gas and the numbers of the logs of each receipt, and the gas of the block. *)
Definition summary (o : outcome (list Receipt * list Log * Z)) : option (list (Z * list Z) * Z) :=
  match o with
  | Ok (rs, logs, used) => Some ((fun r => (CumulativeGasUsed r, log_Index <$> r_Logs r)) <$> rs, used)
  | _ => None
  end.

Lemma logging_world_unused : unused logging_world.
Proof.
  split; [|reflexivity|reflexivity]. eapply (opened_each logging_setup).
  - repeat constructor; unfold slice_ok, wf_hash, in_word; try (vm_compute; reflexivity); lia.
  - apply (opened_New emptyRoot tt); [reflexivity|]. intros a d Hd. discriminate Hd.
  - vm_compute. reflexivity.
Defined.

Lemma sample_chain_ok : chain_ok (fun _ => inr []) zero_config 100.
Proof.
  split; try reflexivity; try done.
  - exists 1088. split; [done|]. unfold in_word. lia.
  - by intros e b [= <-].
Defined.

Lemma deposit_tx_fits nonce : tx_fits (deposit_tx nonce).
Proof.
  split; cbn; unfold gas_limit, in_word; try lia; done.
Defined.

Lemma summary_accounted block n bh o x : summary o = Some x ->
  match o with Ok (receipts, logs, usedGas) => accounted block n bh receipts logs usedGas | Blocked => False | _ => True end ->
  exists receipts logs usedGas, o = Ok (receipts, logs, usedGas) /\ accounted block n bh receipts logs usedGas.
Proof. destruct o as [[[rs logs] used]|e|w|]; try discriminate. intros _ H. by exists rs, logs, used. Qed.

