(* ===== verification/SeqAdapter.v ===== *)
(** The sequencer adapter: which sequencer may produce a block
    (rollup/rollup_adapter.go).

    The L2 node, the sequencer set contract behind it and the PoS layer are asked
    over RPC: [SeqEnv] holds their answers during one call of the adapter.
    [RollupAdapter] is the interface the sync service uses. *)
From stdpp Require Import prelude list strings.
From Stdlib Require Import ZArith Lia Sorting.Sorted.
From S2P Require Import Prelude Params VarBytes TxMeta RLP Crypto Transaction SeqSet.
Local Open Scope Z_scope.

Record SeqEnv := {
  Dial : outcome unit;
  NewSeqset : outcome unit;
  GetEpochByBlock : Z -> outcome Z;
  CurrentEpochNumber : outcome Z;
  Epochs : Z -> outcome Epoch;
  FinalizedBlock : outcome Z;
  MpcAddress : outcome address;
  BalanceAt : address -> outcome Z;
  CurrentBlockNumber : option Z;   (* bc.CurrentBlock(), nil before genesis *)
  env_chainID : option Z;          (* bc.Config().ChainID *)
  posGet : outcome string }.       (* the body of GET checkPosIsSynced *)

Record CachedSeqEpoch := mkCached {
  c_Signer : address; c_StartBlock : Z; c_EndBlock : Z; RespanArr : list Z; Status : bool }.

Record PreRespan := { PreSigner : address; NewSigner : address; RespanStartBlock : Z }.

Record SeqAdapter := mkAdapter {
  l2SeqContract : address; seqContractValidHeight : Z; connected : bool;
  cachedSeqEpoch : CachedSeqEpoch; preRespan : option PreRespan }.

Definition NewSeqAdapter (contract : address) (validHeight : Z) : SeqAdapter :=
  mkAdapter contract validHeight false (mkCached 0 0 0 [] false) None.

Definition set_connected (b : bool) (s : SeqAdapter) :=
  mkAdapter (l2SeqContract s) (seqContractValidHeight s) b (cachedSeqEpoch s) (preRespan s).
Definition set_cached (c : CachedSeqEpoch) (s : SeqAdapter) :=
  mkAdapter (l2SeqContract s) (seqContractValidHeight s) (connected s) c (preRespan s).
Definition set_preRespan (p : option PreRespan) (s : SeqAdapter) :=
  mkAdapter (l2SeqContract s) (seqContractValidHeight s) (connected s) (cachedSeqEpoch s) p.
Definition set_Status (b : bool) (s : SeqAdapter) :=
  let c := cachedSeqEpoch s in
  set_cached (mkCached (c_Signer c) (c_StartBlock c) (c_EndBlock c) (RespanArr c) b) s.
Definition set_RespanArr (l : list Z) (s : SeqAdapter) :=
  let c := cachedSeqEpoch s in
  set_cached (mkCached (c_Signer c) (c_StartBlock c) (c_EndBlock c) l (Status c)) s.


(** ** The respan list *)

(** [sort.Search]: binary search for the first index satisfying [f]. *)
Fixpoint search_loop (fuel : nat) (f : nat -> bool) (i j : nat) : nat :=
  match fuel with
  | O => i
  | S fuel =>
      if (i <? j)%nat then
        let h := ((i + j) / 2)%nat in
        if negb (f h) then search_loop fuel f (h + 1) j else search_loop fuel f i h
      else i
  end.
Definition sort_Search (n : nat) (f : nat -> bool) : nat := search_loop n f 0 n.

Definition insertRespanNumber (arr : list Z) (value : Z) : list Z :=
  let index := sort_Search (length arr) (fun i => value <=? nth i arr 0) in
  take index arr ++ value :: drop index arr.

Definition removeFirstRespan (arr : list Z) : list Z := tail arr.

(** ** Queries *)

Section Adapter.
Context {crypto : Crypto}.
(** [rcfg.DefaultSeqAdderss], which the environment may override. *)
Variable DefaultSeqAddress : address.

Definition ensureSeqContract (env : SeqEnv) : M SeqAdapter unit :=
  conn ← gets connected;
  if conn then ret tt
  else
    lift_out (Dial env) ;;
    modS (set_connected true) ;;
    r ← attempt (lift_out (NewSeqset env));
    match r with
    | inl e => modS (set_connected false) ;; throw e
    | inr _ => ret tt
    end.

Definition errIncorrectEpoch : goerror := ErrNew "get sequencer incorrect epoch number".
Definition errCheckRespan : goerror := ErrNew "get sequencer error when check respan".

Definition GetEpochByBlockNumber (env : SeqEnv) (expectIndex : Z) : M SeqAdapter Epoch :=
  ensureSeqContract env ;;
  epochNumber ← lift_out (GetEpochByBlock env (i64 expectIndex));
  currentEpochNumber ← lift_out (CurrentEpochNumber env);
  if big_uint64 currentEpochNumber <? big_uint64 epochNumber then throw errIncorrectEpoch
  else lift_out (Epochs env epochNumber).

Definition blockNumberOf (env : SeqEnv) : Z :=
  match CurrentBlockNumber env with Some n => big_uint64 n | None => 0 end.

Definition getSequencer (env : SeqEnv) (expectIndex : Z) : M SeqAdapter address :=
  ensureSeqContract env ;;
  c ← gets cachedSeqEpoch;
  when (Status c && ((expectIndex <? big_uint64 (c_StartBlock c)) || (big_uint64 (c_EndBlock c) <? expectIndex)))
    (modS (set_Status false)) ;;
  let blockNumber := blockNumberOf env in
  p ← gets preRespan;
  when (match p with Some p => RespanStartBlock p <=? blockNumber | None => false end)
    (modS (set_preRespan None)) ;;
  arr ← gets (fun s => RespanArr (cachedSeqEpoch s));
  (match arr with
   | [] => ret tt
   | r0 :: _ =>
       let respanStart := big_uint64 r0 in
       if (respanStart <? expectIndex) && (blockNumber <? respanStart) then throw errCheckRespan
       else when (respanStart <=? blockNumber)
              (modS (fun s => set_RespanArr (removeFirstRespan (RespanArr (cachedSeqEpoch s))) s) ;;
               modS (set_Status false))
   end) ;;
  st ← gets (fun s => Status (cachedSeqEpoch s));
  (if negb st then
     epoch ← GetEpochByBlockNumber env expectIndex;
     modS (fun s => set_cached (mkCached (EpochSigner epoch) (StartBlock epoch) (EndBlock epoch)
                                  (RespanArr (cachedSeqEpoch s)) true) s)
   else ret tt) ;;
  gets (fun s => c_Signer (cachedSeqEpoch s)).

Definition GetFinalizedBlock (env : SeqEnv) : M SeqAdapter Z :=
  let blockNumber := blockNumberOf env in
  h ← gets seqContractValidHeight;
  if blockNumber <? h then ret blockNumber
  else
    ensureSeqContract env ;;
    b ← lift_out (FinalizedBlock env);
    ret (big_uint64 b).

Definition adapter_RecoverSeqAddress (tx : Transaction) : outcome string :=
  (addr ← RecoverSeqAddress tx; Ok (Address_Hex addr))%stdpp.

(** A call of the sequencer set contract by its MPC account, and its data. *)
Definition IsSeqSetContractCall (env : SeqEnv) (tx : Transaction) : M SeqAdapter (bool * bytes) :=
  contract ← gets l2SeqContract;
  match Recipient (data tx) with
  | None => ret (false, [])
  | Some to =>
      if contract =? 0 then ret (false, [])
      else
        r ← attempt (ensureSeqContract env);
        match r with
        | inl _ => ret (false, [])
        | inr _ =>
            match fst (Sender (EIP155Signer (default 0 (env_chainID env))) tx) with
            | Ok sender =>
                match MpcAddress env with
                | Ok mpcAddress =>
                    if (sender =? mpcAddress) && EqualFold (Address_Hex to) (Address_Hex contract)
                    then ret (true, Payload (data tx)) else ret (false, [])
                | Err _ => ret (false, [])
                | Panic w => gopanic w
                | Blocked => blocked
                end
            | Err _ => ret (false, [])
            | Panic w => gopanic w
            | Blocked => blocked
            end
        end
  end.

Definition IsRespanCall (env : SeqEnv) (tx : option Transaction) : M SeqAdapter bool :=
  match tx with
  | None => ret false
  | Some tx =>
      '(seqOper, data) ← IsSeqSetContractCall env tx;
      if negb seqOper then ret false
      else let '(isRespan, _, _, _) := DecodeReCommitData data in ret isRespan
  end.

(** [SetPreRespan] only logs. *)
Definition SetPreRespan (oldAddress newAddress : address) (number : Z) : M SeqAdapter unit := ret tt.

Definition IsPreRespanSequencer (seqAddress : string) (number : Z) (s : SeqAdapter) : bool :=
  match preRespan s with
  | None => false
  | Some p =>
      if (RespanStartBlock p =? 0) || (PreSigner p =? 0) then false
      else (RespanStartBlock p <=? number) && EqualFold (Address_Hex (PreSigner p)) seqAddress
  end.

Definition IsNotNextRespanSequencer (seqAddress : string) (number : Z) (s : SeqAdapter) : bool :=
  match preRespan s with
  | None => false
  | Some p =>
      if (RespanStartBlock p =? 0) || (NewSigner p =? 0) then false
      else (RespanStartBlock p <=? number) && negb (EqualFold (Address_Hex (NewSigner p)) seqAddress)
  end.

(** The exception for refilling the MPC account: a transfer of more than 10 METIS
    to it while it holds at most 0.5 METIS is sequenced by the last epoch's
    sequencer. *)
Definition mpcRefill (env : SeqEnv) (tx : Transaction) (err : goerror) : M SeqAdapter address :=
  conn ← gets connected;
  if negb conn then throw err
  else match MpcAddress env with
  | Ok mpcAddress =>
      if mpcAddress =? 0 then throw err
      else
        let minValue := 10000000000000000000 in
        if match Recipient (data tx) with
           | None => true
           | Some to => negb (bool_decide (Address_Hex to = Address_Hex mpcAddress))
           end || (Amount (data tx) <=? minValue)
        then throw err
        else match BalanceAt env mpcAddress with
        | Ok rawBalance =>
            let wantBalance := 500000000000000000 in
            if wantBalance <? rawBalance then throw err
            else match CurrentEpochNumber env with
            | Ok n => match Epochs env n with
                      | Ok epoch => ret (EpochSigner epoch)
                      | Err _ => throw err | Panic w => gopanic w | Blocked => blocked
                      end
            | Err _ => throw err | Panic w => gopanic w | Blocked => blocked
            end
        | Err _ => throw err | Panic w => gopanic w | Blocked => blocked
        end
  | Err _ => throw err | Panic w => gopanic w | Blocked => blocked
  end.

Definition GetTxSequencer (env : SeqEnv) (tx : option Transaction) (expectIndex : Z)
    : M SeqAdapter address :=
  h ← gets seqContractValidHeight;
  if expectIndex <=? h then ret DefaultSeqAddress
  else
    respan ← (match tx with
              | None => ret None
              | Some tx =>
                  '(seqOper, data) ← IsSeqSetContractCall env tx;
                  if negb seqOper then ret None
                  else
                    let '(updateSeq, newSeq, startBlock, _) := DecodeReCommitData data in
                    ret (if updateSeq : bool then Some (newSeq, startBlock) else None)
              end);
    match respan with
    | Some (newSeq, startBlock) =>
        modS (fun s => set_RespanArr (insertRespanNumber (RespanArr (cachedSeqEpoch s)) startBlock) s) ;;
        ret newSeq
    | None =>
        r ← attempt (getSequencer env expectIndex);
        match r with
        | inr a => ret a
        | inl err =>
            match tx with
            | Some tx => if bool_decide (err_string err = err_string errIncorrectEpoch)
                         then mpcRefill env tx err else throw err
            | None => throw err
            end
        end
    end.

Definition RemoveCachedSeqEpoch : M SeqAdapter unit := modS (set_Status false).

(** [strconv.ParseBool] *)
Definition ParseBool (s : string) : outcome bool :=
  if bool_decide (s ∈ ["1"; "t"; "T"; "true"; "TRUE"; "True"]%string) then Ok true
  else if bool_decide (s ∈ ["0"; "f"; "F"; "false"; "FALSE"; "False"]%string) then Ok false
  else Err (ErrNew "strconv.ParseBool: invalid syntax").

Definition CheckPosLayerSynced (env : SeqEnv) : outcome bool :=
  (body ← posGet env; ParseBool body)%stdpp.
End Adapter.

(** ** The respan list stays sorted *)

Definition sorted (l : list Z) : Prop := forall (i j : nat) x y,
  l !! i = Some x -> l !! j = Some y -> (i <= j)%nat -> x <= y.

Lemma search_loop_spec fuel f n : forall i j,
  (i <= j <= n)%nat -> (j - i <= fuel)%nat ->
  (forall k, (k < i)%nat -> f k = false) -> (forall k, (j <= k < n)%nat -> f k = true) ->
  (forall a b, (a <= b < n)%nat -> f a = true -> f b = true) ->
  let r := search_loop fuel f i j in
  (r <= n)%nat /\ (forall k, (k < r)%nat -> f k = false) /\ (forall k, (r <= k < n)%nat -> f k = true).
Proof.
  induction fuel as [|fuel IH]; intros i j Hij Hfuel Hlo Hhi Hmono; cbn [search_loop].
  { assert (i = j) as -> by lia. by split; [lia|]. }
  destruct (Nat.ltb_spec i j); [|assert (i = j) as -> by lia; by split; [lia|]].
  assert (Hh : (i <= (i + j) / 2 < j)%nat).
  { split; [apply Nat.div_le_lower_bound; lia|apply Nat.Div0.div_lt_upper_bound; lia]. }
  set (h := ((i + j) / 2)%nat) in *. destruct (f h) eqn:E; cbn [negb].
  - apply IH; try done; [lia|lia|]. intros k Hk. apply (Hmono h k); [lia|done].
  - apply IH; try done; [lia|lia|]. intros k Hk. destruct (f k) eqn:Ek; [|done].
    rewrite (Hmono k h) in E; [done|lia|done].
Qed.

Lemma insertRespanNumber_spec arr v :
  sorted arr -> sorted (insertRespanNumber arr v) /\ insertRespanNumber arr v ≡ₚ v :: arr.
Proof.
  intros Hs. unfold insertRespanNumber, sort_Search. cbv zeta.
  set (f := fun i => v <=? nth i arr 0).
  destruct (search_loop_spec (length arr) f (length arr) 0 (length arr)) as (Hr & Hlo & Hhi); try (lia || done).
  { intros a b Hab. unfold f. rewrite !Z.leb_le. intros Ha.
    assert (nth a arr 0 <= nth b arr 0); [|lia].
    apply (Hs a b); [..|lia]; rewrite nth_lookup; [destruct (arr !! a) eqn:E|destruct (arr !! b) eqn:E];
      try done; apply lookup_ge_None in E; lia. }
  set (r := search_loop _ _ _ _) in *. split.
  2:{ rewrite <- Permutation_middle. by rewrite take_drop. }
  assert (Hx : forall (k : nat) x, arr !! k = Some x -> if (k <? r)%nat then x < v else v <= x).
  { intros k x Hk. pose proof (lookup_lt_Some _ _ _ Hk). pose proof (nth_lookup_Some _ _ 0 _ Hk) as Hn.
    destruct (Nat.ltb_spec k r) as [Hlt|Hge].
    - specialize (Hlo k Hlt). unfold f in Hlo. rewrite Hn in Hlo. by apply Z.leb_gt in Hlo.
    - specialize (Hhi k ltac:(lia)). unfold f in Hhi. rewrite Hn in Hhi. by apply Z.leb_le in Hhi. }
  assert (Hlk : forall (k : nat) x, (take r arr ++ v :: drop r arr) !! k = Some x ->
    (k < r)%nat /\ arr !! k = Some x \/ k = r /\ x = v \/ (r < k)%nat /\ arr !! (k - 1)%nat = Some x).
  { intros k x Hk. apply lookup_app_Some in Hk as [Hk|[Hge Hk]].
    - pose proof (lookup_lt_Some _ _ _ Hk) as Hl. rewrite length_take in Hl.
      rewrite lookup_take_lt in Hk by lia. left. split; [lia|done].
    - rewrite length_take_le in Hge, Hk by done. destruct (k - r)%nat as [|m] eqn:Em.
      + injection Hk as ->. right. left. split; [lia|done].
      + change (drop r arr !! m = Some x) in Hk. rewrite lookup_drop in Hk. right. right. split; [lia|].
        replace (k - 1)%nat with (r + m)%nat by lia. done. }
  intros i j x y Hi Hj Hij.
  apply Hlk in Hi as [[? Hi]|[[? ->]|[? Hi]]], Hj as [[? Hj]|[[? ->]|[? Hj]]]; try lia;
    try (by eapply (Hs _ _ _ _ Hi Hj); lia).
  - apply Hx in Hi. destruct (Nat.ltb_spec i r); lia.
  - apply Hx in Hj. destruct (Nat.ltb_spec (j - 1) r); lia.
Qed.

Lemma sorted_tail l : sorted l -> sorted (tail l).
Proof.
  destruct l as [|a l]; [done|]. intros Hs i j x y Hi Hj Hij.
  apply (Hs (S i) (S j)); [done|done|lia].
Qed.

Section AdapterFacts.
Context {crypto : Crypto}.
Variable DefaultSeqAddress : address.

(** ** Invariant *)

(** The respans are sorted, no pre-respan is ever set, and the configuration is
    the one the adapter was made with. *)
Record adapter_inv (contract : address) (height : Z) (s : SeqAdapter) : Prop := {
  inv_sorted : sorted (RespanArr (cachedSeqEpoch s));
  inv_pre : preRespan s = None;
  inv_contract : l2SeqContract s = contract;
  inv_height : seqContractValidHeight s = height }.

Lemma inv_cached_same contract height s c :
  adapter_inv contract height s -> sorted (RespanArr c) -> adapter_inv contract height (set_cached c s).
Proof. intros [] ?. by constructor. Qed.

Ltac keep_inv := intros ? [? ? ? ?]; by constructor; cbn.

Lemma ensureSeqContract_inv contract height env :
  preserves (adapter_inv contract height) (ensureSeqContract env).
Proof. unfold ensureSeqContract. repeat preserves_step; keep_inv. Qed.

Lemma GetEpochByBlockNumber_inv contract height env i :
  preserves (adapter_inv contract height) (GetEpochByBlockNumber env i).
Proof.
  unfold GetEpochByBlockNumber. repeat first [apply ensureSeqContract_inv|preserves_step].
Qed.

Lemma getSequencer_inv contract height env i :
  preserves (adapter_inv contract height) (getSequencer env i).
Proof.
  unfold getSequencer. cbv zeta.
  repeat first [apply ensureSeqContract_inv|apply GetEpochByBlockNumber_inv|preserves_step]; try keep_inv.
  intros s0 [Hs0 Hp0 Hc0 Hh0]. constructor; cbn; [by apply sorted_tail|done..].
Qed.

Lemma IsSeqSetContractCall_inv contract height env tx :
  preserves (adapter_inv contract height) (IsSeqSetContractCall env tx).
Proof.
  unfold IsSeqSetContractCall. repeat first [apply ensureSeqContract_inv|preserves_step].
Qed.

Lemma mpcRefill_inv contract height env tx e :
  preserves (adapter_inv contract height) (mpcRefill env tx e).
Proof. unfold mpcRefill. cbv zeta. repeat preserves_step. Qed.

Lemma GetTxSequencer_inv contract height env tx i :
  preserves (adapter_inv contract height) (GetTxSequencer DefaultSeqAddress env tx i).
Proof.
  unfold GetTxSequencer.
  repeat first [apply IsSeqSetContractCall_inv|apply getSequencer_inv|apply mpcRefill_inv|preserves_step].
  intros s0 [Hs0 Hp0 Hc0 Hh0]. constructor; cbn; [by apply insertRespanNumber_spec|done..].
Qed.

(** ** Reachable adapters *)

(** One call of the adapter, with whatever the node answers. *)
Inductive adapter_step : SeqAdapter -> SeqAdapter -> Prop :=
  | step_GetTxSequencer env tx i s :
      adapter_step s (snd (GetTxSequencer DefaultSeqAddress env tx i s))
  | step_GetEpochByBlockNumber env i s : adapter_step s (snd (GetEpochByBlockNumber env i s))
  | step_GetFinalizedBlock env s : adapter_step s (snd (GetFinalizedBlock env s))
  | step_IsSeqSetContractCall env tx s : adapter_step s (snd (IsSeqSetContractCall env tx s))
  | step_IsRespanCall env tx s : adapter_step s (snd (IsRespanCall env tx s))
  | step_SetPreRespan a b n s : adapter_step s (snd (SetPreRespan a b n s))
  | step_RemoveCachedSeqEpoch s : adapter_step s (snd (RemoveCachedSeqEpoch s)).

Lemma adapter_step_inv contract height s s' :
  adapter_step s s' -> adapter_inv contract height s -> adapter_inv contract height s'.
Proof.
  intros [] Hi.
  - by apply GetTxSequencer_inv.
  - by apply GetEpochByBlockNumber_inv.
  - revert Hi. generalize s0. change (preserves (adapter_inv contract height) (GetFinalizedBlock env)).
    unfold GetFinalizedBlock. cbv zeta. repeat first [apply ensureSeqContract_inv|preserves_step].
  - by apply IsSeqSetContractCall_inv.
  - revert Hi. generalize s0. change (preserves (adapter_inv contract height) (IsRespanCall env tx)).
    unfold IsRespanCall. repeat first [apply IsSeqSetContractCall_inv|preserves_step].
  - done.
  - revert Hi. apply preserves_modS. keep_inv.
Qed.

(** C40: in every state an adapter can reach, whatever its calls and whatever the
    node answered, the pending respans are sorted by start block, the contract and
    its valid height are the configured ones, and no pre-respan is set: announcing
    one ([SetPreRespan]) has no effect, so [IsPreRespanSequencer] and
    [IsNotNextRespanSequencer] are false for every sequencer and block. *)
Theorem adapter_reachable (contract : address) (height : Z) (s : SeqAdapter) :
  rtc adapter_step (NewSeqAdapter contract height) s ->
  sorted (RespanArr (cachedSeqEpoch s)) /\
  l2SeqContract s = contract /\ seqContractValidHeight s = height /\
  forall seq n, IsPreRespanSequencer seq n s = false /\ IsNotNextRespanSequencer seq n s = false.
Proof.
  intros Hr.
  assert (Hi : adapter_inv contract height s).
  { assert (H0 : adapter_inv contract height (NewSeqAdapter contract height)).
    { by constructor. }
    revert H0. induction Hr as [|s1 s2 s3 Hs _ IH]; [done|]. intros H0.
    apply IH. by eapply adapter_step_inv. }
  destruct Hi as [Hs Hp Hc Hh]. repeat (split; [done|]). intros seq n.
  unfold IsPreRespanSequencer, IsNotNextRespanSequencer. by rewrite Hp.
Qed.

(** ** The sequencer of a block *)

(** What the contract promises: an epoch it names for a block, among those that
    have started, contains the block, and its bounds are block numbers. *)
Definition epochs_cover (env : SeqEnv) : Prop := forall i n cur e,
  GetEpochByBlock env i = Ok n -> CurrentEpochNumber env = Ok cur ->
  big_uint64 n <= big_uint64 cur -> Epochs env n = Ok e ->
  in_u64 (StartBlock e) /\ in_u64 (EndBlock e) /\ StartBlock e <= i <= EndBlock e.

(** The cached epoch is valid and contains the block. *)
Definition cache_covers (i : Z) (c : CachedSeqEpoch) : Prop :=
  Status c = true /\ big_uint64 (c_StartBlock c) <= i <= big_uint64 (c_EndBlock c).

Lemma big_uint64_small z : in_u64 z -> big_uint64 z = z.
Proof. intros [? ?]. unfold big_uint64. rewrite Z.abs_eq by lia. by apply u64_small. Qed.

Lemma i64_small z : 0 <= z < 2 ^ 63 -> i64 z = z.
Proof.
  intros Hz. unfold i64. rewrite u64_small by (unfold in_u64; lia).
  by destruct (Z.ltb_spec z (2 ^ 63)); [|lia].
Qed.

Lemma GetEpochByBlockNumber_Ok env i s e s' :
  epochs_cover env -> 0 <= i < 2 ^ 63 -> GetEpochByBlockNumber env i s = (Ok e, s') ->
  StartBlock e <= i <= EndBlock e /\ in_u64 (StartBlock e) /\ in_u64 (EndBlock e).
Proof.
  intros Hc Hi H. unfold GetEpochByBlockNumber in H.
  apply bind_Ok_inv in H as ([] & s1 & _ & H).
  apply bind_Ok_inv in H as (n & s2 & Hn & H). apply bind_Ok_inv in H as (cur & s3 & Hcur & H).
  unfold lift_out in Hn, Hcur. injection Hn as Hn ->. injection Hcur as Hcur ->.
  rewrite i64_small in Hn by done.
  destruct (Z.ltb_spec (big_uint64 cur) (big_uint64 n)); [discriminate|].
  unfold lift_out in H. injection H as He ->.
  destruct (Hc i n cur e Hn Hcur) as (? & ? & ?); [lia|done|]. done.
Qed.

(** The tail of [getSequencer]: use the cache or load the epoch. *)
Lemma load_covers env i s a s' :
  epochs_cover env -> 0 <= i < 2 ^ 63 ->
  (Status (cachedSeqEpoch s) = true -> cache_covers i (cachedSeqEpoch s)) ->
  (st ← gets (fun s => Status (cachedSeqEpoch s));
   (if negb st then
      epoch ← GetEpochByBlockNumber env i;
      modS (fun s => set_cached (mkCached (EpochSigner epoch) (StartBlock epoch) (EndBlock epoch)
                                   (RespanArr (cachedSeqEpoch s)) true) s)
    else ret tt) ;;
   gets (fun s => c_Signer (cachedSeqEpoch s))) s = (Ok a, s') ->
  cache_covers i (cachedSeqEpoch s') /\ a = c_Signer (cachedSeqEpoch s').
Proof.
  intros Hc Hi Hcov H. erewrite bind_Ok in H by reflexivity. cbv beta in H.
  apply bind_Ok_inv in H as ([] & s1 & H1 & [= <- <-]). split; [|done].
  destruct (Status (cachedSeqEpoch s)) eqn:Est; cbn [negb] in H1.
  - injection H1 as <-. by apply Hcov.
  - apply bind_Ok_inv in H1 as (e & s2 & He & [= <-]).
    apply GetEpochByBlockNumber_Ok in He as (Hr & Hs & Hen); [|done..].
    unfold cache_covers. cbn. by rewrite !big_uint64_small.
Qed.

(** whenever the adapter names a sequencer for a block beyond the valid height
    from the contract, it is the signer of the epoch now cached, and that epoch
    contains the block: a cached epoch is used only for blocks it covers, and is
    reloaded when the chain has reached a pending respan. *)
Theorem getSequencer_covers (env : SeqEnv) (i : Z) (s s' : SeqAdapter) (a : address) :
  epochs_cover env -> 0 <= i < 2 ^ 63 -> getSequencer env i s = (Ok a, s') ->
  cache_covers i (cachedSeqEpoch s') /\ a = c_Signer (cachedSeqEpoch s') /\
  match RespanArr (cachedSeqEpoch s) with
  | r0 :: _ => ~ (big_uint64 r0 < i /\ blockNumberOf env < big_uint64 r0)
  | [] => True
  end.
Proof.
  intros Hc Hi H. unfold getSequencer in H. cbv zeta in H.
  apply bind_Ok_inv in H as ([] & s1 & He & H).
  assert (Hsame : cachedSeqEpoch s1 = cachedSeqEpoch s).
  { revert He. unfold ensureSeqContract. unfold_M. destruct (connected s); [by intros [= <-]|].
    destruct (Dial env); [|by intros [= ]..]. destruct (NewSeqset env); by intros [= <-]. }
  erewrite bind_Ok in H by reflexivity. cbv beta in H.
  set (stale := Status (cachedSeqEpoch s1) && _) in H.
  apply bind_Ok_inv in H as ([] & s2 & H2 & H).
  assert (H2c : RespanArr (cachedSeqEpoch s2) = RespanArr (cachedSeqEpoch s) /\
    (Status (cachedSeqEpoch s2) = true -> cache_covers i (cachedSeqEpoch s2))).
  { unfold when in H2. destruct stale eqn:Est.
    - injection H2 as <-. cbn. by rewrite Hsame.
    - injection H2 as <-. rewrite Hsame. split; [done|]. intros Hst. split; [done|].
      subst stale. rewrite Hsame, Hst in Est. cbn [andb] in Est.
      apply orb_false_iff in Est as [E1 E2]. apply Z.ltb_ge in E1, E2. lia. }
  clear H2 stale Hsame He. destruct H2c as [Harr Hcov].
  erewrite bind_Ok in H by reflexivity. apply bind_Ok_inv in H as ([] & s3 & H3 & H).
  assert (H3c : cachedSeqEpoch s3 = cachedSeqEpoch s2).
  { unfold when in H3. destruct (match preRespan s2 with Some _ => _ | None => _ end);
      injection H3 as <-; done. }
  erewrite bind_Ok in H by reflexivity. cbv beta in H. rewrite <- H3c in Harr, Hcov. rewrite Harr in H.
  apply bind_Ok_inv in H as ([] & s4 & H4 & H).
  assert (Hx : (Status (cachedSeqEpoch s4) = true -> cache_covers i (cachedSeqEpoch s4)) /\
    match RespanArr (cachedSeqEpoch s) with
    | r0 :: _ => ~ (big_uint64 r0 < i /\ blockNumberOf env < big_uint64 r0) | [] => True end).
  { destruct (RespanArr (cachedSeqEpoch s)) as [|r0 rest]; [by injection H4 as <-|].
    destruct (Z.ltb_spec (big_uint64 r0) i), (Z.ltb_spec (blockNumberOf env) (big_uint64 r0));
      cbn [andb] in H4; try discriminate.
    all: unfold when in H4; destruct (Z.leb_spec (big_uint64 r0) (blockNumberOf env));
      injection H4 as <-; (split; [done|lia]). }
  destruct Hx as [Hcov4 Hr]. destruct (load_covers env i s4 a s' Hc Hi Hcov4 H) as [? ?]. done.
Qed.

(** a pending respan pauses the sequencer: while the chain is below the start
    of the first pending respan, a block beyond it gets no sequencer. *)
Theorem respan_pauses (env : SeqEnv) (i : Z) (s : SeqAdapter) (r0 : Z) (rest : list Z) :
  connected s = true -> RespanArr (cachedSeqEpoch s) = r0 :: rest ->
  big_uint64 r0 < i -> blockNumberOf env < big_uint64 r0 ->
  fst (getSequencer env i s) = Err errCheckRespan.
Proof.
  intros Hcon Harr H1 H2. unfold getSequencer, ensureSeqContract. cbv zeta.
  unfold gets, modS, bindM, when, ret. rewrite Hcon.
  destruct (Status (cachedSeqEpoch s) && _); cbn; rewrite ?Hcon;
    (destruct (match preRespan s with Some _ => _ | None => _ end)); cbn; rewrite Harr;
    (destruct (Z.ltb_spec (big_uint64 r0) i); [|lia]);
    (destruct (Z.ltb_spec (blockNumberOf env) (big_uint64 r0)); [|lia]); done.
Qed.

(** A transaction of the MPC account to the sequencer set contract. *)
Definition mpc_call (env : SeqEnv) (contract : address) (tx : Transaction) : Prop :=
  Recipient (data tx) = Some contract /\
  exists mpc, MpcAddress env = Ok mpc /\
    fst (Sender (EIP155Signer (default 0 (env_chainID env))) tx) = Ok mpc.

Lemma IsSeqSetContractCall_true env tx s d s' :
  wf_address (l2SeqContract s) ->
  match Recipient (data tx) with Some to => wf_address to | None => True end ->
  IsSeqSetContractCall env tx s = (Ok (true, d), s') ->
  mpc_call env (l2SeqContract s) tx /\ d = Payload (data tx).
Proof.
  intros Hw Ht H. unfold IsSeqSetContractCall in H. erewrite bind_Ok in H by reflexivity. cbv beta in H.
  destruct (Recipient (data tx)) as [to|] eqn:Eto; [|discriminate].
  destruct (l2SeqContract s =? 0); [discriminate|].
  apply bind_Ok_inv in H as ([e|u] & s1 & _ & H); [discriminate|].
  destruct (fst (Sender _ tx)) as [sender|e|w|] eqn:Es; try discriminate.
  destruct (MpcAddress env) as [mpc|e|w|] eqn:Em; try discriminate.
  destruct (Z.eqb_spec sender mpc) as [->|]; [|discriminate]. cbn [andb] in H.
  rewrite EqualFold_Hex in H by done. case_bool_decide; [|discriminate]. injection H as <- _. subst to.
  split; [|done]. split; [done|]. by exists mpc.
Qed.

(** The transfer that may refill the MPC account. *)
Definition refill_tx (env : SeqEnv) (tx : Transaction) (a : address) : Prop :=
  exists mpc balance n e, MpcAddress env = Ok mpc /\ mpc <> 0 /\ Recipient (data tx) = Some mpc /\
    10000000000000000000 < Amount (data tx) /\
    BalanceAt env mpc = Ok balance /\ balance <= 500000000000000000 /\
    CurrentEpochNumber env = Ok n /\ Epochs env n = Ok e /\ a = EpochSigner e.

Lemma mpcRefill_Ok env tx err s a s' :
  match Recipient (data tx) with Some to => wf_address to | None => True end ->
  (forall mpc, MpcAddress env = Ok mpc -> wf_address mpc) ->
  mpcRefill env tx err s = (Ok a, s') -> refill_tx env tx a /\ s' = s.
Proof.
  intros Ht Hm H. unfold mpcRefill in H. cbv zeta in H. unfold_M.
  destruct (negb (connected s)); [discriminate|].
  destruct (MpcAddress env) as [mpc|e|w|] eqn:Em; try discriminate.
  destruct (Z.eqb_spec mpc 0); [discriminate|].
  destruct (Recipient (data tx)) as [to|] eqn:Eto; [|discriminate].
  case_bool_decide as Hx; [|discriminate]. cbn [negb orb] in H.
  apply Address_Hex_inj in Hx as ->; [|done|by apply Hm].
  destruct (Z.leb_spec (Amount (data tx)) 10000000000000000000); [discriminate|].
  destruct (BalanceAt env mpc) as [bal|e|w|] eqn:Eb; try discriminate.
  destruct (Z.ltb_spec 500000000000000000 bal); [discriminate|].
  destruct (CurrentEpochNumber env) as [k|e|w|] eqn:Ek; try discriminate.
  destruct (Epochs env k) as [ep|e|w|] eqn:Ep; try discriminate.
  injection H as <- <-. split; [|done]. exists mpc, bal, k, ep. done.
Qed.

End AdapterFacts.

(** ** The interface of the sync service *)

Class RollupAdapter (A : Type) := {
  ra_RecoverSeqAddress : Transaction -> outcome string;
  ra_GetTxSequencer : SeqEnv -> option Transaction -> Z -> M A address;
  ra_GetSeqValidHeight : A -> Z;
  ra_IsRespanCall : SeqEnv -> option Transaction -> M A bool;
  ra_IsNotNextRespanSequencer : string -> Z -> A -> bool;
  ra_RemoveCachedSeqEpoch : M A unit;
  (** the valid height is a constant of the adapter *)
  ra_height_GetTxSequencer : forall env tx i s,
    ra_GetSeqValidHeight (snd (ra_GetTxSequencer env tx i s)) = ra_GetSeqValidHeight s;
  ra_height_IsRespanCall : forall env tx s,
    ra_GetSeqValidHeight (snd (ra_IsRespanCall env tx s)) = ra_GetSeqValidHeight s;
  ra_height_Remove : forall s,
    ra_GetSeqValidHeight (snd (ra_RemoveCachedSeqEpoch s)) = ra_GetSeqValidHeight s }.

Section Height.
Context {crypto : Crypto}.
Variable DefaultSeqAddress : address.

Definition has_height (h : Z) (s : SeqAdapter) : Prop := seqContractValidHeight s = h.

Lemma ensureSeqContract_height h env : preserves (has_height h) (ensureSeqContract env).
Proof. unfold ensureSeqContract. by repeat preserves_step. Qed.

Lemma IsSeqSetContractCall_height h env tx : preserves (has_height h) (IsSeqSetContractCall env tx).
Proof. unfold IsSeqSetContractCall. repeat first [apply ensureSeqContract_height|preserves_step]. Qed.

Lemma getSequencer_height h env i : preserves (has_height h) (getSequencer env i).
Proof.
  unfold getSequencer, GetEpochByBlockNumber. cbv zeta.
  repeat first [apply ensureSeqContract_height|preserves_step]; done.
Qed.

Lemma GetTxSequencer_height h env tx i :
  preserves (has_height h) (GetTxSequencer DefaultSeqAddress env tx i).
Proof.
  unfold GetTxSequencer, mpcRefill. cbv zeta.
  repeat first [apply IsSeqSetContractCall_height|apply getSequencer_height|preserves_step]; done.
Qed.

Lemma IsRespanCall_height h env tx : preserves (has_height h) (IsRespanCall env tx).
Proof. unfold IsRespanCall. repeat first [apply IsSeqSetContractCall_height|preserves_step]. Qed.

#[export] Instance SeqAdapter_RollupAdapter : RollupAdapter SeqAdapter.
Proof.
  refine {| ra_RecoverSeqAddress := adapter_RecoverSeqAddress;
            ra_GetTxSequencer := GetTxSequencer DefaultSeqAddress;
            ra_GetSeqValidHeight := seqContractValidHeight;
            ra_IsRespanCall := IsRespanCall;
            ra_IsNotNextRespanSequencer := IsNotNextRespanSequencer;
            ra_RemoveCachedSeqEpoch := RemoveCachedSeqEpoch |}.
  - intros env tx i s. by apply GetTxSequencer_height.
  - intros env tx s. by apply IsRespanCall_height.
  - done.
Defined.
End Height.

(** ** Examples *)

Definition sample_env : SeqEnv := {|
  Dial := Ok tt; NewSeqset := Ok tt;
  GetEpochByBlock := fun i => Ok (i / 100); CurrentEpochNumber := Ok 7;
  Epochs := fun n => if (0 <=? n) && (n <=? 7) then Ok (mkEpoch n (0xA0 + n) (n * 100) (n * 100 + 99))
                     else Err (ErrNew "no epoch");
  FinalizedBlock := Ok 640; MpcAddress := Ok 0xFFFF; BalanceAt := fun _ => Ok 3;
  CurrentBlockNumber := Some 650; env_chainID := Some 1088; posGet := Ok "true"%string |}.

Definition sample_adapter : SeqAdapter := NewSeqAdapter 0x1234 100.

Lemma sample_env_covers : epochs_cover sample_env.
Proof.
  intros i n cur e Hn Hcur _ He. cbn in *. injection Hn as <-.
  destruct (Z.leb_spec 0 (i / 100)), (Z.leb_spec (i / 100) 7); try discriminate. injection He as <-. cbn.
  pose proof (Z.div_mod i 100 ltac:(lia)). pose proof (Z.mod_pos_bound i 100 ltac:(lia)).
  unfold in_u64. lia.
Qed.

Lemma adapter_reachable_witness :
  let s := snd (GetTxSequencer (crypto:=sample_crypto) 1 sample_env None 650 sample_adapter) in
  rtc (adapter_step (crypto:=sample_crypto) 1) sample_adapter s /\
  Status (cachedSeqEpoch s) = true /\ sorted (RespanArr (cachedSeqEpoch s)).
Proof.
  cbv zeta.
  assert (Hr : rtc (adapter_step (crypto:=sample_crypto) 1) sample_adapter
    (snd (GetTxSequencer (crypto:=sample_crypto) 1 sample_env None 650 sample_adapter))).
  { apply rtc_once. apply step_GetTxSequencer. }
  split; [exact Hr|]. split; [vm_compute; reflexivity|].
  exact (proj1 (adapter_reachable (crypto:=sample_crypto) 1 0x1234 100 _ Hr)).
Defined.

Lemma getSequencer_covers_witness :
  fst (getSequencer sample_env 651 sample_adapter) = Ok 0xA6 /\
  cache_covers 651 (cachedSeqEpoch (snd (getSequencer sample_env 651 sample_adapter))).
Proof.
  split; [vm_compute; reflexivity|].
  eapply (getSequencer_covers sample_env 651 sample_adapter);
    [apply sample_env_covers|lia|vm_compute; reflexivity].
Defined.

Lemma respan_pauses_witness :
  fst (getSequencer sample_env 701
    (mkAdapter 0x1234 100 true (mkCached 5 600 699 [690] true) None)) = Err errCheckRespan.
Proof.
  apply (respan_pauses sample_env 701 (mkAdapter 0x1234 100 true (mkCached 5 600 699 [690] true) None) 690 []);
    vm_compute; reflexivity.
Defined.

Definition refill_sample : Transaction :=
  NewTransaction 0 0xFFFF (Some 20000000000000000000) 21000 (Some 1) [].

