(* ===== verification/Client.v ===== *)
(** The rollup client (rollup/client.go): what the data transport layer answers,
    and how its answers become transactions and blocks.

    The HTTP library is third-party code: a request is a method of the class
    [Transport] over an environment state, answering a decoded JSON value
    ([None] when the library holds no value of the expected type) or an error
    with the body of the response.  Indices that error texts only quote are left
    out of the texts. *)
From stdpp Require Import prelude list strings.
From Stdlib Require Import ZArith Lia Ascii.
From S2P Require Import Prelude VarBytes TxMeta RLP Crypto Hexutil Transaction.
Local Open Scope Z_scope.

Inductive Backend := BackendL1 | BackendL2.
#[export] Instance Backend_eq_decision : EqDecision Backend.
Proof. solve_decision. Defined.

(** *** What the server sends *)

Record Batch := { batch_Index : Z; batch_Root : hash }.
Record EthContext := { ec_BlockNumber : Z; ec_Timestamp : Z }.
Record SyncStatus := { Syncing : bool; CurrentTransactionIndex : Z }.

Record signature := { sig_R : bytes; sig_S : bytes; sig_V : Z }.
Record decoded := {
  d_Signature : signature; d_Value : option Z; d_GasLimit : Z; d_GasPrice : Z;
  d_Nonce : Z; d_Target : option address; d_Data : bytes }.
Record transaction := {
  r_Index : Z; r_BatchIndex : Z; r_BlockNumber : Z; r_Timestamp : Z; r_Value : option Z;
  r_GasLimit : Z; r_Target : address; r_Origin : option address; r_Data : option bytes;
  r_QueueOrigin : string; r_QueueIndex : option Z; r_Decoded : option decoded; r_SeqSign : string }.
Record Enqueue := {
  e_Index : option Z; e_Target : option address; e_Data : option bytes; e_GasLimit : option Z;
  e_Origin : option address; e_BlockNumber : option Z; e_Timestamp : option Z; e_QueueIndex : option Z }.
Record block := {
  k_Index : Z; k_BatchIndex : Z; k_Timestamp : Z; k_Transactions : list (option transaction) }.

Record TransactionResponse := { tr_Transaction : option transaction }.
Record TransactionBatchResponse := { tb_Batch : option Batch; tb_Transactions : list (option transaction) }.
Record BlockResponse := { br_Block : option block }.
Record BlockBatchResponse := { bb_Batch : option Batch; bb_Blocks : list (option block) }.
Record StateRootResponse := { sr_StateRoot : option hash }.

(** The fields of [types.Block] the rollup code reads. *)
Record Block := mkBlock { b_number : Z; b_time : Z; b_root : hash; b_txs : list Transaction }.
Definition NumberU64 (b : Block) : Z := big_uint64 (b_number b).

Definition errElementNotFound := ErrVar "errElementNotFound" "element not found".

(** *** Conversions *)

(** A nil check that returns an error. *)
Definition require {A} (msg : string) (p : option A) : outcome A :=
  match p with Some a => Ok a | None => Err (ErrNew msg) end.

Definition enqueueToTransaction (enqueue : option Enqueue) : outcome Transaction :=
  match enqueue with
  | None => Err errElementNotFound
  | Some enqueue =>
    match e_QueueIndex enqueue with
    | None => Err errElementNotFound
    | Some nonce =>
       (target ← require "Target not found for enqueue tx" (e_Target enqueue);
        gasLimit ← require "Gas limit not found for enqueue tx" (e_GasLimit enqueue);
        origin ← require "Origin not found for enqueue tx" (e_Origin enqueue);
        blockNumber ← require "Blocknumber not found for enqueue tx" (e_BlockNumber enqueue);
        timestamp ← require "Timestamp not found for enqueue tx" (e_Timestamp enqueue);
        data ← require "Data not found for enqueue tx" (e_Data enqueue);
        let tx := NewTransaction nonce target (Some 0) gasLimit (Some 0) data in
        let txMeta := NewTransactionMeta (Some blockNumber) timestamp (Some origin) QueueOriginL1ToL2
                        (e_Index enqueue) (e_QueueIndex enqueue) (Some data) in
        Ok (SetTransactionMeta (Some txMeta) tx))%stdpp
    end
  end.

Definition parseQueueOrigin (s : string) : outcome Z :=
  if bool_decide (s = "sequencer"%string) then Ok QueueOriginSequencer
  else if bool_decide (s = "l1"%string) then Ok QueueOriginL1ToL2
  else Err (ErrNew ("Unknown queue origin: " +:+ s)).

(** [copy(sig[end-len(v):end], v)]; the slice expression panics when [v] is
    longer than [end]. *)
Definition copy_right (sig : bytes) (stop : nat) (v : bytes) : outcome bytes :=
  if (stop <? length v)%nat then Panic "slice bounds out of range"
  else Ok (take (stop - length v) sig ++ v ++ drop stop sig).

(** [strings.Split(s, ",")] *)
Fixpoint split_comma (cur : text) (s : text) : list text :=
  match s with
  | [] => [cur]
  | c :: s' => if bool_decide (c = ","%char) then cur :: split_comma [] s'
               else split_comma (cur ++ [c]) s'
  end.

(** [x, _ := hexutil.DecodeBig(s)]: nil when the text is malformed. *)
Definition DecodeBig_ignore (s : text) : option Z :=
  match DecodeBig s with Ok z => Some z | _ => None end.

Definition restoreSeqSign (seqSign : string) (tx : Transaction) : Transaction :=
  match String.list_ascii_of_string seqSign with
  | [] => tx
  | s => match split_comma [] s with
         | [r; ss; v] => SetSeqSign {| sR := DecodeBig_ignore r; sS := DecodeBig_ignore ss;
                                       sV := DecodeBig_ignore v |} tx
         | _ => SetSeqSign {| sR := Some 0; sS := Some 0; sV := Some 0 |} tx
         end
  end.

Definition batchedTransactionToTransaction (res : option transaction) (signerChain : Signer) : outcome Transaction :=
  match res with
  | None => Err errElementNotFound
  | Some res =>
     (queueOrigin ← parseQueueOrigin (r_QueueOrigin res);
      let txMeta := NewTransactionMeta (Some (r_BlockNumber res)) (r_Timestamp res) (r_Origin res)
                      queueOrigin (Some (r_Index res)) (r_QueueIndex res) (r_Data res) in
      match r_Decoded res with
      | Some dec =>
          let gasPrice := Some (d_GasPrice dec) in
          let tx := match d_Target dec with
                    | None => NewContractCreation (d_Nonce dec) (d_Value dec) (d_GasLimit dec) gasPrice (d_Data dec)
                    | Some to => NewTransaction (d_Nonce dec) to (d_Value dec) (d_GasLimit dec) gasPrice (d_Data dec)
                    end in
          let tx := SetTransactionMeta (Some txMeta) tx in
          let sg := d_Signature dec in
          sig ← copy_right (replicate SignatureLength Byte.x00) 32 (sig_R sg);
          sig ← copy_right sig 64 (sig_S sg);
          let '(signer, v) :=
            if (sig_V sg =? 27) || (sig_V sg =? 28) then (HomesteadSigner, sig_V sg - 27)
            else (signerChain, sig_V sg) in
          let sig := take 64 sig ++ [z2b v] in
          match WithSignature signer sig tx with
          | Err e => Err (ErrWrap "Cannot add signature to transaction" e)
          | Panic w => Panic w
          | Blocked => Blocked
          | Ok tx => Ok (restoreSeqSign (r_SeqSign res) tx)
          end
      | None =>
          nonce ← (if bool_decide (r_QueueOrigin res = "l1"%string)
                   then require "Queue origin L1 to L2 without a queue index" (r_QueueIndex res)
                   else Ok 0);
          let tx := NewTransaction nonce (r_Target res) (r_Value res) (r_GasLimit res) (Some 0)
                      (default [] (r_Data res)) in
          Ok (SetTransactionMeta (Some txMeta) tx)
      end)%stdpp
  end.

(** [for _, x := range xs { y, err := f(x); ... }]: stop at the first error. *)
Fixpoint convert_all {A B} (f : A -> outcome B) (xs : list A) : outcome (list B) :=
  match xs with
  | [] => Ok []
  | x :: xs' => (y ← f x; ys ← convert_all f xs'; Ok (y :: ys))%stdpp
  end.

Definition wrap_out {A} (prefix : string) (o : outcome A) : outcome A :=
  match o with Err e => Err (ErrWrap prefix e) | o => o end.

Definition batchedBlockToBlock (res : option block) (signerChain : Signer) : outcome Block :=
  match res with
  | None => Err errElementNotFound
  | Some res =>
      match k_Transactions res with
      | [] => Err errElementNotFound
      | txs =>
         (transactions ← convert_all (fun tx => batchedTransactionToTransaction tx signerChain) txs;
          Ok (mkBlock (i64 (k_Index res + 1)) (k_Timestamp res) 0 transactions))%stdpp
      end
  end.

Definition parseTransactionBatchResponse (txBatch : option TransactionBatchResponse) (signer : Signer)
    : outcome (Batch * list Transaction) :=
  match txBatch ≫= tb_Batch, txBatch with
  | Some batch, Some txBatch =>
     (txs ← convert_all (fun tx => wrap_out "Cannot parse transaction batch"
                                     (batchedTransactionToTransaction tx signer)) (tb_Transactions txBatch);
      Ok (batch, txs))%stdpp
  | _, _ => Err errElementNotFound
  end.

Definition parseBlockBatchResponse (blockBatch : option BlockBatchResponse) (signer : Signer)
    : outcome (Batch * list Block) :=
  match blockBatch ≫= bb_Batch, blockBatch with
  | Some batch, Some blockBatch =>
     (blocks ← convert_all (fun b => wrap_out "Cannot parse block batch" (batchedBlockToBlock b signer))
                 (bb_Blocks blockBatch);
      Ok (batch, blocks))%stdpp
  | _, _ => Err errElementNotFound
  end.

(** *** Requests *)

(** The answer of a GET request. *)
Inductive reply (X : Type) :=
| Reply (result : option X)
| Failed (err : goerror) (body : option string).
Arguments Reply {X} result.
Arguments Failed {X} err body.

Class Transport (E : Type) := {
  get_enqueue : Z -> E -> reply Enqueue * E;
  get_enqueue_latest : E -> reply Enqueue * E;
  get_transaction : Z -> Backend -> E -> reply TransactionResponse * E;
  get_transaction_latest : Backend -> E -> reply TransactionResponse * E;
  get_eth_context : Z -> E -> reply EthContext * E;
  get_eth_context_latest : E -> reply EthContext * E;
  get_syncing : Backend -> E -> reply SyncStatus * E;
  get_batch_transaction_latest : E -> reply TransactionBatchResponse * E;
  get_batch_transaction : Z -> E -> reply TransactionBatchResponse * E;
  get_stateroot : Z -> E -> reply StateRootResponse * E;
  set_verifier : Z -> string -> string -> bool -> E -> reply StateRootResponse * E;
  get_block : Z -> Backend -> E -> reply BlockResponse * E;
  get_block_latest : Backend -> E -> reply BlockResponse * E;
  get_batch_block_latest : E -> reply BlockBatchResponse * E;
  get_batch_block : Z -> E -> reply BlockBatchResponse * E }.

Section Client.
Context {E : Type} {transport : Transport E}.
Variable signer : Signer.

(** The client proper: the connection and the flag for block batches. *)
Record Client := mkClient { conn : E; useInbox : bool }.

Definition fetch {X} (call : E -> reply X * E) : M Client (reply X) := fun c =>
  let '(r, e') := call (conn c) in (Ok r, mkClient e' (useInbox c)).

(** The common shape: an error is wrapped, a missing result is an error. *)
Definition fetch_or {X} (onerr : goerror -> option string -> goerror) (missing : string)
    (call : E -> reply X * E) : M Client X :=
  r ← fetch call;
  match r with
  | Failed err body => throw (onerr err body)
  | Reply None => throw (ErrNew missing)
  | Reply (Some x) => ret x
  end.
Definition wrapping (prefix : string) : goerror -> option string -> goerror :=
  fun err _ => ErrWrap prefix err.
(** [fmt.Errorf("prefix: %s", response.String())] *)
Definition quoting (prefix : string) : goerror -> option string -> goerror :=
  fun err body => ErrNew (prefix +:+ ": " +:+ default (err_string err) body).

Definition GetEnqueue (index : Z) : M Client Transaction :=
  enqueue ← fetch_or (wrapping "cannot fetch enqueue") "Cannot fetch enqueue" (get_enqueue index);
  lift_out (enqueueToTransaction (Some enqueue)).

Definition GetLatestEnqueue : M Client Transaction :=
  enqueue ← fetch_or (wrapping "cannot fetch latest enqueue") "Cannot fetch latest enqueue" get_enqueue_latest;
  wrap "Cannot parse enqueue tx" (lift_out (enqueueToTransaction (Some enqueue))).

Definition GetLatestEnqueueIndex : M Client Z :=
  tx ← GetLatestEnqueue;
  match QueueIndex (meta tx) with
  | None => throw (ErrNew "Latest queue index is nil")
  | Some index => ret index
  end.

Definition GetRawTransaction (index : Z) (backend : Backend) : M Client TransactionResponse :=
  fetch_or (wrapping "cannot fetch transaction") "could not get tx with index" (get_transaction index backend).

Definition GetTransaction (index : Z) (backend : Backend) : M Client Transaction :=
  res ← GetRawTransaction index backend;
  lift_out (batchedTransactionToTransaction (tr_Transaction res) signer).

Definition GetLatestTransaction (backend : Backend) : M Client Transaction :=
  res ← fetch_or (wrapping "cannot fetch latest transactions") "Cannot get latest transaction"
          (get_transaction_latest backend);
  lift_out (batchedTransactionToTransaction (tr_Transaction res) signer).

Definition GetLatestTransactionIndex (backend : Backend) : M Client Z :=
  tx ← GetLatestTransaction backend;
  match Index (meta tx) with
  | None => throw (ErrNew "Latest index is nil")
  | Some index => ret index
  end.

Definition GetEthContext (blockNumber : Z) : M Client EthContext :=
  fetch_or (fun err _ => err) "Cannot parse EthContext" (get_eth_context blockNumber).

Definition GetLatestEthContext : M Client EthContext :=
  fetch_or (wrapping "Cannot fetch eth context") "Cannot parse EthContext" get_eth_context_latest.

Definition client_SyncStatus (backend : Backend) : M Client SyncStatus :=
  fetch_or (wrapping "Cannot fetch sync status") "Cannot parse sync status" (get_syncing backend).

(** Walk back from the latest enqueue to the first one with a CTC index.  When a
    fetch fails, the error message dereferences the nil index. *)
Fixpoint confirmed_loop (fuel : nat) (enqueue : Transaction) : M Client Transaction :=
  match fuel with
  | O => blocked
  | S fuel' =>
      let m := meta enqueue in
      match Index m with
      | Some _ => ret enqueue
      | None =>
          match QueueIndex m with
          | None => throw (ErrNew "queue index is nil")
          | Some q =>
              if q =? 0 then throw errElementNotFound
              else
                next ← attempt (GetEnqueue (q - 1));
                match next with
                | inl _ => gopanic "nil dereference of meta.Index"
                | inr next => confirmed_loop fuel' next
                end
          end
      end
  end.

Definition GetLastConfirmedEnqueue : M Client Transaction :=
  enqueue ← wrap "Cannot get latest enqueue" GetLatestEnqueue;
  confirmed_loop (S (Z.to_nat (default 0 (QueueIndex (meta enqueue))))) enqueue.

Definition GetLatestTransactionBatch : M Client (Batch * list Transaction) :=
  txBatch ← fetch_or (quoting "Cannot get latest transaction batch")
              "Cannot parse transaction batch response" get_batch_transaction_latest;
  lift_out (parseTransactionBatchResponse (Some txBatch) signer).

Definition GetTransactionBatch (index : Z) : M Client (Batch * list Transaction) :=
  txBatch ← fetch_or (quoting "Cannot get transaction batch")
              "Cannot parse transaction batch response" (get_batch_transaction index);
  lift_out (parseTransactionBatchResponse (Some txBatch) signer).

(** No state root yet is the zero hash. *)
Definition GetStateRoot (index : Z) : M Client hash :=
  resp ← fetch_or (wrapping "Cannot get stateroot") "Cannot parse stateroot response" (get_stateroot index);
  ret (default 0 (sr_StateRoot resp)).

Definition SetLastVerifier (index : Z) (stateRoot verifierRoot : string) (success : bool) : M Client unit :=
  r ← fetch (set_verifier index stateRoot verifierRoot success);
  match r with
  | Failed err _ => throw (ErrWrap "Cannot set last verifier" err)
  | Reply _ => ret tt
  end.

Definition GetRawBlock (index : Z) (backend : Backend) : M Client BlockResponse :=
  fetch_or (wrapping "cannot fetch block") "could not get tx with index" (get_block index backend).

Definition GetBlock (index : Z) (backend : Backend) : M Client Block :=
  res ← GetRawBlock index backend;
  lift_out (batchedBlockToBlock (br_Block res) signer).

Definition GetLatestBlock (backend : Backend) : M Client Block :=
  res ← fetch_or (fun _ _ => errElementNotFound) "Cannot get latest block" (get_block_latest backend);
  lift_out (batchedBlockToBlock (br_Block res) signer).

Definition GetLatestBlockIndex (backend : Backend) : M Client Z :=
  block ← GetLatestBlock backend;
  ret (u64 (NumberU64 block - 1)).

Definition GetLatestBlockBatch : M Client (Batch * list Block) :=
  txBatch ← fetch_or (fun _ _ => ErrNew "Cannot get latest block batch")
              "Cannot parse block batch response" get_batch_block_latest;
  lift_out (parseBlockBatchResponse (Some txBatch) signer).

Definition GetBlockBatch (index : Z) : M Client (Batch * list Block) :=
  blockBatch ← fetch_or (wrapping "Cannot get block batch") "Cannot parse block batch response"
                 (get_batch_block index);
  lift_out (parseBlockBatchResponse (Some blockBatch) signer).

Definition GetLatestBlockBatchIndex : M Client Z :=
  r ← GetLatestBlockBatch; ret (batch_Index (fst r)).

(** The client moves to block batches for good when the server says so. *)
Definition GetLatestTransactionBatchIndex : M Client Z :=
  inbox ← gets useInbox;
  r ← attempt (if negb inbox then (r ← GetLatestTransactionBatch; ret (fst r))
               else (r ← GetLatestBlockBatch; ret (fst r)));
  match r with
  | inr batch => ret (batch_Index batch)
  | inl err =>
      if str_contains "USE_INBOX_BATCH_INDEX" (err_string err) then
        r ← GetLatestBlockBatch;
        modS (fun c => mkClient (conn c) true) ;;
        ret (batch_Index (fst r))
      else throw err
  end.
End Client.
Arguments Client E : clear implicits.

(** ** What the conversions guarantee *)

Lemma convert_all_Ok {A B} (f : A -> outcome B) xs ys :
  convert_all f xs = Ok ys <-> Forall2 (fun x y => f x = Ok y) xs ys.
Proof.
  revert ys. induction xs as [|x xs IH]; intros ys; cbn.
  - split; [by intros [= <-]|intros H; by inversion H].
  - split.
    + intros H. destruct (f x) as [y|e|w|] eqn:Ef; try done. cbn in H.
      destruct (convert_all f xs) as [ys'|e|w|]; try done. cbn in H. injection H as <-.
      constructor; [done|]. by apply IH.
    + intros H. inversion H as [|? y ? ys' Hy Hr]; subst. rewrite Hy. apply IH in Hr. by rewrite Hr.
Qed.

#[export] Instance Ok_inj {A} : Inj (=) (=) (@Ok A).
Proof. by intros x y [= ->]. Qed.

Definition pad32 (b : bytes) : bytes := replicate (32 - length b) Byte.x00 ++ b.

Lemma length_pad32 b : (length b <= 32)%nat -> length (pad32 b) = 32%nat.
Proof. intros. unfold pad32. rewrite length_app, length_replicate. lia. Qed.

Lemma copy_right_split stop v (pre post : bytes) :
  length pre = stop -> (length v <= stop)%nat ->
  copy_right (pre ++ post) stop v = Ok (take (stop - length v) pre ++ v ++ post).
Proof.
  intros Hp Hv. unfold copy_right. destruct (Nat.ltb_spec stop (length v)); [lia|].
  by rewrite take_app_le, drop_app_length' by lia.
Qed.

Lemma sig_layout (r s : bytes) v :
  (length r <= 32)%nat -> (length s <= 32)%nat ->
  (sig ← copy_right (replicate SignatureLength Byte.x00) 32 r;
   sig ← copy_right sig 64 s; Ok (take 64 sig ++ [v]))%stdpp = Ok (pad32 r ++ pad32 s ++ [v]).
Proof.
  intros Hr Hs.
  change (replicate SignatureLength Byte.x00) with (replicate 32 Byte.x00 ++ replicate 33 Byte.x00).
  rewrite copy_right_split by (rewrite ?length_replicate; lia). cbn [mbind outcome_bind].
  rewrite take_replicate, Nat.min_l by lia.
  change (replicate 33 Byte.x00) with (replicate 32 Byte.x00 ++ [Byte.x00]).
  rewrite app_assoc. change (replicate (32 - length r) Byte.x00 ++ r) with (pad32 r).
  pose proof (length_pad32 r Hr) as Hp. pose proof (length_pad32 s Hs) as Hq.
  rewrite app_assoc, copy_right_split by (rewrite ?length_app, ?length_replicate; lia).
  cbn [mbind outcome_bind]. f_equal.
  assert (Ht : take (64 - length s) (pad32 r ++ replicate 32 Byte.x00) =
               pad32 r ++ replicate (32 - length s) Byte.x00).
  { rewrite take_app_ge, take_replicate by lia. do 2 f_equal. lia. }
  rewrite Ht, app_assoc, <- (app_assoc (pad32 r)). change (replicate _ _ ++ s) with (pad32 s).
  by rewrite take_app_length', <- app_assoc by (rewrite length_app; lia).
Qed.

Lemma sig_layout_steps (r s : bytes) :
  (length r <= 32)%nat -> (length s <= 32)%nat ->
  exists s1 s2, copy_right (replicate SignatureLength Byte.x00) 32 r = Ok s1 /\
    copy_right s1 64 s = Ok s2 /\ forall v, take 64 s2 ++ [v] = pad32 r ++ pad32 s ++ [v].
Proof.
  intros Hr Hs. pose proof (sig_layout r s) as H. cbn [mbind outcome_bind] in H.
  destruct (copy_right (replicate SignatureLength _) 32 r) as [s1| | |]; try by specialize (H Byte.x00 Hr Hs).
  cbn [mbind outcome_bind] in H.
  destruct (copy_right s1 64 s) as [s2| | |] eqn:E2; try by specialize (H Byte.x00 Hr Hs).
  exists s1, s2. repeat apply conj; [done..|]. intros v. specialize (H v Hr Hs).
  by apply (inj Ok) in H.
Qed.

Lemma pad32_take r s v :
  (length r <= 32)%nat -> (length s <= 32)%nat ->
  take 32 (pad32 r ++ pad32 s ++ [v]) = pad32 r /\
  take 32 (drop 32 (pad32 r ++ pad32 s ++ [v])) = pad32 s /\
  nth 64 (pad32 r ++ pad32 s ++ [v]) Byte.x00 = v /\
  length (pad32 r ++ pad32 s ++ [v]) = 65%nat.
Proof.
  intros Hr Hs. pose proof (length_pad32 r Hr). pose proof (length_pad32 s Hs).
  rewrite take_app_length', drop_app_length', take_app_length' by done.
  repeat apply conj; [done..| |rewrite !length_app; cbn; lia].
  rewrite app_assoc, app_nth2 by (rewrite length_app; lia). rewrite length_app.
  by replace (64 - _)%nat with 0%nat by lia.
Qed.

Section ConversionFacts.
Context {crypto : Crypto}.

(** Signatures written before EIP-155 carry V = 27 or 28. *)
Definition legacyV (v : Z) : bool := (v =? 27) || (v =? 28).
Definition remote_signer (c v : Z) : Signer := if legacyV v then HomesteadSigner else EIP155Signer c.
Definition remote_sig (sg : signature) : bytes :=
  pad32 (sig_R sg) ++ pad32 (sig_S sg) ++
  [z2b (if legacyV (sig_V sg) then sig_V sg - 27 else sig_V sg)].

Lemma legacy_sender c t h sig v :
  wf_sig sig -> h = Signer_Hash HomesteadSigner t ->
  dV (data t) = v + 27 -> v = b2z (nth 64 sig Byte.x00) ->
  dR (data t) = be_value (take 32 sig) -> dS (data t) = be_value (take 32 (drop 32 sig)) ->
  Signer_Sender (EIP155Signer c) t = (Ecrecover (hash_bytes h) sig ≫= pub_address).
Proof.
  intros Hs -> HV -> HR HS. pose proof (wf_sig_v _ Hs).
  unfold Signer_Sender. cbv zeta. rewrite HV, HR, HS.
  assert (isProtectedV (b2z (nth 64 sig Byte.x00) + 27) = false) as ->.
  { unfold isProtectedV. cbv zeta. assert (BitLen (b2z (nth 64 sig Byte.x00) + 27) <= 8) by (apply BitLen_le; lia).
    unfold big_uint64. rewrite Z.abs_eq, u64_small by (unfold in_u64; lia). by zcases. }
  cbn [negb]. by apply recoverPlain_sig.
Qed.

Lemma restoreSeqSign_data s t : data (restoreSeqSign s t) = data t.
Proof. unfold restoreSeqSign. repeat case_match; done. Qed.

Lemma restoreSeqSign_index s t : Index (meta (restoreSeqSign s t)) = Index (meta t).
Proof. unfold restoreSeqSign. repeat case_match; done. Qed.

End ConversionFacts.

(** *** Enqueued transactions *)

Record complete (e : Enqueue) : Prop := {
  ce_queue : is_Some (e_QueueIndex e); ce_target : is_Some (e_Target e);
  ce_gas : is_Some (e_GasLimit e); ce_origin : is_Some (e_Origin e);
  ce_number : is_Some (e_BlockNumber e); ce_time : is_Some (e_Timestamp e);
  ce_data : is_Some (e_Data e) }.

(** an enqueue element becomes a transaction exactly when every field but the
    CTC index is present; the transaction is an L1 to L2 message from the recorded
    origin whose nonce is the queue index, with no value and no gas price. *)
Theorem enqueueToTransaction_complete (e : Enqueue) :
  (is_ok (enqueueToTransaction (Some e)) = true <-> complete e) /\
  forall tx, enqueueToTransaction (Some e) = Ok tx ->
    Some (AccountNonce (data tx)) = e_QueueIndex e /\ Recipient (data tx) = e_Target e /\
    Amount (data tx) = 0 /\ Price (data tx) = 0 /\ Some (Payload (data tx)) = e_Data e /\
    Some (GasLimit (data tx)) = e_GasLimit e /\
    meta tx = NewTransactionMeta (e_BlockNumber e) (L1Timestamp (meta tx)) (e_Origin e)
                QueueOriginL1ToL2 (e_Index e) (e_QueueIndex e) (e_Data e) /\
    Some (L1Timestamp (meta tx)) = e_Timestamp e.
Proof.
  destruct e as [i t d g o b ts q]. unfold enqueueToTransaction. cbn.
  destruct q, t, g, o, b, ts, d; cbn.
  all: split; [split; [intros H; first [discriminate H|by constructor; eexists]
                      |intros []; cbn in *;
                       by repeat match goal with H : is_Some None |- _ => destruct H as [? ?] end]
              |by intros tx [= <-]].
Qed.

Section QueueFacts.
Context {E : Type} {transport : Transport E}.

(** What the queue endpoints document: element [i] is served under index [i], the
    latest element is the one with the greatest index. *)
Record queue_served (queue : Z -> Enqueue) (n : Z) : Prop := {
  qs_range : 0 <= n;
  qs_latest : forall e, get_enqueue_latest e = (Reply (Some (queue n)), e);
  qs_get : forall i e, 0 <= i <= n -> get_enqueue i e = (Reply (Some (queue i)), e);
  qs_complete : forall i, 0 <= i <= n -> complete (queue i);
  qs_index : forall i, 0 <= i <= n -> e_QueueIndex (queue i) = Some i }.

Lemma complete_tx e : complete e ->
  exists tx, enqueueToTransaction (Some e) = Ok tx /\ Index (meta tx) = e_Index e /\
             QueueIndex (meta tx) = e_QueueIndex e.
Proof.
  destruct e as [i t d g o b ts q]. intros []; cbn in *. unfold enqueueToTransaction.
  repeat match goal with H : is_Some ?x |- _ => destruct H as [? ->] end. by eexists.
Qed.

Lemma GetEnqueue_served queue n i c :
  queue_served queue n -> 0 <= i <= n ->
  exists tx, GetEnqueue i c = (Ok tx, c) /\ enqueueToTransaction (Some (queue i)) = Ok tx /\
    Index (meta tx) = e_Index (queue i) /\ QueueIndex (meta tx) = Some i.
Proof.
  intros Hq Hi. destruct (complete_tx (queue i)) as (tx & Ht & Hx & Hqi); [by eapply qs_complete|].
  exists tx. rewrite (qs_index _ _ Hq) in Hqi by done. repeat apply conj; try done.
  unfold GetEnqueue, fetch_or, fetch, bindM. rewrite (qs_get _ _ Hq) by done. unfold ret, lift_out.
  rewrite Ht. by destruct c.
Qed.

Lemma confirmed_loop_served queue n i tx c :
  queue_served queue n -> 0 <= i <= n ->
  enqueueToTransaction (Some (queue i)) = Ok tx ->
  Index (meta tx) = e_Index (queue i) -> QueueIndex (meta tx) = Some i ->
  (exists k t, 0 <= k <= i /\ is_Some (e_Index (queue k)) /\ (forall j, k < j <= i -> e_Index (queue j) = None) /\
     enqueueToTransaction (Some (queue k)) = Ok t /\ confirmed_loop (S (Z.to_nat i)) tx c = (Ok t, c)) \/
  ((forall j, 0 <= j <= i -> e_Index (queue j) = None) /\
     confirmed_loop (S (Z.to_nat i)) tx c = (Err errElementNotFound, c)).
Proof.
  intros Hq. remember (Z.to_nat i) as f eqn:Hf. revert i tx Hf.
  induction f as [|f IH]; intros i tx Hf Hi Ht Hx Hqi.
  all: cbn [confirmed_loop]; rewrite Hx, Hqi.
  all: destruct (e_Index (queue i)) as [x|] eqn:Ei;
    [left; exists i, tx; repeat apply conj; try done; [lia..|]; intros j; lia|].
  - assert (i = 0) as -> by lia. right. split; [|done]. intros j Hj. by replace j with 0 by lia.
  - destruct (Z.eqb_spec i 0); [lia|].
    destruct (GetEnqueue_served queue n (i - 1) c Hq ltac:(lia)) as (t' & Hg & Ht' & Hx' & Hq').
    assert (Hstep : forall o, confirmed_loop (S f) t' c = o ->
      (next ← attempt (GetEnqueue (i - 1)); match next with
        | inl _ => gopanic "nil dereference of meta.Index" | inr next => confirmed_loop (S f) next end) c = o).
    { intros o Ho. by erewrite bind_Ok by (by apply attempt_Ok). }
    destruct (IH (i - 1) t') as [(k & t & Hk & Hs & Hbelow & Hkt & Hrun)|(Hnone & Hrun)]; [lia|lia|done..| |].
    + left. exists k, t. repeat apply conj; [lia|lia|done| |done|by apply Hstep].
      intros j Hj. destruct (decide (j = i)) as [->|]; [done|apply Hbelow; lia].
    + right. split; [|by apply Hstep].
      intros j Hj. destruct (decide (j = i)) as [->|]; [done|apply Hnone; lia].
Qed.

(** the walk back through the queue terminates and finds the most recent
    enqueue that L1 has included (the one with the greatest queue index among
    those carrying a CTC index), and reports that nothing was found exactly when
    no element is confirmed. *)
Theorem GetLastConfirmedEnqueue_correct (queue : Z -> Enqueue) (n : Z) (c : Client E) :
  queue_served queue n ->
  (exists k t, 0 <= k <= n /\ is_Some (e_Index (queue k)) /\ (forall j, k < j <= n -> e_Index (queue j) = None) /\
     enqueueToTransaction (Some (queue k)) = Ok t /\ GetLastConfirmedEnqueue c = (Ok t, c)) \/
  ((forall j, 0 <= j <= n -> e_Index (queue j) = None) /\
     GetLastConfirmedEnqueue c = (Err errElementNotFound, c)).
Proof.
  intros Hq. pose proof (qs_range _ _ Hq).
  destruct (GetEnqueue_served queue n n c Hq ltac:(lia)) as (t & _ & Ht & Hx & Hqi).
  assert (Hl : wrap "Cannot get latest enqueue" GetLatestEnqueue c = (Ok t, c)).
  { unfold GetLatestEnqueue, fetch_or, fetch, wrap, bindM. rewrite (qs_latest _ _ Hq). unfold ret, lift_out.
    rewrite Ht. by destruct c. }
  unfold GetLastConfirmedEnqueue. rewrite (bind_Ok _ _ _ _ _ Hl), Hqi. cbn [default from_option].
  by apply (confirmed_loop_served queue n); try done; lia.
Qed.

(** When the fetch of an earlier element fails, the function panics: the error
    message reads the index that has just been found nil. *)
Lemma confirmed_loop_fetch_error fuel tx q c e c' :
  Index (meta tx) = None -> QueueIndex (meta tx) = Some q -> q <> 0 ->
  GetEnqueue (q - 1) c = (Err e, c') ->
  confirmed_loop (S fuel) tx c = (Panic "nil dereference of meta.Index", c').
Proof.
  intros Hx Hq Hne He. cbn [confirmed_loop]. rewrite Hx, Hq. destruct (Z.eqb_spec q 0); [done|].
  by erewrite bind_Ok by (by apply attempt_Err).
Qed.
End QueueFacts.

(** ** Examples *)

Definition sample_decoded : decoded := {|
  d_Signature := {| sig_R := [Byte.x01]; sig_S := [Byte.x02]; sig_V := 1 |};
  d_Value := Some 5; d_GasLimit := 21000; d_GasPrice := 1; d_Nonce := 7; d_Target := Some 0xAB;
  d_Data := [Byte.x60] |}.
Definition sample_remote : transaction := {|
  r_Index := 41; r_BatchIndex := 3; r_BlockNumber := 100; r_Timestamp := 1000; r_Value := Some 5;
  r_GasLimit := 21000; r_Target := 0xAB; r_Origin := None; r_Data := Some [Byte.x60];
  r_QueueOrigin := "sequencer"; r_QueueIndex := None; r_Decoded := Some sample_decoded;
  r_SeqSign := "0x1,0x2,0x0" |}.
Definition sample_enqueue (i : Z) : Enqueue := {|
  e_Index := if i <=? 2 then Some (i + 10) else None; e_Target := Some 0xAB; e_Data := Some [Byte.x60];
  e_GasLimit := Some 21000; e_Origin := Some 0xCD; e_BlockNumber := Some (100 + i);
  e_Timestamp := Some (1000 + i); e_QueueIndex := Some i |}.

(** A server with a queue of five elements, the last two not confirmed, and one
    transaction batch endpoint that asks for block batches. *)
Definition sample_batch : Batch := {| batch_Index := 9; batch_Root := 0 |}.
Definition sample_block : block :=
  {| k_Index := 41; k_BatchIndex := 3; k_Timestamp := 1000; k_Transactions := [Some sample_remote] |}.
Definition sample_server : Transport unit := {|
  get_enqueue := fun i e => (Reply (Some (sample_enqueue i)), e);
  get_enqueue_latest := fun e => (Reply (Some (sample_enqueue 4)), e);
  get_transaction := fun _ _ e => (Reply (Some {| tr_Transaction := Some sample_remote |}), e);
  get_transaction_latest := fun _ e => (Reply (Some {| tr_Transaction := Some sample_remote |}), e);
  get_eth_context := fun n e => (Reply (Some {| ec_BlockNumber := n; ec_Timestamp := 1000 |}), e);
  get_eth_context_latest := fun e => (Reply (Some {| ec_BlockNumber := 120; ec_Timestamp := 2000 |}), e);
  get_syncing := fun _ e => (Reply (Some {| Syncing := false; CurrentTransactionIndex := 41 |}), e);
  get_batch_transaction_latest := fun e =>
    (Failed (ErrNew "400") (Some "USE_INBOX_BATCH_INDEX"%string), e);
  get_batch_transaction := fun _ e => (Failed (ErrNew "400") (Some "USE_INBOX_BATCH_INDEX"%string), e);
  get_stateroot := fun _ e => (Reply (Some {| sr_StateRoot := Some 0x77 |}), e);
  set_verifier := fun _ _ _ _ e => (Reply None, e);
  get_block := fun _ _ e => (Reply (Some {| br_Block := Some sample_block |}), e);
  get_block_latest := fun _ e => (Reply (Some {| br_Block := Some sample_block |}), e);
  get_batch_block_latest := fun e =>
    (Reply (Some {| bb_Batch := Some sample_batch; bb_Blocks := [Some sample_block] |}), e);
  get_batch_block := fun _ e =>
    (Reply (Some {| bb_Batch := Some sample_batch; bb_Blocks := [Some sample_block] |}), e) |}.
Definition sample_client : Client unit := mkClient tt false.


Lemma sample_queue_served : queue_served (transport:=sample_server) sample_enqueue 4.
Proof. by split. Qed.

Lemma GetLastConfirmedEnqueue_correct_witness :
  queue_served (transport:=sample_server) sample_enqueue 4 /\
  exists t, enqueueToTransaction (Some (sample_enqueue 2)) = Ok t /\
    GetLastConfirmedEnqueue (transport:=sample_server) sample_client = (Ok t, sample_client).
Proof.
  split; [exact sample_queue_served|].
  destruct (GetLastConfirmedEnqueue_correct (transport:=sample_server) sample_enqueue 4 sample_client
              sample_queue_served) as [(k & t & Hk & Hs & Hj & Ht & Hr)|[Hn _]].
  - assert (k = 2) as ->; [|by exists t].
    destruct (Z.eq_dec k 2) as [|Hne]; [done|]. exfalso. cbn in Hs.
    destruct (Z.leb_spec k 2); [|by destruct Hs].
    specialize (Hj 2 ltac:(lia)). discriminate.
  - specialize (Hn 2 ltac:(lia)). discriminate.
Defined.
