(* ===== verification/SyncState.v ===== *)
(** The state of the sync service (rollup/sync_service.go, rollup/types.go) and its
    surroundings: configuration, fields, accessors of the stored indices, gas price
    caches, channels and the comparison of transactions.

    Everything outside the rollup package that the service calls is a method of
    the class [SyncEnv] over an environment state: the server behind the rollup
    client, the clock, the block chain, the transaction pool and the two feeds.
    The sequencer adapter is used through [RollupAdapter].  The five index cells
    of the database belong to the service; the rest of the database (blocks and
    transactions) is part of the environment.

    The mutexes serialise the operations, so an operation is a computation over
    the whole state; the only points where another goroutine is awaited are the
    two channels, read by [select_apply]. *)
From stdpp Require Import prelude list strings gmap.
From Stdlib Require Import ZArith Lia Ascii.
From S2P Require Import Prelude VarBytes TxMeta RollupDB RLP Crypto Hexutil Transaction SeqSet Fees SeqAdapter Client.
Local Open Scope Z_scope.

(** What arrives on the channels while the service waits. *)
Record delivery := { dl_head : bool; dl_err : option goerror }.

Class SyncEnv (E : Type) := {
  env_transport :: Transport E;
  now_ms : E -> Z;                                    (* time.Now().UnixMilli() *)
  time_Sleep : Z -> E -> E;                           (* milliseconds *)
  bc_CurrentBlock : E -> option Block;
  bc_GetBlockByNumber : Z -> E -> option Block;
  bc_State : E -> outcome StateDB;
  bc_StateAt : hash -> E -> outcome StateDB;
  db_ReadTransaction : hash -> E -> bool;             (* rawdb.ReadTransaction finds it *)
  seq_env : E -> SeqEnv;                              (* what the adapter can reach *)
  sequencer_height : E -> outcome Z * E;              (* dial and HeaderByNumber(nil) *)
  txpool_AddLocal : Transaction -> E -> outcome unit * E;
  txpool_ValidateTx : Transaction -> bool -> E -> outcome unit * E;
  txFeed_Send : list Transaction -> Z -> E -> E;
  txOtherFeed_Send : list Transaction -> E -> E;
  (** the other goroutines run until a channel holds an element; [None]: never *)
  await : E -> option (delivery * E);
  (** which ready case a [select] takes when both are *)
  pick_err : E -> bool }.

Record Config := {
  verifier : bool; backend : Backend; enforceFees : bool; signerChainID : Z;
  feeThresholdUp : option bigFloat; feeThresholdDown : option bigFloat;
  timestampRefreshThreshold : Z;                      (* nanoseconds *)
  SeqAddress : string; seqPriv : string; seqClientHttp : string;
  DeSeqBlock : Z; rcfg_ChainID : Z }.

Section Service.
Context {crypto : Crypto} {A : Type} {adapter : RollupAdapter A} {E : Type} {env : SyncEnv E}.

(** [signer: types.NewEIP155Signer(chainID)] *)
Definition signer_of (cfg : Config) : Signer := EIP155Signer (signerChainID cfg).

Record SyncService := mkService {
  s_db : kvstore; s_timestamp : Z; s_blockNumber : Z;
  s_enqueueIndexNil : bool; s_startSeqHeight : Z; s_syncing : option bool;
  s_owner : address; s_gpo : RollupOracle;
  s_finalizedIndex : option Z; s_finalizedSyncMs : Z;
  s_chainHeadCh : bool; s_txApplyErrCh : option goerror;   (* channels of capacity 1 *)
  s_adapter : A; s_client : Client E }.

Definition set_db v (s : SyncService) : SyncService :=
  mkService v (s_timestamp s) (s_blockNumber s) (s_enqueueIndexNil s) (s_startSeqHeight s) (s_syncing
  s) (s_owner s) (s_gpo s) (s_finalizedIndex s) (s_finalizedSyncMs s) (s_chainHeadCh s)
  (s_txApplyErrCh s) (s_adapter s) (s_client s).
Definition set_timestamp v (s : SyncService) : SyncService :=
  mkService (s_db s) v (s_blockNumber s) (s_enqueueIndexNil s) (s_startSeqHeight s) (s_syncing s)
  (s_owner s) (s_gpo s) (s_finalizedIndex s) (s_finalizedSyncMs s) (s_chainHeadCh s) (s_txApplyErrCh
  s) (s_adapter s) (s_client s).
Definition set_blockNumber v (s : SyncService) : SyncService :=
  mkService (s_db s) (s_timestamp s) v (s_enqueueIndexNil s) (s_startSeqHeight s) (s_syncing s)
  (s_owner s) (s_gpo s) (s_finalizedIndex s) (s_finalizedSyncMs s) (s_chainHeadCh s) (s_txApplyErrCh
  s) (s_adapter s) (s_client s).
Definition set_enqueueIndexNil v (s : SyncService) : SyncService :=
  mkService (s_db s) (s_timestamp s) (s_blockNumber s) v (s_startSeqHeight s) (s_syncing s) (s_owner
  s) (s_gpo s) (s_finalizedIndex s) (s_finalizedSyncMs s) (s_chainHeadCh s) (s_txApplyErrCh s)
  (s_adapter s) (s_client s).
Definition set_startSeqHeight v (s : SyncService) : SyncService :=
  mkService (s_db s) (s_timestamp s) (s_blockNumber s) (s_enqueueIndexNil s) v (s_syncing s) (s_owner
  s) (s_gpo s) (s_finalizedIndex s) (s_finalizedSyncMs s) (s_chainHeadCh s) (s_txApplyErrCh s)
  (s_adapter s) (s_client s).
Definition set_syncing v (s : SyncService) : SyncService :=
  mkService (s_db s) (s_timestamp s) (s_blockNumber s) (s_enqueueIndexNil s) (s_startSeqHeight s) v
  (s_owner s) (s_gpo s) (s_finalizedIndex s) (s_finalizedSyncMs s) (s_chainHeadCh s) (s_txApplyErrCh
  s) (s_adapter s) (s_client s).
Definition set_owner v (s : SyncService) : SyncService :=
  mkService (s_db s) (s_timestamp s) (s_blockNumber s) (s_enqueueIndexNil s) (s_startSeqHeight s)
  (s_syncing s) v (s_gpo s) (s_finalizedIndex s) (s_finalizedSyncMs s) (s_chainHeadCh s)
  (s_txApplyErrCh s) (s_adapter s) (s_client s).
Definition set_gpo v (s : SyncService) : SyncService :=
  mkService (s_db s) (s_timestamp s) (s_blockNumber s) (s_enqueueIndexNil s) (s_startSeqHeight s)
  (s_syncing s) (s_owner s) v (s_finalizedIndex s) (s_finalizedSyncMs s) (s_chainHeadCh s)
  (s_txApplyErrCh s) (s_adapter s) (s_client s).
Definition set_finalizedIndex v (s : SyncService) : SyncService :=
  mkService (s_db s) (s_timestamp s) (s_blockNumber s) (s_enqueueIndexNil s) (s_startSeqHeight s)
  (s_syncing s) (s_owner s) (s_gpo s) v (s_finalizedSyncMs s) (s_chainHeadCh s) (s_txApplyErrCh s)
  (s_adapter s) (s_client s).
Definition set_finalizedSyncMs v (s : SyncService) : SyncService :=
  mkService (s_db s) (s_timestamp s) (s_blockNumber s) (s_enqueueIndexNil s) (s_startSeqHeight s)
  (s_syncing s) (s_owner s) (s_gpo s) (s_finalizedIndex s) v (s_chainHeadCh s) (s_txApplyErrCh s)
  (s_adapter s) (s_client s).
Definition set_chainHeadCh v (s : SyncService) : SyncService :=
  mkService (s_db s) (s_timestamp s) (s_blockNumber s) (s_enqueueIndexNil s) (s_startSeqHeight s)
  (s_syncing s) (s_owner s) (s_gpo s) (s_finalizedIndex s) (s_finalizedSyncMs s) v (s_txApplyErrCh s)
  (s_adapter s) (s_client s).
Definition set_txApplyErrCh v (s : SyncService) : SyncService :=
  mkService (s_db s) (s_timestamp s) (s_blockNumber s) (s_enqueueIndexNil s) (s_startSeqHeight s)
  (s_syncing s) (s_owner s) (s_gpo s) (s_finalizedIndex s) (s_finalizedSyncMs s) (s_chainHeadCh s) v
  (s_adapter s) (s_client s).
Definition set_adapter v (s : SyncService) : SyncService :=
  mkService (s_db s) (s_timestamp s) (s_blockNumber s) (s_enqueueIndexNil s) (s_startSeqHeight s)
  (s_syncing s) (s_owner s) (s_gpo s) (s_finalizedIndex s) (s_finalizedSyncMs s) (s_chainHeadCh s)
  (s_txApplyErrCh s) v (s_client s).
Definition set_client v (s : SyncService) : SyncService :=
  mkService (s_db s) (s_timestamp s) (s_blockNumber s) (s_enqueueIndexNil s) (s_startSeqHeight s)
  (s_syncing s) (s_owner s) (s_gpo s) (s_finalizedIndex s) (s_finalizedSyncMs s) (s_chainHeadCh s)
  (s_txApplyErrCh s) (s_adapter s) v.

Definition s_env (s : SyncService) : E := conn (s_client s).
Definition set_env (e : E) (s : SyncService) : SyncService :=
  set_client (mkClient e (useInbox (s_client s))) s.

(** *** Calls to the parts *)
Definition on_client {X} (m : M (Client E) X) : M SyncService X := fun s =>
  let '(o, c') := m (s_client s) in (o, set_client c' s).
Definition on_adapter {X} (m : SeqEnv -> M A X) : M SyncService X := fun s =>
  let '(o, a') := m (seq_env (s_env s)) (s_adapter s) in (o, set_adapter a' s).
Definition on_env {X} (f : E -> outcome X * E) : M SyncService X := fun s =>
  let '(o, e') := f (s_env s) in (o, set_env e' s).
Definition env_read {X} (f : E -> X) : M SyncService X := gets (fun s => f (s_env s)).
Definition env_do (f : E -> E) : M SyncService unit := modS (fun s => set_env (f (s_env s)) s).

(** [time.Now().Unix()] *)
Definition now_unix : M SyncService Z := env_read (fun e => now_ms e / 1000).
(** [s.bc.CurrentBlock()], dereferenced *)
Definition CurrentBlock : M SyncService Block :=
  b ← env_read bc_CurrentBlock; deref "nil block" b.

(** *** Stored indices *)
Definition GetLatestL1Timestamp : M SyncService Z := gets s_timestamp.
Definition GetLatestL1BlockNumber : M SyncService Z := gets s_blockNumber.
Definition SetLatestL1Timestamp (ts : Z) : M SyncService unit := modS (set_timestamp ts).
Definition SetLatestL1BlockNumber (bn : Z) : M SyncService unit := modS (set_blockNumber bn).

Definition next_of (latest : option Z) : Z := match latest with None => 0 | Some i => u64 (i + 1) end.

Definition latestEnqueueIndex (s : SyncService) : option Z :=
  if s_enqueueIndexNil s then None else ReadHeadQueueIndex (s_db s).
Definition s_GetLatestEnqueueIndex : M SyncService (option Z) := gets latestEnqueueIndex.
Definition GetNextEnqueueIndex : M SyncService Z :=
  latest ← s_GetLatestEnqueueIndex; ret (next_of latest).
Definition SetLatestEnqueueIndex (index : option Z) : M SyncService unit :=
  match index with
  | Some i => modS (fun s => set_enqueueIndexNil false (set_db (WriteHeadQueueIndex (s_db s) i) s))
  | None => modS (set_enqueueIndexNil true)
  end.

Definition GetLatestIndexTime : M SyncService (option Z) := gets (fun s => ReadHeadIndexTime (s_db s)).
Definition SetLatestIndexTime (t : Z) : M SyncService unit :=
  modS (fun s => set_db (WriteHeadIndexTime (s_db s) t) s).

(** Setting a nil index changes nothing. *)
Definition write_cell (write : kvstore -> Z -> kvstore) (index : option Z) : M SyncService unit :=
  match index with
  | Some i => modS (fun s => set_db (write (s_db s) i) s)
  | None => ret tt
  end.
Definition GetLatestIndex : M SyncService (option Z) := gets (fun s => ReadHeadIndex (s_db s)).
Definition GetNextIndex : M SyncService Z := latest ← GetLatestIndex; ret (next_of latest).
Definition SetLatestIndex := write_cell WriteHeadIndex.
Definition GetLatestVerifiedIndex : M SyncService (option Z) := gets (fun s => ReadHeadVerifiedIndex (s_db s)).
Definition GetNextVerifiedIndex : M SyncService Z := index ← GetLatestVerifiedIndex; ret (next_of index).
Definition SetLatestVerifiedIndex := write_cell WriteHeadVerifiedIndex.
Definition GetLatestBatchIndex : M SyncService (option Z) := gets (fun s => ReadHeadBatchIndex (s_db s)).
Definition GetNextBatchIndex : M SyncService Z := index ← GetLatestBatchIndex; ret (next_of index).
Definition SetLatestBatchIndex := write_cell WriteHeadBatchIndex.

(** *** Sync status *)
Definition setSyncStatus (status : bool) : M SyncService unit := modS (set_syncing (Some status)).
Definition IsSyncing : M SyncService bool := gets (fun s => default false (s_syncing s)).

(** *** Channels *)

(** [if len(ch) > 0 { <-ch }] *)
Definition drain_err : M SyncService unit := modS (set_txApplyErrCh None).
Definition drain_head : M SyncService unit := modS (set_chainHeadCh false).
Definition shiftTxApplyError : M SyncService unit := drain_err.
(** The buffer has just been emptied, so the send does not block. *)
Definition PushTxApplyError (err : goerror) : M SyncService unit :=
  shiftTxApplyError ;; modS (set_txApplyErrCh (Some err)).

(** Take what is ready: the error ([inl]) or the new head ([inr]). *)
Definition take_ready (s : SyncService) : option ((goerror + unit) * SyncService) :=
  match s_txApplyErrCh s, s_chainHeadCh s with
  | Some e, true => if pick_err (s_env s) then Some (inl e, set_txApplyErrCh None s)
                    else Some (inr tt, set_chainHeadCh false s)
  | Some e, false => Some (inl e, set_txApplyErrCh None s)
  | None, true => Some (inr tt, set_chainHeadCh false s)
  | None, false => None
  end.

(** [select { case err := <-txApplyErrCh: ... case <-chainHeadCh: ... }] *)
Definition select_apply : M SyncService (goerror + unit) := fun s =>
  match take_ready s with
  | Some (r, s') => (Ok r, s')
  | None =>
      match await (s_env s) with
      | None => (Blocked, s)
      | Some (d, e') =>
          match take_ready (set_chainHeadCh (dl_head d) (set_txApplyErrCh (dl_err d) (set_env e' s))) with
          | Some (r, s') => (Ok r, s')
          | None => (Blocked, set_env e' s)
          end
      end
  end.

(** *** The gas price oracle cache *)

(** [statedb == nil] reads the tip. *)
Definition readGPOStorageSlot (statedb : option StateDB) (h : hash) : M SyncService Z :=
  st ← (match statedb with
        | Some st => ret st
        | None => r ← env_read bc_State; lift_out r
        end);
  ret (st L2GasPriceOracleAddress h).

Definition updateL1GasPrice (statedb : option StateDB) : M SyncService unit :=
  v ← readGPOStorageSlot statedb L1GasPriceSlot; modS (fun s => set_gpo (SetL1GasPrice v (s_gpo s)) s).
Definition updateL2GasPrice (statedb : option StateDB) : M SyncService unit :=
  v ← readGPOStorageSlot statedb L2GasPriceSlot; modS (fun s => set_gpo (SetL2GasPrice v (s_gpo s)) s).
Definition updateOverhead (statedb : option StateDB) : M SyncService unit :=
  v ← readGPOStorageSlot statedb OverheadSlot; modS (fun s => set_gpo (SetOverhead v (s_gpo s)) s).
Definition updateScalar (statedb : option StateDB) : M SyncService unit :=
  sc ← readGPOStorageSlot statedb ScalarSlot;
  decimals ← readGPOStorageSlot statedb DecimalsSlot;
  modS (fun s => set_gpo (SetScalar sc decimals (s_gpo s)) s).
Definition cacheGasPriceOracleOwner (statedb : option StateDB) : M SyncService unit :=
  v ← readGPOStorageSlot statedb L2GasPriceOracleOwnerSlot; modS (set_owner (BigToAddress v)).

Definition updateGasPriceOracleCache (h : option hash) : M SyncService unit :=
  r ← (match h with
       | Some h => env_read (bc_StateAt h)
       | None => env_read bc_State
       end);
  st ← lift_out r;
  cacheGasPriceOracleOwner (Some st) ;;
  updateL2GasPrice (Some st) ;;
  updateL1GasPrice (Some st) ;;
  updateOverhead (Some st) ;;
  updateScalar (Some st).

Definition GasPriceOracleOwnerAddress : M SyncService address := gets s_owner.
End Service.
Arguments SyncService A E : clear implicits.

(** *** Comparing a remote transaction with the local one (rollup/types.go) *)
Definition isCtcTxEqual (a b : Transaction) : bool :=
  match Recipient (data a), Recipient (data b) with
  | None, Some t => bool_decide (t = 0)
  | Some _, None => false
  | Some t, Some t' => bool_decide (t = t')
  | None, None => true
  end &&
  bool_decide (Payload (data a) = Payload (data b)) &&
  bool_decide (L1MessageSender (meta a) = L1MessageSender (meta b)) &&
  (GasLimit (data a) =? GasLimit (data b)).
