(* ===== verification/SyncApply.v ===== *)
(** Applying transactions and blocks (rollup/sync_service.go): the sequencer
    signature, the paths of a transaction to the tip, to the pool or into history,
    blocks, fees and the RPC entry point.

    A transaction is passed on as a value; the setters of the source return the
    changed value, which is the one sent to the feeds.  The callers read only
    fields that these functions do not set. *)
From stdpp Require Import prelude list strings gmap.
From Stdlib Require Import ZArith Lia Ascii.
From S2P Require Import Prelude VarBytes TxMeta RollupDB RLP Crypto Hexutil Transaction SeqSet Fees SeqAdapter Client SyncState.
Local Open Scope Z_scope.

(** *** Signing as the sequencer *)

(** [strings.Replace(s, "0x", "", 1)] *)
Fixpoint remove_0x (s : text) : text :=
  match s with
  | "0"%char :: ("x"%char :: s') => s'
  | c :: s' => c :: remove_0x s'
  | [] => []
  end.

(** [crypto.ToECDSA]: the scalar of the private key. *)
Definition ToECDSA (d : bytes) : outcome Z :=
  if negb (8 * length d =? 256)%nat then Err (ErrNew "invalid length, need 256 bits")
  else
    let D := be_value d in
    if secp256k1N <=? D then Err (ErrNew "invalid private key, >=N")
    else if D <=? 0 then Err (ErrNew "invalid private key, zero or negative")
    else Ok D.

Section Apply.
Context {crypto : Crypto} {A : Type} {adapter : RollupAdapter A} {E : Type} {env : SyncEnv E}.
Variable cfg : Config.
(** the conversion of an out-of-range float in the fee check *)
Variable oob : Z -> Z.
Abbreviation Service := (SyncService A E).

(** [crypto.Sign] *)
Definition crypto_Sign (digestHash : bytes) (D : Z) : outcome bytes :=
  if negb (length digestHash =? 32)%nat then Err (ErrNew "hash is required to be exactly 32 bytes")
  else secp256k1_Sign digestHash (reverse (put_le 32 D)).

Definition tx_hash (tx : Transaction) : hash :=
  match fst (Hash tx) with Ok h => h | _ => 0 end.

(** [sender, _ := types.Sender(...)]: the zero address on an error. *)
Definition sender_of (tx : Transaction) : address :=
  match fst (Sender (signer_of cfg) tx) with Ok a => a | _ => 0 end.

Definition addSeqSignature (tx : Transaction) : outcome Transaction :=
  match GetSeqSign tx with
  | Some _ => Ok tx
  | None =>
      if QueueOrigin (meta tx) =? QueueOriginL1ToL2
      then Ok (SetSeqSign {| sR := Some 0; sS := Some 0; sV := Some 0 |} tx)
      else if bool_decide (seqPriv cfg = ""%string) || bool_decide (seqPriv cfg = "0x"%string)
      then Err (ErrNew "seq priv not set")
      else
       (privKey ← hex_DecodeString (remove_0x (String.list_ascii_of_string (seqPriv cfg)));
        ecdsaPri ← ToECDSA privKey;
        match crypto_Sign (hash_bytes (tx_hash tx)) ecdsaPri with
        | Ok signature =>
            if negb (length signature =? 65)%nat then Err (ErrNew "invalid signature")
            else
              let tx' := SetSeqSign {| sR := Some (be_value (take 32 signature));
                                       sS := Some (be_value (take 32 (drop 32 signature)));
                                       sV := Some (be_value (take 1 (drop 64 signature))) |} tx in
              match GetSeqSign tx' with
              | None => Err (ErrNew "set signature failed")
              | Some _ => Ok tx'
              end
        | Err _ => Err (ErrNew "invalid signature")
        | Panic w => Panic w
        | Blocked => Blocked
        end)%stdpp
  end.

Definition GetTxSequencer (tx : option Transaction) (expectIndex : Z) : M Service address :=
  on_adapter (fun e => ra_GetTxSequencer e tx expectIndex).

Definition GetSeqAndMpcStatus : M Service (bool * bool) :=
  h ← gets (fun s => ra_GetSeqValidHeight (s_adapter s));
  ret (negb (verifier cfg) && bool_decide (backend cfg = BackendL1), 0 <? h).

Definition IsSelfSeqAddress (expectSeq : address) : bool := EqualFold (Address_Hex expectSeq) (SeqAddress cfg).
Definition IsAboveStartHeight (num : Z) : M Service bool := gets (fun s => s_startSeqHeight s <? num).

Definition errSequencerIncorrect := ErrNew "current sequencer incorrect".
Definition errPreRespan := ErrNew "pre-respan to other sequencer".
Definition errNotExpectSeq := ErrNew "is not expect seq, so don't sequence it".
Definition errTxSeqMismatch := ErrNew "tx seq is not expect seq".

(** [makeOrVerifySequencerSign]: is the transaction a respan call, and the
    transaction with its sequencer signature. *)
Definition makeOrVerifySequencerSign (tx : Transaction) (blockNumber : Z) (expectSeq : address)
    : M Service (bool * Transaction) :=
  '(seqModel, mpcEnabled) ← GetSeqAndMpcStatus;
  height ← gets (fun s => ra_GetSeqValidHeight (s_adapter s));
  if seqModel && mpcEnabled && negb (EqualFold (Address_Hex expectSeq) (SeqAddress cfg))
  then throw errSequencerIncorrect
  else
    tx ← (if seqModel && mpcEnabled && (height <=? blockNumber) && (QueueOrigin (meta tx) =? QueueOriginL1ToL2)
          then lift_out (addSeqSignature tx) else ret tx);
    if mpcEnabled && (height <=? blockNumber) && negb (QueueOrigin (meta tx) =? QueueOriginL1ToL2) then
      isRespan ← on_adapter (fun e => ra_IsRespanCall e (Some tx));
      if seqModel then
        other ← gets (fun s => ra_IsNotNextRespanSequencer (SeqAddress cfg) blockNumber (s_adapter s));
        if (other : bool) then throw errPreRespan
        else tx ← lift_out (addSeqSignature tx); ret (isRespan, tx)
      else
        match GetSeqSign tx with
        | None => throw errNotExpectSeq
        | Some _ =>
            recoverSeq ← lift_out (ra_RecoverSeqAddress tx);
            if negb (EqualFold (Address_Hex expectSeq) recoverSeq) then throw errTxSeqMismatch
            else ret (isRespan, tx)
        end
    else ret (false, tx).

(** *** Bookkeeping shared by the paths *)

(** [if latestEnqueue == nil || *latestEnqueue < *queueIndex] *)
Definition newer_queue (latestEnqueue : option Z) (q : Z) : bool :=
  match latestEnqueue with None => true | Some l => l <? q end.

Definition advanceEnqueue (tx : Transaction) : M Service unit :=
  match QueueIndex (meta tx) with
  | None => ret tt
  | Some q =>
      latestEnqueue ← s_GetLatestEnqueueIndex;
      when (newer_queue latestEnqueue q) (SetLatestEnqueueIndex (Some q))
  end.

(** [if owner != nil && sender == *owner { updateGasPriceOracleCache(nil) }]; the
    pointer reads the field at this point. *)
Definition refreshOracle (sender : address) : M Service unit :=
  owner ← gets s_owner;
  when (sender =? owner) (updateGasPriceOracleCache None).

(** [*s.GetLatestIndex()] in a log line *)
Definition logLatestIndex : M Service unit :=
  i ← GetLatestIndex; deref "nil latest index" i ;; ret tt.

(** clean the sequencer epoch cache when respan *)
Definition cleanRespan (tx : Transaction) (blockNumber : Z) : M Service unit :=
  height ← gets (fun s => ra_GetSeqValidHeight (s_adapter s));
  when ((height <=? blockNumber) && negb (QueueOrigin (meta tx) =? QueueOriginL1ToL2))
    (isRespan ← on_adapter (fun e => ra_IsRespanCall e (Some tx));
     when isRespan (on_adapter (fun _ => ra_RemoveCachedSeqEpoch))).

(** *** Blocks *)

(** After the block is in the chain. *)
Definition recordBlock (index : Z) (tx : Transaction) : M Service unit :=
  SetLatestIndex (Some index) ;;
  t ← now_unix;
  SetLatestIndexTime t ;;
  SetLatestVerifiedIndex (Some index) ;;
  advanceEnqueue tx ;;
  logLatestIndex.

Definition applyBlock (block : option Block) : M Service unit :=
  match block with
  | None => ret tt
  | Some block =>
    match b_txs block with
    | [] => ret tt
    | tx0 :: rest =>
        let index := u64 (NumberU64 block - 1) in
        next ← GetNextIndex;
        if next <? index then throw (ErrNew "Received block at a later index")
        else if index <? next then
          blockLocal ← env_read (bc_GetBlockByNumber (u64 (index + 1)));
          match blockLocal with
          | None => throw (ErrNew "Block is not found")
          | Some blockLocal =>
              if negb (length (b_txs blockLocal) =? length (b_txs block))%nat
              then throw (ErrNew "Not equals transaction length found in block")
              else ret tt   (* isCtcTxEqual only chooses the log line *)
          end
        else
          expectSeq ← GetTxSequencer (Some tx0) (NumberU64 block);
          '(_, tx) ← makeOrVerifySequencerSign tx0 (NumberU64 block) expectSeq;
          drain_err ;;
          let sender := sender_of tx in
          env_do (txFeed_Send (tx :: rest) (b_time block)) ;;
          r ← select_apply;
          match r with
          | inl txApplyErr => throw txApplyErr
          | inr _ =>
              r ← attempt (refreshOracle sender);
              match r with
              | inl err => logLatestIndex ;; throw err
              | inr _ =>
                  recordBlock index tx
              end
          end
    end
  end.

(** *** The pool path, one block holding several transactions *)

(** Fill the L1 context of a local transaction. *)
Definition fillContext (tx : Transaction) (now bn index : Z) : Transaction :=
  let tx := if L1Timestamp (meta tx) =? 0 then SetL1Timestamp now tx else tx in
  let tx := match L1BlockNumber (meta tx) with None => SetL1BlockNumber bn tx | Some _ => tx end in
  match Index (meta tx) with None => SetIndex index tx | Some _ => tx end.

(** The enqueue index of a transaction from a peer is kept only when the
    transaction is in the database. *)
Definition advanceEnqueuePool (tx : Transaction) (fromLocal : bool) : M Service unit :=
  match QueueIndex (meta tx) with
  | None => ret tt
  | Some q =>
      latestEnqueue ← s_GetLatestEnqueueIndex;
      when (newer_queue latestEnqueue q)
        (SetLatestEnqueueIndex (Some q) ;;
         when (negb fromLocal)
           (found ← env_read (db_ReadTransaction (tx_hash tx));
            when (negb found) (SetLatestEnqueueIndex latestEnqueue)))
  end.

(** Send to the worker and wait for the block; [undo] runs before an error is
    returned. *)
Definition mineAndWait (tx : Transaction) (sender : address) (undo : M Service unit) : M Service unit :=
  env_do (txFeed_Send [tx] 0) ;;
  r ← select_apply;
  match r with
  | inl txApplyErr => undo ;; throw txApplyErr
  | inr _ =>
      r ← attempt (refreshOracle sender);
      match r with
      | inl err => logLatestIndex ;; undo ;; throw err
      | inr _ => logLatestIndex
      end
  end.

Definition applyTransactionToPool (tx : Transaction) (fromLocal : bool) : M Service unit :=
  current ← CurrentBlock;
  let blockNumber := if fromLocal then u64 (NumberU64 current + 1) else NumberU64 current in
  expectSeq ← GetTxSequencer (Some tx) blockNumber;
  '(isRespan, tx) ← (if fromLocal then
      '(isRespan, tx) ← makeOrVerifySequencerSign tx blockNumber expectSeq;
      drain_err ;;
      bn ← GetLatestL1BlockNumber;
      now ← now_unix;
      ret (isRespan, fillContext tx (u64 now) bn (u64 (blockNumber - 1)))
    else ret (false, tx));
  SetLatestIndex (Index (meta tx)) ;;
  now ← now_unix;
  SetLatestIndexTime now ;;
  SetLatestVerifiedIndex (Index (meta tx)) ;;
  drain_head ;;
  advanceEnqueuePool tx fromLocal ;;
  let sender := sender_of tx in
  deref "nil index" (Index (meta tx)) ;;
  if negb fromLocal then
    env_do (txOtherFeed_Send [tx]) ;;
    refreshOracle sender ;;
    cleanRespan tx blockNumber ;;
    logLatestIndex
  else
    owner ← gets s_owner;
    if negb (isRespan || (QueueOrigin (meta tx) =? QueueOriginL1ToL2) || (sender =? owner))
    then on_env (txpool_AddLocal tx)
    else mineAndWait tx sender (ret tt).

(** *** The tip path, one transaction per block *)

Definition errMetaIndex := ErrNew "unexpect meta index, please try again later".

(** A message left in a channel means that the last index may be wrong: compare
    it with the chain, and step back to the head block when it is one ahead. *)
Definition repairIndex (index : option Z) : M Service unit :=
  parent ← CurrentBlock;
  let parentNumber := NumberU64 parent in
  let expectMetaIndex := next_of index in
  if expectMetaIndex =? parentNumber then ret tt
  else if expectMetaIndex =? u64 (parentNumber + 1) then
    (match b_txs parent with
     | [ptx] =>
         SetLatestL1Timestamp (L1Timestamp (meta ptx)) ;;
         bn ← deref "nil L1BlockNumber" (L1BlockNumber (meta ptx));
         SetLatestL1BlockNumber (big_uint64 bn) ;;
         SetLatestIndex (Index (meta ptx)) ;;
         SetLatestVerifiedIndex (Index (meta ptx))
     | _ => ret tt
     end) ;;
    throw errMetaIndex
  else ret tt.

Definition checkChannels (index : option Z) : M Service unit :=
  s ← getS;
  when (bool_decide (is_Some (s_txApplyErrCh s)) || s_chainHeadCh s)
    (drain_err ;; drain_head ;;
     when (negb (verifier cfg)) (repairIndex index)).

(** The timestamp and block number of L1 for the transaction, and what they make
    of the stored context. *)
Definition stampTransaction (tx : Transaction) (ts bn : Z) : M Service Transaction :=
  now ← now_unix;
  let tx := if L1Timestamp (meta tx) =? 0
            then SetL1Timestamp (if ts =? 0 then u64 now else ts) tx else tx in
  tx ← (match L1BlockNumber (meta tx) with
        | None => ret (SetL1BlockNumber bn tx)
        | Some l1 => when (bn <? big_uint64 l1) (SetLatestL1BlockNumber (big_uint64 l1)) ;; ret tx
        end);
  when (ts <? L1Timestamp (meta tx)) (SetLatestL1Timestamp (L1Timestamp (meta tx))) ;;
  ret tx.

Definition restoreTip (ts bn : Z) (index : option Z) : M Service unit :=
  SetLatestL1Timestamp ts ;;
  SetLatestL1BlockNumber bn ;;
  SetLatestIndex index ;;
  SetLatestVerifiedIndex index.

(** [lastIndex + 1 = lastBlock.number], and the next block is checked. *)
Definition nextBlockNumber (index : option Z) : Z :=
  match index with Some i => u64 (i + 2) | None => 1 end.

Definition useDeSeqBlock (n : Z) : bool := (0 <? DeSeqBlock cfg) && (DeSeqBlock cfg <=? n).

Definition applyTransactionToTip (tx : Transaction) (fromLocal : bool) : M Service unit :=
  if (QueueOrigin (meta tx) =? QueueOriginL1ToL2) && (L1Timestamp (meta tx) =? 0)
  then throw (ErrNew "Queue origin L1 to L2 transaction without a timestamp")
  else
    current ← CurrentBlock;
    let currentBN := if fromLocal then u64 (NumberU64 current + 1) else NumberU64 current in
    if useDeSeqBlock currentBN then applyTransactionToPool tx fromLocal
    else
      ts ← GetLatestL1Timestamp;
      bn ← GetLatestL1BlockNumber;
      index ← GetLatestIndex;
      let blockNumber := nextBlockNumber index in
      expectSeq ← GetTxSequencer (Some tx) blockNumber;
      tx ← (if fromLocal then
              '(_, tx) ← makeOrVerifySequencerSign tx blockNumber expectSeq;
              checkChannels index ;;
              ret tx
            else drain_head ;; ret tx);
      tx ← stampTransaction tx ts bn;
      let tx := match Index (meta tx) with None => SetIndex (next_of index) tx | Some _ => tx end in
      SetLatestIndex (Index (meta tx)) ;;
      now ← now_unix;
      SetLatestIndexTime now ;;
      SetLatestVerifiedIndex (Index (meta tx)) ;;
      advanceEnqueue tx ;;
      let sender := sender_of tx in
      if negb fromLocal then
        env_do (txOtherFeed_Send [tx]) ;;
        r ← attempt (refreshOracle sender);
        match r with
        | inl err => deref "nil index" index ;; restoreTip ts bn index ;; throw err
        | inr _ => cleanRespan tx blockNumber ;; logLatestIndex
        end
      else mineAndWait tx sender (restoreTip ts bn index).

(** *** Indexed and historical transactions *)

Definition applyHistoricalTransaction (tx : Transaction) (fromLocal : bool) : M Service unit :=
  match Index (meta tx) with
  | None => throw (ErrNew "No index is found in applyHistoricalTransaction")
  | Some index =>
      block ← env_read (bc_GetBlockByNumber (u64 (index + 1)));
      match block with
      | None => throw (ErrNew "Block is not found")
      | Some block =>
          if useDeSeqBlock (u64 (index + 1)) then ret tt
          else if negb (length (b_txs block) =? 1)%nat
          then throw (ErrNew "More than one transaction found in block")
          else ret tt   (* isCtcTxEqual only chooses the log line *)
      end
  end.

Definition applyIndexedTransaction (tx : Transaction) (fromLocal : bool) : M Service unit :=
  match Index (meta tx) with
  | None => throw (ErrNew "No index found in applyIndexedTransaction")
  | Some index =>
      next ← GetNextIndex;
      if index =? next then applyTransactionToTip tx fromLocal
      else if negb fromLocal && (u64 (index + 1) =? next) && useDeSeqBlock (u64 (index + 1))
      then applyTransactionToTip tx fromLocal
      else if index <? next then applyHistoricalTransaction tx fromLocal
      else if negb fromLocal then applyTransactionToTip tx fromLocal
      else throw (ErrNew "Received tx at a later index")
  end.

Definition applyTransaction (tx : option Transaction) (fromLocal : bool) : M Service unit :=
  match tx with
  | None => ret tt
  | Some tx =>
      match Index (meta tx) with
      | Some _ => applyIndexedTransaction tx fromLocal
      | None => applyTransactionToTip tx fromLocal
      end
  end.
Definition IngestTransaction (tx : option Transaction) : M Service unit := applyTransaction tx true.

Definition applyBatchedTransaction (tx : option Transaction) : M Service unit :=
  match tx with
  | None => throw (ErrNew "nil transaction passed into applyBatchedTransaction")
  | Some tx =>
      match Index (meta tx) with
      | None => throw (ErrNew "No index found on transaction")
      | Some _ => wrap "Cannot apply batched transaction" (applyIndexedTransaction tx true)
      end
  end.

(** One block of [HandleSyncFromOther]; the errors are logged. *)
Fixpoint applyOthers (txs : list Transaction) : M Service unit :=
  match txs with
  | [] => ret tt
  | tx :: txs' => attempt (applyTransaction (Some tx) false) ;; applyOthers txs'
  end.
Definition HandleSyncFromOther (block : Block) : M Service unit :=
  when (negb (verifier cfg)) (applyOthers (b_txs block)).

(** *** Fees and the RPC entry point *)

Definition ErrInvalidSender := ErrVar "ErrInvalidSender" "invalid sender".
Definition errZeroGasPriceTx := ErrVar "errZeroGasPriceTx" "cannot accept 0 gas price transaction".

Definition senderOrInvalid (tx : Transaction) : M Service address :=
  match fst (Sender (signer_of cfg) tx) with
  | Ok from => ret from
  | Err _ => throw (ErrWrap "invalid transaction" ErrInvalidSender)
  | Panic w => gopanic w
  | Blocked => blocked
  end.

Definition verifyFee (tx : Transaction) : M Service unit :=
  from ← senderOrInvalid tx;
  owner ← GasPriceOracleOwnerAddress;
  when (from =? owner)
    (r ← env_read bc_State; st ← lift_out r; cacheGasPriceOracleOwner (Some st)) ;;
  if Price (data tx) =? 0 then
    gpoOwner ← GasPriceOracleOwnerAddress;
    if from =? gpoOwner then ret tt
    else if enforceFees cfg then throw errZeroGasPriceTx else ret tt
  else
    l2 ← gets (fun s => l2GasPrice (s_gpo s));
    match PaysEnough oob {| UserGasPrice := Some (Price (data tx)); ExpectedGasPrice := Some l2;
                            ThresholdUp := feeThresholdUp cfg; ThresholdDown := feeThresholdDown cfg |} with
    | None => ret tt
    | Some err =>
        if errors_Is err ErrGasPriceTooLow then throw (ErrWith ErrGasPriceTooLow "use at least tx.gasPrice")
        else if errors_Is err ErrGasPriceTooHigh then throw (ErrWith ErrGasPriceTooHigh "use at most tx.gasPrice")
        else throw err
    end.

Definition ValidateAndApplySequencerTransaction (tx : option Transaction) : M Service unit :=
  if verifier cfg then throw (ErrNew "Verifier does not accept transactions out of band")
  else
    match tx with
    | None => throw (ErrNew "nil transaction passed to ValidateAndApplySequencerTransaction")
    | Some tx =>
        verifyFee tx ;;
        if negb (QueueOrigin (meta tx) =? QueueOriginSequencer)
        then throw (ErrNew ("invalid transaction with queue origin " +:+ QueueOrigin_String (QueueOrigin (meta tx))))
        else
          from ← senderOrInvalid tx;
          gpoOwner ← GasPriceOracleOwnerAddress;
          wrap "invalid transaction" (on_env (txpool_ValidateTx tx (from =? gpoOwner))) ;;
          applyTransaction (Some tx) true
    end.
End Apply.
