(* ===== verification/SyncLoop.v ===== *)
(** Synchronising with the remote server (rollup/sync_service.go): the tip loop,
    the ranges of transactions, queue elements and batches, the check of state
    roots, the recovery of the L1 context at start-up and the periodic updates.

    [syncToTip] repeats until the remote tip is reached and has no bound in the
    source: it takes [fuel], and running out of fuel is [Blocked].  The bounded
    loops carry their bound.

    At the end there is a concrete surrounding of the sync service, on which its
    definitions run: the environment is the number of the head block, the worker mines
    whatever it is sent, the server has a queue of five elements and agrees on every
    state root. *)
From stdpp Require Import prelude list strings gmap.
From Stdlib Require Import ZArith Lia Ascii.
From S2P Require Import Prelude VarBytes TxMeta RollupDB RLP Crypto Hexutil Transaction SeqSet Fees SeqAdapter Client SyncState SyncApply.
Local Open Scope Z_scope.

(** [time.Time] at a whole second: seconds since year 1, 64 bits; [Sub] saturates
    when the difference in nanoseconds does not fit. *)
Definition time_Unix (sec : Z) : Z := i64 (sec + 62135596800).
Definition time_Sub (t u : Z) : Z :=
  let d := i64 ((t - u) * 10 ^ 9) in
  if (Z.rem d (10 ^ 9) =? 0) && (i64 (u + Z.quot d (10 ^ 9)) =? t) then d
  else if t <? u then - 2 ^ 63 else 2 ^ 63 - 1.

Definition Hash_Hex (h : hash) : string := "0x" +:+ EncodeToString (hash_bytes h).

Definition errShortRemoteTip := ErrVar "errShortRemoteTip" "unexpected remote less than tip".
Definition errBadConfig := ErrVar "errBadConfig" "bad config".

(** [Cmp] of two floats of the model. *)
Definition dyadic_cmp (x y : dyadic) : comparison :=
  let e := Z.min (dexp x) (dexp y) in
  Z.compare (mant x * 2 ^ (dexp x - e)) (mant y * 2 ^ (dexp y - e)).
Definition float1 : dyadic := mkDyadic 1 0.

(** The sanity check of the fee thresholds in [NewSyncService]. *)
Definition checkFeeThresholds (cfg : Config) : outcome unit :=
  (_ ← (match feeThresholdDown cfg with
        | Some f => if bool_decide (dyadic_cmp (fval f) float1 = Lt) then Ok tt
                    else Err (ErrWith errBadConfig "fee threshold down not lower than 1")
        | None => Ok tt
        end);
   match feeThresholdUp cfg with
   | Some f => if bool_decide (dyadic_cmp (fval f) float1 = Gt) then Ok tt
               else Err (ErrWith errBadConfig "fee threshold up not larger than 1")
   | None => Ok tt
   end)%stdpp.

Section Loop.
Context {crypto : Crypto} {A : Type} {adapter : RollupAdapter A} {E : Type} {env : SyncEnv E}.
Variable cfg : Config.
Abbreviation Service := (SyncService A E).

Definition indexGetter := M Service (option Z).
Definition client_index (m : M (Client E) Z) : indexGetter := i ← on_client m; ret (Some i).

(** *** The tip *)

Definition isAtTip (index : option Z) (get : indexGetter) : M Service bool :=
  r ← attempt get;
  match r with
  | inl err => if errors_Is err errElementNotFound then ret true else throw err
  | inr latest =>
      match latest, index with
      | None, None => ret true
      | None, Some _ | Some _, None => ret false
      | Some latest, Some index =>
          if latest =? index then ret true
          else if latest <? index then throw (ErrWrap "is at tip mismatch" errShortRemoteTip)
          else ret false
      end
  end.

Fixpoint syncToTip (fuel : nat) (sync : indexGetter) (getTip : indexGetter) : M Service unit :=
  match fuel with
  | O => blocked
  | S fuel' =>
      r ← attempt sync;
      match r with
      | inl err => if errors_Is err errElementNotFound then ret tt else throw err
      | inr index =>
          atTip ← isAtTip index getTip;
          if (atTip : bool) then ret tt else syncToTip fuel' sync getTip
      end
  end.

Definition sync (getLatest : indexGetter) (getNext : M Service Z) (syncer : Z -> Z -> M Service unit)
    : indexGetter :=
  latest ← wrap "Cannot sync" getLatest;
  match latest with
  | None => throw (ErrNew "Latest index is not defined")
  | Some latestIndex =>
      nextIndex ← getNext;
      if u64 (latestIndex + 1) <=? nextIndex then ret (Some latestIndex)
      else syncer nextIndex latestIndex ;; ret (Some latestIndex)
  end.

(** [for i := start; i <= end; i++] for [end < 2^64 - 1]. *)
Fixpoint for_range (n : nat) (i : Z) (body : Z -> M Service unit) : M Service unit :=
  match n with
  | O => ret tt
  | S n' => body i ;; for_range n' (i + 1) body
  end.
Definition for_incl (start stop : Z) (body : Z -> M Service unit) : M Service unit :=
  for_range (Z.to_nat (stop - start + 1)) start body.

Fixpoint for_each {X} (xs : list X) (body : X -> M Service unit) : M Service unit :=
  match xs with
  | [] => ret tt
  | x :: xs' => body x ;; for_each xs' body
  end.

(** [rcfg.DeSeqBlock > 0 && s.bc.CurrentBlock().NumberU64()+1 >= rcfg.DeSeqBlock] *)
Definition nextIsDeSeqBlock : M Service bool :=
  if 0 <? DeSeqBlock cfg then
    current ← CurrentBlock; ret (DeSeqBlock cfg <=? u64 (NumberU64 current + 1))
  else ret false.

(** *** State roots *)

Definition stateRootRetries : nat := Z.to_nat 36000.

(** The two roots for the report, and an error. *)
Definition rootResult : Type := string * string * option goerror.
Definition errRootMismatch := ErrNew "The remote stateroot is not equal to the local".

Fixpoint fetchStateRoot (n : nat) (txIndex : Z) (localStateRoot : hash) : M Service rootResult :=
  match n with
  | O => ret (""%string, ""%string, Some (ErrNew "Fetch stateroot failed"))
  | S n' =>
      r ← attempt (on_client (GetStateRoot txIndex));
      match r with
      | inl err => ret (""%string, Hash_Hex localStateRoot, Some (ErrWrap "Fetch stateroot failed" err))
      | inr stateRootHash =>
          if stateRootHash =? 0 then
            env_do (time_Sleep 1000) ;; fetchStateRoot n' txIndex localStateRoot
          else if negb (stateRootHash =? localStateRoot)
          then ret (Hash_Hex stateRootHash, Hash_Hex localStateRoot, Some errRootMismatch)
          else ret (Hash_Hex stateRootHash, Hash_Hex localStateRoot, None)
      end
  end.

Definition verifyStateRoot (tx : Transaction) : M Service (Z * rootResult) :=
  current ← CurrentBlock;
  txIndex ← deref "nil index" (Index (meta tx));
  r ← fetchStateRoot stateRootRetries txIndex (b_root current);
  ret (txIndex, r).

(** Verify, report the verdict to the server, and fail on a bad one. *)
Definition verifyAndReport (tx : Transaction) : M Service unit :=
  '(txIndex, (stateRoot, verifierRoot, err)) ← verifyStateRoot tx;
  match err with
  | Some e => attempt (on_client (SetLastVerifier txIndex stateRoot verifierRoot false)) ;; throw e
  | None => attempt (on_client (SetLastVerifier txIndex stateRoot verifierRoot true)) ;; ret tt
  end.

(** *** Batches *)

Definition syncBlockBatch (index : Z) : M Service unit :=
  '(_, blocks) ← on_client (GetBlockBatch (signer_of cfg) index);
  next ← GetNextIndex;
  for_each blocks (fun block =>
    if u64 (NumberU64 block - 1) <? next then ret tt
    else
      wrap "cannot apply batched block" (applyBlock cfg (Some block)) ;;
      match b_txs block with
      | [] => gopanic "index out of range"
      | tx0 :: _ => verifyAndReport tx0
      end) ;;
  SetLatestBatchIndex (Some index).

Definition syncTransactionBatch (i : Z) : M Service unit :=
  deSeq ← nextIsDeSeqBlock;
  if (deSeq : bool) then wrap "Cannot get block batch" (syncBlockBatch i)
  else
    r ← attempt (on_client (GetTransactionBatch (signer_of cfg) i));
    match r with
    | inl err =>
        if str_contains "USE_INBOX_BATCH_INDEX" (err_string err)
        then wrap "Cannot get block batch" (syncBlockBatch i)
        else throw (ErrWrap "Cannot get transaction batch" err)
    | inr (_, txs) =>
        next ← GetNextIndex;
        for_each txs (fun tx =>
          index ← deref "nil index" (Index (meta tx));
          if index <? next then ret tt
          else
            wrap "cannot apply batched transaction" (applyBatchedTransaction cfg (Some tx)) ;;
            verifyAndReport tx) ;;
        SetLatestBatchIndex (Some i)
    end.

Definition syncTransactionBatchRange (start stop : Z) : M Service unit :=
  for_incl start stop syncTransactionBatch.

Definition syncBatches : indexGetter :=
  wrap "Cannot sync batches"
    (sync (client_index (GetLatestTransactionBatchIndex (signer_of cfg))) GetNextBatchIndex
       syncTransactionBatchRange).

(** *** The queue *)

(** Step back to the element before the one that failed. *)
Definition restoreQueueIndex (tx : Transaction) : M Service unit :=
  match QueueIndex (meta tx) with
  | Some q => when (0 <? q) (SetLatestEnqueueIndex (Some (q - 1)))
  | None => ret tt
  end.

Definition skippedEnqueue (i : Z) : bool :=
  (rcfg_ChainID cfg =? 1088) && ((i =? 20397) || (i =? 37446)).

Definition enqueueRepeated (err : goerror) : bool :=
  str_contains "Failed to make block with enqueue exists" (err_string err).

Definition syncQueueTransaction (i : Z) : M Service unit :=
  if skippedEnqueue i then ret tt
  else
    tx ← wrap "Cannot get enqueue transaction" (on_client (GetEnqueue i));
    r ← attempt (applyTransaction cfg (Some tx) true);
    if verifier cfg then
      match r with
      | inl err => restoreQueueIndex tx ;; throw (ErrWrap "Cannot apply transaction" err)
      | inr _ => ret tt
      end
    else
      let repeated := match r with inl err => enqueueRepeated err | inr _ => false end in
      if repeated then ret tt
      else
        found0 ← env_read (db_ReadTransaction (tx_hash tx));
        if (match r with inl _ => false | inr _ => found0 end : bool) then ret tt
        else
          env_do (time_Sleep 2000) ;;
          found ← env_read (db_ReadTransaction (tx_hash tx));
          when (negb found) (restoreQueueIndex tx ;; throw (ErrNew "Enqueue failed")).

Definition syncQueueTransactionRange (start stop : Z) : M Service unit :=
  for_incl start stop syncQueueTransaction.

Definition syncQueue : indexGetter :=
  wrap "Cannot sync queue"
    (sync (client_index GetLatestEnqueueIndex) GetNextEnqueueIndex syncQueueTransactionRange).

(** *** Transactions and blocks *)

Definition latestBlockOrTransaction (b : Backend) : M (Client E) Z :=
  r ← attempt (GetLatestBlockIndex (signer_of cfg) b);
  match r with
  | inr blockIndex => ret blockIndex
  | inl _ => GetLatestTransactionIndex (signer_of cfg) b
  end.

Definition syncOneTransaction (b : Backend) (i : Z) : M Service unit :=
  if useDeSeqBlock cfg (u64 (i + 1)) then
    block ← wrap "cannot fetch block" (on_client (GetBlock (signer_of cfg) i (backend cfg)));
    wrap "Cannot apply block" (applyBlock cfg (Some block))
  else
    tx ← wrap "cannot fetch transaction" (on_client (GetTransaction (signer_of cfg) i b));
    wrap "Cannot apply transaction" (applyTransaction cfg (Some tx) true).

Definition syncTransactionRange (start stop : Z) (b : Backend) : M Service unit :=
  for_incl start stop (syncOneTransaction b).

Definition syncTransactions (b : Backend) : indexGetter :=
  wrap "Cannot sync transactions"
    (sync (client_index (latestBlockOrTransaction b)) GetNextIndex (fun s e => syncTransactionRange s e b)).

(** *** Waiting for the own turn, and the loops to the tip *)

(** True: pause, this node is not the sequencer of the next block. *)
Definition waitingSequencerTip : M Service bool :=
  '(seqModel, mpcEnabled) ← GetSeqAndMpcStatus cfg;
  start ← gets s_startSeqHeight;
  if negb seqModel || negb mpcEnabled || (start =? 0) then ret false
  else
    index ← GetLatestIndex;
    let blockNumber := nextBlockNumber index in
    above ← IsAboveStartHeight blockNumber;
    if negb above then ret true
    else
      expectSeq ← GetTxSequencer None blockNumber;
      ret (negb (EqualFold (Address_Hex expectSeq) (SeqAddress cfg))).

Definition errEpochText : string := "get sequencer incorrect epoch number".

(** Pause without an error when the epoch of the next block is not known. *)
Definition pausedOr (prefix : string) (m : M Service unit) : M Service unit :=
  r ← attempt waitingSequencerTip;
  match r with
  | inl err => if bool_decide (err_string err = errEpochText) then ret tt else throw (ErrWrap prefix err)
  | inr pause => if (pause : bool) then ret tt else m
  end.

Definition syncQueueToTip (fuel : nat) : M Service unit :=
  pausedOr "Cannot sync queue to tip waitingSequencerTip"
    (r ← attempt (syncToTip fuel syncQueue (client_index GetLatestEnqueueIndex));
     match r with
     | inl err => if str_contains errEpochText (err_string err) then ret tt
                  else throw (ErrWrap "Cannot sync queue to tip" err)
     | inr _ => ret tt
     end).

Definition syncBatchesToTip (fuel : nat) : M Service unit :=
  wrap "Cannot sync transaction batches to tip"
    (syncToTip fuel syncBatches (client_index (GetLatestTransactionBatchIndex (signer_of cfg)))).

Definition transactionTip : indexGetter :=
  deSeq ← nextIsDeSeqBlock;
  client_index (if (deSeq : bool) then GetLatestBlockIndex (signer_of cfg) (backend cfg)
                else GetLatestTransactionIndex (signer_of cfg) (backend cfg)).

Definition syncTransactionsToTip (fuel : nat) : M Service unit :=
  pausedOr "Verifier waitingSequencerTip cannot sync transactions"
    (wrap "Verifier cannot sync transactions"
       (syncToTip fuel (syncTransactions (backend cfg)) transactionTip)).

Definition verify (fuel : nat) : M Service unit :=
  match backend cfg with
  | BackendL1 => wrap "Verifier cannot sync transaction batches to tip" (syncBatchesToTip fuel)
  | BackendL2 => wrap "Verifier cannot sync transactions with BackendL2" (syncTransactionsToTip fuel)
  end.

Definition sequence (fuel : nat) : M Service unit :=
  wrap "Sequencer cannot sequence queue" (syncQueueToTip fuel).

(** *** The L1 context over time *)
Definition updateL1BlockNumber : M Service unit :=
  context ← wrap "Cannot get eth context" (on_client GetLatestEthContext);
  ts ← GetLatestL1Timestamp;
  let current := time_Unix (i64 ts) in
  let next := time_Unix (i64 (ec_Timestamp context)) in
  when (timestampRefreshThreshold cfg <? time_Sub next current)
    (SetLatestL1BlockNumber (ec_BlockNumber context) ;;
     SetLatestL1Timestamp (ec_Timestamp context)).

(** One tick of [SequencerLoop]; both errors are logged. *)
Definition SequencerLoop_tick (fuel : nat) : M Service unit :=
  attempt (sequence fuel) ;; attempt updateL1BlockNumber ;; ret tt.
(** One tick of [VerifierLoop]. *)
Definition VerifierLoop_tick (fuel : nat) : M Service unit := attempt (verify fuel) ;; ret tt.

(** *** Start-up *)

Definition ensureClient : M Service unit :=
  wrap "Cannot connect to data service" (on_client GetLatestEthContext) ;; ret tt.

Definition SetStartSeqHeight : M Service unit :=
  if bool_decide (seqClientHttp cfg = ""%string) then ret tt
  else h ← on_env sequencer_height; modS (set_startSeqHeight (big_uint64 h)).

(** The batch index of the last transaction, from the server. *)
Definition remoteBatchIndex (index : Z) : M Service Z :=
  let fromBlock (r : BlockResponse) : M Service Z :=
    b ← deref "nil block" (br_Block r); ret (k_BatchIndex b) in
  if useDeSeqBlock cfg (u64 (index + 1)) then
    r ← wrap "Cannot fetch block from dtl" (on_client (GetRawBlock index (backend cfg)));
    fromBlock r
  else
    r ← attempt (on_client (GetRawTransaction index (backend cfg)));
    match r with
    | inr tx => t ← deref "nil transaction" (tr_Transaction tx); ret (r_BatchIndex t)
    | inl err =>
        r2 ← attempt (on_client (GetRawBlock index (backend cfg)));
        match r2 with
        | inl _ => throw (ErrWrap "Cannot fetch transaction from dtl" err)
        | inr b => fromBlock b
        end
    end.

(** The block of the last index, or the head with the indices reset to it. *)
Definition blockOfIndex (index : Z) : M Service Block :=
  block ← env_read (bc_GetBlockByNumber (u64 (index + 1)));
  match block with
  | Some b => ret b
  | None =>
      block ← CurrentBlock;
      let blockNum := NumberU64 block in
      if index <? blockNum then throw (ErrNew "Current block height greater than index")
      else
        let idx := if 0 <? blockNum then Some (blockNum - 1) else None in
        SetLatestIndex idx ;;
        SetLatestVerifiedIndex idx ;;
        ret block
  end.

(** The queue index in a block: the last L1 to L2 transaction that has one. *)
Definition blockQueueIndex (txs : list Transaction) : option Z :=
  foldl (fun acc tx =>
    if QueueOrigin (meta tx) =? QueueOriginL1ToL2
    then match QueueIndex (meta tx) with Some q => Some q | None => acc end else acc) None txs.

(** Work backwards from the tip; one block per step, down to genesis. *)
Fixpoint fixQueueIndex (fuel : nat) (block : option Block) (queueIndex : Z) : M Service (option Z) :=
  match fuel with
  | O => blocked
  | S fuel' =>
      match block with
      | None => ret (Some queueIndex)
      | Some b =>
          let num := NumberU64 b in
          if num =? 0 then ret None
          else
            match blockQueueIndex (b_txs b) with
            | Some q => ret (Some q)
            | None =>
                block ← env_read (bc_GetBlockByNumber (num - 1));
                fixQueueIndex fuel' block queueIndex
            end
      end
  end.

Definition initL1Context (ctcDeployHeight : option Z) : M Service unit :=
  index ← GetLatestIndex;
  match index with
  | None =>
      match ctcDeployHeight with
      | None => throw (ErrNew "Must configure with canonical transaction chain deploy height")
      | Some h =>
          context ← wrap "Cannot fetch ctc deploy block" (on_client (GetEthContext (big_uint64 h)));
          SetLatestL1Timestamp (ec_Timestamp context) ;;
          SetLatestL1BlockNumber (ec_BlockNumber context)
      end
  | Some index =>
      when (verifier cfg && bool_decide (backend cfg = BackendL1))
        (newBatchIndex ← remoteBatchIndex index;
         SetLatestBatchIndex (Some (if 0 <? newBatchIndex then newBatchIndex - 1 else newBatchIndex))) ;;
      block ← blockOfIndex index;
      match b_txs block with
      | [] => gopanic "index out of range"
      | tx :: _ =>
          SetLatestL1Timestamp (L1Timestamp (meta tx)) ;;
          bn ← deref "nil L1BlockNumber" (L1BlockNumber (meta tx));
          SetLatestL1BlockNumber (big_uint64 bn)
      end
  end.

Definition initQueueIndex : M Service unit :=
  queueIndex ← s_GetLatestEnqueueIndex;
  match queueIndex with
  | None =>
      r ← attempt (on_client GetLastConfirmedEnqueue);
      match r with
      | inl err => if errors_Is err errElementNotFound then ret tt
                   else throw (ErrWrap "Cannot fetch last confirmed queue tx" err)
      | inr enqueue => SetLatestEnqueueIndex (QueueIndex (meta enqueue))
      end
  | Some q =>
      block ← env_read bc_CurrentBlock;
      q ← fixQueueIndex (S (Z.to_nat (match block with Some b => NumberU64 b | None => 0 end))) block q;
      SetLatestEnqueueIndex q
  end.

Definition initializeLatestL1 (ctcDeployHeight : option Z) : M Service unit :=
  initL1Context ctcDeployHeight ;; initQueueIndex.

(** The rest of [NewSyncService] with the service enabled, once the server has
    been reached and has synced. *)
Definition startup (ctcDeployHeight : option Z) : M Service unit :=
  wrap "Cannot initialize latest L1 data" (initializeLatestL1 ctcDeployHeight) ;;
  block ← env_read bc_CurrentBlock;
  let number := match block with Some b => NumberU64 b | None => 0 end in
  SetStartSeqHeight ;;
  start ← gets s_startSeqHeight;
  when (start =? 0) (modS (set_startSeqHeight number)) ;;
  when (negb (verifier cfg)) (setSyncStatus true).

(** The start-up of the sequencer before its loop. *)
Definition sequencerStartup (fuel : nat) : M Service unit :=
  syncTransactionsToTip fuel ;;
  syncQueueToTip fuel ;;
  setSyncStatus false.

(** *** The number of the last block L1 has *)
Definition GetFinalizedNumber : M Service Z :=
  currentMs ← env_read now_ms;
  syncMs ← gets s_finalizedSyncMs;
  when (300000 <? currentMs - syncMs)
    (blockIndex ← on_client (latestBlockOrTransaction BackendL1);
     modS (fun s => set_finalizedSyncMs currentMs (set_finalizedIndex (Some blockIndex) s))) ;;
  index ← gets s_finalizedIndex;
  i ← deref "nil finalizedIndex" index;
  ret (u64 (i + 1)).
End Loop.

(** ** A concrete surrounding *)

Definition sample_blk (n : Z) : Block :=
  mkBlock n (1000 + n) 0x77
    (if n =? 0 then []
     else [SetTransactionMeta (Some (NewTransactionMeta (Some (100 + n)) (1000 + n) None QueueOriginSequencer
                                       (Some (n - 1)) None None)) sample_tx]).

Definition lift_server {X} (f : unit -> reply X * unit) (e : Z) : reply X * Z := (fst (f tt), e).

Definition sample_transport : Transport Z := {|
  get_enqueue := fun i => lift_server (get_enqueue (Transport:=sample_server) i);
  get_enqueue_latest := lift_server (get_enqueue_latest (Transport:=sample_server));
  get_transaction := fun i b => lift_server (get_transaction (Transport:=sample_server) i b);
  get_transaction_latest := fun b => lift_server (get_transaction_latest (Transport:=sample_server) b);
  get_eth_context := fun n => lift_server (get_eth_context (Transport:=sample_server) n);
  get_eth_context_latest := lift_server (get_eth_context_latest (Transport:=sample_server));
  get_syncing := fun b => lift_server (get_syncing (Transport:=sample_server) b);
  get_batch_transaction_latest := lift_server (get_batch_transaction_latest (Transport:=sample_server));
  get_batch_transaction := fun i => lift_server (get_batch_transaction (Transport:=sample_server) i);
  get_stateroot := fun i => lift_server (get_stateroot (Transport:=sample_server) i);
  set_verifier := fun i r v b => lift_server (set_verifier (Transport:=sample_server) i r v b);
  get_block := fun i b => lift_server (get_block (Transport:=sample_server) i b);
  get_block_latest := fun b => lift_server (get_block_latest (Transport:=sample_server) b);
  get_batch_block_latest := lift_server (get_batch_block_latest (Transport:=sample_server));
  get_batch_block := fun i => lift_server (get_batch_block (Transport:=sample_server) i) |}.

Definition sample_syncenv : SyncEnv Z := {|
  env_transport := sample_transport;
  now_ms := fun _ => 1700000000000;
  time_Sleep := fun _ e => e;
  bc_CurrentBlock := fun n => Some (sample_blk n);
  bc_GetBlockByNumber := fun k n => if (0 <=? k) && (k <=? n) then Some (sample_blk k) else None;
  bc_State := fun _ => Ok (fun _ h => h);
  bc_StateAt := fun _ _ => Ok (fun _ h => h);
  db_ReadTransaction := fun _ _ => false;
  seq_env := fun _ => sample_env;
  sequencer_height := fun e => (Ok 0, e);
  txpool_AddLocal := fun _ e => (Ok tt, e);
  txpool_ValidateTx := fun _ _ e => (Ok tt, e);
  txFeed_Send := fun _ _ e => e;
  txOtherFeed_Send := fun _ e => e;
  await := fun n => Some ({| dl_head := true; dl_err := None |}, n + 1);
  pick_err := fun _ => true |}.

(** Before its valid height the contract's default sequencer is [0xDEF]. *)
Definition sample_ra : RollupAdapter SeqAdapter := SeqAdapter_RollupAdapter (crypto:=sample_crypto) 0xDEF.

Definition sample_cfg (self : address) (isVerifier : bool) : Config := {|
  verifier := isVerifier; backend := BackendL1; enforceFees := true; signerChainID := 1088;
  feeThresholdUp := None; feeThresholdDown := None; timestampRefreshThreshold := 180 * 10 ^ 9;
  SeqAddress := Address_Hex (crypto:=sample_crypto) self; seqPriv := ""; seqClientHttp := "";
  DeSeqBlock := 0; rcfg_ChainID := 1088 |}.

Definition sample_service (head : Z) (index : Z) : SyncService SeqAdapter Z :=
  mkService (WriteHeadQueueIndex (WriteHeadIndex ∅ index) 2) 900 90 false 0 None 0xCAFE
    (mkOracle 1 1 0 (mkFloat (mkDyadic 0 0) 0)) None 0 false None sample_adapter (mkClient head false).

(** A signed transaction of sequencer origin. *)
Definition sample_local : Transaction :=
  match WithSignature (EIP155Signer 1088) sample_sig sample_tx with Ok t => t | _ => sample_tx end.
