(* ===== verification/SyncFacts.v ===== *)
(** What the sync service guarantees: the stored indices advance without gaps and
    are rolled back on failure, only the sequencer whose turn it is mines, other
    nodes accept only its signature, a batch counts as synced only when all of it
    was verified, the queue loses no element, and the L1 context is monotone. *)
From stdpp Require Import prelude list strings gmap.
From Stdlib Require Import ZArith Lia Ascii.
From S2P Require Import Prelude VarBytes TxMeta RollupDB RLP Crypto Hexutil Transaction SeqSet Fees SeqAdapter Client SyncState SyncApply SyncLoop.
Local Open Scope Z_scope.

(** ** Operations that leave the bookkeeping alone *)

Section Quiet.
Context {crypto : Crypto} {A : Type} {adapter : RollupAdapter A} {E : Type} {env : SyncEnv E}.
Variable cfg : Config.
Abbreviation Service := (SyncService A E).

(** The bookkeeping: the stored indices and the L1 context. *)
Definition core (s : Service) : kvstore * Z * Z * bool :=
  (s_db s, s_timestamp s, s_blockNumber s, s_enqueueIndexNil s).

Definition quiet {X} (m : M Service X) : Prop := forall x, preserves (fun s => core s = x) m.

(** A predicate on the bookkeeping only. *)
Definition core_pred (P : Service -> Prop) : Prop := forall s s', core s = core s' -> P s -> P s'.

Lemma quiet_preserves {X} (P : Service -> Prop) (m : M Service X) :
  core_pred P -> quiet m -> preserves P m.
Proof. intros HP Hm s Hs. apply (HP s); [|done]. symmetry. by apply (Hm (core s)). Qed.

Lemma quiet_on_client {X} (m : M (Client E) X) : quiet (on_client m).
Proof. intros x s <-. unfold on_client. by destruct (m (s_client s)). Qed.
Lemma quiet_on_adapter {X} (m : SeqEnv -> M A X) : quiet (on_adapter m).
Proof. intros x s <-. unfold on_adapter. by destruct (m _ (s_adapter s)). Qed.
Lemma quiet_on_env {X} (f : E -> outcome X * E) : quiet (on_env f).
Proof. intros x s <-. unfold on_env. by destruct (f (s_env s)). Qed.
Lemma quiet_env_read {X} (f : E -> X) : quiet (env_read f).
Proof. intros x s <-. done. Qed.
Lemma quiet_env_do (f : E -> E) : quiet (env_do f).
Proof. intros x s <-. done. Qed.
Lemma quiet_drain_err : quiet drain_err.
Proof. intros x s <-. done. Qed.
Lemma quiet_drain_head : quiet drain_head.
Proof. intros x s <-. done. Qed.
Lemma take_ready_core s r s' : take_ready s = Some (r, s') -> core s' = core s.
Proof. unfold take_ready. intros H. repeat case_in H; by simplify_eq. Qed.
Lemma quiet_select : quiet select_apply.
Proof.
  intros x s <-. unfold select_apply. destruct (take_ready s) as [[r s']|] eqn:E1.
  - by apply take_ready_core in E1.
  - destruct (await (s_env s)) as [[d e']|]; [|done].
    destruct (take_ready (set_chainHeadCh _ _)) as [[r s']|] eqn:E2; [|reflexivity]. by apply take_ready_core in E2.
Qed.
End Quiet.

Ltac quiet_base :=
  first [ apply quiet_on_client | apply quiet_on_adapter | apply quiet_on_env | apply quiet_env_read
        | apply quiet_env_do | apply quiet_drain_err | apply quiet_drain_head | apply quiet_select ].
Create HintDb quiet.
(** Walk through an operation none of whose steps writes the bookkeeping. *)
Ltac quiet_walk :=
  intros ?x;
  repeat first [ quiet_base | solve [eauto 1 with quiet nocore] | preserves_step | (intros ? <-; reflexivity) ].

Section QuietOps.
Context {crypto : Crypto} {A : Type} {adapter : RollupAdapter A} {E : Type} {env : SyncEnv E}.
Variable cfg : Config.
Abbreviation Service := (SyncService A E).

Lemma quiet_CurrentBlock : quiet (CurrentBlock (A:=A) (E:=E)).
Proof. unfold CurrentBlock. quiet_walk. Qed.
Lemma quiet_now : quiet (now_unix (A:=A) (E:=E)).
Proof. unfold now_unix. quiet_walk. Qed.
Lemma quiet_readSlot st h : quiet (readGPOStorageSlot (A:=A) (E:=E) st h).
Proof. unfold readGPOStorageSlot. quiet_walk. Qed.
Lemma quiet_updateCache h : quiet (updateGasPriceOracleCache (A:=A) (E:=E) h).
Proof.
  unfold updateGasPriceOracleCache, cacheGasPriceOracleOwner, updateL2GasPrice, updateL1GasPrice,
    updateOverhead, updateScalar. intros x. repeat first [apply quiet_readSlot|quiet_base|preserves_step|(intros ? <-; reflexivity)].
Qed.
Lemma quiet_refresh x : quiet (refreshOracle (A:=A) (E:=E) x).
Proof. unfold refreshOracle. intros y. repeat first [apply quiet_updateCache|preserves_step]. Qed.
Lemma quiet_logLatest : quiet (logLatestIndex (A:=A) (E:=E)).
Proof. unfold logLatestIndex, GetLatestIndex. quiet_walk. Qed.
Lemma quiet_cleanRespan tx n : quiet (cleanRespan (A:=A) (E:=E) tx n).
Proof. unfold cleanRespan. quiet_walk. Qed.
Lemma quiet_sign tx n a : quiet (makeOrVerifySequencerSign (A:=A) (E:=E) cfg tx n a).
Proof. unfold makeOrVerifySequencerSign, GetSeqAndMpcStatus. quiet_walk. Qed.
Lemma quiet_GetTxSequencer tx n : quiet (GetTxSequencer (A:=A) (E:=E) tx n).
Proof. unfold GetTxSequencer. quiet_walk. Qed.
End QuietOps.

#[export] Hint Resolve quiet_CurrentBlock quiet_now quiet_readSlot quiet_updateCache quiet_refresh
  quiet_logLatest quiet_cleanRespan quiet_sign quiet_GetTxSequencer : quiet.

(** One quiet step of a triple whose precondition and error postcondition are the
    same statement on the bookkeeping. *)
Ltac quiet_solve :=
  repeat first [ quiet_base | apply quiet_CurrentBlock | apply quiet_now | apply quiet_updateCache
               | apply quiet_refresh | apply quiet_logLatest | apply quiet_cleanRespan | apply quiet_sign
               | apply quiet_GetTxSequencer | preserves_step ].
Ltac triple_quiet :=
  repeat lazymatch goal with
  | |- triple _ (bindM _ _) _ _ => apply triple_keep; [solve [quiet_solve]|done|intros ?]
  | |- triple _ (match ?x with _ => _ end) _ _ => destruct x
  | |- triple _ (throw _) _ _ => by apply triple_throw
  | |- triple _ (ret _) _ _ => by apply triple_ret
  end.

(** ** Whose turn it is *)

Section Turn.
Context {crypto : Crypto} {A : Type} {adapter : RollupAdapter A} {E : Type} {env : SyncEnv E}.
Variable cfg : Config.
Abbreviation Service := (SyncService A E).

Definition sequencer_model : bool := negb (verifier cfg) && bool_decide (backend cfg = BackendL1).

Lemma sign_not_self tx n a (s : Service) :
  sequencer_model = true -> 0 < ra_GetSeqValidHeight (s_adapter s) -> IsSelfSeqAddress cfg a = false ->
  makeOrVerifySequencerSign cfg tx n a s = (Err errSequencerIncorrect, s).
Proof.
  intros Hm Hh Ha. unfold makeOrVerifySequencerSign, GetSeqAndMpcStatus, gets, bindM, ret.
  unfold sequencer_model in Hm. rewrite Hm. unfold IsSelfSeqAddress in Ha. rewrite Ha.
  by destruct (Z.ltb_spec 0 (ra_GetSeqValidHeight (s_adapter s))); [|lia].
Qed.

(** The block whose sequencer is asked for a local transaction. *)
Definition asked_block (b : Block) (s : Service) : Z :=
  if useDeSeqBlock cfg (u64 (NumberU64 b + 1)) then u64 (NumberU64 b + 1)
  else nextBlockNumber (ReadHeadIndex (s_db s)).

(** C1: a sequencer node never mines on another sequencer's turn: when the
    sequencer of the next block is not this node, applying a local transaction
    returns an error, and the only part of the state that may differ is the
    adapter's own cache: no index moves, nothing is signed, and nothing is sent to
    the worker, the pool or the peers. *)
Theorem not_my_turn (tx : Transaction) (s : Service) (b : Block) (a : address) (ad : A) :
  sequencer_model = true -> 0 < ra_GetSeqValidHeight (s_adapter s) ->
  bc_CurrentBlock (s_env s) = Some b ->
  ra_GetTxSequencer (seq_env (s_env s)) (Some tx) (asked_block b s) (s_adapter s) = (Ok a, ad) ->
  IsSelfSeqAddress cfg a = false ->
  exists e, applyTransactionToTip cfg tx true s = (Err e, s) \/
            applyTransactionToTip cfg tx true s = (Err e, set_adapter ad s).
Proof.
  intros Hm Hh Hb Hg Ha. unfold applyTransactionToTip.
  destruct (_ && _) eqn:Hts; [eexists; by left|]. exists errSequencerIncorrect. right.
  assert (Hh' : 0 < ra_GetSeqValidHeight (s_adapter (set_adapter ad s))).
  { cbn. pose proof (ra_height_GetTxSequencer (seq_env (s_env s)) (Some tx) (asked_block b s) (s_adapter s)) as H.
    rewrite Hg in H. cbn in H. by rewrite H. }
  assert (Hcur : CurrentBlock s = (Ok b, s)) by (unfold CurrentBlock, env_read, gets, bindM; by rewrite Hb).
  assert (Hseq : GetTxSequencer (Some tx) (asked_block b s) s = (Ok a, set_adapter ad s))
    by (unfold GetTxSequencer, on_adapter; by rewrite Hg).
  pose proof (fun n => sign_not_self tx n a (set_adapter ad s) Hm Hh' Ha) as Hs.
  rewrite (bind_Ok _ _ _ _ _ Hcur). unfold asked_block in Hseq. cbv zeta.
  destruct (useDeSeqBlock cfg _) eqn:HD.
  - unfold applyTransactionToPool. rewrite (bind_Ok _ _ _ _ _ Hcur). cbv zeta.
    rewrite (bind_Ok _ _ _ _ _ Hseq). apply bind_Err. by apply bind_Err.
  - unfold GetLatestL1Timestamp, GetLatestL1BlockNumber, GetLatestIndex.
    do 3 (erewrite bind_Ok by reflexivity). rewrite (bind_Ok _ _ _ _ _ Hseq).
    apply bind_Err. by apply bind_Err.
Qed.

(** A node that does not sequence: verifiers, and replicas of the L2 backend. *)
Lemma sign_checks tx n a (s : Service) r tx' s' :
  sequencer_model = false -> 0 < ra_GetSeqValidHeight (s_adapter s) <= n ->
  QueueOrigin (meta tx) <> QueueOriginL1ToL2 ->
  makeOrVerifySequencerSign cfg tx n a s = (Ok (r, tx'), s') ->
  tx' = tx /\ is_Some (GetSeqSign tx) /\
  exists addr, ra_RecoverSeqAddress tx = Ok addr /\ EqualFold (Address_Hex a) addr = true.
Proof.
  intros Hm Hh Hq H. unfold makeOrVerifySequencerSign in H.
  apply bind_Ok_inv in H as ([sm mp] & s1 & H0 & H).
  unfold GetSeqAndMpcStatus, gets, ret, bindM in H0. unfold sequencer_model in Hm. rewrite Hm in H0.
  injection H0 as <- <- <-. apply bind_Ok_inv in H as (h & s1 & H0 & H). injection H0 as <- <-.
  cbn [andb] in H. apply bind_Ok_inv in H as (tx1 & s1 & H0 & H). injection H0 as <- <-.
  destruct (Z.ltb_spec 0 (ra_GetSeqValidHeight (s_adapter s))); [|lia].
  destruct (Z.leb_spec (ra_GetSeqValidHeight (s_adapter s)) n); [|lia].
  destruct (Z.eqb_spec (QueueOrigin (meta tx)) QueueOriginL1ToL2); [done|]. cbn [andb negb] in H.
  apply bind_Ok_inv in H as (isR & s1 & _ & H).
  destruct (GetSeqSign tx) as [sg|] eqn:Hsg; [|done].
  apply bind_Ok_inv in H as (addr & s2 & Hr & H). unfold lift_out in Hr. injection Hr as Hr <-.
  destruct (EqualFold (Address_Hex a) addr) eqn:HE; [|done]. cbn [negb] in H.
  injection H as <- <- <-. repeat apply conj; [done|by eexists|]. exists addr. by rewrite Hr.
Qed.
End Turn.

(** ** The stored indices *)

Section Indices.
Context {crypto : Crypto} {A : Type} {adapter : RollupAdapter A} {E : Type} {env : SyncEnv E}.
Variable cfg : Config.
Abbreviation Service := (SyncService A E).

Definition headIndex (s : Service) : option Z := ReadHeadIndex (s_db s).
Definition verifiedIndex (s : Service) : option Z := ReadHeadVerifiedIndex (s_db s).
Definition batchIndex (s : Service) : option Z := ReadHeadBatchIndex (s_db s).

(** The five kinds of write, against a predicate on the database. *)
Lemma keep_write_cell (Q : kvstore -> Prop) write i :
  (forall db j, Q db -> Q (write db j)) -> preserves (fun s : Service => Q (s_db s)) (write_cell write i).
Proof. intros H. destruct i; unfold write_cell; [apply preserves_modS; intros s Hs; by apply H|apply preserves_ret]. Qed.

Lemma keep_SetEnqueue (Q : kvstore -> Prop) i :
  (forall db j, Q db -> Q (WriteHeadQueueIndex db j)) ->
  preserves (fun s : Service => Q (s_db s)) (SetLatestEnqueueIndex i).
Proof. intros H. destruct i; apply preserves_modS; intros s Hs; [by apply H|done]. Qed.

Lemma keep_SetTime (Q : kvstore -> Prop) t :
  (forall db j, Q db -> Q (WriteHeadIndexTime db j)) ->
  preserves (fun s : Service => Q (s_db s)) (SetLatestIndexTime t).
Proof. intros H. apply preserves_modS. intros s Hs. by apply H. Qed.

Lemma keep_advanceEnqueue (Q : kvstore -> Prop) tx :
  (forall db j, Q db -> Q (WriteHeadQueueIndex db j)) ->
  preserves (fun s : Service => Q (s_db s)) (advanceEnqueue tx).
Proof.
  intros H. unfold advanceEnqueue, s_GetLatestEnqueueIndex.
  repeat first [by apply keep_SetEnqueue|preserves_step].
Qed.

Lemma core_pred_db (Q : kvstore -> Prop) : core_pred (fun s : Service => Q (s_db s)).
Proof. intros s s' [= H _ _ _]. by rewrite H. Qed.

Lemma no_errors_recordBlock index tx : errors_in (fun _ => False) (recordBlock (A:=A) (E:=E) index tx).
Proof.
  unfold recordBlock, SetLatestIndex, SetLatestVerifiedIndex, write_cell, SetLatestIndexTime, now_unix, env_read,
    advanceEnqueue, s_GetLatestEnqueueIndex, SetLatestEnqueueIndex, logLatestIndex, GetLatestIndex, deref.
  by repeat errors_step.
Qed.

Lemma recordBlock_indices index tx (s s' : Service) :
  in_u64 index -> recordBlock index tx s = (Ok tt, s') ->
  headIndex s' = Some index /\ verifiedIndex s' = Some index.
Proof.
  intros Hi H. unfold recordBlock in H.
  apply bind_Ok_inv in H as (? & s1 & H1 & H). unfold SetLatestIndex, write_cell in H1. injection H1 as _ <-.
  apply bind_Ok_inv in H as (t & s2 & H2 & H). injection H2 as _ <-.
  apply bind_Ok_inv in H as (? & s3 & H3 & H). injection H3 as _ <-.
  apply bind_Ok_inv in H as (? & s4 & H4 & H). unfold SetLatestVerifiedIndex, write_cell in H4. injection H4 as _ <-.
  match type of H with _ ?s0 = _ => set (s4 := s0) in H end.
  set (Q := fun db => ReadHeadIndex db = Some index /\ ReadHeadVerifiedIndex db = Some index).
  assert (H4 : Q (s_db s4)) by (unfold Q, s4; cbn [s_db set_db]; split; by db_simpl).
  assert (Hk : preserves (fun s => Q (s_db s)) (advanceEnqueue (A:=A) (E:=E) tx ;; logLatestIndex)).
  { apply preserves_bind; [apply keep_advanceEnqueue; intros db j; unfold Q; by db_simpl|].
    intros ?. apply quiet_preserves; [apply core_pred_db|apply quiet_logLatest]. }
  specialize (Hk s4 H4). rewrite H in Hk. exact Hk.
Qed.

Lemma applyBlock_tip_run block tx0 rest (s : Service) o s' :
  b_txs block = tx0 :: rest -> u64 (NumberU64 block - 1) = next_of (headIndex s) ->
  applyBlock cfg (Some block) s = (o, s') ->
  match o with
  | Err _ => core s' = core s
  | Ok _ => (exists s1 tx, recordBlock (u64 (NumberU64 block - 1)) tx s1 = (Ok tt, s')) /\
            exists a s1 r s2 tx, GetTxSequencer (Some tx0) (NumberU64 block) s = (Ok a, s1) /\
              makeOrVerifySequencerSign cfg tx0 (NumberU64 block) a s1 = (Ok (r, tx), s2)
  | _ => True
  end.
Proof.
  intros Ht Hi H. destruct o as [[]|e|w|]; [| |done..].
  - unfold applyBlock in H. rewrite Ht in H. cbv zeta in H.
    apply bind_Ok_inv in H as (n & s0 & Hn & H). unfold GetNextIndex, GetLatestIndex, gets, ret, bindM in Hn.
    injection Hn as <- <-. unfold headIndex in Hi. rewrite <- Hi, Z.ltb_irrefl in H.
    apply bind_Ok_inv in H as (a & s1 & H1 & H). apply bind_Ok_inv in H as ([r tx] & s2 & H2 & H).
    split; [|by eauto 10]. apply bind_Ok_inv in H as (? & s3 & _ & H).
    apply bind_Ok_inv in H as (? & s4 & _ & H). apply bind_Ok_inv in H as ([err|?] & s5 & _ & H); [done|].
    apply bind_Ok_inv in H as ([err|?] & s6 & _ & H); [|by eauto].
    apply bind_Ok_inv in H as (? & s7 & _ & H). done.
  - assert (HT : triple (fun s0 => core s0 = core s) (applyBlock cfg (Some block)) (fun _ _ => True)
                   (fun _ s0 => core s0 = core s)).
    { unfold applyBlock, GetNextIndex, GetLatestIndex. rewrite Ht. cbv zeta. triple_quiet.
      apply triple_no_errors, no_errors_recordBlock. }
    specialize (HT s eq_refl). by rewrite H in HT.
Qed.

Lemma applyBlock_off_tip block (s : Service) o s' :
  b_txs block <> [] -> u64 (NumberU64 block - 1) <> next_of (headIndex s) ->
  applyBlock cfg (Some block) s = (o, s') ->
  s' = s /\ (next_of (headIndex s) < u64 (NumberU64 block - 1) -> exists e, o = Err e).
Proof.
  intros Ht Hne H. unfold applyBlock in H. destruct (b_txs block) as [|tx0 rest]; [done|].
  cbv zeta in H. erewrite bind_Ok in H by reflexivity. unfold headIndex in *.
  destruct (Z.ltb_spec (next_of (ReadHeadIndex (s_db s))) (u64 (NumberU64 block - 1))).
  { injection H as <- <-. eauto. }
  destruct (Z.ltb_spec (u64 (NumberU64 block - 1)) (next_of (ReadHeadIndex (s_db s)))); [|lia].
  split; [|lia]. erewrite bind_Ok in H by reflexivity.
  by repeat case_in H; injection H as <- <-.
Qed.

End Indices.

(** ** One transaction per block: the tip path *)

Section Tip.
Context {crypto : Crypto} {A : Type} {adapter : RollupAdapter A} {E : Type} {env : SyncEnv E}.
Variable cfg : Config.
Abbreviation Service := (SyncService A E).

(** The state an error leaves behind. *)
Definition rolledBack (ts bn : Z) (idx : option Z) (s : Service) : Prop :=
  s_timestamp s = ts /\ s_blockNumber s = bn /\ (is_Some idx -> headIndex s = idx).
(** The state of success. *)
Definition advanced (ts bn i : Z) (s : Service) : Prop :=
  headIndex s = Some i /\ verifiedIndex s = Some i /\ ts <= s_timestamp s /\ bn <= s_blockNumber s.

Lemma advanced_core ts bn i : core_pred (advanced ts bn i).
Proof.
  intros s s' [= H1 H2 H3 _]. unfold advanced, headIndex, verifiedIndex. by rewrite H1, H2, H3.
Qed.

Lemma restoreTip_rolledBack ts bn idx e Q :
  (forall k, idx = Some k -> in_u64 k) ->
  triple (fun _ : Service => True) (restoreTip ts bn idx ;; throw e)
    (Q : unit -> Service -> Prop) (fun e' s => e' = e /\ rolledBack ts bn idx s).
Proof.
  intros Hk s _. unfold restoreTip, SetLatestL1Timestamp, SetLatestL1BlockNumber, SetLatestIndex,
    SetLatestVerifiedIndex, write_cell, bindM, modS, ret, throw.
  destruct idx as [k|]; cbv beta iota; split; try done; unfold rolledBack, headIndex; cbn [s_timestamp s_blockNumber s_db set_db set_blockNumber set_timestamp].
  specialize (Hk k eq_refl). repeat apply conj; try done. intros _. by db_simpl.
Qed.

Lemma repairIndex_errors index (x : _) :
  triple (fun s : Service => core s = x) (repairIndex index) (fun _ s => core s = x) (fun e _ => e = errMetaIndex).
Proof.
  intros s Hs. unfold repairIndex, CurrentBlock, env_read, deref, gets, ret, gopanic, throw, bindM.
  destruct (bc_CurrentBlock (s_env s)) as [b|]; [|done]. cbv zeta.
  destruct (_ =? _); [done|]. destruct (_ =? _); [|done].
  destruct (b_txs b) as [|ptx [|? ?]]; [done| |done]. unfold SetLatestL1Timestamp, modS.
  by destruct (L1BlockNumber (meta ptx)), (Index (meta ptx)).
Qed.

Lemma checkChannels_keeps index (x : _) :
  triple (fun s : Service => core s = x) (checkChannels cfg index) (fun _ s => core s = x)
    (fun e _ => e = errMetaIndex).
Proof.
  intros s Hs. unfold checkChannels, bindM at 1, getS. destruct (_ || _); [|done]. unfold when at 1.
  unfold bindM, drain_err, drain_head, modS. destruct (negb (verifier cfg)); [|done]. unfold when.
  by apply repairIndex_errors.
Qed.

Lemma stamp_monotone tx ts bn db n :
  triple (fun s : Service => core s = (db, ts, bn, n)) (stampTransaction tx ts bn)
    (fun tx' s => s_db s = db /\ ts <= s_timestamp s /\ bn <= s_blockNumber s /\
       Index (meta tx') = Index (meta tx) /\ QueueIndex (meta tx') = QueueIndex (meta tx))
    (fun _ _ => False).
Proof.
  intros s [= <- <- <- _]. unfold stampTransaction, now_unix, env_read, gets, bindM at 1. cbv zeta.
  set (tx1 := if L1Timestamp (meta tx) =? 0 then _ else tx).
  assert (H1 : Index (meta tx1) = Index (meta tx) /\ QueueIndex (meta tx1) = QueueIndex (meta tx))
    by (unfold tx1; by destruct (_ =? _)).
  destruct (L1BlockNumber (meta tx1)) as [l1|].
  - unfold bindM, when, SetLatestL1BlockNumber, SetLatestL1Timestamp, modS, ret.
    destruct (Z.ltb_spec (s_blockNumber s) (big_uint64 l1)), (Z.ltb_spec (s_timestamp s) (L1Timestamp (meta tx1)));
      cbn; repeat apply conj; try apply H1; try done; lia.
  - unfold bindM, when, SetLatestL1Timestamp, modS, ret. cbn [meta SetL1BlockNumber with_meta meta_set_bn L1Timestamp].
    destruct (Z.ltb_spec (s_timestamp s) (L1Timestamp (meta tx1))); cbn; repeat apply conj; try apply H1; try done; lia.
Qed.

Lemma mineAndWait_outcome tx sender ts bn idx i :
  (forall k, idx = Some k -> in_u64 k) ->
  triple (advanced ts bn i) (mineAndWait tx sender (restoreTip ts bn idx))
    (fun _ => advanced ts bn i) (fun _ => rolledBack ts bn idx).
Proof.
  intros Hk. unfold mineAndWait.
  assert (Hq : forall X (m : M Service X), quiet m -> preserves (advanced ts bn i) m)
    by (intros; apply quiet_preserves; [apply advanced_core|done]).
  apply (triple_bind _ _ _ (fun _ => advanced ts bn i)).
  { intros s Hs. by apply (Hq _ _ (quiet_env_do _)). }
  intros ?. apply (triple_bind _ _ _ (fun _ => advanced ts bn i)).
  { intros s Hs. pose proof (Hq _ _ quiet_select s Hs) as H. unfold select_apply in *.
    by repeat (case_match; subst). }
  intros [e|?].
  { eapply triple_conseq; [by apply (restoreTip_rolledBack ts bn idx e (fun _ => advanced ts bn i))|done|done|by intros ?? [_ ?]]. }
  apply (triple_attempt _ _ _ (fun _ => advanced ts bn i) (fun _ => advanced ts bn i)).
  - intros s Hs. pose proof (Hq _ _ (quiet_refresh sender) s Hs) as H.
    by destruct (refreshOracle sender s) as [[] ?].
  - intros []. intros s Hs. pose proof (Hq _ _ quiet_logLatest s Hs) as H. unfold logLatestIndex, GetLatestIndex in *.
    unfold gets, bindM, deref, ret, gopanic in *. by destruct (ReadHeadIndex (s_db s)).
  - intros e. apply (triple_bind _ _ _ (fun _ _ => True)).
    + apply (triple_conseq _ (fun _ => True) _ _ (fun _ _ => True) _ (fun _ _ => False)); try done.
      intros s _. unfold logLatestIndex, GetLatestIndex, gets, bindM, deref. by destruct (ReadHeadIndex (s_db s)).
    + intros ?. eapply triple_conseq; [by apply (restoreTip_rolledBack ts bn idx e (fun _ => advanced ts bn i))|done|done|by intros ?? [_ ?]].
Qed.

(** The steps from the choice of the sequencer to the result. *)
Definition tipLocal (tx : Transaction) (ts bn : Z) (index : option Z) : M Service unit :=
  expectSeq ← GetTxSequencer (Some tx) (nextBlockNumber index);
  tx ← ('(_, tx) ← makeOrVerifySequencerSign cfg tx (nextBlockNumber index) expectSeq;
        checkChannels cfg index ;;
        ret tx);
  tx ← stampTransaction tx ts bn;
  let tx := match Index (meta tx) with None => SetIndex (next_of index) tx | Some _ => tx end in
  SetLatestIndex (Index (meta tx)) ;;
  now ← now_unix;
  SetLatestIndexTime now ;;
  SetLatestVerifiedIndex (Index (meta tx)) ;;
  advanceEnqueue tx ;;
  mineAndWait tx (sender_of cfg tx) (restoreTip ts bn index).

Lemma applyTransactionToTip_local tx (s : Service) b :
  bc_CurrentBlock (s_env s) = Some b -> useDeSeqBlock cfg (u64 (NumberU64 b + 1)) = false ->
  (QueueOrigin (meta tx) =? QueueOriginL1ToL2) && (L1Timestamp (meta tx) =? 0) = false ->
  applyTransactionToTip cfg tx true s = tipLocal tx (s_timestamp s) (s_blockNumber s) (headIndex s) s.
Proof.
  intros Hb HD Hg. unfold applyTransactionToTip. rewrite Hg.
  assert (Hcur : CurrentBlock s = (Ok b, s)) by (unfold CurrentBlock, env_read, gets, bindM; by rewrite Hb).
  rewrite (bind_Ok _ _ _ _ _ Hcur). cbv zeta. rewrite HD.
  unfold GetLatestL1Timestamp, GetLatestL1BlockNumber, GetLatestIndex.
  do 3 (erewrite bind_Ok by reflexivity). done.
Qed.

(** The signature does not change the indices of the transaction. *)
Lemma addSeqSignature_meta tx tx' :
  addSeqSignature cfg tx = Ok tx' ->
  Index (meta tx') = Index (meta tx) /\ QueueIndex (meta tx') = QueueIndex (meta tx).
Proof.
  unfold addSeqSignature. intros H. destruct (GetSeqSign tx); [by injection H as <-|].
  destruct (_ =? _); [by injection H as <-|]. destruct (_ || _); [done|].
  destruct (hex_DecodeString _); try done. cbn [mbind outcome_bind] in H.
  destruct (ToECDSA _); try done. cbn [mbind outcome_bind] in H.
  destruct (crypto_Sign _ _); try done. destruct (negb _); [done|]. cbv zeta in H.
  destruct (GetSeqSign _); [|done]. by injection H as <-.
Qed.

Lemma sign_meta tx n a (s : Service) r tx' s' :
  makeOrVerifySequencerSign cfg tx n a s = (Ok (r, tx'), s') ->
  Index (meta tx') = Index (meta tx) /\ QueueIndex (meta tx') = QueueIndex (meta tx).
Proof.
  intros H. unfold makeOrVerifySequencerSign in H.
  apply bind_Ok_inv in H as ([sm mp] & s1 & _ & H). apply bind_Ok_inv in H as (h & s2 & _ & H).
  destruct (_ && negb _); [done|]. apply bind_Ok_inv in H as (tx1 & s3 & H1 & H).
  assert (Htx1 : Index (meta tx1) = Index (meta tx) /\ QueueIndex (meta tx1) = QueueIndex (meta tx)).
  { destruct (_ && _); unfold lift_out, ret in H1; injection H1 as H1 _; [by apply addSeqSignature_meta|by subst]. }
  rewrite <- (proj1 Htx1), <- (proj2 Htx1). clear H1 Htx1.
  destruct (_ && _); [|by injection H as _ <- _]. apply bind_Ok_inv in H as (isR & s4 & _ & H).
  destruct sm.
  - apply bind_Ok_inv in H as (other & s5 & _ & H). destruct other; [done|].
    apply bind_Ok_inv in H as (tx2 & s6 & H2 & H). unfold lift_out in H2. injection H2 as H2 _.
    injection H as _ <- _. by apply addSeqSignature_meta.
  - destruct (GetSeqSign tx1); [|done]. apply bind_Ok_inv in H as (ad & s5 & _ & H).
    destruct (negb _); [done|]. by injection H as _ <- _.
Qed.

(** Recording the index of the transaction before it is mined. *)
Lemma record_advanced (tx : Transaction) (ts bn i db : _) (f : M Service unit) R :
  in_u64 i -> Index (meta tx) = Some i ->
  triple (advanced ts bn i) f (fun _ => advanced ts bn i) R ->
  triple (fun s : Service => s_db s = db /\ ts <= s_timestamp s /\ bn <= s_blockNumber s)
    (SetLatestIndex (Index (meta tx)) ;; now ← now_unix; SetLatestIndexTime now ;;
     SetLatestVerifiedIndex (Index (meta tx)) ;; advanceEnqueue tx ;; f) (fun _ => advanced ts bn i) R.
Proof.
  intros Hi Hx Hf s (Hdb & Hts & Hbn). rewrite Hx. unfold SetLatestIndex, SetLatestVerifiedIndex, write_cell.
  do 4 (erewrite bind_Ok by reflexivity).
  match goal with |- context [bindM (advanceEnqueue tx) _ ?s0] => set (s1 := s0) end.
  assert (H1 : advanced ts bn i s1).
  { unfold advanced, headIndex, verifiedIndex, s1. cbn [s_db set_db s_timestamp s_blockNumber].
    repeat apply conj; try done; by db_simpl. }
  assert (H2 : preserves (advanced ts bn i) (advanceEnqueue (A:=A) (E:=E) tx)).
  { unfold advanceEnqueue, s_GetLatestEnqueueIndex. repeat preserves_step; intros s2 Hs2.
    unfold SetLatestEnqueueIndex, modS. destruct Hs2 as (? & ? & ? & ?).
    unfold advanced, headIndex, verifiedIndex in *. cbn [snd s_db set_db set_enqueueIndexNil s_timestamp s_blockNumber].
    repeat apply conj; try done; by db_simpl. }
  assert (Hne : errors_in (fun _ => False) (advanceEnqueue (A:=A) (E:=E) tx)).
  { unfold advanceEnqueue, s_GetLatestEnqueueIndex, SetLatestEnqueueIndex. by repeat errors_step. }
  specialize (H2 s1 H1). unfold bindM. destruct (advanceEnqueue tx s1) as [[[]|e|w|] s2] eqn:Ea; try done.
  - by apply Hf.
  - by destruct (Hne _ _ _ Ea).
Qed.

Lemma tipLocal_outcome tx ts bn idx db n :
  (forall k, idx = Some k -> in_u64 k) -> (forall k, Index (meta tx) = Some k -> in_u64 k) ->
  ReadHeadIndex db = idx ->
  triple (fun s : Service => core s = (db, ts, bn, n)) (tipLocal tx ts bn idx)
    (fun _ => advanced ts bn (default (next_of idx) (Index (meta tx))))
    (fun e s => e = errMetaIndex \/ rolledBack ts bn idx s).
Proof.
  intros Hk Hx Hdb. set (i := default (next_of idx) (Index (meta tx))).
  assert (Hi : in_u64 i).
  { unfold i. destruct (Index (meta tx)) as [k|]; [by apply Hx|]. cbn. unfold next_of.
    destruct idx; [apply u64_in|unfold in_u64; lia]. }
  assert (HR : forall s : Service, core s = (db, ts, bn, n) -> rolledBack ts bn idx s).
  { intros s [= H1 H2 H3 _]. unfold rolledBack, headIndex. by rewrite H1. }
  unfold tipLocal. apply triple_keep; [apply quiet_GetTxSequencer|by eauto|intros a].
  apply (triple_bind _ _ _ (fun tx' s => core s = (db, ts, bn, n) /\ Index (meta tx') = Index (meta tx))).
  { intros s Hs. pose proof (quiet_sign cfg tx (nextBlockNumber idx) a (core s) s eq_refl) as Hq.
    unfold bindM at 1. destruct (makeOrVerifySequencerSign cfg tx _ a s) as [[[r tx']|e|w|] s1] eqn:Es; try done.
    - apply sign_meta in Es as [Es _]. cbn in Hq. unfold bindM.
      pose proof (checkChannels_keeps idx (db, ts, bn, n) s1 ltac:(congruence)) as Hc.
      destruct (checkChannels cfg idx s1) as [[[]|e|w|] s2]; try done. by left.
    - right. apply HR. cbn in Hq. congruence. }
  intros tx1. apply (triple_bind _ _ _ (fun tx2 s => s_db s = db /\ ts <= s_timestamp s /\ bn <= s_blockNumber s /\
    Index (meta tx2) = Index (meta tx))).
  { intros s [Hs H1]. pose proof (stamp_monotone tx1 ts bn db n s Hs) as Hm.
    destruct (stampTransaction tx1 ts bn s) as [[tx2|e|w|] s1]; try done. destruct Hm as (? & ? & ? & H2 & _).
    by rewrite H2, H1. }
  intros tx2. cbv zeta. set (tx3 := match Index (meta tx2) with None => _ | Some _ => tx2 end).
  intros s (Hs1 & Hs2 & Hs3 & Hs4).
  assert (H3 : Index (meta tx3) = Some i) by (unfold tx3, i; rewrite Hs4; destruct (Index (meta tx)) eqn:Ex; by rewrite ?Hs4).
  apply (record_advanced tx3 ts bn i db); try done.
  eapply triple_conseq; [by apply mineAndWait_outcome|done|done|by eauto].
Qed.

Lemma headIndex_range (s : Service) k : headIndex s = Some k -> in_u64 k.
Proof. apply decode_index_range. Qed.

Lemma tip_run (tx : Transaction) (s : Service) (b : Block) (o : outcome unit) (s' : Service) :
  bc_CurrentBlock (s_env s) = Some b -> useDeSeqBlock cfg (u64 (NumberU64 b + 1)) = false ->
  (forall k, Index (meta tx) = Some k -> in_u64 k) ->
  applyTransactionToTip cfg tx true s = (o, s') ->
  match o with
  | Ok _ => advanced (s_timestamp s) (s_blockNumber s) (default (next_of (headIndex s)) (Index (meta tx))) s'
  | Err e => e = errMetaIndex \/ rolledBack (s_timestamp s) (s_blockNumber s) (headIndex s) s'
  | _ => True
  end.
Proof.
  intros Hb HD Hx H. destruct ((QueueOrigin (meta tx) =? QueueOriginL1ToL2) && (L1Timestamp (meta tx) =? 0)) eqn:Hg.
  - unfold applyTransactionToTip in H. rewrite Hg in H. injection H as <- <-. by right.
  - rewrite (applyTransactionToTip_local _ _ _ Hb HD Hg) in H.
    pose proof (tipLocal_outcome tx (s_timestamp s) (s_blockNumber s) (headIndex s) (s_db s) (s_enqueueIndexNil s)
      (headIndex_range s) Hx eq_refl s eq_refl) as HT. rewrite H in HT. by destruct o.
Qed.


(** indices are never skipped: applying a local transaction leaves the head
    index where it was or moves it to exactly the next one, whatever index the
    transaction carries; on an error an existing index is kept (or repaired). *)
Theorem applyTransaction_no_gaps (tx : Transaction) (s : Service) (b : Block) (o : outcome unit) (s' : Service) :
  bc_CurrentBlock (s_env s) = Some b -> useDeSeqBlock cfg (u64 (NumberU64 b + 1)) = false ->
  applyTransaction cfg (Some tx) true s = (o, s') ->
  match o with
  | Ok _ => headIndex s' = headIndex s \/ headIndex s' = Some (next_of (headIndex s))
  | Err e => e = errMetaIndex \/ (is_Some (headIndex s) -> headIndex s' = headIndex s)
  | _ => True
  end.
Proof.
  intros Hb HD H.
  assert (Htip : forall k, default (next_of (headIndex s)) (Index (meta tx)) = k ->
    k = next_of (headIndex s) -> applyTransactionToTip cfg tx true s = (o, s') ->
    match o with
    | Ok _ => headIndex s' = headIndex s \/ headIndex s' = Some (next_of (headIndex s))
    | Err e => e = errMetaIndex \/ (is_Some (headIndex s) -> headIndex s' = headIndex s)
    | _ => True
    end).
  { intros k Hk -> Ht. apply (tip_run tx s b o s' Hb HD) in Ht.
    - rewrite Hk in Ht. destruct o; try done; [right; apply Ht|]. destruct Ht as [Ht|Ht]; [by left|right; apply Ht].
    - intros j Hj. rewrite Hj in Hk. cbn in Hk. subst j. unfold next_of.
      destruct (headIndex s); [apply u64_in|unfold in_u64; lia]. }
  unfold applyTransaction, applyIndexedTransaction in H. destruct (Index (meta tx)) as [k|] eqn:Hx.
  - unfold GetNextIndex, GetLatestIndex in H. erewrite bind_Ok in H by reflexivity. cbv beta in H. fold (headIndex s) in H.
    destruct (Z.eqb_spec k (next_of (headIndex s))) as [->|Hne]; [by apply (Htip (next_of (headIndex s)))|].
    cbn [negb andb] in H.
    destruct (k <? _).
    + unfold applyHistoricalTransaction in H. rewrite Hx in H. erewrite bind_Ok in H by reflexivity.
      by repeat case_in H; injection H as <- <-; auto.
    + injection H as <- <-. auto.
  - by apply (Htip (next_of (headIndex s))).
Qed.
End Tip.

(** ** Examples *)

#[local] Existing Instances sample_crypto sample_ra sample_syncenv.

Lemma not_my_turn_witness :
  IsSelfSeqAddress (sample_cfg 0xBAD false) 0xDEF = false /\
  exists e s', applyTransactionToTip (sample_cfg 0xBAD false) sample_local true (sample_service 1 0) = (Err e, s').
Proof.
  split; [vm_compute; reflexivity|].
  destruct (not_my_turn (sample_cfg 0xBAD false) sample_local (sample_service 1 0) (sample_blk 1) 0xDEF sample_adapter)
    as [e [H|H]].
  - vm_compute. reflexivity.
  - vm_compute. reflexivity.
  - reflexivity.
  - vm_compute. reflexivity.
  - vm_compute. reflexivity.
  - eauto.
  - eauto.
Defined.

(** The runs are evaluated once, as pairs of a result and a state. *)
Definition block_run := applyBlock (sample_cfg 0xDEF false) (Some (sample_blk 2)) (sample_service 1 0).
Definition tip_run_sample := applyTransactionToTip (sample_cfg 0xDEF false) sample_local true (sample_service 1 0).
Definition apply_run := applyTransaction (sample_cfg 0xDEF false) (Some sample_local) true (sample_service 1 0).

Lemma run_pair {X Y} (p : X * Y) : p = (fst p, snd p).
Proof. by destruct p. Qed.
Lemma block_run_eq :
  applyBlock (sample_cfg 0xDEF false) (Some (sample_blk 2)) (sample_service 1 0) = (fst block_run, snd block_run).
Proof. unfold block_run. apply run_pair. Qed.
Lemma tip_run_sample_eq :
  applyTransactionToTip (sample_cfg 0xDEF false) sample_local true (sample_service 1 0) =
  (fst tip_run_sample, snd tip_run_sample).
Proof. unfold tip_run_sample. apply run_pair. Qed.
Lemma apply_run_eq :
  applyTransaction (sample_cfg 0xDEF false) (Some sample_local) true (sample_service 1 0) = (fst apply_run, snd apply_run).
Proof. unfold apply_run. apply run_pair. Qed.

Lemma sample_local_index k : Index (meta sample_local) = Some k -> in_u64 k.
Proof.
  assert (Index (meta sample_local) = None) as -> by (vm_compute; reflexivity). discriminate.
Qed.



Lemma applyTransaction_no_gaps_witness :
  fst apply_run = Ok tt /\
  (headIndex (snd apply_run) = headIndex (sample_service 1 0) \/
   headIndex (snd apply_run) = Some (next_of (headIndex (sample_service 1 0)))).
Proof.
  assert (Hr : fst apply_run = Ok tt) by (vm_compute; reflexivity). split; [exact Hr|].
  pose proof (applyTransaction_no_gaps (sample_cfg 0xDEF false) sample_local (sample_service 1 0) (sample_blk 1)
    (fst apply_run) (snd apply_run) eq_refl ltac:(vm_compute; reflexivity) apply_run_eq) as H.
  rewrite Hr in H. exact H.
Defined.
