(* ===== verification/SyncLoopFacts.v ===== *)
(** What the synchronisation loops guarantee: a batch is recorded only when all of
    it was applied and verified, the verdict on a state root is the first answer of
    the server, a failed queue element is not skipped, the queue index is recovered
    from the chain, the RPC entry point rejects before it applies, and the periodic
    refresh of the L1 context never goes back. *)
From stdpp Require Import prelude list strings gmap.
From Stdlib Require Import ZArith Lia Ascii.
From S2P Require Import Prelude VarBytes TxMeta RollupDB RLP Crypto Hexutil Transaction SeqSet Fees SeqAdapter Client SyncState SyncApply SyncLoop SyncFacts.
Local Open Scope Z_scope.

(** ** Frames of the database cells *)

Section Frames.
Context {crypto : Crypto} {A : Type} {adapter : RollupAdapter A} {E : Type} {env : SyncEnv E}.
Variable cfg : Config.
Abbreviation Service := (SyncService A E).

(** A predicate on the database that the apply paths do not disturb. *)
Record applyFrame (Q : kvstore -> Prop) : Prop := {
  af_index : forall db i, Q db -> Q (WriteHeadIndex db i);
  af_time : forall db i, Q db -> Q (WriteHeadIndexTime db i);
  af_verified : forall db i, Q db -> Q (WriteHeadVerifiedIndex db i);
  af_queue : forall db i, Q db -> Q (WriteHeadQueueIndex db i) }.

Lemma batch_frame x : applyFrame (fun db => ReadHeadBatchIndex db = x).
Proof. split; intros; by db_simpl. Qed.

Section Walk.
Context (Q : kvstore -> Prop) (HQ : applyFrame Q).
Abbreviation keeps m := (preserves (fun s : Service => Q (s_db s)) m).

Lemma keep_quiet {X} (m : M Service X) : quiet m -> keeps m.
Proof. apply quiet_preserves, core_pred_db. Qed.
Lemma keep_SetIndex i : keeps (SetLatestIndex i).
Proof. apply keep_write_cell, HQ. Qed.
Lemma keep_SetVerified i : keeps (SetLatestVerifiedIndex i).
Proof. apply keep_write_cell, HQ. Qed.
Lemma keep_Time t : keeps (SetLatestIndexTime t).
Proof. apply keep_SetTime, HQ. Qed.
Lemma keep_Enqueue i : keeps (SetLatestEnqueueIndex i).
Proof. apply keep_SetEnqueue, HQ. Qed.
Lemma keep_L1Timestamp ts : keeps (SetLatestL1Timestamp ts).
Proof. by apply preserves_modS. Qed.
Lemma keep_L1BlockNumber bn : keeps (SetLatestL1BlockNumber bn).
Proof. by apply preserves_modS. Qed.

Ltac frame_walk :=
  repeat first [ apply keep_SetIndex | apply keep_SetVerified | apply keep_Time | apply keep_Enqueue
               | apply keep_L1Timestamp | apply keep_L1BlockNumber
               | apply keep_quiet; solve [quiet_base | apply quiet_CurrentBlock | apply quiet_now | apply quiet_updateCache
                   | apply quiet_refresh | apply quiet_logLatest | apply quiet_cleanRespan | apply quiet_sign
                   | apply quiet_GetTxSequencer]
               | preserves_step ].

Lemma keep_advance tx : keeps (advanceEnqueue tx).
Proof. apply keep_advanceEnqueue, HQ. Qed.
Lemma keep_advancePool tx fl : keeps (advanceEnqueuePool tx fl).
Proof. unfold advanceEnqueuePool, s_GetLatestEnqueueIndex. frame_walk. Qed.
Lemma keep_restoreTip ts bn i : keeps (restoreTip ts bn i).
Proof. unfold restoreTip. frame_walk. Qed.
Lemma keep_mine tx x undo : keeps undo -> keeps (mineAndWait tx x undo).
Proof. intros Hu. unfold mineAndWait. repeat first [exact Hu|frame_walk]. Qed.
Lemma keep_stamp tx ts bn : keeps (stampTransaction tx ts bn).
Proof. unfold stampTransaction. cbv zeta. frame_walk. Qed.
Lemma keep_checkChannels i : keeps (checkChannels cfg i).
Proof. unfold checkChannels, repairIndex. frame_walk. Qed.

Lemma keep_pool tx fl : keeps (applyTransactionToPool cfg tx fl).
Proof.
  unfold applyTransactionToPool, GetLatestL1BlockNumber. cbv zeta.
  repeat first [apply keep_advancePool|apply keep_mine; apply preserves_ret|frame_walk].
Qed.
Lemma keep_tip tx fl : keeps (applyTransactionToTip cfg tx fl).
Proof.
  unfold applyTransactionToTip, GetLatestL1Timestamp, GetLatestL1BlockNumber, GetLatestIndex. cbv zeta.
  repeat first [apply keep_pool|apply keep_stamp|apply keep_checkChannels|apply keep_advance
    |apply keep_mine; apply keep_restoreTip|apply keep_restoreTip|frame_walk].
Qed.
Lemma keep_indexed tx fl : keeps (applyIndexedTransaction cfg tx fl).
Proof.
  unfold applyIndexedTransaction, applyHistoricalTransaction, GetNextIndex, GetLatestIndex.
  repeat first [apply keep_tip|frame_walk].
Qed.
Lemma keep_apply tx fl : keeps (applyTransaction cfg tx fl).
Proof. unfold applyTransaction. repeat first [apply keep_indexed|apply keep_tip|frame_walk]. Qed.
Lemma keep_batched tx : keeps (applyBatchedTransaction cfg tx).
Proof. unfold applyBatchedTransaction. repeat first [apply keep_indexed|frame_walk]. Qed.
Lemma keep_block b : keeps (applyBlock cfg b).
Proof.
  unfold applyBlock, recordBlock, GetNextIndex, GetLatestIndex. cbv zeta.
  repeat first [apply keep_advance|frame_walk].
Qed.
Lemma keep_fetchRoot n i r : keeps (fetchStateRoot (A:=A) n i r).
Proof. induction n as [|n IH]; cbn [fetchStateRoot]; [apply preserves_ret|]. repeat first [exact IH|frame_walk]. Qed.
Lemma keep_report tx : keeps (verifyAndReport tx).
Proof. unfold verifyAndReport, verifyStateRoot. repeat first [apply keep_fetchRoot|frame_walk]. Qed.
Lemma keep_for_each {X} (xs : list X) body : (forall x, keeps (body x)) -> keeps (for_each xs body).
Proof. intros H. induction xs as [|x xs IH]; cbn [for_each]; [apply preserves_ret|]. by apply preserves_bind. Qed.
End Walk.
End Frames.

(** ** Batches *)

Section Batches.
Context {crypto : Crypto} {A : Type} {adapter : RollupAdapter A} {E : Type} {env : SyncEnv E}.
Variable cfg : Config.
Abbreviation Service := (SyncService A E).

Definition recorded (i : Z) (x : option Z) (m : M Service unit) : Prop :=
  triple (fun s => batchIndex s = x) m (fun _ s => batchIndex s = Some i) (fun _ s => batchIndex s = x).

Lemma recorded_after i x (m : M Service unit) :
  in_u64 i -> preserves (fun s => batchIndex s = x) m -> recorded i x (m ;; SetLatestBatchIndex (Some i)).
Proof.
  intros Hi Hm. apply triple_keep; [done|done|intros ?]. apply triple_modS. intros s _.
  unfold batchIndex. cbn [s_db set_db]. by db_simpl.
Qed.

Lemma recorded_wrap i x p m : recorded i x m -> recorded i x (wrap p m).
Proof. intros H s Hs. specialize (H s Hs). unfold wrap. by destruct (m s) as [[] ?]. Qed.

Lemma recorded_bind {X} i x (m : M Service X) f :
  preserves (fun s => batchIndex s = x) m -> (forall a, recorded i x (f a)) -> recorded i x (bindM m f).
Proof. intros Hm Hf. by apply triple_keep. Qed.

Abbreviation keepsB x m := (preserves (fun s : Service => batchIndex s = x) m).
Lemma keepB_quiet {X} x (m : M Service X) : quiet m -> keepsB x m.
Proof. apply (keep_quiet (fun db => ReadHeadBatchIndex db = x)). Qed.

Lemma recorded_blockBatch i x : in_u64 i -> recorded i x (syncBlockBatch cfg i).
Proof.
  intros Hi. unfold syncBlockBatch, GetNextIndex, GetLatestIndex.
  apply recorded_bind; [apply keepB_quiet, quiet_on_client|intros [batch blocks]].
  apply recorded_bind; [repeat preserves_step|intros next].
  apply recorded_after; [done|]. apply (keep_for_each (fun db => ReadHeadBatchIndex db = x)). intros b.
  pose proof (batch_frame x).
  repeat first [by apply (keep_block cfg _ (batch_frame x))|by apply (keep_report (fun db => ReadHeadBatchIndex db = x))|preserves_step].
Qed.


(** *** The verdict on a state root *)

(** The state after one round without an answer, and the answer of round [k]. *)
Definition pollRound (txIndex : Z) (s : Service) : Service :=
  snd (env_do (time_Sleep 1000) (snd (on_client (GetStateRoot txIndex) s))).
Definition pollAnswer (txIndex : Z) (k : nat) (s : Service) : outcome hash :=
  fst (on_client (GetStateRoot txIndex) (Nat.iter k (pollRound txIndex) s)).

Lemma iter_shift {X} k (f : X -> X) x : Nat.iter k f (f x) = Nat.iter (S k) f x.
Proof. symmetry. apply Nat.iter_succ_r. Qed.

Lemma fetchStateRoot_first n : forall k txIndex local s,
  (k < n)%nat -> (forall j, (j < k)%nat -> pollAnswer txIndex j s = Ok 0) ->
  pollAnswer txIndex k s <> Ok 0 ->
  fst (fetchStateRoot n txIndex local s) =
    match pollAnswer txIndex k s with
    | Ok h => Ok (Hash_Hex h, Hash_Hex local, if h =? local then None else Some errRootMismatch)
    | Err e => Ok (""%string, Hash_Hex local, Some (ErrWrap "Fetch stateroot failed" e))
    | Panic w => Panic w
    | Blocked => Blocked
    end.
Proof.
  induction n as [|n IH]; intros k txIndex local s Hk Hz Hn; [lia|]. cbn [fetchStateRoot].
  destruct k as [|k].
  - change (pollAnswer txIndex 0 s) with (fst (on_client (GetStateRoot txIndex) s)) in *. unfold bindM, attempt.
    destruct (on_client (GetStateRoot txIndex) s) as [[h|e|w|] s1]; cbn [fst] in *; try done.
    destruct (Z.eqb_spec h 0) as [->|]; [congruence|]. by destruct (h =? local).
  - specialize (IH k txIndex local (pollRound txIndex s) ltac:(lia)).
    unfold pollAnswer in IH. setoid_rewrite iter_shift in IH. fold (pollAnswer txIndex (S k) s) in IH.
    rewrite <- IH; [|intros j Hj; apply (Hz (S j)); lia|done].
    specialize (Hz 0%nat ltac:(lia)). change (fst (on_client (GetStateRoot txIndex) s) = Ok 0) in Hz.
    unfold bindM at 1, attempt. unfold pollRound.
    by destruct (on_client (GetStateRoot txIndex) s) as [[h|e|w|] s1]; cbn in Hz; simplify_eq.
Qed.

Lemma fetchStateRoot_timeout n : forall txIndex local s,
  (forall j, (j < n)%nat -> pollAnswer txIndex j s = Ok 0) ->
  fst (fetchStateRoot n txIndex local s) = Ok (""%string, ""%string, Some (ErrNew "Fetch stateroot failed")).
Proof.
  induction n as [|n IH]; intros txIndex local s Hz; [done|]. cbn [fetchStateRoot].
  rewrite <- (IH txIndex local (pollRound txIndex s)).
  - specialize (Hz 0%nat ltac:(lia)). change (fst (on_client (GetStateRoot txIndex) s) = Ok 0) in Hz.
    unfold bindM at 1, attempt. unfold pollRound.
    by destruct (on_client (GetStateRoot txIndex) s) as [[h|e|w|] s1]; cbn in Hz; simplify_eq.
  - intros j Hj. specialize (Hz (S j) ltac:(lia)). unfold pollAnswer in *. by rewrite iter_shift.
Qed.

(** C27: the wait for a state root ends, and its verdict is decided by the first
    answer that is not empty: agreement when it is the root of the head block,
    failure when it differs or the request fails, and failure after 36000 empty
    answers. *)
Theorem verifyStateRoot_verdict (tx : Transaction) (s : Service) (b : Block) (i : Z) :
  bc_CurrentBlock (s_env s) = Some b -> Index (meta tx) = Some i ->
  (forall k h, (k < stateRootRetries)%nat -> (forall j, (j < k)%nat -> pollAnswer i j s = Ok 0) ->
     pollAnswer i k s = Ok h -> h <> 0 ->
     fst (verifyStateRoot tx s) =
       Ok (i, (Hash_Hex h, Hash_Hex (b_root b), if h =? b_root b then None else Some errRootMismatch))) /\
  (forall k e, (k < stateRootRetries)%nat -> (forall j, (j < k)%nat -> pollAnswer i j s = Ok 0) ->
     pollAnswer i k s = Err e ->
     fst (verifyStateRoot tx s) =
       Ok (i, (""%string, Hash_Hex (b_root b), Some (ErrWrap "Fetch stateroot failed" e)))) /\
  ((forall j, (j < stateRootRetries)%nat -> pollAnswer i j s = Ok 0) ->
     fst (verifyStateRoot tx s) = Ok (i, (""%string, ""%string, Some (ErrNew "Fetch stateroot failed")))).
Proof.
  intros Hb Hi.
  assert (Hv : forall r, fst (fetchStateRoot stateRootRetries i (b_root b) s) = Ok r ->
                         fst (verifyStateRoot tx s) = Ok (i, r)).
  { intros r Hr. unfold verifyStateRoot, CurrentBlock, env_read, gets, bindM, deref, ret. rewrite Hb, Hi.
    by destruct (fetchStateRoot stateRootRetries i (b_root b) s) as [[] ?]; simplify_eq/=. }
  repeat apply conj.
  - intros k h Hk Hz Ha Hh. apply Hv. rewrite (fetchStateRoot_first _ k); [by rewrite Ha|done|done|congruence].
  - intros k e Hk Hz Ha. apply Hv. rewrite (fetchStateRoot_first _ k); [by rewrite Ha|done|done|congruence].
  - intros Hz. apply Hv. by apply fetchStateRoot_timeout.
Qed.
End Batches.

(** ** The queue *)

Section Queue.
Context {crypto : Crypto} {A : Type} {adapter : RollupAdapter A} {E : Type} {env : SyncEnv E}.
Variable cfg : Config.
Abbreviation Service := (SyncService A E).

Lemma restoreQueueIndex_run tx q (s : Service) :
  QueueIndex (meta tx) = Some q -> 0 < q < 2 ^ 64 ->
  exists s', restoreQueueIndex tx s = (Ok tt, s') /\ latestEnqueueIndex s' = Some (q - 1).
Proof.
  intros Hq Hr. unfold restoreQueueIndex. rewrite Hq. destruct (Z.ltb_spec 0 q); [|lia].
  eexists. split; [done|]. unfold latestEnqueueIndex. cbn [s_enqueueIndexNil set_enqueueIndexNil s_db set_db].
  apply cell_read_write. unfold in_u64. lia.
Qed.


(** *** The queue index after a restart *)

(** The chain as the block store documents it: one block per number up to the head. *)
Record chain_served (blk : Z -> Block) (n : Z) (e : E) : Prop := {
  cs_range : 0 <= n;
  cs_get : forall k, 0 <= k <= n -> bc_GetBlockByNumber k e = Some (blk k);
  cs_number : forall k, 0 <= k <= n -> NumberU64 (blk k) = k }.

Lemma fixQueueIndex_chain blk n q (s : Service) :
  chain_served blk n (s_env s) ->
  forall f k, Z.of_nat f = k -> 0 <= k <= n ->
  (exists j x, 0 < j <= k /\ blockQueueIndex (b_txs (blk j)) = Some x /\
     (forall l, j < l <= k -> blockQueueIndex (b_txs (blk l)) = None) /\
     fixQueueIndex (S f) (Some (blk k)) q s = (Ok (Some x), s)) \/
  ((forall l, 0 < l <= k -> blockQueueIndex (b_txs (blk l)) = None) /\
     fixQueueIndex (S f) (Some (blk k)) q s = (Ok None, s)).
Proof.
  intros Hc. induction f as [|f IH]; intros k Hf Hk.
  all: cbn [fixQueueIndex]; cbv zeta; rewrite (cs_number _ _ _ Hc) by done.
  - assert (k = 0) as -> by lia. right. split; [lia|done].
  - destruct (Z.eqb_spec k 0); [lia|].
    destruct (blockQueueIndex (b_txs (blk k))) as [x|] eqn:Ex.
    + left. exists k, x. repeat apply conj; try done; lia.
    + erewrite bind_Ok by reflexivity. cbv beta. rewrite (cs_get _ _ _ Hc) by lia.
      destruct (IH (k - 1)) as [(j & x & Hj & Hx & Hn & Hrun)|(Hn & Hrun)]; [lia|lia| |].
      * left. exists j, x. repeat apply conj; try done; try lia.
        intros l Hl. destruct (decide (l = k)) as [->|]; [done|apply Hn; lia].
      * right. split; [|done]. intros l Hl. destruct (decide (l = k)) as [->|]; [done|apply Hn; lia].
Qed.

(** C28: after a restart the queue index is recovered from the chain itself: the
    search from the head stops, and yields the queue index in the most recent
    block that contains an L1 to L2 transaction, or none when no block does. *)
Theorem fixQueueIndex_correct (blk : Z -> Block) (n q : Z) (s : Service) :
  chain_served blk n (s_env s) -> bc_CurrentBlock (s_env s) = Some (blk n) ->
  latestEnqueueIndex s = Some q ->
  (exists j x, 0 < j <= n /\ blockQueueIndex (b_txs (blk j)) = Some x /\
     (forall l, j < l <= n -> blockQueueIndex (b_txs (blk l)) = None) /\
     initQueueIndex s = SetLatestEnqueueIndex (Some x) s) \/
  ((forall l, 0 < l <= n -> blockQueueIndex (b_txs (blk l)) = None) /\
     initQueueIndex s = SetLatestEnqueueIndex None s).
Proof.
  intros Hc Hb Hq. pose proof (cs_range _ _ _ Hc).
  assert (Hrun : forall r, fixQueueIndex (S (Z.to_nat n)) (Some (blk n)) q s = (Ok r, s) ->
                 initQueueIndex s = SetLatestEnqueueIndex r s).
  { intros r Hr. unfold initQueueIndex, s_GetLatestEnqueueIndex. erewrite bind_Ok by reflexivity. rewrite Hq.
    unfold env_read. erewrite bind_Ok by reflexivity. cbv beta. rewrite Hb, (cs_number _ _ _ Hc) by lia.
    by rewrite (bind_Ok _ _ _ _ _ Hr). }
  destruct (fixQueueIndex_chain blk n q s Hc (Z.to_nat n) n) as [(j & x & Hj & Hx & Hn & Hr)|(Hn & Hr)]; [lia|lia| |].
  - left. exists j, x. repeat apply conj; try done; try lia. by apply Hrun.
  - right. split; [done|]. by apply Hrun.
Qed.
End Queue.

(** ** The RPC entry point *)

Section Rpc.
Context {crypto : Crypto} {A : Type} {adapter : RollupAdapter A} {E : Type} {env : SyncEnv E}.
Variable cfg : Config.
Variable oob : Z -> Z.
Abbreviation Service := (SyncService A E).

Definition feeOpts (tx : Transaction) (s : Service) : PaysEnoughOpts :=
  {| UserGasPrice := Some (Price (data tx)); ExpectedGasPrice := Some (l2GasPrice (s_gpo s));
     ThresholdUp := feeThresholdUp cfg; ThresholdDown := feeThresholdDown cfg |}.

(** What a transaction must satisfy. *)
Record fee_paid (tx : Transaction) (from : address) (s : Service) : Prop := {
  fp_zero : Price (data tx) = 0 -> enforceFees cfg = true -> from = s_owner s;
  fp_price : Price (data tx) <> 0 -> PaysEnough oob (feeOpts tx s) = None }.

(** Caching the owner again leaves the prices and the bookkeeping alone. *)
Lemma recache_owner (st : StateDB) (s s1 : Service) :
  cacheGasPriceOracleOwner (Some st) s = (Ok tt, s1) -> s_gpo s1 = s_gpo s /\ core s1 = core s.
Proof. unfold cacheGasPriceOracleOwner, readGPOStorageSlot, bindM, ret, modS. by intros [= <-]. Qed.

Lemma senderOrInvalid_Ok tx (s : Service) from s1 :
  senderOrInvalid cfg tx s = (Ok from, s1) -> fst (Sender (signer_of cfg) tx) = Ok from /\ s1 = s.
Proof.
  unfold senderOrInvalid, ret, throw, gopanic, blocked.
  destruct (fst (Sender (signer_of cfg) tx)); intros H; by simplify_eq.
Qed.

Lemma verifyFee_accepts tx (s s' : Service) :
  verifyFee cfg oob tx s = (Ok tt, s') ->
  exists from, fst (Sender (signer_of cfg) tx) = Ok from /\ fee_paid tx from s /\ core s' = core s.
Proof.
  intros H. unfold verifyFee in H. apply bind_Ok_inv in H as (from & s1 & H1 & H).
  apply senderOrInvalid_Ok in H1 as [Hs ->]. exists from. split; [done|].
  unfold GasPriceOracleOwnerAddress in H. erewrite bind_Ok in H by reflexivity. cbv beta in H.
  apply bind_Ok_inv in H as ([] & s1 & H1 & H).
  assert (Hc : s_gpo s1 = s_gpo s /\ core s1 = core s /\ (from <> s_owner s -> s_owner s1 = s_owner s)).
  { unfold when in H1. destruct (Z.eqb_spec from (s_owner s)); [|by injection H1 as <-].
    unfold env_read in H1. erewrite bind_Ok in H1 by reflexivity.
    apply bind_Ok_inv in H1 as (st & s2 & H2 & H1). unfold lift_out in H2. injection H2 as _ <-.
    apply recache_owner in H1 as [-> ->]. done. }
  destruct Hc as (Hg & Hcore & Ho).
  destruct (Z.eqb_spec (Price (data tx)) 0) as [Hp|Hp].
  - erewrite bind_Ok in H by reflexivity. cbv beta in H.
    unfold ret, throw in H.
    split; [|repeat case_in H; cbv beta in H; congruence].
    constructor; [|done]. intros _ He. destruct (decide (from = s_owner s)) as [->|Hne]; [done|].
    rewrite (Ho Hne) in H. destruct (Z.eqb_spec from (s_owner s)); [done|]. by rewrite He in H.
  - erewrite bind_Ok in H by reflexivity. cbv beta in H. rewrite Hg in H.
    fold (feeOpts tx s) in H. destruct (PaysEnough oob (feeOpts tx s)) as [err|] eqn:HP.
    + by repeat case_in H.
    + injection H as <-. split; [|done]. by constructor.
Qed.

(** C10: a transaction that the RPC entry point applies has passed every check: the
    node sequences, the transaction is of sequencer origin, its sender is
    recovered by the chain's signer, its gas price is within the thresholds of the
    cached L2 price, and a zero price is accepted under enforcement only from the
    owner of the gas price oracle. *)
Theorem rpc_accepts_valid (tx : Transaction) (s s' : Service) :
  ValidateAndApplySequencerTransaction cfg oob (Some tx) s = (Ok tt, s') ->
  verifier cfg = false /\ QueueOrigin (meta tx) = QueueOriginSequencer /\
  (exists from, fst (Sender (signer_of cfg) tx) = Ok from /\ fee_paid tx from s) /\
  exists s1 s2, core s1 = core s /\ core s2 = core s /\
    (exists from local, fst (Sender (signer_of cfg) tx) = Ok from /\
       on_env (txpool_ValidateTx tx local) s1 = (Ok tt, s2)) /\
    applyTransaction cfg (Some tx) true s2 = (Ok tt, s').
Proof.
  intros H. unfold ValidateAndApplySequencerTransaction in H. destruct (verifier cfg); [done|].
  split; [done|]. apply bind_Ok_inv in H as ([] & s1 & H1 & H).
  apply verifyFee_accepts in H1 as (from & Hs & Hf & Hc).
  destruct (Z.eqb_spec (QueueOrigin (meta tx)) QueueOriginSequencer); [|done]. cbn [negb] in H.
  split; [done|]. split; [by exists from|].
  apply bind_Ok_inv in H as (from' & s2 & H2 & H). apply senderOrInvalid_Ok in H2 as [Hs2 ->].
  unfold GasPriceOracleOwnerAddress in H. erewrite bind_Ok in H by reflexivity. cbv beta in H.
  apply bind_Ok_inv in H as ([] & s2 & H2 & H). exists s1, s2. unfold wrap in H2.
  pose proof (quiet_on_env (txpool_ValidateTx tx (from' =? s_owner s1)) (core s1) s1 eq_refl) as Hq.
  destruct (on_env _ s1) as [[[]| | |] s3] eqn:Ev; try discriminate H2. injection H2 as <-. cbn in Hq.
  split; [done|]. split; [congruence|]. split; [|done]. by exists from', (from' =? s_owner s1).
Qed.

(** *** The periodic refresh *)

Lemma time_Sub_small t u :
  0 <= t < 2 ^ 33 -> 0 <= u < 2 ^ 33 -> time_Sub (time_Unix (i64 t)) (time_Unix (i64 u)) = (t - u) * 10 ^ 9.
Proof.
  intros Ht Hu. assert (Hi : forall z, - 2 ^ 63 <= z < 2 ^ 63 -> i64 z = z).
  { intros z Hz. unfold i64. destruct (Z.le_gt_cases 0 z).
    - rewrite u64_small by (unfold in_u64; lia). by zcases.
    - assert (u64 z = z + 2 ^ 64) as ->; [|zcases; lia].
      unfold u64. rewrite <- (Z.mod_add _ 1) by lia. rewrite Z.mod_small; lia. }
  unfold time_Unix. rewrite (Hi t), (Hi u), (Hi (t + _)), (Hi (u + _)) by lia. unfold time_Sub. cbv zeta.
  replace (t + 62135596800 - (u + 62135596800)) with (t - u) by lia.
  rewrite (Hi ((t - u) * 10 ^ 9)) by lia.
  rewrite Z.rem_mul, Z.quot_mul, Z.eqb_refl by lia. cbn [andb].
  rewrite Hi by lia. by replace (u + 62135596800 + (t - u)) with (t + 62135596800) by lia; rewrite Z.eqb_refl.
Qed.

(** the L1 context is refreshed exactly when the server's L1 block is later than
    the stored timestamp by more than the configured threshold, and then takes that
    block's number and time; otherwise it is unchanged.  With a threshold that is
    not negative the timestamp therefore never decreases. *)
Theorem updateL1BlockNumber_monotone (s s1 s' : Service) (context : EthContext) :
  on_client GetLatestEthContext s = (Ok context, s1) ->
  0 <= s_timestamp s < 2 ^ 33 -> 0 <= ec_Timestamp context < 2 ^ 33 -> 0 <= timestampRefreshThreshold cfg ->
  updateL1BlockNumber cfg s = (Ok tt, s') ->
  (s_timestamp s', s_blockNumber s') =
    (if timestampRefreshThreshold cfg <? (ec_Timestamp context - s_timestamp s) * 10 ^ 9
     then (ec_Timestamp context, ec_BlockNumber context) else (s_timestamp s, s_blockNumber s)) /\
  s_timestamp s <= s_timestamp s'.
Proof.
  intros Hg Ht Hc Hth H. unfold updateL1BlockNumber in H.
  assert (Hw : wrap "Cannot get eth context" (on_client GetLatestEthContext) s = (Ok context, s1))
    by (unfold wrap; by rewrite Hg).
  rewrite (bind_Ok _ _ _ _ _ Hw) in H. unfold GetLatestL1Timestamp in H.
  erewrite bind_Ok in H by reflexivity. cbv zeta beta in H.
  pose proof (quiet_on_client GetLatestEthContext (core s) s eq_refl) as Hq. rewrite Hg in Hq. cbn in Hq.
  injection Hq as _ Hq1 Hq2 _. rewrite Hq1, time_Sub_small in H by done. unfold when in H.
  destruct (Z.ltb_spec (timestampRefreshThreshold cfg) ((ec_Timestamp context - s_timestamp s) * 10 ^ 9)).
  - injection H as <-. cbn. split; [done|lia].
  - injection H as <-. rewrite Hq1, Hq2. split; [done|lia].
Qed.

(** ** Reaching the tip *)

Lemma sync_stable getLatest getNext syncer T (s s' : Service) n :
  (forall s0 : Service, getLatest s0 = (Ok (Some T), s0)) -> 0 <= T < maxU64 -> getNext s = (Ok n, s) ->
  (if T <? n then s' = s else syncer n T s = (Ok tt, s')) ->
  sync getLatest getNext syncer s = (Ok (Some T), s').
Proof.
  intros Hl HT Hn Hs. unfold maxU64 in HT. unfold sync.
  assert (Hw : wrap "Cannot sync" getLatest s = (Ok (Some T), s)) by (unfold wrap; by rewrite Hl).
  rewrite (bind_Ok _ _ _ _ _ Hw), (bind_Ok _ _ _ _ _ Hn). rewrite u64_small by (unfold in_u64; lia).
  destruct (Z.ltb_spec T n), (Z.leb_spec (T + 1) n); try lia; [by subst|].
  by rewrite (bind_Ok _ _ _ _ _ Hs).
Qed.

(** against a server whose tip does not move, synchronising ends after one
    round: everything from the next local index to the tip is handed to the range
    syncer exactly once, nothing when the local side is already there, and the
    loop returns without error in the state the range syncer left. *)
Theorem syncToTip_stable (getLatest : indexGetter (A:=A) (E:=E)) (getNext : M Service Z)
    (syncer : Z -> Z -> M Service unit) (T n : Z) (s s' : Service) (fuel : nat) :
  (forall s0 : Service, getLatest s0 = (Ok (Some T), s0)) -> 0 <= T < maxU64 -> getNext s = (Ok n, s) ->
  (if T <? n then s' = s else syncer n T s = (Ok tt, s')) ->
  syncToTip (S fuel) (sync getLatest getNext syncer) getLatest s = (Ok tt, s').
Proof.
  intros Hl HT Hn Hs. pose proof (sync_stable _ _ _ _ _ _ _ Hl HT Hn Hs) as Hsync. cbn [syncToTip].
  rewrite (bind_Ok _ _ _ _ _ (attempt_Ok _ _ _ _ Hsync)). unfold isAtTip, bindM at 1.
  rewrite (bind_Ok _ _ _ _ _ (attempt_Ok _ _ _ _ (Hl s'))). by rewrite Z.eqb_refl.
Qed.
End Rpc.

(** ** Examples *)

#[local] Existing Instances sample_crypto sample_ra sample_syncenv.

Definition batch_run := syncTransactionBatch (sample_cfg 0xDEF true) 9 (sample_service 41 40).
Definition queue_run := syncQueueTransaction (sample_cfg 0xDEF false) 3 (sample_service 1 0).
Definition rpc_run :=
  ValidateAndApplySequencerTransaction (sample_cfg 0xDEF false) (fun z => z) (Some sample_local) (sample_service 1 0).
Definition refresh_run := updateL1BlockNumber (sample_cfg 0xDEF false) (sample_service 1 0).

Lemma batch_run_eq :
  syncTransactionBatch (sample_cfg 0xDEF true) 9 (sample_service 41 40) = (fst batch_run, snd batch_run).
Proof. unfold batch_run. apply run_pair. Qed.
Lemma queue_run_eq :
  syncQueueTransaction (sample_cfg 0xDEF false) 3 (sample_service 1 0) = (Err (ErrNew "Enqueue failed"), snd queue_run).
Proof.
  assert (E : fst queue_run = Err (ErrNew "Enqueue failed")) by (vm_compute; reflexivity).
  rewrite <- E. unfold queue_run. apply run_pair.
Qed.
Lemma rpc_run_eq :
  ValidateAndApplySequencerTransaction (sample_cfg 0xDEF false) (fun z => z) (Some sample_local) (sample_service 1 0) =
  (Ok tt, snd rpc_run).
Proof.
  assert (E : fst rpc_run = Ok tt) by (vm_compute; reflexivity). rewrite <- E. unfold rpc_run. apply run_pair.
Qed.
Lemma refresh_run_eq :
  updateL1BlockNumber (sample_cfg 0xDEF false) (sample_service 1 0) = (Ok tt, snd refresh_run).
Proof.
  assert (E : fst refresh_run = Ok tt) by (vm_compute; reflexivity). rewrite <- E. unfold refresh_run. apply run_pair.
Qed.


Lemma verifyStateRoot_verdict_witness :
  fst (verifyStateRoot (SetIndex 5 sample_tx) (sample_service 41 40)) =
  Ok (5, (Hash_Hex 0x77, Hash_Hex 0x77, None)).
Proof.
  refine (proj1 (verifyStateRoot_verdict (SetIndex 5 sample_tx) (sample_service 41 40) (sample_blk 41) 5 eq_refl eq_refl)
    0%nat 0x77 _ _ _ _).
  - unfold stateRootRetries. lia.
  - lia.
  - vm_compute. reflexivity.
  - discriminate.
Defined.


Lemma sample_chain_served : chain_served sample_blk 3 (s_env (sample_service 3 2)).
Proof.
  split; [lia| |].
  - intros k Hk. cbn. destruct (Z.leb_spec 0 k), (Z.leb_spec k 3); [done|lia..].
  - intros k Hk. unfold NumberU64, big_uint64. cbn [b_number sample_blk].
    rewrite Z.abs_eq, u64_small; [done|unfold in_u64; lia|lia].
Qed.

(** No block of the sample chain holds an L1 to L2 transaction. *)
Lemma fixQueueIndex_correct_witness :
  chain_served sample_blk 3 (s_env (sample_service 3 2)) /\
  initQueueIndex (sample_service 3 2) = SetLatestEnqueueIndex None (sample_service 3 2).
Proof.
  split; [exact sample_chain_served|].
  destruct (fixQueueIndex_correct sample_blk 3 2 (sample_service 3 2) sample_chain_served eq_refl
    ltac:(vm_compute; reflexivity)) as [(j & x & Hj & Hx & _)|[_ H]]; [|exact H].
  unfold sample_blk in Hx. destruct (j =? 0); discriminate.
Defined.

Lemma rpc_accepts_valid_witness :
  fst rpc_run = Ok tt /\
  exists from, fst (Sender (signer_of (sample_cfg 0xDEF false)) sample_local) = Ok from /\
    fee_paid (sample_cfg 0xDEF false) (fun z => z) sample_local from (sample_service 1 0).
Proof.
  split; [vm_compute; reflexivity|].
  pose proof (rpc_accepts_valid (sample_cfg 0xDEF false) (fun z => z) sample_local (sample_service 1 0) (snd rpc_run)
    rpc_run_eq) as (_ & _ & H & _). exact H.
Defined.

Lemma updateL1BlockNumber_monotone_witness :
  fst refresh_run = Ok tt /\ s_timestamp (sample_service 1 0) <= s_timestamp (snd refresh_run).
Proof.
  split; [vm_compute; reflexivity|].
  refine (proj2 (updateL1BlockNumber_monotone (sample_cfg 0xDEF false) (sample_service 1 0) (sample_service 1 0)
    (snd refresh_run) {| ec_BlockNumber := 120; ec_Timestamp := 2000 |} _ _ _ _ refresh_run_eq)).
  - vm_compute. reflexivity.
  - cbn. lia.
  - cbn. lia.
  - cbn. lia.
Defined.

(** The queue of the sample server, whose tip is element 4. *)
Lemma syncToTip_stable_witness :
  syncToTip 3 (sync (client_index GetLatestEnqueueIndex) GetNextEnqueueIndex (fun _ _ => SetLatestEnqueueIndex (Some 4)))
    (client_index GetLatestEnqueueIndex) (sample_service 1 0) =
  SetLatestEnqueueIndex (Some 4) (sample_service 1 0).
Proof.
  refine (syncToTip_stable (client_index GetLatestEnqueueIndex) GetNextEnqueueIndex
    (fun _ _ => SetLatestEnqueueIndex (Some 4)) 4 3 (sample_service 1 0) _ 2 _ _ _ _).
  - intros s0. unfold client_index, on_client, bindM. destruct s0 as [? ? ? ? ? ? ? ? ? ? ? ? ? [c u]]. reflexivity.
  - unfold maxU64. lia.
  - vm_compute. reflexivity.
  - vm_compute. reflexivity.
Defined.
