(* ===== verification/SyncLive.v ===== *)
(** Catching up with the L1 queue (rollup/sync_service.go).

    As long as the server answers and the elements of the queue can be applied, the loop
    that follows the queue ends, and when it ends the node has applied every element up to
    the tip the server then reports, although that tip moves while the node works. *)
From stdpp Require Import prelude list strings gmap.
From Stdlib Require Import ZArith Lia Ascii.
From S2P Require Import Prelude VarBytes TxMeta RollupDB RLP Crypto Hexutil Transaction SeqSet Fees SeqAdapter Client SyncState SyncApply SyncLoop.
Local Open Scope Z_scope.

Section live.
Context {crypto : Crypto} {A : Type} {adapter : RollupAdapter A} {E : Type} {env : SyncEnv E}.
Local Abbreviation Service := (SyncService A E).

(** ** A loop towards a moving tip *)

Section chase.
Context (getLatest : indexGetter (A:=A) (E:=E)) (getNext : M Service Z) (item : Z -> M Service unit).
Context (Inv : Service -> Prop) (tip next : Service -> Z) (most : Z).

(** The server answers with a tip that does not fall and stays below [most]; the next
    element, when there is one, can be applied. *)
Record answering : Prop := {
  an_bounds : forall s, Inv s -> 0 <= next s <= tip s + 1 /\ tip s <= most;
  an_tip : forall s, Inv s -> exists s', getLatest s = (Ok (Some (tip s')), s') /\ Inv s' /\ next s' = next s /\ tip s <= tip s';
  an_next : forall s, Inv s -> getNext s = (Ok (next s), s);
  an_item : forall s, Inv s -> next s <= tip s -> exists s', item (next s) s = (Ok tt, s') /\ Inv s' /\ next s' = next s + 1 /\ tip s <= tip s' }.

Context (H : answering) (Hmost : most < 2 ^ 64 - 1).

(** A range that is within the tip is applied to its end. *)
Lemma range_applied n : forall s, Inv s -> next s + Z.of_nat n <= tip s + 1 ->
  exists s', for_range n (next s) item s = (Ok tt, s') /\ Inv s' /\ next s' = next s + Z.of_nat n /\ tip s <= tip s'.
Proof.
  induction n as [|n IH]; intros s Hs Hn; [exists s; cbn; split; [done|]; split; [done|]; lia|].
  destruct (an_item H s Hs) as (s1 & E1 & Hs1 & En1 & Ht1); [lia|].
  destruct (IH s1 Hs1) as (s2 & E2 & Hs2 & En2 & Ht2); [lia|]. exists s2. cbn [for_range]. rewrite (bind_Ok _ _ _ _ _ E1), <- En1.
  split; [done|]. split; [done|]. lia.
Qed.

Lemma round_applied s : Inv s -> exists s', sync getLatest getNext (fun a b => for_incl a b item) s = (Ok (Some (next s' - 1)), s') /\
  Inv s' /\ tip s <= next s' - 1 <= tip s'.
Proof.
  intros Hs. destruct (an_tip H s Hs) as (s1 & E1 & Hs1 & En1 & Ht1). destruct (an_bounds H s1 Hs1) as [Hb1 Hm1].
  unfold sync. assert (Hw : wrap "Cannot sync" getLatest s = (Ok (Some (tip s1)), s1)) by (unfold wrap; by rewrite E1).
  rewrite (bind_Ok _ _ _ _ _ Hw), (bind_Ok _ _ _ _ _ (an_next H s1 Hs1)). rewrite u64_small by (unfold in_u64; lia).
  destruct (Z.leb_spec (tip s1 + 1) (next s1)) as [Hle|Hgt].
  { exists s1. replace (tip s1) with (next s1 - 1) by lia. split; [done|]. split; [done|]. lia. }
  destruct (range_applied (Z.to_nat (tip s1 - next s1 + 1)) s1 Hs1) as (s2 & E2 & Hs2 & En2 & Ht2); [lia|].
  exists s2. unfold for_incl. rewrite (bind_Ok _ _ _ _ _ E2). replace (tip s1) with (next s2 - 1) by lia. split; [done|]. split; [done|]. lia.
Qed.

(** Every round that does not end the loop has seen the tip rise. *)
Lemma chase_ends w fuel : forall s, Inv s -> most - tip s < Z.of_nat fuel -> exists s',
  syncToTip fuel (wrap w (sync getLatest getNext (fun a b => for_incl a b item))) getLatest s = (Ok tt, s') /\ Inv s' /\ next s' = tip s' + 1.
Proof.
  induction fuel as [|fuel IH]; intros s Hs Hf; [destruct (an_bounds H s Hs); lia|].
  destruct (round_applied s Hs) as (s1 & E1 & Hs1 & Ht1). destruct (an_tip H s1 Hs1) as (s2 & E2 & Hs2 & En2 & Ht2). cbn [syncToTip].
  assert (Hw : wrap w (sync getLatest getNext (fun a b => for_incl a b item)) s = (Ok (Some (next s1 - 1)), s1)) by (unfold wrap; by rewrite E1).
  rewrite (bind_Ok _ _ _ _ _ (attempt_Ok _ _ _ _ Hw)). unfold isAtTip, bindM at 1. rewrite (bind_Ok _ _ _ _ _ (attempt_Ok _ _ _ _ E2)).
  destruct (Z.eqb_spec (tip s2) (next s1 - 1)) as [Heq|Hne].
  - exists s2. split; [done|]. split; [done|]. lia.
  - destruct (Z.ltb_spec (tip s2) (next s1 - 1)); [lia|]. apply IH; [done|lia].
Qed.
End chase.

(** ** The queue *)

(** C6: The node catches up with the L1 queue.  Let the server answer with a tip that may rise while the node works but stays bounded, let every element up to the tip be applied without error, and let it be this node's turn; then following the queue ends without error, after no more rounds than the tip rises, and the next element the node waits for is the one after the tip. *)
Theorem queue_catches_up (cfg : Config) (Inv : Service -> Prop) (tip next : Service -> Z) (most : Z) (fuel : nat) (s s1 : Service) :
  answering (client_index GetLatestEnqueueIndex) GetNextEnqueueIndex (syncQueueTransaction cfg) Inv tip next most -> most < 2 ^ 64 - 1 ->
  waitingSequencerTip cfg s = (Ok false, s1) -> Inv s1 -> most - tip s1 < Z.of_nat fuel ->
  exists s', syncQueueToTip cfg fuel s = (Ok tt, s') /\ GetNextEnqueueIndex s' = (Ok (tip s' + 1), s').
Proof.
  intros H Hm Hw Hs Hf. destruct (chase_ends _ _ _ _ _ _ _ H Hm "Cannot sync queue" fuel s1 Hs Hf) as (s' & E' & Hs' & En').
  exists s'. split; [|rewrite <- En'; by apply (an_next _ _ _ _ _ _ _ H)].
  unfold syncQueueToTip, pausedOr. rewrite (bind_Ok _ _ _ _ _ (attempt_Ok _ _ _ _ Hw)).
  change (syncQueue cfg) with (wrap "Cannot sync queue" (sync (client_index GetLatestEnqueueIndex) GetNextEnqueueIndex (fun a b => for_incl a b (syncQueueTransaction cfg)))).
  by rewrite (bind_Ok _ _ _ _ _ (attempt_Ok _ _ _ _ E')).
Qed.
End live.

(** ** Examples *)

#[local] Existing Instances sample_crypto sample_ra.

(** A server whose queue grows with the chain up to element 5, and a database in which
    mined transactions are found. *)
Definition growing_transport : Transport Z := {|
  get_enqueue := get_enqueue (Transport:=sample_transport);
  get_enqueue_latest := fun e => (Reply (Some (sample_enqueue (Z.min 5 (e - 38)))), e);
  get_transaction := get_transaction (Transport:=sample_transport);
  get_transaction_latest := get_transaction_latest (Transport:=sample_transport);
  get_eth_context := get_eth_context (Transport:=sample_transport);
  get_eth_context_latest := get_eth_context_latest (Transport:=sample_transport);
  get_syncing := get_syncing (Transport:=sample_transport);
  get_batch_transaction_latest := get_batch_transaction_latest (Transport:=sample_transport);
  get_batch_transaction := get_batch_transaction (Transport:=sample_transport);
  get_stateroot := get_stateroot (Transport:=sample_transport);
  set_verifier := set_verifier (Transport:=sample_transport);
  get_block := get_block (Transport:=sample_transport);
  get_block_latest := get_block_latest (Transport:=sample_transport);
  get_batch_block_latest := get_batch_block_latest (Transport:=sample_transport);
  get_batch_block := get_batch_block (Transport:=sample_transport) |}.
#[local] Instance growing_syncenv : SyncEnv Z := {|
  env_transport := growing_transport;
  now_ms := fun _ => 1700000000000;
  time_Sleep := fun _ e => e;
  bc_CurrentBlock := fun n => Some (sample_blk n);
  bc_GetBlockByNumber := fun k n => if (0 <=? k) && (k <=? n) then Some (sample_blk k) else None;
  bc_State := fun _ => Ok (fun _ h => h);
  bc_StateAt := fun _ _ => Ok (fun _ h => h);
  db_ReadTransaction := fun _ _ => true;
  seq_env := fun _ => sample_env;
  sequencer_height := fun e => (Ok 0, e);
  txpool_AddLocal := fun _ e => (Ok tt, e);
  txpool_ValidateTx := fun _ _ e => (Ok tt, e);
  txFeed_Send := fun _ _ e => e;
  txOtherFeed_Send := fun _ e => e;
  await := fun n => Some ({| dl_head := true; dl_err := None |}, n + 1);
  pick_err := fun _ => true |}.

Definition chase_item (k : Z) := syncQueueTransaction (sample_cfg 0xDEF false) k.
Definition chase0 : SyncService SeqAdapter Z := Eval vm_compute in snd (waitingSequencerTip (sample_cfg 0xDEF false) (sample_service 41 40)).
Definition chase1 : SyncService SeqAdapter Z := Eval vm_compute in snd (chase_item 3 chase0).
Definition chase2 : SyncService SeqAdapter Z := Eval vm_compute in snd (chase_item 4 chase1).
Definition chase3 : SyncService SeqAdapter Z := Eval vm_compute in snd (chase_item 5 chase2).
Definition chase_state (s : SyncService SeqAdapter Z) : Prop := s ∈ [chase0; chase1; chase2; chase3].
Definition chase_tip (s : SyncService SeqAdapter Z) : Z := Z.min 5 (s_env s - 38).
Definition chase_next (s : SyncService SeqAdapter Z) : Z := match fst (GetNextEnqueueIndex s) with Ok n => n | _ => 0 end.

Lemma chase_cases (P : SyncService SeqAdapter Z -> Prop) : P chase0 -> P chase1 -> P chase2 -> P chase3 -> forall s, chase_state s -> P s.
Proof. intros H0 H1 H2 H3 s Hs. unfold chase_state in Hs. rewrite !elem_of_cons in Hs. destruct Hs as [->|[->|[->|[->|Hs]]]]; try done. by apply not_elem_of_nil in Hs. Qed.

Lemma chase_answering : answering (client_index GetLatestEnqueueIndex) GetNextEnqueueIndex chase_item chase_state chase_tip chase_next 5.
Proof.
  split.
  - refine (chase_cases _ _ _ _ _); (split; [split|]; vm_compute; discriminate).
  - intros s Hs. exists s. split; [|split; [done|split; [done|lia]]]. revert s Hs. refine (chase_cases _ _ _ _ _); vm_compute; reflexivity.
  - refine (chase_cases _ _ _ _ _); vm_compute; reflexivity.
  - refine (chase_cases _ _ _ _ _); intros Hle; [exists chase1|exists chase2|exists chase3|exfalso; vm_compute in Hle; by apply Hle];
      (split; [vm_compute; reflexivity|]; split; [unfold chase_state; rewrite !elem_of_cons; tauto|]; split; vm_compute; [reflexivity|discriminate]).
Qed.

Lemma queue_catches_up_witness :
  chase_tip (sample_service 41 40) = 3 /\
  exists s', syncQueueToTip (sample_cfg 0xDEF false) 3 (sample_service 41 40) = (Ok tt, s') /\ GetNextEnqueueIndex s' = (Ok (chase_tip s' + 1), s').
Proof.
  split; [reflexivity|].
  apply (queue_catches_up (sample_cfg 0xDEF false) chase_state chase_tip chase_next 5 3 (sample_service 41 40) chase0 chase_answering).
  - lia.
  - vm_compute. reflexivity.
  - unfold chase_state. left.
  - vm_compute. reflexivity.
Defined.
